(* ===== verification/_CoqProject ===== *)
-Q . S2P
Prelude.v
Riscv.v
Kernel.v
Mem.v
Str.v
Printf.v
Ulib.v
Umalloc.v
Grep.v
Sh.v
ShSpec.v
ShRound.v
Usys.v
ShRun.v
Spinlock.v
Sleeplock.v
Inv.v
Queue.v
Kmem.v
Swap.v
Walk.v
Pt.v
Replace.v
ResidentSpec.v
EvictSpec.v
AllocSpec.v
Check.v
RamFs.v
Elf.v
Vm.v
Proc.v
ProcSpec.v
Trap.v
Exec.v
SysProc.v
Demo.v
WalkSpec.v
FaultSpec.v
ExecFaultSpec.v
SwapSpec.v
SwapInSpec.v
DemoSwap.v
PagingTheorems.v
KallocRace.v
CopySpec.v
Bio.v
Log.v
Virtio.v
VirtioSpec.v
Fs.v
Outside.v
File.v
PipeSpec.v
SysFile.v
Console.v
ConsoleSpec.v
Programs.v
ProgSpec.v
Boot.v
BioSpec.v
LogSpec.v
CrashSpec.v
TxnSpec.v
LogTheorems.v
BlockSpec.v
HeldSpec.v
BallocSpec.v
InodeSpec.v
ContentSpec.v
AppendSpec.v
GrowSpec.v
DirSpec.v
Mkfs.v
MkfsSpec.v
MkfsTheorems.v
MkfsBoot.v
