(* ===== verification/Prelude.v ===== *)
(** * Verification of the xv6 demand-paging kernel

    The program is xv6 for RISC-V with a demand-paging and swapping subsystem
    (src/kernel), the user programs (src/user) and the program that makes the
    disk image (src/mkfs). This library translates it into functions of Rocq and
    proves what its parts promise to each other.

    ** How code becomes definitions

    A routine is a function [S -> outcome S A] (this file): it returns a value
    and a new state, panics with its message, blocks, hands the processor to the
    scheduler, or runs out of the fuel of a loop. Integers are in [Z], wrapped
    ([u64], [u32], [s32], ...) where the C code wraps. Loops recurse on their data
    or on a fuel that the caller computes from the data; where a theorem says
    that a routine returns, the fuel is proved to be enough. A context switch
    ends a run with the outcome [Switch]; what the routine does when the
    scheduler resumes it is a definition of its own ([sleep_resume],
    [scheduler_back], [forkret]). Calls to a neighbouring component go through
    classes ([FsOps], [FileOps], [Mmio], [DevOps], ...), whose instances are given
    by the files that model that component.

    ** The files

    - Machine and state. Riscv: page and page-table arithmetic of riscv.h and
      memlayout.h. Kernel: [kstate], the state of the kernel (memory as pages of
      bytes, the process table, the held locks, the console), the constants, and
      the interface [FsOps]. Mem: loads and stores. Str: string.c.
    - Memory. Kmem and Replace: kalloc.c with page replacement. Swap, Queue:
      swap slots and the resident set of proc.c. Walk, Vm: vm.c with the fault
      handler [vmfault]. Inv: the invariant [kinv], which gives every page of
      memory one role. Pt, ResidentSpec, EvictSpec, AllocSpec, WalkSpec,
      FaultSpec, ExecFaultSpec, SwapSpec, SwapInSpec: lemmas of these operations.
      Check, Demo, DemoSwap: executable checkers of the invariant and concrete
      states. CopySpec: [copyin] and [copyout]. PagingTheorems: the theorems.
      KallocRace: two harts in [kalloc].
    - Processes. Proc (proc.c), Trap (trap.c), Exec and Elf (exec.c, elf.h),
      SysProc (syscall.c, sysproc.c). ProcSpec: sleep, wakeup, kill, scheduler.
    - Locks. Spinlock: spinlock.c as the atomic steps of many harts. Sleeplock:
      sleeplock.c with [sleep], [wakeup] and the scheduler as the steps of many
      processes.
    - File system. Bio, Log, Fs: bio.c, log.c, fs.c over a disk that records the
      order of its block writes. RamFs: a small instance of [FsOps] for examples.
      BioSpec, LogSpec, CrashSpec, TxnSpec, LogTheorems: the cache, the log and
      crashes. BlockSpec, HeldSpec, BallocSpec, InodeSpec, ContentSpec: blocks,
      inodes and file contents inside a transaction. AppendSpec, GrowSpec: files
      that grow. DirSpec: directories. Outside: what happens outside a
      transaction.
      File, SysFile: file.c, pipe.c, sysfile.c. PipeSpec: pipes as queues.
    - Devices and start-up. Virtio, VirtioSpec: virtio_disk.c with its device.
      Console, ConsoleSpec: console.c, uart.c, plic.c. Boot: start.c, the kernel
      page table and the initialisation of the disk.
    - User programs. Printf: both printf.c. Ulib: ulib.c. Umalloc: umalloc.c.
      Grep: the matcher and the line loop of grep.c. Sh, ShSpec, ShRound: the
      parser of sh.c. Usys: programs as trees of system calls, and the processes
      that come of running one. ShRun: [runcmd], [getcmd] and [main] of sh.c as
      such programs. Programs: cat.c, wc.c, grep.c, ls.c, echo.c, mkdir.c, rm.c,
      ln.c, kill.c and init.c. ProgSpec: what they write and how they end.
    - Disk image. Mkfs: mkfs.c. MkfsSpec, MkfsTheorems: what is on the image.
      MkfsBoot: the kernel started on it.

    ** What the theorems show

    Paging: the allocator returns a page no one else owns; the replacement takes
    the oldest page and keeps every other one; a page that was swapped out comes
    back with its contents and permissions; a fault maps heap, stack or program
    pages exactly where it may. Crashes: a transaction is atomic whatever prefix
    of its writes reached the disk. Files: [readi], [writei], [balloc], [bfree] and
    the inode routines read and write what they should, as seen through the
    cache and the log, also when the file grows or the disk is full; a name that
    is linked is found. The kernel boots from the
    image that mkfs makes and reads back every file on it. Concurrency: spin
    locks and sleep-locks exclude in every interleaving, wake-ups are not lost,
    the disk driver behaves as an atomic disk. Pipes and the console are queues
    of bytes. User memory is copied exactly. The shell parser inverts the printer
    and ends on every input; the shell starts, for the lines that are typed,
    exactly the processes their commands ask for, and no process keeps an end of a
    pipe it does not use; [init] starts the shell on the console and again each
    time it exits; grep matches the regular expressions it documents and prints
    the matching lines of its files, and cat, wc, ls and echo print what they
    should, however reads are cut;
    [malloc] never hands out memory that is in use. Some theorems record defects:
    an eviction outside a file-system operation stops the kernel, a full log
    cannot commit, two harts can be given the same page, and kill(0) marks a free
    slot.

    ** Bounds

    Walks of a page table recurse on the level. Loops over pages, blocks, bytes,
    table entries or list nodes have as fuel the number of steps the data allows
    plus one. The handler of the disk takes at most [NUM] completions, the number
    of descriptors. The parser of the shell has four calls per character. [malloc]
    goes round the free list at most twice, once before and once after it has
    asked for memory. A user program that reads to the end of a file has more fuel
    than the file has bytes, the shell more than there are lines, and [init] more
    than [wait] has results; the loop of sh.c that opens the console ends by the
    fourth call, whose descriptor is at least three.

    ** User programs and the system

    A user program is a tree of system calls. It runs in a process with a table of
    descriptors; what the system decides (which files exist, what reads return,
    whether a fork succeeds) is the class [Os], with the laws that a read before
    the end of a file returns at least one byte and at most what was asked, and
    that process numbers are positive. The lowest free descriptor is the one the
    kernel's [fdalloc] takes ([lowest_free_fd]).

    ** Not modelled

    Assembly and linker scripts (entry.S, kernelvec.S, swtch.S, trampoline.S,
    *.ld): register saves around the C code. The control-register accessors of
    riscv.h, which are single instructions, and TLB flushes: the model always
    reads page tables from memory. The test programs (usertests.c, grind.c and
    the rest): they exercise the kernel modelled here. [main] of main.c: it calls
    the initialisers in order. Memory accesses of user code: a page fault is an
    input of [usertrap]. *)

From stdpp Require Import base gmap list strings.
From stdpp Require Export base gmap list strings.
From Stdlib Require Import ZArith Lia.

Declare Scope kernel_scope.
Delimit Scope kernel_scope with K.
#[global] Open Scope Z_scope.

(** ** Machine integers *)

(** An unsigned value of width [w] bits: C arithmetic on [uint64], [uint32]
    and [uchar] is arithmetic on [Z] followed by one of these. *)
Definition wrap (w x : Z) : Z := x mod 2 ^ w.
Definition u64 (x : Z) : Z := wrap 64 x.
Definition u32 (x : Z) : Z := wrap 32 x.
Definition u8 (x : Z) : Z := wrap 8 x.

(** Conversion to [int]: the low 32 bits, sign-extended. *)
Definition s32 (x : Z) : Z := (x + 2 ^ 31) mod 2 ^ 32 - 2 ^ 31.
Definition s16 (x : Z) : Z := (x + 2 ^ 15) mod 2 ^ 16 - 2 ^ 15.

Lemma wrap_range w x : 0 <= w -> 0 <= wrap w x < 2 ^ w.
Proof. intros Hw. apply Z.mod_pos_bound. by apply Z.pow_pos_nonneg. Qed.

Lemma wrap_small w x : 0 <= x < 2 ^ w -> wrap w x = x.
Proof. apply Z.mod_small. Qed.

Lemma u64_range x : 0 <= u64 x < 2 ^ 64.
Proof. by apply wrap_range. Qed.
Lemma u32_range x : 0 <= u32 x < 2 ^ 32.
Proof. by apply wrap_range. Qed.
Lemma u8_range x : 0 <= u8 x < 256.
Proof. apply (wrap_range 8). lia. Qed.
Lemma u64_small x : 0 <= x < 2 ^ 64 -> u64 x = x.
Proof. apply wrap_small. Qed.
Lemma u32_small x : 0 <= x < 2 ^ 32 -> u32 x = x.
Proof. apply wrap_small. Qed.
Lemma u8_small x : 0 <= x < 256 -> u8 x = x.
Proof. intros. by apply wrap_small. Qed.

Lemma s32_range x : - 2 ^ 31 <= s32 x < 2 ^ 31.
Proof.
  unfold s32. pose proof (Z.mod_pos_bound (x + 2 ^ 31) (2 ^ 32) ltac:(lia)). lia.
Qed.

Lemma s32_small x : - 2 ^ 31 <= x < 2 ^ 31 -> s32 x = x.
Proof. intros H. unfold s32. rewrite Z.mod_small by lia. lia. Qed.

(** Ranges of machine integers, and what wrapping does to a value in range. *)
Create HintDb machine.
#[export] Hint Resolve u64_range u32_range u8_range s32_range : machine.
#[export] Hint Rewrite u64_small u32_small u8_small s32_small using lia : machine.

(** ** Outcomes and the kernel monad *)

(** What a kernel routine does when it runs: it returns a value and a new
    state, panics with the message given to [panic], waits for another process
    inside the file system, switches to the scheduler in the given state, or
    exhausts the iteration bound the model gave a loop. *)
Inductive outcome (S A : Type) : Type :=
| Done (a : A) (s : S)
| Panic (msg : string)
| Blocked
| Switch (s : S)
| NoFuel.
Arguments Done {S A} a s.
Arguments Panic {S A} msg.
Arguments Blocked {S A}.
Arguments Switch {S A} s.
Arguments NoFuel {S A}.

Definition M (S A : Type) : Type := S -> outcome S A.

Definition ret {S A} (a : A) : M S A := fun s => Done a s.
Definition bind {S A B} (m : M S A) (k : A -> M S B) : M S B :=
  fun s =>
    match m s with
    | Done a s' => k a s'
    | Panic msg => Panic msg
    | Blocked => Blocked
    | Switch s' => Switch s'
    | NoFuel => NoFuel
    end.
Definition panic {S A} (msg : string) : M S A := fun _ => Panic msg.
Definition get {S} : M S S := fun s => Done s s.
Definition put {S} (s : S) : M S unit := fun _ => Done tt s.
Definition modify {S} (f : S -> S) : M S unit := fun s => Done tt (f s).
Definition block {S A} : M S A := fun _ => Blocked.
Definition switch {S A} : M S A := fun s => Switch s.
Definition nofuel {S A} : M S A := fun _ => NoFuel.

Notation "'let*' x ':=' c 'in' k" := (bind c (fun x => k))
  (at level 10, x pattern, c at level 99, k at level 200) : kernel_scope.
Notation "c1 ';;' c2" := (bind c1 (fun _ => c2))
  (at level 100, right associativity) : kernel_scope.
#[global] Open Scope kernel_scope.

(** Run a body for each of the elements, in order. *)
Fixpoint for_each {S A} (l : list A) (body : A -> M S unit) : M S unit :=
  match l with
  | [] => ret tt
  | x :: l => body x ;; for_each l body
  end.

(** The ways a run ends without returning. *)
Inductive stop := SPanic (msg : string) | SBlocked | SNoFuel.

(** [wpe E m Q s]: run from [s], [m] returns with a result that satisfies [Q],
    or stops in one of the ways [E] allows. [wp] allows none. *)
Definition wpe {S A} (E : stop -> Prop) (m : M S A) (Q : A -> S -> Prop) (s : S) : Prop :=
  match m s with
  | Done a s' => Q a s'
  | Panic msg => E (SPanic msg)
  | Blocked => E SBlocked
  | Switch _ => E SBlocked
  | NoFuel => E SNoFuel
  end.
Notation wp := (wpe (fun _ => False)).

Definition stop_of {S A} (o : outcome S A) : option stop :=
  match o with
  | Done _ _ => None
  | Panic msg => Some (SPanic msg)
  | Blocked => Some SBlocked
  | Switch _ => Some SBlocked
  | NoFuel => Some SNoFuel
  end.

Section wp.
Context {S A B : Type}.
Implicit Types (E : stop -> Prop) (m : M S A) (k : A -> M S B) (s : S).

Lemma wpe_done E m Q s a s' : m s = Done a s' -> Q a s' -> wpe E m Q s.
Proof. unfold wpe. by intros ->. Qed.

Lemma wp_inv m Q s : wp m Q s -> exists a s', m s = Done a s' /\ Q a s'.
Proof. unfold wpe. destruct (m s); naive_solver. Qed.

Lemma wpe_mono E (E' : stop -> Prop) m (Q Q' : A -> S -> Prop) s :
  wpe E m Q s -> (forall x, E x -> E' x) -> (forall a s', Q a s' -> Q' a s') -> wpe E' m Q' s.
Proof. unfold wpe. destruct (m s); naive_solver. Qed.

Lemma wpe_bind E m k Q s : wpe E m (fun a s' => wpe E (k a) Q s') s -> wpe E (bind m k) Q s.
Proof. unfold wpe, bind. by destruct (m s). Qed.

Lemma bind_done m k s a s' : m s = Done a s' -> bind m k s = k a s'.
Proof. unfold bind. by intros ->. Qed.

Lemma bind_panic m k s msg : m s = Panic msg -> bind m k s = Panic msg.
Proof. unfold bind. by intros ->. Qed.

Lemma bind_get (f : S -> M S B) s : bind get f s = f s s.
Proof. done. Qed.
Lemma bind_modify (f : S -> S) (k : unit -> M S B) s : bind (modify f) k s = k tt (f s).
Proof. done. Qed.
Lemma bind_ret (a : A) k s : bind (ret a) k s = k a s.
Proof. done. Qed.
Lemma bind_assoc {C} m k (k' : B -> M S C) s :
  bind (bind m k) k' s = bind m (fun a => bind (k a) k') s.
Proof. unfold bind. by destruct (m s). Qed.
Lemma bind_inv m k s b s' : bind m k s = Done b s' -> exists a s1, m s = Done a s1 /\ k a s1 = Done b s'.
Proof. unfold bind. destruct (m s) as [a s1| | | |]; try done. intros E. by exists a, s1. Qed.
End wp.

(** Run the state operations at the head of a sequence. *)
Ltac kpure := repeat first [rewrite bind_assoc | rewrite bind_get | rewrite bind_modify | rewrite bind_ret].

(** Run the operation at the head of a sequence by its equation. *)
Tactic Notation "kstep" "by" tactic3(tac) := rewrite ?bind_assoc; erewrite bind_done by tac.

(** ** Little-endian words *)

Fixpoint le_combine (bs : list Z) : Z :=
  match bs with
  | [] => 0
  | b :: bs => u8 b + 256 * le_combine bs
  end.

Fixpoint le_split (n : nat) (z : Z) : list Z :=
  match n with
  | O => []
  | S n => z mod 256 :: le_split n (z / 256)
  end.

Lemma length_le_split n z : length (le_split n z) = n.
Proof. revert z. induction n as [|n IH]; intros z; simpl; [done|]. by rewrite IH. Qed.

Lemma le_combine_range bs : 0 <= le_combine bs < 256 ^ Z.of_nat (length bs).
Proof.
  induction bs as [|b bs IH]; simpl; [lia|].
  rewrite Nat2Z.inj_succ, Z.pow_succ_r by lia.
  pose proof (u8_range b). nia.
Qed.

(** Storing a value and reading it back gives the value at its width. *)
Lemma le_combine_split n z : le_combine (le_split n z) = z mod 256 ^ Z.of_nat n.
Proof.
  revert z. induction n as [|n IH]; intros z; [by rewrite Z.mod_1_r|].
  cbn [le_split le_combine]. rewrite IH, Nat2Z.inj_succ, Z.pow_succ_r by lia.
  rewrite u8_small by (apply Z.mod_pos_bound; lia).
  symmetry. rewrite Z.rem_mul_r by lia. lia.
Qed.

(** ** Maps *)

Lemma alter_lookup {A} (f : A -> A) (m : gmap Z A) i x :
  m !! i = Some x -> alter f i m = <[i := f x]> m.
Proof.
  intros Hx. apply map_eq. intros j. destruct (decide (j = i)) as [->|].
  - by rewrite lookup_alter_eq, lookup_insert_eq, Hx.
  - by rewrite lookup_alter_ne, lookup_insert_ne.
Qed.
