(* ===== verification/Riscv.v ===== *)
(** * Machine and layout constants

    The macros of kernel/riscv.h (pages, page-table entries, Sv39 indices),
    kernel/memlayout.h (physical and virtual layout) and kernel/param.h, with
    the arithmetic facts the memory subsystem relies on. *)

From S2P Require Import Prelude.

(** ** param.h *)
Definition NPROC : Z := 64.
Definition NCPU : Z := 8.
Definition NOFILE : Z := 16.
Definition NFILE : Z := 100.
Definition NINODE : Z := 50.
Definition NDEV : Z := 10.
Definition ROOTDEV : Z := 1.
Definition MAXARG : Z := 32.
Definition MAXOPBLOCKS : Z := 10.
Definition LOGBLOCKS : Z := MAXOPBLOCKS * 3.
Definition NBUF : Z := MAXOPBLOCKS * 3.
Definition MAXPATH : Z := 128.

(** ** riscv.h: pages and page-table entries *)
Definition PGSIZE : Z := 4096.
Definition PGSHIFT : Z := 12.

Definition PGROUNDUP (sz : Z) : Z := Z.land (u64 (sz + PGSIZE - 1)) (u64 (Z.lnot (PGSIZE - 1))).
Definition PGROUNDDOWN (a : Z) : Z := Z.land a (u64 (Z.lnot (PGSIZE - 1))).

Definition PTE_V : Z := Z.shiftl 1 0.
Definition PTE_R : Z := Z.shiftl 1 1.
Definition PTE_W : Z := Z.shiftl 1 2.
Definition PTE_X : Z := Z.shiftl 1 3.
Definition PTE_U : Z := Z.shiftl 1 4.
Definition PTE_D : Z := Z.shiftl 1 7.
Definition PTE_S : Z := Z.shiftl 1 8.

Definition PA2PTE (pa : Z) : Z := u64 (Z.shiftl (Z.shiftr pa 12) 10).
Definition PTE2PA (pte : Z) : Z := u64 (Z.shiftl (Z.shiftr pte 10) 12).
Definition PTE_FLAGS (pte : Z) : Z := Z.land pte 0x3FF.
Definition PTE_SLOT (pte : Z) : Z := Z.shiftr pte 10.
Definition SLOT_PTE (slot : Z) : Z := u64 (Z.shiftl slot 10).

(** Control registers: supervisor status bits, and [satp] for a page table. *)
Definition SSTATUS_SPP : Z := Z.shiftl 1 8.
Definition SSTATUS_SPIE : Z := Z.shiftl 1 5.
Definition SSTATUS_SIE : Z := Z.shiftl 1 1.
Definition SATP_SV39 : Z := Z.shiftl 8 60.
Definition MAKE_SATP (pagetable : Z) : Z := Z.lor SATP_SV39 (Z.shiftr pagetable 12).

Definition PXMASK : Z := 0x1FF.
Definition PXSHIFT (level : Z) : Z := PGSHIFT + 9 * level.
Definition PX (level va : Z) : Z := Z.land (Z.shiftr va (PXSHIFT level)) PXMASK.

Definition MAXVA : Z := Z.shiftl 1 (9 + 9 + 9 + 12 - 1).

(** ** memlayout.h *)
Definition UART0 : Z := 0x10000000.
Definition VIRTIO0 : Z := 0x10001000.
Definition PLIC : Z := 0x0c000000.
Definition KERNBASE : Z := 0x80000000.
Definition PHYSTOP : Z := KERNBASE + 128 * 1024 * 1024.
Definition TRAMPOLINE : Z := MAXVA - PGSIZE.
Definition KSTACK (p : Z) : Z := TRAMPOLINE - (p + 1) * 2 * PGSIZE.
Definition TRAPFRAME : Z := TRAMPOLINE - PGSIZE.

(** The C test [x & bit] used as a condition. *)
Definition has (x bit : Z) : bool := negb (Z.land x bit =? 0).

(** ** Arithmetic facts *)

(** Replace the constants by their values and call [lia]. *)
Ltac kconst :=
  unfold TRAPFRAME, KSTACK, PHYSTOP in *; unfold TRAMPOLINE, KERNBASE in *;
  change PGSIZE with 4096 in *; change PGSHIFT with 12 in *;
  change MAXVA with 0x4000000000 in *; change NPROC with 64 in *;
  change PTE_V with 1 in *; change PTE_R with 2 in *; change PTE_W with 4 in *;
  change PTE_X with 8 in *; change PTE_U with 16 in *; change PTE_D with 128 in *;
  change PTE_S with 256 in *.
Ltac klia := kconst; lia.
(** The same with division and remainder by constants. *)
Ltac kdlia := kconst; Z.div_mod_to_equations; lia.

Lemma land_not_low (n a : Z) :
  0 <= n <= 64 -> 0 <= a < 2 ^ 64 ->
  Z.land a (u64 (Z.lnot (2 ^ n - 1))) = a / 2 ^ n * 2 ^ n.
Proof.
  intros Hn Ha.
  rewrite <- Z.shiftr_div_pow2, <- Z.shiftl_mul_pow2 by lia.
  apply Z.bits_inj'. intros i Hi.
  rewrite Z.land_spec. unfold u64, wrap.
  rewrite <- (Z.land_ones _ 64), Z.land_spec, Z.lnot_spec by lia.
  replace (2 ^ n - 1) with (Z.ones n) by (rewrite Z.ones_equiv; lia).
  rewrite Z.shiftl_spec by lia.
  destruct (decide (i < n)) as [Hin|Hin].
  - rewrite (Z.ones_spec_low n i), (Z.testbit_neg_r _ (i - n)) by lia.
    by rewrite andb_false_r.
  - rewrite (Z.ones_spec_high n i), Z.shiftr_spec by lia.
    replace (i - n + n) with i by lia. simpl.
    destruct (decide (i < 64)).
    + rewrite Z.ones_spec_low by lia. by rewrite andb_true_r.
    + rewrite Z.ones_spec_high, andb_false_r by lia. symmetry.
      rewrite <- (Z.mod_small a (2 ^ 64)) by lia.
      apply Z.mod_pow2_bits_high. lia.
Qed.

Lemma PGROUNDDOWN_eq a : 0 <= a < 2 ^ 64 -> PGROUNDDOWN a = a / 4096 * 4096.
Proof. intros Ha. apply (land_not_low 12); lia. Qed.

Lemma PGROUNDUP_eq sz : 0 <= sz <= 2 ^ 64 - 4096 -> PGROUNDUP sz = (sz + 4095) / 4096 * 4096.
Proof.
  intros Hs. unfold PGROUNDUP. rewrite (u64_small (sz + PGSIZE - 1)) by klia.
  replace (sz + 4095) with (sz + PGSIZE - 1) by klia.
  apply (land_not_low 12); klia.
Qed.

Lemma PX_eq level va :
  0 <= level -> PX level va = va / 2 ^ (12 + 9 * level) mod 512.
Proof.
  intros Hl. unfold PX, PXMASK, PXSHIFT, PGSHIFT.
  rewrite Z.shiftr_div_pow2 by lia. apply (Z.land_ones _ 9). lia.
Qed.

Lemma PX_range level va : 0 <= level -> 0 <= PX level va < 512.
Proof. intros Hl. rewrite PX_eq by done. by apply Z.mod_pos_bound. Qed.

(** The three Sv39 indices determine the page number of an address. *)
Lemma PX_page va :
  0 <= va < MAXVA ->
  va / 4096 = PX 2 va * 2 ^ 18 + PX 1 va * 2 ^ 9 + PX 0 va.
Proof.
  intros Hva. rewrite !PX_eq by lia.
  change (2 ^ (12 + 9 * 2)) with (4096 * 512 * 512).
  change (2 ^ (12 + 9 * 1)) with (4096 * 512).
  change (2 ^ (12 + 9 * 0)) with 4096.
  rewrite <- !Z.div_div by lia.
  assert (0 <= va / 4096 < 2 ^ 26).
  { split; [apply Z.div_pos; lia|]. apply Z.div_lt_upper_bound; klia. }
  revert H. generalize (va / 4096). intros pn Hpn.
  rewrite (Z.mod_small (pn / 512 / 512)).
  2:{ split; [repeat apply Z.div_pos; lia|].
      rewrite Z.div_div by lia. apply Z.div_lt_upper_bound; lia. }
  pose proof (Z.div_mod pn 512 ltac:(lia)).
  pose proof (Z.div_mod (pn / 512) 512 ltac:(lia)). lia.
Qed.

Lemma PX_inj va va' :
  0 <= va < MAXVA -> 0 <= va' < MAXVA ->
  PX 2 va = PX 2 va' -> PX 1 va = PX 1 va' -> PX 0 va = PX 0 va' ->
  va / 4096 = va' / 4096.
Proof. intros H1 H2 E2 E1 E0. rewrite !PX_page by done. by rewrite E2, E1, E0. Qed.

(** Disjoint bits: [|] is [+]. *)
Lemma lor_low_add n a f :
  0 <= n -> a mod 2 ^ n = 0 -> 0 <= f < 2 ^ n -> Z.lor a f = a + f.
Proof.
  intros Hn Ha Hf. symmetry.
  assert (Hd : Z.land a f = 0).
  { apply Z.bits_inj'. intros i Hi. rewrite Z.land_spec, Z.bits_0.
    destruct (decide (i < n)) as [Hin|Hin].
    - rewrite <- (Z.mod_pow2_bits_low a n i), Ha, Z.bits_0 by lia. done.
    - rewrite <- (Z.mod_small f (2 ^ n)), Z.mod_pow2_bits_high, andb_false_r by lia. done. }
  rewrite Z.add_nocarry_lxor by done. by apply Z.lxor_lor.
Qed.

(** A page-table entry for page [pa] with flag bits [f]: the address and the
    flags are recovered exactly. *)
Lemma PA2PTE_eq pa : 0 <= pa < 2 ^ 56 -> PA2PTE pa = pa / 4096 * 1024.
Proof.
  intros Hpa. unfold PA2PTE. rewrite Z.shiftr_div_pow2, Z.shiftl_mul_pow2 by lia.
  apply u64_small. change (2 ^ 12) with 4096. change (2 ^ 10) with 1024.
  pose proof (Z.div_pos pa 4096). pose proof (Z.div_lt_upper_bound pa 4096 (2 ^ 44)). lia.
Qed.

Lemma pte_add pa f : 0 <= pa < 2 ^ 56 -> 0 <= f < 1024 ->
  Z.lor (PA2PTE pa) f = pa / 4096 * 1024 + f.
Proof.
  intros Hpa Hf. rewrite PA2PTE_eq by done. apply (lor_low_add 10); [lia| |lia].
  by apply Z.mod_mul.
Qed.

Lemma PTE2PA_pte pa f :
  0 <= pa < 2 ^ 56 -> pa mod 4096 = 0 -> 0 <= f < 1024 ->
  PTE2PA (Z.lor (PA2PTE pa) f) = pa.
Proof.
  intros Hpa Hal Hf. rewrite pte_add by done. unfold PTE2PA.
  rewrite Z.shiftr_div_pow2, Z.shiftl_mul_pow2 by lia.
  change (2 ^ 10) with 1024. change (2 ^ 12) with 4096.
  rewrite Z.div_add_l, (Z.div_small f), Z.add_0_r by lia.
  pose proof (Z.div_mod pa 4096 ltac:(lia)). rewrite u64_small; lia.
Qed.

Lemma testbit_pte pa f i :
  0 <= pa < 2 ^ 56 -> 0 <= i < 10 ->
  Z.testbit (Z.lor (PA2PTE pa) f) i = Z.testbit f i.
Proof.
  intros Hpa Hi. rewrite Z.lor_spec, PA2PTE_eq by done.
  change 1024 with (2 ^ 10). by rewrite Z.mul_pow2_bits_low by lia.
Qed.

Lemma has_testbit x n : 0 <= n -> has x (Z.shiftl 1 n) = Z.testbit x n.
Proof.
  intros Hn. unfold has. rewrite Z.shiftl_1_l.
  destruct (Z.testbit x n) eqn:E.
  - apply negb_true_iff, Z.eqb_neq. intros H0.
    assert (H1 : Z.testbit (Z.land x (2 ^ n)) n = false) by (rewrite H0; apply Z.bits_0).
    rewrite Z.land_spec, E, Z.pow2_bits_true in H1 by lia. done.
  - apply negb_false_iff, Z.eqb_eq. apply Z.bits_inj'. intros i Hi.
    rewrite Z.land_spec, Z.bits_0.
    destruct (decide (i = n)) as [->|]; [by rewrite E|].
    rewrite Z.pow2_bits_false by lia. apply andb_false_r.
Qed.

Lemma has_V x : has x PTE_V = Z.testbit x 0.
Proof. by apply has_testbit. Qed.
Lemma has_W x : has x PTE_W = Z.testbit x 2.
Proof. by apply has_testbit. Qed.
Lemma has_U x : has x PTE_U = Z.testbit x 4.
Proof. by apply has_testbit. Qed.
Lemma has_D x : has x PTE_D = Z.testbit x 7.
Proof. by apply has_testbit. Qed.
Lemma has_S x : has x PTE_S = Z.testbit x 8.
Proof. by apply has_testbit. Qed.

(** A swapped-out entry stores the slot where a mapped one stores the page:
    the slot and the permission bits are recovered exactly. *)
Lemma PTE_SLOT_pte slot f :
  0 <= slot < 2 ^ 54 -> 0 <= f < 1024 -> PTE_SLOT (Z.lor (SLOT_PTE slot) f) = slot.
Proof.
  intros Hs Hf. unfold PTE_SLOT, SLOT_PTE.
  rewrite Z.shiftl_mul_pow2 by lia. change (2 ^ 10) with 1024.
  rewrite u64_small by lia.
  rewrite (lor_low_add 10) by (try lia; by apply Z.mod_mul).
  rewrite Z.shiftr_div_pow2 by lia. change (2 ^ 10) with 1024.
  rewrite Z.div_add_l, (Z.div_small f) by lia. lia.
Qed.

Lemma testbit_slot slot f i :
  0 <= slot < 2 ^ 54 -> 0 <= i < 10 ->
  Z.testbit (Z.lor (SLOT_PTE slot) f) i = Z.testbit f i.
Proof.
  intros Hs Hi. unfold SLOT_PTE. rewrite Z.shiftl_mul_pow2 by lia.
  rewrite u64_small by lia.
  by rewrite Z.lor_spec, Z.mul_pow2_bits_low by lia.
Qed.
