(* ===== verification/Kernel.v ===== *)
(** * Kernel state

    The data the memory subsystem works on: the process table of kernel/proc.h,
    physical memory as pages of bytes, the console log, the locks held by the
    running hart, and the file-system state behind the interface [FsOps]. The
    accessors at the end are the memory reads and writes, the lock operations and
    the process-table accesses that the C code performs. *)

From S2P Require Import Prelude Riscv.

(** ** Processes: kernel/proc.h *)

Inductive procstate := UNUSED | USED | SLEEPING | RUNNABLE | RUNNING | ZOMBIE.
#[export] Instance procstate_eq_dec : EqDecision procstate.
Proof. solve_decision. Defined.

(** Sleep channels are addresses compared for equality: the address of [ticks],
    of a process-table slot, or of an object in memory. *)
Inductive chan := NoChan | ChTicks | ChCons | ChTx | ChDesc | ChProc (i : nat) | ChBuf (b : nat) | ChAddr (a : Z).
#[export] Instance chan_eq_dec : EqDecision chan.
Proof. solve_decision. Defined.

(** Saved registers of [swtch]: [ra], [sp] and [s0] to [s11]. *)
Record context := mkContext { c_ra : Z; c_sp : Z; c_s : list Z }.

(** Pointers to processes are process-table indices ([None] for a null
    pointer); pointers to pages and inodes are addresses ([0] for null). *)
Record proc : Type := mkProc {
  p_state : procstate;
  p_chan : chan;
  p_killed : Z;
  p_xstate : Z;
  p_pid : Z;
  p_parent : option nat;
  p_kstack : Z;
  p_sz : Z;
  p_pagetable : Z;
  p_trapframe : Z;
  p_context : context;
  p_ofile : list Z;
  p_cwd : Z;
  p_name : list Z;
  p_exe_inode : Z;
  p_fifo_seq_num : Z;
  p_exe_end : Z;
  p_resident_set_head : Z;
  p_resident_set_tail : Z;
  p_swap_inode : Z;
  p_swap_slots : list Z
}.

Definition set_p_state (v : procstate) (r : proc) : proc :=
  mkProc v (p_chan r) (p_killed r) (p_xstate r) (p_pid r) (p_parent r) (p_kstack r) (p_sz r) (p_pagetable r) (p_trapframe r) (p_context r) (p_ofile r) (p_cwd r) (p_name r) (p_exe_inode r) (p_fifo_seq_num r) (p_exe_end r) (p_resident_set_head r) (p_resident_set_tail r) (p_swap_inode r) (p_swap_slots r).
Definition set_p_chan (v : chan) (r : proc) : proc :=
  mkProc (p_state r) v (p_killed r) (p_xstate r) (p_pid r) (p_parent r) (p_kstack r) (p_sz r) (p_pagetable r) (p_trapframe r) (p_context r) (p_ofile r) (p_cwd r) (p_name r) (p_exe_inode r) (p_fifo_seq_num r) (p_exe_end r) (p_resident_set_head r) (p_resident_set_tail r) (p_swap_inode r) (p_swap_slots r).
Definition set_p_killed (v : Z) (r : proc) : proc :=
  mkProc (p_state r) (p_chan r) v (p_xstate r) (p_pid r) (p_parent r) (p_kstack r) (p_sz r) (p_pagetable r) (p_trapframe r) (p_context r) (p_ofile r) (p_cwd r) (p_name r) (p_exe_inode r) (p_fifo_seq_num r) (p_exe_end r) (p_resident_set_head r) (p_resident_set_tail r) (p_swap_inode r) (p_swap_slots r).
Definition set_p_xstate (v : Z) (r : proc) : proc :=
  mkProc (p_state r) (p_chan r) (p_killed r) v (p_pid r) (p_parent r) (p_kstack r) (p_sz r) (p_pagetable r) (p_trapframe r) (p_context r) (p_ofile r) (p_cwd r) (p_name r) (p_exe_inode r) (p_fifo_seq_num r) (p_exe_end r) (p_resident_set_head r) (p_resident_set_tail r) (p_swap_inode r) (p_swap_slots r).
Definition set_p_pid (v : Z) (r : proc) : proc :=
  mkProc (p_state r) (p_chan r) (p_killed r) (p_xstate r) v (p_parent r) (p_kstack r) (p_sz r) (p_pagetable r) (p_trapframe r) (p_context r) (p_ofile r) (p_cwd r) (p_name r) (p_exe_inode r) (p_fifo_seq_num r) (p_exe_end r) (p_resident_set_head r) (p_resident_set_tail r) (p_swap_inode r) (p_swap_slots r).
Definition set_p_parent (v : option nat) (r : proc) : proc :=
  mkProc (p_state r) (p_chan r) (p_killed r) (p_xstate r) (p_pid r) v (p_kstack r) (p_sz r) (p_pagetable r) (p_trapframe r) (p_context r) (p_ofile r) (p_cwd r) (p_name r) (p_exe_inode r) (p_fifo_seq_num r) (p_exe_end r) (p_resident_set_head r) (p_resident_set_tail r) (p_swap_inode r) (p_swap_slots r).
Definition set_p_kstack (v : Z) (r : proc) : proc :=
  mkProc (p_state r) (p_chan r) (p_killed r) (p_xstate r) (p_pid r) (p_parent r) v (p_sz r) (p_pagetable r) (p_trapframe r) (p_context r) (p_ofile r) (p_cwd r) (p_name r) (p_exe_inode r) (p_fifo_seq_num r) (p_exe_end r) (p_resident_set_head r) (p_resident_set_tail r) (p_swap_inode r) (p_swap_slots r).
Definition set_p_sz (v : Z) (r : proc) : proc :=
  mkProc (p_state r) (p_chan r) (p_killed r) (p_xstate r) (p_pid r) (p_parent r) (p_kstack r) v (p_pagetable r) (p_trapframe r) (p_context r) (p_ofile r) (p_cwd r) (p_name r) (p_exe_inode r) (p_fifo_seq_num r) (p_exe_end r) (p_resident_set_head r) (p_resident_set_tail r) (p_swap_inode r) (p_swap_slots r).
Definition set_p_pagetable (v : Z) (r : proc) : proc :=
  mkProc (p_state r) (p_chan r) (p_killed r) (p_xstate r) (p_pid r) (p_parent r) (p_kstack r) (p_sz r) v (p_trapframe r) (p_context r) (p_ofile r) (p_cwd r) (p_name r) (p_exe_inode r) (p_fifo_seq_num r) (p_exe_end r) (p_resident_set_head r) (p_resident_set_tail r) (p_swap_inode r) (p_swap_slots r).
Definition set_p_trapframe (v : Z) (r : proc) : proc :=
  mkProc (p_state r) (p_chan r) (p_killed r) (p_xstate r) (p_pid r) (p_parent r) (p_kstack r) (p_sz r) (p_pagetable r) v (p_context r) (p_ofile r) (p_cwd r) (p_name r) (p_exe_inode r) (p_fifo_seq_num r) (p_exe_end r) (p_resident_set_head r) (p_resident_set_tail r) (p_swap_inode r) (p_swap_slots r).
Definition set_p_context (v : context) (r : proc) : proc :=
  mkProc (p_state r) (p_chan r) (p_killed r) (p_xstate r) (p_pid r) (p_parent r) (p_kstack r) (p_sz r) (p_pagetable r) (p_trapframe r) v (p_ofile r) (p_cwd r) (p_name r) (p_exe_inode r) (p_fifo_seq_num r) (p_exe_end r) (p_resident_set_head r) (p_resident_set_tail r) (p_swap_inode r) (p_swap_slots r).
Definition set_p_ofile (v : list Z) (r : proc) : proc :=
  mkProc (p_state r) (p_chan r) (p_killed r) (p_xstate r) (p_pid r) (p_parent r) (p_kstack r) (p_sz r) (p_pagetable r) (p_trapframe r) (p_context r) v (p_cwd r) (p_name r) (p_exe_inode r) (p_fifo_seq_num r) (p_exe_end r) (p_resident_set_head r) (p_resident_set_tail r) (p_swap_inode r) (p_swap_slots r).
Definition set_p_cwd (v : Z) (r : proc) : proc :=
  mkProc (p_state r) (p_chan r) (p_killed r) (p_xstate r) (p_pid r) (p_parent r) (p_kstack r) (p_sz r) (p_pagetable r) (p_trapframe r) (p_context r) (p_ofile r) v (p_name r) (p_exe_inode r) (p_fifo_seq_num r) (p_exe_end r) (p_resident_set_head r) (p_resident_set_tail r) (p_swap_inode r) (p_swap_slots r).
Definition set_p_name (v : list Z) (r : proc) : proc :=
  mkProc (p_state r) (p_chan r) (p_killed r) (p_xstate r) (p_pid r) (p_parent r) (p_kstack r) (p_sz r) (p_pagetable r) (p_trapframe r) (p_context r) (p_ofile r) (p_cwd r) v (p_exe_inode r) (p_fifo_seq_num r) (p_exe_end r) (p_resident_set_head r) (p_resident_set_tail r) (p_swap_inode r) (p_swap_slots r).
Definition set_p_exe_inode (v : Z) (r : proc) : proc :=
  mkProc (p_state r) (p_chan r) (p_killed r) (p_xstate r) (p_pid r) (p_parent r) (p_kstack r) (p_sz r) (p_pagetable r) (p_trapframe r) (p_context r) (p_ofile r) (p_cwd r) (p_name r) v (p_fifo_seq_num r) (p_exe_end r) (p_resident_set_head r) (p_resident_set_tail r) (p_swap_inode r) (p_swap_slots r).
Definition set_p_fifo_seq_num (v : Z) (r : proc) : proc :=
  mkProc (p_state r) (p_chan r) (p_killed r) (p_xstate r) (p_pid r) (p_parent r) (p_kstack r) (p_sz r) (p_pagetable r) (p_trapframe r) (p_context r) (p_ofile r) (p_cwd r) (p_name r) (p_exe_inode r) v (p_exe_end r) (p_resident_set_head r) (p_resident_set_tail r) (p_swap_inode r) (p_swap_slots r).
Definition set_p_exe_end (v : Z) (r : proc) : proc :=
  mkProc (p_state r) (p_chan r) (p_killed r) (p_xstate r) (p_pid r) (p_parent r) (p_kstack r) (p_sz r) (p_pagetable r) (p_trapframe r) (p_context r) (p_ofile r) (p_cwd r) (p_name r) (p_exe_inode r) (p_fifo_seq_num r) v (p_resident_set_head r) (p_resident_set_tail r) (p_swap_inode r) (p_swap_slots r).
Definition set_p_resident_set_head (v : Z) (r : proc) : proc :=
  mkProc (p_state r) (p_chan r) (p_killed r) (p_xstate r) (p_pid r) (p_parent r) (p_kstack r) (p_sz r) (p_pagetable r) (p_trapframe r) (p_context r) (p_ofile r) (p_cwd r) (p_name r) (p_exe_inode r) (p_fifo_seq_num r) (p_exe_end r) v (p_resident_set_tail r) (p_swap_inode r) (p_swap_slots r).
Definition set_p_resident_set_tail (v : Z) (r : proc) : proc :=
  mkProc (p_state r) (p_chan r) (p_killed r) (p_xstate r) (p_pid r) (p_parent r) (p_kstack r) (p_sz r) (p_pagetable r) (p_trapframe r) (p_context r) (p_ofile r) (p_cwd r) (p_name r) (p_exe_inode r) (p_fifo_seq_num r) (p_exe_end r) (p_resident_set_head r) v (p_swap_inode r) (p_swap_slots r).
Definition set_p_swap_inode (v : Z) (r : proc) : proc :=
  mkProc (p_state r) (p_chan r) (p_killed r) (p_xstate r) (p_pid r) (p_parent r) (p_kstack r) (p_sz r) (p_pagetable r) (p_trapframe r) (p_context r) (p_ofile r) (p_cwd r) (p_name r) (p_exe_inode r) (p_fifo_seq_num r) (p_exe_end r) (p_resident_set_head r) (p_resident_set_tail r) v (p_swap_slots r).
Definition set_p_swap_slots (v : list Z) (r : proc) : proc :=
  mkProc (p_state r) (p_chan r) (p_killed r) (p_xstate r) (p_pid r) (p_parent r) (p_kstack r) (p_sz r) (p_pagetable r) (p_trapframe r) (p_context r) (p_ofile r) (p_cwd r) (p_name r) (p_exe_inode r) (p_fifo_seq_num r) (p_exe_end r) (p_resident_set_head r) (p_resident_set_tail r) (p_swap_inode r) v.

(** Byte offsets of the fields of [struct resident_page] and of the fields of
    [struct trapframe] the kernel uses. *)
Definition rp_next : Z := 0.
Definition rp_va : Z := 8.
Definition rp_seq : Z := 16.
Definition tf_kernel_satp : Z := 0.
Definition tf_kernel_sp : Z := 8.
Definition tf_kernel_trap : Z := 16.
Definition tf_epc : Z := 24.
Definition tf_kernel_hartid : Z := 32.
Definition tf_sp : Z := 48.
Definition tf_a (n : Z) : Z := 112 + 8 * n.

(** ** Console output

    One constructor per [printf] of the paging code, with its arguments. *)
Inductive access := AExec | ARead | AWrite.
Inductive cause := CHeap | CStack | CExec | CSwap | CInvalid.
Inductive event :=
| EvMemfull (pid : option Z)
| EvVictim (pid va seq : Z)
| EvEvict (pid va : Z) (dirty : bool)
| EvDiscard (pid va : Z)
| EvSwapout (pid va slot : Z)
| EvSwapfull (pid : Z)
| EvKillSwap (pid : Z)
| EvNoSwapFile (seq : Z)
| EvPagefault (pid va : Z) (a : access) (c : cause)
| EvSwapin (pid va slot : Z)
| EvResident (pid va seq : Z)
| EvAlloc (pid va : Z)
| EvLoadexec (pid va : Z)
| EvKillInvalid (pid va : Z) (a : access)
| EvSwapcleanup (pid slots : Z)
| EvInitLazymap (pid exe_end sz sp : Z)
| EvUnexpectedScause (scause pid sepc stval : Z)
| EvUnknownSyscall (pid : Z) (name : list Z) (num : Z)
| EvIrq (irq : Z)
| EvScause (scause sepc stval : Z)
| EvNewline
| EvProcLine (pid : Z) (st : procstate) (name : list Z).

(** ** Locks

    The locks the running hart holds. [acquire] of a lock this hart already
    holds and [release] of one it does not hold are the two panics of
    kernel/spinlock.c. *)
Inductive lockid :=
  LKmem | LPid | LWait | LTicks | LFtable | LCons | LTx | LVdisk | LProc (i : nat) | LAddr (a : Z).
#[export] Instance lockid_eq_dec : EqDecision lockid.
Proof. solve_decision. Defined.

(** ** File types: kernel/stat.h *)

Definition T_DIR : Z := 1.
Definition T_FILE : Z := 2.
Definition T_DEVICE : Z := 3.

(** ** The file-system interface

    What the memory subsystem calls in kernel/fs.c, kernel/log.c and
    kernel/sysfile.c, on a file-system state [F]. Inode pointers are [Z], [0]
    for null. [readi] to a kernel buffer returns the bytes it delivers (their
    number is its return value); [writei] from a kernel buffer returns its
    return value. *)
Class FsOps (F : Type) := {
  fs_begin_op : M F unit;
  fs_end_op : M F unit;
  fs_namei : list Z -> M F Z;
  fs_create : list Z -> Z -> Z -> Z -> M F Z;
  fs_ilock : Z -> M F unit;
  fs_iunlock : Z -> M F unit;
  fs_iput : Z -> M F unit;
  fs_idup : Z -> M F Z;
  fs_itrunc : Z -> M F unit;
  fs_readi : Z -> Z -> Z -> M F (list Z);
  fs_writei : Z -> list Z -> Z -> M F Z;
}.

(** ** Open files: kernel/file.h

    [f_pipe] is the address of the pipe's page, [f_ip] an inode pointer. *)
Inductive ftype := FD_NONE | FD_PIPE | FD_INODE | FD_DEVICE.
#[export] Instance ftype_eq_dec : EqDecision ftype.
Proof. solve_decision. Defined.

Record file := mkFile {
  f_type : ftype;
  f_ref : Z;
  f_readable : bool;
  f_writable : bool;
  f_pipe : Z;
  f_ip : Z;
  f_off : Z;
  f_major : Z
}.

(** ** The state

    [k_first] is the static variable of [forkret], [k_kpgtbl] the kernel page
    table, [k_ftable] the array of [ftable]. *)
Record kstate (F : Type) : Type := mkK {
  k_end : Z;
  k_mem : gmap Z (list Z);
  k_freelist : Z;
  k_procs : list proc;
  k_cur : option nat;
  k_initproc : option nat;
  k_nextpid : Z;
  k_ticks : Z;
  k_first : bool;
  k_kpgtbl : Z;
  k_ftable : list file;
  k_locks : list lockid;
  k_console : list event;
  k_fs : F
}.
Arguments mkK {F}.
Arguments k_end {F}.
Arguments k_mem {F}.
Arguments k_freelist {F}.
Arguments k_procs {F}.
Arguments k_cur {F}.
Arguments k_initproc {F}.
Arguments k_nextpid {F}.
Arguments k_ticks {F}.
Arguments k_first {F}.
Arguments k_kpgtbl {F}.
Arguments k_ftable {F}.
Arguments k_locks {F}.
Arguments k_console {F}.
Arguments k_fs {F}.

Definition set_k_end {F} (v : Z) (r : kstate F) : kstate F :=
  mkK v (k_mem r) (k_freelist r) (k_procs r) (k_cur r) (k_initproc r) (k_nextpid r) (k_ticks r) (k_first r) (k_kpgtbl r) (k_ftable r) (k_locks r) (k_console r) (k_fs r).
Definition set_k_mem {F} (v : gmap Z (list Z)) (r : kstate F) : kstate F :=
  mkK (k_end r) v (k_freelist r) (k_procs r) (k_cur r) (k_initproc r) (k_nextpid r) (k_ticks r) (k_first r) (k_kpgtbl r) (k_ftable r) (k_locks r) (k_console r) (k_fs r).
Definition set_k_freelist {F} (v : Z) (r : kstate F) : kstate F :=
  mkK (k_end r) (k_mem r) v (k_procs r) (k_cur r) (k_initproc r) (k_nextpid r) (k_ticks r) (k_first r) (k_kpgtbl r) (k_ftable r) (k_locks r) (k_console r) (k_fs r).
Definition set_k_procs {F} (v : list proc) (r : kstate F) : kstate F :=
  mkK (k_end r) (k_mem r) (k_freelist r) v (k_cur r) (k_initproc r) (k_nextpid r) (k_ticks r) (k_first r) (k_kpgtbl r) (k_ftable r) (k_locks r) (k_console r) (k_fs r).
Definition set_k_cur {F} (v : option nat) (r : kstate F) : kstate F :=
  mkK (k_end r) (k_mem r) (k_freelist r) (k_procs r) v (k_initproc r) (k_nextpid r) (k_ticks r) (k_first r) (k_kpgtbl r) (k_ftable r) (k_locks r) (k_console r) (k_fs r).
Definition set_k_initproc {F} (v : option nat) (r : kstate F) : kstate F :=
  mkK (k_end r) (k_mem r) (k_freelist r) (k_procs r) (k_cur r) v (k_nextpid r) (k_ticks r) (k_first r) (k_kpgtbl r) (k_ftable r) (k_locks r) (k_console r) (k_fs r).
Definition set_k_nextpid {F} (v : Z) (r : kstate F) : kstate F :=
  mkK (k_end r) (k_mem r) (k_freelist r) (k_procs r) (k_cur r) (k_initproc r) v (k_ticks r) (k_first r) (k_kpgtbl r) (k_ftable r) (k_locks r) (k_console r) (k_fs r).
Definition set_k_ticks {F} (v : Z) (r : kstate F) : kstate F :=
  mkK (k_end r) (k_mem r) (k_freelist r) (k_procs r) (k_cur r) (k_initproc r) (k_nextpid r) v (k_first r) (k_kpgtbl r) (k_ftable r) (k_locks r) (k_console r) (k_fs r).
Definition set_k_first {F} (v : bool) (r : kstate F) : kstate F :=
  mkK (k_end r) (k_mem r) (k_freelist r) (k_procs r) (k_cur r) (k_initproc r) (k_nextpid r) (k_ticks r) v (k_kpgtbl r) (k_ftable r) (k_locks r) (k_console r) (k_fs r).
Definition set_k_kpgtbl {F} (v : Z) (r : kstate F) : kstate F :=
  mkK (k_end r) (k_mem r) (k_freelist r) (k_procs r) (k_cur r) (k_initproc r) (k_nextpid r) (k_ticks r) (k_first r) v (k_ftable r) (k_locks r) (k_console r) (k_fs r).
Definition set_k_ftable {F} (v : list file) (r : kstate F) : kstate F :=
  mkK (k_end r) (k_mem r) (k_freelist r) (k_procs r) (k_cur r) (k_initproc r) (k_nextpid r) (k_ticks r) (k_first r) (k_kpgtbl r) v (k_locks r) (k_console r) (k_fs r).
Definition set_k_locks {F} (v : list lockid) (r : kstate F) : kstate F :=
  mkK (k_end r) (k_mem r) (k_freelist r) (k_procs r) (k_cur r) (k_initproc r) (k_nextpid r) (k_ticks r) (k_first r) (k_kpgtbl r) (k_ftable r) v (k_console r) (k_fs r).
Definition set_k_console {F} (v : list event) (r : kstate F) : kstate F :=
  mkK (k_end r) (k_mem r) (k_freelist r) (k_procs r) (k_cur r) (k_initproc r) (k_nextpid r) (k_ticks r) (k_first r) (k_kpgtbl r) (k_ftable r) (k_locks r) v (k_fs r).
Definition set_k_fs {F} (v : F) (r : kstate F) : kstate F :=
  mkK (k_end r) (k_mem r) (k_freelist r) (k_procs r) (k_cur r) (k_initproc r) (k_nextpid r) (k_ticks r) (k_first r) (k_kpgtbl r) (k_ftable r) (k_locks r) (k_console r) v.

Notation K F A := (M (kstate F) A).

(** Overwrite the bytes of [l] from position [off] on by [bs]. *)
Definition splice (l : list Z) (off : nat) (bs : list Z) : list Z :=
  take off l ++ bs ++ drop (off + length bs) l.

Section accessors.
Context {F : Type}.
Implicit Types s : kstate F.

(** *** Physical memory *)

(** A kernel access to an address that is not RAM traps, and [kerneltrap]
    panics. *)
Definition badaddr {A} : K F A := panic "kerneltrap".

Definition load_bytes (a : Z) (n : nat) : K F (list Z) := fun s =>
  match k_mem s !! (a - a mod PGSIZE) with
  | None => badaddr s
  | Some pg =>
      let off := Z.to_nat (a mod PGSIZE) in
      if bool_decide (off + n <= length pg)%nat
      then Done (take n (drop off pg)) s else badaddr s
  end.

Definition store_bytes (a : Z) (bs : list Z) : K F unit := fun s =>
  match k_mem s !! (a - a mod PGSIZE) with
  | None => badaddr s
  | Some pg =>
      let off := Z.to_nat (a mod PGSIZE) in
      if bool_decide (off + length bs <= length pg)%nat
      then Done tt (set_k_mem (<[a - a mod PGSIZE := splice pg off bs]> (k_mem s)) s)
      else badaddr s
  end.

Definition load64 (a : Z) : K F Z :=
  let* bs := load_bytes a 8 in ret (le_combine bs).
Definition store64 (a v : Z) : K F unit := store_bytes a (le_split 8 v).
(** An [int] in memory. *)
Definition load32 (a : Z) : K F Z :=
  let* bs := load_bytes a 4 in ret (s32 (le_combine bs)).
Definition store32 (a v : Z) : K F unit := store_bytes a (le_split 4 v).

(** [memset(pa, c, PGSIZE)] on a whole page, and [memmove] of one. *)
Definition memset_page (pa c : Z) : K F unit :=
  store_bytes pa (replicate (Z.to_nat PGSIZE) (u8 c)).
Definition memmove_page (dst src : Z) : K F unit :=
  let* bs := load_bytes src (Z.to_nat PGSIZE) in store_bytes dst bs.

(** *** The process table *)

Definition myproc : K F (option nat) := fun s => Done (k_cur s) s.

Definition getp (i : nat) : K F proc := fun s =>
  match k_procs s !! i with Some p => Done p s | None => badaddr s end.

Definition modp (i : nat) (f : proc -> proc) : K F unit := fun s =>
  match k_procs s !! i with
  | Some p => Done tt (set_k_procs (<[i := f p]> (k_procs s)) s)
  | None => badaddr s
  end.

(** *** Locks *)

Definition acquire (l : lockid) : K F unit := fun s =>
  if bool_decide (l ∈ k_locks s) then Panic "acquire"
  else Done tt (set_k_locks (l :: k_locks s) s).

Definition release (l : lockid) : K F unit := fun s =>
  if bool_decide (l ∈ k_locks s)
  then Done tt (set_k_locks (filter (fun l' => l' <> l) (k_locks s)) s)
  else Panic "release".

(** *** Console *)

Definition printf (e : event) : K F unit :=
  modify (fun s => set_k_console (k_console s ++ [e]) s).

(** *** File system *)

Definition fs {A} (m : M F A) : K F A := fun s =>
  match m (k_fs s) with
  | Done a f => Done a (set_k_fs f s)
  | Panic msg => Panic msg
  | Blocked | Switch _ => Blocked
  | NoFuel => NoFuel
  end.
End accessors.

(** Compute the fields of updated states and processes. *)
Ltac ksimpl := cbn [k_end k_mem k_freelist k_procs k_cur k_initproc k_nextpid k_ticks k_first k_kpgtbl k_ftable k_locks k_console k_fs set_k_end set_k_mem set_k_freelist set_k_procs set_k_cur set_k_initproc set_k_nextpid set_k_ticks set_k_first set_k_kpgtbl set_k_ftable set_k_locks set_k_console set_k_fs].
Tactic Notation "ksimpl" "in" "*" := cbn [k_end k_mem k_freelist k_procs k_cur k_initproc k_nextpid k_ticks k_first k_kpgtbl k_ftable k_locks k_console k_fs set_k_end set_k_mem set_k_freelist set_k_procs set_k_cur set_k_initproc set_k_nextpid set_k_ticks set_k_first set_k_kpgtbl set_k_ftable set_k_locks set_k_console set_k_fs] in *.
Ltac psimpl := cbn [p_state p_chan p_killed p_xstate p_pid p_parent p_kstack p_sz p_pagetable p_trapframe p_context p_ofile p_cwd p_name p_exe_inode p_fifo_seq_num p_exe_end p_resident_set_head p_resident_set_tail p_swap_inode p_swap_slots set_p_state set_p_chan set_p_killed set_p_xstate set_p_pid set_p_parent set_p_kstack set_p_sz set_p_pagetable set_p_trapframe set_p_context set_p_ofile set_p_cwd set_p_name set_p_exe_inode set_p_fifo_seq_num set_p_exe_end set_p_resident_set_head set_p_resident_set_tail set_p_swap_inode set_p_swap_slots].
Tactic Notation "psimpl" "in" "*" := cbn [p_state p_chan p_killed p_xstate p_pid p_parent p_kstack p_sz p_pagetable p_trapframe p_context p_ofile p_cwd p_name p_exe_inode p_fifo_seq_num p_exe_end p_resident_set_head p_resident_set_tail p_swap_inode p_swap_slots set_p_state set_p_chan set_p_killed set_p_xstate set_p_pid set_p_parent set_p_kstack set_p_sz set_p_pagetable set_p_trapframe set_p_context set_p_ofile set_p_cwd set_p_name set_p_exe_inode set_p_fifo_seq_num set_p_exe_end set_p_resident_set_head set_p_resident_set_tail set_p_swap_inode set_p_swap_slots] in *.
