(* ===== verification/Mem.v ===== *)
(** * Reasoning about memory accesses

    The byte-level accesses of Kernel.v, seen page by page: reading a word at an
    offset of a page, and how a write changes what later reads return. *)

From S2P Require Import Prelude Riscv Kernel.

(** The 64-bit word at byte offset [o] of a page, and the [int] there. *)
Definition pg64 (pg : list Z) (o : Z) : Z := le_combine (take 8 (drop (Z.to_nat o) pg)).
Definition pg32 (pg : list Z) (o : Z) : Z := s32 (le_combine (take 4 (drop (Z.to_nat o) pg))).

(** The page after a 64-bit, or a 32-bit, store at offset [o]. *)
Definition pg64_set (pg : list Z) (o v : Z) : list Z := splice pg (Z.to_nat o) (le_split 8 v).
Definition pg32_set (pg : list Z) (o v : Z) : list Z := splice pg (Z.to_nat o) (le_split 4 v).

(** The page [memset] fills with byte [c]. *)
Definition fill (c : Z) : list Z := replicate (Z.to_nat PGSIZE) c.

(** A RAM page: aligned address, full size. *)
Definition is_page (m : gmap Z (list Z)) (pa : Z) (pg : list Z) : Prop :=
  m !! pa = Some pg /\ length pg = Z.to_nat PGSIZE /\ pa mod PGSIZE = 0.

Lemma length_splice l off bs :
  (off + length bs <= length l)%nat -> length (splice l off bs) = length l.
Proof. intros Hl. unfold splice. rewrite !length_app, length_take, length_drop. lia. Qed.

Lemma splice_all l bs : length bs = length l -> splice l 0 bs = bs.
Proof.
  intros Hl. unfold splice. rewrite take_0, drop_ge by lia. by rewrite app_nil_r.
Qed.

Lemma take_drop_splice_same l off bs :
  (off + length bs <= length l)%nat -> take (length bs) (drop off (splice l off bs)) = bs.
Proof.
  intros Hl. unfold splice.
  rewrite drop_app_length' by (rewrite length_take; lia).
  by rewrite take_app_length.
Qed.

Lemma take_drop_splice_other l off bs o n :
  (off + length bs <= length l)%nat ->
  (o + n <= off \/ off + length bs <= o)%nat ->
  take n (drop o (splice l off bs)) = take n (drop o l).
Proof.
  intros Hl Ho. apply list_eq. intros i.
  destruct (decide (i < n)%nat); [|by rewrite !lookup_take_ge by lia].
  rewrite !lookup_take_lt, !lookup_drop by lia. unfold splice.
  destruct Ho as [Ho|Ho].
  - rewrite lookup_app_l by (rewrite length_take; lia). by rewrite lookup_take_lt by lia.
  - rewrite lookup_app_r by (rewrite length_take; lia).
    rewrite lookup_app_r by (rewrite length_take; lia).
    rewrite lookup_drop. f_equal. rewrite length_take. lia.
Qed.

Lemma pg64_range pg o : 0 <= pg64 pg o < 2 ^ 64.
Proof.
  unfold pg64. pose proof (le_combine_range (take 8 (drop (Z.to_nat o) pg))) as H.
  rewrite length_take in H. change (2 ^ 64) with (256 ^ 8).
  split; [lia|]. eapply Z.lt_le_trans; [apply H|]. apply Z.pow_le_mono_r; lia.
Qed.

Lemma pg64_set_same pg o v :
  0 <= o -> (Z.to_nat o + 8 <= length pg)%nat -> pg64 (pg64_set pg o v) o = u64 v.
Proof.
  intros Ho Hl. unfold pg64, pg64_set. pose proof (length_le_split 8 v) as E.
  rewrite <- E at 1. rewrite take_drop_splice_same by lia.
  by rewrite le_combine_split.
Qed.

Lemma pg64_set_other pg o v o' :
  0 <= o -> 0 <= o' -> (Z.to_nat o + 8 <= length pg)%nat ->
  o + 8 <= o' \/ o' + 8 <= o -> pg64 (pg64_set pg o v) o' = pg64 pg o'.
Proof.
  intros Ho Ho' Hl Hd. unfold pg64, pg64_set.
  rewrite take_drop_splice_other; rewrite ?length_le_split; try done; lia.
Qed.

Lemma pg32_set64_other pg o v o' :
  0 <= o -> 0 <= o' -> (Z.to_nat o + 8 <= length pg)%nat ->
  o + 8 <= o' \/ o' + 4 <= o -> pg32 (pg64_set pg o v) o' = pg32 pg o'.
Proof.
  intros Ho Ho' Hl Hd. unfold pg32, pg64_set.
  rewrite take_drop_splice_other; rewrite ?length_le_split; try done; lia.
Qed.

Lemma pg64_set32_other pg o v o' :
  0 <= o -> 0 <= o' -> (Z.to_nat o + 4 <= length pg)%nat ->
  o + 4 <= o' \/ o' + 8 <= o -> pg64 (pg32_set pg o v) o' = pg64 pg o'.
Proof.
  intros Ho Ho' Hl Hd. unfold pg64, pg32_set.
  rewrite take_drop_splice_other; rewrite ?length_le_split; try done; lia.
Qed.

Lemma s32_mod x : s32 (x mod 2 ^ 32) = s32 x.
Proof. unfold s32. rewrite Zplus_mod_idemp_l. done. Qed.

Lemma pg32_set_same pg o v :
  0 <= o -> (Z.to_nat o + 4 <= length pg)%nat -> pg32 (pg32_set pg o v) o = s32 v.
Proof.
  intros Ho Hl. unfold pg32, pg32_set. pose proof (length_le_split 4 v) as E.
  rewrite <- E at 1. rewrite take_drop_splice_same by lia.
  rewrite le_combine_split. apply s32_mod.
Qed.

Lemma length_pg64_set pg o v :
  (Z.to_nat o + 8 <= length pg)%nat -> length (pg64_set pg o v) = length pg.
Proof. intros. apply length_splice. by rewrite length_le_split. Qed.

Lemma length_pg32_set pg o v :
  (Z.to_nat o + 4 <= length pg)%nat -> length (pg32_set pg o v) = length pg.
Proof. intros. apply length_splice. by rewrite length_le_split. Qed.

Lemma length_fill c : length (fill c) = Z.to_nat PGSIZE.
Proof. apply length_replicate. Qed.

Lemma le_combine_zeros n : le_combine (replicate n 0) = 0.
Proof. induction n as [|n IH]; simpl; [done|]. rewrite IH. done. Qed.

Lemma pg64_fill0 o : pg64 (fill 0) o = 0.
Proof.
  unfold pg64, fill. rewrite drop_replicate, take_replicate. apply le_combine_zeros.
Qed.

(** ** Accesses at an offset of a page *)

Section access.
Context {F : Type}.
Implicit Types s : kstate F.

Lemma page_split pa o :
  pa mod PGSIZE = 0 -> 0 <= o < PGSIZE ->
  (pa + o) mod PGSIZE = o /\ pa + o - (pa + o) mod PGSIZE = pa.
Proof.
  intros Ha Ho. assert (E : (pa + o) mod PGSIZE = o).
  { rewrite Z.add_mod, Ha, Z.add_0_l, Zmod_mod by klia. by apply Z.mod_small. }
  rewrite E. split; [done|lia].
Qed.

Lemma load_bytes_page s pa pg o n :
  is_page (k_mem s) pa pg -> 0 <= o < PGSIZE -> (Z.to_nat o + n <= Z.to_nat PGSIZE)%nat ->
  load_bytes (pa + o) n s = Done (take n (drop (Z.to_nat o) pg)) s.
Proof.
  intros (Hm & Hl & Ha) Ho Hn. destruct (page_split pa o Ha Ho) as [E1 E2].
  unfold load_bytes. rewrite E2, Hm, E1. rewrite bool_decide_eq_true_2 by lia. done.
Qed.

Lemma store_bytes_page s pa pg o bs :
  is_page (k_mem s) pa pg -> 0 <= o < PGSIZE ->
  (Z.to_nat o + length bs <= Z.to_nat PGSIZE)%nat ->
  store_bytes (pa + o) bs s =
  Done tt (set_k_mem (<[pa := splice pg (Z.to_nat o) bs]> (k_mem s)) s).
Proof.
  intros (Hm & Hl & Ha) Ho Hn. destruct (page_split pa o Ha Ho) as [E1 E2].
  unfold store_bytes. rewrite E2, Hm, E1. rewrite bool_decide_eq_true_2 by lia. done.
Qed.

Lemma load64_page s pa pg o :
  is_page (k_mem s) pa pg -> 0 <= o <= PGSIZE - 8 ->
  load64 (pa + o) s = Done (pg64 pg o) s.
Proof.
  intros Hp Ho. unfold load64. erewrite bind_done; [done|].
  eapply load_bytes_page; [done|klia..].
Qed.

Lemma load32_page s pa pg o :
  is_page (k_mem s) pa pg -> 0 <= o <= PGSIZE - 4 ->
  load32 (pa + o) s = Done (pg32 pg o) s.
Proof.
  intros Hp Ho. unfold load32. erewrite bind_done; [done|].
  eapply load_bytes_page; [done|klia..].
Qed.

Lemma store64_page s pa pg o v :
  is_page (k_mem s) pa pg -> 0 <= o <= PGSIZE - 8 ->
  store64 (pa + o) v s = Done tt (set_k_mem (<[pa := pg64_set pg o v]> (k_mem s)) s).
Proof.
  intros Hp Ho. unfold store64. eapply store_bytes_page; [done|klia|].
  rewrite length_le_split. klia.
Qed.

Lemma store32_page s pa pg o v :
  is_page (k_mem s) pa pg -> 0 <= o <= PGSIZE - 4 ->
  store32 (pa + o) v s = Done tt (set_k_mem (<[pa := pg32_set pg o v]> (k_mem s)) s).
Proof.
  intros Hp Ho. unfold store32. eapply store_bytes_page; [done|klia|].
  rewrite length_le_split. klia.
Qed.

Lemma memset_page_eq s pa pg c :
  is_page (k_mem s) pa pg ->
  memset_page pa c s = Done tt (set_k_mem (<[pa := fill (u8 c)]> (k_mem s)) s).
Proof.
  intros Hp. unfold memset_page. replace pa with (pa + 0) at 1 by lia.
  rewrite (store_bytes_page s pa pg) by (rewrite ?length_replicate; first [done|klia]).
  rewrite splice_all; [done|]. destruct Hp as (_ & Hl & _). by rewrite Hl, length_replicate.
Qed.

Lemma load_page_eq s pa pg :
  is_page (k_mem s) pa pg -> load_bytes pa (Z.to_nat PGSIZE) s = Done pg s.
Proof.
  intros Hp. replace pa with (pa + 0) at 1 by lia.
  erewrite load_bytes_page by first [done|klia].
  rewrite drop_0, take_ge; [done|]. destruct Hp as (_ & Hl & _). lia.
Qed.

Lemma store_page_eq s pa pg bs :
  is_page (k_mem s) pa pg -> length bs = Z.to_nat PGSIZE ->
  store_bytes pa bs s = Done tt (set_k_mem (<[pa := bs]> (k_mem s)) s).
Proof.
  intros Hp Hl. replace pa with (pa + 0) at 1 by lia.
  erewrite store_bytes_page by first [done|klia].
  rewrite splice_all; [done|]. destruct Hp as (_ & Hl' & _). lia.
Qed.

(** ** Processes and locks *)

Lemma getp_eq s i p : k_procs s !! i = Some p -> getp i s = Done p s.
Proof. intros E. unfold getp. by rewrite E. Qed.

Lemma modp_eq s i p f :
  k_procs s !! i = Some p ->
  modp i f s = Done tt (set_k_procs (<[i := f p]> (k_procs s)) s).
Proof. intros E. unfold modp. by rewrite E. Qed.

Lemma acquire_eq s l :
  l ∉ k_locks s -> acquire l s = Done tt (set_k_locks (l :: k_locks s) s).
Proof. intros E. unfold acquire. by rewrite bool_decide_eq_false_2. Qed.

Lemma release_eq s l ls :
  k_locks s = l :: ls -> l ∉ ls -> release l s = Done tt (set_k_locks ls s).
Proof.
  intros E Hl. unfold release. rewrite E, bool_decide_eq_true_2 by constructor.
  do 2 f_equal. rewrite filter_cons_False by naive_solver.
  clear E. induction ls as [|l' ls IH]; [done|].
  apply not_elem_of_cons in Hl as [Hne Hl].
  rewrite filter_cons_True by congruence. by rewrite IH.
Qed.
End access.
