(* ===== verification/Str.v ===== *)
(** * Strings and byte arrays

    kernel/string.c. Memory is a list of bytes and pointers are positions in
    it; a C string is a list of bytes read up to its first 0. *)

From S2P Require Import Prelude Kernel.

(** ** Definitions *)

(** The byte at a position; a read past the end of the array gives 0. *)
Definition byte_at (m : list Z) (i : nat) : Z := default 0 (m !! i).

Fixpoint memset_loop (m : list Z) (dst : nat) (c : Z) (n : nat) : list Z :=
  match n with
  | O => m
  | S n => memset_loop (<[dst := u8 c]> m) (S dst) c n
  end.
Definition memset (m : list Z) (dst : nat) (c : Z) (n : nat) : list Z := memset_loop m dst c n.

Fixpoint memcmp (s1 s2 : list Z) (n : nat) : Z :=
  match n with
  | O => 0
  | S n =>
      if byte_at s1 0 =? byte_at s2 0 then memcmp (drop 1 s1) (drop 1 s2) n
      else byte_at s1 0 - byte_at s2 0
  end.

(** The two copying loops of [memmove]: from the end down, and from the start
    up. *)
Fixpoint move_down (m : list Z) (d s n : nat) : list Z :=
  match n with
  | O => m
  | S n => move_down (<[(d + n)%nat := byte_at m (s + n)]> m) d s n
  end.
Fixpoint move_up (m : list Z) (d s n : nat) : list Z :=
  match n with
  | O => m
  | S n => move_up (<[d := byte_at m s]> m) (S d) (S s) n
  end.
Definition memmove (m : list Z) (dst src n : nat) : list Z :=
  if bool_decide (n = 0)%nat then m
  else if bool_decide (src < dst)%nat && bool_decide (dst < src + n)%nat
  then move_down m dst src n
  else move_up m dst src n.

(** [strncmp]: [p] and [q] are the rest of the two strings. *)
Fixpoint strncmp (p q : list Z) (n : nat) : Z :=
  match n with
  | O => 0
  | S n =>
      if negb (byte_at p 0 =? 0) && (byte_at p 0 =? byte_at q 0)
      then strncmp (drop 1 p) (drop 1 q) n
      else u8 (byte_at p 0) - u8 (byte_at q 0)
  end.

(** The bytes [strncpy] writes: the string up to its 0, padded with 0. *)
Fixpoint strncpy (t : list Z) (n : nat) : list Z :=
  match n with
  | O => []
  | S n => if byte_at t 0 =? 0 then replicate (S n) 0 else byte_at t 0 :: strncpy (drop 1 t) n
  end.

(** The bytes [safestrcpy] writes: at most [n - 1] of the string, then a 0. *)
Fixpoint safestr_loop (t : list Z) (n : nat) : list Z :=
  match n with
  | O => [0]
  | S n => if byte_at t 0 =? 0 then [0; 0] else byte_at t 0 :: safestr_loop (drop 1 t) n
  end.

(** The destination after [safestrcpy(s, t, n)]. When the string ends within the
    bound, [s] has been advanced past its 0 before the last store. *)
Definition safestrcpy (s t : list Z) (n : Z) : list Z :=
  if n <=? 0 then s else splice s 0 (safestr_loop t (Z.to_nat (n - 1))).

Fixpoint strlen (s : list Z) : Z :=
  match s with
  | [] => 0
  | b :: s => if b =? 0 then 0 else 1 + strlen s
  end.

(** ** Copying and filling *)

Lemma byte_at_lookup m i b : m !! i = Some b -> byte_at m i = b.
Proof. unfold byte_at. by intros ->. Qed.

(** Two arrays of the same length with the same bytes are equal. *)
Lemma bytes_eq (m m' : list Z) :
  length m = length m' -> (forall i, (i < length m)%nat -> byte_at m i = byte_at m' i) -> m = m'.
Proof.
  intros Hl Hb. apply list_eq_same_length with (length m); [done|done|].
  intros i x y Hi Hx Hy. specialize (Hb i Hi). unfold byte_at in Hb.
  rewrite Hx, Hy in Hb. done.
Qed.

Lemma byte_at_insert m i j b :
  (i < length m)%nat -> byte_at (<[i := b]> m) j = if decide (i = j) then b else byte_at m j.
Proof.
  intros Hi. unfold byte_at. case_decide as E.
  - subst. by rewrite list_lookup_insert_eq.
  - by rewrite list_lookup_insert_ne.
Qed.

Lemma byte_at_splice m d bs j :
  (d + length bs <= length m)%nat ->
  byte_at (splice m d bs) j =
  if decide (d <= j < d + length bs)%nat then byte_at bs (j - d) else byte_at m j.
Proof.
  intros Hl. unfold byte_at, splice.
  assert (Ht : length (take d m) = d) by (rewrite length_take; lia).
  destruct (decide (d <= j < d + length bs)%nat) as [[H1 H2]|Hn].
  - rewrite lookup_app_r, Ht by lia. rewrite lookup_app_l by lia. done.
  - destruct (decide (j < d)%nat).
    + rewrite lookup_app_l by lia. by rewrite lookup_take_lt.
    + rewrite lookup_app_r, Ht by lia. rewrite lookup_app_r by lia. rewrite lookup_drop.
      do 2 f_equal. lia.
Qed.

Lemma length_splice_bytes m d bs : (d + length bs <= length m)%nat -> length (splice m d bs) = length m.
Proof. intros Hl. unfold splice. rewrite !length_app, length_take, length_drop. lia. Qed.

Lemma byte_at_take_drop m n s j :
  byte_at (take n (drop s m)) j = if decide (j < n)%nat then byte_at m (s + j) else 0.
Proof.
  unfold byte_at. case_decide.
  - by rewrite lookup_take_lt, lookup_drop.
  - rewrite lookup_take_ge by lia. done.
Qed.

Lemma length_move_down n : forall m d s, length (move_down m d s n) = length m.
Proof. induction n as [|n IH]; intros m d s; [done|]. simpl. rewrite IH. apply length_insert. Qed.

Lemma length_move_up n : forall m d s, length (move_up m d s n) = length m.
Proof. induction n as [|n IH]; intros m d s; [done|]. simpl. rewrite IH. apply length_insert. Qed.

Lemma move_down_at n : forall m d s j,
  (d + n <= length m)%nat -> (s <= d)%nat ->
  byte_at (move_down m d s n) j =
  if decide (d <= j < d + n)%nat then byte_at m (s + (j - d)) else byte_at m j.
Proof.
  induction n as [|n IH]; intros m d s j Hd Hs.
  { simpl. rewrite decide_False by lia. done. }
  simpl. rewrite IH by (rewrite ?length_insert; lia). rewrite !byte_at_insert by lia.
  repeat case_decide; try lia; try done. do 2 f_equal. lia.
Qed.

Lemma move_up_at n : forall m d s j,
  (d + n <= length m)%nat -> (d <= s \/ s + n <= d)%nat ->
  byte_at (move_up m d s n) j =
  if decide (d <= j < d + n)%nat then byte_at m (s + (j - d)) else byte_at m j.
Proof.
  induction n as [|n IH]; intros m d s j Hd Hs.
  { simpl. rewrite decide_False by lia. done. }
  simpl. rewrite IH by (rewrite ?length_insert; lia). rewrite !byte_at_insert by lia.
  repeat case_decide; try lia; try done; f_equal; lia.
Qed.

Lemma memset_loop_at n : forall m dst c j,
  (dst + n <= length m)%nat ->
  byte_at (memset_loop m dst c n) j =
  if decide (dst <= j < dst + n)%nat then u8 c else byte_at m j.
Proof.
  induction n as [|n IH]; intros m dst c j Hd.
  { simpl. rewrite decide_False by lia. done. }
  simpl. rewrite IH by (rewrite length_insert; lia). rewrite byte_at_insert by lia.
  repeat case_decide; try lia; done.
Qed.

Lemma length_memset_loop n : forall m dst c, length (memset_loop m dst c n) = length m.
Proof. induction n as [|n IH]; intros m dst c; [done|]. simpl. rewrite IH. apply length_insert. Qed.

(** [memset] writes [n] copies of the byte and nothing else. *)
Lemma memset_eq m dst c n :
  (dst + n <= length m)%nat -> memset m dst c n = splice m dst (replicate n (u8 c)).
Proof.
  intros Hd. apply bytes_eq.
  - unfold memset. rewrite length_memset_loop, length_splice_bytes; [done|].
    rewrite length_replicate. lia.
  - intros j Hj. unfold memset. rewrite memset_loop_at by lia.
    rewrite byte_at_splice by (rewrite length_replicate; lia). rewrite length_replicate.
    case_decide; [|done]. unfold byte_at. rewrite lookup_replicate_2 by lia. done.
Qed.

(** [memmove] copies the source as it was, also when the two ranges overlap. *)
Lemma memmove_eq m dst src n :
  (dst + n <= length m)%nat -> (src + n <= length m)%nat ->
  memmove m dst src n = splice m dst (take n (drop src m)).
Proof.
  intros Hd Hs.
  assert (Hlen : length (take n (drop src m)) = n) by (rewrite length_take, length_drop; lia).
  assert (Hat : forall j, byte_at (memmove m dst src n) j =
    if decide (dst <= j < dst + n)%nat then byte_at m (src + (j - dst)) else byte_at m j).
  { intros j. unfold memmove. destruct (bool_decide_reflect (n = 0)%nat) as [->|].
    { rewrite decide_False by lia. done. }
    destruct (bool_decide_reflect (src < dst)%nat); cbn [andb]; [|by apply move_up_at; lia].
    destruct (bool_decide_reflect (dst < src + n)%nat);
      [by apply move_down_at; lia|by apply move_up_at; lia]. }
  apply bytes_eq.
  - rewrite length_splice_bytes by lia. unfold memmove.
    repeat case_match; [done|apply length_move_down|apply length_move_up].
  - intros j Hj. rewrite Hat, byte_at_splice, Hlen by lia. case_decide; [|done].
    rewrite byte_at_take_drop. by rewrite decide_True by lia.
Qed.

(** ** Comparing and copying strings *)

(** The string a C function sees: the bytes before the first 0. *)
Fixpoint cstr (s : list Z) : list Z :=
  match s with
  | [] => []
  | b :: s => if b =? 0 then [] else b :: cstr s
  end.

Lemma strlen_cstr s : strlen s = Z.of_nat (length (cstr s)).
Proof. induction s as [|b s IH]; simpl; [done|]. destruct (b =? 0); [done|]. simpl. lia. Qed.

Definition bytes_ok (s : list Z) : Prop := Forall (fun b => 0 <= b < 256) s.

Lemma strncmp_zero n : forall p q,
  bytes_ok p -> bytes_ok q ->
  strncmp p q n = 0 <-> take n (cstr p) = take n (cstr q).
Proof.
  induction n as [|n IH]; intros p q Hp Hq; [done|].
  assert (Hu : forall s, bytes_ok s -> u8 (byte_at s 0) = byte_at s 0 /\ 0 <= byte_at s 0).
  { intros [|b s] Hs; [done|]. inversion Hs; subst. unfold byte_at. simpl. rewrite u8_small; lia. }
  destruct (Hu p Hp) as [Ep Hp0]. destruct (Hu q Hq) as [Eq Hq0]. cbn [strncmp].
  rewrite Ep, Eq. destruct p as [|b p], q as [|c q]; unfold byte_at in *; cbn [cstr lookup list_lookup default] in *.
  - done.
  - simpl. destruct (Z.eqb_spec c 0) as [->|]; [done|]. simpl. split; [lia|done].
  - simpl. destruct (Z.eqb_spec b 0) as [->|]; simpl; [done|]. split; [lia|done].
  - simpl in *. inversion Hp; inversion Hq; subst.
    destruct (Z.eqb_spec b 0) as [->|], (Z.eqb_spec c 0) as [->|]; simpl.
    + done.
    + split; [lia|done].
    + rewrite (proj2 (Z.eqb_neq b 0)) by done. split; [lia|done].
    + destruct (Z.eqb_spec b c) as [->|].
      * rewrite !drop_0, IH by done. split; [by intros ->|]. by intros [= ->].
      * split; [lia|congruence].
Qed.

Lemma length_strncpy n : forall t, length (strncpy t n) = n.
Proof.
  induction n as [|n IH]; intros t; [done|]. cbn [strncpy]. destruct (_ =? 0).
  - by rewrite length_replicate.
  - simpl. by rewrite IH.
Qed.

Lemma strncpy_cstr n : forall t, cstr (strncpy t n) = take n (cstr t).
Proof.
  induction n as [|n IH]; intros t; [done|]. cbn [strncpy].
  destruct t as [|b t]; unfold byte_at; cbn [lookup list_lookup default]; [done|].
  simpl. destruct (Z.eqb_spec b 0) as [->|Hb]; [done|]. simpl.
  rewrite (proj2 (Z.eqb_neq b 0)) by done. by rewrite drop_0, IH.
Qed.

Lemma safestr_loop_spec n : forall t,
  (length (safestr_loop t n) <= S n)%nat /\ cstr (safestr_loop t n) = take n (cstr t) /\
  0 ∈ safestr_loop t n.
Proof.
  induction n as [|n IH]; intros t; [by split_and!; simpl; [lia|done|left]|].
  cbn [safestr_loop]. destruct t as [|b t]; unfold byte_at; cbn [lookup list_lookup default].
  { simpl. split_and!; [lia|done|left]. }
  simpl. destruct (Z.eqb_spec b 0) as [->|Hb]; simpl.
  { split_and!; [lia|done|left]. }
  rewrite (proj2 (Z.eqb_neq b 0)) by done. rewrite drop_0. destruct (IH t) as (Hl & Hc & Hz).
  split_and!; [lia|by rewrite Hc|by right].
Qed.
