(* ===== verification/Printf.v ===== *)
(** * Formatted output

    kernel/printf.c, user/printf.c and [atoi] of user/ulib.c. A format string is
    its bytes without the terminating 0; the arguments are the values [va_arg]
    finds, in order. Output is the list of bytes handed to the character
    routine, which is [consputc] in the kernel and [putc] in user programs. The
    kernel formats by walking an index over the string, the library with a
    two-state machine; both are translated as they are written. *)

From S2P Require Import Prelude Kernel Str.
From Stdlib Require Import Ascii.

(** ** Definitions *)

(** The bytes of a string literal of the source. *)
Definition bytes_of (s : string) : list Z :=
  (fun a => Z.of_N (N_of_ascii a)) <$> String.list_ascii_of_string s.

Definition kdigits : list Z := bytes_of "0123456789abcdef".
Definition udigits : list Z := bytes_of "0123456789ABCDEF".

(** Arguments: integers and pointers are 64-bit values, strings are [None] for
    a null pointer. *)
Inductive parg := PInt (z : Z) | PStr (s : option (list Z)).

Definition arg_int (a : parg) : Z := match a with PInt z => z | PStr _ => 0 end.
Definition arg_str (a : parg) : list Z :=
  match a with
  | PInt _ => []
  | PStr None => bytes_of "(null)"
  | PStr (Some s) => cstr s
  end.

Section format.
Variable dg : list Z.
Variable putc : Z -> list Z.

(** The digit loop: the characters of [buf], lowest digit first. A 64-bit value
    has at most 64 digits in any base from 2 up. *)
Fixpoint print_digits (fuel : nat) (base x : Z) : list Z :=
  match fuel with
  | O => []
  | S fuel =>
      byte_at dg (Z.to_nat (x mod base)) ::
      (if x / base =? 0 then [] else print_digits fuel base (x / base))
  end.

(** [buf] of [printint] when the output loop starts. *)
Definition print_buf (xx base : Z) (sign : bool) : list Z :=
  let neg := sign && (xx <? 0) in
  let x := if neg then u64 (- xx) else u64 xx in
  print_digits 64 base x ++ (if neg then [45] else []).

Definition printint (xx base : Z) (sign : bool) : list Z :=
  mjoin (putc <$> reverse (print_buf xx base sign)).

Fixpoint printptr_loop (n : nat) (x : Z) : list Z :=
  match n with
  | O => []
  | S n => putc (byte_at dg (Z.to_nat (Z.shiftr x 60))) ++ printptr_loop n (u64 (Z.shiftl x 4))
  end.
Definition printptr (x : Z) : list Z := putc 48 ++ putc 120 ++ printptr_loop 16 (u64 x).

(** What follows a [%]: an argument conversion and how many characters of the
    format it takes beyond the first, a literal [%], the end of the string, or
    an unknown character. *)
Inductive conv :=
| CInt (width : Z) (base : Z) (sign : bool) (extra : nat)
| CPtr | CChar | CStr | CPercent | CEnd | CUnknown.

Definition conversion (c0 c1 c2 : Z) : conv :=
  if c0 =? 100 then CInt 32 10 true 0
  else if (c0 =? 108) && (c1 =? 100) then CInt 64 10 true 1
  else if (c0 =? 108) && (c1 =? 108) && (c2 =? 100) then CInt 64 10 true 2
  else if c0 =? 117 then CInt 32 10 false 0
  else if (c0 =? 108) && (c1 =? 117) then CInt 64 10 false 1
  else if (c0 =? 108) && (c1 =? 108) && (c2 =? 117) then CInt 64 10 false 2
  else if c0 =? 120 then CInt 32 16 false 0
  else if (c0 =? 108) && (c1 =? 120) then CInt 64 16 false 1
  else if (c0 =? 108) && (c1 =? 108) && (c2 =? 120) then CInt 64 16 false 2
  else if c0 =? 112 then CPtr
  else if c0 =? 99 then CChar
  else if c0 =? 115 then CStr
  else if c0 =? 37 then CPercent
  else if c0 =? 0 then CEnd
  else CUnknown.

(** [va_arg] at the type of the conversion, widened to [long long]. *)
Definition int_arg (width : Z) (sign : bool) (a : parg) : Z :=
  if width =? 32 then (if sign then s32 (arg_int a) else u32 (arg_int a))
  else (u64 (arg_int a) + 2 ^ 63) mod 2 ^ 64 - 2 ^ 63.

(** What a conversion prints and how many arguments it takes. *)
Definition render (c : conv) (c0 : Z) (args : list parg) : list Z * list parg :=
  let a := default (PInt 0) (head args) in
  match c with
  | CInt w b sg _ => (printint (int_arg w sg a) b sg, drop 1 args)
  | CPtr => (printptr (arg_int a), drop 1 args)
  | CChar => (putc (u32 (arg_int a)), drop 1 args)
  | CStr => (mjoin (putc <$> arg_str a), drop 1 args)
  | CPercent => (putc 37, args)
  | CEnd => ([], args)
  | CUnknown => (putc 37 ++ putc c0, args)
  end.
Definition conv_extra (c : conv) : nat := match c with CInt _ _ _ n => n | _ => 0 end.

(** [printf] of the kernel: an index that stands on the next character. The
    string is over after as many rounds as it has characters. *)
Fixpoint kprintf_loop (fuel : nat) (fmt : list Z) (i : nat) (args : list parg) : list Z :=
  match fuel with
  | O => []
  | S fuel =>
      let cx := byte_at fmt i in
      if cx =? 0 then []
      else if negb (cx =? 37) then putc cx ++ kprintf_loop fuel fmt (i + 1) args
      else
        let i := (i + 1)%nat in
        let c0 := byte_at fmt i in
        let c1 := if c0 =? 0 then 0 else byte_at fmt (i + 1) in
        let c2 := if c1 =? 0 then 0 else byte_at fmt (i + 2) in
        match conversion c0 c1 c2 with
        | CEnd => []
        | c =>
            let '(out, args) := render c c0 args in
            out ++ kprintf_loop fuel fmt (i + conv_extra c + 1) args
        end
  end.
Definition kprintf (fmt : list Z) (args : list parg) : list Z :=
  kprintf_loop (S (length fmt)) fmt 0 args.

(** [vprintf] of the user library: [state] is set after a [%]. *)
Fixpoint vprintf_loop (fuel : nat) (fmt : list Z) (i : nat) (state : bool) (args : list parg) : list Z :=
  match fuel with
  | O => []
  | S fuel =>
      let c0 := byte_at fmt i in
      if c0 =? 0 then []
      else if negb state then
        if c0 =? 37 then vprintf_loop fuel fmt (i + 1) true args
        else putc c0 ++ vprintf_loop fuel fmt (i + 1) false args
      else
        let c1 := if c0 =? 0 then 0 else byte_at fmt (i + 1) in
        let c2 := if c1 =? 0 then 0 else byte_at fmt (i + 2) in
        let c := conversion c0 c1 c2 in
        let '(out, args) := render c c0 args in
        out ++ vprintf_loop fuel fmt (i + conv_extra c + 1) false args
  end.
Definition vprintf (fmt : list Z) (args : list parg) : list Z :=
  vprintf_loop (S (length fmt)) fmt 0 false args.
End format.
Arguments CInt width base sign extra : clear implicits.

(** [consputc] sends the byte to the UART, or erases the last character. *)
Definition BACKSPACE : Z := 0x100.
Definition consputc (c : Z) : list Z := if c =? BACKSPACE then [8; 32; 8] else [u8 c].
Definition uputc (c : Z) : list Z := [u8 c].

Definition cprintf (fmt : string) (args : list parg) : list Z := kprintf kdigits consputc (bytes_of fmt) args.

(** What [panic] prints. *)
Definition panic_text (msg : string) : list Z :=
  cprintf "panic: " [] ++ kprintf kdigits consputc (bytes_of "%s" ++ [10]) [PStr (Some (bytes_of msg))].

Definition access_name (a : access) : list Z :=
  bytes_of match a with AExec => "exec" | ARead => "read" | AWrite => "write" end.
Definition cause_name (c : cause) : list Z :=
  bytes_of match c with CHeap => "heap" | CStack => "stack" | CExec => "exec" | CSwap => "swap" | CInvalid => "invalid" end.
Definition state_name (s : procstate) : list Z :=
  bytes_of match s with
           | UNUSED => "unused" | USED => "used" | SLEEPING => "sleep "
           | RUNNABLE => "runble" | RUNNING => "run   " | ZOMBIE => "zombie"
           end.

(** The line a [printf] of the kernel writes, with its newline. *)
Definition line (fmt : string) (args : list parg) : list Z :=
  kprintf kdigits consputc (bytes_of fmt ++ [10]) args.

(** The text of each console event. *)
Definition event_text (e : event) : list Z :=
  match e with
  | EvMemfull None => line "MEMFULL" []
  | EvMemfull (Some pid) => line "[pid %d] MEMFULL" [PInt pid]
  | EvVictim pid va seq => line "[pid %d] VICTIM va=0x%lx seq=%d algo=FIFO" [PInt pid; PInt va; PInt seq]
  | EvEvict pid va false => line "[pid %d] EVICT va=0x%lx state=clean" [PInt pid; PInt va]
  | EvEvict pid va true => line "[pid %d] EVICT va=0x%lx state=dirty" [PInt pid; PInt va]
  | EvDiscard pid va => line "[pid %d] DISCARD va=0x%lx" [PInt pid; PInt va]
  | EvSwapout pid va slot => line "[pid %d] SWAPOUT va=0x%lx slot=%d" [PInt pid; PInt va; PInt slot]
  | EvSwapfull pid => line "[pid %d] SWAPFULL" [PInt pid]
  | EvKillSwap pid => line "[pid %d] KILL swap-exhausted" [PInt pid]
  | EvNoSwapFile seq => line "EVICT (NoSwapFile) %d" [PInt seq]
  | EvPagefault pid va a c =>
      line "[pid %d] PAGEFAULT va=0x%lx access=%s cause=%s"
        [PInt pid; PInt va; PStr (Some (access_name a)); PStr (Some (cause_name c))]
  | EvSwapin pid va slot => line "[pid %d] SWAPIN va=0x%lx slot=%d" [PInt pid; PInt va; PInt slot]
  | EvResident pid va seq => line "[pid %d] RESIDENT va=0x%lx seq=%d" [PInt pid; PInt va; PInt seq]
  | EvAlloc pid va => line "[pid %d] ALLOC va=0x%lx" [PInt pid; PInt va]
  | EvLoadexec pid va => line "[pid %d] LOADEXEC va=0x%lx" [PInt pid; PInt va]
  | EvKillInvalid pid va a =>
      line "[pid %d] KILL invalid-access va=0x%lx access=%s" [PInt pid; PInt va; PStr (Some (access_name a))]
  | EvSwapcleanup pid slots => line "[pid %d] SWAPCLEANUP freed_slots=%d" [PInt pid; PInt slots]
  | EvInitLazymap pid exe_end sz sp =>
      line "[pid %d] INIT-LAZYMAP text=[0x0,0x%lx) data=[0x%lx,0x%lx) heap_start=0x%lx stack_top=0x%lx"
        [PInt pid; PInt exe_end; PInt exe_end; PInt sz; PInt exe_end; PInt sp]
  | EvUnexpectedScause scause pid sepc stval =>
      line "usertrap(): unexpected scause 0x%lx pid=%d" [PInt scause; PInt pid] ++
      line "            sepc=0x%lx stval=0x%lx" [PInt sepc; PInt stval]
  | EvUnknownSyscall pid name num => line "%d %s: unknown sys call %d" [PInt pid; PStr (Some name); PInt num]
  | EvIrq irq => line "unexpected interrupt irq=%d" [PInt irq]
  | EvScause scause sepc stval => line "scause=0x%lx sepc=0x%lx stval=0x%lx" [PInt scause; PInt sepc; PInt stval]
  | EvNewline => [10]
  | EvProcLine pid st name =>
      cprintf "%d %s %s" [PInt pid; PStr (Some (state_name st)); PStr (Some name)] ++ [10]
  end.

(** [atoi]: [int] arithmetic on the digits at the front of the string. *)
Fixpoint atoi_loop (s : list Z) (n : Z) : Z :=
  match s with
  | [] => n
  | c :: s => if (48 <=? c) && (c <=? 57) then atoi_loop s (s32 (n * 10 + c - 48)) else n
  end.
Definition atoi (s : list Z) : Z := atoi_loop s 0.

(** ** Numbers *)

Lemma print_digits_length dg base n : 2 <= base -> forall fuel x,
  (0 < n)%nat -> 0 <= x < base ^ Z.of_nat n -> (length (print_digits dg fuel base x) <= n)%nat.
Proof.
  intros Hb. induction n as [|n IH]; intros fuel x Hn Hx; [lia|].
  destruct fuel as [|fuel]; cbn [print_digits length]; [lia|].
  rewrite Nat2Z.inj_succ, Z.pow_succ_r in Hx by lia.
  destruct (Z.eqb_spec (x / base) 0) as [|Hq]; cbn [length]; [lia|].
  assert (0 <= x / base < base ^ Z.of_nat n).
  { split; [apply Z.div_pos; lia|apply Z.div_lt_upper_bound; lia]. }
  destruct n as [|n]; [rewrite Z.pow_0_r in *; lia|].
  specialize (IH fuel (x / base)). lia.
Qed.

Lemma int_arg_range w sg a : w = 32 \/ w = 64 -> - 2 ^ 63 <= int_arg w sg a < 2 ^ 63.
Proof.
  unfold int_arg. intros [-> | ->]; cbn [Z.eqb Pos.eqb].
  - destruct sg; [pose proof (s32_range (arg_int a))|pose proof (u32_range (arg_int a))]; lia.
  - pose proof (Z.mod_pos_bound (u64 (arg_int a) + 2 ^ 63) (2 ^ 64) ltac:(lia)). lia.
Qed.

Lemma conversion_int c0 c1 c2 w b sg n :
  conversion c0 c1 c2 = CInt w b sg n -> (w = 32 \/ w = 64) /\ (b = 10 \/ b = 16 /\ sg = false).
Proof.
  unfold conversion. intros H.
  repeat match type of H with (if ?c then _ else _) = _ => destruct c end; simplify_eq; auto.
Qed.

Lemma print_buf_length dg xx base sg :
  - 2 ^ 63 <= xx < 2 ^ 63 -> base = 10 \/ base = 16 /\ sg = false -> (length (print_buf dg xx base sg) <= 20)%nat.
Proof.
  intros Hx Hb. unfold print_buf. rewrite length_app.
  destruct (sg && (xx <? 0)) eqn:E; cbn [length].
  - destruct Hb as [-> | [_ ->]]; [|done]. apply andb_true_iff in E as [_ E%Z.ltb_lt].
    rewrite u64_small by lia.
    pose proof (print_digits_length dg 10 19 ltac:(lia) 64 (- xx) ltac:(lia) ltac:(lia)). lia.
  - pose proof (u64_range xx). destruct Hb as [-> | [-> _]].
    + pose proof (print_digits_length dg 10 20 ltac:(lia) 64 (u64 xx) ltac:(lia) ltac:(lia)). lia.
    + pose proof (print_digits_length dg 16 16 ltac:(lia) 64 (u64 xx) ltac:(lia) ltac:(lia)). lia.
Qed.

Lemma udigits_decimal d : 0 <= d < 10 -> byte_at udigits (Z.to_nat d) = 48 + d.
Proof.
  intros H. assert (d = 0 \/ d = 1 \/ d = 2 \/ d = 3 \/ d = 4 \/ d = 5 \/ d = 6 \/ d = 7 \/ d = 8 \/ d = 9) as D by lia.
  repeat destruct D as [-> | D]; try reflexivity. by subst.
Qed.

(** Reading the digits back continues with their value. *)
Lemma atoi_digits fuel : forall x rest,
  (0 < fuel)%nat -> 0 <= x < 2 ^ 31 -> x < 10 ^ Z.of_nat fuel ->
  atoi_loop (reverse (print_digits udigits fuel 10 x) ++ rest) 0 = atoi_loop rest x.
Proof.
  induction fuel as [|fuel IH]; intros x rest Hf Hx Hb; [lia|]. cbn [print_digits].
  pose proof (Z.mod_pos_bound x 10 ltac:(lia)) as Hm. pose proof (Z.div_mod x 10 ltac:(lia)) as Hd.
  pose proof (Z.div_pos x 10 ltac:(lia) ltac:(lia)) as Hq.
  rewrite udigits_decimal by done.
  rewrite Nat2Z.inj_succ, Z.pow_succ_r in Hb by lia.
  assert (forall n, atoi_loop (48 + x mod 10 :: rest) n = atoi_loop rest (s32 (n * 10 + x mod 10))) as Hstep.
  { intros n. cbn [atoi_loop]. replace ((48 <=? 48 + x mod 10) && (48 + x mod 10 <=? 57)) with true by lia.
    do 2 f_equal. lia. }
  destruct (Z.eqb_spec (x / 10) 0) as [E|E].
  - rewrite reverse_singleton. cbn [app]. rewrite Hstep, s32_small by lia. f_equal. lia.
  - rewrite reverse_cons, <- app_assoc. cbn [app].
    rewrite IH; [rewrite Hstep, s32_small by lia; f_equal; lia| |lia|lia].
    destruct fuel; [rewrite Z.pow_0_r in Hb; lia|lia].
Qed.

Lemma print_digits_bytes fuel : forall x, 0 <= x ->
  Forall (fun c => 0 <= c < 256) (print_digits udigits fuel 10 x).
Proof.
  induction fuel as [|fuel IH]; intros x Hx; cbn [print_digits]; constructor.
  - rewrite udigits_decimal; pose proof (Z.mod_pos_bound x 10 ltac:(lia)); lia.
  - case_match; [done|]. apply IH. apply Z.div_pos; lia.
Qed.

(** A byte is printed as itself. *)
Lemma uputc_bytes l : Forall (fun c => 0 <= c < 256) l -> mjoin (uputc <$> l) = l.
Proof.
  induction 1 as [|c l Hc _ IH]; [done|]. cbn [fmap list_fmap mjoin list_join uputc app].
  rewrite u8_small by done. by f_equal.
Qed.

Lemma vprintf_d n : vprintf udigits uputc (bytes_of "%d") [PInt n] = printint udigits uputc (s32 n) 10 true.
Proof.
  change (vprintf udigits uputc (bytes_of "%d") [PInt n]) with (printint udigits uputc (s32 n) 10 true ++ []).
  apply app_nil_r.
Qed.

(** ** The two formatters *)

Lemma conversion_end c0 c1 c2 : conversion c0 c1 c2 = CEnd <-> c0 = 0.
Proof.
  split; [|by intros ->]. unfold conversion. intros H.
  repeat match type of H with (if ?c then _ else _) = _ => destruct c eqn:? end; simplify_eq; lia.
Qed.

Lemma byte_at_past (m : list Z) i : (length m <= i)%nat -> byte_at m i = 0.
Proof. intros H. unfold byte_at. by rewrite lookup_ge_None_2. Qed.

(** With a round for each character left, the index loop and the state machine
    print the same. *)
Lemma kprintf_vprintf_loop dg putc fmt n : forall i args f1 f2,
  (length fmt - i <= n)%nat -> (length fmt - i < f1)%nat -> (length fmt - i < f2)%nat ->
  kprintf_loop dg putc f1 fmt i args = vprintf_loop dg putc f2 fmt i false args.
Proof.
  induction n as [n IH] using lt_wf_ind. intros i args f1 f2 Hn H1 H2.
  destruct f1 as [|f1]; [lia|]. destruct f2 as [|f2]; [lia|].
  cbn [kprintf_loop vprintf_loop negb].
  destruct (Z.eqb_spec (byte_at fmt i) 0) as [|E0]; [done|].
  assert (i < length fmt)%nat as Hi.
  { destruct (decide (i < length fmt)%nat); [done|]. destruct E0. apply byte_at_past. lia. }
  destruct (Z.eqb_spec (byte_at fmt i) 37) as [_|_]; cbn [negb].
  2: { f_equal. apply (IH (n - 1)%nat); lia. }
  destruct f2 as [|f2]; [lia|]. cbn [vprintf_loop negb].
  destruct (Z.eqb_spec (byte_at fmt (i + 1)) 0) as [E1|E1].
  { rewrite E1. done. }
  set (c := conversion _ _ _). assert (c <> CEnd) as Hc.
  { intros Hc. by apply conversion_end in Hc. }
  assert (i + 1 < length fmt)%nat as Hi1.
  { destruct (decide (i + 1 < length fmt)%nat); [done|]. destruct E1. apply byte_at_past. lia. }
  assert (forall args', kprintf_loop dg putc f1 fmt (i + 1 + conv_extra c + 1) args' =
                        vprintf_loop dg putc f2 fmt (i + 1 + conv_extra c + 1) false args') as Hrec.
  { intros args'. apply (IH (n - 2)%nat); lia. }
  clearbody c. destruct c; [| | | | |done|]; destruct (render _ _ _ _ _); by rewrite Hrec.
Qed.

(** ** Properties *)

(** The buffer of [printint] never overflows: for every conversion a format
    can ask for and every argument, the characters stored before the output loop
    starts fit the 20 bytes of [buf]. *)
Theorem printint_buffer dg c0 c1 c2 w b sg n a :
  conversion c0 c1 c2 = CInt w b sg n -> (length (print_buf dg (int_arg w sg a) b sg) <= 20)%nat.
Proof.
  intros [Hw Hb]%conversion_int. apply print_buf_length; [by apply int_arg_range|done].
Qed.

(** The longest outputs: the least 64-bit integer and the greatest. *)
Lemma printint_buffer_witness :
  (length (print_buf kdigits (int_arg 64 true (PInt (- 2 ^ 63))) 10 true) <= 20)%nat /\
  (length (print_buf kdigits (int_arg 64 false (PInt (2 ^ 64 - 1))) 10 false) <= 20)%nat.
Proof.
  split; [apply (printint_buffer kdigits 108 100 0 64 10 true 1)|apply (printint_buffer kdigits 108 117 0 64 10 false 1)];
    reflexivity.
Defined.


(** A number printed with [%d] is read back by [atoi]: for every
    non-negative [int], and whatever follows it that does not start with a
    digit. *)
Theorem atoi_printf n rest :
  0 <= n < 2 ^ 31 -> (forall c, head rest = Some c -> ~ (48 <= c <= 57)) ->
  atoi (vprintf udigits uputc (bytes_of "%d") [PInt n] ++ rest) = n.
Proof.
  intros Hn Hr. rewrite vprintf_d, s32_small by lia. unfold printint, print_buf.
  replace (true && (n <? 0)) with false by lia.
  rewrite u64_small, app_nil_r by lia.
  rewrite uputc_bytes by (apply Forall_reverse, print_digits_bytes; lia).
  unfold atoi. rewrite atoi_digits; [|lia|lia|lia].
  destruct rest as [|c rest]; cbn [atoi_loop]; [done|]. specialize (Hr c eq_refl).
  by replace ((48 <=? c) && (c <=? 57)) with false by lia.
Qed.

Lemma atoi_printf_witness : atoi (vprintf udigits uputc (bytes_of "%d") [PInt 2147483647] ++ [10]) = 2147483647.
Proof. apply (atoi_printf 2147483647 [10]); [lia|]. intros c [= <-]. lia. Defined.
