(* ===== verification/Ulib.v ===== *)
(** * The user library

    The string routines of user/ulib.c. A string is its bytes before the
    terminating 0; memory is a list of bytes that the routines index. *)

From S2P Require Import Prelude Kernel Str.

(** ** Definitions *)

(** [strcpy]: the bytes written, the 0 included. *)
Fixpoint strcpy (t : list Z) : list Z :=
  match t with
  | [] => [0]
  | b :: t => if b =? 0 then [0] else b :: strcpy t
  end.

Fixpoint strcmp (p q : list Z) : Z :=
  match p with
  | [] => u8 0 - u8 (byte_at q 0)
  | b :: p' =>
      if negb (b =? 0) && (b =? byte_at q 0) then strcmp p' (drop 1 q)
      else u8 b - u8 (byte_at q 0)
  end.

(** [strchr]: the index of the first [c], or [None]; a 0 ends the search. *)
Fixpoint strchr (s : list Z) (c : Z) : option nat :=
  match s with
  | [] => None
  | b :: s => if b =? 0 then None else if b =? c then Some 0%nat else S <$> strchr s c
  end.

(** [memmove] of the library chooses the direction by the order of the two
    ranges alone, where the kernel's also asks whether they overlap. *)
Definition umemmove (m : list Z) (dst src n : nat) : list Z :=
  if bool_decide (dst < src)%nat then move_up m dst src n else move_down m dst src n.

Definition umemcpy (m : list Z) (dst src n : nat) : list Z := umemmove m dst src n.

Fixpoint umemcmp (s1 s2 : list Z) (n : nat) : Z :=
  match n with
  | O => 0
  | S n =>
      if negb (byte_at s1 0 =? byte_at s2 0) then byte_at s1 0 - byte_at s2 0
      else umemcmp (drop 1 s1) (drop 1 s2) n
  end.

(** [gets]: the bytes of the line and what is left of the input; every [read]
    of one byte gives the next byte of the input, or nothing at its end. *)
Fixpoint gets_loop (max : nat) (input : list Z) : list Z * list Z :=
  match max, input with
  | S max, c :: input =>
      if (c =? 10) || (c =? 13) then ([c], input)
      else let '(line, input) := gets_loop max input in (c :: line, input)
  | _, _ => ([], input)
  end.
Definition gets (max : nat) (input : list Z) : list Z * list Z :=
  let '(line, input) := gets_loop (max - 1) input in (line ++ [0], input).

(** ** Lemmas *)

Lemma umemmove_eq m dst src n : (dst + n <= length m)%nat -> (src + n <= length m)%nat ->
  umemmove m dst src n = splice m dst (take n (drop src m)).
Proof.
  intros Hd Hs.
  assert (Hlen : length (take n (drop src m)) = n) by (rewrite length_take, length_drop; lia).
  apply bytes_eq.
  - rewrite length_splice_bytes by lia. unfold umemmove. case_bool_decide; [apply length_move_up|apply length_move_down].
  - intros j Hj. rewrite byte_at_splice, Hlen by lia. unfold umemmove.
    rewrite byte_at_take_drop.
    case_bool_decide; [rewrite move_up_at by lia|rewrite move_down_at by lia];
      (destruct (decide (dst <= j < dst + n)%nat); [by rewrite decide_True by lia|done]).
Qed.

Lemma gets_split max input :
  (length (gets max input).1 <= Nat.max max 1)%nat /\
  exists line, (gets max input).1 = line ++ [0] /\ input = line ++ (gets max input).2 /\
    (forall i c, line !! i = Some c -> c = 10 \/ c = 13 -> S i = length line).
Proof.
  unfold gets. destruct (gets_loop (max - 1) input) as [line rest] eqn:E. cbn [fst snd].
  enough (H : (length line <= max - 1)%nat /\ input = line ++ rest /\
            (forall i c, line !! i = Some c -> c = 10 \/ c = 13 -> S i = length line)).
  { destruct H as (H1 & H2 & H3). rewrite length_app. split; [cbn; lia|]. by exists line. }
  revert input line rest E. induction (max - 1)%nat as [|n IH]; intros input line rest E.
  { cbn in E. destruct input; simplify_eq; (split; [cbn; lia|]); (split; [done|]); intros i c H; by destruct i. }
  destruct input as [|c input]; cbn [gets_loop] in E.
  { simplify_eq. split; [cbn; lia|]. split; [done|]. intros i c H. by destruct i. }
  destruct ((c =? 10) || (c =? 13)) eqn:Ec.
  - simplify_eq. split; [cbn; lia|]. split; [done|]. intros [|i] c' H Hc; [done|]. by destruct i.
  - destruct (gets_loop n input) as [l r] eqn:El. simplify_eq. destruct (IH _ _ _ El) as (H1 & -> & H3).
    split; [cbn; lia|]. split; [done|]. intros [|i] c' H Hc; cbn in *; [simplify_eq; lia|]. by rewrite (H3 i c' H Hc).
Qed.

(** ** Theorems *)

(** The kernel's [memmove] and the user library's, which decide differently in
    which direction to copy, compute the same: the destination receives the
    source as it was, however the two ranges overlap. *)
Theorem memmove_equivalence m dst src n : (dst + n <= length m)%nat -> (src + n <= length m)%nat ->
  memmove m dst src n = splice m dst (take n (drop src m)) /\ umemmove m dst src n = memmove m dst src n.
Proof. intros Hd Hs. rewrite memmove_eq, umemmove_eq by done. done. Qed.

Lemma memmove_equivalence_witness :
  umemmove [1; 2; 3; 4; 5] 1 0 3 = [1; 1; 2; 3; 5] /\ memmove [1; 2; 3; 4; 5] 1 0 3 = [1; 1; 2; 3; 5].
Proof.
  destruct (memmove_equivalence [1; 2; 3; 4; 5] 1 0 3) as [H1 H2]; [cbn; lia|cbn; lia|].
  rewrite H2, H1. split; reflexivity.
Defined.
