(* ===== verification/Umalloc.v ===== *)
(** * The user allocator

    user/umalloc.c: a circular list of free blocks in address order, searched
    first-fit from where the last search ended. A block begins with a header of
    16 bytes and its size counts in headers. *)

From S2P Require Import Prelude.

(** ** Definitions *)

Definition HSZ : Z := 16.

(** [sbrk] of user/ulib.c: given the amount, an [int], and the end of the
    process's memory, the start of the new memory and the new end, or failure. *)
Class Sbrk := {
  sbrk : Z -> Z -> option (Z * Z);
  sbrk_grows : forall n b p b', 0 < n -> sbrk n b = Some (p, b') -> p = b /\ b' = b + n
}.

(** [union header]: [ptr] and [size]. *)
Record header := mkH { h_ptr : Z; h_size : Z }.

(** [freep], the headers in memory, and the end of the process's memory. *)
Record heap := mkHeap { m_freep : Z; m_hdr : gmap Z header; m_brk : Z }.
Definition set_freep (p : Z) (s : heap) : heap := mkHeap p (m_hdr s) (m_brk s).
Definition set_hdr (a : Z) (h : header) (s : heap) : heap := mkHeap (m_freep s) (<[a := h]> (m_hdr s)) (m_brk s).
Definition set_brk (b : Z) (s : heap) : heap := mkHeap (m_freep s) (m_hdr s) b.

(** Reading a header that was never written is an error of the allocator; a store
    to one field keeps the other. *)
Definition load (a : Z) : M heap header := fun s =>
  match m_hdr s !! a with Some h => Done h s | None => Panic "wild header" end.
Definition set_ptr (a v : Z) : M heap unit :=
  modify (fun s => set_hdr a (mkH v (h_size (default (mkH 0 0) (m_hdr s !! a)))) s).
Definition set_size (a v : Z) : M heap unit :=
  modify (fun s => set_hdr a (mkH (h_ptr (default (mkH 0 0) (m_hdr s !! a))) (u32 v)) s).

Section umalloc.
(** The address of the static variable [base]. *)
Variable base : Z.

(** The search of [free] for the place of the block. *)
Fixpoint free_place (fuel : nat) (bp p : Z) : M heap Z :=
  match fuel with
  | O => nofuel
  | S fuel =>
      let* h := load p in
      if (p <? bp) && (bp <? h_ptr h) then ret p
      else if (h_ptr h <=? p) && ((p <? bp) || (bp <? h_ptr h)) then ret p
      else free_place fuel bp (h_ptr h)
  end.

Definition free (ap : Z) : M heap unit :=
  let bp := ap - HSZ in
  let* s := get in
  let* p := free_place (S (size (m_hdr s))) bp (m_freep s) in
  let* hb := load bp in
  let* hp := load p in
  (if u64 (bp + HSZ * h_size hb) =? h_ptr hp then
     let* hn := load (h_ptr hp) in
     set_size bp (h_size hb + h_size hn) ;;
     set_ptr bp (h_ptr hn)
   else set_ptr bp (h_ptr hp)) ;;
  let* hb := load bp in
  let* hp := load p in
  (if u64 (p + HSZ * h_size hp) =? bp then
     set_size p (h_size hp + h_size hb) ;;
     set_ptr p (h_ptr hb)
   else set_ptr p bp) ;;
  modify (set_freep p).

Context `{Sbrk}.

(** The result is 0 when there is no more memory. *)
Definition morecore (nu : Z) : M heap Z :=
  let nu := if nu <? 4096 then 4096 else nu in
  let* s := get in
  match sbrk (s32 (nu * HSZ)) (m_brk s) with
  | None => ret 0
  | Some (p, b) =>
      modify (set_brk b) ;;
      set_size p nu ;;
      free (p + HSZ) ;;
      let* s := get in ret (m_freep s)
  end.

(** The loop of [malloc]: [p] is the block to look at, [prevp] the one before. *)
Fixpoint malloc_loop (fuel : nat) (nunits prevp p : Z) : M heap Z :=
  match fuel with
  | O => nofuel
  | S fuel =>
      let* h := load p in
      if nunits <=? h_size h then
        let* q :=
          (if h_size h =? nunits then set_ptr prevp (h_ptr h) ;; ret p
           else
             set_size p (h_size h - nunits) ;;
             let q := u64 (p + HSZ * (h_size h - nunits)) in
             set_size q nunits ;;
             ret q) in
        modify (set_freep prevp) ;;
        ret (q + HSZ)
      else
        let* s := get in
        if p =? m_freep s then
          let* p := morecore nunits in
          if p =? 0 then ret 0
          else let* h := load p in malloc_loop fuel nunits p (h_ptr h)
        else malloc_loop fuel nunits p (h_ptr h)
  end.

Definition units (nbytes : Z) : Z := u32 ((nbytes + HSZ - 1) / HSZ + 1).

Definition malloc (nbytes : Z) : M heap Z :=
  let nunits := units nbytes in
  let* s := get in
  (if m_freep s =? 0 then
     set_ptr base base ;;
     modify (set_freep base) ;;
     set_size base 0
   else ret tt) ;;
  let* s := get in
  let* h := load (m_freep s) in
  malloc_loop (2 * size (m_hdr s) + 4) nunits (m_freep s) (h_ptr h).

(** *** The state of the heap *)

(** Two blocks that do not overlap. *)
Definition apart (a n b m : Z) : Prop := a + HSZ * n <= b \/ b + HSZ * m <= a.

(** Free blocks in address order, none of them touching the next. *)
Fixpoint gaps (lo : Z) (l : list (Z * Z)) : Prop :=
  match l with
  | [] => True
  | (a, n) :: l => lo < a /\ 0 < n /\ gaps (a + HSZ * n) l
  end.

(** The headers link the blocks; the last one points to [z]. *)
Definition head_of (l : list (Z * Z)) (z : Z) : Z := match l with (a, _) :: _ => a | [] => z end.
Fixpoint chain (hdr : gmap Z header) (l : list (Z * Z)) (z : Z) : Prop :=
  match l with
  | [] => True
  | (a, n) :: l => hdr !! a = Some (mkH (head_of l z) n) /\ chain hdr l z
  end.

(** [fl] are the free blocks, [live] the blocks that have been handed out. The
    list starts at [base], whose size is 0. *)
Record minv (fl : list (Z * Z)) (live : gmap Z Z) (s : heap) : Prop := {
  mi_base : 0 < base;
  mi_brk : base + HSZ <= m_brk s < 2 ^ 36;
  mi_chain : chain (m_hdr s) ((base, 0) :: fl) base;
  mi_gaps : gaps (base + HSZ - 1) fl;
  mi_freep : m_freep s = base \/ exists n, (m_freep s, n) ∈ fl;
  mi_fin : forall a n, (a, n) ∈ fl -> a + HSZ * n <= m_brk s;
  mi_live : forall a n, live !! a = Some n -> 0 < n /\ base + HSZ <= a /\ a + HSZ * n <= m_brk s /\
    exists p, m_hdr s !! a = Some (mkH p n);
  mi_free : forall a n b m, (a, n) ∈ fl -> live !! b = Some m -> apart a n b m;
  mi_apart : forall a n b m, live !! a = Some n -> live !! b = Some m -> a <> b -> apart a n b m
}.

(** No header store of an operation falls into a block of [live]. *)
Definition kept (live : gmap Z Z) (s s' : heap) : Prop :=
  forall b n a, live !! b = Some n -> b - HSZ < a < b + HSZ * n -> m_hdr s' !! a = m_hdr s !! a.
End umalloc.

(** ** Lists of blocks *)

Ltac hlia := unfold HSZ in *; lia.

Fixpoint end_of (lo : Z) (l : list (Z * Z)) : Z := match l with [] => lo | (a, n) :: l => end_of (a + HSZ * n) l end.

Lemma gaps_app l1 : forall lo l2, gaps lo (l1 ++ l2) <-> gaps lo l1 /\ gaps (end_of lo l1) l2.
Proof. induction l1 as [|[a n] l1 IH]; intros lo l2; cbn; [tauto|]. rewrite IH. tauto. Qed.

Lemma gaps_elem l : forall lo a n, gaps lo l -> (a, n) ∈ l -> lo < a /\ 0 < n /\ a + HSZ * n <= end_of lo l.
Proof.
  assert (forall l lo, gaps lo l -> lo <= end_of lo l) as Hmono.
  { clear. induction l as [|[b m] l IH]; intros lo; cbn; [lia|]. intros (H1 & H2 & H3). apply IH in H3. hlia. }
  induction l as [|[b m] l IH]; intros lo a n; cbn; [by intros _ ?%elem_of_nil|].
  intros (H1 & H2 & H3) [E|E]%elem_of_cons; [injection E as -> ->; pose proof (Hmono _ _ H3); lia|].
  destruct (IH _ _ _ H3 E). hlia.
Qed.

Lemma gaps_weaken lo lo' l : lo' <= lo -> gaps lo l -> gaps lo' l.
Proof. destruct l as [|[a n] l]; cbn; [done|]. intros ? (? & ?). split; [lia|done]. Qed.

Lemma chain_app hdr l1 : forall l2 z, chain hdr (l1 ++ l2) z <-> chain hdr l1 (head_of l2 z) /\ chain hdr l2 z.
Proof.
  induction l1 as [|[a n] l1 IH]; intros l2 z; cbn; [tauto|]. rewrite IH.
  assert (head_of (l1 ++ l2) z = head_of l1 (head_of l2 z)) as -> by (by destruct l1 as [|[? ?] ?]). tauto.
Qed.

Lemma chain_frame hdr hdr' l z : (forall a n, (a, n) ∈ l -> hdr' !! a = hdr !! a) -> chain hdr l z -> chain hdr' l z.
Proof.
  induction l as [|[a n] l IH]; cbn; [done|]. intros Hf [H1 H2]. rewrite (Hf a n) by by left. split; [done|].
  apply IH; [|done]. intros b m Hb. apply (Hf b m). by right.
Qed.

Lemma chain_lookup hdr l z : forall k a n, chain hdr l z -> l !! k = Some (a, n) ->
  hdr !! a = Some (mkH (head_of (drop (S k) l) z) n).
Proof.
  induction l as [|[b m] l IH]; intros [|k] a n Hc Hk; try done; destruct Hc as [H1 H2]; cbn in *; [by injection Hk as -> ->|by apply IH].
Qed.

Fixpoint total (l : list (Z * Z)) : Z := match l with [] => 0 | (_, n) :: l => n + total l end.
Lemma total_app a b : total (a ++ b) = total a + total b.
Proof. induction a as [|[x n] a IH]; cbn [app total]; [lia|]. rewrite IH. lia. Qed.

(** Where a block belongs that overlaps no free block. *)
Lemma place l : forall lo bp m, gaps lo l -> (forall a n, (a, n) ∈ l -> apart a n bp m) -> 0 < m ->
  exists l1 l2, l = l1 ++ l2 /\ (forall a n, (a, n) ∈ l1 -> a + HSZ * n <= bp) /\ (forall a n, (a, n) ∈ l2 -> bp + HSZ * m <= a).
Proof.
  induction l as [|[a n] l IH]; intros lo bp m Hg Ha Hm; cbn in Hg.
  { exists [], []. split; [done|]. split; by intros ? ? ?%elem_of_nil. }
  destruct Hg as (G1 & G2 & G3). destruct (Ha a n) as [Hl|Hr]; [by left| |].
  - destruct (IH _ bp m G3) as (l1 & l2 & -> & H1 & H2); [intros b k Hb; apply Ha; by right|done|].
    exists ((a, n) :: l1), l2. split; [done|]. split; [|done]. intros b k [E|E]%elem_of_cons; [by injection E as -> ->|by apply (H1 b k)].
  - exists [], ((a, n) :: l). split; [done|]. split; [by intros ? ? ?%elem_of_nil|].
    intros b k [E|E]%elem_of_cons; [by injection E as -> ->|]. destruct (gaps_elem _ _ _ _ G3 E). hlia.
Qed.

Lemma gaps_nodup l : forall lo, gaps lo l -> NoDup (fst <$> l).
Proof.
  induction l as [|[a n] l IH]; intros lo; cbn [gaps fmap list_fmap]; [constructor|]. intros (H1 & H2 & H3).
  constructor; [|by eapply IH]. intros (x & E & Hx)%list_elem_of_fmap. destruct x as [b m]. cbn in E. subst b.
  destruct (gaps_elem _ _ _ _ H3 Hx). hlia.
Qed.

Lemma chain_size hdr l z : chain hdr l z -> NoDup (fst <$> l) -> (length l <= size hdr)%nat.
Proof.
  intros Hc Hn. rewrite <- (length_fmap fst l). rewrite <- (size_dom hdr).
  rewrite <- (size_list_to_set (C := gset Z) (fst <$> l)) by done. apply subseteq_size. intros x Hx.
  apply elem_of_list_to_set, list_elem_of_fmap in Hx as ([a n] & -> & Hx). apply list_elem_of_lookup in Hx as [k Hk].
  apply elem_of_dom. eexists. by eapply chain_lookup.
Qed.

(** ** [free] *)

Section free.
Variables (base : Z) (fl : list (Z * Z)) (live : gmap Z Z) (s : heap) (bp m : Z).
Hypothesis I : minv base fl live s.
Hypothesis Hbp : live !! bp = Some m.
Variables (l1 l2 : list (Z * Z)).
Hypothesis Hfl : fl = l1 ++ l2.
Hypothesis Hl1 : forall a n, (a, n) ∈ l1 -> a + HSZ * n <= bp.
Hypothesis Hl2 : forall a n, (a, n) ∈ l2 -> bp + HSZ * m <= a.
Notation ns := ((base, 0) :: fl).

Lemma bp_pos : 0 < m /\ base + HSZ <= bp.
Proof. by destruct (mi_live _ _ _ _ I bp m Hbp) as (? & ? & _). Qed.

(** The addresses increase along the list. *)
Lemma ns_below k a n : ns !! k = Some (a, n) -> (k <= length l1)%nat -> base <= a < bp.
Proof.
  intros Hk Hle. pose proof bp_pos. destruct k as [|k]; [injection Hk as <- <-; hlia|]. change (fl !! k = Some (a, n)) in Hk.
  rewrite Hfl, lookup_app_l in Hk by lia. apply list_elem_of_lookup_2 in Hk as Hin.
  pose proof (Hl1 _ _ Hin). destruct (gaps_elem fl _ a n (mi_gaps _ _ _ _ I)) as (? & ? & _); [|hlia].
  rewrite Hfl. apply elem_of_app. by left.
Qed.
Lemma ns_above k a n : ns !! k = Some (a, n) -> (length l1 < k)%nat -> bp < a.
Proof.
  intros Hk Hle. pose proof bp_pos. destruct k as [|k]; [lia|]. change (fl !! k = Some (a, n)) in Hk. rewrite Hfl, lookup_app_r in Hk by lia.
  apply list_elem_of_lookup_2 in Hk. pose proof (Hl2 _ _ Hk). hlia.
Qed.
Lemma ns_next k a n : ns !! k = Some (a, n) -> exists q, m_hdr s !! a = Some (mkH q n) /\
  match ns !! S k with Some (b, _) => q = b /\ a < b | None => q = base end.
Proof.
  intros Hk. eexists. split; [by eapply chain_lookup; [apply I|]|].
  destruct (ns !! S k) as [[b t]|] eqn:Hb.
  - rewrite (drop_S _ _ _ Hb). cbn [head_of]. split; [done|].
    pose proof (mi_gaps _ _ _ _ I) as G. change (fl !! k = Some (b, t)) in Hb. apply list_elem_of_split_length in Hb as (x & y & E & Hx). rewrite E in G.
    apply gaps_app in G as [G1 (G2 & _)]. destruct k as [|k].
    + injection Hk as <- <-. destruct x; [cbn in G2; hlia|done].
    + change (fl !! k = Some (a, n)) in Hk. rewrite E, lookup_app_l in Hk by lia. apply list_elem_of_lookup_2 in Hk. destruct (gaps_elem _ _ _ _ G1 Hk). hlia.
  - apply lookup_ge_None in Hb. by rewrite drop_ge.
Qed.

(** Steps from position [k] to the place of the block. *)
Definition steps (k : nat) : nat :=
  if decide (k <= length l1)%nat then (length l1 - k)%nat else (length ns - k + length l1)%nat.

Lemma free_place_run fuel : forall k p n, ns !! k = Some (p, n) -> (steps k < fuel)%nat ->
  exists a n, ns !! length l1 = Some (a, n) /\ free_place fuel bp p s = Done a s.
Proof.
  assert (length ns = S (length l1 + length l2)) as Hlen by (cbn; rewrite Hfl, length_app; lia).
  induction fuel as [|fuel IH]; intros k p n Hk Hf; [lia|]. cbn [free_place].
  destruct (ns_next k p n Hk) as (q & Hh & Hq). kstep by (unfold load; by rewrite Hh). cbn [h_ptr].
  pose proof (lookup_lt_Some _ _ _ Hk) as Hkl. destruct (decide (k = length l1)) as [->|Hne].
  { exists p, n. split; [done|]. pose proof (ns_below _ _ _ Hk ltac:(lia)).
    destruct (ns !! S (length l1)) as [[b t]|] eqn:Hb.
    - destruct Hq as [-> _]. pose proof (ns_above _ _ _ Hb ltac:(lia)). replace ((p <? bp) && (bp <? b)) with true by lia. done.
    - rewrite Hq. replace ((p <? bp) && (bp <? base)) with false by lia. replace ((base <=? p) && ((p <? bp) || (bp <? base))) with true by lia. done. }
  assert (((p <? bp) && (bp <? q)) = false /\ ((q <=? p) && ((p <? bp) || (bp <? q))) = false /\
    exists k' n', ns !! k' = Some (q, n') /\ (steps k' < fuel)%nat) as (-> & -> & k' & n' & Hk' & Hs'); [|by eapply IH].
  destruct (ns !! S k) as [[b t]|] eqn:Hb.
  - destruct Hq as [-> Hlt]. destruct (decide (k < length l1)%nat) as [Hkl1|Hkl1].
    + pose proof (ns_below _ _ _ Hb ltac:(lia)). split; [lia|]. split; [lia|]. exists (S k), t. split; [done|].
      unfold steps in *. rewrite decide_True in Hf by lia. rewrite decide_True by lia. lia.
    + pose proof (ns_above _ _ _ Hk ltac:(lia)). split; [lia|]. split; [lia|]. exists (S k), t. split; [done|].
      unfold steps in *. rewrite decide_False in Hf by lia. rewrite decide_False by lia. lia.
  - subst q. apply lookup_ge_None in Hb. assert (length l1 < k)%nat as Hgt by lia.
    pose proof (ns_above _ _ _ Hk ltac:(lia)). pose proof bp_pos. split; [hlia|]. split; [hlia|]. exists 0%nat, 0. split; [done|].
    unfold steps in *. rewrite decide_False in Hf by lia. rewrite decide_True by lia. lia.
Qed.

(** The list is [front], the block [(p, k)] before the place, and [l2]. *)
Lemma before : exists front p k, (base, 0) :: l1 = front ++ [(p, k)] /\ ns !! length l1 = Some (p, k) /\
  (l1 = [] /\ front = [] /\ p = base /\ k = 0 \/ exists l1', l1 = l1' ++ [(p, k)] /\ front = (base, 0) :: l1').
Proof.
  destruct l1 as [|x l1' _] using rev_ind; [exists [], base, 0; split; [done|]; split; [done|]; by left|].
  destruct x as [p k]. exists ((base, 0) :: l1'), p, k. split; [done|]. split; [|right; by exists l1'].
  rewrite length_app. cbn [length]. replace (length l1' + 1)%nat with (S (length l1')) by lia.
  change (fl !! length l1' = Some (p, k)). rewrite Hfl, <- app_assoc. cbn [app]. by rewrite list_lookup_middle.
Qed.

Lemma size_bound a n : (a, n) ∈ fl \/ live !! a = Some n -> 0 < n < 2 ^ 32 /\ base < a /\ a + HSZ * n <= m_brk s.
Proof.
  pose proof (mi_base _ _ _ _ I). pose proof (mi_brk _ _ _ _ I). intros [Hin|Hin].
  - pose proof (mi_fin _ _ _ _ I a n Hin). destruct (gaps_elem _ _ _ _ (mi_gaps _ _ _ _ I) Hin). hlia.
  - destruct (mi_live _ _ _ _ I a n Hin) as (? & ? & ? & _). hlia.
Qed.

(** The block after joining it with the free block behind it, if they touch. *)
Lemma join_right : exists m' l2',
  (forall q k, m_hdr s !! q = Some (mkH (head_of l2 base) k) -> q <> bp -> forall B (K : M heap B),
   (let* hb := load bp in
    let* hp := load q in
    (if u64 (bp + HSZ * h_size hb) =? h_ptr hp then
       let* hn := load (h_ptr hp) in
       set_size bp (h_size hb + h_size hn) ;; set_ptr bp (h_ptr hn)
     else set_ptr bp (h_ptr hp)) ;; K) s = K (set_hdr bp (mkH (head_of l2' base) m') s)) /\
  (m' = m /\ l2' = l2 /\ (forall a n, (a, n) ∈ l2 -> bp + HSZ * m < a) \/
   exists n, m' = m + n /\ l2 = (bp + HSZ * m, n) :: l2' /\ 0 < n).
Proof.
  destruct (mi_live _ _ _ _ I bp m Hbp) as (Hm & Hb & Hbrk & q0 & Hhb). pose proof (mi_brk _ _ _ _ I). pose proof (mi_base _ _ _ _ I).
  assert (u64 (bp + HSZ * m) = bp + HSZ * m) as Eu by (apply u64_small; hlia).
  destruct l2 as [|[c n] l2'] eqn:E2.
  - exists m, []. split; [|left; split; [done|]; split; [done|]; by intros ? ? ?%elem_of_nil].
    intros q k Hq Hne B K. kstep by (unfold load; by rewrite Hhb). kstep by (unfold load; by rewrite Hq). cbn [h_size h_ptr head_of].
    rewrite Eu, (proj2 (Z.eqb_neq _ _)) by hlia. unfold set_ptr. kpure. by rewrite Hhb.
  - pose proof (Hl2 c n ltac:(by left)) as Hc. assert ((c, n) ∈ fl) as Hin by (rewrite Hfl; apply elem_of_app; right; by left).
    destruct (size_bound c n (or_introl Hin)) as (Hn & _ & Hcb).
    pose proof (mi_gaps _ _ _ _ I) as G. rewrite Hfl in G. apply gaps_app in G as [_ (G1 & G2 & G3)].
    pose proof (mi_chain _ _ _ _ I) as C. rewrite Hfl, app_comm_cons in C. apply chain_app in C as [_ [Cc _]].
    destruct (decide (c = bp + HSZ * m)) as [Ec|Ec].
    + exists (m + n), l2'. split; [|right; exists n; by rewrite <- Ec].
      intros q k Hq Hne B K. kstep by (unfold load; by rewrite Hhb). kstep by (unfold load; by rewrite Hq). cbn [h_size h_ptr head_of].
      rewrite Eu, (proj2 (Z.eqb_eq _ _)) by lia. kstep by (unfold load; by rewrite Cc). cbn [h_size h_ptr].
      unfold set_size, set_ptr. kpure. unfold set_hdr. cbn [m_hdr m_freep m_brk]. rewrite Hhb, lookup_insert_eq, insert_insert_eq. cbn [default h_size].
      rewrite u32_small by hlia. done.
    + exists m, ((c, n) :: l2'). split; [|left; split; [done|]; split; [done|]].
      * intros q k Hq Hne B K. kstep by (unfold load; by rewrite Hhb). kstep by (unfold load; by rewrite Hq). cbn [h_size h_ptr head_of].
        rewrite Eu, (proj2 (Z.eqb_neq _ _)) by lia. unfold set_ptr. kpure. by rewrite Hhb.
      * intros a k [Ea|Ea]%elem_of_cons; [injection Ea as -> ->; lia|]. destruct (gaps_elem _ _ _ _ G3 Ea). hlia.
Qed.

(** The invariant after the block was put in as part of [(x, k)]. *)
Lemma rebuild L x k R hdr p : gaps (base + HSZ - 1) (L ++ (x, k) :: R) -> chain hdr ((base, 0) :: L ++ (x, k) :: R) base ->
  (forall a n, (a, n) ∈ L \/ (a, n) ∈ R -> (a, n) ∈ fl) -> x + HSZ * k <= m_brk s ->
  (forall b n, live !! b = Some n -> b <> bp -> apart x k b n) -> p = base \/ (exists n, (p, n) ∈ L ++ (x, k) :: R) ->
  (forall b n, live !! b = Some n -> b <> bp -> hdr !! b = m_hdr s !! b) ->
  minv base (L ++ (x, k) :: R) (delete bp live) (mkHeap p hdr (m_brk s)).
Proof.
  intros G C HLR Hx Ha Hp Hh. split; cbn [m_freep m_hdr m_brk]; try done; try apply I.
  - intros a n [E|[E|E]%elem_of_cons]%elem_of_app; [|by injection E as -> ->|]; apply (mi_fin _ _ _ _ I a n), HLR; tauto.
  - intros a n [Hne Hl]%lookup_delete_Some. destruct (mi_live _ _ _ _ I a n Hl) as (H1 & H2 & H3 & q & H4).
    split; [done|]. split; [done|]. split; [done|]. exists q. by rewrite (Hh a n) by done.
  - intros a n b t Hin [Hne Hl]%lookup_delete_Some. apply elem_of_app in Hin as [E|[E|E]%elem_of_cons].
    + apply (mi_free _ _ _ _ I a n b t); [apply HLR; by left|done].
    + injection E as -> ->. by apply Ha.
    + apply (mi_free _ _ _ _ I a n b t); [apply HLR; by right|done].
  - intros a n b t [_ H1]%lookup_delete_Some [_ H2]%lookup_delete_Some. by apply (mi_apart _ _ _ _ I).
Qed.

(** What the block is after [join_right]. *)
Definition right_joined (m' : Z) (l2' : list (Z * Z)) : Prop :=
  m' = m /\ l2' = l2 /\ (forall a n, (a, n) ∈ l2 -> bp + HSZ * m < a) \/
  exists n, m' = m + n /\ l2 = (bp + HSZ * m, n) :: l2' /\ 0 < n.

Lemma right_joined_facts m' l2' : right_joined m' l2' ->
  m <= m' /\ bp + HSZ * m' <= m_brk s /\ total l2' + m' = total l2 + m /\ (forall a n, (a, n) ∈ l2' -> (a, n) ∈ l2) /\
  gaps (bp + HSZ * m') l2' /\ chain (m_hdr s) l2' base /\
  (forall b n, live !! b = Some n -> b <> bp -> apart bp m' b n).
Proof.
  intros Hr. destruct (size_bound bp m (or_intror Hbp)) as (Hm & _ & Hbrk).
  pose proof (mi_gaps _ _ _ _ I) as G. rewrite Hfl in G. apply gaps_app in G as [_ G].
  pose proof (mi_chain _ _ _ _ I) as C. rewrite Hfl, app_comm_cons in C. apply chain_app in C as [_ C].
  assert (forall b n, live !! b = Some n -> b <> bp -> apart bp m b n) as Ha by (intros b n Hl Hne; by apply (mi_apart _ _ _ _ I)).
  destruct Hr as [(-> & -> & Hlt)|(n & -> & E & Hn)].
  - split; [lia|]. split; [done|]. split; [lia|]. split; [done|]. split; [|done].
    destruct l2 as [|[a n] r]; [done|]. destruct G as (G1 & G2 & G3). split; [apply (Hlt a n); by left|done].
  - assert ((bp + HSZ * m, n) ∈ fl) as Hin by (rewrite Hfl, E; apply elem_of_app; right; by left).
    rewrite E in G, C. destruct G as (G1 & G2 & G3), C as [C1 C2].
    pose proof (mi_fin _ _ _ _ I _ _ Hin) as Hf. rewrite E. cbn [total].
    split; [lia|]. split; [hlia|]. split; [lia|]. split; [intros a k Hk; by right|].
    replace (bp + HSZ * (m + n)) with (bp + HSZ * m + HSZ * n) by lia. split; [done|]. split; [done|].
    intros b t Hl Hne. pose proof (Ha b t Hl Hne) as A1. pose proof (mi_free _ _ _ _ I _ _ b t Hin Hl) as A2.
    destruct (size_bound b t (or_intror Hl)) as (Ht & _). unfold apart in *. hlia.
Qed.

(** The block [(p, k)] before the place. *)
Section before.
Variables (front : list (Z * Z)) (p k : Z).
Hypothesis Hf : (base, 0) :: l1 = front ++ [(p, k)].

Lemma before_case : l1 = [] /\ front = [] /\ p = base /\ k = 0 \/ exists l1', l1 = l1' ++ [(p, k)] /\ front = (base, 0) :: l1'.
Proof.
  destruct front as [|x f]; [left; by injection Hf as -> -> ->|right]. injection Hf as <- E. by exists f.
Qed.

Lemma before_facts : base <= p < bp /\ p + HSZ * k <= bp /\ 0 <= k < 2 ^ 32 /\ (p = base \/ (p, k) ∈ l1) /\
  chain (m_hdr s) front p /\ m_hdr s !! p = Some (mkH (head_of l2 base) k) /\
  (forall a n, (a, n) ∈ front -> a < p) /\ (forall b n, live !! b = Some n -> b <> p).
Proof.
  pose proof bp_pos as [Hm Hb]. pose proof (mi_chain _ _ _ _ I) as C. rewrite Hfl, app_comm_cons, Hf, <- app_assoc in C. cbn [app] in C.
  apply chain_app in C as [C1 [C2 _]]. cbn [head_of] in C1. destruct before_case as [(E1 & E2 & -> & ->)|(l1' & E1 & E2)].
  - split; [hlia|]. split; [hlia|]. split; [lia|]. split; [by left|]. split; [done|]. split; [done|].
    split; [rewrite E2; by intros ? ? ?%elem_of_nil|]. intros b n Hl. destruct (mi_live _ _ _ _ I b n Hl) as (_ & ? & _). hlia.
  - assert ((p, k) ∈ l1) as Hin1 by (rewrite E1; apply elem_of_app; right; by left).
    assert ((p, k) ∈ fl) as Hin by (rewrite Hfl; apply elem_of_app; by left).
    destruct (size_bound p k (or_introl Hin)) as (Hk & Hp & _). pose proof (Hl1 _ _ Hin1).
    split; [hlia|]. split; [hlia|]. split; [lia|]. split; [by right|]. split; [done|]. split; [done|]. split.
    + rewrite E2. intros a n [E|E]%elem_of_cons; [by injection E as -> ->|].
      pose proof (mi_gaps _ _ _ _ I) as G. rewrite Hfl, E1, <- app_assoc in G. apply gaps_app in G as [G1 (G2 & _)].
      destruct (gaps_elem _ _ _ _ G1 E). hlia.
    + intros b n Hl ->. destruct (size_bound p n (or_intror Hl)) as (Hn & _).
      destruct (mi_free _ _ _ _ I _ _ _ _ Hin Hl); hlia.
Qed.

(** The second [if] of [free], and what the list of free blocks becomes. *)
Definition join_left : M heap unit :=
  let* hb := load bp in
  let* hp := load p in
  (if u64 (p + HSZ * h_size hp) =? bp then set_size p (h_size hp + h_size hb) ;; set_ptr p (h_ptr hb)
   else set_ptr p bp) ;;
  modify (set_freep p).

Variables (m' : Z) (l2' : list (Z * Z)).
Hypothesis Hr : right_joined m' l2'.
Notation s1 := (set_hdr bp (mkH (head_of l2' base) m') s).

Lemma join_left_read : load bp s1 = Done (mkH (head_of l2' base) m') s1 /\ load p s1 = Done (mkH (head_of l2 base) k) s1 /\
  u64 (p + HSZ * k) = p + HSZ * k.
Proof.
  destruct before_facts as (B1 & B2 & B3 & B4 & B5 & B6 & B7 & B8). pose proof (mi_base _ _ _ _ I). pose proof (mi_brk _ _ _ _ I).
  destruct (size_bound bp m (or_intror Hbp)) as (? & _ & ?). unfold load, set_hdr. cbn [m_hdr].
  rewrite lookup_insert_eq, lookup_insert_ne, B6 by lia. split; [done|]. split; [done|]. apply u64_small. hlia.
Qed.

Lemma join_left_chain hp : h_ptr hp = head_of ((if decide (p + HSZ * k = bp) then [] else [(bp, m')]) ++ l2') base ->
  chain (<[p := hp]> (m_hdr s1)) ((front ++ [(p, h_size hp)]) ++ (if decide (p + HSZ * k = bp) then [] else [(bp, m')]) ++ l2') base.
Proof.
  intros Hh. destruct before_facts as (B1 & B2 & B3 & B4 & B5 & B6 & B7 & B8).
  destruct (right_joined_facts _ _ Hr) as (R1 & R2 & R3 & R4 & R5 & R6 & R7). pose proof bp_pos.
  rewrite <- app_assoc. cbn [app]. apply chain_app. cbn [head_of]. split.
  { eapply chain_frame; [|done]. intros a n Ha. pose proof (B7 a n Ha). unfold set_hdr. cbn [m_hdr]. by rewrite !lookup_insert_ne by lia. }
  cbn [chain]. split; [rewrite lookup_insert_eq, <- Hh; by destruct hp|].
  apply chain_app. split.
  - destruct (decide _) as [|Hne]; [done|]. cbn [chain]. split; [|done]. unfold set_hdr. cbn [m_hdr].
    rewrite lookup_insert_ne by lia. by rewrite lookup_insert_eq.
  - eapply chain_frame; [|done]. intros a n Ha. pose proof (Hl2 a n (R4 a n Ha)). unfold set_hdr. cbn [m_hdr].
    by rewrite !lookup_insert_ne by hlia.
Qed.

Lemma dom_two h h' : dom (<[p := h]> (<[bp := h']> (m_hdr s))) = dom (m_hdr s).
Proof.
  destruct before_facts as (_ & _ & _ & _ & _ & B6 & _). destruct (mi_live _ _ _ _ I bp m Hbp) as (_ & _ & _ & q & Hq).
  rewrite !dom_insert_L. apply elem_of_dom_2 in B6, Hq. set_solver.
Qed.

(** The front block grows, or the block becomes one of its own. *)
Lemma joined_case : p + HSZ * k = bp -> exists l1', l1 = l1' ++ [(p, k)] /\ front = (base, 0) :: l1' /\
  minv base (l1' ++ (p, k + m') :: l2') (delete bp live)
    (mkHeap p (<[p := mkH (head_of l2' base) (k + m')]> (m_hdr s1)) (m_brk s)).
Proof.
  intros Ej. destruct before_facts as (B1 & B2 & B3 & B4 & B5 & B6 & B7 & B8).
  destruct (right_joined_facts _ _ Hr) as (R1 & R2 & R3 & R4 & R5 & R6 & R7). pose proof bp_pos as [Hm Hb].
  destruct before_case as [(_ & _ & -> & ->)|(l1' & E1 & E2)]; [hlia|]. exists l1'. split; [done|]. split; [done|].
  pose proof (join_left_chain (mkH (head_of l2' base) (k + m'))) as HC. rewrite decide_True in HC by done. cbn [h_ptr h_size app] in HC.
  assert ((p, k) ∈ fl) as Hin by (rewrite Hfl, E1; apply elem_of_app; left; apply elem_of_app; right; by left).
  pose proof (mi_gaps _ _ _ _ I) as G. rewrite Hfl, E1, <- app_assoc in G. apply gaps_app in G as [G1 (G2 & G3 & _)].
  apply rebuild.
  - apply gaps_app. split; [done|]. cbn [gaps]. split; [done|]. split; [lia|].
    by replace (p + HSZ * (k + m')) with (bp + HSZ * m') by lia.
  - specialize (HC eq_refl). rewrite E2, <- app_assoc in HC. exact HC.
  - rewrite Hfl, E1. intros a n [Ha|Ha]; [apply elem_of_app; left; apply elem_of_app; by left|apply elem_of_app; right; by apply R4].
  - hlia.
  - intros b n Hl Hne. pose proof (R7 b n Hl Hne) as A1. pose proof (mi_free _ _ _ _ I _ _ _ _ Hin Hl) as A2.
    destruct (size_bound b n (or_intror Hl)) as (Hn & _). unfold apart in *. hlia.
  - right. exists (k + m'). apply elem_of_app. right. by left.
  - intros b n Hl Hne. pose proof (B8 b n Hl). unfold set_hdr. cbn [m_hdr]. by rewrite !lookup_insert_ne by done.
Qed.

Lemma apart_case : p + HSZ * k <> bp -> minv base (l1 ++ (bp, m') :: l2') (delete bp live)
  (mkHeap p (<[p := mkH bp k]> (m_hdr s1)) (m_brk s)).
Proof.
  intros Ej. destruct before_facts as (B1 & B2 & B3 & B4 & B5 & B6 & B7 & B8).
  destruct (right_joined_facts _ _ Hr) as (R1 & R2 & R3 & R4 & R5 & R6 & R7). pose proof bp_pos as [Hm Hb].
  pose proof (join_left_chain (mkH bp k)) as HC. rewrite decide_False in HC by done. cbn [h_ptr h_size app] in HC.
  apply rebuild.
  - pose proof (mi_gaps _ _ _ _ I) as G. rewrite Hfl in G. apply gaps_app in G as [G1 G2]. apply gaps_app. split; [done|].
    cbn [gaps]. split; [|split; [lia|done]]. destruct before_case as [(-> & _)|(l1' & E1 & _)]; [cbn; hlia|].
    rewrite E1. clear - B2 Ej. generalize (base + HSZ - 1). induction l1' as [|[a n] l IH]; intros lo; cbn [app end_of]; [lia|apply IH].
  - specialize (HC eq_refl). rewrite <- Hf in HC. exact HC.
  - rewrite Hfl. intros a n [Ha|Ha]; apply elem_of_app; [by left|right; by apply R4].
  - hlia.
  - done.
  - destruct B4 as [->|B4]; [by left|right]. exists k. apply elem_of_app. by left.
  - intros b n Hl Hne. pose proof (B8 b n Hl). unfold set_hdr. cbn [m_hdr]. by rewrite !lookup_insert_ne by done.
Qed.

Lemma kept_two h h' b : kept (delete bp live) s (mkHeap p (<[p := h]> (<[bp := h']> (m_hdr s))) b).
Proof.
  destruct before_facts as (B1 & B2 & B3 & B4 & B5 & B6 & B7 & B8). pose proof bp_pos as [Hm Hb].
  intros c n a [Hne Hc]%lookup_delete_Some Ha. cbn [m_hdr]. destruct (mi_live _ _ _ _ I c n Hc) as (Hn & Hcb & _).
  rewrite !lookup_insert_ne; [done| |].
  - intros <-. destruct (mi_apart _ _ _ _ I _ _ _ _ Hbp Hc (not_eq_sym (not_eq_sym Hne))); hlia.
  - intros <-. destruct B4 as [->|B4]; [hlia|]. assert ((p, k) ∈ fl) as Hin by (rewrite Hfl; apply elem_of_app; by left).
    destruct (size_bound p k (or_introl Hin)) as (Hk & _). destruct (mi_free _ _ _ _ I _ _ _ _ Hin Hc); hlia.
Qed.

Lemma join_left_run : exists s' fl', join_left s1 = Done tt s' /\ minv base fl' (delete bp live) s' /\ m_brk s' = m_brk s /\
  kept (delete bp live) s s' /\ dom (m_hdr s') = dom (m_hdr s) /\ total fl' = total fl + m /\ exists a n, (a, n) ∈ fl' /\ a <= bp /\ bp + HSZ * m <= a + HSZ * n.
Proof.
  destruct before_facts as (B1 & B2 & B3 & B4 & B5 & B6 & B7 & B8).
  destruct (right_joined_facts _ _ Hr) as (R1 & R2 & R3 & R4 & R5 & R6 & R7). pose proof bp_pos. pose proof (mi_brk _ _ _ _ I).
  pose proof (mi_base _ _ _ _ I).
  destruct join_left_read as (Hlb & Hlp & Eu). unfold join_left. rewrite (bind_done _ _ _ _ _ Hlb), (bind_done _ _ _ _ _ Hlp).
  cbn [h_size h_ptr]. rewrite Eu. destruct (decide (p + HSZ * k = bp)) as [Ej|Ej].
  - destruct (joined_case Ej) as (l1' & E1 & _ & I').
    rewrite (proj2 (Z.eqb_eq _ _)) by done. eexists _, _. split; [|split; [exact I'|]].
    { unfold set_ptr, set_size. kpure. unfold set_hdr, set_freep. cbn [m_hdr m_freep m_brk].
      rewrite lookup_insert_eq, insert_insert_eq. cbn [default h_size]. by rewrite u32_small by hlia. }
    split; [done|]. split; [apply kept_two|]. split; [apply dom_two|]. rewrite Hfl, E1, !total_app. cbn [total]. split; [lia|].
    exists p, (k + m'). split; [apply elem_of_app; right; by left|]. hlia.
  - rewrite (proj2 (Z.eqb_neq _ _)) by done. eexists _, _. split; [|split; [exact (apart_case Ej)|]].
    { unfold set_ptr, set_size. kpure. unfold set_hdr, set_freep. cbn [m_hdr m_freep m_brk].
      rewrite lookup_insert_ne, B6 by lia. done. }
    split; [done|]. split; [apply kept_two|]. split; [apply dom_two|]. rewrite Hfl, !total_app. cbn [total]. split; [lia|].
    exists bp, m'. split; [apply elem_of_app; right; by left|]. hlia.
Qed.
End before.
End free.

Lemma ns_nodup base fl live s : minv base fl live s -> NoDup (fst <$> (base, 0) :: fl).
Proof.
  intros I. pose proof (mi_gaps _ _ _ _ I) as G. cbn [fmap list_fmap fst]. constructor; [|by eapply gaps_nodup].
  intros ([a n] & -> & Ha)%list_elem_of_fmap. cbn in G. destruct (gaps_elem _ _ _ _ G Ha). hlia.
Qed.

Lemma ns_size base fl live s : minv base fl live s -> (length ((base, 0%Z) :: fl) <= size (m_hdr s))%nat.
Proof. intros I. eapply chain_size; [apply I|by eapply ns_nodup]. Qed.

Lemma freep_in base fl live s : minv base fl live s -> exists n, (m_freep s, n) ∈ (base, 0) :: fl.
Proof. intros I. destruct (mi_freep _ _ _ _ I) as [->|[n Hn]]; [exists 0; by left|exists n; by right]. Qed.

(** [free] of a block that was handed out puts it back. *)
Lemma free_run base fl live s bp m : minv base fl live s -> live !! bp = Some m ->
  exists s' fl', free (bp + HSZ) s = Done tt s' /\ minv base fl' (delete bp live) s' /\ m_brk s' = m_brk s /\
    kept (delete bp live) s s' /\ dom (m_hdr s') = dom (m_hdr s) /\ total fl' = total fl + m /\
    exists a n, (a, n) ∈ fl' /\ a <= bp /\ bp + HSZ * m <= a + HSZ * n.
Proof.
  intros I Hbp. destruct (mi_live _ _ _ _ I bp m Hbp) as (Hm & _).
  destruct (place fl _ bp m (mi_gaps _ _ _ _ I)) as (l1 & l2 & Hfl & Hl1 & Hl2); [|done|].
  { intros a n Hin. by apply (mi_free _ _ _ _ I). }
  destruct (before base fl bp l1 l2 Hfl Hl1) as (front & p & k & Hf & Hp & _).
  destruct (join_right base fl live s bp m I Hbp l1 l2 Hfl Hl2) as (m' & l2' & HJ & Hr).
  destruct (before_facts base fl live s bp m I Hbp l1 l2 Hfl Hl1 front p k Hf) as (B1 & B2 & B3 & B4 & B5 & B6 & _).
  destruct (freep_in _ _ _ _ I) as (n & [i Hi]%list_elem_of_lookup).
  pose proof (ns_size _ _ _ _ I) as Hsz. pose proof (lookup_lt_Some _ _ _ Hi) as Hil.
  assert (length l1 <= length fl)%nat by (rewrite Hfl, length_app; lia).
  destruct (free_place_run base fl live s bp m I Hbp l1 l2 Hfl Hl1 Hl2 (S (size (m_hdr s))) i _ _ Hi) as (a & n' & Ha & Hrun).
  { unfold steps. cbn [length] in *. case_decide; lia. }
  rewrite Hp in Ha. injection Ha as <- <-.
  unfold free. replace (bp + HSZ - HSZ) with bp by lia. kpure. rewrite (bind_done _ _ _ _ _ Hrun).
  rewrite (HJ p k B6) by lia.
  exact (join_left_run base fl live s bp m I Hbp l1 l2 Hfl Hl1 Hl2 front p k Hf m' l2' Hr).
Qed.

(** ** [malloc] *)

Lemma around base L p n B live s : minv base (L ++ (p, n) :: B) live s ->
  gaps (base + HSZ - 1) L /\ end_of (base + HSZ - 1) L < p /\ 0 < n /\ gaps (p + HSZ * n) B /\ p + HSZ * n <= m_brk s /\
  (forall a k, (a, k) ∈ L -> 0 < k /\ a + HSZ * k < p) /\ (forall a k, (a, k) ∈ B -> 0 < k /\ p + HSZ * n < a) /\
  base + HSZ <= p /\ (forall b k, live !! b = Some k -> apart p n b k).
Proof.
  intros I. pose proof (mi_gaps _ _ _ _ I) as G. assert ((p, n) ∈ L ++ (p, n) :: B) as Hin by (apply elem_of_app; right; by left).
  pose proof (gaps_elem _ _ _ _ G Hin) as (H1 & _). apply gaps_app in G as [G1 (G2 & G3 & G4)].
  split; [done|]. split; [done|]. split; [done|]. split; [done|]. split; [by apply (mi_fin _ _ _ _ I)|].
  split; [intros a k Ha; destruct (gaps_elem _ _ _ _ G1 Ha); hlia|]. split; [intros a k Ha; destruct (gaps_elem _ _ _ _ G4 Ha); hlia|].
  split; [hlia|]. intros b k Hb. by apply (mi_free _ _ _ _ I).
Qed.

(** Taking [nu] units off the end of the free block [(p, r + nu)]. *)
Section carve.
Variables (base : Z) (L : list (Z * Z)) (p r nu : Z) (B : list (Z * Z)) (live : gmap Z Z) (s : heap).
Hypothesis I : minv base (L ++ (p, r + nu) :: B) live s.
Hypothesis Hr0 : 0 <= r.
Hypothesis Hnu : 0 < nu.
Definition left_over : list (Z * Z) := L ++ (if decide (r = 0) then [] else [(p, r)]) ++ B.

Lemma left_over_elem a n : (a, n) ∈ left_over ->
  0 < n /\ apart a n (p + HSZ * r) nu /\ a + HSZ * n <= m_brk s /\ (forall b k, live !! b = Some k -> apart a n b k).
Proof.
  destruct (around _ _ _ _ _ _ _ I) as (A1 & A2 & A3 & A4 & A5 & A6 & A7 & A8 & A9). unfold left_over.
  intros [Ha|[Ha|Ha]%elem_of_app]%elem_of_app.
  - destruct (A6 _ _ Ha). split; [done|]. split; [unfold apart; hlia|]. split; [hlia|].
    intros b k Hb. apply (mi_free _ _ _ _ I a n b k); [apply elem_of_app; by left|done].
  - destruct (decide (r = 0)); [by apply elem_of_nil in Ha|]. apply elem_of_cons in Ha as [Ha|[]%elem_of_nil]. injection Ha as -> ->.
    split; [lia|]. split; [unfold apart; hlia|]. split; [hlia|]. intros b k Hb. pose proof (A9 b k Hb). unfold apart in *. hlia.
  - destruct (A7 _ _ Ha). split; [done|]. split; [unfold apart; hlia|].
    assert ((a, n) ∈ L ++ (p, r + nu) :: B) as Hin by (apply elem_of_app; right; by right).
    split; [by apply (mi_fin _ _ _ _ I)|]. intros b k Hb. by apply (mi_free _ _ _ _ I a n b k).
Qed.

Lemma left_over_gaps : gaps (base + HSZ - 1) left_over.
Proof.
  destruct (around _ _ _ _ _ _ _ I) as (A1 & A2 & A3 & A4 & A5 & A6 & A7 & A8 & A9). unfold left_over.
  apply gaps_app. split; [done|]. destruct (decide (r = 0)); cbn [app gaps].
  - eapply gaps_weaken; [|done]. hlia.
  - split; [done|]. split; [lia|]. eapply gaps_weaken; [|done]. hlia.
Qed.

Lemma carve hdr f : chain hdr ((base, 0) :: left_over) base -> (exists n, (f, n) ∈ (base, 0) :: left_over) ->
  (exists z, hdr !! (p + HSZ * r) = Some (mkH z nu)) -> kept live s (mkHeap f hdr (m_brk s)) ->
  minv base left_over (<[p + HSZ * r := nu]> live) (mkHeap f hdr (m_brk s)) /\ live !! (p + HSZ * r) = None.
Proof.
  intros C Hf Hq K. destruct (around _ _ _ _ _ _ _ I) as (A1 & A2 & A3 & A4 & A5 & A6 & A7 & A8 & A9).
  assert (live !! (p + HSZ * r) = None) as HN.
  { destruct (live !! (p + HSZ * r)) as [k|] eqn:E; [|done]. destruct (mi_live _ _ _ _ I _ _ E). destruct (A9 _ _ E); hlia. }
  split; [|done]. split; cbn [m_freep m_hdr m_brk]; try apply I; try done.
  - apply left_over_gaps.
  - destruct Hf as (n & [E|E]%elem_of_cons); [injection E as -> _; by left|right; by exists n].
  - intros a n Ha. apply (left_over_elem a n Ha).
  - intros a n [[<- <-]|[Hne Ha]]%lookup_insert_Some; [split; [done|]; split; [hlia|]; split; [hlia|done]|].
    destruct (mi_live _ _ _ _ I a n Ha) as (H1 & H2 & H3 & z & H4). split; [done|]. split; [done|]. split; [done|]. exists z.
    rewrite <- H4. apply (K a n a Ha). hlia.
  - intros a n b k Ha Hb. destruct (left_over_elem a n Ha) as (_ & E1 & _ & E2).
    apply lookup_insert_Some in Hb as [[<- <-]|[Hne Hb]]; [exact E1|by apply E2].
  - assert (forall b k, live !! b = Some k -> apart (p + HSZ * r) nu b k) as Aq.
    { intros b k Hb. pose proof (A9 b k Hb). unfold apart in *. hlia. }
    intros a n b k [[<- <-]|[Hne Ha]]%lookup_insert_Some [[<- <-]|[Hne' Hb]]%lookup_insert_Some Hab; [done|by apply Aq| |by apply (mi_apart _ _ _ _ I)].
    destruct (Aq a n Ha) as [H|H]; [right|left]; exact H.
Qed.
End carve.

(** What an allocation does: [nu] units leave the free list. *)
Definition handed_out base fl live s nu q s' : Prop :=
  exists fl', minv base fl' (<[q := nu]> live) s' /\ live !! q = None /\ total fl = total fl' + nu /\ m_brk s' = m_brk s /\ kept live s s'.

(** The successful branch of the loop. *)
Definition take (nunits prevp p : Z) (h : header) : M heap Z :=
  let* q :=
    (if h_size h =? nunits then set_ptr prevp (h_ptr h) ;; ret p
     else
       set_size p (h_size h - nunits) ;;
       let q := u64 (p + HSZ * (h_size h - nunits)) in
       set_size q nunits ;;
       ret q) in
  modify (set_freep prevp) ;;
  ret (q + HSZ).

Section take.
Variables (base : Z) (L : list (Z * Z)) (p n : Z) (B F : list (Z * Z)) (prevp k : Z) (live : gmap Z Z) (s : heap).
Hypothesis I : minv base (L ++ (p, n) :: B) live s.
Hypothesis HF : (base, 0) :: L = F ++ [(prevp, k)].

Lemma take_chain : chain (m_hdr s) F prevp /\ m_hdr s !! prevp = Some (mkH p k) /\
  m_hdr s !! p = Some (mkH (head_of B base) n) /\ chain (m_hdr s) B base.
Proof.
  pose proof (mi_chain _ _ _ _ I) as C. rewrite app_comm_cons, HF, <- app_assoc in C. cbn [app] in C.
  apply chain_app in C as (C1 & C2 & C3 & C4). done.
Qed.

Lemma before_p a i : (a, i) ∈ (base, 0) :: L -> a < p /\ (forall b t, live !! b = Some t -> ~ b - HSZ < a < b + HSZ * t).
Proof.
  destruct (around _ _ _ _ _ _ _ I) as (A1 & A2 & A3 & A4 & A5 & A6 & A7 & A8 & A9).
  intros [E|E]%elem_of_cons.
  - injection E as -> ->. split; [hlia|]. intros b t Hb. destruct (mi_live _ _ _ _ I b t Hb) as (? & ? & _). hlia.
  - destruct (A6 _ _ E). split; [hlia|]. intros b t Hb.
    destruct (mi_free _ _ _ _ I a i b t ltac:(apply elem_of_app; by left) Hb); hlia.
Qed.

Lemma F_ne a i : (a, i) ∈ F -> a <> prevp /\ a < p.
Proof.
  intros Ha. split.
  - pose proof (ns_nodup _ _ _ _ I) as N. rewrite app_comm_cons, HF, fmap_app, fmap_app in N.
    apply NoDup_app in N as (N & _). apply NoDup_app in N as (_ & N & _). intros ->.
    apply (N prevp); [|by left]. apply list_elem_of_fmap. by exists (prevp, i).
  - apply (before_p a i). rewrite HF. apply elem_of_app. by left.
Qed.

Lemma prevp_in l : (prevp, k) ∈ (base, 0) :: L ++ l.
Proof. rewrite app_comm_cons, HF. apply elem_of_app. left. apply elem_of_app. right. by left. Qed.

Lemma take_exact : exists s', take n prevp p (mkH (head_of B base) n) s = Done (p + HSZ) s' /\
  handed_out base (L ++ (p, n) :: B) live s n p s'.
Proof.
  destruct (around _ _ _ _ _ _ _ I) as (A1 & A2 & A3 & A4 & A5 & A6 & A7 & A8 & A9). destruct take_chain as (C1 & C2 & C3 & C4).
  pose proof (prevp_in []) as Hp. rewrite app_nil_r in Hp. destruct (before_p _ _ Hp) as [Hlt Hout].
  eexists. split.
  { unfold take. cbn [h_size h_ptr]. rewrite Z.eqb_refl. unfold set_ptr. kpure. done. }
  unfold set_hdr, set_freep. cbn [m_hdr m_freep m_brk]. rewrite C2. cbn [default h_size].
  assert (kept live s (mkHeap prevp (<[prevp := mkH (head_of B base) k]> (m_hdr s)) (m_brk s))) as K.
  { intros b t a Hb Ha. cbn [m_hdr]. rewrite lookup_insert_ne; [done|]. intros <-. by apply (Hout b t Hb). }
  edestruct (carve base L p 0 n B live s I ltac:(lia) A3) as [I' HN]; [| | |exact K|].
  - unfold left_over. rewrite decide_True by done. cbn [app]. rewrite app_comm_cons, HF, <- app_assoc. apply chain_app. split.
    { cbn [app head_of]. eapply chain_frame; [|done]. intros a i Ha. destruct (F_ne a i Ha). by rewrite lookup_insert_ne by done. }
    cbn [app chain]. rewrite lookup_insert_eq. split; [done|]. eapply chain_frame; [|done].
    intros a i Ha. destruct (A7 a i Ha). by rewrite lookup_insert_ne by hlia.
  - exists k. apply prevp_in.
  - exists (head_of B base). replace (p + HSZ * 0) with p by lia. by rewrite lookup_insert_ne by lia.
  - replace (p + HSZ * 0) with p in I', HN by lia. eexists. split; [exact I'|]. split; [done|]. split; [|done].
    unfold left_over. rewrite decide_True by done. rewrite !total_app. cbn [total app]. lia.
Qed.

Lemma take_split nu : 0 < nu < n -> exists q s', take nu prevp p (mkH (head_of B base) n) s = Done (q + HSZ) s' /\
  handed_out base (L ++ (p, n) :: B) live s nu q s'.
Proof.
  intros Hnu. destruct (around _ _ _ _ _ _ _ I) as (A1 & A2 & A3 & A4 & A5 & A6 & A7 & A8 & A9). destruct take_chain as (C1 & C2 & C3 & C4).
  pose proof (mi_brk _ _ _ _ I). pose proof (mi_base _ _ _ _ I).
  pose proof (prevp_in []) as Hp. rewrite app_nil_r in Hp. destruct (before_p _ _ Hp) as [Hlt Hout].
  assert (exists r, n = r + nu /\ 0 < r) as (r & En & Hr) by (exists (n - nu); lia). exists (p + HSZ * r). eexists. split.
  { unfold take. cbn [h_size h_ptr]. rewrite (proj2 (Z.eqb_neq _ _)) by lia. replace (n - nu) with r by lia.
    rewrite u64_small by hlia. unfold set_size. kpure. done. }
  unfold set_hdr, set_freep. cbn [m_hdr m_freep m_brk]. rewrite C3, lookup_insert_ne by hlia. cbn [default h_ptr].
  rewrite !u32_small by hlia.
  match goal with |- context[mkHeap prevp ?h _] => assert (kept live s (mkHeap prevp h (m_brk s))) as K end.
  { intros b t a Hb Ha. destruct (A9 b t Hb); cbn [m_hdr]; by rewrite !lookup_insert_ne by hlia. }
  pose proof I as I0. rewrite En in I0. edestruct (carve base L p r nu B live s I0 ltac:(lia) ltac:(lia)) as [I' HN]; [| | |exact K|].
  - unfold left_over. rewrite decide_False by lia. cbn [app]. rewrite app_comm_cons. apply chain_app. split; cbn [head_of].
    + rewrite HF. apply chain_app. cbn [head_of chain]. split.
      * eapply chain_frame; [|done]. intros a i Ha. destruct (F_ne a i Ha). by rewrite !lookup_insert_ne by hlia.
      * rewrite !lookup_insert_ne by hlia. done.
    + cbn [chain]. rewrite lookup_insert_ne, lookup_insert_eq by hlia. split; [done|]. eapply chain_frame; [|done].
      intros a i Ha. destruct (A7 a i Ha). by rewrite !lookup_insert_ne by hlia.
  - exists k. apply prevp_in.
  - eexists. by rewrite lookup_insert_eq.
  - eexists. split; [exact I'|]. split; [done|]. split; [|done].
    unfold left_over. rewrite decide_False by lia. rewrite !total_app. cbn [total app]. lia.
Qed.

Lemma take_run nu : 0 < nu <= n -> exists q s', take nu prevp p (mkH (head_of B base) n) s = Done (q + HSZ) s' /\
  handed_out base (L ++ (p, n) :: B) live s nu q s'.
Proof.
  intros Hnu. destruct (decide (nu = n)) as [->|Hne]; [destruct take_exact as (s' & ?); by exists p, s'|apply take_split; lia].
Qed.
End take.

(** The circular list seen from [freep]. *)
Lemma ring base fl live s : minv base fl live s -> exists n0 t, (m_freep s, n0) ∈ (base, 0) :: fl /\
  m_hdr s !! m_freep s = Some (mkH (head_of t (m_freep s)) n0) /\ chain (m_hdr s) t (m_freep s) /\
  m_freep s ∉ fst <$> t /\ (forall x, x ∈ (base, 0) :: fl <-> x = (m_freep s, n0) \/ x ∈ t) /\ (length t < size (m_hdr s))%nat.
Proof.
  intros I. destruct (freep_in _ _ _ _ I) as (n0 & Hin). pose proof (ns_nodup _ _ _ _ I) as N. pose proof (ns_size _ _ _ _ I) as Hs.
  pose proof (mi_chain _ _ _ _ I) as C. apply list_elem_of_split in Hin as E. destruct E as (X & Y & E). rewrite E in N, Hs, C.
  apply chain_app in C as (C1 & C2 & C3). cbn [head_of] in C1. exists n0, (Y ++ X). split; [done|].
  assert (head_of X (m_freep s) = base) as HX by (destruct X as [|[x xn] X]; injection E; intros; by subst).
  assert (head_of (Y ++ X) (m_freep s) = head_of Y base) as -> by (destruct Y as [|[y yn] Y]; done).
  split; [done|]. split; [apply chain_app; by rewrite HX|]. split; [|split].
  - rewrite fmap_app in N |- *. cbn [fmap list_fmap fst] in N. apply NoDup_app in N as (_ & N1 & N2). apply NoDup_cons in N2 as [N2 _].
    intros [H|H]%elem_of_app; [done|]. apply (N1 _ H). by left.
  - intros x. rewrite E, !elem_of_app, elem_of_cons. tauto.
  - rewrite length_app in *. cbn [length] in Hs. lia.
Qed.

(** The loop at a block that is large enough. *)
Lemma found base fl live s nu prevp kp p n : minv base fl live s -> (prevp, kp) ∈ (base, 0) :: fl ->
  m_hdr s !! prevp = Some (mkH p kp) -> (p, n) ∈ (base, 0) :: fl -> 0 < nu <= n ->
  exists z q s', m_hdr s !! p = Some (mkH z n) /\ take nu prevp p (mkH z n) s = Done (q + HSZ) s' /\ handed_out base fl live s nu q s'.
Proof.
  intros I Hpr Hh Hp Hnu. apply elem_of_cons in Hp as [Hp|Hp]; [injection Hp as -> ->; lia|].
  pose proof (gaps_elem _ _ _ _ (mi_gaps _ _ _ _ I) Hp) as (Hb & _).
  apply list_elem_of_split in Hpr as (X & Y & E). pose proof (mi_chain _ _ _ _ I) as C. rewrite E in C.
  apply chain_app in C as (_ & C2 & C3). rewrite Hh in C2. injection C2 as E2. destruct Y as [|[p' n'] B]; cbn [head_of] in E2; [hlia|]. subst p'.
  pose proof C3 as [C4 _].
  assert (n' = n) as ->.
  { pose proof (mi_chain _ _ _ _ I) as C. apply list_elem_of_lookup in Hp as [i Hi].
    pose proof (chain_lookup _ _ _ (S i) _ _ C Hi) as H. rewrite C4 in H. by injection H. }
  assert (exists L, fl = L ++ (p, n) :: B /\ (base, 0) :: L = X ++ [(prevp, kp)]) as (L & -> & HL).
  { destruct X as [|x X]; injection E as <- ->; [by exists []|]. exists (X ++ [(prevp, kp)]). by rewrite <- app_assoc. }
  destruct (take_run base L p n B X prevp kp live s I HL nu Hnu) as (q & s' & ?). by exists (head_of B base), q, s'.
Qed.

Section malloc.
Context `{Sbrk}.
Variable base : Z.

(** The end of a search that found nothing. *)
Definition extend (fuel : nat) (nunits : Z) : M heap Z :=
  let* p := morecore nunits in
  if p =? 0 then ret 0 else let* h := load p in malloc_loop fuel nunits p (h_ptr h).

Lemma loop_at fuel nu prevp p z n s : m_hdr s !! p = Some (mkH z n) ->
  malloc_loop (S fuel) nu prevp p s =
    (if nu <=? n then take nu prevp p (mkH z n)
     else if p =? m_freep s then extend fuel nu else malloc_loop fuel nu p z) s.
Proof.
  intros Hp. cbn [malloc_loop]. kstep by (unfold load; by rewrite Hp). cbn [h_size h_ptr]. destruct (nu <=? n); [done|].
  kpure. by destruct (p =? m_freep s).
Qed.

Lemma search fl live s nu : minv base fl live s -> 0 < nu -> forall t fuel prevp kp, (prevp, kp) ∈ (base, 0) :: fl ->
  m_hdr s !! prevp = Some (mkH (head_of t (m_freep s)) kp) -> chain (m_hdr s) t (m_freep s) -> (forall x, x ∈ t -> x ∈ (base, 0) :: fl) ->
  m_freep s ∉ fst <$> t -> (length t < fuel)%nat ->
  (exists q s', malloc_loop fuel nu prevp (head_of t (m_freep s)) s = Done (q + HSZ) s' /\ handed_out base fl live s nu q s') \/
  (forall a n, (a, n) ∈ (m_freep s, h_size (default (mkH 0 0) (m_hdr s !! m_freep s))) :: t -> n < nu) /\
  malloc_loop fuel nu prevp (head_of t (m_freep s)) s = extend (fuel - S (length t)) nu s.
Proof.
  intros I Hnu. induction t as [|[p n] t IH]; intros [|fuel] prevp kp Hpr Hh Hc Hin Hf Hfu; cbn [length] in Hfu; try lia; cbn [head_of] in *.
  - destruct (freep_in _ _ _ _ I) as (n & Hn). pose proof Hn as [i Hi]%list_elem_of_lookup.
    pose proof (chain_lookup _ _ _ i _ _ (mi_chain _ _ _ _ I) Hi) as Hl. rewrite (loop_at _ _ _ _ _ _ _ Hl).
    destruct (Z.leb_spec nu n) as [Hle|Hlt].
    + left. destruct (found base fl live s nu prevp kp _ n I Hpr Hh Hn ltac:(lia)) as (z & q & s' & Hz & Ht & Ho).
      rewrite Hl in Hz. injection Hz as <-. by exists q, s'.
    + right. rewrite Hl. cbn [default h_size]. split; [by intros a k [[= -> ->]|[]%elem_of_nil]%elem_of_cons|].
      rewrite Z.eqb_refl. cbn [length]. by replace (S fuel - 1)%nat with fuel by lia.
  - destruct Hc as [Hl Hc]. rewrite (loop_at _ _ _ _ _ _ _ Hl). cbn [fmap list_fmap fst] in Hf. apply not_elem_of_cons in Hf as [Hf1 Hf2].
    destruct (Z.leb_spec nu n) as [Hle|Hlt].
    + left. destruct (found base fl live s nu prevp kp p n I Hpr Hh (Hin _ ltac:(by left)) ltac:(lia)) as (z & q & s' & Hz & Ht & Ho).
      rewrite Hl in Hz. injection Hz as <-. by exists q, s'.
    + rewrite (proj2 (Z.eqb_neq _ _)) by done.
      destruct (IH fuel p n (Hin _ ltac:(by left)) Hl Hc ltac:(intros x Hx; apply Hin; by right) Hf2 ltac:(lia)) as [Hs|[Hs1 Hs2]]; [by left|right].
      split; [|exact Hs2]. intros a k [E|[E|E]%elem_of_cons]%elem_of_cons; [apply (Hs1 a k); rewrite E; by left|by injection E as -> ->|apply (Hs1 a k); by right].
Qed.

(** The memory of [sbrk] as a block that was handed out. *)
Lemma grown fl live s n h : minv base fl live s -> 0 < n -> m_brk s + HSZ * n < 2 ^ 36 -> h_size h = n ->
  minv base fl (<[m_brk s := n]> live) (set_hdr (m_brk s) h (set_brk (m_brk s + HSZ * n) s)) /\ live !! m_brk s = None.
Proof.
  intros I Hn Hb Hh. pose proof (mi_brk _ _ _ _ I) as Hbk.
  assert (forall b k, live !! b = Some k -> b < m_brk s) as HL by (intros b k E; destruct (mi_live _ _ _ _ I _ _ E); hlia).
  assert (live !! m_brk s = None) as HN by (destruct (live !! m_brk s) as [k|] eqn:E; [pose proof (HL _ _ E); lia|done]).
  assert (forall a k, (a, k) ∈ fl -> a < m_brk s /\ a + HSZ * k <= m_brk s) as HF.
  { intros a k Ha. pose proof (mi_fin _ _ _ _ I a k Ha). destruct (gaps_elem _ _ _ _ (mi_gaps _ _ _ _ I) Ha). hlia. }
  split; [|done]. unfold set_hdr, set_brk. split; cbn [m_hdr m_brk m_freep]; try apply I; [hlia| | | | |].
  - eapply chain_frame; [|apply I]. intros a k [E|E]%elem_of_cons; rewrite lookup_insert_ne; [done| |done|].
    + injection E as -> ->. hlia.
    + pose proof (HF _ _ E). lia.
  - intros a k Ha. pose proof (HF _ _ Ha). hlia.
  - intros a k [[<- <-]|[Hne Ha]]%lookup_insert_Some.
    + rewrite lookup_insert_eq. split; [done|]. split; [hlia|]. split; [hlia|]. exists (h_ptr h). destruct h. cbn in *. by subst.
    + rewrite lookup_insert_ne by done. destruct (mi_live _ _ _ _ I a k Ha) as (? & ? & ? & ?). split; [done|]. split; [done|]. split; [hlia|done].
  - intros a k b j Ha [[<- <-]|[Hne Hj]]%lookup_insert_Some; [left; by apply HF|by apply (mi_free _ _ _ _ I)].
  - assert (forall b k, live !! b = Some k -> b + HSZ * k <= m_brk s) as HE by (intros b k E; by destruct (mi_live _ _ _ _ I _ _ E) as (_ & _ & ? & _)).
    intros a k b j [[<- <-]|[Hne Ha]]%lookup_insert_Some [[<- <-]|[Hne' Hj]]%lookup_insert_Some Hab; [done|right|left|by apply (mi_apart _ _ _ _ I)].
    + by apply HE.
    + by apply HE.
Qed.

Lemma kept_trans live s1 s2 s3 : kept live s1 s2 -> kept live s2 s3 -> kept live s1 s3.
Proof. intros K1 K2 b n a Hb Ha. rewrite (K2 b n a Hb Ha). exact (K1 b n a Hb Ha). Qed.

(** The units [morecore] asks for. *)
Definition asked (nu : Z) : Z := if nu <? 4096 then 4096 else nu.

Lemma morecore_run fl live s nu : minv base fl live s -> 0 < nu -> HSZ * asked nu < 2 ^ 31 -> m_brk s + HSZ * asked nu < 2 ^ 36 ->
  match sbrk (HSZ * asked nu) (m_brk s) with
  | None => morecore nu s = Done 0 s
  | Some _ => exists s' fl', morecore nu s = Done (m_freep s') s' /\ minv base fl' live s' /\ m_brk s' = m_brk s + HSZ * asked nu /\
      kept live s s' /\ (size (m_hdr s') <= S (size (m_hdr s)))%nat /\ total fl' = total fl + asked nu /\
      exists a n, (a, n) ∈ fl' /\ nu <= n
  end.
Proof.
  intros I Hnu Hlt Hbk. assert (4096 <= asked nu /\ nu <= asked nu) as [Hq Hq'] by (unfold asked; destruct (Z.ltb_spec nu 4096); lia).
  unfold morecore. kpure. change (if nu <? 4096 then 4096 else nu) with (asked nu).
  rewrite (Z.mul_comm (asked nu) HSZ), s32_small by hlia. destruct (sbrk (HSZ * asked nu) (m_brk s)) as [[p b]|] eqn:E; [|done].
  apply sbrk_grows in E as [-> ->]; [|hlia]. unfold set_size. kpure.
  match goal with |- context[set_hdr (m_brk s) ?h _] => destruct (grown fl live s (asked nu) h I ltac:(lia) Hbk) as [I1 HN] end.
  { cbn [h_size]. rewrite u32_small by hlia. done. }
  edestruct (free_run base fl _ _ (m_brk s) (asked nu) I1) as (s' & fl' & Hrun & I' & Hb' & K & Hd & Ht & a & n & Ha & Hn).
  { apply lookup_insert_eq. }
  rewrite (bind_done _ _ _ _ _ Hrun). kpure. exists s', fl'. split; [done|]. rewrite delete_insert_id in I', K by done.
  split; [done|]. split; [by rewrite Hb'|]. split.
  - eapply kept_trans; [|exact K]. intros c k x Hc Hx. unfold set_hdr, set_brk. cbn [m_hdr].
    destruct (mi_live _ _ _ _ I c k Hc) as (_ & _ & ? & _). by rewrite lookup_insert_ne by lia.
  - split; [|split; [done|exists a, n; split; [done|hlia]]].
    rewrite <- size_dom, Hd, size_dom. unfold set_hdr, set_brk. cbn [m_hdr]. rewrite map_size_insert.
    destruct (m_hdr s !! m_brk s); cbn; lia.
Qed.

(** What [malloc] of [nu] units results in. *)
Definition allocated (fl : list (Z * Z)) (live : gmap Z Z) (s : heap) (nu r : Z) (s' : heap) : Prop :=
  (exists bp fl', r = bp + HSZ /\ live !! bp = None /\ minv base fl' (<[bp := nu]> live) s' /\
     HSZ * (total fl' + nu - total fl) = m_brk s' - m_brk s) \/
  r = 0 /\ sbrk (HSZ * asked nu) (m_brk s) = None /\ (forall a n, (a, n) ∈ fl -> n < nu) /\ minv base fl live s' /\ m_brk s' = m_brk s.

Lemma search_all fl live s nu fuel : minv base fl live s -> 0 < nu -> (size (m_hdr s) <= fuel)%nat ->
  exists h, load (m_freep s) s = Done h s /\
  ((exists q s', malloc_loop fuel nu (m_freep s) (h_ptr h) s = Done (q + HSZ) s' /\ handed_out base fl live s nu q s') \/
   (forall a n, (a, n) ∈ fl -> n < nu) /\ exists fuel', (fuel <= fuel' + size (m_hdr s))%nat /\
   malloc_loop fuel nu (m_freep s) (h_ptr h) s = extend fuel' nu s).
Proof.
  intros I Hnu Hfu. destruct (ring _ _ _ _ I) as (n0 & t & R1 & R2 & R3 & R4 & R5 & R6).
  eexists. split; [unfold load; by rewrite R2|]. cbn [h_ptr].
  destruct (search fl live s nu I Hnu t fuel (m_freep s) n0 R1 R2 R3) as [Hs|[Hs1 Hs2]]; [|done|lia|by left|right].
  { intros x Hx. apply R5. by right. }
  split; [|exists (fuel - S (length t))%nat; split; [lia|done]].
  intros a n Ha. apply (Hs1 a n). rewrite R2. cbn [default h_size]. apply elem_of_cons. apply R5. by right.
Qed.

Lemma malloc_run fl live s nu fuel : minv base fl live s -> 0 < nu -> HSZ * asked nu < 2 ^ 31 -> m_brk s + HSZ * asked nu < 2 ^ 36 ->
  (2 * size (m_hdr s) + 1 <= fuel)%nat ->
  exists h r s', load (m_freep s) s = Done h s /\ malloc_loop fuel nu (m_freep s) (h_ptr h) s = Done r s' /\
    kept live s s' /\ allocated fl live s nu r s'.
Proof.
  intros I Hnu Hlt Hbk Hfu. destruct (search_all fl live s nu fuel I Hnu ltac:(lia)) as (h & Hh & Hs). exists h.
  destruct Hs as [(q & s' & Hr & fl' & I' & HN & Ht & Hb & K)|(Hsm & fuel' & Hfu' & ->)].
  { exists (q + HSZ), s'. split; [done|]. split; [done|]. split; [done|]. left. exists q, fl'. split; [done|]. split; [done|]. split; [done|hlia]. }
  pose proof (morecore_run fl live s nu I Hnu Hlt Hbk) as HM. unfold extend.
  destruct (sbrk (HSZ * asked nu) (m_brk s)) as [pb|] eqn:E.
  - destruct HM as (s1 & fl1 & Hm & I1 & Hb1 & K1 & Hsz & Ht1 & a & n & Ha & Hn).
    destruct (search_all fl1 live s1 nu fuel' I1 Hnu ltac:(lia)) as (h1 & Hh1 & [(q & s' & Hr & fl' & I' & HN & Ht & Hb & K)|(Hno & _)]);
      [|pose proof (Hno a n Ha); lia].
    exists (q + HSZ), s'. split; [done|]. split.
    { rewrite (bind_done _ _ _ _ _ Hm). rewrite (proj2 (Z.eqb_neq _ _)), (bind_done _ _ _ _ _ Hh1); [done|].
      destruct (mi_freep _ _ _ _ I1) as [->|[k Hk]]; [pose proof (mi_base _ _ _ _ I1); lia|].
      pose proof (mi_base _ _ _ _ I1). destruct (gaps_elem _ _ _ _ (mi_gaps _ _ _ _ I1) Hk). hlia. }
    split; [by eapply kept_trans|]. left. exists q, fl'. split; [done|]. split; [done|]. split; [done|]. hlia.
  - exists 0, s. split; [done|]. split; [by rewrite (bind_done _ _ _ _ _ HM)|]. split; [by intros ? ? ?|]. by right.
Qed.
End malloc.

(** The heap before the first [malloc], and after it. *)
Definition heap_ok (base : Z) (fl : list (Z * Z)) (live : gmap Z Z) (s : heap) : Prop :=
  minv base fl live s \/
  m_freep s = 0 /\ fl = [] /\ live = ∅ /\ m_hdr s = ∅ /\ 0 < base /\ base + HSZ <= m_brk s < 2 ^ 36.

Lemma units_bound nbytes : 0 <= nbytes < 2 ^ 31 - 64 ->
  0 < units nbytes /\ nbytes <= HSZ * (units nbytes - 1) < nbytes + HSZ /\ HSZ * asked (units nbytes) < 2 ^ 31.
Proof.
  intros Hn. assert (units nbytes = (nbytes + HSZ - 1) / HSZ + 1) as ->.
  { unfold units. rewrite u32_small; [done|]. unfold HSZ. Z.div_mod_to_equations. lia. }
  unfold asked, HSZ. destruct (Z.ltb_spec ((nbytes + 16 - 1) / 16 + 1) 4096); Z.div_mod_to_equations; lia.
Qed.

Lemma first_heap base s : m_freep s = 0 -> m_hdr s = ∅ -> 0 < base -> base + HSZ <= m_brk s < 2 ^ 36 ->
  (if m_freep s =? 0 then set_ptr base base ;; modify (set_freep base) ;; set_size base 0 else ret tt) s =
    Done tt (mkHeap base {[ base := mkH base 0 ]} (m_brk s)) /\
  minv base [] ∅ (mkHeap base {[ base := mkH base 0 ]} (m_brk s)).
Proof.
  intros Hf Hh Hb Hk. split.
  { rewrite Hf, Z.eqb_refl. unfold set_ptr, set_size. kpure. unfold modify, set_hdr, set_freep. cbn [m_hdr m_freep m_brk].
    rewrite lookup_insert_eq, insert_insert_eq, Hh. done. }
  split; cbn [m_hdr m_freep m_brk]; try done; try (by left); try (by intros ? ? ?%elem_of_nil); try (by intros ? ? ? ? ?%elem_of_nil).
  cbn [chain head_of]. split; [apply lookup_singleton_eq|done].
Qed.

(** ** Theorems *)

(** C39: [malloc] of [nbytes] bytes always returns. Either the result is a block
    of at least [nbytes] bytes that overlaps no block in use and no free block,
    and what it took off the free list is exactly that block; or the result is 0,
    no free block is large enough and [sbrk] refused more memory. The free list
    stays sorted, joined and linked in a circle, and no store of the allocator
    goes into a block in use. *)
Theorem malloc_correct `{Sbrk} base fl live s nbytes : heap_ok base fl live s -> 0 <= nbytes < 2 ^ 31 - 64 ->
  m_brk s + HSZ * asked (units nbytes) < 2 ^ 36 ->
  nbytes <= HSZ * (units nbytes - 1) < nbytes + HSZ /\
  exists r s', malloc base nbytes s = Done r s' /\ kept live s s' /\ allocated base fl live s (units nbytes) r s'.
Proof.
  intros Hok Hn Hbk. destruct (units_bound nbytes Hn) as (Hu1 & Hu2 & Hu3). split; [done|]. unfold malloc. kpure.
  destruct Hok as [I|(Hf & -> & -> & Hh & Hb & Hk)].
  - destruct (malloc_run base fl live s (units nbytes) (2 * size (m_hdr s) + 4) I Hu1 Hu3 Hbk ltac:(lia)) as (h & r & s' & Hl & Hr & K & A).
    exists r, s'. split; [|done]. rewrite (proj2 (Z.eqb_neq _ _)); [kpure; by rewrite (bind_done _ _ _ _ _ Hl)|].
    pose proof (mi_base _ _ _ _ I). destruct (mi_freep _ _ _ _ I) as [->|[k Hk]]; [lia|].
    destruct (gaps_elem _ _ _ _ (mi_gaps _ _ _ _ I) Hk). hlia.
  - destruct (first_heap base s Hf Hh Hb Hk) as [E I]. rewrite (bind_done _ _ _ _ _ E). set (s0 := mkHeap _ _ _) in *.
    destruct (malloc_run base [] ∅ s0 (units nbytes) (2 * size (m_hdr s0) + 4) I Hu1 Hu3 Hbk ltac:(lia)) as (h & r & s' & Hl & Hr & K & A).
    exists r, s'. split; [kpure; by rewrite (bind_done _ _ _ _ _ Hl)|]. split; [by intros b n a Hb'|exact A].
Qed.

(** C40: [free] of a block that [malloc] returned always returns, and puts the
    block back: it is no longer in use, the free list grew by exactly its units,
    joined with the neighbours it touches, and the blocks still in use keep their
    contents. *)
Theorem free_correct base fl live s bp m : heap_ok base fl live s -> live !! bp = Some m ->
  exists s' fl', free (bp + HSZ) s = Done tt s' /\ heap_ok base fl' (delete bp live) s' /\ kept (delete bp live) s s' /\
    total fl' = total fl + m /\ m_brk s' = m_brk s /\
    exists a n, (a, n) ∈ fl' /\ a <= bp /\ bp + HSZ * m <= a + HSZ * n.
Proof.
  intros [I|(_ & _ & -> & _)] Hbp; [|by rewrite lookup_empty in Hbp].
  destruct (free_run base fl live s bp m I Hbp) as (s' & fl' & Hr & I' & Hb & K & _ & Ht & Hin).
  exists s', fl'. split; [done|]. split; [by left|]. by repeat split.
Qed.

(** ** Witnesses *)

(** A kernel that gives a process memory up to a limit. *)
Program Definition limited (limit : Z) : Sbrk :=
  {| sbrk n b := if b + n <=? limit then Some (b, b + n) else None |}.
Next Obligation. intros limit n b p b' Hn. cbn. destruct (b + n <=? limit); [|done]. by intros [= <- <-]. Qed.


Lemma malloc_correct_witness : exists r s',
  malloc (H := limited 1048576) 8192 100 (mkHeap 0 ∅ 16384) = Done r s' /\ r <> 0 /\
  allocated (H := limited 1048576) 8192 [] ∅ (mkHeap 0 ∅ 16384) 8 r s'.
Proof.
  destruct (malloc_correct (H := limited 1048576) 8192 [] ∅ (mkHeap 0 ∅ 16384) 100) as (_ & r & s' & Hr & _ & A).
  - right. by vm_compute.
  - lia.
  - by vm_compute.
  - exists r, s'. split; [exact Hr|]. split; [|exact A]. vm_compute in Hr. injection Hr as <- <-. lia.
Defined.

Definition heap1 : heap := mkHeap 8192 {[ 8192 := mkH 16384 0; 16384 := mkH 8192 4088; 81792 := mkH 0 8 ]} 81920.
Lemma heap1_ok : minv 8192 [(16384, 4088)] {[ 81792 := 8 ]} heap1.
Proof.
  split; cbn [m_hdr m_freep m_brk heap1]; [done|by vm_compute|by vm_compute|by vm_compute|by left| | | |].
  - intros a n [[= -> ->]|[]%elem_of_nil]%elem_of_cons. by vm_compute.
  - intros a n [<- <-]%lookup_singleton_Some. unfold HSZ. split; [lia|]. split; [lia|]. split; [lia|]. by exists 0.
  - intros a n b m [[= -> ->]|[]%elem_of_nil]%elem_of_cons [<- <-]%lookup_singleton_Some. left. unfold HSZ. lia.
  - intros a n b m [<- <-]%lookup_singleton_Some [<- <-]%lookup_singleton_Some ?. done.
Qed.

Lemma free_correct_witness : exists s' fl', free (81792 + HSZ) heap1 = Done tt s' /\
  heap_ok 8192 fl' (delete 81792 {[ 81792 := 8 ]}) s' /\ total fl' = 4096.
Proof.
  destruct (free_correct 8192 [(16384, 4088)] {[ 81792 := 8 ]} heap1 81792 8) as (s' & fl' & Hr & Hok & _ & Ht & _).
  - left. apply heap1_ok.
  - apply lookup_singleton_eq.
  - exists s', fl'. split; [exact Hr|]. split; [exact Hok|exact Ht].
Defined.
