(* ===== verification/Grep.v ===== *)
(** * grep

    user/grep.c: the regular-expression matcher, against a denotation of
    patterns, and the loop that reads a file through a 1024-byte buffer, against
    the list of its lines. A string is its bytes before the terminating 0. *)

From S2P Require Import Prelude Kernel Str Ulib.

(** ** Definitions *)

(** *** The matcher *)

Definition is_nil (l : list Z) : bool := match l with [] => true | _ => false end.

(** [matchstar], with [here] for [matchhere] of the rest of the pattern. *)
Fixpoint matchstar (here : list Z -> bool) (c : Z) (text : list Z) : bool :=
  here text ||
  match text with
  | [] => false
  | d :: text => ((d =? c) || (c =? 46)) && matchstar here c text
  end.

Fixpoint matchhere (re text : list Z) : bool :=
  match re with
  | [] => true
  | c :: re1 =>
      let one :=
        if (c =? 36) && is_nil re1 then is_nil text
        else match text with
             | [] => false
             | d :: text => ((c =? 46) || (c =? d)) && matchhere re1 text
             end in
      match re1 with
      | d :: re2 => if d =? 42 then matchstar (matchhere re2) c text else one
      | [] => one
      end
  end.

Fixpoint search (re text : list Z) : bool :=
  matchhere re text || match text with [] => false | _ :: text => search re text end.

Definition match_re (re text : list Z) : bool :=
  match re with
  | c :: re1 => if c =? 94 then matchhere re1 text else search re text
  | [] => search re text
  end.

(** *** The loop over the file *)

Definition BUFSZ : nat := 1024.

Section grep.
Variable pattern : list Z.

(** The inner loop over the lines in the buffer: what it prints, and the bytes
    after the last newline. *)
Fixpoint grep_lines (fuel : nat) (p : list Z) : list Z * list Z :=
  match fuel with
  | O => ([], p)
  | S fuel =>
      match strchr p 10 with
      | None => ([], p)
      | Some q =>
          let out := if match_re pattern (take q p) then take (q + 1) p else [] in
          let '(outs, rest) := grep_lines fuel (drop (q + 1) p) in
          (out ++ outs, rest)
      end
  end.

(** [read(fd, buf + m, n)]: the bytes read, and what is left of the file. *)
Variable read : nat -> list Z -> list Z * list Z.

Fixpoint grep (fuel : nat) (carry file : list Z) : list Z :=
  match fuel with
  | O => []
  | S fuel =>
      let '(chunk, file) := read (BUFSZ - length carry - 1) file in
      if is_nil chunk then []
      else
        let p := carry ++ chunk in
        let '(out, carry) := grep_lines (S (length p)) p in
        out ++ grep fuel carry file
  end.
End grep.

(** *** What they should do *)

(** A pattern is a list of items, perhaps tied to the end of the line. *)
Inductive item := IChar (c : Z) | IStar (c : Z).

Fixpoint items (re : list Z) : list item * bool :=
  match re with
  | [] => ([], false)
  | c :: re1 =>
      let one := if (c =? 36) && is_nil re1 then ([], true) else let '(l, e) := items re1 in (IChar c :: l, e) in
      match re1 with
      | d :: re2 => if d =? 42 then let '(l, e) := items re2 in (IStar c :: l, e) else one
      | [] => one
      end
  end.

Definition char_ok (c d : Z) : Prop := c = 46 \/ c = d.

Inductive denotes : list item -> list Z -> Prop :=
| de_nil : denotes [] []
| de_char c d l s : char_ok c d -> denotes l s -> denotes (IChar c :: l) (d :: s)
| de_star c l r s : Forall (char_ok c) r -> denotes l s -> denotes (IStar c :: l) (r ++ s).

(** The pattern matches a part of the text, at its start or end if it says so. *)
Definition matches (re text : list Z) : Prop :=
  let start := bool_decide (head re = Some 94) in
  let '(l, fin) := items (if start then drop 1 re else re) in
  exists before here after, text = before ++ here ++ after /\ denotes l here /\
    (start = true -> before = []) /\ (fin = true -> after = []).

(** The lines of a text, without their newlines, and the bytes after the last
    newline; [cur] is the part of the current line before the text. *)
Fixpoint lines (cur text : list Z) : list (list Z) * list Z :=
  match text with
  | [] => ([], cur)
  | c :: text =>
      if c =? 10 then let '(ls, p) := lines [] text in (cur :: ls, p) else lines (cur ++ [c]) text
  end.

Definition printed (pattern : list Z) (ls : list (list Z)) : list Z :=
  mjoin ((fun l => if match_re pattern l then l ++ [10] else []) <$> ls).

(** No line is as long as the buffer. *)
Definition short (file : list Z) : Prop :=
  forall a b c, file = a ++ b ++ c -> 10 ∉ b -> (length b < BUFSZ - 1)%nat.

(** ** The matcher *)

Definition here_spec (l : list item) (fin : bool) (text : list Z) : Prop :=
  exists here after, text = here ++ after /\ denotes l here /\ (fin = true -> after = []).

Lemma matchstar_spec here c l fin text :
  (forall t, here t = true <-> here_spec l fin t) ->
  matchstar here c text = true <-> here_spec (IStar c :: l) fin text.
Proof.
  intros Hh. induction text as [|d text IH]; cbn [matchstar]; rewrite orb_true_iff, Hh.
  - split.
    + intros [(h & a & E & Hd & Hf)|]; [|done]. exists h, a. split; [done|]. split; [|done]. by apply (de_star c l [] h).
    + intros (h & a & E & Hd & Hf). left. inversion Hd as [| |? ? r s Hr Hs]; subst. symmetry in E.
      apply app_nil in E as [E ->]. apply app_nil in E as [-> ->]. by exists [], [].
  - rewrite andb_true_iff, IH, orb_true_iff, !Z.eqb_eq. split.
    + intros [(h & a & E & Hd & Hf)|[Hc (h & a & -> & Hd & Hf)]].
      * exists h, a. split; [done|]. split; [|done]. by apply (de_star c l [] h).
      * inversion Hd as [| |? ? r s Hr Hs]; subst. exists ((d :: r) ++ s), a. split; [done|]. split; [|done].
        constructor; [|done]. constructor; [unfold char_ok; naive_solver|done].
    + intros (h & a & E & Hd & Hf). inversion Hd as [| |? ? r s Hr Hs]; subst. destruct r as [|d' r].
      * left. by exists s, a.
      * cbn in E. injection E as <- ->. inversion Hr as [|? ? Hc Hr']; subst. right.
        split; [unfold char_ok in Hc; naive_solver|]. exists (r ++ s), a. split; [done|]. split; [by constructor|done].
Qed.

Lemma matchhere_spec n : forall re text, (length re <= n)%nat ->
  matchhere re text = true <-> here_spec (items re).1 (items re).2 text.
Proof.
  induction n as [|n IH]; intros re text Hn.
  { destruct re; [|cbn in Hn; lia]. split; [|done]. intros _. exists [], text. split; [done|]. split; [constructor|done]. }
  destruct re as [|c re1].
  { split; [|done]. intros _. exists [], text. split; [done|]. split; [constructor|done]. }
  assert (Hone : (if (c =? 36) && is_nil re1 then is_nil text
                  else match text with [] => false | d :: t => ((c =? 46) || (c =? d)) && matchhere re1 t end) = true <->
    let r := if (c =? 36) && is_nil re1 then ([], true) else let '(l, e) := items re1 in (IChar c :: l, e) in
    here_spec r.1 r.2 text).
  { destruct ((c =? 36) && is_nil re1) eqn:E; cbn zeta; cbn [fst snd].
    - split.
      + destruct text; [|done]. intros _. exists [], []. split; [done|]. split; [constructor|done].
      + intros (h & a & -> & Hd & Hf). inversion Hd. by rewrite Hf.
    - destruct (items re1) as [l e] eqn:Ei. cbn [fst snd]. destruct text as [|d t].
      + split; [done|]. intros (h & a & E' & Hd & _). by inversion Hd; subst.
      + rewrite andb_true_iff, orb_true_iff, !Z.eqb_eq, IH by (cbn in Hn; lia). rewrite Ei. cbn [fst snd]. split.
        * intros [Hc (h & a & -> & Hd & Hf)]. exists (d :: h), a. split; [done|]. split; [by constructor|done].
        * intros (h & a & E' & Hd & Hf). inversion Hd as [|? d' ? s Hc Hs|]; subst. injection E' as <- ->.
          split; [done|]. by exists s, a. }
  cbn [matchhere items]. destruct re1 as [|d re2]; [exact Hone|].
  destruct (d =? 42) eqn:Ed; [|exact Hone].
  destruct (items re2) as [l e] eqn:Ei. cbn [fst snd]. apply matchstar_spec.
  intros t. rewrite IH by (cbn in Hn; lia). by rewrite Ei.
Qed.

Lemma search_spec re text : search re text = true <-> exists before rest, text = before ++ rest /\ matchhere re rest = true.
Proof.
  induction text as [|c text IH]; cbn [search]; rewrite orb_true_iff.
  - split; [intros [H|]; [|done]; by exists [], []|]. intros (b & r & E & H). symmetry in E.
    apply app_nil in E as [-> ->]. by left.
  - rewrite IH. split.
    + intros [H|(b & r & -> & H)]; [by exists [], (c :: text)|by exists (c :: b), r].
    + intros ([|c' b] & r & E & H); [left; by rewrite E|]. injection E as -> ->. right. by exists b, r.
Qed.

Lemma match_re_spec re text : match_re re text = true <-> matches re text.
Proof.
  assert (Hs : forall re, search re text = true <-> exists before here after, text = before ++ here ++ after /\
            denotes (items re).1 here /\ ((items re).2 = true -> after = [])).
  { intros r. rewrite search_spec. split.
    - intros (b & x & -> & (h & a & -> & Hd & Hf)%(matchhere_spec (length r) r x (le_n _))). by exists b, h, a.
    - intros (b & h & a & -> & Hd & Hf). exists b, (h ++ a). split; [done|].
      apply (matchhere_spec (length r)); [done|]. by exists h, a. }
  unfold match_re, matches. destruct re as [|c re1].
  { rewrite Hs. cbn. naive_solver. }
  destruct (Z.eqb_spec c 94) as [->|Hc].
  - rewrite (bool_decide_eq_true_2 (head (94 :: re1) = Some 94)) by done. cbn [drop].
    rewrite (matchhere_spec (length re1) re1 text (le_n _)), drop_0. destruct (items re1) as [l e]. cbn [fst snd]. split.
    + intros (h & a & -> & Hd & Hf). by exists [], h, a.
    + intros (b & h & a & -> & Hd & Hb & Hf). rewrite Hb by done. by exists h, a.
  - rewrite (bool_decide_eq_false_2 (head (c :: re1) = Some 94)) by (cbn; congruence).
    rewrite Hs. destruct (items (c :: re1)) as [l e]. cbn [fst snd]. naive_solver.
Qed.

(** ** The loop *)

Lemma lines_app cur a b : lines cur (a ++ b) =
  let '(ls, p) := lines cur a in let '(ls', p') := lines p b in (ls ++ ls', p').
Proof.
  revert cur. induction a as [|c a IH]; intros cur; cbn [lines app]; [by destruct (lines cur b)|].
  destruct (c =? 10); [|apply IH]. rewrite IH. destruct (lines [] a) as [ls p]. by destruct (lines p b).
Qed.

(** The unfinished line is the end of the text, and has no newline. *)
Lemma lines_rest cur a : 10 ∉ cur -> exists a', cur ++ a = a' ++ (lines cur a).2 /\ 10 ∉ (lines cur a).2.
Proof.
  revert cur. induction a as [|c a IH]; intros cur Hc; cbn [lines].
  { exists []. by rewrite app_nil_r. }
  destruct (Z.eqb_spec c 10) as [->|Hne].
  - destruct (IH [] ltac:(apply not_elem_of_nil)) as (a' & E & Hn). destruct (lines [] a) as [ls p]. cbn [fst snd app] in *.
    exists (cur ++ 10 :: a'). split; [|done]. rewrite E, <- app_assoc. done.
  - destruct (IH (cur ++ [c])) as (a' & E & Hn); [set_solver|]. exists a'. split; [|done]. by rewrite <- E, <- app_assoc.
Qed.

Lemma strchr_newline p : 0 ∉ p ->
  match strchr p 10 with
  | None => lines [] p = ([], p)
  | Some q => (q < length p)%nat /\ take (q + 1) p = take q p ++ [10] /\
      lines [] p = let '(ls, r) := lines [] (drop (q + 1) p) in (take q p :: ls, r)
  end.
Proof.
  enough (H : forall cur, 0 ∉ p -> match strchr p 10 with
    | None => lines cur p = ([], cur ++ p)
    | Some q => (q < length p)%nat /\ take (q + 1) p = take q p ++ [10] /\
        lines cur p = let '(ls, r) := lines [] (drop (q + 1) p) in ((cur ++ take q p) :: ls, r)
    end) by (intros H0; exact (H [] H0)).
  induction p as [|c p IH]; intros cur Hp; cbn [strchr lines].
  { by rewrite app_nil_r. }
  destruct (Z.eqb_spec c 0) as [->|_]; [set_solver|]. destruct (Z.eqb_spec c 10) as [->|_].
  - cbn. rewrite drop_0, app_nil_r. split; [lia|done].
  - specialize (IH (cur ++ [c]) ltac:(set_solver)). destruct (strchr p 10) as [q|]; cbn [fmap option_fmap option_map].
    + destruct IH as (Hq & Ht & Hl). cbn [take drop Nat.add length]. split; [lia|]. split; [by rewrite Ht|].
      rewrite Hl. destruct (lines [] _) as [ls r]. by rewrite <- app_assoc.
    + by rewrite IH, <- app_assoc.
Qed.

Lemma grep_lines_spec pattern fuel : forall p, 0 ∉ p -> (length p < fuel)%nat ->
  grep_lines pattern fuel p = (printed pattern (lines [] p).1, (lines [] p).2).
Proof.
  induction fuel as [|fuel IH]; intros p Hp Hf; [lia|]. cbn [grep_lines].
  pose proof (strchr_newline p Hp) as Hs. destruct (strchr p 10) as [q|]; [|by rewrite Hs].
  destruct Hs as (Hq & Ht & Hl). rewrite IH; [|intros Hx; apply Hp; rewrite <- (take_drop (q + 1) p); set_solver|rewrite length_drop; lia].
  rewrite Hl, Ht. destruct (lines [] (drop (q + 1) p)) as [ls r]. cbn [fst snd]. done.
Qed.

Section reading.
Context (pattern : list Z) (read : nat -> list Z -> list Z * list Z).
Hypothesis read_part : forall n file, file = (read n file).1 ++ (read n file).2 /\ (length (read n file).1 <= n)%nat.
Hypothesis read_some : forall n file, (0 < n)%nat -> file <> [] -> (read n file).1 <> [].

Lemma grep_spec fuel : forall carry file, 0 ∉ carry ++ file -> 10 ∉ carry -> (length file < fuel)%nat ->
  short (carry ++ file) -> grep pattern read fuel carry file = printed pattern (lines carry file).1.
Proof.
  induction fuel as [|fuel IH]; intros carry file H0 Hc Hf Hs; [lia|]. cbn [grep].
  assert (length carry < BUFSZ - 1)%nat as Hl by (by apply (Hs [] carry file)).
  destruct (read_part (BUFSZ - length carry - 1) file) as [Hr _].
  pose proof (read_some (BUFSZ - length carry - 1) file ltac:(lia)) as Hne.
  destruct (read (BUFSZ - length carry - 1) file) as [chunk file'] eqn:Er. cbn [fst snd] in *.
  destruct chunk as [|c chunk]; cbn [is_nil].
  { destruct file; [done|]. by destruct Hne. }
  rewrite Hr in *. clear Hne Er. set (ch := c :: chunk) in *.
  assert (lines [] (carry ++ ch) = lines carry ch) as El.
  { rewrite lines_app. destruct (lines_rest [] carry ltac:(apply not_elem_of_nil)) as (a' & E & Hn). cbn in E.
    assert (lines [] carry = ([], carry)) as ->; [|by destruct (lines carry ch)].
    clear -Hc. enough (forall cur, lines cur carry = ([], cur ++ carry)) as H by apply (H []).
    induction carry as [|x carry IH]; intros cur; cbn [lines]; [by rewrite app_nil_r|].
    destruct (Z.eqb_spec x 10) as [->|]; [set_solver|]. rewrite IH by set_solver. by rewrite <- app_assoc. }
  rewrite grep_lines_spec; [|set_solver|rewrite length_app; lia]. rewrite El.
  destruct (lines_rest carry ch Hc) as (a' & Ea & Hn).
  rewrite lines_app. destruct (lines carry ch) as [ls p] eqn:Ep. cbn [fst snd] in *.
  rewrite IH; [..|done| |].
  - destruct (lines p file') as [ls' p']. cbn [fst]. unfold printed. by rewrite fmap_app, join_app.
  - rewrite app_assoc, Ea in H0. set_solver.
  - rewrite length_app in Hf. unfold ch in Hf. cbn in Hf. lia.
  - intros a b d E Hb. apply (Hs (a' ++ a) b d); [|done]. by rewrite app_assoc, Ea, <- !app_assoc, E.
Qed.
End reading.

(** ** Theorems *)

(** C28: The matcher decides the patterns' meaning: it accepts a text exactly when
    some part of it is a character for each plain item and a run of characters
    for each starred one, at the start of the text if the pattern begins with ^
    and at its end if it ends with a dollar sign. *)
Theorem match_equivalence re text : match_re re text = true <-> matches re text.
Proof. apply match_re_spec. Qed.

(** [grep] prints exactly the matching lines of a file, in order, whatever
    pieces [read] returns the file in, provided that the file has no zero byte
    and no line of 1023 bytes or more. *)
Theorem grep_correct pattern read file :
  (forall n file, file = (read n file).1 ++ (read n file).2 /\ (length (read n file).1 <= n)%nat) ->
  (forall n file, (0 < n)%nat -> file <> [] -> (read n file).1 <> []) ->
  0 ∉ file -> short file ->
  grep pattern read (S (length file)) [] file = printed pattern (lines [] file).1.
Proof. intros H1 H2 H3 H4. apply grep_spec; auto. apply not_elem_of_nil. Qed.

(** A [read] that returns at most three bytes at a time. *)
Definition read3 (n : nat) (file : list Z) : list Z * list Z := (take (Nat.min n 3) file, drop (Nat.min n 3) file).

Lemma grep_correct_witness :
  grep [97; 42; 98] read3 10 [] [97; 97; 98; 10; 99; 10; 98; 99; 10] = [97; 97; 98; 10; 98; 99; 10].
Proof.
  etransitivity; [apply (grep_correct [97; 42; 98] read3 [97; 97; 98; 10; 99; 10; 98; 99; 10])|reflexivity].
  - intros n file. cbn [read3 fst snd]. split; [symmetry; apply take_drop|rewrite length_take; lia].
  - intros n file Hn Hf E. cbn [read3 fst] in E. destruct file; [done|]. destruct n; [lia|]. discriminate.
  - apply (bool_decide_unpack (0 ∉ [97; 97; 98; 10; 99; 10; 98; 99; 10])). exact I.
  - intros a b c E _. apply (f_equal length) in E. rewrite !length_app in E. cbn in E. unfold BUFSZ. lia.
Defined.
