(* ===== verification/Sh.v ===== *)
(** * The shell's parser

    user/sh.c: the tokenizer, the recursive-descent parser and [nulterminate].
    The command line is its bytes [s] before the terminating 0; a pointer into
    it is an index, and the parser's [*ps] is the state of the monad. A word is
    the pair of indices [q] and [eq] that the parser records. *)

From S2P Require Import Prelude Kernel Str Ulib.

(** ** Definitions *)

Definition MAXARGS : nat := 10.
Definition O_RDONLY : Z := 0x000.
Definition O_WRONLY : Z := 0x001.
Definition O_CREATE : Z := 0x200.
Definition O_TRUNC : Z := 0x400.

(** The commands, with words of type [W]. *)
Inductive cmd (W : Type) :=
| Exec (argv : list W)
| Redir (c : cmd W) (file : W) (mode fd : Z)
| Pipe (left right : cmd W)
| CList (left right : cmd W)
| Back (c : cmd W).
Arguments Exec {W} argv.
Arguments Redir {W} c file mode fd.
Arguments Pipe {W} left right.
Arguments CList {W} left right.
Arguments Back {W} c.

Definition whitespace : list Z := [32; 9; 13; 10; 11].
Definition symbols : list Z := [60; 124; 62; 38; 59; 40; 41].

Definition is_in (toks : list Z) (c : Z) : bool := match strchr toks c with Some _ => true | None => false end.

(** The argument that [parseexec] adds to the [execcmd] it has made, which is
    inside the redirections that [parseredirs] has put around it. *)
Fixpoint add_arg {W} (w : W) (c : cmd W) : cmd W :=
  match c with
  | Exec argv => Exec (argv ++ [w])
  | Redir c f m fd => Redir (add_arg w c) f m fd
  | c => c
  end.

Section parse.
Variable s : list Z.

(** [while(s < es && f( *s )) s++]. *)
Fixpoint skip (f : Z -> bool) (n : nat) (p : nat) : nat :=
  match n with
  | O => p
  | S n => if f (byte_at s p) then skip f n (S p) else p
  end.
Definition skip_while (f : Z -> bool) (p : nat) : nat := skip f (length s - p) p.

(** The character that ends a word. *)
Definition ends_word (c : Z) : bool := is_in whitespace c || is_in symbols c.

(** The token's kind, its start and its end. *)
Definition gettoken : M nat (Z * nat * nat) := fun p =>
  let q := skip_while (is_in whitespace) p in
  let c := byte_at s q in
  let '(ret, eq) :=
    if c =? 0 then (c, q)
    else if (c =? 124) || (c =? 40) || (c =? 41) || (c =? 59) || (c =? 38) || (c =? 60) then (c, S q)
    else if c =? 62 then (if byte_at s (S q) =? 62 then (43, S (S q)) else (c, S q))
    else (97, skip_while (fun c => negb (ends_word c)) q) in
  Done (ret, q, eq) (skip_while (is_in whitespace) eq).

Definition peek (toks : list Z) : M nat bool := fun p =>
  let q := skip_while (is_in whitespace) p in
  let c := byte_at s q in
  Done (negb (c =? 0) && is_in toks c) q.

Fixpoint parseredirs (fuel : nat) (c : cmd (nat * nat)) : M nat (cmd (nat * nat)) :=
  match fuel with
  | O => nofuel
  | S fuel =>
      let* more := peek [60; 62] in
      if negb more then ret c
      else
        let* (tok, _, _) := gettoken in
        let* (tok', q, eq) := gettoken in
        if negb (tok' =? 97) then panic "missing file for redirection"
        else
          parseredirs fuel
            (if tok =? 60 then Redir c (q, eq) O_RDONLY 0
             else if tok =? 62 then Redir c (q, eq) (Z.lor (Z.lor O_WRONLY O_CREATE) O_TRUNC) 1
             else if tok =? 43 then Redir c (q, eq) (Z.lor O_WRONLY O_CREATE) 1
             else c)
  end.

(** The loop of [parseexec] over the arguments. *)
Fixpoint args_loop (fuel : nat) (argc : nat) (c : cmd (nat * nat)) : M nat (cmd (nat * nat)) :=
  match fuel with
  | O => nofuel
  | S fuel =>
      let* stop := peek [124; 41; 38; 59] in
      if (stop : bool) then ret c
      else
        let* (tok, q, eq) := gettoken in
        if tok =? 0 then ret c
        else if negb (tok =? 97) then panic "syntax"
        else
          let c := add_arg (q, eq) c in
          if (MAXARGS <=? S argc)%nat then panic "too many args"
          else
            let* c := parseredirs fuel c in
            args_loop fuel (S argc) c
  end.

(** The loop of [parseline] over [&]. *)
Fixpoint back_loop (fuel : nat) (c : cmd (nat * nat)) : M nat (cmd (nat * nat)) :=
  match fuel with
  | O => nofuel
  | S fuel =>
      let* more := peek [38] in
      if negb more then ret c
      else gettoken ;; back_loop fuel (Back c)
  end.

Fixpoint parseline (fuel : nat) : M nat (cmd (nat * nat)) :=
  match fuel with
  | O => nofuel
  | S fuel =>
      let* c := parsepipe fuel in
      let* c := back_loop fuel c in
      let* more := peek [59] in
      if negb more then ret c
      else
        gettoken ;;
        let* r := parseline fuel in
        ret (CList c r)
  end
with parsepipe (fuel : nat) : M nat (cmd (nat * nat)) :=
  match fuel with
  | O => nofuel
  | S fuel =>
      let* c := parseexec fuel in
      let* more := peek [124] in
      if negb more then ret c
      else
        gettoken ;;
        let* r := parsepipe fuel in
        ret (Pipe c r)
  end
with parseexec (fuel : nat) : M nat (cmd (nat * nat)) :=
  match fuel with
  | O => nofuel
  | S fuel =>
      let* block := peek [40] in
      if (block : bool) then parseblock fuel
      else
        let* c := parseredirs fuel (Exec []) in
        args_loop fuel 0 c
  end
with parseblock (fuel : nat) : M nat (cmd (nat * nat)) :=
  match fuel with
  | O => nofuel
  | S fuel =>
      let* open := peek [40] in
      if negb open then panic "parseblock"
      else
        gettoken ;;
        let* c := parseline fuel in
        let* close := peek [41] in
        if negb close then panic "syntax - missing )"
        else gettoken ;; parseredirs fuel c
  end.

(** Every character is passed at most once by the loops, and at most four
    calls are nested between two characters. *)
Definition parse_fuel : nat := (4 * length s + 8)%nat.

(** [parsecmd] before [nulterminate]. *)
Definition parsecmd : M nat (cmd (nat * nat)) :=
  let* c := parseline parse_fuel in
  let* _ := peek [] in
  let* p := get in
  if negb (p =? length s)%nat then panic "syntax" else ret c.
End parse.

(** [nulterminate]: the line, with its terminating 0, after a 0 is stored at the
    end of every word. *)
Fixpoint nulterminate (c : cmd (nat * nat)) (m : list Z) : list Z :=
  match c with
  | Exec argv => foldl (fun m w => <[w.2 := 0]> m) m argv
  | Redir c f _ _ => <[f.2 := 0]> (nulterminate c m)
  | Pipe l r | CList l r => nulterminate r (nulterminate l m)
  | Back c => nulterminate c m
  end.

(** *** Printing *)

Fixpoint words {W} (c : cmd W) : list W :=
  match c with
  | Exec argv => argv
  | Redir c f _ _ => words c ++ [f]
  | Pipe l r | CList l r => words l ++ words r
  | Back c => words c
  end.

Fixpoint map_cmd {V W} (f : V -> W) (c : cmd V) : cmd W :=
  match c with
  | Exec argv => Exec (f <$> argv)
  | Redir c x m fd => Redir (map_cmd f c) (f x) m fd
  | Pipe l r => Pipe (map_cmd f l) (map_cmd f r)
  | CList l r => CList (map_cmd f l) (map_cmd f r)
  | Back c => Back (map_cmd f c)
  end.

(** The text of a word. *)
Definition text (s : list Z) (w : nat * nat) : list Z := take (w.2 - w.1) (drop w.1 s).

(** A line is printed as its tokens, each followed by a blank. *)
Definition spaced (toks : list (list Z)) : list Z := mjoin ((fun t => t ++ [32]) <$> toks).

Definition redir_sym (mode : Z) : list Z :=
  if mode =? O_RDONLY then [60] else if mode =? Z.lor (Z.lor O_WRONLY O_CREATE) O_TRUNC then [62] else [62; 62].

(** The tokens of a command as [parseexec] (level 0), [parsepipe] (1), the loop
    over [&] (2) and [parseline] (3) read it; a command of a higher level is put
    in parentheses. *)
Definition par (b : bool) (l : list (list Z)) : list (list Z) := if b then [40] :: l ++ [[41]] else l.

Fixpoint toks (level : nat) (c : cmd (list Z)) : list (list Z) :=
  match c with
  | Exec argv => argv
  | Redir c f m _ => toks 0 c ++ [redir_sym m; f]
  | Pipe l r => par (level <? 1)%nat (toks 0 l ++ [124] :: toks 1 r)
  | Back c => par (level <? 2)%nat (toks 2 c ++ [[38]])
  | CList l r => par (level <? 3)%nat (toks 2 l ++ [59] :: toks 3 r)
  end.

Definition print (c : cmd (list Z)) : list Z := spaced (toks 3 c).

(** Words the tokenizer keeps whole. *)
Definition word (w : list Z) : Prop := w <> [] /\ Forall (fun c => c <> 0 /\ ends_word c = false) w.

(** Commands a line can express. *)
Fixpoint expressible (c : cmd (list Z)) : Prop :=
  match c with
  | Exec argv => Forall word argv /\ (length argv < MAXARGS)%nat
  | Redir c f m fd =>
      expressible c /\ word f /\
      ((m = O_RDONLY /\ fd = 0) \/ (m = Z.lor (Z.lor O_WRONLY O_CREATE) O_TRUNC /\ fd = 1) \/
       (m = Z.lor O_WRONLY O_CREATE /\ fd = 1))
  | Pipe l r | CList l r => expressible l /\ expressible r
  | Back c => expressible c
  end.
