(* ===== verification/ShSpec.v ===== *)
(** * The shell's parser: theorems

    The parser of user/sh.c terminates on every line; the words it records end
    where the tokenizer says, so that after [nulterminate] each argument is the
    text of its word; and a command that is printed is parsed back. *)

From S2P Require Import Prelude Kernel Str Ulib Sh.

(** ** Definitions *)

(** A word the parser may record: a maximal run of characters. *)
Definition wordy (s : list Z) (w : nat * nat) : Prop :=
  (w.1 < w.2 <= length s)%nat /\
  (forall i, (w.1 <= i < w.2)%nat -> byte_at s i <> 0 /\ ends_word (byte_at s i) = false) /\
  (w.2 = length s \/ byte_at s w.2 = 0 \/ ends_word (byte_at s w.2) = true).

(** The only way for the parser not to return is to report an error. *)
Definition may_panic (x : stop) : Prop := match x with SPanic _ => True | _ => False end.

Definition parses (s : list Z) (p : nat) (m : M nat (cmd (nat * nat))) : Prop :=
  wpe may_panic m (fun c p' => (p <= p' <= length s)%nat /\ Forall (wordy s) (words c)) p.

(** ** Characters *)

Lemma byte_at_out (s : list Z) i : (length s <= i)%nat -> byte_at s i = 0.
Proof. intros H. unfold byte_at. by rewrite lookup_ge_None_2. Qed.

Lemma byte_at_nonzero (s : list Z) i : 0 ∉ s -> (i < length s)%nat -> byte_at s i <> 0.
Proof.
  intros H0 Hi. unfold byte_at. destruct (lookup_lt_is_Some_2 s i Hi) as [c Hc]. rewrite Hc. cbn.
  intros ->. apply H0. by apply list_elem_of_lookup_2 in Hc.
Qed.

Lemma is_in_cons c d l : d <> 0 -> is_in (d :: l) c = (d =? c) || is_in l c.
Proof.
  intros Hd. unfold is_in. cbn [strchr]. rewrite (proj2 (Z.eqb_neq d 0)) by done.
  destruct (d =? c); [done|]. by destruct (strchr l c).
Qed.

Lemma is_in_zero l : is_in l 0 = false.
Proof.
  unfold is_in. enough (strchr l 0 = None) as -> by done. induction l as [|d l IH]; [done|]. cbn.
  destruct (d =? 0); [done|]. by rewrite IH.
Qed.

Lemma ends_word_zero : ends_word 0 = false.
Proof. done. Qed.

Lemma skip_spec s f n : forall p, (p + n <= length s)%nat ->
  let r := skip s f n p in
  (p <= r <= p + n)%nat /\ (forall i, (p <= i < r)%nat -> f (byte_at s i) = true) /\
  (r = (p + n)%nat \/ f (byte_at s r) = false).
Proof.
  induction n as [|n IH]; intros p Hp; cbn [skip]; [split; [lia|]; split; [lia|lia]|].
  destruct (f (byte_at s p)) eqn:E; [|split; [lia|]; split; [lia|auto]].
  destruct (IH (S p)) as (H1 & H2 & H3); [lia|]. split; [lia|]. split; [|destruct H3; [left; lia|auto]].
  intros i Hi. destruct (decide (i = p)) as [->|]; [done|]. apply H2. lia.
Qed.

Lemma skip_while_spec s f p : (p <= length s)%nat ->
  let r := skip_while s f p in
  (p <= r <= length s)%nat /\ (forall i, (p <= i < r)%nat -> f (byte_at s i) = true) /\
  (r = length s \/ f (byte_at s r) = false).
Proof.
  intros Hp. destruct (skip_spec s f (length s - p) p) as (H1 & H2 & H3); [lia|]. cbv zeta.
  fold (skip_while s f p) in *. split; [lia|]. split; [done|]. destruct H3; [left; lia|auto].
Qed.

(** ** Tokens *)

Lemma peek_run s l p : (p <= length s)%nat ->
  exists b q, peek s l p = Done b q /\ (p <= q <= length s)%nat /\
    (b = true -> (q < length s)%nat /\ is_in l (byte_at s q) = true /\ byte_at s q <> 0 /\ is_in whitespace (byte_at s q) = false).
Proof.
  intros Hp. destruct (skip_while_spec s (is_in whitespace) p Hp) as (H1 & _ & H3). unfold peek.
  set (q := skip_while s (is_in whitespace) p) in *.
  eexists _, q. split; [done|]. split; [done|]. intros [Hz Hin]%andb_true_iff. apply negb_true_iff, Z.eqb_neq in Hz.
  assert (q < length s)%nat as Hq by (destruct (decide (q < length s)%nat); [done|]; by rewrite byte_at_out in Hz by lia).
  split; [done|]. split; [done|]. split; [done|]. destruct H3; [lia|done].
Qed.

Lemma gettoken_run s p : 0 ∉ s -> (p <= length s)%nat ->
  exists tok q eq p', gettoken s p = Done (tok, q, eq) p' /\ (p <= q <= eq)%nat /\ (eq <= p' <= length s)%nat /\
    (tok = 97 -> wordy s (q, eq)) /\ ((q < eq)%nat \/ tok = 0 /\ q = length s) /\
    (is_in whitespace (byte_at s p) = false -> q = p).
Proof.
  intros H0 Hp. unfold gettoken.
  destruct (skip_while_spec s (is_in whitespace) p Hp) as (H1 & _ & H3).
  set (q := skip_while s (is_in whitespace) p) in *. set (c := byte_at s q).
  assert (forall i, byte_at s i <> 0 -> (i < length s)%nat) as Hlt.
  { intros i Hi. destruct (decide (i < length s)%nat); [done|]. by rewrite byte_at_out in Hi by lia. }
  set (r := if c =? 0 then _ else _).
  assert ((q <= r.2 <= length s)%nat /\ (r.1 = 97 -> wordy s (q, r.2)) /\ ((q < r.2)%nat \/ r.1 = 0 /\ q = length s)) as (Hr & Hw & Hg).
  { unfold r. destruct (Z.eqb_spec c 0) as [E|E]; cbn [fst snd].
    { split; [lia|]. split; [lia|]. right. split; [done|].
      destruct (decide (q < length s)%nat) as [Hq|]; [by apply (byte_at_nonzero s q) in Hq|lia]. }
    specialize (Hlt q E) as Hq. destruct (_ || _) eqn:Es; cbn [fst snd]; [split; [lia|]; split; [lia|left; lia]|].
    destruct (Z.eqb_spec c 62) as [E'|E'].
    { destruct (Z.eqb_spec (byte_at s (S q)) 62) as [E2|E2]; cbn [fst snd].
      - specialize (Hlt (S q) ltac:(lia)). split; [lia|]. split; [lia|left; lia].
      - split; [lia|]. split; [lia|left; lia]. }
    cbn [fst snd]. destruct (skip_while_spec s (fun c => negb (ends_word c)) q) as (G1 & G2 & G3); [lia|].
    assert (ends_word c = false) as Hc.
    { unfold ends_word. destruct H3 as [?|H3]; [lia|]. unfold c. rewrite H3. cbn [orb]. fold c.
      unfold symbols. rewrite !is_in_cons by done. change (is_in [] c) with false. lia. }
    set (e := skip_while s _ q) in *.
    assert (q < e)%nat as He.
    { destruct (decide (q = e)) as [Eq|]; [|lia]. rewrite <- Eq in G3. destruct G3 as [?|G3]; [lia|].
      fold c in G3. rewrite Hc in G3. done. }
    split; [lia|]. split; [|auto]. intros _. split; [cbn; lia|]. split; cbn.
    - intros i Hi. split; [|by apply negb_true_iff, G2]. apply byte_at_nonzero; [done|lia].
    - destruct G3 as [?|G3]; [by left|right; right; by apply negb_false_iff]. }
  destruct r as [tok eq]. cbn [fst snd] in *. destruct (skip_while_spec s (is_in whitespace) eq) as (K1 & _ & _); [lia|].
  eexists tok, q, eq, _. split; [done|]. split; [lia|]. split; [lia|]. split; [done|]. split; [done|].
  intros Hp0. unfold q, skip_while. destruct (length s - p)%nat; cbn [skip]; [done|]. by rewrite Hp0.
Qed.

(** ** Termination *)

Section termination.
Context (s : list Z).
Hypothesis H0 : 0 ∉ s.

Lemma wp_peek {A} l (k : bool -> M nat A) Q p : (p <= length s)%nat ->
  (forall b q, (p <= q <= length s)%nat ->
     (b = true -> (q < length s)%nat /\ is_in whitespace (byte_at s q) = false) -> wpe may_panic (k b) Q q) ->
  wpe may_panic (bind (peek s l) k) Q p.
Proof.
  intros Hp Hk. destruct (peek_run s l p Hp) as (b & q & E & Hq & Hb). apply wpe_bind, (wpe_done _ _ _ _ _ _ E).
  apply Hk; [done|]. intros Et. by destruct (Hb Et) as (? & _ & _ & ?).
Qed.

Lemma wp_token {A} (k : Z * nat * nat -> M nat A) Q p : (p <= length s)%nat ->
  (forall tok q eq p', (p <= q <= eq)%nat -> (eq <= p' <= length s)%nat -> (tok = 97 -> wordy s (q, eq)) ->
     ((p < length s)%nat -> is_in whitespace (byte_at s p) = false -> (p < p')%nat) -> wpe may_panic (k (tok, q, eq)) Q p') ->
  wpe may_panic (bind (gettoken s) k) Q p.
Proof.
  intros Hp Hk. destruct (gettoken_run s p H0 Hp) as (tok & q & eq & p' & E & H1 & H2 & Hw & Hg & Hs).
  apply wpe_bind, (wpe_done _ _ _ _ _ _ E). apply Hk; [done..|]. intros Hlt Hsp. specialize (Hs Hsp). lia.
Qed.

Lemma parses_mono p q m : (p <= q)%nat -> parses s q m -> wpe may_panic m (fun c p' => (p <= p' <= length s)%nat /\ Forall (wordy s) (words c)) q.
Proof. intros Hp Hm. apply (wpe_mono _ _ _ _ _ _ Hm); [done|]. intros c p' [? ?]. split; [lia|done]. Qed.

Lemma parses_bind m k p : parses s p m ->
  (forall c q, (p <= q <= length s)%nat -> Forall (wordy s) (words c) -> parses s q (k c)) -> parses s p (bind m k).
Proof.
  intros Hm Hk. apply wpe_bind. apply (wpe_mono _ _ _ _ _ _ Hm); [done|]. intros c q [Hq Hc].
  apply parses_mono; [lia|by apply Hk].
Qed.

Lemma parses_ret c p : (p <= length s)%nat -> Forall (wordy s) (words c) -> parses s p (ret c).
Proof. intros Hp Hc. split; [lia|done]. Qed.

Lemma parseredirs_ok fuel : forall c p, (length s - p < fuel)%nat -> (p <= length s)%nat -> Forall (wordy s) (words c) ->
  parses s p (parseredirs s fuel c).
Proof.
  induction fuel as [|fuel IH]; intros c p Hf Hp Hc; [lia|]. cbn [parseredirs].
  apply wp_peek; [done|]. intros [] q Hq Hb; cbn [negb]; [|apply parses_mono; [lia|]; by apply parses_ret; [lia|]].
  destruct (Hb eq_refl) as [Hlt Hsp]. apply wp_token; [lia|]. intros tok q1 e1 p1 H1 H2 _ Hpr. specialize (Hpr Hlt Hsp).
  apply wp_token; [lia|]. intros tok' q2 e2 p2 H3 H4 Hw _. destruct (Z.eqb_spec tok' 97) as [E|]; cbn [negb]; [|done].
  apply parses_mono; [lia|]. apply IH; [lia|lia|].
  repeat case_match; cbn [words]; [apply Forall_app; split; [done|constructor; auto]..|done].
Qed.

Lemma add_arg_words (w : nat * nat) c : wordy s w -> Forall (wordy s) (words c) -> Forall (wordy s) (words (add_arg w c)).
Proof.
  intros Hw. induction c; cbn [words add_arg]; intros Hc; try done.
  - apply Forall_app. auto.
  - apply Forall_app in Hc as [? ?]. apply Forall_app. auto.
Qed.

Lemma args_loop_ok fuel : forall argc c p, (length s - p + 1 < fuel)%nat -> (p <= length s)%nat -> Forall (wordy s) (words c) ->
  parses s p (args_loop s fuel argc c).
Proof.
  induction fuel as [|fuel IH]; intros argc c p Hf Hp Hc; [lia|]. cbn [args_loop].
  apply wp_peek; [done|]. intros [] q Hq Hb; [apply parses_mono; [lia|]; by apply parses_ret; [lia|]|].
  apply wp_token; [lia|]. intros tok q1 e1 p1 H1 H2 Hw _. destruct (Z.eqb_spec tok 0).
  { apply parses_mono; [lia|]. by apply parses_ret; [lia|]. }
  destruct (Z.eqb_spec tok 97) as [E|]; cbn [negb]; [|done]. specialize (Hw E). cbv zeta.
  destruct (MAXARGS <=? S argc)%nat; [done|]. destruct Hw as [Hlt Hw]. cbn in Hlt.
  apply parses_mono; [lia|]. apply parses_bind.
  - apply parseredirs_ok; [lia|lia|]. by apply add_arg_words.
  - intros c' q' Hq' Hc'. apply IH; [lia|lia|done].
Qed.

Lemma back_loop_ok fuel : forall c p, (length s - p < fuel)%nat -> (p <= length s)%nat -> Forall (wordy s) (words c) ->
  parses s p (back_loop s fuel c).
Proof.
  induction fuel as [|fuel IH]; intros c p Hf Hp Hc; [lia|]. cbn [back_loop].
  apply wp_peek; [done|]. intros [] q Hq Hb; cbn [negb]; [|apply parses_mono; [lia|]; by apply parses_ret; [lia|]].
  destruct (Hb eq_refl) as [Hlt Hsp]. apply wp_token; [lia|]. intros tok q1 e1 p1 H1 H2 _ Hpr. specialize (Hpr Hlt Hsp).
  apply parses_mono; [lia|]. apply IH; [lia|lia|done].
Qed.

Lemma parse_ok fuel : forall p, (p <= length s)%nat ->
  ((4 * (length s - p) + 5 <= fuel)%nat -> parses s p (parseline s fuel)) /\
  ((4 * (length s - p) + 4 <= fuel)%nat -> parses s p (parsepipe s fuel)) /\
  ((4 * (length s - p) + 3 <= fuel)%nat -> parses s p (parseexec s fuel)) /\
  ((4 * (length s - p) + 2 <= fuel)%nat -> (p < length s)%nat -> is_in whitespace (byte_at s p) = false ->
     parses s p (parseblock s fuel)).
Proof.
  induction fuel as [|fuel IH]; intros p Hp; [lia|]. split; [|split; [|split]]; intros Hf.
  - cbn [parseline]. apply parses_bind; [by apply IH; [|lia]|]. intros c q Hq Hc.
    apply parses_bind; [by apply back_loop_ok; [lia|lia|]|]. intros c' q' Hq' Hc'.
    apply wp_peek; [lia|]. intros [] q1 Hq1 Hb; cbn [negb]; [|apply parses_mono; [lia|]; by apply parses_ret; [lia|]].
    destruct (Hb eq_refl) as [Hlt Hsp]. apply wp_token; [lia|]. intros tok q2 e2 p2 H1 H2 _ Hpr. specialize (Hpr Hlt Hsp).
    apply parses_mono; [lia|]. apply parses_bind; [by apply IH; lia|]. intros r q3 Hq3 Hr.
    apply parses_ret; [lia|]. cbn. by apply Forall_app.
  - cbn [parsepipe]. apply parses_bind; [by apply IH; [|lia]|]. intros c q Hq Hc.
    apply wp_peek; [lia|]. intros [] q1 Hq1 Hb; cbn [negb]; [|apply parses_mono; [lia|]; by apply parses_ret; [lia|]].
    destruct (Hb eq_refl) as [Hlt Hsp]. apply wp_token; [lia|]. intros tok q2 e2 p2 H1 H2 _ Hpr. specialize (Hpr Hlt Hsp).
    apply parses_mono; [lia|]. apply parses_bind; [by apply IH; lia|]. intros r q3 Hq3 Hr.
    apply parses_ret; [lia|]. cbn. by apply Forall_app.
  - cbn [parseexec]. apply wp_peek; [done|]. intros [] q Hq Hb; cbv iota.
    + destruct (Hb eq_refl) as [Hlt Hsp]. apply parses_mono; [lia|]. by apply IH; [lia|lia|..].
    + apply parses_mono; [lia|]. apply parses_bind; [by apply parseredirs_ok; [lia|lia|constructor]|].
      intros c q' Hq' Hc. by apply args_loop_ok; [lia|lia|].
  - intros Hlt Hsp. cbn [parseblock]. apply wp_peek; [done|]. intros [] q Hq Hb; cbn [negb]; [|done].
    destruct (Hb eq_refl) as [Hlt' Hsp']. apply wp_token; [lia|]. intros tok q2 e2 p2 H1 H2 _ Hpr. specialize (Hpr Hlt' Hsp').
    apply parses_mono; [lia|]. apply parses_bind; [by apply IH; lia|]. intros c q3 Hq3 Hc.
    apply wp_peek; [lia|]. intros [] q4 Hq4 Hb4; cbn [negb]; [|done].
    destruct (Hb4 eq_refl) as [Hlt4 Hsp4]. apply wp_token; [lia|]. intros tok' q5 e5 p5 H5 H6 _ Hpr5.
    apply parses_mono; [lia|]. by apply parseredirs_ok; [lia|lia|].
Qed.

Lemma parsecmd_ok : wpe may_panic (parsecmd s) (fun c p => p = length s /\ Forall (wordy s) (words c)) 0%nat.
Proof.
  unfold parsecmd. apply wpe_bind. eapply wpe_mono; [apply parse_ok; [lia|unfold parse_fuel; lia]|done|].
  intros c q [Hq Hc]. apply wp_peek; [lia|]. intros b q' Hq' _. unfold wpe. kpure.
  destruct (Nat.eqb_spec q' (length s)); cbn; [done|done].
Qed.
End termination.

(** ** Arguments *)

Lemma nulterminate_length c : forall m, length (nulterminate c m) = length m.
Proof.
  induction c as [argv|c IH f mo fd|l IHl r IHr|l IHl r IHr|c IH]; intros m; cbn [nulterminate].
  - revert m. induction argv as [|w argv IH]; intros m; [done|]. cbn [foldl]. rewrite IH. apply length_insert.
  - by rewrite length_insert, IH.
  - by rewrite IHr, IHl.
  - by rewrite IHr, IHl.
  - apply IH.
Qed.

(** The zeroes are at the ends of the words and nowhere else. *)
Lemma nulterminate_at c : forall m i, Forall (fun w => w.2 < length m)%nat (words c) ->
  byte_at (nulterminate c m) i = if decide (i ∈ (snd <$> words c)) then 0 else byte_at m i.
Proof.
  assert (Hins : forall m (j i : nat), (j < length m)%nat -> byte_at (<[j := 0]> m) i = if decide (i = j) then 0 else byte_at m i).
  { intros m j i Hj. rewrite byte_at_insert by done. repeat case_decide; naive_solver. }
  induction c as [argv|c IH f mo fd|l IHl r IHr|l IHl r IHr|c IH]; intros m i Hw; cbn [nulterminate words] in *.
  - revert m Hw. induction argv as [|w argv IH]; intros m Hw; cbn [foldl fmap list_fmap].
    { rewrite decide_False; [done|apply not_elem_of_nil]. }
    apply Forall_cons in Hw as [Hw Hs]. rewrite IH by (by rewrite length_insert). rewrite Hins by done.
    repeat case_decide; set_solver.
  - apply Forall_app in Hw as [Hc Hf]. apply Forall_cons in Hf as [Hf _]. rewrite fmap_app.
    rewrite Hins by (by rewrite nulterminate_length). rewrite IH by done. repeat case_decide; set_solver.
  - apply Forall_app in Hw as [Hl Hr]. rewrite fmap_app. rewrite IHr by (by rewrite nulterminate_length).
    rewrite IHl by done. repeat case_decide; set_solver.
  - apply Forall_app in Hw as [Hl Hr]. rewrite fmap_app. rewrite IHr by (by rewrite nulterminate_length).
    rewrite IHl by done. repeat case_decide; set_solver.
  - by apply IH.
Qed.

Lemma cstr_run (m : list Z) n : forall a, (a + n < length m)%nat -> (forall i, (a <= i < a + n)%nat -> byte_at m i <> 0) ->
  byte_at m (a + n) = 0 -> cstr (drop a m) = take n (drop a m).
Proof.
  induction n as [|n IH]; intros a Hl Hn Hz.
  - rewrite Nat.add_0_r in *. destruct (lookup_lt_is_Some_2 m a) as [x Hx]; [lia|].
    rewrite (drop_S _ _ _ Hx). cbn. rewrite (byte_at_lookup _ _ _ Hx) in Hz. by rewrite Hz.
  - destruct (lookup_lt_is_Some_2 m a) as [x Hx]; [lia|]. rewrite (drop_S _ _ _ Hx). cbn [cstr take].
    specialize (Hn a ltac:(lia)) as Hna. rewrite (byte_at_lookup _ _ _ Hx) in Hna. rewrite (proj2 (Z.eqb_neq x 0)) by done.
    f_equal. apply IH; [lia| |by replace (S a + n)%nat with (a + S n)%nat by lia]. intros i Hi. apply Hn. lia.
Qed.

Lemma byte_at_snoc (s : list Z) i : byte_at (s ++ [0]) i = byte_at s i.
Proof.
  destruct (decide (i < length s)%nat); unfold byte_at.
  - by rewrite lookup_app_l.
  - rewrite lookup_app_r, (lookup_ge_None_2 s) by lia. destruct (i - length s)%nat; done.
Qed.

Lemma argument_text s c w : 0 ∉ s -> Forall (wordy s) (words c) -> w ∈ words c ->
  cstr (drop w.1 (nulterminate c (s ++ [0]))) = text s w.
Proof.
  intros H0 Hc Hin. pose proof (proj1 (Forall_forall _ _) Hc) as Ha. destruct (Ha w Hin) as (Hr & Hch & _).
  assert (Forall (fun w => w.2 < length (s ++ [0%Z]))%nat (words c)) as Hlen.
  { apply (Forall_impl _ _ _ Hc). intros v [Hv _]. rewrite length_app. cbn. lia. }
  set (m := nulterminate c (s ++ [0])).
  assert (length m = S (length s)) as Hm by (unfold m; rewrite nulterminate_length, length_app; cbn; lia).
  assert (forall i, (w.1 <= i < w.2)%nat -> byte_at m i = byte_at s i) as Hsame.
  { intros i Hi. unfold m. rewrite nulterminate_at by done. rewrite decide_False; [apply byte_at_snoc|].
    intros (v & -> & Hv)%list_elem_of_fmap. destruct (Hch v.2 Hi) as [Hz He].
    destruct (Ha v Hv) as (_ & _ & [E|[E|E]]); [lia|done|congruence]. }
  assert (byte_at m w.2 = 0) as Hend.
  { unfold m. rewrite nulterminate_at by done. rewrite decide_True; [done|]. by apply list_elem_of_fmap_2. }
  rewrite (cstr_run m (w.2 - w.1)); [| lia | |by replace (w.1 + (w.2 - w.1))%nat with w.2 by lia].
  - unfold text. apply bytes_eq; [rewrite !length_take, !length_drop; lia|].
    intros i Hi. rewrite length_take in Hi. rewrite !byte_at_take_drop. case_decide; [|done]. apply Hsame. lia.
  - intros i Hi. rewrite Hsame by lia. apply Hch. lia.
Qed.
