(* ===== verification/ShRound.v ===== *)
(** * The shell's parser reads back what is printed

    user/sh.c: [parsecmd] on the printed form of a command gives the command. *)

From S2P Require Import Prelude Kernel Str Ulib Sh ShSpec.

(** ** Definitions *)

(** What the tokenizer returns whole. *)
Definition token (t : list Z) : Prop := word t \/ t = [62; 62] \/ exists c, t = [c] /\ is_in symbols c = true.

Definition tok_kind (t : list Z) : Z :=
  match t with
  | [c] => if is_in symbols c then c else 97
  | [c; d] => if (c =? 62) && (d =? 62) then 43 else 97
  | _ => 97
  end.

(** The first character of the tokens that follow. *)
Definition hd_char (ts : list (list Z)) : Z := match ts with (c :: _) :: _ => c | _ => 0 end.

(** Redirections, and their tokens. *)
Definition redir : Type := list Z * Z * Z.
Definition redir_ok (r : redir) : Prop :=
  let '(f, m, fd) := r in
  word f /\ ((m = O_RDONLY /\ fd = 0) \/ (m = Z.lor (Z.lor O_WRONLY O_CREATE) O_TRUNC /\ fd = 1) \/
             (m = Z.lor O_WRONLY O_CREATE /\ fd = 1)).
Definition rtoks (rs : list redir) : list (list Z) := mjoin ((fun '(f, m, _) => [redir_sym m; f]) <$> rs).
Definition redirs (c : cmd (list Z)) (rs : list redir) : cmd (list Z) :=
  foldl (fun c '(f, m, fd) => Redir c f m fd) c rs.

(** What may come after a command. *)
Definition ends_exec (ts : list (list Z)) : Prop := ts = [] \/ is_in [124; 41; 38; 59] (hd_char ts) = true.
Definition ends_pipe (ts : list (list Z)) : Prop := ts = [] \/ is_in [41; 38; 59] (hd_char ts) = true.
Definition ends_line (ts : list (list Z)) : Prop := ts = [] \/ hd_char ts = 41.

(** ** Tokens *)

Lemma is_in_app l l' c : is_in l c = true -> 0 ∉ l -> is_in (l ++ l') c = true.
Proof.
  unfold is_in. induction l as [|d l IH]; [done|]. cbn [strchr app]. intros H H0.
  destruct (Z.eqb_spec d 0) as [->|]; [set_solver|]. destruct (d =? c); [done|].
  destruct (strchr l c) eqn:E; [|done]. specialize (IH eq_refl ltac:(set_solver)). by destruct (strchr (l ++ l') c).
Qed.

Lemma is_in_elem l c : is_in l c = true -> c ∈ l /\ c <> 0.
Proof.
  unfold is_in. induction l as [|d l IH]; [done|]. cbn [strchr].
  destruct (Z.eqb_spec d 0) as [->|]; [done|]. destruct (Z.eqb_spec d c) as [->|]; [set_solver|].
  destruct (strchr l c); [|done]. intros _. destruct (IH eq_refl). set_solver.
Qed.

(** A symbol is not a blank. *)
Lemma symbol_cases c : is_in symbols c = true ->
  c = 60 \/ c = 124 \/ c = 62 \/ c = 38 \/ c = 59 \/ c = 40 \/ c = 41.
Proof. intros [H _]%is_in_elem. unfold symbols in H. set_solver. Qed.

Lemma token_head t : token t -> exists c t', t = c :: t' /\ c <> 0 /\ is_in whitespace c = false.
Proof.
  intros [[Hn Hf]|[->|(c & -> & Hc)]].
  - destruct t as [|c t']; [done|]. apply Forall_cons in Hf as [[Hz He] _]. exists c, t'. split; [done|]. split; [done|].
    unfold ends_word in He. by apply orb_false_iff in He as [? _].
  - by exists 62, [62].
  - exists c, []. split; [done|]. apply symbol_cases in Hc. by destruct Hc as [->|[->|[->|[->|[->|[->| ->]]]]]].
Qed.

Lemma hd_char_token ts : Forall token ts -> ts <> [] -> hd_char ts <> 0 /\ is_in whitespace (hd_char ts) = false.
Proof. intros [|t ts' Ht _] Hn; [done|]. destruct (token_head t Ht) as (c & t' & -> & Hz & Hw). done. Qed.

(** Tokens as they end a line: the last one is followed by a blank and the
    white space [tail]. *)
Definition ended (tail : list Z) (ts : list (list Z)) : list Z := match ts with [] => [] | _ => spaced ts ++ tail end.

Section at_tokens.
Context (s tail : list Z).
Hypothesis Htail : Forall (fun c => is_in whitespace c = true) tail.

Lemma byte_at_drop p c u : drop p s = c :: u -> byte_at s p = c.
Proof. intros H. apply byte_at_lookup. rewrite <- (Nat.add_0_r p), <- lookup_drop, H. done. Qed.

Lemma drop_drop_app p a u : drop p s = a ++ u -> drop (p + length a) s = u.
Proof. intros H. by rewrite <- drop_drop, H, drop_app_length. Qed.

(** Skipping stops exactly after the characters that are to be skipped. *)
Lemma skip_exact f a : forall p u, drop p s = a ++ u -> Forall (fun c => f c = true) a ->
  match u with [] => True | c :: _ => f c = false end -> skip_while s f p = (p + length a)%nat.
Proof.
  unfold skip_while. induction a as [|c a IH]; intros p u Hd Ha Hu.
  - cbn in Hd. cbn [length]. rewrite Nat.add_0_r. assert (length s - p = length u)%nat as -> by (by rewrite <- length_drop, Hd).
    destruct u as [|d u]; [done|]. cbn [length skip]. by rewrite (byte_at_drop _ _ _ Hd), Hu.
  - apply Forall_cons in Ha as [Hc Ha]. cbn [app] in Hd.
    assert (length s - p = S (length (a ++ u)))%nat as El by (rewrite <- length_drop, Hd; done).
    rewrite El. cbn [skip length]. rewrite (byte_at_drop _ _ _ Hd), Hc.
    replace (length (a ++ u)) with (length s - S p)%nat by lia. rewrite (IH (S p) u); [lia| |done|done].
    replace (S p) with (p + length [c])%nat by (cbn; lia). by apply drop_drop_app.
Qed.

Lemma spaced_cons t ts : spaced (t :: ts) = t ++ 32 :: spaced ts.
Proof. unfold spaced. cbn. by rewrite <- app_assoc. Qed.

(** What follows a token and its blank. *)
Definition following (ts : list (list Z)) : list Z := match ts with [] => tail | _ => ended tail ts end.

Lemma ended_cons t ts : ended tail (t :: ts) = t ++ 32 :: following ts.
Proof.
  unfold ended, following. rewrite spaced_cons, <- (assoc_L (++)). cbn [app]. by destruct ts.
Qed.

Lemma skip_none p ts : drop p s = ended tail ts -> Forall token ts -> skip_while s (is_in whitespace) p = p.
Proof.
  intros Hd Ht. rewrite (skip_exact _ [] p (ended tail ts)); [cbn; lia|done|constructor|].
  destruct Ht as [|t ts Ht _]; [done|]. rewrite ended_cons. by destruct (token_head t Ht) as (c & t' & -> & _ & Hw).
Qed.

Lemma byte_at_hd p ts : drop p s = ended tail ts -> Forall token ts -> byte_at s p = hd_char ts.
Proof.
  intros Hd Ht. destruct Ht as [|t ts Ht _].
  - apply byte_at_out. apply (f_equal length) in Hd. rewrite length_drop in Hd. cbn in Hd. lia.
  - destruct (token_head t Ht) as (c & t' & -> & _). rewrite ended_cons in Hd. by apply (byte_at_drop _ _ _ Hd).
Qed.

Lemma peek_at l p ts : drop p s = ended tail ts -> Forall token ts -> peek s l p = Done (is_in l (hd_char ts)) p.
Proof.
  intros Hd Ht. unfold peek. rewrite (skip_none p ts), (byte_at_hd p ts) by done.
  destruct (Z.eqb_spec (hd_char ts) 0) as [->|]; [by rewrite is_in_zero|done].
Qed.

Lemma text_at p t u : drop p s = t ++ u -> text s (p, (p + length t)%nat) = t.
Proof.
  intros Hd. unfold text. cbn [fst snd]. replace (p + length t - p)%nat with (length t) by lia.
  rewrite Hd. by rewrite take_app_length.
Qed.

Lemma gettoken_nil p : drop p s = ended tail [] -> exists e, gettoken s p = Done (0, p, e) e /\ drop e s = [].
Proof.
  intros Hd. unfold gettoken. rewrite (skip_none p []), (byte_at_hd p []) by (done || constructor). cbn [hd_char].
  change (0 =? 0) with true. cbv beta iota. rewrite (skip_none p []) by (done || constructor). by exists p.
Qed.

(** After a token the white space is skipped. *)
Lemma after_token e ts : drop e s = 32 :: following ts -> Forall token ts ->
  exists q, skip_while s (is_in whitespace) e = q /\ drop q s = ended tail ts.
Proof using Htail.
  intros He Hts. set (a := 32 :: match ts with [] => tail | _ => [] end).
  assert (drop e s = a ++ ended tail ts) as Ha by (rewrite He; unfold a, following; destruct ts; cbn; by rewrite ?app_nil_r).
  exists (e + length a)%nat. split; [|by apply drop_drop_app]. apply (skip_exact _ a _ (ended tail ts)); [done| |].
  - unfold a. constructor; [done|]. by destruct ts.
  - destruct Hts as [|t ts Ht _]; [done|]. rewrite ended_cons. by destruct (token_head t Ht) as (c & t' & -> & _ & ?).
Qed.

Lemma gettoken_at p t ts : drop p s = ended tail (t :: ts) -> token t -> Forall token ts ->
  exists q, gettoken s p = Done (tok_kind t, p, (p + length t)%nat) q /\ drop q s = ended tail ts /\
    text s (p, (p + length t)%nat) = t.
Proof using Htail.
  intros Hd Ht Hts. pose proof Hd as Hd0. rewrite ended_cons in Hd. pose proof (drop_drop_app _ _ _ Hd) as He.
  destruct (after_token _ _ He Hts) as (q & Hsk & Hq).
  exists q. split; [|split; [done|by apply (text_at _ _ (32 :: following ts))]].
  unfold gettoken. rewrite (skip_none p (t :: ts)) by (done || by constructor).
  destruct (token_head t Ht) as (c & t' & Et & Hz & Hw).
  assert (byte_at s p = c) as -> by (apply (byte_at_drop _ _ (t' ++ 32 :: following ts)); by rewrite Hd, Et).
  rewrite (proj2 (Z.eqb_neq c 0)) by done.
  destruct Ht as [[Hne Hf]|[->|(c' & -> & Hc)]].
  - assert (ends_word c = false) as Hc by (rewrite Et in Hf; apply Forall_cons in Hf as [[_ ?] _]; done).
    assert (is_in symbols c = false) as Hs by (unfold ends_word in Hc; by apply orb_false_iff in Hc as [_ ?]).
    pose proof Hs as Hs'. unfold symbols in Hs. rewrite !is_in_cons in Hs by done.
    destruct ((c =? 124) || (c =? 40) || (c =? 41) || (c =? 59) || (c =? 38) || (c =? 60)) eqn:E; [lia|].
    destruct (Z.eqb_spec c 62); [lia|]. cbv beta iota.
    rewrite (skip_exact _ t p (32 :: following ts)); [|done| |done].
    2:{ apply (Forall_impl _ _ _ Hf). intros d [_ ->]. done. }
    rewrite Hsk. do 3 f_equal. unfold tok_kind. rewrite Et in *. destruct t' as [|d [|]]; [|by (destruct (Z.eqb_spec c 62))|done].
    by rewrite Hs'.
  - injection Et as <- <-. change (62 =? 62) with true. cbn [orb Z.eqb Pos.eqb].
    rewrite (byte_at_drop (S p) 62 (32 :: following ts)); [|replace (S p) with (p + length [62%Z])%nat by (cbn; lia); by apply drop_drop_app].
    cbn [length] in *. replace (S (S p)) with (p + 2)%nat by lia. rewrite Z.eqb_refl. by rewrite Hsk.
  - injection Et as <- <-. cbn [length] in *. replace (S p) with (p + 1)%nat by lia.
    assert (byte_at s (p + 1) = 32) as Hsp by (by apply (byte_at_drop _ _ (following ts))).
    unfold tok_kind. rewrite Hc. apply symbol_cases in Hc.
    destruct Hc as [->|[->|[->|[->|[->|[->| ->]]]]]]; cbn [orb Z.eqb Pos.eqb]; rewrite ?Hsp; cbn [Z.eqb Pos.eqb]; by rewrite Hsk.
Qed.
End at_tokens.

(** ** Redirections and arguments *)

Lemma redir_sym_token m : token (redir_sym m).
Proof. unfold redir_sym. repeat case_match; [right; right; by exists 60|right; right; by exists 62|by right; left]. Qed.

Lemma rtoks_tokens rs : Forall redir_ok rs -> Forall token (rtoks rs).
Proof.
  induction 1 as [|[[f m] fd] rs [Hf _] _ IH]; [constructor|]. cbn.
  constructor; [apply redir_sym_token|]. constructor; [by left|done].
Qed.

Lemma rtoks_cons f m fd rs : rtoks ((f, m, fd) :: rs) = redir_sym m :: f :: rtoks rs.
Proof. done. Qed.

Lemma length_rtoks rs : length (rtoks rs) = (2 * length rs)%nat.
Proof. induction rs as [|[[f m] fd] rs IH]; [done|]. rewrite rtoks_cons. cbn [length]. lia. Qed.

Lemma word_kind w : word w -> tok_kind w = 97.
Proof.
  intros [Hn Hf]. unfold tok_kind. destruct w as [|c [|d [|]]]; try done.
  - apply Forall_cons in Hf as [[_ He] _]. unfold ends_word in He. apply orb_false_iff in He as [_ ->]. done.
  - apply Forall_cons in Hf as [[_ He] _]. destruct (Z.eqb_spec c 62) as [->|]; done.
Qed.

Lemma word_head w ts l : word w -> (forall c, is_in l c = true -> ends_word c = true) -> is_in l (hd_char (w :: ts)) = false.
Proof.
  intros [Hn Hf] Hl. destruct w as [|c w]; [done|]. apply Forall_cons in Hf as [[_ He] _]. cbn.
  destruct (is_in l c) eqn:E; [|done]. apply Hl in E. congruence.
Qed.

Lemma symbol_list l : (forall c, c ∈ l -> is_in symbols c = true) -> forall c, is_in l c = true -> ends_word c = true.
Proof. intros Hl c [Hc _]%is_in_elem. unfold ends_word. by rewrite (Hl c Hc), orb_true_r. Qed.

Ltac symbols := apply symbol_list; intros ? ?; set_unfold; naive_solver.

Lemma ends_exec_redir ts : Forall token ts -> ends_exec ts -> is_in [60; 62] (hd_char ts) = false.
Proof.
  intros _ [->|H]; [done|]. apply is_in_elem in H as [H _].
  assert (hd_char ts = 124 \/ hd_char ts = 41 \/ hd_char ts = 38 \/ hd_char ts = 59) as [E|[E|[E|E]]] by set_solver;
    by rewrite E.
Qed.

Section at_commands.
Context (s tail : list Z).
Hypothesis Htail : Forall (fun c => is_in whitespace c = true) tail.

(** The parse at [p] of tokens that are followed by [ts]: it gives the command
    [c] and stops at [ts]. *)
Definition reads (m : M nat (cmd (nat * nat))) (p : nat) (c : cmd (list Z)) (ts : list (list Z)) : Prop :=
  exists c' p', m p = Done c' p' /\ map_cmd (text s) c' = c /\ drop p' s = ended tail ts.

Lemma reads_ret c' p c ts : map_cmd (text s) c' = c -> drop p s = ended tail ts -> reads (ret c') p c ts.
Proof. intros Hc Hd. by exists c', p. Qed.

Lemma parseredirs_at rs : forall fuel c' p ts, (length rs < fuel)%nat -> drop p s = ended tail (rtoks rs ++ ts) ->
  Forall redir_ok rs -> Forall token ts -> is_in [60; 62] (hd_char ts) = false ->
  reads (parseredirs s fuel c') p (redirs (map_cmd (text s) c') rs) ts.
Proof.
  induction rs as [|[[f m] fd] rs IH]; intros fuel c' p ts Hf Hd Hrs Hts He; (destruct fuel as [|fuel]; [lia|]); cbn [parseredirs].
  - unfold reads. rewrite (bind_done _ _ _ _ _ (peek_at s tail [60; 62] p ts Hd Hts)), He. cbn [negb]. by apply reads_ret.
  - apply Forall_cons in Hrs as [Hr Hrs]. pose proof Hr as [Hw Hm]. 
    rewrite rtoks_cons in Hd. cbn [app] in Hd.
    assert (Forall token (f :: rtoks rs ++ ts)) as Ht1.
    { constructor; [by left|]. apply Forall_app. split; [by apply rtoks_tokens|done]. }
    unfold reads. rewrite (bind_done _ _ _ _ _ (peek_at s tail [60; 62] p _ Hd ltac:(constructor; [apply redir_sym_token|done]))).
    replace (is_in [60; 62] (hd_char (redir_sym m :: _))) with true by (unfold redir_sym; repeat case_match; done). cbn [negb].
    destruct (gettoken_at s tail Htail p _ _ Hd (redir_sym_token m) Ht1) as (qE1 & E1 & Hd1 & _).
    rewrite (bind_done _ _ _ _ _ E1). apply Forall_cons in Ht1 as [_ Ht2].
    destruct (gettoken_at s tail Htail _ _ _ Hd1 ltac:(by left) Ht2) as (qE2 & E2 & Hd2 & Htx).
    rewrite (bind_done _ _ _ _ _ E2). rewrite (word_kind f Hw). cbn [Z.eqb Pos.eqb negb].
    set (w := (qE1, (qE1 + length f)%nat)) in *.
    assert ((if tok_kind (redir_sym m) =? 60 then Redir c' w O_RDONLY 0
       else if tok_kind (redir_sym m) =? 62 then Redir c' w (Z.lor (Z.lor O_WRONLY O_CREATE) O_TRUNC) 1
       else if tok_kind (redir_sym m) =? 43 then Redir c' w (Z.lor O_WRONLY O_CREATE) 1 else c') = Redir c' w m fd) as ->.
    { destruct Hm as [[-> ->]|[[-> ->]|[-> ->]]]; done. }
    destruct (IH fuel (Redir c' w m fd) _ ts ltac:(cbn in Hf; lia) Hd2 Hrs Hts He) as (c'' & p'' & E & Hc & Hp).
    exists c'', p''. split; [done|]. split; [|done]. rewrite Hc. cbn [map_cmd]. by rewrite Htx.
Qed.

Lemma map_add_arg c' q e argv : map_cmd (text s) c' = Exec argv -> map_cmd (text s) (add_arg (q, e) c') = Exec (argv ++ [text s (q, e)]).
Proof. destruct c'; cbn [map_cmd add_arg]; intros H; simplify_eq. by rewrite fmap_app. Qed.

Lemma args_loop_at argv : forall fuel pre c' p rs ts, (length argv + length rs + 1 < fuel)%nat -> (argv = [] -> rs = []) ->
  drop p s = ended tail (argv ++ rtoks rs ++ ts) -> Forall word argv -> (length pre + length argv < MAXARGS)%nat ->
  Forall redir_ok rs -> Forall token ts -> ends_exec ts ->
  (map_cmd (text s) c' = Exec pre \/ argv = []) ->
  reads (args_loop s fuel (length pre) c') p
    (if decide (argv = []) then map_cmd (text s) c' else redirs (Exec (pre ++ argv)) rs) ts.
Proof.
  induction argv as [|w argv IH]; intros fuel pre c' p rs ts Hf Hrs0 Hd Hw Hn Hrs Hts He Hc;
    (destruct fuel as [|fuel]; [lia|]); cbn [args_loop]; unfold reads.
  - rewrite (Hrs0 eq_refl) in Hd. cbn [app rtoks] in Hd. change (rtoks [] ++ ts) with ts in Hd.
    rewrite (bind_done _ _ _ _ _ (peek_at s tail _ p ts Hd Hts)). destruct He as [->|He].
    + destruct (gettoken_nil s tail p Hd) as (e & E & Hde). change (is_in _ (hd_char [])) with false. cbv iota.
      rewrite (bind_done _ _ _ _ _ E). cbn [Z.eqb]. by apply reads_ret.
    + rewrite He. by apply reads_ret.
  - apply Forall_cons in Hw as [Hw Hws]. destruct Hc as [Hc|]; [|done].
    assert (Forall token (argv ++ rtoks rs ++ ts)) as Ht1.
    { rewrite !Forall_app. split; [|split; [by apply rtoks_tokens|done]]. apply (Forall_impl _ _ _ Hws). by left. }
    cbn [app] in Hd.
    rewrite (bind_done _ _ _ _ _ (peek_at s tail _ p _ Hd ltac:(constructor; [by left|done]))).
    rewrite (word_head w _ _ Hw) by symbols. cbv iota.
    destruct (gettoken_at s tail Htail p w _ Hd ltac:(by left) Ht1) as (qE & E & Hd1 & Htx). rewrite (bind_done _ _ _ _ _ E).
    rewrite (word_kind w Hw). cbn [Z.eqb Pos.eqb negb]. cbv zeta.
    destruct (Nat.leb_spec MAXARGS (S (length pre))); [cbn in Hn; lia|].
    apply (map_add_arg _ p (p + length w)%nat) in Hc. rewrite Htx in Hc. set (c1 := add_arg _ c') in *.
    rewrite decide_False by done.
    assert (S (length pre) = length (pre ++ [w])) as -> by (rewrite length_app; cbn; lia).
    replace (pre ++ w :: argv) with ((pre ++ [w]) ++ argv) by (by rewrite <- app_assoc).
    destruct argv as [|w2 argv].
    + destruct (parseredirs_at rs fuel c1 _ ts ltac:(cbn in Hf; lia) Hd1 Hrs Hts ltac:(by apply ends_exec_redir)) as (c2 & p2 & E2 & Hc2 & Hp2).
      rewrite (bind_done _ _ _ _ _ E2), app_nil_r.
      specialize (IH fuel (pre ++ [w]) c2 p2 [] ts ltac:(cbn in *; lia) ltac:(done) Hp2 ltac:(constructor)
        ltac:(rewrite length_app; cbn in *; lia) ltac:(constructor) Hts He ltac:(by right)).
      rewrite decide_True in IH by done. by rewrite Hc2, Hc in IH.
    + destruct (parseredirs_at [] fuel c1 _ ((w2 :: argv) ++ rtoks rs ++ ts) ltac:(cbn in *; lia) Hd1 ltac:(constructor) Ht1) as (c2 & p2 & E2 & Hc2 & Hp2).
      { apply Forall_cons in Hws as [Hw2 _]. cbn [app]. apply word_head; [done|]. symbols. }
      rewrite (bind_done _ _ _ _ _ E2). cbn [redirs foldl] in Hc2.
      specialize (IH fuel (pre ++ [w]) c2 p2 rs ts ltac:(cbn in *; lia) ltac:(done) Hp2 Hws
        ltac:(rewrite length_app; cbn in *; lia) Hrs Hts He ltac:(left; by rewrite Hc2)).
      by rewrite decide_False in IH by done.
Qed.
End at_commands.

(** ** Commands *)

Lemma hd_cases (ts : list (list Z)) l : is_in l (hd_char ts) = true -> hd_char ts ∈ l.
Proof. by intros [? _]%is_in_elem. Qed.

Lemma ends_pipe_exec ts : ends_pipe ts -> ends_exec ts /\ is_in [124] (hd_char ts) = false.
Proof.
  intros [->|H]; [split; [by left|done]|]. apply hd_cases in H.
  assert (hd_char ts = 41 \/ hd_char ts = 38 \/ hd_char ts = 59) as [E|[E|E]] by set_solver;
    (split; [right|]; by rewrite E).
Qed.

Lemma ends_line_pipe ts : ends_line ts -> ends_pipe ts /\ is_in [38] (hd_char ts) = false /\ is_in [59] (hd_char ts) = false.
Proof. intros [->|E]; [split; [by left|done]|]. rewrite E. split; [right; by rewrite E|done]. Qed.

Lemma symbol_token c : is_in symbols c = true -> token [c].
Proof. intros H. right; right. by exists c. Qed.

Lemma toks_tokens c : expressible c -> forall level, Forall token (toks level c).
Proof.
  assert (Hpar : forall b l, Forall token l -> Forall token (par b l)).
  { intros [] l Hl; [|done]. cbn. constructor; [by apply symbol_token|]. apply Forall_app. split; [done|].
    constructor; [by apply symbol_token|constructor]. }
  assert (Hmid : forall a x b, Forall token a -> is_in symbols x = true -> Forall token b -> Forall token (a ++ [x] :: b)).
  { intros a x b Ha Hx Hb. apply Forall_app. split; [done|]. constructor; [by apply symbol_token|done]. }
  induction c as [argv|c IH f m fd|l IHl r IHr|l IHl r IHr|c IH]; cbn [expressible toks].
  - intros [Hw _] _. apply (Forall_impl _ _ _ Hw). by left.
  - intros (Hc & Hf & _) _. apply Forall_app. split; [by apply IH|].
    constructor; [apply redir_sym_token|]. constructor; [by left|constructor].
  - intros [Hl Hr] level. apply Hpar, Hmid; auto.
  - intros [Hl Hr] level. apply Hpar, Hmid; auto.
  - intros Hc level. apply Hpar. apply (Hmid _ 38 []); auto.
Qed.

Section commands.
Context (s tail : list Z).
Hypothesis Htail : Forall (fun c => is_in whitespace c = true) tail.

Definition E_ok (c : cmd (list Z)) : Prop := forall fuel p rs ts,
  (4 * (length (toks 0 c) + 2 * length rs) + 3 <= fuel)%nat -> drop p s = ended tail (toks 0 c ++ rtoks rs ++ ts) ->
  Forall redir_ok rs -> Forall token ts -> ends_exec ts -> reads s tail (parseexec s fuel) p (redirs c rs) ts.
Definition P_ok (c : cmd (list Z)) : Prop := forall fuel p ts,
  (4 * length (toks 1 c) + 4 <= fuel)%nat -> drop p s = ended tail (toks 1 c ++ ts) ->
  Forall token ts -> ends_pipe ts -> reads s tail (parsepipe s fuel) p c ts.
Definition B_ok (c : cmd (list Z)) : Prop := forall fuel n p ts,
  (4 * length (toks 2 c) + 4 <= fuel)%nat -> (length (toks 2 c) < n)%nat -> drop p s = ended tail (toks 2 c ++ ts) ->
  Forall token ts -> ends_pipe ts ->
  exists c' p' n', (let* c0 := parsepipe s fuel in back_loop s n c0) p = back_loop s n' c' p' /\
    (n - length (toks 2 c) <= n')%nat /\ map_cmd (text s) c' = c /\ drop p' s = ended tail ts.
Definition L_ok (c : cmd (list Z)) : Prop := forall fuel p ts,
  (4 * length (toks 3 c) + 5 <= fuel)%nat -> drop p s = ended tail (toks 3 c ++ ts) ->
  Forall token ts -> ends_line ts -> reads s tail (parseline s fuel) p c ts.

Lemma E_P c : E_ok c -> toks 1 c = toks 0 c -> P_ok c.
Proof.
  intros HE Et fuel p ts Hf Hd Hts He. rewrite Et in *. destruct fuel as [|fuel]; [lia|].
  destruct (ends_pipe_exec ts He) as [He' Hn].
  destruct (HE fuel p [] ts ltac:(cbn; lia) Hd ltac:(constructor) Hts He') as (c' & p' & E & Hc & Hp).
  unfold reads. cbn [parsepipe]. rewrite (bind_done _ _ _ _ _ E).
  rewrite (bind_done _ _ _ _ _ (peek_at s tail [124] p' ts Hp Hts)), Hn. by apply (reads_ret s tail).
Qed.

Lemma P_B c : P_ok c -> toks 2 c = toks 1 c -> B_ok c.
Proof.
  intros HP Et fuel n p ts Hf Hn Hd Hts He. rewrite Et in *.
  destruct (HP fuel p ts Hf Hd Hts He) as (c' & p' & E & Hc & Hp).
  exists c', p', n. rewrite (bind_done _ _ _ _ _ E). split; [done|]. split; [lia|done].
Qed.

Lemma back_loop_stop n c' p ts : (0 < n)%nat -> drop p s = ended tail ts -> Forall token ts ->
  is_in [38] (hd_char ts) = false -> back_loop s n c' p = Done c' p.
Proof.
  intros Hn Hd Hts Hh. destruct n; [lia|]. cbn [back_loop].
  by rewrite (bind_done _ _ _ _ _ (peek_at s tail [38] p ts Hd Hts)), Hh.
Qed.

Lemma B_L c : B_ok c -> toks 3 c = toks 2 c -> L_ok c.
Proof.
  intros HB Et fuel p ts Hf Hd Hts He. rewrite Et in *. destruct fuel as [|fuel]; [lia|].
  destruct (ends_line_pipe ts He) as (He' & H38 & H59).
  destruct (HB fuel fuel p ts ltac:(lia) ltac:(lia) Hd Hts He') as (c' & p' & n' & E & Hn & Hc & Hp).
  rewrite (back_loop_stop n' c' p' ts) in E by (done || lia).
  unfold reads. cbn [parseline]. rewrite <- bind_assoc. rewrite (bind_done _ _ _ _ _ E).
  rewrite (bind_done _ _ _ _ _ (peek_at s tail [59] p' ts Hp Hts)), H59. by apply (reads_ret s tail).
Qed.

(** A block: a line in parentheses, and redirections. *)
Lemma L_E c : L_ok c -> toks 0 c = [40] :: toks 3 c ++ [[41]] -> Forall token (toks 3 c) -> E_ok c.
Proof.
  intros HL Et Htk fuel p rs ts Hf Hd Hrs Hts He. rewrite Et in *. cbn [length] in Hf. rewrite length_app in Hf. cbn [length] in Hf.
  assert (Forall token ([41] :: rtoks rs ++ ts)) as Ht2.
  { constructor; [by apply symbol_token|]. apply Forall_app. split; [by apply rtoks_tokens|done]. }
  assert (Forall token (toks 3 c ++ [41] :: rtoks rs ++ ts)) as Ht1 by (apply Forall_app; done).
  cbn [app] in Hd. rewrite <- app_assoc in Hd. cbn [app] in Hd.
  assert (Forall token ([40] :: toks 3 c ++ [41] :: rtoks rs ++ ts)) as Ht0 by (constructor; [by apply symbol_token|done]).
  destruct fuel as [|[|fuel]]; [lia..|]. unfold reads. cbn [parseexec].
  rewrite (bind_done _ _ _ _ _ (peek_at s tail [40] p _ Hd Ht0)). cbn [parseblock].
  change (is_in [40] (hd_char ([40] :: _))) with true. cbv iota.
  rewrite (bind_done _ _ _ _ _ (peek_at s tail [40] p _ Hd Ht0)).
  change (is_in [40] (hd_char ([40] :: _))) with true. cbn [negb].
  destruct (gettoken_at s tail Htail p _ _ Hd (symbol_token 40 eq_refl) Ht1) as (qE & E & Hd1 & _). rewrite (bind_done _ _ _ _ _ E).
  destruct (HL fuel _ _ ltac:(lia) Hd1 Ht2 ltac:(by right)) as (c' & p' & E' & Hc & Hp). rewrite (bind_done _ _ _ _ _ E').
  rewrite (bind_done _ _ _ _ _ (peek_at s tail [41] p' _ Hp Ht2)). change (is_in [41] (hd_char ([41] :: _))) with true. cbn [negb].
  apply Forall_cons in Ht2 as [Ht41 Ht3]. destruct (gettoken_at s tail Htail p' _ _ Hp Ht41 Ht3) as (qE2 & E2 & Hd2 & _). rewrite (bind_done _ _ _ _ _ E2).
  destruct (parseredirs_at s tail Htail rs fuel c' _ ts ltac:(lia) Hd2 Hrs Hts ltac:(by apply ends_exec_redir)) as (c2 & p2 & E3 & Hc2 & Hp2).
  exists c2, p2. by rewrite <- Hc.
Qed.

Lemma E_exec argv : Forall word argv -> (length argv < MAXARGS)%nat -> E_ok (Exec argv).
Proof.
  intros Hw Hn fuel p rs ts Hf Hd Hrs Hts He. cbn [toks] in *. destruct fuel as [|fuel]; [lia|].
  assert (Forall token (rtoks rs ++ ts)) as Ht1 by (apply Forall_app; split; [by apply rtoks_tokens|done]).
  assert (Forall token (argv ++ rtoks rs ++ ts)) as Ht0.
  { apply Forall_app. split; [|done]. apply (Forall_impl _ _ _ Hw). by left. }
  assert (is_in [40] (hd_char (argv ++ rtoks rs ++ ts)) = false) as H40.
  { destruct argv as [|w argv]; [|apply Forall_cons in Hw as [? _]; apply word_head; [done|symbols]].
    destruct rs as [|[[f m] fd] rs]; [|rewrite rtoks_cons; unfold redir_sym; repeat case_match; reflexivity].
    cbn [app]. change (rtoks [] ++ ts) with ts. destruct He as [->|He]; [done|]. apply hd_cases in He.
    assert (hd_char ts = 124 \/ hd_char ts = 41 \/ hd_char ts = 38 \/ hd_char ts = 59) as [E|[E|[E|E]]] by set_solver; by rewrite E. }
  unfold reads. cbn [parseexec]. rewrite (bind_done _ _ _ _ _ (peek_at s tail [40] p _ Hd Ht0)), H40. cbv iota.
  destruct argv as [|w argv].
  - destruct (parseredirs_at s tail Htail rs fuel (Exec []) p ts ltac:(cbn in *; lia) Hd Hrs Hts ltac:(by apply ends_exec_redir)) as (c1 & p1 & E1 & Hc1 & Hp1).
    rewrite (bind_done _ _ _ _ _ E1). cbn [map_cmd fmap list_fmap] in Hc1.
    pose proof (args_loop_at s tail Htail [] fuel [] c1 p1 [] ts ltac:(cbn in *; lia) ltac:(done) Hp1 ltac:(constructor) ltac:(cbn; unfold MAXARGS; lia)
      ltac:(constructor) Hts He ltac:(by right)) as HA.
    rewrite decide_True, Hc1 in HA by done. exact HA.
  - destruct (parseredirs_at s tail Htail [] fuel (Exec []) p _ ltac:(cbn in *; lia) Hd ltac:(constructor) Ht0) as (c1 & p1 & E1 & Hc1 & Hp1).
    { cbn [app]. apply Forall_cons in Hw as [? _]. apply word_head; [done|symbols]. }
    rewrite (bind_done _ _ _ _ _ E1). cbn [map_cmd fmap list_fmap redirs foldl] in Hc1.
    pose proof (args_loop_at s tail Htail (w :: argv) fuel [] c1 p1 rs ts ltac:(cbn in *; lia) ltac:(done) Hp1 Hw ltac:(cbn in *; lia)
      Hrs Hts He ltac:(by left)) as HA.
    rewrite decide_False in HA by done. exact HA.
Qed.

Lemma E_redir c f m fd : E_ok c -> redir_ok (f, m, fd) -> E_ok (Redir c f m fd).
Proof.
  intros HE Hr fuel p rs ts Hf Hd Hrs Hts He. cbn [toks] in *. rewrite length_app in Hf. cbn [length] in Hf.
  apply (HE fuel p ((f, m, fd) :: rs) ts); [cbn [length]; lia| |by constructor|done|done].
  rewrite rtoks_cons, Hd. by rewrite <- app_assoc.
Qed.

Lemma P_pipe l r : E_ok l -> P_ok r -> Forall token (toks 1 r) -> P_ok (Pipe l r).
Proof.
  intros HE HP Htk fuel p ts Hf Hd Hts He. cbn [toks par Nat.ltb Nat.leb] in *. rewrite length_app in Hf. cbn [length] in Hf.
  destruct fuel as [|fuel]; [lia|]. rewrite <- app_assoc in Hd. cbn [app] in Hd.
  assert (Forall token (toks 1 r ++ ts)) as Ht1 by (by apply Forall_app).
  assert (Forall token ([124] :: toks 1 r ++ ts)) as Ht0 by (constructor; [by apply symbol_token|done]).
  destruct (HE fuel p [] ([124] :: toks 1 r ++ ts) ltac:(cbn; lia) Hd ltac:(constructor) Ht0 ltac:(by right)) as (c' & p' & E & Hc & Hp).
  unfold reads. cbn [parsepipe]. rewrite (bind_done _ _ _ _ _ E).
  rewrite (bind_done _ _ _ _ _ (peek_at s tail [124] p' _ Hp Ht0)). change (is_in [124] (hd_char ([124] :: _))) with true. cbn [negb].
  destruct (gettoken_at s tail Htail p' _ _ Hp (symbol_token 124 eq_refl) Ht1) as (qE2 & E2 & Hd2 & _). rewrite (bind_done _ _ _ _ _ E2).
  destruct (HP fuel _ ts ltac:(lia) Hd2 Hts He) as (r' & p2 & E3 & Hr & Hp2). rewrite (bind_done _ _ _ _ _ E3).
  exists (Pipe c' r'), p2. split; [done|]. split; [|done]. cbn [map_cmd]. by rewrite Hc, Hr.
Qed.

Lemma B_back c : B_ok c -> B_ok (Back c).
Proof.
  intros HB fuel n p ts Hf Hn Hd Hts He. cbn [toks par Nat.ltb Nat.leb] in *. rewrite length_app in Hf, Hn. cbn [length] in Hf, Hn.
  rewrite <- app_assoc in Hd. cbn [app] in Hd.
  assert (Forall token ([38] :: ts)) as Ht by (constructor; [by apply symbol_token|done]).
  destruct (HB fuel n p ([38] :: ts) ltac:(lia) ltac:(lia) Hd Ht ltac:(by right)) as (c' & p' & n' & E & Hn' & Hc & Hp).
  destruct n' as [|n']; [lia|]. destruct (gettoken_at s tail Htail p' _ _ Hp (symbol_token 38 eq_refl) Hts) as (qE2 & E2 & Hd2 & _).
  eexists (Back c'), _, n'. split; [|split; [|split; [cbn; by rewrite Hc|exact Hd2]]].
  - rewrite E. cbn [back_loop]. rewrite (bind_done _ _ _ _ _ (peek_at s tail [38] p' _ Hp Ht)).
    change (is_in [38] (hd_char ([38] :: _))) with true. cbn [negb]. by rewrite (bind_done _ _ _ _ _ E2).
  - rewrite length_app. cbn [length]. lia.
Qed.

Lemma L_list l r : B_ok l -> L_ok r -> Forall token (toks 3 r) -> L_ok (CList l r).
Proof.
  intros HB HL Htk fuel p ts Hf Hd Hts He. cbn [toks par Nat.ltb Nat.leb] in *. rewrite length_app in Hf. cbn [length] in Hf.
  destruct fuel as [|fuel]; [lia|]. rewrite <- app_assoc in Hd. cbn [app] in Hd.
  assert (Forall token (toks 3 r ++ ts)) as Ht1 by (by apply Forall_app).
  assert (Forall token ([59] :: toks 3 r ++ ts)) as Ht0 by (constructor; [by apply symbol_token|done]).
  destruct (HB fuel fuel p _ ltac:(lia) ltac:(lia) Hd Ht0 ltac:(by right)) as (c' & p' & n' & E & Hn & Hc & Hp).
  rewrite (back_loop_stop n' c' p' _) in E by (done || lia).
  unfold reads. cbn [parseline]. rewrite <- bind_assoc, (bind_done _ _ _ _ _ E).
  rewrite (bind_done _ _ _ _ _ (peek_at s tail [59] p' _ Hp Ht0)). change (is_in [59] (hd_char ([59] :: _))) with true. cbn [negb].
  destruct (gettoken_at s tail Htail p' _ _ Hp (symbol_token 59 eq_refl) Ht1) as (qE2 & E2 & Hd2 & _). rewrite (bind_done _ _ _ _ _ E2).
  destruct (HL fuel _ ts ltac:(lia) Hd2 Hts He) as (r' & p2 & E3 & Hr & Hp2). rewrite (bind_done _ _ _ _ _ E3).
  exists (CList c' r'), p2. split; [done|]. split; [|done]. cbn [map_cmd]. by rewrite Hc, Hr.
Qed.

Lemma command_ok c : expressible c -> E_ok c /\ P_ok c /\ B_ok c /\ L_ok c.
Proof.
  induction c as [argv|c IH f m fd|l IHl r IHr|l IHl r IHr|c IH]; cbn [expressible].
  - intros [Hw Hn]. pose proof (E_exec argv Hw Hn) as HE. pose proof (E_P _ HE eq_refl) as HP.
    pose proof (P_B _ HP eq_refl) as HB. pose proof (B_L _ HB eq_refl). done.
  - intros (Hc & Hf & Hm). destruct (IH Hc) as (HE0 & _). pose proof (E_redir c f m fd HE0 (conj Hf Hm)) as HE.
    pose proof (E_P _ HE eq_refl) as HP. pose proof (P_B _ HP eq_refl) as HB. pose proof (B_L _ HB eq_refl). done.
  - intros [Hl Hr]. destruct (IHl Hl) as (HEl & _), (IHr Hr) as (_ & HPr & _).
    pose proof (P_pipe l r HEl HPr (toks_tokens r Hr 1)) as HP. pose proof (P_B _ HP eq_refl) as HB.
    pose proof (B_L _ HB eq_refl) as HL. pose proof (L_E _ HL eq_refl (toks_tokens (Pipe l r) (conj Hl Hr) 3)). done.
  - intros [Hl Hr]. destruct (IHl Hl) as (_ & _ & HBl & _), (IHr Hr) as (_ & _ & _ & HLr).
    pose proof (L_list l r HBl HLr (toks_tokens r Hr 3)) as HL.
    pose proof (L_E _ HL eq_refl (toks_tokens (CList l r) (conj Hl Hr) 3)) as HE.
    pose proof (E_P _ HE eq_refl) as HP. pose proof (P_B _ HP eq_refl). done.
  - intros Hc. destruct (IH Hc) as (_ & _ & HB0 & _). pose proof (B_back c HB0) as HB. pose proof (B_L _ HB eq_refl) as HL.
    pose proof (L_E _ HL eq_refl (toks_tokens (Back c) Hc 3)) as HE. pose proof (E_P _ HE eq_refl). done.
Qed.
End commands.

Lemma spaced_length ts : (length ts <= length (spaced ts))%nat.
Proof.
  induction ts as [|t ts IH]; [done|]. rewrite spaced_cons, length_app. cbn [length]. lia.
Qed.

Lemma print_nonzero c tail : expressible c -> Forall (fun c => is_in whitespace c = true) tail -> 0 ∉ print c ++ tail.
Proof.
  intros Hc Ht [H|H]%elem_of_app; [|rewrite Forall_forall in Ht; apply Ht in H; by rewrite is_in_zero in H].
  unfold print in H. apply list_elem_of_join in H as (t & Hx & (x & -> & Hin)%list_elem_of_fmap).
  apply elem_of_app in Hx as [Hx|Hx]; [|set_solver].
  pose proof (proj1 (Forall_forall _ _) (toks_tokens c Hc 3) x Hin) as [[_ Hw]|[->|(y & -> & Hy)]].
  - rewrite Forall_forall in Hw. by destruct (Hw 0 Hx).
  - set_solver.
  - apply symbol_cases in Hy. set_solver.
Qed.

(** A printed command is read back also when the line ends with white space. *)
Lemma parsecmd_line c tail : expressible c -> Forall (fun c => is_in whitespace c = true) tail -> tail = [] \/ print c <> [] ->
  exists c', parsecmd (print c ++ tail) 0%nat = Done c' (length (print c ++ tail)) /\ map_cmd (text (print c ++ tail)) c' = c.
Proof.
  intros Hc Ht Hne. set (s := print c ++ tail).
  assert (drop 0 s = ended tail (toks 3 c ++ [])) as Hd.
  { rewrite drop_0, app_nil_r. unfold ended, s, print in *. destruct (toks 3 c); [by destruct Hne as [->|]|done]. }
  assert (length (toks 3 c) <= length s)%nat as Hl.
  { unfold s, print. pose proof (spaced_length (toks 3 c)). rewrite length_app. lia. }
  destruct (command_ok s tail Ht c Hc) as (_ & _ & _ & HL).
  destruct (HL (parse_fuel s) 0%nat [] ltac:(unfold parse_fuel; lia) Hd ltac:(constructor) ltac:(by left)) as (c' & p & E & Hm & Hp).
  assert (p <= length s)%nat as Hle.
  { pose proof (proj1 (parse_ok s (print_nonzero c tail Hc Ht) (parse_fuel s) 0%nat ltac:(lia)) ltac:(unfold parse_fuel; lia)) as HP.
    unfold parses, wpe in HP. rewrite E in HP. lia. }
  assert (p = length s) as ->.
  { apply (f_equal length) in Hp. rewrite length_drop in Hp. cbn in Hp. lia. }
  exists c'. split; [|done]. unfold parsecmd. rewrite (bind_done _ _ _ _ _ E).
  rewrite (bind_done _ _ _ _ _ (peek_at s tail [] _ [] Hp ltac:(constructor))). kpure. by rewrite Nat.eqb_refl.
Qed.

(** ** Theorems *)

(** The parser reads back what is printed: for every command built from
    programs with at most nine arguments, redirections, pipes, lists and
    background commands, however nested, [parsecmd] of its printed form accepts
    the whole line and returns the command, words and redirection modes
    included. *)
Theorem parsecmd_roundtrip c : expressible c ->
  exists c', parsecmd (print c) 0%nat = Done c' (length (print c)) /\ map_cmd (text (print c)) c' = c.
Proof.
  intros Hc. pose proof (parsecmd_line c [] Hc ltac:(constructor) ltac:(by left)) as H. by rewrite app_nil_r in H.
Qed.

(** C27: On every command line the parser terminates: it returns a command or
    reports a syntax error. When it returns one, it has consumed the whole line,
    and after [nulterminate] every argument and file name is, as a C string,
    exactly the text of its word. *)
Theorem parsecmd_terminates s : 0 ∉ s ->
  match parsecmd s 0%nat with
  | Done c p => p = length s /\ forall w, w ∈ words c ->
      (w.1 < w.2 <= length s)%nat /\ cstr (drop w.1 (nulterminate c (s ++ [0]))) = text s w
  | Panic _ => True
  | Blocked | Switch _ | NoFuel => False
  end.
Proof.
  intros H0. pose proof (parsecmd_ok s H0) as HP. unfold wpe in HP. destruct (parsecmd s 0%nat) as [c p|msg| |p|]; try done.
  destruct HP as [-> Hc]. split; [done|]. intros w Hw. split; [|by apply argument_text].
  rewrite Forall_forall in Hc. by destruct (Hc w Hw).
Qed.

(** ** Examples *)

Definition demo_command : cmd (list Z) :=
  CList (Back (Pipe (Exec [[108; 115]; [45; 108]]) (Redir (Exec [[119; 99]]) [111] (Z.lor O_WRONLY O_CREATE) 1)))
    (Redir (CList (Exec [[97]]) (Exec [])) [105] O_RDONLY 0).

Lemma demo_command_ok : expressible demo_command.
Proof.
  cbn. unfold word, MAXARGS. repeat split; try done; try lia; try (repeat constructor; done); right; right; done.
Qed.

Lemma parsecmd_roundtrip_witness :
  exists c', parsecmd (print demo_command) 0%nat = Done c' (length (print demo_command)) /\
    map_cmd (text (print demo_command)) c' = demo_command.
Proof. apply (parsecmd_roundtrip demo_command). apply demo_command_ok. Defined.

Lemma parsecmd_terminates_witness :
  match parsecmd [97; 32; 62; 98] 0%nat with
  | Done c p => p = 4%nat /\ forall w, w ∈ words c ->
      (w.1 < w.2 <= 4)%nat /\ cstr (drop w.1 (nulterminate c [97; 32; 62; 98; 0])) = text [97; 32; 62; 98] w
  | Panic _ => True
  | Blocked | Switch _ | NoFuel => False
  end.
Proof.
  apply (parsecmd_terminates [97; 32; 62; 98]). apply (bool_decide_unpack (0 ∉ [97; 32; 62; 98])). exact I.
Defined.
