(* ===== verification/Usys.v ===== *)
(** * User programs

    The system calls of user/user.h as a user program sees them, programs as
    trees of calls, and what a program does when it runs in a process: the tree
    of the processes it starts, each with its file descriptors. *)

From S2P Require Import Prelude Kernel Str Ulib Printf.

(** ** Programs *)

(** The calls. [wait] is always called with a null pointer, and [exit] is a way
    for a program to end. *)
Inductive call :=
| SOpen (path : list Z) (mode : Z)
| SClose (fd : Z)
| SRead (fd n : Z)
| SWrite (fd : Z) (bs : list Z)
| SDup (fd : Z)
| SPipe
| SFork
| SWait
| SExec (path : list Z) (argv : list (list Z))
| SChdir (path : list Z)
| SMkdir (path : list Z)
| SUnlink (path : list Z)
| SLink (old new : list Z)
| SMknod (path : list Z) (major minor : Z)
| SKill (pid : Z)
| SFstat (fd : Z)
| SSbrk (n t : Z).

(** The number a call returns, and what it stores in the caller's memory: the
    bytes of [read], the two descriptors of [pipe], the fields of [struct stat]. *)
Definition answer : Type := Z * list Z.

(** A program performs calls until it returns a value or exits; [OutOfFuel] is
    the bound of a loop of the model. *)
Inductive prog (A : Type) :=
| Return (a : A)
| Exit (status : Z)
| OutOfFuel
| Call (c : call) (k : answer -> prog A).
Arguments Return {A} a.
Arguments Exit {A} status.
Arguments OutOfFuel {A}.
Arguments Call {A} c k.

Fixpoint pbind {A B} (p : prog A) (f : A -> prog B) : prog B :=
  match p with
  | Return a => f a
  | Exit st => Exit st
  | OutOfFuel => OutOfFuel
  | Call c k => Call c (fun r => pbind (k r) f)
  end.

Declare Scope prog_scope.
Delimit Scope prog_scope with prog.
Notation "'let&' x := p 'in' q" := (pbind p (fun x => q))
  (at level 100, x pattern, p at level 100, q at level 200, right associativity) : prog_scope.
Notation "p ;! q" := (pbind p (fun _ => q)) (at level 99, right associativity) : prog_scope.
Open Scope prog_scope.

(** A call used for its number only. *)
Definition sys (c : call) : prog Z := Call c (fun r => Return r.1).

(** [fprintf]: [vprintf] hands every character to [putc], which writes it. *)
Fixpoint putcs (fd : Z) (bs : list Z) : prog unit :=
  match bs with
  | [] => Return tt
  | b :: bs => sys (SWrite fd [b]) ;! putcs fd bs
  end.
Definition fprintf (fd : Z) (fmt : list Z) (args : list parg) : prog unit := putcs fd (vprintf udigits uputc fmt args).
Definition printf (fmt : list Z) (args : list parg) : prog unit := fprintf 1 fmt args.

(** A format or text that ends with a newline. *)
Definition line (s : string) : list Z := bytes_of s ++ [10].

(** [start] of user/ulib.c: a program whose [main] returns exits with its value. *)
Definition start (main : prog Z) : prog False := let& r := main in Exit r.

(** [sbrk] and [sbrklazy] of user/ulib.c, with SBRK_EAGER and SBRK_LAZY. *)
Definition usbrk (n : Z) : prog Z := sys (SSbrk n 1).
Definition usbrklazy (n : Z) : prog Z := sys (SSbrk n 2).

(** ** Processes *)

(** What a descriptor refers to: a file or an end of a pipe, with the process
    that opened or made it and how many it had opened or made before. *)
Definition procid : Type := list nat.
Inductive fdesc :=
| FFile (path : list Z) (mode : Z) (p : procid) (n : nat)
| FReadEnd (p : procid) (n : nat)
| FWriteEnd (p : procid) (n : nat).
#[global] Instance fdesc_eq_dec : EqDecision fdesc.
Proof. solve_decision. Defined.

Definition fdtable : Type := list (option fdesc).

(** The lowest free descriptor, as [fdalloc] of kernel/sysfile.c takes it. *)
Fixpoint lowest (fds : fdtable) : option nat :=
  match fds with
  | [] => None
  | None :: _ => Some O
  | Some _ :: fds => S <$> lowest fds
  end.
Definition fd_alloc (f : fdesc) (fds : fdtable) : option (nat * fdtable) :=
  (fun n => (n, <[n := Some f]> fds)) <$> lowest fds.
Definition fd_get (fds : fdtable) (fd : Z) : option fdesc := if fd <? 0 then None else mjoin (fds !! Z.to_nat fd).

(** A process: its name, how many children, pipes and open files it has made,
    its descriptors, the bytes its reads of each of them have still to return,
    what its waits will return, and its calls that changed something elsewhere. *)
Record uproc := mkU {
  u_id : procid; u_kids : nat; u_pipes : nat; u_opens : nat; u_fds : fdtable;
  u_rd : fdesc -> list Z; u_waits : list Z; u_done : list call
}.
Definition set_fds (fds : fdtable) (u : uproc) : uproc :=
  mkU (u_id u) (u_kids u) (u_pipes u) (u_opens u) fds (u_rd u) (u_waits u) (u_done u).
Definition add_pipe (fds : fdtable) (u : uproc) : uproc :=
  mkU (u_id u) (u_kids u) (S (u_pipes u)) (u_opens u) fds (u_rd u) (u_waits u) (u_done u).
Definition add_open (fds : fdtable) (u : uproc) : uproc :=
  mkU (u_id u) (u_kids u) (u_pipes u) (S (u_opens u)) fds (u_rd u) (u_waits u) (u_done u).
Definition set_rd (f : fdesc) (l : list Z) (u : uproc) : uproc :=
  mkU (u_id u) (u_kids u) (u_pipes u) (u_opens u) (u_fds u) (fun g => if decide (g = f) then l else u_rd u g) (u_waits u) (u_done u).
Definition next_wait (u : uproc) : uproc :=
  mkU (u_id u) (u_kids u) (u_pipes u) (u_opens u) (u_fds u) (u_rd u) (tail (u_waits u)) (u_done u).
Definition add_done (c : call) (u : uproc) : uproc :=
  mkU (u_id u) (u_kids u) (u_pipes u) (u_opens u) (u_fds u) (u_rd u) (u_waits u) (u_done u ++ [c]).
Definition child_of (u : uproc) : uproc := mkU (u_id u ++ [u_kids u]) 0 0 0 (u_fds u) (u_rd u) [] [].
Definition after_fork (u : uproc) : uproc :=
  mkU (u_id u) (S (u_kids u)) (u_pipes u) (u_opens u) (u_fds u) (u_rd u) (u_waits u) (u_done u).

(** What the system decides: whether a process can open a path (after the calls
    it made that changed something), fork its next child, make its next pipe or
    execute a program; how many bytes a read
    returns of those it could; what a write and the other calls return; and the
    number of a process. *)
Class Os := {
  os_open : procid -> list call -> list Z -> Z -> bool;
  os_fork : procid -> nat -> bool;
  os_pipe : procid -> nat -> bool;
  os_exec : procid -> list Z -> bool;
  os_chunk : nat -> list Z -> nat;
  os_write : procid -> fdesc -> list Z -> Z;
  os_result : procid -> list call -> call -> Z;
  os_stat : fdesc -> option (list Z);
  os_pid : procid -> Z;
  os_chunk_ok n l : (0 < n)%nat -> l <> [] -> (0 < os_chunk n l <= n)%nat /\ (os_chunk n l <= length l)%nat;
  os_pid_pos p : 0 < os_pid p
}.

(** What becomes of a process and of its children. Writing shows what was
    written where; a wait shows the descriptors the process keeps meanwhile. *)
Inductive ptree :=
| TExit (status : Z)
| TExec (path : list Z) (argv : list (list Z)) (fds : fdtable)
| TFork (child parent : ptree)
| TWait (fds : fdtable) (rest : ptree)
| TWrite (fd : option fdesc) (bs : list Z) (rest : ptree)
| TCall (c : call) (rest : ptree)
| TReturn
| TNoFuel.

Section run.
Context `{Os}.

Definition do_open (path : list Z) (mode : Z) (u : uproc) : answer * uproc :=
  if os_open (u_id u) (u_done u) path mode then
    match fd_alloc (FFile path mode (u_id u) (u_opens u)) (u_fds u) with
    | Some (fd, fds) => (Z.of_nat fd, [], add_open fds u)
    | None => (-1, [], u)
    end
  else (-1, [], u).

Definition do_close (fd : Z) (u : uproc) : answer * uproc :=
  match fd_get (u_fds u) fd with
  | Some _ => (0, [], set_fds (<[Z.to_nat fd := None]> (u_fds u)) u)
  | None => (-1, [], u)
  end.

Definition do_dup (fd : Z) (u : uproc) : answer * uproc :=
  match fd_get (u_fds u) fd with
  | Some f =>
      match fd_alloc f (u_fds u) with
      | Some (fd', fds) => (Z.of_nat fd', [], set_fds fds u)
      | None => (-1, [], u)
      end
  | None => (-1, [], u)
  end.

Definition do_pipe (u : uproc) : answer * uproc :=
  if os_pipe (u_id u) (u_pipes u) then
    match fd_alloc (FReadEnd (u_id u) (u_pipes u)) (u_fds u) with
    | Some (fd0, fds) =>
        match fd_alloc (FWriteEnd (u_id u) (u_pipes u)) fds with
        | Some (fd1, fds) => (0, [Z.of_nat fd0; Z.of_nat fd1], add_pipe fds u)
        | None => (-1, [], u)
        end
    | None => (-1, [], u)
    end
  else (-1, [], u).

Definition do_read (fd n : Z) (u : uproc) : answer * uproc :=
  match fd_get (u_fds u) fd with
  | Some f =>
      let l := u_rd u f in
      let k := if bool_decide (l = []) || (n <=? 0) then O else os_chunk (Z.to_nat n) l in
      (Z.of_nat k, take k l, set_rd f (drop k l) u)
  | None => (-1, [], u)
  end.

Definition do_fstat (fd : Z) (u : uproc) : answer :=
  match fd_get (u_fds u) fd with
  | Some f => match os_stat f with Some st => (0, st) | None => (-1, []) end
  | None => (-1, [])
  end.

Definition do_write (fd : Z) (bs : list Z) (u : uproc) : Z :=
  match fd_get (u_fds u) fd with Some f => os_write (u_id u) f bs | None => -1 end.

(** Running a program. [fork] returns twice; a successful [exec] does not
    return; the calls that are shown as they are do not change the process. *)
Fixpoint run {A} (p : prog A) (u : uproc) : ptree :=
  match p with
  | Return _ => TReturn
  | Exit st => TExit st
  | OutOfFuel => TNoFuel
  | Call c k =>
      match c with
      | SOpen path mode => run (k (do_open path mode u).1) (do_open path mode u).2
      | SClose fd => run (k (do_close fd u).1) (do_close fd u).2
      | SDup fd => run (k (do_dup fd u).1) (do_dup fd u).2
      | SPipe => run (k (do_pipe u).1) (do_pipe u).2
      | SRead fd n => run (k (do_read fd n u).1) (do_read fd n u).2
      | SFstat fd => run (k (do_fstat fd u)) u
      | SWrite fd bs => TWrite (fd_get (u_fds u) fd) bs (run (k (do_write fd bs u, [])) u)
      | SFork =>
          if os_fork (u_id u) (u_kids u) then
            TFork (run (k (0, [])) (child_of u)) (run (k (os_pid (u_id (child_of u)), [])) (after_fork u))
          else run (k (-1, [])) u
      | SWait => TWait (u_fds u) (run (k (default (-1) (head (u_waits u)), [])) (next_wait u))
      | SExec path argv =>
          if os_exec (u_id u) path then TExec path argv (u_fds u) else run (k (-1, [])) u
      | SChdir _ | SMkdir _ | SUnlink _ | SLink _ _ | SMknod _ _ _ | SKill _ | SSbrk _ _ =>
          TCall c (run (k (os_result (u_id u) (u_done u) c, [])) (add_done c u))
      end
  end.

(** The bytes a process writes when no write fails. *)
Fixpoint put (f : option fdesc) (bs : list Z) (t : ptree) : ptree :=
  match bs with [] => t | b :: bs => TWrite f [b] (put f bs t) end.

Lemma run_putcs {A} fd bs (k : unit -> prog A) u : run (pbind (putcs fd bs) k) u = put (fd_get (u_fds u) fd) bs (run (k tt) u).
Proof. induction bs as [|b bs IH]; [done|]. cbn. by rewrite IH. Qed.

Lemma run_fprintf {A} fd fmt args (k : unit -> prog A) u :
  run (pbind (fprintf fd fmt args) k) u = put (fd_get (u_fds u) fd) (vprintf udigits uputc fmt args) (run (k tt) u).
Proof. apply run_putcs. Qed.
End run.

Lemma pbind_assoc {A B C} (p : prog A) (f : A -> prog B) (g : B -> prog C) u `{Os} :
  run (pbind (pbind p f) g) u = run (pbind p (fun a => pbind (f a) g)) u.
Proof.
  revert u. induction p as [a|st| |c k IH]; intros u; [done..|]. destruct c; cbn; by rewrite ?IH.
Qed.
