(* ===== verification/ShRun.v ===== *)
(** * The shell runs commands

    user/sh.c: [runcmd], [getcmd] and [main], as programs of Usys.v. *)

From S2P Require Import Prelude Kernel Str Ulib Printf Sh ShSpec ShRound Usys.

(** ** Definitions *)

Definition O_RDWR : Z := 2.

(** [panic] and [fork1] of user/sh.c. *)
Definition sh_panic {A} (msg : string) : prog A :=
  fprintf 2 (line "%s") [PStr (Some (bytes_of msg))] ;! Exit 1.

Definition fork1 : prog Z :=
  let& pid := sys SFork in
  if pid =? -1 then sh_panic "fork" else Return pid.

Fixpoint runcmd {A} (c : cmd (list Z)) : prog A :=
  match c with
  | Exec [] => Exit 1
  | Exec ((a :: _) as argv) =>
      sys (SExec a argv) ;!
      fprintf 2 (line "exec %s failed") [PStr (Some a)] ;!
      Exit 0
  | Redir c file mode fd =>
      sys (SClose fd) ;!
      let& r := sys (SOpen file mode) in
      if r <? 0 then fprintf 2 (line "open %s failed") [PStr (Some file)] ;! Exit 1
      else runcmd c
  | CList l r =>
      let& pid := fork1 in
      if pid =? 0 then runcmd l
      else
        sys SWait ;!
        runcmd r
  | Pipe l r =>
      let& (res, p) := Call SPipe Return in
      if res <? 0 then sh_panic "pipe"
      else
        let p0 := byte_at p 0 in
        let p1 := byte_at p 1 in
        let& pid := fork1 in
        if pid =? 0 then
          sys (SClose 1) ;!
          sys (SDup p1) ;!
          sys (SClose p0) ;!
          sys (SClose p1) ;!
          runcmd l
        else
          let& pid := fork1 in
          if pid =? 0 then
            sys (SClose 0) ;!
            sys (SDup p0) ;!
            sys (SClose p0) ;!
            sys (SClose p1) ;!
            runcmd r
          else
            sys (SClose p0) ;!
            sys (SClose p1) ;!
            sys SWait ;!
            sys SWait ;!
            Exit 0
  | Back c =>
      let& pid := fork1 in
      if pid =? 0 then runcmd c else Exit 0
  end.

(** [gets] of user/ulib.c: the bytes it stores before the terminating 0, when it
    may read [max] of them. *)
Fixpoint gets_from (max : nat) : prog (list Z) :=
  match max with
  | O => Return []
  | S max =>
      let& (cc, bs) := Call (SRead 0 1) Return in
      if cc <? 1 then Return []
      else
        let c := byte_at bs 0 in
        if (c =? 10) || (c =? 13) then Return [c]
        else let& l := gets_from max in Return (c :: l)
  end.

(** The buffer is cleared before [gets] fills it, so the line is a C string. *)
Definition bufsize : nat := 100.
Definition getcmd : prog (list Z) :=
  sys (SWrite 2 (bytes_of "$ ")) ;!
  let& l := gets_from (bufsize - 1) in
  Return (cstr l).

(** [parsecmd], with what it prints when it fails; the arguments are the texts of
    the words (see [parsecmd_terminates]). *)
Definition parse_line (s : list Z) : prog (cmd (list Z)) :=
  match (let* c := parseline s (parse_fuel s) in let* _ := peek s [] in ret c) 0%nat with
  | Done c p =>
      if negb (p =? length s)%nat then
        fprintf 2 (line "leftovers: %s") [PStr (Some (drop p s))] ;! sh_panic "syntax"
      else Return (map_cmd (text s) c)
  | Panic msg => sh_panic msg
  | Blocked | Switch _ | NoFuel => OutOfFuel
  end.

(** Leading blanks and tabs are skipped. *)
Fixpoint skip_blanks (s : list Z) : list Z :=
  match s with
  | c :: s' => if (c =? 32) || (c =? 9) then skip_blanks s' else s
  | [] => []
  end.

(** One round of [main], which then goes on with [next]. *)
Definition shell_line (next : prog False) (buf : list Z) : prog False :=
  if byte_at buf 0 =? 0 then Exit 0
  else
    let cmd := skip_blanks buf in
    if byte_at cmd 0 =? 10 then next
    else if (byte_at cmd 0 =? 99) && (byte_at cmd 1 =? 100) && (byte_at cmd 2 =? 32) then
      let path := drop 3 (take (length cmd - 1) cmd) in
      let& r := sys (SChdir path) in
      (if r <? 0 then fprintf 2 (line "cannot cd %s") [PStr (Some path)] else Return tt) ;!
      next
    else
      let& pid := fork1 in
      if pid =? 0 then let& c := parse_line cmd in runcmd c
      else
        sys SWait ;!
        next.

(** The loop of [main] over the commands. *)
Fixpoint shell (fuel : nat) : prog False :=
  match fuel with
  | O => OutOfFuel
  | S fuel => let& buf := getcmd in shell_line (shell fuel) buf
  end.

(** The loop that makes sure that three descriptors are open: it ends when the
    fourth is. *)
Fixpoint open_console (fuel : nat) : prog unit :=
  match fuel with
  | O => OutOfFuel
  | S fuel =>
      let& fd := sys (SOpen (bytes_of "console") O_RDWR) in
      if fd <? 0 then Return tt
      else if 3 <=? fd then sys (SClose fd) ;! Return tt
      else open_console fuel
  end.

Definition sh_main (fuel : nat) : prog False := open_console 4 ;! shell fuel.

(** ** What a command should start *)

(** The descriptors of a process that has only its standard ones. *)
Definition std (i o e : fdesc) : fdtable := [Some i; Some o; Some e] ++ replicate 13 None.

(** Printing a message. *)
Definition say (e : fdesc) (fmt : list Z) (args : list parg) (t : ptree) : ptree :=
  put (Some e) (vprintf udigits uputc fmt args) t.
Definition complain (e : fdesc) (msg : string) : ptree := say e (line "%s") [PStr (Some (bytes_of msg))] (TExit 1).

Section plan.
Context `{Os}.

(** The processes that a command starts in process [id], which has made [kids]
    children, [pipes] pipes and [opens] open files, with their standard input,
    output and error: the descriptors are given, not computed. *)
Fixpoint plan (c : cmd (list Z)) (id : procid) (kids pipes opens : nat) (i o e : fdesc) : ptree :=
  match c with
  | Exec [] => TExit 1
  | Exec ((a :: _) as argv) =>
      if os_exec id a then TExec a argv (std i o e)
      else say e (line "exec %s failed") [PStr (Some a)] (TExit 0)
  | Redir c file mode fd =>
      let f := FFile file mode id opens in
      if os_open id [] file mode then
        plan c id kids pipes (S opens) (if fd =? 0 then f else i) (if fd =? 1 then f else o) e
      else say e (line "open %s failed") [PStr (Some file)] (TExit 1)
  | CList l r =>
      if os_fork id kids then
        TFork (plan l (id ++ [kids]) 0 0 0 i o e) (TWait (std i o e) (plan r id (S kids) pipes opens i o e))
      else complain e "fork"
  | Pipe l r =>
      if os_pipe id pipes then
        if os_fork id kids then
          TFork (plan l (id ++ [kids]) 0 0 0 i (FWriteEnd id pipes) e)
            (if os_fork id (S kids) then
               TFork (plan r (id ++ [S kids]) 0 0 0 (FReadEnd id pipes) o e)
                 (TWait (std i o e) (TWait (std i o e) (TExit 0)))
             else complain e "fork")
        else complain e "fork"
      else complain e "pipe"
  | Back c =>
      if os_fork id kids then TFork (plan c (id ++ [kids]) 0 0 0 i o e) (TExit 0)
      else complain e "fork"
  end.
End plan.

(** Redirections of standard input and output only, as the parser makes them. *)
Fixpoint std_redirs (c : cmd (list Z)) : Prop :=
  match c with
  | Exec _ => True
  | Redir c _ _ fd => std_redirs c /\ (fd = 0 \/ fd = 1)
  | Pipe l r | CList l r => std_redirs l /\ std_redirs r
  | Back c => std_redirs c
  end.

Lemma expressible_std c : expressible c -> std_redirs c.
Proof. induction c; cbn; intuition. Qed.

#[local] Opaque vprintf fprintf.

Section refine.
Context `{Os}.

Lemma run_panic {A B} msg (k : A -> prog B) u e : fd_get (u_fds u) 2 = Some e ->
  run (pbind (sh_panic msg) k) u = complain e msg.
Proof. intros He. unfold sh_panic. rewrite pbind_assoc, run_fprintf, He. done. Qed.

Lemma run_panic_last {A} msg u e : fd_get (u_fds u) 2 = Some e -> run (@sh_panic A msg) u = complain e msg.
Proof. intros He. unfold sh_panic. rewrite run_fprintf, He. done. Qed.

Lemma run_fork1 {A} (k : Z -> prog A) u e : fd_get (u_fds u) 2 = Some e ->
  run (pbind fork1 k) u =
  if os_fork (u_id u) (u_kids u) then
    TFork (run (k 0) (child_of u)) (run (k (os_pid (u_id u ++ [u_kids u]))) (after_fork u))
  else complain e "fork".
Proof.
  intros He. unfold fork1. rewrite pbind_assoc. cbn [pbind sys run fst]. destruct (os_fork _ _).
  - pose proof (os_pid_pos (u_id u ++ [u_kids u])). cbn [Z.eqb pbind]. unfold child_of at 2; cbn [u_id].
    destruct (Z.eqb_spec (os_pid (u_id u ++ [u_kids u])) (-1)); [lia|done].
  - cbn [Z.eqb Pos.eqb]. by apply run_panic.
Qed.

(** The descriptor arithmetic. *)
Lemma run_close_open {A} fd f m (k : Z -> prog A) u i o e : u_fds u = std i o e -> u_done u = [] -> fd = 0 \/ fd = 1 ->
  let g := FFile f m (u_id u) (u_opens u) in
  run (sys (SClose fd) ;! pbind (sys (SOpen f m)) k) u =
  if os_open (u_id u) [] f m then
    run (k fd) (add_open (std (if fd =? 0 then g else i) (if fd =? 1 then g else o) e) u)
  else run (k (-1)) (set_fds (<[Z.to_nat fd := None]> (std i o e)) u).
Proof.
  destruct u as [id kids pipes opens fds rd ws d]. cbn [u_fds u_id u_opens u_done]. intros -> -> Hfd. cbn zeta.
  cbn [pbind sys run fst snd]. unfold do_open at 1 2. destruct Hfd as [-> | ->].
  - change (u_id (do_close 0 _).2) with id. change (u_done (do_close 0 _).2) with ([] : list call). by destruct (os_open id [] f m).
  - change (u_id (do_close 1 _).2) with id. change (u_done (do_close 1 _).2) with ([] : list call). by destruct (os_open id [] f m).
Qed.

(** Three and four: the descriptors of a new pipe. *)
Definition piped (i o e : fdesc) (id : procid) (n : nat) : fdtable :=
  [Some i; Some o; Some e; Some (FReadEnd id n); Some (FWriteEnd id n)] ++ replicate 11 None.

Lemma run_pipe {A} (k : answer -> prog A) u i o e : u_fds u = std i o e ->
  run (pbind (Call SPipe Return) k) u =
  if os_pipe (u_id u) (u_pipes u) then run (k (0, [3; 4])) (add_pipe (piped i o e (u_id u) (u_pipes u)) u) else run (k (-1, [])) u.
Proof.
  destruct u as [id kids pipes opens fds rd ws d]. cbn [u_fds u_id u_pipes]. intros ->. cbn [pbind run]. unfold do_pipe.
  cbn [u_id u_pipes]. by destruct (os_pipe id pipes).
Qed.

Lemma run_left {A} (k : prog A) u i o e id n : u_fds u = piped i o e id n ->
  run (sys (SClose 1) ;! sys (SDup 4) ;! sys (SClose 3) ;! sys (SClose 4) ;! k) u = run k (set_fds (std i (FWriteEnd id n) e) u).
Proof. destruct u as [id' kids pipes opens fds rd ws d]. cbn [u_fds]. by intros ->. Qed.

Lemma run_right {A} (k : prog A) u i o e id n : u_fds u = piped i o e id n ->
  run (sys (SClose 0) ;! sys (SDup 3) ;! sys (SClose 3) ;! sys (SClose 4) ;! k) u = run k (set_fds (std (FReadEnd id n) o e) u).
Proof. destruct u as [id' kids pipes opens fds rd ws d]. cbn [u_fds]. by intros ->. Qed.

Lemma std_err u i o e : u_fds u = std i o e -> fd_get (u_fds u) 2 = Some e.
Proof. by intros ->. Qed.
Lemma piped_err u i o e id n : u_fds u = piped i o e id n -> fd_get (u_fds u) 2 = Some e.
Proof. by intros ->. Qed.

Lemma pid_nonzero p : (os_pid p =? 0) = false.
Proof. pose proof (os_pid_pos p). lia. Qed.

Lemma run_wait {A} (k : prog A) u : run (sys SWait ;! k) u = TWait (u_fds u) (run k (next_wait u)).
Proof. done. Qed.

(** [runcmd] plumbs the descriptors as the plan says. *)
Lemma runcmd_plan {A} c : forall u i o e, std_redirs c -> u_fds u = std i o e -> u_done u = [] ->
  run (@runcmd A c) u = plan c (u_id u) (u_kids u) (u_pipes u) (u_opens u) i o e.
Proof.
  induction c as [argv|c IH f m fd|l IHl r IHr|l IHl r IHr|c IH]; intros u i o e Hs Hu Hd; cbn [runcmd plan];
    pose proof (std_err _ _ _ _ Hu) as He.
  - destruct argv as [|a argv]; [done|]. cbn [pbind sys run]. rewrite Hu. destruct (os_exec _ _); [done|].
    by rewrite run_fprintf, He.
  - destruct Hs as [Hs Hfd]. rewrite (run_close_open _ _ _ _ _ i o e) by done. destruct (os_open _ _ _ _).
    + replace (fd <? 0) with false by lia. by erewrite IH by done.
    + cbn [Z.ltb Z.compare]. rewrite run_fprintf. destruct Hfd as [-> | ->]; done.
  - destruct Hs as [Hl Hr]. rewrite (run_pipe _ _ i o e) by done. destruct (os_pipe _ _); [|by apply run_panic_last].
    cbn [Z.ltb Z.compare byte_at lookup list_lookup default from_option id].
    set (u1 := add_pipe _ u). assert (u_fds u1 = piped i o e (u_id u) (u_pipes u)) as H1 by done.
    rewrite (run_fork1 _ _ e) by (by eapply piped_err). change (os_fork (u_id u1) (u_kids u1)) with (os_fork (u_id u) (u_kids u)).
    destruct (os_fork _ _); [|done]. cbn [Z.eqb]. rewrite pid_nonzero. f_equal.
    { rewrite (run_left _ _ i o e (u_id u) (u_pipes u)) by done. by erewrite IHl by done. }
    rewrite (run_fork1 _ _ e) by (by eapply piped_err). change (os_fork (u_id (after_fork u1)) (u_kids (after_fork u1))) with (os_fork (u_id u) (S (u_kids u))).
    destruct (os_fork _ _); [|done]. cbn [Z.eqb]. rewrite pid_nonzero. f_equal.
    { rewrite (run_right _ _ i o e (u_id u) (u_pipes u)) by done. by erewrite IHr by done. }
  - destruct Hs as [Hl Hr]. rewrite (run_fork1 _ _ e) by done. destruct (os_fork _ _); [|done]. cbn [Z.eqb]. rewrite pid_nonzero. f_equal.
    + by erewrite IHl by done.
    + rewrite run_wait. change (u_fds (after_fork u)) with (u_fds u). rewrite Hu. f_equal. by erewrite IHr by done.
  - rewrite (run_fork1 _ _ e) by done. destruct (os_fork _ _); [|done]. cbn [Z.eqb]. rewrite pid_nonzero. f_equal. by erewrite IH by done.
Qed.
End refine.

(** ** Sessions *)

(** What a user types: commands, changes of directory, blank lines. *)
Inductive typed := LCmd (c : cmd (list Z)) | LCd (path : list Z) | LBlank (ws : list Z).

Definition typed_text (l : typed) : list Z :=
  match l with
  | LCmd c => print c
  | LCd path => [99; 100; 32] ++ path
  | LBlank ws => ws
  end.

(** Lines that fit the buffer; a command that begins with "cd " is a change of
    directory. *)
Definition typed_ok (l : typed) : Prop :=
  (length (typed_text l) + 1 < bufsize)%nat /\
  match l with
  | LCmd c => expressible c /\ print c <> [] /\ take 3 (print c) <> [99; 100; 32]
  | LCd path => Forall (fun c => c <> 0 /\ c <> 10 /\ c <> 13) path
  | LBlank ws => Forall (fun c => c = 32 \/ c = 9) ws
  end.

Section session.
Context `{Os}.

Fixpoint session (ls : list typed) (id : procid) (kids : nat) (done : list call) (i o e : fdesc) : ptree :=
  TWrite (Some e) (bytes_of "$ ")
    match ls with
    | [] => TExit 0
    | LBlank _ :: ls => session ls id kids done i o e
    | LCd path :: ls =>
        let rest := session ls id kids (done ++ [SChdir path]) i o e in
        TCall (SChdir path)
          (if os_result id done (SChdir path) <? 0 then say e (line "cannot cd %s") [PStr (Some path)] rest else rest)
    | LCmd c :: ls =>
        if os_fork id kids then
          TFork (plan c (id ++ [kids]) 0 0 0 i o e) (TWait (std i o e) (session ls id (S kids) done i o e))
        else complain e "fork"
    end.
End session.

(** ** Reading lines *)

Section input.
Context `{Os}.

(** Processes that differ only in what they have still to read. *)
Definition same_but_input (u u' : uproc) : Prop :=
  u_id u' = u_id u /\ u_kids u' = u_kids u /\ u_fds u' = u_fds u /\ u_done u' = u_done u.

Lemma chunk_one l : l <> [] -> os_chunk 1 l = 1%nat.
Proof. intros Hl. pose proof (os_chunk_ok 1 l ltac:(lia) Hl). lia. Qed.

Lemma run_read_one {A} (k : answer -> prog A) u f : fd_get (u_fds u) 0 = Some f ->
  run (pbind (Call (SRead 0 1) Return) k) u =
  match u_rd u f with
  | [] => run (k (0, [])) (set_rd f [] u)
  | c :: l => run (k (1, [c])) (set_rd f l u)
  end.
Proof.
  intros Hf. cbn [pbind run]. unfold do_read. rewrite Hf. destruct (u_rd u f) as [|c l] eqn:E; [done|].
  change (Z.to_nat 1) with 1%nat. by rewrite chunk_one by done.
Qed.

Lemma set_rd_same f l u : u_rd (set_rd f l u) f = l.
Proof. cbn. by rewrite decide_True. Qed.

Lemma run_gets {A} txt : forall max (k : list Z -> prog A) u f rest, fd_get (u_fds u) 0 = Some f ->
  u_rd u f = txt ++ 10 :: rest -> Forall (fun c => c <> 10 /\ c <> 13) txt -> (length txt < max)%nat ->
  exists u', run (pbind (gets_from max) k) u = run (k (txt ++ [10])) u' /\ u_rd u' f = rest /\ same_but_input u u'.
Proof.
  induction txt as [|c txt IH]; intros [|max] k u f rest Hf Hrd Ht Hl; try (cbn in Hl; lia); cbn [gets_from].
  - exists (set_rd f rest u). rewrite pbind_assoc, (run_read_one _ _ f Hf), Hrd. cbn [app]. split; [done|].
    split; [apply set_rd_same|done].
  - apply Forall_cons in Ht as [[Hc1 Hc2] Ht]. rewrite pbind_assoc, (run_read_one _ _ f Hf), Hrd. cbn [app].
    replace (1 <? 1) with false by done. change (byte_at [c] 0) with c. replace ((c =? 10) || (c =? 13)) with false by lia.
    rewrite pbind_assoc.
    destruct (IH max (fun l => pbind (Return (c :: l)) k) (set_rd f (txt ++ 10 :: rest) u) f rest) as (u' & R & Hr & Hs);
      [done|apply set_rd_same|done|cbn in Hl; lia|].
    exists u'. split; [exact R|]. done.
Qed.

Lemma run_gets_end {A} max (k : list Z -> prog A) u f : fd_get (u_fds u) 0 = Some f -> u_rd u f = [] -> (0 < max)%nat ->
  exists u', run (pbind (gets_from max) k) u = run (k []) u' /\ same_but_input u u'.
Proof.
  intros Hf Hrd Hm. destruct max as [|max]; [lia|]. cbn [gets_from]. exists (set_rd f [] u).
  by rewrite pbind_assoc, (run_read_one _ _ f Hf), Hrd.
Qed.
End input.

(** ** Characters of a line *)

Lemma print_chars c : expressible c -> Forall (fun b => b <> 0 /\ b <> 10 /\ b <> 13) (print c).
Proof.
  intros Hc. apply Forall_forall. intros b Hb. unfold print in Hb.
  apply list_elem_of_join in Hb as (t & Hx & (x & -> & Hin)%list_elem_of_fmap).
  apply elem_of_app in Hx as [Hx|Hx]; [|set_solver].
  pose proof (proj1 (Forall_forall _ _) (toks_tokens c Hc 3) x Hin) as [[_ Hw]|[->|(y & -> & Hy)]].
  - rewrite Forall_forall in Hw. destruct (Hw b Hx) as [H0 He]. split; [done|]. by split; intros ->.
  - set_solver.
  - apply symbol_cases in Hy. set_solver.
Qed.

Lemma print_head c : expressible c -> print c <> [] -> exists b l, print c = b :: l /\ b <> 0 /\ is_in whitespace b = false.
Proof.
  intros Hc Hne. unfold print in *. pose proof (toks_tokens c Hc 3) as Ht. destruct Ht as [|t ts Ht _]; [done|].
  destruct (token_head t Ht) as (b & t' & -> & Hb & Hw). rewrite spaced_cons. by exists b, (t' ++ 32 :: spaced ts).
Qed.

Lemma cstr_nonzero l : Forall (fun b => b <> 0) l -> cstr l = l.
Proof. induction 1 as [|b l Hb _ IH]; [done|]. cbn. by rewrite (proj2 (Z.eqb_neq _ _) Hb), IH. Qed.

Lemma skip_blanks_all ws l : Forall (fun c => c = 32 \/ c = 9) ws -> skip_blanks (ws ++ l) = skip_blanks l.
Proof. induction 1 as [|c ws [-> | ->] _ IH]; done. Qed.

Lemma typed_chars l : typed_ok l -> Forall (fun b => b <> 0 /\ b <> 10 /\ b <> 13) (typed_text l).
Proof.
  intros [_ Hl]. destruct l as [c|path|ws]; cbn.
  - apply print_chars. apply Hl.
  - by repeat (constructor; [lia|]).
  - apply (Forall_impl _ _ _ Hl). intros c. lia.
Qed.

(** A line that is parsed is the command that was printed. *)
Lemma parse_line_print c : expressible c -> print c <> [] -> parse_line (print c ++ [10]) = Return c.
Proof.
  intros Hc Hne. destruct (parsecmd_line c [10] Hc ltac:(by repeat constructor) ltac:(by right)) as (c' & E & Hm).
  unfold parsecmd in E. apply bind_inv in E as (c1 & p1 & E1 & E). apply bind_inv in E as (b & p2 & E2 & E).
  cbn in E. destruct (negb (Nat.eqb p2 (length (print c ++ [10])))) eqn:Ep; [done|]. injection E as -> Ep2.
  unfold parse_line. rewrite (bind_done _ _ _ _ _ E1), (bind_done _ _ _ _ _ E2). cbn [ret]. by rewrite Ep, Hm.
Qed.

Section main.
Context `{Os}.

Lemma run_getcmd {A} txt (k : list Z -> prog A) u i o e rest : u_fds u = std i o e ->
  u_rd u i = txt ++ 10 :: rest -> Forall (fun b => b <> 0 /\ b <> 10 /\ b <> 13) txt -> (length txt + 1 < bufsize)%nat ->
  exists u', run (pbind getcmd k) u = TWrite (Some e) (bytes_of "$ ") (run (k (txt ++ [10])) u') /\
    u_rd u' i = rest /\ same_but_input u u'.
Proof.
  intros Hu Hrd Ht Hl.
  destruct (run_gets txt (bufsize - 1) (fun l => pbind (Return (cstr l)) k) u i rest) as (u' & R & Hr & Hs).
  { by rewrite Hu. }
  { done. }
  { apply (Forall_impl _ _ _ Ht). intros b. lia. }
  { lia. }
  exists u'. split; [|done]. unfold getcmd. rewrite !pbind_assoc. cbn [sys pbind run]. rewrite (std_err _ i o e) by done. f_equal.
  rewrite pbind_assoc. etrans; [exact R|]. cbn [pbind]. rewrite cstr_nonzero; [done|].
  apply Forall_app. split; [|by constructor]. apply (Forall_impl _ _ _ Ht). intros b. lia.
Qed.

Lemma run_getcmd_end {A} (k : list Z -> prog A) u i o e : u_fds u = std i o e -> u_rd u i = [] ->
  exists u', run (pbind getcmd k) u = TWrite (Some e) (bytes_of "$ ") (run (k []) u').
Proof.
  intros Hu Hrd. destruct (run_gets_end (bufsize - 1) (fun l => pbind (Return (cstr l)) k) u i) as (u' & R & _).
  { by rewrite Hu. }
  { done. }
  { unfold bufsize. lia. }
  exists u'. unfold getcmd. rewrite !pbind_assoc. cbn [sys pbind run]. rewrite (std_err _ i o e) by done. f_equal.
  rewrite pbind_assoc. exact R.
Qed.

(** The rounds. *)
Lemma run_blank next ws u : Forall (fun c => c = 32 \/ c = 9) ws -> run (shell_line next (ws ++ [10])) u = run next u.
Proof.
  intros Hw. unfold shell_line. rewrite (skip_blanks_all ws [10] Hw).
  destruct Hw as [|c ws [-> | ->] _]; done.
Qed.

Lemma run_cd next path u i o e : u_fds u = std i o e ->
  run (shell_line next ([99; 100; 32] ++ path ++ [10])) u =
  TCall (SChdir path)
    (let rest := run next (add_done (SChdir path) u) in
     if os_result (u_id u) (u_done u) (SChdir path) <? 0 then say e (line "cannot cd %s") [PStr (Some path)] rest else rest).
Proof.
  intros Hu. unfold shell_line. cbn [app byte_at lookup list_lookup default from_option id Z.eqb Pos.eqb skip_blanks orb andb].
  assert (drop 3 (take (length (99 :: 100 :: 32 :: path ++ [10]) - 1) (99 :: 100 :: 32 :: path ++ [10])) = path) as ->.
  { cbn [length]. rewrite length_app. cbn [length]. replace (S (S (S (length path + 1))) - 1)%nat with (S (S (S (length path)))) by lia.
    cbn [take drop]. by rewrite take_app_length. }
  cbn [sys pbind run fst]. f_equal. destruct (_ <? 0); [|done]. rewrite run_fprintf. cbn [u_fds add_done].
  by rewrite (std_err u i o e).
Qed.

Lemma run_cmd next c u i o e : u_fds u = std i o e -> expressible c -> print c <> [] -> take 3 (print c) <> [99; 100; 32] ->
  run (shell_line next (print c ++ [10])) u =
  if os_fork (u_id u) (u_kids u) then
    TFork (plan c (u_id u ++ [u_kids u]) 0 0 0 i o e) (TWait (std i o e) (run next (next_wait (after_fork u))))
  else complain e "fork".
Proof.
  intros Hu Hc Hne Hcd. unfold shell_line. destruct (print_head c Hc Hne) as (b & l & El & Hb & Hw).
  assert (b <> 32 /\ b <> 9 /\ b <> 10) as (H1 & H2 & H3) by (split_and!; by intros ->).
  assert (skip_blanks (print c ++ [10]) = print c ++ [10]) as ->.
  { rewrite El. cbn. by replace ((b =? 32) || (b =? 9)) with false by lia. }
  assert (byte_at (print c ++ [10]) 0 = b) as -> by (by rewrite El). rewrite (proj2 (Z.eqb_neq b 0)), (proj2 (Z.eqb_neq b 10)) by done.
  assert ((b =? 99) && (byte_at (print c ++ [10]) 1 =? 100) && (byte_at (print c ++ [10]) 2 =? 32) = false) as ->.
  { apply not_true_iff_false. intros [[E1%Z.eqb_eq E2%Z.eqb_eq]%andb_prop E3%Z.eqb_eq]%andb_prop. apply Hcd. rewrite El in *. subst b.
    destruct l as [|x [|y l]]; cbn in E2, E3; simplify_eq; done. }
  rewrite (run_fork1 _ _ e) by (by eapply std_err). destruct (os_fork _ _); [|done]. cbn [Z.eqb]. rewrite pid_nonzero.
  rewrite (parse_line_print c Hc Hne). f_equal; [|rewrite run_wait; change (u_fds (after_fork u)) with (u_fds u); by rewrite Hu].
  cbn [pbind]. by erewrite runcmd_plan by (done || by apply expressible_std).
Qed.

(** The session the lines ask for. *)
Lemma shell_session ls : forall fuel u i o e, u_fds u = std i o e -> Forall typed_ok ls ->
  u_rd u i = mjoin ((fun l => typed_text l ++ [10]) <$> ls) -> (length ls < fuel)%nat ->
  run (shell fuel) u = session ls (u_id u) (u_kids u) (u_done u) i o e.
Proof.
  induction ls as [|l ls IH]; intros [|fuel] u i o e Hu Hok Hrd Hf; try (cbn in Hf; lia); cbn [shell session].
  { by destruct (run_getcmd_end (fun buf => shell_line (shell fuel) buf) u i o e Hu Hrd) as (u' & ->). }
  apply Forall_cons in Hok as [Hl Hok]. pose proof (typed_chars l Hl) as Hch. destruct Hl as [Hlen Hl].
  cbn [fmap list_fmap mjoin list_join] in Hrd. rewrite <- (assoc_L (++)) in Hrd. cbn [app] in Hrd. cbn in Hf.
  destruct (run_getcmd (typed_text l) (fun buf => shell_line (shell fuel) buf) u i o e _ Hu Hrd Hch Hlen) as (u' & -> & Hr & Hid & Hk & Hfd & Hdn).
  f_equal. rewrite Hu in Hfd. rewrite <- Hid, <- Hk, <- Hdn. destruct l as [c|path|ws]; cbn [typed_text] in *.
  - destruct Hl as (Hc & Hne & Hcd). rewrite (run_cmd _ _ _ i o e) by done. destruct (os_fork _ _); [|done]. do 2 f_equal.
    by erewrite IH by (done || lia).
  - rewrite <- (assoc_L (++)), (run_cd _ _ _ i o e) by done. f_equal. cbn zeta. by erewrite IH by (done || lia).
  - rewrite run_blank by done. by erewrite IH by (done || lia).
Qed.
End main.

(** ** Pipes are closed where they are not used *)

(** A program that is executed or a process that waits holds [f]. *)
Fixpoint holds (f : fdesc) (t : ptree) : Prop :=
  match t with
  | TExec _ _ fds => Some f ∈ fds
  | TWait fds t => Some f ∈ fds \/ holds f t
  | TFork t1 t2 => holds f t1 \/ holds f t2
  | TWrite _ _ t | TCall _ t => holds f t
  | TExit _ | TReturn | TNoFuel => False
  end.

(** [f] is no pipe or file that a process below [id] still makes. *)
Definition foreign (f : fdesc) (id : procid) (pipes opens : nat) : Prop :=
  match f with
  | FReadEnd p n | FWriteEnd p n => ~ id `prefix_of` p \/ p = id /\ (n < pipes)%nat
  | FFile _ _ p n => ~ id `prefix_of` p \/ p = id /\ (n < opens)%nat
  end.

Lemma foreign_child f id pipes opens k : foreign f id pipes opens -> foreign f (id ++ [k]) 0 0.
Proof.
  assert (forall p, ~ id `prefix_of` p -> ~ id ++ [k] `prefix_of` p) as H1.
  { intros p Hp Hq. apply Hp. by eapply prefix_app_l. }
  assert (~ id ++ [k] `prefix_of` id) as H2.
  { intros Hq%prefix_length. rewrite length_app in Hq. cbn in Hq. lia. }
  destruct f; cbn; intros [Hp|[-> _]]; left; auto.
Qed.

Lemma foreign_more f id pipes opens pipes' opens' :
  foreign f id pipes opens -> (pipes <= pipes')%nat -> (opens <= opens')%nat -> foreign f id pipes' opens'.
Proof. destruct f; cbn; intuition lia. Qed.

Lemma holds_put f e bs t : holds f (put e bs t) <-> holds f t.
Proof. induction bs; done. Qed.

Lemma holds_std f i o e : Some f ∈ std i o e -> f = i \/ f = o \/ f = e.
Proof. unfold std. intros [Hin|[Hn _]%elem_of_replicate]%elem_of_app; [set_solver|done]. Qed.

Section eof.
Context `{Os}.

Lemma say_holds f e fmt args st : ~ holds f (say e fmt args (TExit st)).
Proof. unfold say. rewrite holds_put. by intros []. Qed.
Lemma complain_holds f e msg : ~ holds f (complain e msg).
Proof. unfold complain. apply say_holds. Qed.

Lemma plan_holds c : forall f id kids pipes opens i o e,
  foreign f id pipes opens -> f <> i -> f <> o -> f <> e -> ~ holds f (plan c id kids pipes opens i o e).
Proof.
  induction c as [argv|c IH g m fd|l IHl r IHr|l IHl r IHr|c IH]; intros f id kids pipes opens i o e Hf Hi Ho He; cbn [plan].
  - destruct argv as [|a argv]; [by intros []|]. destruct (os_exec _ _); cbn [holds].
    + intros [?|[?|?]]%holds_std; done.
    + apply say_holds.
  - destruct (os_open _ _ _ _); [|apply say_holds].
    assert (f <> FFile g m id opens) as Hne.
    { intros ->. destruct Hf as [Hf|[_ Hf]]; [by apply Hf|lia]. }
    apply IH; [eapply foreign_more; [done|lia|lia]|by case_match|by case_match|done].
  - destruct (os_pipe _ _); [|apply complain_holds]. destruct (os_fork _ _); [|apply complain_holds].
    assert (f <> FReadEnd id pipes /\ f <> FWriteEnd id pipes) as [Hr Hw].
    { split; intros ->; (destruct Hf as [Hf|[_ Hf]]; [by apply Hf|lia]). }
    pose proof (fun k => foreign_child _ _ _ _ k Hf) as Hc. cbn [holds]. intros [Hl|Hp]; [by eapply IHl; [..|exact Hl]|].
    destruct (os_fork _ _); [|by eapply complain_holds]. cbn [holds] in Hp.
    destruct Hp as [Hp|[Hp|[Hp|[]]]]; [by eapply IHr; [..|exact Hp]| |]; apply holds_std in Hp; naive_solver.
  - destruct (os_fork _ _); [|apply complain_holds]. pose proof (foreign_child _ _ _ _ kids Hf) as Hc. cbn [holds].
    intros [Hl|[Hp|Hr]]; [by eapply IHl; [..|exact Hl]|apply holds_std in Hp; naive_solver|by eapply IHr; [..|exact Hr]].
  - destruct (os_fork _ _); [|apply complain_holds]. pose proof (foreign_child _ _ _ _ kids Hf) as Hc. cbn [holds].
    intros [Hl|[]]. by eapply IH; [..|exact Hl].
Qed.
End eof.

(** ** Properties *)

Section properties.
Context `{Os}.

(** With the three descriptors open, the loop opens a fourth and closes it. *)
Lemma run_open_console {A} (k : prog A) u i o e : u_fds u = std i o e ->
  exists u', run (open_console 4 ;! k) u = run k u' /\ u_fds u' = std i o e /\
    u_id u' = u_id u /\ u_kids u' = u_kids u /\ u_done u' = u_done u /\ u_rd u' = u_rd u.
Proof.
  destruct u as [id kids pipes opens fds rd ws d]. cbn [u_fds]. intros ->. cbn [open_console]. rewrite pbind_assoc.
  cbn [sys pbind run]. unfold do_open. cbn [u_id u_opens u_fds]. destruct (os_open id _ _ _); by eexists.
Qed.

(** C25: The shell does what the lines say: for every sequence of commands, changes of
    directory and blank lines that a user types, [main] of sh.c, with its standard
    descriptors open, reads the lines one after the other, parses each of them to
    the command that was typed, starts exactly the processes that the plan of the
    command asks for, with exactly their standard descriptors wired as redirections
    and pipes say and no other descriptor open, waits for the command before it
    reads the next line, and exits at the end of the input. Calls that fail end the
    process they fail in with the message the plan shows. *)
Theorem sh_session ls fuel u i o e :
  u_fds u = std i o e -> Forall typed_ok ls -> u_rd u i = mjoin ((fun l => typed_text l ++ [10]) <$> ls) ->
  (length ls < fuel)%nat -> run (sh_main fuel) u = session ls (u_id u) (u_kids u) (u_done u) i o e.
Proof.
  intros Hu Hok Hrd Hf. unfold sh_main. destruct (run_open_console (shell fuel) u i o e Hu) as (u' & -> & Hu' & <- & <- & <- & Hr).
  apply shell_session; try done. by rewrite Hr.
Qed.

(** C26: Pipes are closed where they are not used: when [runcmd] runs a pipeline, its
    two sides run with the write and the read end of the new pipe as their
    standard output and input; no process of the right side and neither wait of
    the parent holds the write end, so that the right side sees the end of its
    input when the left side is done, and no process of the left side and
    neither wait holds the read end. *)
Theorem pipe_ends {A} u i o e l r :
  let id := u_id u in let n := u_pipes u in let k := u_kids u in
  u_fds u = std i o e -> u_done u = [] -> std_redirs l -> std_redirs r ->
  FWriteEnd id n ∉ [i; o; e] -> FReadEnd id n ∉ [i; o; e] ->
  os_pipe id n = true -> os_fork id k = true -> os_fork id (S k) = true ->
  let tl := plan l (id ++ [k]) 0 0 0 i (FWriteEnd id n) e in
  let tr := plan r (id ++ [S k]) 0 0 0 (FReadEnd id n) o e in
  let tp := TWait (std i o e) (TWait (std i o e) (TExit 0)) in
  run (@runcmd A (Pipe l r)) u = TFork tl (TFork tr tp) /\
  ~ holds (FReadEnd id n) tl /\ ~ holds (FWriteEnd id n) tr /\ ~ holds (FWriteEnd id n) tp /\ ~ holds (FReadEnd id n) tp.
Proof.
  intros id n k Hu Hd Hl Hr Hw Hrd Ep Ef1 Ef2 tl tr tp.
  assert (forall f, f = FWriteEnd id n \/ f = FReadEnd id n -> forall j, foreign f (id ++ [j]) 0 0) as Hfor.
  { intros f Hf j. apply (foreign_child f id (S n) 0). destruct Hf as [-> | ->]; right; (split; [done|lia]). }
  split_and!.
  - erewrite (runcmd_plan (Pipe l r)) by done. cbn [plan]. fold id n k. by rewrite Ep, Ef1, Ef2.
  - apply plan_holds; [apply Hfor; by right|set_solver|done|set_solver].
  - apply plan_holds; [apply Hfor; by left|done|set_solver|set_solver].
  - intros [Hh|[Hh|[]]]; apply holds_std in Hh; set_solver.
  - intros [Hh|[Hh|[]]]; apply holds_std in Hh; set_solver.
Qed.
End properties.

(** ** Examples *)

(** A system in which everything succeeds. *)
Definition demo_os : Os.
Proof.
  refine {| os_open _ _ _ _ := true; os_fork _ _ := true; os_pipe _ _ := true; os_exec _ _ := true;
            os_chunk n l := Nat.min n (length l); os_write _ _ bs := Z.of_nat (length bs);
            os_result _ _ _ := 0; os_stat _ := None; os_pid p := Z.of_nat (length p) + 1 |}.
  - intros n l Hn Hl. destruct l; [done|]. cbn [length]. lia.
  - lia.
Defined.

Definition demo_tty : fdesc := FFile (bytes_of "console") O_RDWR [] 0.
Definition demo_typed : list typed :=
  [LBlank [32; 9]; LCd (bytes_of "bin"); LCmd (Pipe (Exec [bytes_of "ls"]) (Redir (Exec [bytes_of "wc"]) (bytes_of "n") (Z.lor (Z.lor O_WRONLY O_CREATE) O_TRUNC) 1))].
Definition demo_shell : uproc :=
  mkU [0%nat] 0 0 0 (std demo_tty demo_tty demo_tty)
    (fun f => if decide (f = demo_tty) then mjoin ((fun l => typed_text l ++ [10]) <$> demo_typed) else []) [] [].

Lemma demo_word w : w <> [] -> forallb (fun c => negb (c =? 0) && negb (ends_word c)) w = true -> word w.
Proof.
  intros Hn Hw. split; [done|]. apply Forall_forall. intros c Hc. rewrite forallb_forall in Hw.
  apply list_elem_of_In in Hc. specialize (Hw c Hc). destruct (Z.eqb_spec c 0), (ends_word c); done.
Qed.

Lemma demo_typed_ok : Forall typed_ok demo_typed.
Proof.
  unfold demo_typed. apply Forall_cons_2; [|apply Forall_cons_2; [|apply Forall_cons_2; [|apply Forall_nil_2]]].
  - split; [vm_compute; lia|]. cbn. repeat (apply Forall_cons_2; [lia|]). apply Forall_nil_2.
  - split; [vm_compute; lia|]. cbn. repeat (apply Forall_cons_2; [lia|]). apply Forall_nil_2.
  - split; [vm_compute; lia|]. split_and!; [|done|done]. cbn [expressible]. split_and!.
    + apply Forall_cons_2; [by apply demo_word|apply Forall_nil_2].
    + cbn. unfold MAXARGS. lia.
    + apply Forall_cons_2; [by apply demo_word|apply Forall_nil_2].
    + cbn. unfold MAXARGS. lia.
    + by apply demo_word.
    + right; left. done.
Qed.

Lemma sh_session_witness :
  @run demo_os _ (sh_main 4) demo_shell = @session demo_os demo_typed [0%nat] 0 [] demo_tty demo_tty demo_tty.
Proof. apply (@sh_session demo_os demo_typed 4 demo_shell demo_tty demo_tty demo_tty); [done|apply demo_typed_ok|done|cbn; lia]. Defined.

Lemma pipe_ends_witness :
  ~ holds (FWriteEnd [0%nat] 0) (@plan demo_os (Exec [bytes_of "wc"]) [0%nat; 1%nat] 0 0 0 (FReadEnd [0%nat] 0) demo_tty demo_tty).
Proof.
  apply (@pipe_ends demo_os unit demo_shell demo_tty demo_tty demo_tty (Exec [bytes_of "ls"]) (Exec [bytes_of "wc"])); try done; set_solver.
Defined.
