(* ===== verification/Spinlock.v ===== *)
(** * Spin-locks

    kernel/spinlock.c on several harts: the routines on a state of locks and harts,
    first as sequential code and then as a step relation in
    which every access to a lock's words is a step of its own, so that the
    routines of different harts interleave at each memory access. The lock
    operations of the kernel model ([acquire] and [release] on the list of locks
    the running hart holds) are a refinement of these. *)

From stdpp Require Import functions.
From S2P Require Import Prelude Kernel.

(** ** Definitions *)

Record lock := mkLock { lk_locked : Z; lk_name : string; lk_cpu : option nat }.

(** Where a hart is inside [acquire] and [release]: [AcqChk] has disabled
    interrupts, [AcqChk2] has found [locked] set, [AcqTry] is about to swap,
    [AcqSet] has the lock and not yet recorded itself; [RelChk2] has found
    [locked] set, [RelClr] passed the check, [RelStore] has cleared [cpu],
    [RelPop] has released the lock. A panic spins for ever. *)
Inductive pc :=
| Run
| AcqChk (l : lockid) | AcqChk2 (l : lockid) | AcqTry (l : lockid) | AcqSet (l : lockid)
| RelChk2 (l : lockid) | RelClr (l : lockid) | RelStore (l : lockid) | RelPop
| Panicked (msg : string).

(** A hart: [noff] and [intena] of its [struct cpu], its interrupt-enable bit,
    where it is, the locks whose [acquire] has returned and whose [release] has
    not cleared them, and how many calls of [push_off] of its own are open. *)
Record hart := mkHart {
  h_noff : Z; h_intena : bool; h_sie : bool; h_pc : pc; h_held : list lockid; h_pushed : nat
}.

Record smp := mkSmp { s_lock : lockid -> lock; s_hart : nat -> hart }.

Definition set_lock (l : lockid) (k : lock) (s : smp) : smp := mkSmp (<[l := k]> (s_lock s)) (s_hart s).
Definition set_hart (h : nat) (x : hart) (s : smp) : smp := mkSmp (s_lock s) (<[h := x]> (s_hart s)).

Definition set_cpu (h : nat) (noff : Z) (intena sie : bool) (s : smp) : smp :=
  let x := s_hart s h in set_hart h (mkHart noff intena sie (h_pc x) (h_held x) (h_pushed x)) s.
Definition set_sie (h : nat) (b : bool) (s : smp) : smp :=
  set_cpu h (h_noff (s_hart s h)) (h_intena (s_hart s h)) b s.
Definition go (h : nat) (p : pc) (s : smp) : smp :=
  let x := s_hart s h in
  set_hart h (mkHart (h_noff x) (h_intena x) (h_sie x) p (h_held x) (h_pushed x)) s.
Definition set_held (h : nat) (ls : list lockid) (s : smp) : smp :=
  let x := s_hart s h in
  set_hart h (mkHart (h_noff x) (h_intena x) (h_sie x) (h_pc x) ls (h_pushed x)) s.
Definition set_pushed (h : nat) (n : nat) (s : smp) : smp :=
  let x := s_hart s h in
  set_hart h (mkHart (h_noff x) (h_intena x) (h_sie x) (h_pc x) (h_held x) n) s.

(** *** The routines *)

Definition intr_get (h : nat) : M smp bool := fun s => Done (h_sie (s_hart s h)) s.
Definition intr_on (h : nat) : M smp unit := modify (set_sie h true).
Definition intr_off (h : nat) : M smp unit := modify (set_sie h false).

Definition push_off (h : nat) : M smp unit :=
  let* old := intr_get h in
  intr_off h ;;
  modify (fun s =>
    let x := s_hart s h in
    set_cpu h (h_noff x + 1) (if h_noff x =? 0 then old else h_intena x) (h_sie x) s).

Definition pop_off (h : nat) : M smp unit :=
  let* on := intr_get h in
  if on then panic "pop_off - interruptible"
  else
    let* s := get in
    if h_noff (s_hart s h) <? 1 then panic "pop_off"
    else
      modify (fun s => let x := s_hart s h in set_cpu h (h_noff x - 1) (h_intena x) (h_sie x) s) ;;
      let* s := get in
      if (h_noff (s_hart s h) =? 0) && h_intena (s_hart s h) then intr_on h else ret tt.

Definition initlock (l : lockid) (name : string) : M smp unit := modify (set_lock l (mkLock 0 name None)).

Definition read_locked (l : lockid) : M smp Z := fun s => Done (lk_locked (s_lock s l)) s.
Definition read_cpu (l : lockid) : M smp (option nat) := fun s => Done (lk_cpu (s_lock s l)) s.
Definition write_cpu (l : lockid) (c : option nat) : M smp unit := modify (fun s =>
  set_lock l (mkLock (lk_locked (s_lock s l)) (lk_name (s_lock s l)) c) s).
Definition test_and_set (l : lockid) : M smp Z := fun s =>
  Done (lk_locked (s_lock s l)) (set_lock l (mkLock 1 (lk_name (s_lock s l)) (lk_cpu (s_lock s l))) s).
Definition lock_release (l : lockid) : M smp unit := modify (fun s =>
  set_lock l (mkLock 0 (lk_name (s_lock s l)) (lk_cpu (s_lock s l))) s).

Definition holding (h : nat) (l : lockid) : M smp bool :=
  let* v := read_locked l in
  if v =? 0 then ret false
  else let* c := read_cpu l in ret (bool_decide (c = Some h)).

(** The loop on the swap, for a hart that runs alone. *)
Fixpoint spin (fuel : nat) (l : lockid) : M smp unit :=
  match fuel with
  | O => nofuel
  | S fuel => let* v := test_and_set l in if v =? 0 then ret tt else spin fuel l
  end.

Definition acquire (fuel h : nat) (l : lockid) : M smp unit :=
  push_off h ;;
  let* r := holding h l in
  if r then panic "acquire"
  else spin fuel l ;; write_cpu l (Some h).

Definition release (h : nat) (l : lockid) : M smp unit :=
  let* r := holding h l in
  if negb r then panic "release"
  else write_cpu l None ;; lock_release l ;; pop_off h.

(** *** The routines of all harts, interleaved *)

Inductive step (s : smp) : smp -> Prop :=
| st_acquire h l s' :
    h_pc (s_hart s h) = Run -> push_off h s = Done tt s' -> step s (go h (AcqChk l) s')
| st_acq_locked h l v s' :
    h_pc (s_hart s h) = AcqChk l -> read_locked l s = Done v s' ->
    step s (go h (if v =? 0 then AcqTry l else AcqChk2 l) s')
| st_acq_cpu h l c s' :
    h_pc (s_hart s h) = AcqChk2 l -> read_cpu l s = Done c s' ->
    step s (go h (if bool_decide (c = Some h) then Panicked "acquire" else AcqTry l) s')
| st_acq_swap h l v s' :
    h_pc (s_hart s h) = AcqTry l -> test_and_set l s = Done v s' ->
    step s (go h (if v =? 0 then AcqSet l else AcqTry l) s')
| st_acq_done h l s' :
    h_pc (s_hart s h) = AcqSet l -> write_cpu l (Some h) s = Done tt s' ->
    step s (go h Run (set_held h (l :: h_held (s_hart s h)) s'))
| st_release h l v s' :
    h_pc (s_hart s h) = Run -> read_locked l s = Done v s' ->
    step s (go h (if v =? 0 then Panicked "release" else RelChk2 l) s')
| st_rel_cpu h l c s' :
    h_pc (s_hart s h) = RelChk2 l -> read_cpu l s = Done c s' ->
    step s (go h (if bool_decide (c = Some h) then RelClr l else Panicked "release") s')
| st_rel_clear h l s' :
    h_pc (s_hart s h) = RelClr l -> write_cpu l None s = Done tt s' ->
    step s (go h (RelStore l) (set_held h (filter (fun l' => l' <> l) (h_held (s_hart s h))) s'))
| st_rel_store h l s' :
    h_pc (s_hart s h) = RelStore l -> lock_release l s = Done tt s' -> step s (go h RelPop s')
| st_rel_pop h s' :
    h_pc (s_hart s h) = RelPop -> pop_off h s = Done tt s' -> step s (go h Run s')
| st_push_off h s' :
    h_pc (s_hart s h) = Run -> push_off h s = Done tt s' ->
    step s (set_pushed h (S (h_pushed (s_hart s h))) s')
| st_pop_off h n s' :
    h_pc (s_hart s h) = Run -> h_pushed (s_hart s h) = S n -> pop_off h s = Done tt s' ->
    step s (set_pushed h n s')
| st_intr h b :
    h_pc (s_hart s h) = Run -> h_noff (s_hart s h) = 0 -> step s (set_sie h b s).

(** The harts start with nothing held, every lock initialised. *)
Definition booted (s : smp) : Prop :=
  (forall l, lk_locked (s_lock s l) = 0 /\ lk_cpu (s_lock s l) = None) /\
  (forall h, h_noff (s_hart s h) = 0 /\ h_pc (s_hart s h) = Run /\ h_held (s_hart s h) = [] /\ h_pushed (s_hart s h) = 0%nat).

Inductive reachable : smp -> Prop :=
| reach_boot s : booted s -> reachable s
| reach_step s s' : reachable s -> step s s' -> reachable s'.

(** ** The invariant *)

(** The hart is between the swap that gave it the lock and the store that frees
    it. *)
Definition occupies (s : smp) (h : nat) (l : lockid) : Prop :=
  l ∈ h_held (s_hart s h) \/ h_pc (s_hart s h) = AcqSet l \/ h_pc (s_hart s h) = RelStore l.

(** Calls of [push_off] that [acquire] or [release] has open. *)
Definition pc_depth (p : pc) : Z :=
  match p with
  | Run | RelChk2 _ | RelClr _ => 0
  | Panicked _ => 0
  | _ => 1
  end.

Definition is_panicked (p : pc) : bool := match p with Panicked _ => true | _ => false end.

Record hart_ok (s : smp) (h : nat) (x : hart) : Prop := {
  ho_noff : is_panicked (h_pc x) = false ->
    h_noff x = Z.of_nat (length (h_held x)) + Z.of_nat (h_pushed x) + pc_depth (h_pc x);
  ho_off : h_noff x <> 0 -> h_sie x = false;
  ho_pos : 0 <= h_noff x;
  ho_held_off : h_held x <> [] -> h_noff x <> 0;
  ho_nodup : NoDup (h_held x);
  ho_cpu : forall l, l ∈ h_held x <-> lk_cpu (s_lock s l) = Some h;
  ho_acq : forall l, h_pc x = AcqTry l \/ h_pc x = AcqSet l \/ h_pc x = RelStore l -> l ∉ h_held x;
  ho_clr : forall l, h_pc x = RelClr l -> l ∈ h_held x
}.

Definition lock_ok (s : smp) (l : lockid) : Prop :=
  (lk_locked (s_lock s l) = 0 /\ forall h, ~ occupies s h l) \/
  (lk_locked (s_lock s l) = 1 /\ exists h, forall h', occupies s h' l <-> h' = h).

Record inv (s : smp) : Prop := {
  inv_hart : forall h, hart_ok s h (s_hart s h);
  inv_lock : forall l, lock_ok s l
}.

(** ** Preservation *)

Section preserve.
Variables (s s' : smp) (h : nat).
Hypothesis I : inv s.
Hypothesis others : forall h', h' <> h -> s_hart s' h' = s_hart s h'.

(** A step of hart [h] that leaves the other harts alone. *)
Lemma inv_local :
  (forall l h', h' <> h -> lk_cpu (s_lock s' l) = Some h' <-> lk_cpu (s_lock s l) = Some h') ->
  hart_ok s' h (s_hart s' h) -> (forall l, lock_ok s' l) -> inv s'.
Proof using I others.
  intros Hc Hx Hl. split; [|done]. intros h'. destruct (decide (h' = h)) as [-> |Hn]; [done|].
  rewrite others by done. destruct (inv_hart s I h') as [? ? ? ? ? Hcpu ? ?].
  split; try done. intros l. rewrite Hc by done. apply Hcpu.
Qed.

Lemma occupies_other h' l : h' <> h -> occupies s' h' l <-> occupies s h' l.
Proof using others. intros Hn. unfold occupies. by rewrite others. Qed.

(** A lock stays consistent when the hart occupies it after the step exactly
    when it did before. *)
Lemma lock_same l :
  lk_locked (s_lock s' l) = lk_locked (s_lock s l) -> (occupies s' h l <-> occupies s h l) -> lock_ok s' l.
Proof using I others.
  intros Hl Ho.
  assert (forall h', occupies s' h' l <-> occupies s h' l) as E.
  { intros h'. destruct (decide (h' = h)) as [-> |]; [done|by apply occupies_other]. }
  destruct (inv_lock s I l) as [[L N]|[L [w W]]]; [left|right]; rewrite Hl; (split; [done|]).
  - intros h'. rewrite E. apply N.
  - exists w. intros h'. rewrite E. apply W.
Qed.

(** A free lock is taken. *)
Lemma lock_taken l :
  lk_locked (s_lock s l) = 0 -> lk_locked (s_lock s' l) = 1 -> occupies s' h l -> lock_ok s' l.
Proof using I others.
  intros L0 L1 Ho. right. split; [done|]. exists h. intros h'.
  destruct (inv_lock s I l) as [[_ N]|[L _]]; [|congruence].
  destruct (decide (h' = h)) as [-> |Hn]; [done|].
  rewrite occupies_other by done. specialize (N h'). naive_solver.
Qed.

(** An occupied lock is freed. *)
Lemma lock_freed l :
  occupies s h l -> lk_locked (s_lock s' l) = 0 -> ~ occupies s' h l -> lock_ok s' l.
Proof using I others.
  intros Ho L0 Hn. left. split; [done|]. intros h'.
  destruct (inv_lock s I l) as [[_ N]|[_ [w W]]]; [by destruct (N h)|].
  destruct (decide (h' = h)) as [-> |Hh]; [done|].
  rewrite occupies_other by done. rewrite W. apply W in Ho. congruence.
Qed.
End preserve.

Ltac fnsimpl := repeat first
  [ progress cbn [s_lock s_hart set_lock set_hart set_cpu set_sie go set_held set_pushed
                  h_noff h_intena h_sie h_pc h_held h_pushed lk_locked lk_cpu lk_name]
  | rewrite fn_lookup_insert | rewrite fn_lookup_insert_ne by done ].
Tactic Notation "fnsimpl" "in" hyp(H) := repeat first
  [ progress cbn [s_lock s_hart set_lock set_hart set_cpu set_sie go set_held set_pushed
                  h_noff h_intena h_sie h_pc h_held h_pushed lk_locked lk_cpu lk_name] in H
  | rewrite fn_lookup_insert in H | rewrite fn_lookup_insert_ne in H by done ].

(** [push_off] and [pop_off] change only the hart they run on. *)
Lemma push_off_spec h s : exists s',
  push_off h s = Done tt s' /\ s_lock s' = s_lock s /\ (forall h', h' <> h -> s_hart s' h' = s_hart s h') /\
  s_hart s' h = mkHart (h_noff (s_hart s h) + 1)
    (if h_noff (s_hart s h) =? 0 then h_sie (s_hart s h) else h_intena (s_hart s h)) false
    (h_pc (s_hart s h)) (h_held (s_hart s h)) (h_pushed (s_hart s h)).
Proof.
  eexists. split_and!; [reflexivity|done| |].
  - intros h' Hn. by fnsimpl.
  - by fnsimpl.
Qed.

Lemma pop_off_spec h s s' :
  pop_off h s = Done tt s' ->
  h_sie (s_hart s h) = false /\ 1 <= h_noff (s_hart s h) /\
  s_lock s' = s_lock s /\ (forall h', h' <> h -> s_hart s' h' = s_hart s h') /\
  s_hart s' h = mkHart (h_noff (s_hart s h) - 1) (h_intena (s_hart s h))
    ((h_noff (s_hart s h) =? 1) && h_intena (s_hart s h))
    (h_pc (s_hart s h)) (h_held (s_hart s h)) (h_pushed (s_hart s h)).
Proof.
  unfold pop_off. intros H. unfold bind, intr_get in H.
  destruct (h_sie (s_hart s h)) eqn:Es; [done|]. unfold get in H.
  destruct (Z.ltb_spec (h_noff (s_hart s h)) 1) as [|Hn]; [done|].
  unfold modify in H. fnsimpl in H.
  replace (h_noff (s_hart s h) =? 1) with (h_noff (s_hart s h) - 1 =? 0) by lia.
  destruct ((h_noff (s_hart s h) - 1 =? 0) && h_intena (s_hart s h)) eqn:E.
  all: unfold intr_on, modify, ret in H; injection H as <-; split_and!; [done|lia|done| |];
    [intros h' Hh; by fnsimpl|fnsimpl; by rewrite ?Es].
Qed.

(** A step within a routine that writes no lock word. *)
Lemma inv_go s h p :
  inv s ->
  (is_panicked p = false ->
   is_panicked (h_pc (s_hart s h)) = false /\ pc_depth p = pc_depth (h_pc (s_hart s h))) ->
  (forall l, p <> AcqSet l /\ p <> RelStore l /\ h_pc (s_hart s h) <> AcqSet l /\ h_pc (s_hart s h) <> RelStore l) ->
  (forall l, p = AcqTry l -> l ∉ h_held (s_hart s h)) ->
  (forall l, p = RelClr l -> l ∈ h_held (s_hart s h)) ->
  inv (go h p s).
Proof.
  intros I Hd Ho Ha Hr. assert (forall h', h' <> h -> s_hart (go h p s) h' = s_hart s h') as Oth
    by (intros; by fnsimpl).
  apply (inv_local s _ h); [done|done|done| |].
  - destruct (inv_hart s I h). fnsimpl. split; cbn [h_noff h_intena h_sie h_pc h_held h_pushed]; try done.
    + intros E. destruct (Hd E) as [E' ->]. auto.
    + intros l Hp. destruct (Ho l) as (?&?&_). naive_solver.
  - intros l. apply (lock_same s _ h); [done|done|done|]. unfold occupies. fnsimpl. specialize (Ho l). tauto.
Qed.

Ltac held_free I h l := let N := fresh in
  destruct (inv_lock _ I l) as [[_ N]|[]]; [|congruence]; specialize (N h); unfold occupies in N; tauto.

Lemma inv_acquire s h l s' :
  inv s -> h_pc (s_hart s h) = Run -> push_off h s = Done tt s' -> inv (go h (AcqChk l) s').
Proof.
  intros I Hp Hs. destruct (push_off_spec h s) as (s1 & E & Lk & Oth & Hh).
  rewrite E in Hs. injection Hs as <-.
  destruct (inv_hart s I h) as [N ? ? ? ? C ? ?]. rewrite Hp in N.
  apply (inv_local s _ h); [done| | | |].
  - intros h' Hn. fnsimpl. by apply Oth.
  - intros l' h' _. fnsimpl. by rewrite Lk.
  - fnsimpl. rewrite Hh. split; cbn [h_noff h_intena h_sie h_pc h_held h_pushed pc_depth is_panicked s_lock]; try done; try lia.
    + intros _. specialize (N eq_refl). cbn [pc_depth] in N. lia.
    + intros l'. fnsimpl. rewrite Lk. apply C.
    + naive_solver.
  - intros l'. apply (lock_same s _ h); [done| | |].
    + intros h' Hn. fnsimpl. by apply Oth.
    + fnsimpl. by rewrite Lk.
    + unfold occupies. fnsimpl. rewrite Hh, Hp. cbn. naive_solver.
Qed.

Lemma inv_swap s h l v s' :
  inv s -> h_pc (s_hart s h) = AcqTry l -> test_and_set l s = Done v s' ->
  inv (go h (if v =? 0 then AcqSet l else AcqTry l) s').
Proof.
  intros I Hp [= <- <-]. destruct (inv_hart s I h) as [N ? ? ? ? C A ?]. rewrite Hp in N.
  apply (inv_local s _ h); [done| | | |].
  - intros h' Hn. by fnsimpl.
  - intros l' h' _. fnsimpl. destruct (decide (l' = l)) as [-> |]; by fnsimpl.
  - fnsimpl. split; cbn [h_noff h_intena h_sie h_pc h_held h_pushed s_lock]; try done.
    + intros _. rewrite N by done. by destruct (_ =? 0).
    + intros l'. fnsimpl. destruct (decide (l' = l)) as [-> |]; fnsimpl; apply C.
    + intros l' Hl. apply A. rewrite Hp. destruct (_ =? 0); naive_solver.
    + destruct (_ =? 0); naive_solver.
  - intros l'. destruct (decide (l' = l)) as [-> |Hl].
    + destruct (inv_lock s I l) as [[L _]|[L _]]; rewrite L; cbn [Z.eqb].
      * apply (lock_taken s _ h); [done|intros h' Hn; by fnsimpl|done|by fnsimpl|]. right; left. by fnsimpl.
      * apply (lock_same s _ h); [done|intros h' Hn; by fnsimpl|by fnsimpl|].
        unfold occupies. fnsimpl. rewrite Hp. naive_solver.
    + apply (lock_same s _ h); [done|intros h' Hn; by fnsimpl|by fnsimpl|].
      unfold occupies. fnsimpl. rewrite Hp. destruct (_ =? 0); naive_solver.
Qed.

Lemma inv_acquired s h l s' :
  inv s -> h_pc (s_hart s h) = AcqSet l -> write_cpu l (Some h) s = Done tt s' ->
  inv (go h Run (set_held h (l :: h_held (s_hart s h)) s')).
Proof.
  intros I Hp [= <-]. destruct (inv_hart s I h) as [N F Po HF Nd C A ?]. rewrite Hp in N.
  specialize (N eq_refl). cbn [pc_depth] in N.
  apply (inv_local s _ h); [done| | | |].
  - intros h' Hn. by fnsimpl.
  - intros l' h' Hh. fnsimpl. destruct (decide (l' = l)) as [-> |]; fnsimpl; [|done].
    split; [naive_solver|]. intros Hc. exfalso.
    pose proof (proj2 (ho_cpu _ _ _ (inv_hart s I h') l) Hc) as Ho.
    destruct (inv_lock s I l) as [[_ X]|[_ [w W]]].
    + destruct (X h'). by left.
    + assert (h = w) by (apply W; unfold occupies; auto). assert (h' = w) by (apply W; by left). congruence.
  - fnsimpl. split; cbn [h_noff h_intena h_sie h_pc h_held h_pushed pc_depth length]; try done; try lia.
    + constructor; [|done]. apply A. auto.
    + intros l'. fnsimpl. rewrite elem_of_cons. destruct (decide (l' = l)) as [-> |]; fnsimpl; [naive_solver|].
      rewrite C. naive_solver.
    + naive_solver.
  - intros l'. apply (lock_same s _ h); [done|intros h' Hn; by fnsimpl| |].
    + fnsimpl. destruct (decide (l' = l)) as [-> |]; by fnsimpl.
    + unfold occupies. fnsimpl. rewrite Hp, elem_of_cons. naive_solver.
Qed.

Lemma filter_out_absent (l : lockid) (ls : list lockid) : l ∉ ls -> filter (fun l' => l' <> l) ls = ls.
Proof.
  induction ls as [|a ls IH]; [done|]. rewrite not_elem_of_cons. intros [Ha Hl].
  rewrite filter_cons_True by done. by rewrite IH.
Qed.

Lemma length_filter_out (l : lockid) (ls : list lockid) :
  NoDup ls -> l ∈ ls -> S (length (filter (fun l' => l' <> l) ls)) = length ls.
Proof.
  induction ls as [|a ls IH]; intros Nd Hl; [by apply elem_of_nil in Hl|].
  apply NoDup_cons in Nd as [Ha Nd].
  rewrite filter_cons. case_decide as E; cbn [length].
  - apply elem_of_cons in Hl as [->|Hl]; [done|]. by rewrite IH.
  - destruct (decide (a = l)) as [-> |]; [|by destruct E]. by rewrite filter_out_absent.
Qed.

Lemma inv_clear s h l s' :
  inv s -> h_pc (s_hart s h) = RelClr l -> write_cpu l None s = Done tt s' ->
  inv (go h (RelStore l) (set_held h (filter (fun l' => l' <> l) (h_held (s_hart s h))) s')).
Proof.
  intros I Hp [= <-]. destruct (inv_hart s I h) as [N F Po HF Nd C A R]. rewrite Hp in N.
  specialize (N eq_refl). cbn [pc_depth] in N. specialize (R l Hp).
  pose proof (length_filter_out l _ Nd R) as Len.
  apply (inv_local s _ h); [done| | | |].
  - intros h' Hn. by fnsimpl.
  - intros l' h' Hh. fnsimpl. destruct (decide (l' = l)) as [-> |]; fnsimpl; [|done].
    split; [done|]. apply C in R. congruence.
  - fnsimpl. split; cbn [h_noff h_intena h_sie h_pc h_held h_pushed pc_depth]; try done; try lia.
    + by apply NoDup_filter.
    + intros l'. fnsimpl. rewrite list_elem_of_filter. destruct (decide (l' = l)) as [-> |]; fnsimpl; [naive_solver|].
      rewrite C. naive_solver.
    + intros l' Hl. rewrite list_elem_of_filter. naive_solver.
  - intros l'. apply (lock_same s _ h); [done|intros h' Hn; by fnsimpl| |].
    + fnsimpl. destruct (decide (l' = l)) as [-> |]; by fnsimpl.
    + unfold occupies. fnsimpl. rewrite Hp, list_elem_of_filter.
      destruct (decide (l' = l)); naive_solver.
Qed.

Lemma inv_store s h l s' :
  inv s -> h_pc (s_hart s h) = RelStore l -> lock_release l s = Done tt s' -> inv (go h RelPop s').
Proof.
  intros I Hp [= <-]. destruct (inv_hart s I h) as [N F Po HF Nd C A R]. rewrite Hp in N.
  apply (inv_local s _ h); [done| | | |].
  - intros h' Hn. by fnsimpl.
  - intros l' h' Hh. fnsimpl. destruct (decide (l' = l)) as [-> |]; by fnsimpl.
  - fnsimpl. split; cbn [h_noff h_intena h_sie h_pc h_held h_pushed pc_depth]; try done.
    + intros l'. fnsimpl. destruct (decide (l' = l)) as [-> |]; fnsimpl; apply C.
    + naive_solver.
  - intros l'. destruct (decide (l' = l)) as [-> |Hl].
    + apply (lock_freed s _ h); [done|intros h' Hn; by fnsimpl|unfold occupies; auto|by fnsimpl|].
      unfold occupies. fnsimpl. specialize (A l). naive_solver.
    + apply (lock_same s _ h); [done|intros h' Hn; by fnsimpl|by fnsimpl|].
      unfold occupies. fnsimpl. rewrite Hp. naive_solver.
Qed.

(** A change of a hart's interrupt state that keeps its count right. *)
Lemma inv_cpu_only s h s' :
  inv s -> s_lock s' = s_lock s -> (forall h', h' <> h -> s_hart s' h' = s_hart s h') ->
  (h_pc (s_hart s h) = Run \/ h_pc (s_hart s h) = RelPop) -> h_pc (s_hart s' h) = Run ->
  h_held (s_hart s' h) = h_held (s_hart s h) ->
  h_noff (s_hart s' h) = Z.of_nat (length (h_held (s_hart s h))) + Z.of_nat (h_pushed (s_hart s' h)) ->
  (h_noff (s_hart s' h) <> 0 -> h_sie (s_hart s' h) = false) -> inv s'.
Proof.
  intros I Lk Oth Hp Hp' Hh Hn Hs. destruct (inv_hart s I h) as [N F Po HF Nd C A R].
  apply (inv_local s _ h); [done|done| | |].
  - intros. by rewrite Lk.
  - split; rewrite ?Hp', ?Hh; try done; cbn [pc_depth]; try lia.
    + intros Ne. rewrite Hn. destruct (h_held (s_hart s h)); cbn [length]; [done|lia].
    + intros l. rewrite Lk. apply C.
    + naive_solver.
  - intros l. apply (lock_same s _ h); [done|done|by rewrite Lk|]. unfold occupies. rewrite Hh, Hp'. split; intros [?|[?|?]]; auto; destruct Hp; congruence.
Qed.

Lemma step_inv s s' : inv s -> step s s' -> inv s'.
Proof.
  intros I [h l s1 Hp E|h l v s1 Hp E|h l c s1 Hp E|h l v s1 Hp E|h l s1 Hp E|h l v s1 Hp E|h l c s1 Hp E
    |h l s1 Hp E|h l s1 Hp E|h s1 Hp E|h s1 Hp E|h n s1 Hp Hn E|h b Hp Hn].
  - by apply (inv_acquire s).
  - injection E as <- <-. destruct (Z.eqb_spec (lk_locked (s_lock s l)) 0).
    all: apply inv_go; [done|by rewrite Hp|by rewrite Hp| |done]; intros l' [= <-]. held_free I h l.
  - injection E as <- <-. case_bool_decide as Hc.
    all: apply inv_go; [done|by rewrite Hp|by rewrite Hp| |done]; intros l' [= <-].
    by rewrite (ho_cpu _ _ _ (inv_hart s I h)).
  - by apply (inv_swap s).
  - by apply (inv_acquired s).
  - injection E as <- <-. destruct (_ =? 0); apply inv_go; try done; by rewrite Hp.
  - injection E as <- <-. case_bool_decide as Hc.
    all: apply inv_go; [done|by rewrite Hp|by rewrite Hp|done|]; intros l' [= <-].
    by rewrite (ho_cpu _ _ _ (inv_hart s I h)).
  - by apply (inv_clear s).
  - by apply (inv_store s h l).
  - apply pop_off_spec in E as (? & ? & Lk & Oth & Hh). destruct (inv_hart s I h) as [N _ _ _ _ _ _ _].
    rewrite Hp in N. specialize (N eq_refl). cbn [pc_depth] in N.
    apply (inv_cpu_only s h); fnsimpl; rewrite ?Hh; cbn; try done; auto; [|lia|].
    + intros h' Hn. fnsimpl. by apply Oth.
    + intros Hn. by replace (h_noff (s_hart s h) =? 1) with false by lia.
  - destruct (push_off_spec h s) as (s2 & E2 & Lk & Oth & Hh). rewrite E in E2. injection E2 as <-.
    destruct (inv_hart s I h) as [N _ _ _ _ _ _ _]. rewrite Hp in N. specialize (N eq_refl). cbn [pc_depth] in N.
    apply (inv_cpu_only s h); fnsimpl; rewrite ?Hh; cbn; try done; auto; [|lia].
    intros h' Hn. fnsimpl. by apply Oth.
  - apply pop_off_spec in E as (? & ? & Lk & Oth & Hh). destruct (inv_hart s I h) as [N _ _ _ _ _ _ _].
    rewrite Hp in N. specialize (N eq_refl). cbn [pc_depth] in N.
    apply (inv_cpu_only s h); fnsimpl; rewrite ?Hh; cbn; try done; auto; [|lia|].
    + intros h' Hn'. fnsimpl. by apply Oth.
    + intros Hn'. by replace (h_noff (s_hart s h) =? 1) with false by lia.
  - destruct (inv_hart s I h) as [N _ _ _ _ _ _ _]. rewrite Hp in N. specialize (N eq_refl). cbn [pc_depth] in N.
    apply (inv_cpu_only s h); fnsimpl; try done; auto; [|lia].
    intros h' Hn'. by fnsimpl.
Qed.

Lemma booted_inv s : booted s -> inv s.
Proof.
  intros [L H]. split.
  - intros h. destruct (H h) as (E1 & E2 & E3 & E4). split; rewrite ?E1, ?E2, ?E3, ?E4; try done; try lia.
    + constructor.
    + intros l. destruct (L l) as [_ ->]. by rewrite elem_of_nil.
    + by intros l [?|[?|?]].
  - intros l. left. split; [apply L|]. intros h. unfold occupies. destruct (H h) as (_ & -> & -> & _).
    rewrite elem_of_nil. naive_solver.
Qed.

Lemma reachable_inv s : reachable s -> inv s.
Proof. induction 1; [by apply booted_inv|by eapply step_inv]. Qed.

(** ** Running alone: the kernel model's locks *)

(** The list of locks in a kernel state is what hart [h] holds. *)
Record view {F} (s : smp) (h : nat) (k : kstate F) : Prop := {
  v_held : forall l, l ∈ k_locks k <-> lk_locked (s_lock s l) <> 0 /\ lk_cpu (s_lock s l) = Some h;
  v_nodup : NoDup (k_locks k);
  v_noff : h_noff (s_hart s h) = Z.of_nat (length (k_locks k));
  v_off : h_noff (s_hart s h) <> 0 -> h_sie (s_hart s h) = false
}.

Lemma holding_spec h l s :
  holding h l s = Done (bool_decide (lk_locked (s_lock s l) <> 0 /\ lk_cpu (s_lock s l) = Some h)) s.
Proof.
  unfold holding, read_locked, read_cpu, bind, ret. destruct (Z.eqb_spec (lk_locked (s_lock s l)) 0) as [E|E].
  - rewrite bool_decide_eq_false_2; [done|]. tauto.
  - f_equal. apply bool_decide_ext. tauto.
Qed.

Lemma pop_off_runs h s :
  h_sie (s_hart s h) = false -> 1 <= h_noff (s_hart s h) -> exists s', pop_off h s = Done tt s'.
Proof.
  intros Es Hn. unfold pop_off, bind, intr_get, get, modify. rewrite Es.
  replace (h_noff (s_hart s h) <? 1) with false by lia.
  match goal with |- context [if ?c then intr_on h else _] => destruct c end; by eexists.
Qed.

Lemma acquire_view {F} fuel h l s (k : kstate F) :
  view s h k -> l ∉ k_locks k -> lk_locked (s_lock s l) = 0 -> (0 < fuel)%nat ->
  exists s', acquire fuel h l s = Done tt s' /\ view s' h (set_k_locks (l :: k_locks k) k).
Proof.
  intros [H Nd N O] Hl L0 Hf. destruct fuel as [|fuel]; [lia|]. unfold acquire.
  destruct (push_off_spec h s) as (s1 & E & Lk & Oth & Hh). erewrite bind_done by exact E.
  erewrite bind_done by apply holding_spec. rewrite Lk, bool_decide_eq_false_2 by tauto.
  cbn [spin]. unfold test_and_set, bind, ret, write_cpu, modify. rewrite Lk, L0. cbn [Z.eqb].
  eexists. split; [reflexivity|]. split; ksimpl; fnsimpl.
  - intros l'. fnsimpl. rewrite elem_of_cons, H. destruct (decide (l' = l)) as [-> |]; fnsimpl; [naive_solver|].
    rewrite Lk. naive_solver.
  - by constructor.
  - rewrite Hh. cbn [length h_noff]. lia.
  - by rewrite Hh.
Qed.

Lemma release_view {F} h l s (k : kstate F) :
  view s h k -> l ∈ k_locks k ->
  exists s', release h l s = Done tt s' /\ view s' h (set_k_locks (filter (fun l' => l' <> l) (k_locks k)) k).
Proof.
  intros [H Nd N O] Hl. unfold release. erewrite bind_done by apply holding_spec.
  pose proof (length_filter_out l _ Nd Hl) as Len. pose proof Hl as Hl'. apply H in Hl'.
  rewrite bool_decide_eq_true_2 by done. cbn [negb]. unfold write_cpu, lock_release. rewrite !bind_modify.
  set (s1 := set_lock l _ (set_lock l _ s)).
  assert (s_hart s1 = s_hart s) as Hs by done.
  destruct (pop_off_runs h s1) as [s2 E]; [rewrite Hs; apply O; lia|rewrite Hs; lia|].
  rewrite E. exists s2. split; [done|]. apply pop_off_spec in E as (_ & _ & Lk & _ & Hh). rewrite Hs in Hh.
  split; ksimpl; rewrite ?Hh, ?Lk; cbn [h_noff h_sie].
  - intros l'. rewrite list_elem_of_filter, H. subst s1. fnsimpl. destruct (decide (l' = l)) as [-> |]; fnsimpl; naive_solver.
  - by apply NoDup_filter.
  - lia.
  - intros ?. by replace (h_noff (s_hart s h) =? 1) with false by lia.
Qed.

(** Nested [push_off]s and as many [pop_off]s. *)
Fixpoint times (n : nat) (m : M smp unit) : M smp unit :=
  match n with O => ret tt | S n => m ;; times n m end.

Lemma push_pop_times n h : forall s,
  0 <= h_noff (s_hart s h) -> (h_noff (s_hart s h) <> 0 -> h_sie (s_hart s h) = false) ->
  exists s1 s2, times n (push_off h) s = Done tt s1 /\ times n (pop_off h) s1 = Done tt s2 /\
    h_noff (s_hart s1 h) = h_noff (s_hart s h) + Z.of_nat n /\
    (h_noff (s_hart s1 h) <> 0 -> h_sie (s_hart s1 h) = false) /\
    (h_noff (s_hart s h) <> 0 -> h_intena (s_hart s2 h) = h_intena (s_hart s h)) /\
    h_noff (s_hart s2 h) = h_noff (s_hart s h) /\ h_sie (s_hart s2 h) = h_sie (s_hart s h).
Proof.
  induction n as [|n IH]; intros s Hp Ho.
  { exists s, s. split_and!; try done. lia. }
  destruct (push_off_spec h s) as (s0 & E & _ & _ & Hh).
  destruct (IH s0) as (s1 & s2 & E1 & E2 & N1 & O1 & I2 & N2 & S2); [rewrite Hh; cbn; lia|by rewrite Hh|].
  rewrite Hh in N1, I2, N2, S2. cbn [h_noff h_intena h_sie] in *.
  destruct (pop_off_runs h s2) as [s3 E3]; [by rewrite S2|lia|].
  exists s1, s3. split_and!.
  - cbn [times]. by erewrite bind_done.
  - replace (S n) with (n + 1)%nat by lia. clear - E2 E3. revert s1 E2. induction n as [|n IH]; intros s1 E2.
    + cbn [times Nat.add] in *. injection E2 as ->. by erewrite bind_done by exact E3.
    + cbn [times Nat.add] in *. unfold bind in E2 |- *. destruct (pop_off h s1) as [[] s4| | | |]; try done. by apply IH.
  - lia.
  - done.
  - intros Hn. apply pop_off_spec in E3 as (_ & _ & _ & _ & ->). cbn. rewrite I2 by lia.
    by replace (h_noff (s_hart s h) =? 0) with false by lia.
  - apply pop_off_spec in E3 as (_ & _ & _ & _ & ->). cbn. lia.
  - apply pop_off_spec in E3 as (_ & _ & _ & _ & ->). cbn [h_sie]. rewrite N2, I2 by lia.
    destruct (Z.eqb_spec (h_noff (s_hart s h)) 0) as [->|Hn]; [done|].
    replace (h_noff (s_hart s h) + 1 =? 1) with false by lia. by rewrite Ho.
Qed.

(** ** Properties *)

(** C16: Mutual exclusion: in every state that any interleaving of the harts'
    memory accesses reaches, two harts whose [acquire] of a lock has returned
    and who have not released it are the same hart. *)
Theorem spinlock_mutual_exclusion s l h1 h2 :
  reachable s -> l ∈ h_held (s_hart s h1) -> l ∈ h_held (s_hart s h2) -> h1 = h2.
Proof.
  intros I%reachable_inv H1 H2. apply (ho_cpu _ _ _ (inv_hart s I h1)) in H1.
  apply (ho_cpu _ _ _ (inv_hart s I h2)) in H2. congruence.
Qed.

Definition demo_boot : smp := mkSmp (fun _ => mkLock 0 "kmem" None) (fun _ => mkHart 0 false true Run [] 0).

(** Extend a run by a step whose effect is computed. *)
Ltac hop R c :=
  match type of R with
  | reachable ?s => eapply (reach_step s) in R; [|eapply c; reflexivity]
  end.

(** Hart 0 has acquired [kmem.lock] while hart 1 spins on it. *)
Lemma demo_contended : exists s,
  reachable s /\ h_held (s_hart s 0%nat) = [LKmem] /\ h_pc (s_hart s 1%nat) = AcqTry LKmem.
Proof.
  assert (reachable demo_boot) as R by by apply reach_boot.
  hop R open_constr:(st_acquire _ 0%nat LKmem).
  hop R open_constr:(st_acquire _ 1%nat LKmem).
  hop R open_constr:(st_acq_locked _ 0%nat LKmem).
  hop R open_constr:(st_acq_locked _ 1%nat LKmem).
  hop R open_constr:(st_acq_swap _ 0%nat LKmem).
  hop R open_constr:(st_acq_swap _ 1%nat LKmem).
  hop R open_constr:(st_acq_done _ 0%nat LKmem).
  eexists. split; [exact R|]. split; reflexivity.
Qed.

Lemma spinlock_mutual_exclusion_witness : exists s,
  reachable s /\ LKmem ∈ h_held (s_hart s 0%nat) /\ forall h, LKmem ∈ h_held (s_hart s h) -> h = 0%nat.
Proof.
  destruct demo_contended as (s & R & H & _). exists s. split; [done|]. split; [rewrite H; by left|].
  intros h Hh. apply (spinlock_mutual_exclusion s LKmem h 0); [done|done|]. rewrite H. by left.
Defined.

(** While a hart holds a lock its interrupts are off, and its [noff] is the
    number of locks it holds, of [push_off]s it has open and of those [acquire]
    and [release] have open; so no interrupt handler can try to take a lock its
    own hart holds. *)
Theorem interrupts_off_while_locked s h :
  reachable s -> h_held (s_hart s h) <> [] -> is_panicked (h_pc (s_hart s h)) = false ->
  h_sie (s_hart s h) = false /\
  h_noff (s_hart s h) =
    Z.of_nat (length (h_held (s_hart s h))) + Z.of_nat (h_pushed (s_hart s h)) + pc_depth (h_pc (s_hart s h)).
Proof.
  intros I%reachable_inv Hh Hp. destruct (inv_hart s I h) as [N O _ HF _ _ _ _]. auto.
Qed.

Lemma interrupts_off_while_locked_witness : exists s,
  reachable s /\ h_held (s_hart s 0%nat) = [LKmem] /\ h_sie (s_hart s 0%nat) = false.
Proof.
  destruct demo_contended as (s & R & H & _). exists s. split; [done|]. split; [done|].
  destruct (is_panicked (h_pc (s_hart s 0%nat))) eqn:E.
  - pose proof (inv_hart s (reachable_inv s R) 0%nat) as [_ O _ HF _ _ _ _]. apply O, HF. by rewrite H.
  - apply (interrupts_off_while_locked s 0); [done| |done]. by rewrite H.
Defined.

(** C17: The kernel model's [acquire] and [release], on the list of locks the
    running hart holds, are what kernel/spinlock.c does when no other hart holds
    the lock: they panic in the same cases with the same message, and otherwise
    the words of the lock, the hart's [noff] and its interrupt bit agree with the
    list again. *)
Theorem spinlock_refines {F} fuel h l s (k : kstate F) :
  view s h k -> (0 < fuel)%nat -> (l ∉ k_locks k -> lk_locked (s_lock s l) = 0) ->
  match Kernel.acquire l k with
  | Done _ k' => exists s', acquire fuel h l s = Done tt s' /\ view s' h k'
  | o => exists msg, o = Panic msg /\ acquire fuel h l s = Panic msg
  end /\
  match Kernel.release l k with
  | Done _ k' => exists s', release h l s = Done tt s' /\ view s' h k'
  | o => exists msg, o = Panic msg /\ release h l s = Panic msg
  end.
Proof.
  intros V Hf L0. unfold Kernel.acquire, Kernel.release. case_bool_decide as Hl.
  - split; [|by apply release_view]. exists "acquire". split; [done|]. unfold acquire.
    destruct (push_off_spec h s) as (s1 & E & Lk & _ & _). erewrite bind_done by exact E.
    erewrite bind_done by apply holding_spec. rewrite Lk. apply (v_held _ _ _ V) in Hl.
    by rewrite bool_decide_eq_true_2.
  - split; [apply acquire_view; auto|]. exists "release". split; [done|]. unfold release.
    erewrite bind_done by apply holding_spec. rewrite (v_held _ _ _ V) in Hl.
    by rewrite bool_decide_eq_false_2.
Qed.

(** A kernel state with no locks held, seen from hart 0 after boot. *)
Lemma spinlock_refines_witness : exists s',
  acquire 1 0 LKmem demo_boot = Done tt s' /\
  view s' 0 (mkK 0 ∅ 0 [] None None 1 0 true 0 [] [LKmem] [] tt).
Proof.
  assert (view demo_boot 0 (mkK 0 ∅ 0 [] None None 1 0 true 0 [] [] [] tt)) as V.
  { split; cbn; [|constructor|done|done]. intros l. rewrite elem_of_nil. naive_solver. }
  apply (spinlock_refines 1 0 LKmem demo_boot _ V); [lia|done].
Defined.

(** Interrupt disabling nests: after any number of [push_off]s and as many
    [pop_off]s, none of which panics, the hart's interrupt bit and its [noff] are
    what they were, on at the end exactly if they were on before. *)
Theorem push_pop_off_nest n h s :
  0 <= h_noff (s_hart s h) -> (h_noff (s_hart s h) <> 0 -> h_sie (s_hart s h) = false) ->
  exists s', bind (times n (push_off h)) (fun _ => times n (pop_off h)) s = Done tt s' /\
    h_noff (s_hart s' h) = h_noff (s_hart s h) /\ h_sie (s_hart s' h) = h_sie (s_hart s h).
Proof.
  intros Hn Ho. destruct (push_pop_times n h s Hn Ho) as (s1 & s2 & E1 & E2 & _ & _ & _ & N & S2).
  exists s2. split; [|done]. by erewrite bind_done.
Qed.

Lemma push_pop_off_nest_witness : exists s',
  bind (times 3 (push_off 0)) (fun _ => times 3 (pop_off 0)) demo_boot = Done tt s' /\ h_sie (s_hart s' 0%nat) = true.
Proof.
  destruct (push_pop_off_nest 3 0 demo_boot) as (s' & E & _ & Hs); [done|done|]. by exists s'.
Defined.
