(* ===== verification/Sleeplock.v ===== *)
(** * Sleep-locks, [sleep] and [wakeup]

    kernel/sleeplock.c with [sleep], [wakeup] and the scheduler of kernel/proc.c,
    for any number of processes on any number of harts. Each acquisition or
    release of a spin lock is a step of its own, as is each access to the data
    that one protects; between them the processes interleave freely. Spin locks
    have the holder that Spinlock.v shows them to have. *)

From stdpp Require Import functions.
From S2P Require Import Prelude Riscv Kernel.

(** ** Definitions *)

(** Where a process is. In [acquiresleep]: about to acquire [lk->lk], at the test
    of [locked] with [lk->lk] held, about to release [lk->lk] with the sleep-lock
    taken. In [sleep]: about to acquire [p->lock], to release [lk], to set [chan]
    and [state], to switch; off its processor; resumed; about to acquire [lk].
    Between the two calls: [Held]. In [releasesleep]: about to acquire [lk->lk],
    to clear [locked]; in [wakeup], about to acquire the lock of process [j], or
    with it held; about to release [lk->lk]. *)
Inductive pc :=
| Idle
| AcqLk | AcqTest | AcqRel
| SlpLock | SlpRel | SlpSet | SlpSwtch | Asleep | SlpTidy | SlpAcq
| Held
| RelLk | RelClr | Wake (j : nat) | WakeIn (j : nat) | RelRel.

(** [struct proc], as far as sleeping is concerned, with the holder of its lock. *)
Record pcb := mkPcb { t_pc : pc; t_state : procstate; t_chan : bool; t_lock : option nat }.

(** [struct sleeplock]: the holder of its spin lock, [locked] and [pid]. The
    channel is the address of the sleep-lock, so [t_chan] says whether [chan] is
    that address. *)
Record sys := mkSys { s_lk : option nat; s_locked : bool; s_pid : option nat; s_proc : nat -> pcb }.

Definition set_lk (o : option nat) (s : sys) : sys := mkSys o (s_locked s) (s_pid s) (s_proc s).
Definition set_locked (b : bool) (o : option nat) (s : sys) : sys := mkSys (s_lk s) b o (s_proc s).
Definition set_proc (t : nat) (x : pcb) (s : sys) : sys :=
  mkSys (s_lk s) (s_locked s) (s_pid s) (<[t := x]> (s_proc s)).
Definition goto (t : nat) (c : pc) (s : sys) : sys :=
  let x := s_proc s t in set_proc t (mkPcb c (t_state x) (t_chan x) (t_lock x)) s.

(** [acquire] of [lk->lk] by process [t]: it waits while the lock is held. *)
Definition acquire_lk (t : nat) (c : pc) (s : sys) : option sys :=
  match s_lk s with None => Some (goto t c (set_lk (Some t) s)) | Some _ => None end.

(** What [wakeup] does to a process, its lock held. *)
Definition rouse (x : pcb) : procstate :=
  if bool_decide (t_state x = SLEEPING) && t_chan x then RUNNABLE else t_state x.

Definition N : nat := Z.to_nat NPROC.

(** The next step of process [t]; [None] while it waits. *)
Definition move (t : nat) (s : sys) : option sys :=
  let x := s_proc s t in
  match t_pc x with
  | Idle => Some (goto t AcqLk s)
  | AcqLk => acquire_lk t AcqTest s
  | AcqTest =>
      if s_locked s then Some (goto t SlpLock s)
      else Some (goto t AcqRel (set_locked true (Some t) s))
  | AcqRel => Some (goto t Held (set_lk None s))
  | SlpLock =>
      match t_lock x with
      | None => Some (set_proc t (mkPcb SlpRel (t_state x) (t_chan x) (Some t)) s)
      | Some _ => None
      end
  | SlpRel => Some (goto t SlpSet (set_lk None s))
  | SlpSet => Some (set_proc t (mkPcb SlpSwtch SLEEPING true (t_lock x)) s)
  | SlpSwtch => Some (set_proc t (mkPcb Asleep (t_state x) (t_chan x) None) s)
  | Asleep =>
      (* the scheduler: acquire(&p->lock); if(p->state == RUNNABLE) ... *)
      match t_lock x with
      | None =>
          if bool_decide (t_state x = RUNNABLE)
          then Some (set_proc t (mkPcb SlpTidy RUNNING (t_chan x) (Some t)) s)
          else None
      | Some _ => None
      end
  | SlpTidy => Some (set_proc t (mkPcb SlpAcq (t_state x) false None) s)
  | SlpAcq => acquire_lk t AcqTest s
  | Held => Some (goto t RelLk s)
  | RelLk => acquire_lk t RelClr s
  | RelClr => Some (goto t (Wake 0) (set_locked false None s))
  | Wake j =>
      if decide (j < N)%nat then
        if decide (j = t) then Some (goto t (Wake (S j)) s)
        else
          let y := s_proc s j in
          match t_lock y with
          | None => Some (goto t (WakeIn j) (set_proc j (mkPcb (t_pc y) (t_state y) (t_chan y) (Some t)) s))
          | Some _ => None
          end
      else Some (goto t RelRel s)
  | WakeIn j =>
      let y := s_proc s j in
      Some (goto t (Wake (S j)) (set_proc j (mkPcb (t_pc y) (rouse y) (t_chan y) None) s))
  | RelRel => Some (goto t Idle (set_lk None s))
  end.

Definition started (s : sys) : Prop :=
  s_lk s = None /\ s_locked s = false /\
  forall t, t_pc (s_proc s t) = Idle /\ t_state (s_proc s t) <> SLEEPING /\ t_lock (s_proc s t) = None.

Inductive reachable : sys -> Prop :=
| re_start s : started s -> reachable s
| re_move s t s' : reachable s -> (t < N)%nat -> move t s = Some s' -> reachable s'.

(** Who holds what, by where it is. *)
Definition holds_lk (c : pc) : bool :=
  match c with AcqTest | AcqRel | SlpLock | SlpRel | RelClr | Wake _ | WakeIn _ | RelRel => true | _ => false end.
Definition holds_own (c : pc) : bool :=
  match c with SlpRel | SlpSet | SlpSwtch | SlpTidy => true | _ => false end.
Definition owns (c : pc) : bool :=
  match c with AcqRel | Held | RelLk | RelClr => true | _ => false end.

(** A process that has found the sleep-lock taken and has not been woken since. *)
Definition waiting (x : pcb) : Prop :=
  match t_pc x with
  | SlpLock | SlpRel | SlpSet | SlpSwtch => True
  | Asleep => t_state x = SLEEPING
  | _ => False
  end.

(** A process in [wakeup] that has not passed process [t] yet. *)
Definition will_wake (c : pc) (t : nat) : Prop :=
  match c with Wake j | WakeIn j => (j <= t)%nat | _ => False end.

Record inv (s : sys) : Prop := {
  in_range : forall t, (N <= t)%nat -> t_pc (s_proc s t) = Idle;
  in_lk : forall t, holds_lk (t_pc (s_proc s t)) = true <-> s_lk s = Some t;
  in_plock : forall t u, t_lock (s_proc s t) = Some u <->
    u = t /\ holds_own (t_pc (s_proc s t)) = true \/ t_pc (s_proc s u) = WakeIn t;
  in_own : forall t, owns (t_pc (s_proc s t)) = true <-> s_locked s = true /\ s_pid s = Some t;
  in_owner : s_locked s = true -> exists t, s_pid s = Some t;
  in_sleep : forall t, t_state (s_proc s t) = SLEEPING -> t_pc (s_proc s t) = SlpSwtch \/ t_pc (s_proc s t) = Asleep;
  in_asleep : forall t, t_pc (s_proc s t) = SlpSwtch \/ t_pc (s_proc s t) = Asleep ->
    t_chan (s_proc s t) = true /\
    (t_state (s_proc s t) = SLEEPING \/ t_pc (s_proc s t) = Asleep /\ t_state (s_proc s t) = RUNNABLE);
  in_wake : forall t j, t_pc (s_proc s t) = WakeIn j -> j <> t;
  in_wait : forall t, waiting (s_proc s t) ->
    s_locked s = true \/ exists u, will_wake (t_pc (s_proc s u)) t
}.

(** ** The invariant *)

Lemma fn_at {A} (f : nat -> A) t x u : (<[t := x]> f) u = if decide (u = t) then x else f u.
Proof. case_decide as E; [subst; apply fn_lookup_insert|by apply fn_lookup_insert_ne]. Qed.

Lemma inv_started s : started s -> inv s.
Proof.
  intros (H1 & H2 & H3). assert (forall t, t_pc (s_proc s t) = Idle) as Hp by apply H3.
  split; [done|intros t; rewrite Hp, H1; done|intros t u; rewrite !Hp, (proj2 (proj2 (H3 t))); naive_solver|
    intros t; rewrite Hp, H2; naive_solver|congruence|intros t; by destruct (H3 t) as (_ & ? & _)|
    intros t; rewrite Hp; naive_solver|intros t j; by rewrite Hp|intros t; unfold waiting; by rewrite Hp].
Qed.

(** Only process [t] changes, and not into or out of [WakeIn]. *)
Lemma sleep_inv_local s t x lk lkd pid : inv s -> (t < N)%nat ->
  (forall u, u <> t -> s_lk s = Some u <-> lk = Some u) -> (holds_lk (t_pc x) = true <-> lk = Some t) ->
  (forall j, t_pc (s_proc s t) <> WakeIn j) -> (forall j, t_pc x <> WakeIn j) ->
  (forall u, t_lock x = Some u <-> u = t /\ holds_own (t_pc x) = true \/ t_pc (s_proc s u) = WakeIn t) ->
  (forall u, u <> t -> s_locked s = true /\ s_pid s = Some u <-> lkd = true /\ pid = Some u) ->
  (owns (t_pc x) = true <-> lkd = true /\ pid = Some t) -> (lkd = true -> exists u, pid = Some u) ->
  (t_state x = SLEEPING -> t_pc x = SlpSwtch \/ t_pc x = Asleep) ->
  (t_pc x = SlpSwtch \/ t_pc x = Asleep -> t_chan x = true /\
     (t_state x = SLEEPING \/ t_pc x = Asleep /\ t_state x = RUNNABLE)) ->
  (s_locked s = true -> lkd = true \/ forall u, will_wake (t_pc x) u) ->
  (forall u, u <> t -> (u < N)%nat -> will_wake (t_pc (s_proc s t)) u -> will_wake (t_pc x) u) ->
  (waiting x -> lkd = true \/ exists u, u <> t /\ will_wake (t_pc (s_proc s u)) t) ->
  inv (mkSys lk lkd pid (<[t := x]> (s_proc s))).
Proof.
  intros [HR HL HP HO HW HS HA HK HV] Ht L1 L2 W1 W2 P1 O1 O2 O3 S1 S2 V1 V2 V3.
  split; cbn [s_lk s_locked s_pid s_proc].
  - intros u Hu. rewrite fn_at. case_decide; [lia|by apply HR].
  - intros u. rewrite fn_at. case_decide as Eu; [by subst|]. by rewrite HL, L1.
  - assert (forall u v, t_pc (<[t := x]> (s_proc s) v) = WakeIn u <-> t_pc (s_proc s v) = WakeIn u) as Hw.
    { intros u v. rewrite fn_at. case_decide; [subst; split; [by intros ?%W2|by intros ?%W1]|done]. }
    intros u v. rewrite Hw, !fn_at. case_decide; [subst; apply P1|apply HP].
  - intros u. rewrite fn_at. case_decide as Eu; [by subst|]. by rewrite HO, O1.
  - done.
  - intros u. rewrite fn_at. case_decide as Eu; [by subst|]. apply HS.
  - intros u. rewrite fn_at. case_decide as Eu; [by subst|]. apply HA.
  - intros u j. rewrite fn_at. case_decide as Eu; [subst; by intros ?%W2|]. apply HK.
  - intros u. rewrite fn_at. case_decide as Eu.
    + subst. intros [?|(v & Hv & Hw)]%V3; [by left|]. right. exists v. by rewrite fn_at, decide_False.
    + intros Hw. assert (u < N)%nat as Hu.
      { destruct (decide (u < N)%nat); [done|]. unfold waiting in Hw. by rewrite HR in Hw by lia. }
      destruct (HV u Hw) as [Hl|(v & Hv)].
      * destruct (V1 Hl) as [?|Hx]; [by left|]. right. exists t. by rewrite fn_at, decide_True.
      * right. exists v. rewrite fn_at. case_decide; [subst; by apply V2|done].
Qed.

Lemma wait_other s t : inv s -> waiting (s_proc s t) ->
  s_locked s = true \/ exists u, u <> t /\ will_wake (t_pc (s_proc s u)) t.
Proof.
  intros I Hw. destruct (in_wait s I t Hw) as [?|(u & Hu)]; [by left|]. right. exists u. split; [|done].
  intros ->. unfold waiting in Hw. by destruct (t_pc (s_proc s t)).
Qed.

(** A step of [wakeup] at process [j]: process [t] takes the lock of [j], or rouses
    it and gives the lock back. *)
Section remote.
Variables (s : sys) (t j : nat) (c : pc) (st : procstate) (o : option nat).
Hypothesis I : inv s.
Hypothesis Ht : (t < N)%nat.
Hypothesis Hj : j <> t.
Notation y := (s_proc s j).
Hypothesis Hc :
  t_pc (s_proc s t) = Wake j /\ c = WakeIn j /\ st = t_state y /\ t_lock y = None /\ o = Some t \/
  t_pc (s_proc s t) = WakeIn j /\ c = Wake (S j) /\ st = rouse y /\ o = None.
Notation s' := (goto t c (set_proc j (mkPcb (t_pc y) st (t_chan y) o) s)).

Lemma rm_at u : s_proc s' u =
  if decide (u = t) then mkPcb c (t_state (s_proc s t)) (t_chan (s_proc s t)) (t_lock (s_proc s t))
  else if decide (u = j) then mkPcb (t_pc y) st (t_chan y) o else s_proc s u.
Proof. unfold goto, set_proc. cbn [s_proc]. rewrite !fn_at. by rewrite (decide_False (P := t = j)) by done. Qed.
Lemma rm_pc u : t_pc (s_proc s' u) = if decide (u = t) then c else t_pc (s_proc s u).
Proof. rewrite rm_at. by repeat case_decide; subst. Qed.
Lemma rm_st u : t_state (s_proc s' u) = if decide (u = j) then st else t_state (s_proc s u).
Proof. rewrite rm_at. by repeat case_decide; subst. Qed.
Lemma rm_ch u : t_chan (s_proc s' u) = t_chan (s_proc s u).
Proof. rewrite rm_at. by repeat case_decide; subst. Qed.
Lemma rm_lk u : t_lock (s_proc s' u) = if decide (u = j) then o else t_lock (s_proc s u).
Proof. rewrite rm_at. by repeat case_decide; subst. Qed.

Lemma rm_holder : s_lk s = Some t.
Proof. apply (in_lk s I). by destruct Hc as [(-> & _)|(-> & _)]. Qed.

(** No other process is in [wakeup]. *)
Lemma rm_one u v : t_pc (s_proc s v) = WakeIn u -> v = t /\ u = j /\ t_pc (s_proc s t) = WakeIn j.
Proof.
  intros Hv. assert (s_lk s = Some v) as Ev by (apply (in_lk s I); by rewrite Hv).
  rewrite rm_holder in Ev. injection Ev as <-. destruct Hc as [(E & _)|(E & _)]; rewrite E in Hv; [done|]. by injection Hv as ->.
Qed.

(** While process [j] holds its own lock, [wakeup] waits for it. *)
Lemma rm_own : holds_own (t_pc y) = true -> t_pc (s_proc s t) = Wake j /\ t_lock y <> None.
Proof.
  intros Hy. assert (t_lock y = Some j) as El by (apply (in_plock s I); by left). split; [|congruence].
  destruct Hc as [(E & _)|(E & _)]; [done|]. assert (t_lock y = Some t) by (apply (in_plock s I); by right). congruence.
Qed.

Lemma rm_plock x u : t_lock (s_proc s' x) = Some u <->
  u = x /\ holds_own (t_pc (s_proc s' x)) = true \/ t_pc (s_proc s' u) = WakeIn x.
Proof.
  pose proof rm_own as Hown. pose proof rm_one as Hone.
  rewrite rm_lk, !rm_pc. destruct (decide (x = j)) as [->|Hx].
  - rewrite decide_False by done. destruct Hc as [(E & -> & _ & Hy & ->)|(E & -> & _ & ->)].
    + split; [intros [= ->]; right; by rewrite decide_True|]. intros [[_ Hh]|Hw]; [by destruct (Hown Hh)|].
      case_decide; [by subst|]. by destruct (Hone _ _ Hw).
    + split; [done|]. intros [[_ Hh]|Hw]; [destruct (Hown Hh); congruence|]. case_decide; [done|]. by destruct (Hone _ _ Hw).
  - rewrite (in_plock s I). assert (holds_own (if decide (x = t) then c else t_pc (s_proc s x)) = holds_own (t_pc (s_proc s x))) as ->.
    { case_decide; [subst x|done]. by destruct Hc as [(-> & -> & _)|(-> & -> & _)]. }
    assert ((if decide (u = t) then c else t_pc (s_proc s u)) = WakeIn x <-> t_pc (s_proc s u) = WakeIn x) as ->; [|done].
    case_decide; [subst u|done]. destruct Hc as [(-> & -> & _)|(-> & -> & _)]; naive_solver.
Qed.

Lemma rm_sleeping : st = SLEEPING -> t_state y = SLEEPING.
Proof. destruct Hc as [(_ & _ & -> & _)|(_ & _ & -> & _)]; [done|]. unfold rouse. case_match; [done|]. done. Qed.

Lemma rm_asleep u : t_pc (s_proc s' u) = SlpSwtch \/ t_pc (s_proc s' u) = Asleep -> t_chan (s_proc s' u) = true /\
  (t_state (s_proc s' u) = SLEEPING \/ t_pc (s_proc s' u) = Asleep /\ t_state (s_proc s' u) = RUNNABLE).
Proof.
  pose proof rm_own as Hown.
  rewrite rm_st, rm_pc, rm_ch. case_decide as E1; [subst; destruct Hc as [(_ & -> & _)|(_ & -> & _)]; naive_solver|].
  intros Hu. destruct (in_asleep s I u Hu) as [A1 A2]. split; [done|].
  case_decide; [subst u|done]. destruct Hc as [(_ & _ & -> & _)|(E & _ & -> & _)]; [done|].
  assert (t_pc y = Asleep) as Ey.
  { destruct Hu as [Hu|?]; [|done]. destruct Hown as [Hx _]; [by rewrite Hu|]. congruence. }
  unfold rouse. rewrite A1. destruct A2 as [->|[_ ->]]; by right.
Qed.

(** A process that waits was not passed over. *)
Lemma rm_waiting : t_pc (s_proc s t) = WakeIn j -> waiting (mkPcb (t_pc y) st (t_chan y) o) -> False.
Proof.
  pose proof rm_own as Hown. pose proof rm_holder as Hholder.
  intros E Hw. destruct Hc as [(? & _)|(_ & _ & -> & _)]; [congruence|]. unfold waiting in Hw. cbn in Hw.
  destruct (t_pc y) eqn:Ey; try done; try (destruct Hown as [? _]; [first [done|by rewrite Ey]|congruence]).
  - assert (s_lk s = Some j) as El by (apply (in_lk s I); by rewrite Ey). rewrite Hholder in El. congruence.
  - unfold rouse in Hw. destruct (in_asleep s I j) as [Ac _]; [by right|]. rewrite Ac in Hw.
    case_bool_decide; [done|]. cbn in Hw. done.
Qed.

Lemma rm_wait u : waiting (s_proc s' u) -> s_locked s = true \/ exists v, will_wake (t_pc (s_proc s' v)) u.
Proof.
  pose proof rm_waiting as Hwaiting. pose proof rm_sleeping as Hsleeping. pose proof rm_pc as Hpc.
  rewrite rm_at. intros Hw. destruct (decide (u = t)) as [->|Hu]; [by destruct Hc as [(_ & -> & _)|(_ & -> & _)]|].
  assert (waiting (s_proc s u)) as Hold.
  { destruct (decide (u = j)) as [->|]; [|done]. unfold waiting in *. cbn in Hw. destruct (t_pc y); try done. by apply Hsleeping. }
  destruct (in_wait s I u Hold) as [?|(v & Hv)]; [by left|]. right. exists v. rewrite Hpc. destruct (decide (v = t)) as [->|]; [|done].
  destruct Hc as [(E & -> & _)|(E & -> & _)]; rewrite E in Hv; cbn in *; [done|].
  destruct (decide (u = j)) as [->|]; [by destruct (Hwaiting E Hw)|lia].
Qed.

Lemma inv_remote : inv s'.
Proof.
  split.
  - intros u Hu. rewrite rm_pc, decide_False by (intros ->; lia). by apply (in_range s I).
  - intros u. rewrite rm_pc. change (s_lk s') with (s_lk s). rewrite <- (in_lk s I). case_decide; [subst u|done].
    by destruct Hc as [(-> & -> & _)|(-> & -> & _)].
  - apply rm_plock.
  - intros u. rewrite rm_pc. change (s_locked s') with (s_locked s). change (s_pid s') with (s_pid s).
    rewrite <- (in_own s I). case_decide; [subst u|done]. by destruct Hc as [(-> & -> & _)|(-> & -> & _)].
  - exact (in_owner s I).
  - intros u. rewrite rm_st, rm_pc. intros Hs. assert (t_state (s_proc s u) = SLEEPING) as Ho.
    { case_decide; [subst u; by apply rm_sleeping|done]. }
    destruct (in_sleep s I u Ho) as [E|E]; rewrite E; (destruct (decide (u = t)) as [->|]; [|tauto]); destruct Hc as [(? & _)|(? & _)]; congruence.
  - apply rm_asleep.
  - intros u i. rewrite rm_pc. case_decide; [|apply (in_wake s I)]. subst u. destruct Hc as [(_ & -> & _)|(_ & -> & _)]; naive_solver.
  - apply rm_wait.
Qed.
End remote.

Ltac fin s I := try done; try solve [intros; intuition congruence]; try exact (in_owner s I); try (eexists; reflexivity).

Lemma inv_move s t s' : inv s -> (t < N)%nat -> move t s = Some s' -> inv s'.
Proof.
  intros I Ht. unfold move.
  pose proof (in_lk s I t) as Lt; pose proof (in_own s I t) as Ot; pose proof (in_plock s I t) as Pt;
    pose proof (in_asleep s I t) as At; pose proof (in_sleep s I t) as St; pose proof (wait_other s t I) as Vt; unfold waiting in Vt.
  destruct (t_pc (s_proc s t)) eqn:E; intros Hm; cbn [holds_lk holds_own owns] in *.
  all: unfold acquire_lk in Hm; repeat case_match; try done; injection Hm as <-.
  all: try (apply (sleep_inv_local s t); cbn; try rewrite E; fin s I; fail).
  all: try (apply (sleep_inv_local s t); cbn; try rewrite E; fin s I; []).
  - intros u. specialize (Pt u). intuition congruence.
  - intros u. pose proof (Pt t). specialize (Pt u). intuition congruence.
  - intros u. specialize (Pt u). intuition congruence.
  - intros u. pose proof (Pt t). specialize (Pt u). intuition congruence.
  - intros _. right. intros u. lia.
  - cbn. intros. lia.
  - apply inv_remote; naive_solver.
  - cbn. intros. lia.
  - apply inv_remote; [done|done|by eapply (in_wake s I)|naive_solver].
Qed.

Lemma sleeplock_inv s : reachable s -> inv s.
Proof. induction 1; [by apply inv_started|by eapply inv_move]. Qed.

(** ** Progress *)

Definition inside (c : pc) : Prop := c <> Idle /\ c <> Held.

Section progress.
Variable s : sys.
Hypothesis I : inv s.

Lemma one_waker u v j : s_lk s = Some u -> t_pc (s_proc s v) = WakeIn j -> v = u.
Proof. intros El Ev. assert (s_lk s = Some v) by (apply (in_lk s I); by rewrite Ev). congruence. Qed.

(** The holder of [lk->lk] can go on, or the process whose lock it needs can. *)
Lemma holder_moves u : s_lk s = Some u -> exists v s', inside (t_pc (s_proc s v)) /\ move v s = Some s'.
Proof.
  intros El. pose proof (proj2 (in_lk s I u) El) as Hh.
  destruct (t_pc (s_proc s u)) eqn:E; try done;
    try (exists u; eexists; rewrite E; split; [done|unfold move; rewrite E; reflexivity]).
  - exists u. unfold move. rewrite E. destruct (s_locked s); by eexists.
  - exists u. unfold move. rewrite E. destruct (t_lock (s_proc s u)) as [v|] eqn:Ev; [|by eexists].
    apply (in_plock s I) in Ev as [[_ Hx]|Hx]; [by rewrite E in Hx|]. pose proof (one_waker _ _ _ El Hx). congruence.
  - destruct (decide (j < N)%nat) as [Hj|Hj]; [destruct (decide (j = u)) as [Eu|Eu]|].
    + exists u. unfold move. rewrite E, decide_True, decide_True by done. by eexists.
    + destruct (t_lock (s_proc s j)) as [v|] eqn:Ev.
      * apply (in_plock s I) in Ev as [[_ Hx]|Hx]; [|pose proof (one_waker _ _ _ El Hx); congruence].
        exists j. unfold move. destruct (t_pc (s_proc s j)); try done; by eexists.
      * exists u. unfold move. rewrite E, decide_True, decide_False by done. rewrite Ev. by eexists.
    + exists u. unfold move. rewrite E, decide_False by done. by eexists.
Qed.

Lemma free_moves t : s_lk s = None -> inside (t_pc (s_proc s t)) -> (forall u, t_pc (s_proc s u) <> Held) ->
  exists v s', inside (t_pc (s_proc s v)) /\ move v s = Some s'.
Proof.
  intros El [Hi Hn] Hh. assert (forall u, holds_lk (t_pc (s_proc s u)) = false) as Hf.
  { intros u. destruct (holds_lk _) eqn:Eu; [|done]. apply (in_lk s I) in Eu. congruence. }
  pose proof (Hf t) as Ft. destruct (t_pc (s_proc s t)) eqn:E; try done;
    try (exists t; unfold move, acquire_lk; rewrite E, ?El; by eexists).
  destruct (in_asleep s I t) as [_ [Es|[_ Es]]]; [by right| |].
  - destruct (in_wait s I t) as [Hl|(u & Hu)]; [unfold waiting; by rewrite E| |].
    + destruct (in_owner s I Hl) as [u Eu]. pose proof (proj2 (in_own s I u) (conj Hl Eu)) as Ho. pose proof (Hf u) as Fu. pose proof (Hh u).
      exists u. unfold move, acquire_lk. destruct (t_pc (s_proc s u)); try done. rewrite El. by eexists.
    + pose proof (Hf u) as Fu. by destruct (t_pc (s_proc s u)).
  - exists t. unfold move. rewrite E. destruct (t_lock (s_proc s t)) as [v|] eqn:Ev.
    + apply (in_plock s I) in Ev as [[_ Hx]|Hx]; [by rewrite E in Hx|]. pose proof (Hf v) as Fv. by rewrite Hx in Fv.
    + rewrite Es. by eexists.
Qed.
End progress.

(** ** Theorems *)

(** C35: A sleep-lock excludes: in every interleaving at most one process is between
    its [acquiresleep] and its [releasesleep], and [locked] and [pid] name it. *)
Theorem sleeplock_exclusion s t : reachable s -> t_pc (s_proc s t) = Held ->
  s_locked s = true /\ s_pid s = Some t /\ forall u, t_pc (s_proc s u) = Held -> u = t.
Proof.
  intros I%sleeplock_inv Ht. destruct (proj1 (in_own s I t)) as [Hl Hp]; [by rewrite Ht|].
  split; [done|]. split; [done|]. intros u Hu. destruct (proj1 (in_own s I u)) as [_ Hq]; [by rewrite Hu|]. congruence.
Qed.

(** C36: [sleep] and [wakeup] lose no wake-up and do not deadlock: a process that
    sleeps for the lock does so only while the lock is taken or while a
    [releasesleep] that has not reached it yet is waking the sleepers; and as
    long as a process is inside one of the routines and none has the sleep-lock
    between them, some process inside can take its next step. *)
Theorem sleeplock_no_lost_wakeup s : reachable s ->
  (forall t, t_pc (s_proc s t) = Asleep -> t_state (s_proc s t) = SLEEPING ->
     s_locked s = true \/ exists u, will_wake (t_pc (s_proc s u)) t) /\
  (forall t, inside (t_pc (s_proc s t)) -> (forall u, t_pc (s_proc s u) <> Held) ->
     exists v s', inside (t_pc (s_proc s v)) /\ move v s = Some s').
Proof.
  intros I%sleeplock_inv. split.
  - intros t Hp Hs. apply (in_wait s I). unfold waiting. by rewrite Hp.
  - intros t Ht Hh. destruct (s_lk s) as [u|] eqn:El; [by apply (holder_moves s I u)|by apply (free_moves s I t)].
Qed.

(** ** Examples *)

Fixpoint moves (l : list nat) (s : sys) : option sys :=
  match l with
  | [] => Some s
  | t :: l => match move t s with Some s => moves l s | None => None end
  end.

Lemma moves_reachable l : forall s s', reachable s -> Forall (fun t => (t < N)%nat) l -> moves l s = Some s' -> reachable s'.
Proof.
  induction l as [|t l IH]; intros s s' R Hl E; [by injection E as <-|]. inversion Hl; subst. cbn in E.
  destruct (move t s) eqn:Em; [|done]. eapply IH; [by eapply re_move|done|exact E].
Qed.

Definition ran (l : list nat) (s : sys) : sys := default s (moves l s).

Lemma ran_reachable l s : reachable s -> Forall (fun t => (t < N)%nat) l ->
  match moves l s with Some _ => true | None => false end = true -> reachable (ran l s).
Proof. intros R Hl E. unfold ran. destruct (moves l s) eqn:Em; [|done]. by eapply moves_reachable. Qed.

Definition demo_sys : sys := mkSys None false None (fun _ => mkPcb Idle RUNNING false None).

(** Process 0 has the lock and process 1 sleeps for it; then process 0 begins to
    release the lock. *)
Definition demo_held : sys := ran [0; 0; 0; 0; 1; 1; 1; 1; 1; 1; 1]%nat demo_sys.
Definition demo_release : sys := ran [0; 0; 0]%nat demo_held.

Lemma demo_held_reachable : reachable demo_held.
Proof.
  apply ran_reachable; [|repeat constructor; vm_compute; lia|vm_compute; reflexivity].
  apply re_start. split; [done|]. split; [done|]. intros t. cbn. done.
Qed.
Lemma demo_release_reachable : reachable demo_release.
Proof. apply ran_reachable; [apply demo_held_reachable|repeat constructor; vm_compute; lia|vm_compute; reflexivity]. Qed.

Lemma sleeplock_exclusion_witness : t_pc (s_proc demo_held 0) = Held /\ s_pid demo_held = Some 0%nat.
Proof.
  destruct (sleeplock_exclusion demo_held 0 demo_held_reachable) as (_ & H & _); [vm_compute; reflexivity|].
  split; [vm_compute; reflexivity|exact H].
Defined.

Lemma sleeplock_no_lost_wakeup_witness :
  t_pc (s_proc demo_release 1) = Asleep /\ exists u, will_wake (t_pc (s_proc demo_release u)) 1.
Proof.
  destruct (sleeplock_no_lost_wakeup demo_release demo_release_reachable) as [H _].
  destruct (H 1%nat) as [E|E]; [vm_compute; reflexivity|vm_compute; reflexivity|vm_compute in E; discriminate E|].
  split; [vm_compute; reflexivity|exact E].
Defined.
