(* ===== verification/Inv.v ===== *)
(** * The memory invariant

    Every RAM page has one role: free, a page-table page of some address space,
    a user page, a node of a resident set, or in the hands of the code that is
    running. [kinv] ties the roles to what memory holds: the free list links
    exactly the free pages, and every page-table entry points to a page of the
    role its position calls for. *)

From S2P Require Import Prelude Riscv Kernel Mem.

(** [RTable root path]: the table reached from [root] along the indices [path]
    (none for the root itself). [RUser root va]: the page mapped at [va].
    [RNode p]: a node of process [p]'s resident set. [RLoose]: allocated, not
    linked anywhere. [ROther]: any other use (trapframes, pipes, arguments). *)
Inductive role :=
| RFree | RLoose | ROther
| RTable (root : Z) (path : list Z)
| RUser (root va : Z)
| RNode (p : nat).
#[export] Instance role_eq_dec : EqDecision role.
Proof. solve_decision. Defined.

Definition is_table (r : role) : bool := match r with RTable _ _ => true | _ => false end.

(** The free list: the pages linked from [h] through their first word. *)
Fixpoint fl_chain (m : gmap Z (list Z)) (h : Z) (l : list Z) : Prop :=
  match l with
  | [] => h = 0
  | x :: l => h = x /\ exists pg, m !! x = Some pg /\ fl_chain m (pg64 pg 0) l
  end.

(** The virtual address of entry [i0] of the leaf table at [[i2; i1]]. *)
Definition va_of (path : list Z) (i0 : Z) : Z :=
  match path with
  | [i2; i1] => (i2 * 2 ^ 18 + i1 * 2 ^ 9 + i0) * 4096
  | _ => 0
  end.

(** What a valid entry [w], number [i] of the table at [path], points to. *)
Definition entry_ok (own : gmap Z role) (root : Z) (path : list Z) (i w : Z) : Prop :=
  has w PTE_V = true ->
  if decide (length path < 2)%nat then
    Z.land w (Z.lor (Z.lor PTE_R PTE_W) PTE_X) = 0 /\
    own !! PTE2PA w = Some (RTable root (path ++ [i]))
  else
    va_of path i < TRAPFRAME ->
    own !! PTE2PA w = Some (RUser root (va_of path i)).

Definition table_ok (own : gmap Z role) (root : Z) (path : list Z) (pg : list Z) : Prop :=
  forall i, 0 <= i < 512 -> entry_ok own root path i (pg64 pg (8 * i)).

Record kinv (own : gmap Z role) (e : Z) (m : gmap Z (list Z)) (h : Z) : Prop := {
  ki_end : 0 < e;
  ki_mem : forall pa pg, m !! pa = Some pg ->
    length pg = Z.to_nat PGSIZE /\ pa mod PGSIZE = 0 /\ e <= pa < PHYSTOP;
  ki_dom : forall pa, is_Some (own !! pa) <-> is_Some (m !! pa);
  ki_free : exists fl, fl_chain m h fl /\ NoDup fl /\
    forall x, x ∈ fl <-> own !! x = Some RFree;
  ki_path : forall pa root path, own !! pa = Some (RTable root path) ->
    (length path <= 2)%nat /\ (path = [] -> pa = root);
  ki_tab : forall pa root path pg,
    own !! pa = Some (RTable root path) -> m !! pa = Some pg ->
    table_ok own root path pg;
  ki_parent : forall c root path i,
    own !! c = Some (RTable root (path ++ [i])) ->
    exists t pg, own !! t = Some (RTable root path) /\ m !! t = Some pg /\
      0 <= i < 512 /\ has (pg64 pg (8 * i)) PTE_V = true /\ PTE2PA (pg64 pg (8 * i)) = c
}.

(** ** The address space a page table denotes *)

(** The page entry [i] of table [pa] points to. *)
Definition pt_child (m : gmap Z (list Z)) (pa i : Z) : option Z :=
  pg ← m !! pa;
  let w := pg64 pg (8 * i) in
  if has w PTE_V then Some (PTE2PA w) else None.

(** The leaf table for [va]. *)
Definition pt_leaf (m : gmap Z (list Z)) (root va : Z) : option Z :=
  pt_child m root (PX 2 va) ≫= fun p1 => pt_child m p1 (PX 1 va).

(** The entry of [va], [0] where no table exists. *)
Definition pteval (m : gmap Z (list Z)) (root va : Z) : Z :=
  match pt_leaf m root va ≫= (m !!.) with
  | Some pg => pg64 pg (8 * PX 0 va)
  | None => 0
  end.

(** ** Free list *)

Lemma fl_chain_agree m m' h l :
  (forall x, x ∈ l -> m' !! x = m !! x) -> fl_chain m h l -> fl_chain m' h l.
Proof.
  revert h. induction l as [|x l IH]; intros h Hag; simpl; [done|].
  intros (-> & pg & Hpg & Hc). split; [done|]. exists pg. split.
  - rewrite Hag by set_solver. done.
  - apply IH; [set_solver|done].
Qed.

Section kinv.
Context (own : gmap Z role) (e : Z) (m : gmap Z (list Z)) (h : Z).
Hypothesis KI : kinv own e m h.

Lemma ki_is_page pa r : own !! pa = Some r -> exists pg, is_page m pa pg.
Proof.
  intros Hr. destruct (ki_dom _ _ _ _ KI pa) as [Hd _].
  destruct Hd as [pg Hpg]; [by eexists|]. exists pg.
  destruct (ki_mem _ _ _ _ KI pa pg Hpg) as (? & ? & ?). done.
Qed.

Lemma ki_range pa r : own !! pa = Some r -> e <= pa < PHYSTOP /\ pa mod PGSIZE = 0.
Proof.
  intros Hr. destruct (ki_is_page pa r Hr) as (pg & Hpg & _).
  destruct (ki_mem _ _ _ _ KI pa pg Hpg) as (? & ? & ?). done.
Qed.

Lemma ki_nonzero pa r : own !! pa = Some r -> pa <> 0.
Proof. intros Hr. pose proof (ki_range pa r Hr). pose proof (ki_end _ _ _ _ KI). lia. Qed.

(** The head of a non-empty free list is a free page; popping it. *)
Lemma ki_head : h <> 0 -> own !! h = Some RFree.
Proof.
  intros Hh. destruct (ki_free _ _ _ _ KI) as (fl & Hc & _ & Hfl).
  destruct fl as [|x fl]; simpl in Hc; [done|]. destruct Hc as [-> _].
  apply Hfl. set_solver.
Qed.

Lemma kinv_alloc pg :
  h <> 0 -> m !! h = Some pg ->
  kinv (<[h := RLoose]> own) e (<[h := fill 5]> m) (pg64 pg 0).
Proof.
  intros Hh Hpg. pose proof (ki_head Hh) as Hown.
  destruct KI as [He Hm Hd (fl & Hc & Hnd & Hfl) Hp Ht Hpar]. split.
  - done.
  - intros pa pg' Hpa. destruct (decide (pa = h)) as [->|].
    + rewrite lookup_insert_eq in Hpa. simplify_eq. split; [apply length_fill|].
      by destruct (Hm h pg Hpg) as (_ & ? & ?).
    + rewrite lookup_insert_ne in Hpa by done. eauto.
  - intros pa. rewrite !lookup_insert_is_Some, <- Hd. done.
  - destruct fl as [|x fl]; simpl in Hc; [done|]. destruct Hc as (<- & pg' & Hpg' & Hc).
    simplify_eq. apply NoDup_cons in Hnd as [Hx Hnd]. exists fl. split; [|split; [done|]].
    + apply (fl_chain_agree m); [|done]. intros y Hy.
      rewrite lookup_insert_ne; [done|]. set_solver.
    + intros y. destruct (decide (y = h)) as [->|].
      * rewrite lookup_insert_eq. naive_solver.
      * rewrite lookup_insert_ne by done. rewrite <- Hfl. set_solver.
  - intros pa root path Hpa. destruct (decide (pa = h)) as [->|].
    + by rewrite lookup_insert_eq in Hpa.
    + rewrite lookup_insert_ne in Hpa by done. eauto.
  - intros pa root path pg' Hpa Hpg'. destruct (decide (pa = h)) as [->|].
    { by rewrite lookup_insert_eq in Hpa. }
    rewrite lookup_insert_ne in Hpa by done. rewrite lookup_insert_ne in Hpg' by done.
    intros i Hi Hv. specialize (Ht pa root path pg' Hpa Hpg' i Hi Hv).
    case_decide.
    + destruct Ht as [? Ht]. split; [done|]. rewrite lookup_insert_ne; [done|]. congruence.
    + intros Hva. specialize (Ht Hva). rewrite lookup_insert_ne; [done|]. congruence.
  - intros c root path i Hc'. destruct (decide (c = h)) as [->|];
      [by rewrite lookup_insert_eq in Hc'|].
    rewrite lookup_insert_ne in Hc' by done.
    destruct (Hpar _ _ _ _ Hc') as (t & pgt & Ht1 & Ht2 & Hrest).
    exists t, pgt. rewrite !lookup_insert_ne by congruence. done.
Qed.

(** Pushing a loose page on the free list, as [kfree] does. *)
Lemma kinv_free pa pg :
  own !! pa = Some RLoose -> length pg = Z.to_nat PGSIZE -> pg64 pg 0 = h ->
  kinv (<[pa := RFree]> own) e (<[pa := pg]> m) pa.
Proof.
  intros Hown Hlen Hh. pose proof (ki_range pa _ Hown) as [Hr Ha].
  destruct KI as [He Hm Hd (fl & Hc & Hnd & Hfl) Hp Ht Hpar].
  assert (Hnot : pa ∉ fl) by (rewrite Hfl; congruence). split.
  - done.
  - intros pa' pg' Hpa. destruct (decide (pa' = pa)) as [->|].
    + rewrite lookup_insert_eq in Hpa. by simplify_eq.
    + rewrite lookup_insert_ne in Hpa by done. eauto.
  - intros pa'. rewrite !lookup_insert_is_Some, <- Hd. done.
  - exists (pa :: fl). split; [|split; [by constructor|]].
    + simpl. split; [done|]. exists pg. rewrite lookup_insert_eq. split; [done|].
      rewrite Hh. apply (fl_chain_agree m); [|done].
      intros y Hy. rewrite lookup_insert_ne; [done|]. set_solver.
    + intros y. destruct (decide (y = pa)) as [->|].
      * rewrite lookup_insert_eq. set_solver.
      * rewrite lookup_insert_ne by done. rewrite <- Hfl. set_solver.
  - intros pa' root path Hpa. destruct (decide (pa' = pa)) as [->|].
    + by rewrite lookup_insert_eq in Hpa.
    + rewrite lookup_insert_ne in Hpa by done. eauto.
  - intros pa' root path pg' Hpa Hpg'. destruct (decide (pa' = pa)) as [->|].
    { by rewrite lookup_insert_eq in Hpa. }
    rewrite lookup_insert_ne in Hpa by done. rewrite lookup_insert_ne in Hpg' by done.
    intros i Hi Hv. specialize (Ht pa' root path pg' Hpa Hpg' i Hi Hv).
    case_decide.
    + destruct Ht as [? Ht]. split; [done|]. rewrite lookup_insert_ne; [done|]. congruence.
    + intros Hva. specialize (Ht Hva). rewrite lookup_insert_ne; [done|]. congruence.
  - intros c root path i Hc'. destruct (decide (c = pa)) as [->|];
      [by rewrite lookup_insert_eq in Hc'|].
    rewrite lookup_insert_ne in Hc' by done.
    destruct (Hpar _ _ _ _ Hc') as (t & pgt & Ht1 & Ht2 & Hrest).
    exists t, pgt. rewrite !lookup_insert_ne by congruence. done.
Qed.

(** Writing to a page that is not free; a table must stay well-formed, and an
    upper one keep its valid entries. *)
Lemma kinv_write pa r pg :
  own !! pa = Some r -> r <> RFree -> length pg = Z.to_nat PGSIZE ->
  (forall root path, r = RTable root path -> table_ok own root path pg /\
     forall pg0 i, m !! pa = Some pg0 -> (length path < 2)%nat -> 0 <= i < 512 ->
       has (pg64 pg0 (8 * i)) PTE_V = true -> pg64 pg (8 * i) = pg64 pg0 (8 * i)) ->
  kinv own e (<[pa := pg]> m) h.
Proof.
  intros Hown Hr Hlen Htab. pose proof (ki_range pa _ Hown) as [Hrg Ha].
  destruct KI as [He Hm Hd (fl & Hc & Hnd & Hfl) Hp Ht Hpar]. split; try done.
  - intros pa' pg' Hpa. destruct (decide (pa' = pa)) as [->|].
    + rewrite lookup_insert_eq in Hpa. by simplify_eq.
    + rewrite lookup_insert_ne in Hpa by done. eauto.
  - intros pa'. rewrite Hd, lookup_insert_is_Some.
    split; [|intros [<-|[_ ?]]; [apply Hd; by eexists|done]].
    destruct (decide (pa = pa')); [by left|by right].
  - exists fl. split; [|done]. apply (fl_chain_agree m); [|done].
    intros y Hy. rewrite lookup_insert_ne; [done|]. apply Hfl in Hy. congruence.
  - intros pa' root path pg' Hpa Hpg'. destruct (decide (pa' = pa)) as [->|].
    + rewrite lookup_insert_eq in Hpg'. simplify_eq. by eapply Htab.
    + rewrite lookup_insert_ne in Hpg' by done. by eapply Ht.
  - intros c root path i Hc'. destruct (Hpar _ _ _ _ Hc') as (t & pgt & Ht1 & Ht2 & Hi & Hv & Ec).
    destruct (decide (t = pa)) as [->|]; [|exists t, pgt; by rewrite lookup_insert_ne].
    exists pa, pg. rewrite lookup_insert_eq. split; [done|split; [done|split; [done|]]].
    rewrite Hown in Ht1. injection Ht1 as ->.
    destruct (Htab _ _ eq_refl) as [_ Hsame]. rewrite (Hsame pgt i); try done.
    destruct (Hp _ _ _ Hc') as [Hlen' _]. rewrite length_app in Hlen'. simpl in Hlen'. lia.
Qed.

(** Changing the role of a page no entry depends on; an empty page may become
    the root of a new address space. *)
Lemma kinv_role pa r r' :
  own !! pa = Some r -> r <> RFree -> r' <> RFree -> is_table r = false ->
  (forall root path pg, r' = RTable root path -> m !! pa = Some pg ->
     path = [] /\ pa = root /\
     forall i, 0 <= i < 512 -> has (pg64 pg (8 * i)) PTE_V = false) ->
  (forall root va t path pg i, r = RUser root va ->
     own !! t = Some (RTable root path) -> m !! t = Some pg -> length path = 2%nat ->
     0 <= i < 512 -> va_of path i = va -> va < TRAPFRAME ->
     has (pg64 pg (8 * i)) PTE_V = true -> PTE2PA (pg64 pg (8 * i)) <> pa) ->
  kinv (<[pa := r']> own) e m h.
Proof.
  intros Hown Hr Hr' Hnt Hnew Hold. pose proof (ki_is_page pa _ Hown) as (pg0 & Hpg0 & _).
  destruct KI as [He Hm Hd (fl & Hc & Hnd & Hfl) Hp Ht Hpar].
  assert (Hent : forall t root path pg, own !! t = Some (RTable root path) ->
    m !! t = Some pg -> table_ok own root path pg -> table_ok (<[pa := r']> own) root path pg).
  { intros t root path pg Ht0 Hpg Hok i Hi Hv. specialize (Hok i Hi Hv).
    destruct (Hp _ _ _ Ht0) as [Hlen _]. case_decide.
    - destruct Hok as [? Hok]. split; [done|]. rewrite lookup_insert_ne; [done|].
      intros ->. rewrite Hown in Hok. by simplify_eq.
    - intros Hva. specialize (Hok Hva). rewrite lookup_insert_ne; [done|]. intros ->.
      rewrite Hown in Hok. simplify_eq. eapply Hold; [done..|lia|done|done|done|done|done]. }
  split; try done.
  - intros pa'. rewrite <- Hd, lookup_insert_is_Some.
    split; [|destruct (decide (pa = pa')); [by left|by right]].
    intros [<-|[_ ?]]; [by eexists|done].
  - exists fl. split; [done|split; [done|]]. intros y. rewrite Hfl.
    destruct (decide (y = pa)) as [->|]; [rewrite lookup_insert_eq; naive_solver|].
    by rewrite lookup_insert_ne.
  - intros pa' root path Hpa. destruct (decide (pa' = pa)) as [->|].
    + rewrite lookup_insert_eq in Hpa. simplify_eq.
      destruct (Hnew _ _ _ eq_refl Hpg0) as (-> & -> & _). split; [simpl; lia|done].
    + rewrite lookup_insert_ne in Hpa by done. eauto.
  - intros pa' root path pg Hpa Hpg. destruct (decide (pa' = pa)) as [->|].
    + rewrite lookup_insert_eq in Hpa. injection Hpa as ->.
      destruct (Hnew _ _ _ eq_refl Hpg) as (_ & _ & Hz).
      intros i Hi Hv. by rewrite Hz in Hv.
    + rewrite lookup_insert_ne in Hpa by done. eauto.
  - intros c root path i Hc'. destruct (decide (c = pa)) as [->|].
    { rewrite lookup_insert_eq in Hc'. injection Hc' as ->.
      destruct (Hnew _ _ _ eq_refl Hpg0) as (Hnil & _). by destruct path. }
    rewrite lookup_insert_ne in Hc' by done.
    destruct (Hpar _ _ _ _ Hc') as (t & pgt & Ht1 & Ht2 & Hrest).
    exists t, pgt. rewrite lookup_insert_ne; [done|]. intros ->.
    rewrite Hown in Ht1. by simplify_eq.
Qed.

(** At most one page holds the table at a given place. *)
Lemma ki_uniq pa pa' root path :
  own !! pa = Some (RTable root path) -> own !! pa' = Some (RTable root path) -> pa = pa'.
Proof.
  revert pa pa'. induction path as [|i path IH] using rev_ind; intros pa pa' H1 H2.
  - destruct (ki_path _ _ _ _ KI _ _ _ H1) as [_ E1].
    destruct (ki_path _ _ _ _ KI _ _ _ H2) as [_ E2]. by rewrite E1, E2.
  - destruct (ki_parent _ _ _ _ KI _ _ _ _ H1) as (t & pg & Ht & Hpg & _ & _ & E).
    destruct (ki_parent _ _ _ _ KI _ _ _ _ H2) as (t' & pg' & Ht' & Hpg' & _ & _ & E').
    rewrite (IH _ _ Ht Ht') in *. simplify_eq. done.
Qed.
End kinv.
