(* ===== verification/Queue.v ===== *)
(** * The resident set as a queue

    The chain of [struct resident_page] nodes in memory, related to the list it
    stands for. A node is a page: [next] at offset 0, [va] at 8, the sequence
    number at 16. *)

From S2P Require Import Prelude Riscv Kernel Mem Inv.

(** A queue element: the node's page and the fields it holds. *)
Record rnode := mkRn { rn_node : Z; rn_va : Z; rn_seq : Z }.

(** The nodes from [h] on are [q], and the last one points to [t]. *)
Fixpoint rq_seg (m : gmap Z (list Z)) (h : Z) (q : list rnode) (t : Z) : Prop :=
  match q with
  | [] => h = t
  | x :: q =>
      h = rn_node x /\ exists pg, m !! rn_node x = Some pg /\
        pg64 pg rp_va = rn_va x /\ pg32 pg rp_seq = rn_seq x /\
        rq_seg m (pg64 pg rp_next) q t
  end.

(** The last node, as [resident_set_tail] records it. *)
Definition qtail (q : list rnode) : Z :=
  match last q with Some x => rn_node x | None => 0 end.

(** Queue operations on lists: the abstract resident set. *)
Fixpoint qremove (va : Z) (q : list rnode) : list rnode :=
  match q with
  | [] => []
  | x :: q => if rn_va x =? va then q else x :: qremove va q
  end.

Fixpoint qfind (va : Z) (q : list rnode) : option rnode :=
  match q with
  | [] => None
  | x :: q => if rn_va x =? va then Some x else qfind va q
  end.

(** The search loop's result: the node for [va] and its predecessor. *)
Fixpoint qsearch (va prev : Z) (q : list rnode) : Z * Z :=
  match q with
  | [] => (0, prev)
  | x :: q => if rn_va x =? va then (rn_node x, prev) else qsearch va (rn_node x) q
  end.

(** The memory of process [i] holds queue [q] as its resident set. *)
Record qinv (own : gmap Z role) (m : gmap Z (list Z)) (i : nat) (head tail : Z)
    (q : list rnode) : Prop := {
  qi_seg : rq_seg m head q 0;
  qi_tail : tail = qtail q;
  qi_nodup : NoDup (rn_node <$> q);
  qi_role : forall n, n ∈ (rn_node <$> q) <-> own !! n = Some (RNode i)
}.

Lemma rq_seg_app m h q1 q2 t :
  rq_seg m h (q1 ++ q2) t <-> exists h', rq_seg m h q1 h' /\ rq_seg m h' q2 t.
Proof.
  revert h. induction q1 as [|x q1 IH]; intros h; simpl.
  - naive_solver.
  - setoid_rewrite IH. naive_solver.
Qed.

Lemma rq_seg_agree m m' h q t :
  (forall x, x ∈ (rn_node <$> q) -> m' !! x = m !! x) -> rq_seg m h q t -> rq_seg m' h q t.
Proof.
  revert h. induction q as [|x q IH]; intros h Hag; simpl; [done|].
  intros (-> & pg & Hpg & Hva & Hseq & Hs). split; [done|]. exists pg.
  rewrite Hag by set_solver. split_and!; try done. apply IH; [set_solver|done].
Qed.

Lemma rq_seg_inj m h q t t' : rq_seg m h q t -> rq_seg m h q t' -> t = t'.
Proof.
  revert h. induction q as [|x q IH]; intros h; simpl; [congruence|].
  intros (_ & pg & Hpg & _ & _ & Hs) (_ & pg' & Hpg' & _ & _ & Hs'). simplify_eq. eauto.
Qed.

Lemma qtail_snoc q x : qtail (q ++ [x]) = rn_node x.
Proof. unfold qtail. by rewrite last_snoc. Qed.

Lemma qtail_app q1 q2 : q2 <> [] -> qtail (q1 ++ q2) = qtail q2.
Proof.
  intros Hq. destruct q2 as [|x q2] using rev_ind; [done|].
  by rewrite app_assoc, !qtail_snoc.
Qed.

(** Redirecting the last [next] pointer of a segment. *)
Lemma rq_seg_relink m h q y t t' pg :
  NoDup (rn_node <$> q ++ [y]) -> rq_seg m h (q ++ [y]) t ->
  m !! rn_node y = Some pg -> length pg = Z.to_nat PGSIZE -> 0 <= t' < 2 ^ 64 ->
  rq_seg (<[rn_node y := pg64_set pg rp_next t']> m) h (q ++ [y]) t'.
Proof.
  intros Hnd Hs Hpg Hl Ht. rewrite rq_seg_app in Hs |- *.
  destruct Hs as (h' & H1 & Hy). exists h'. split.
  - eapply rq_seg_agree; [|done]. intros x Hx. rewrite lookup_insert_ne; [done|].
    rewrite fmap_app in Hnd. apply NoDup_app in Hnd as (_ & Hd & _).
    intros <-. apply (Hd _ Hx). set_solver.
  - simpl in Hy |- *. destruct Hy as (-> & pg' & Hpg' & Hva & Hseq & _). simplify_eq.
    split; [done|]. eexists. rewrite lookup_insert_eq. split; [done|].
    unfold rp_va, rp_seq, rp_next in *.
    rewrite pg64_set_other, pg32_set64_other, pg64_set_same by klia.
    split_and!; try done. by apply u64_small.
Qed.

(** ** The abstract operations *)

Lemma qremove_split va q x :
  qfind va q = Some x -> exists q1 q2,
    q = q1 ++ x :: q2 /\ qremove va q = q1 ++ q2 /\ rn_va x = va /\
    Forall (fun y => rn_va y <> va) q1.
Proof.
  induction q as [|y q IH]; simpl; [done|].
  destruct (Z.eqb_spec (rn_va y) va) as [Hy|Hy].
  - intros ?. simplify_eq. exists [], q. by rewrite Forall_nil.
  - intros Hf. destruct (IH Hf) as (q1 & q2 & -> & Hr & Hx & Hq1).
    exists (y :: q1), q2. simpl. rewrite Hr. split_and!; try done. by constructor.
Qed.

Lemma qfind_None va q : qfind va q = None <-> Forall (fun y => rn_va y <> va) q.
Proof.
  induction q as [|y q IH]; simpl; [by rewrite Forall_nil|].
  rewrite Forall_cons. destruct (Z.eqb_spec (rn_va y) va); naive_solver.
Qed.

Lemma qremove_None va q : qfind va q = None -> qremove va q = q.
Proof.
  induction q as [|y q IH]; simpl; [done|].
  destruct (rn_va y =? va); [done|]. intros. by rewrite IH.
Qed.

Lemma qsearch_split va prev q1 x q2 :
  rn_va x = va -> Forall (fun y => rn_va y <> va) q1 ->
  qsearch va prev (q1 ++ x :: q2) =
  (rn_node x, match last q1 with Some y => rn_node y | None => prev end).
Proof.
  intros Hx. revert prev. induction q1 as [|y q1 IH]; intros prev Hq1; simpl.
  - by rewrite (proj2 (Z.eqb_eq _ _)).
  - apply Forall_cons in Hq1 as [Hy Hq1]. rewrite (proj2 (Z.eqb_neq _ _)) by done.
    rewrite IH by done. destruct q1 as [|z q1]; [done|]. rewrite last_cons_cons.
    destruct (last (z :: q1)) eqn:E; [done|]. by apply last_None in E.
Qed.

Lemma qsearch_None va prev q :
  qfind va q = None -> (qsearch va prev q).1 = 0.
Proof.
  revert prev. induction q as [|y q IH]; intros prev; simpl; [done|].
  destruct (rn_va y =? va); [done|]. apply IH.
Qed.
