(* ===== verification/Kmem.v ===== *)
(** * Physical page allocator: freeing pages

    [kfree], [freerange] and [kinit] of kernel/kalloc.c. The free list is the
    chain of pages linked through their first word from [k_freelist], as in the
    code. [kalloc] is in Replace.v, because it evicts pages when the list is
    empty. *)

From S2P Require Import Prelude Riscv Kernel Mem Inv.

Section kmem.
Context {F : Type}.

(** [kfree(pa)]: check the address, fill the page with junk, push it. *)
Definition kfree (pa : Z) : K F unit :=
  let* s := get in
  if negb (pa mod PGSIZE =? 0) || (pa <? k_end s) || (PHYSTOP <=? pa)
  then panic "kfree"
  else
    memset_page pa 1 ;;
    acquire LKmem ;;
    let* s := get in
    store64 pa (k_freelist s) ;;
    modify (set_k_freelist pa) ;;
    release LKmem.

Fixpoint freerange_loop (fuel : nat) (p pa_end : Z) : K F unit :=
  if p + PGSIZE <=? pa_end then
    match fuel with
    | O => nofuel
    | S fuel => kfree p ;; freerange_loop fuel (p + PGSIZE) pa_end
    end
  else ret tt.

(** [freerange(pa_start, pa_end)]: at most one iteration per page of the range. *)
Definition freerange (pa_start pa_end : Z) : K F unit :=
  freerange_loop (Z.to_nat ((pa_end - pa_start) / PGSIZE)) (PGROUNDUP pa_start) pa_end.

Definition kinit : K F unit :=
  let* s := get in freerange (k_end s) PHYSTOP.

(** Take the first page of the list: the body both branches of [kalloc] share.
    Returns [0] when the list is empty. *)
Definition kmem_pop : K F Z :=
  let* s := get in
  let r := k_freelist s in
  if r =? 0 then ret 0
  else
    let* next := load64 r in
    modify (set_k_freelist next) ;;
    ret r.
(** ** What [kfree] does *)

(** The junk page [kfree] leaves, linked to the old list. *)
Definition free_page (next : Z) : list Z := pg64_set (fill 1) 0 next.

Lemma length_free_page next : length (free_page next) = Z.to_nat PGSIZE.
Proof.
  unfold free_page. rewrite length_pg64_set; [apply length_fill|].
  rewrite length_fill. klia.
Qed.

Lemma free_page_next next : 0 <= next < 2 ^ 64 -> pg64 (free_page next) 0 = next.
Proof.
  intros Hn. unfold free_page. rewrite pg64_set_same; [by apply u64_small|done|].
  rewrite length_fill. klia.
Qed.

Lemma kfree_eq (s : kstate F) pa pg :
  is_page (k_mem s) pa pg -> k_end s <= pa < PHYSTOP -> LKmem ∉ k_locks s ->
  kfree pa s =
  Done tt (set_k_freelist pa (set_k_mem (<[pa := free_page (k_freelist s)]> (k_mem s)) s)).
Proof.
  intros Hpg Hr Hlk. unfold kfree. kpure.
  destruct Hpg as (Hm & Hlen & Ha).
  rewrite Ha, (proj2 (Z.ltb_ge _ _)), (proj2 (Z.leb_gt _ _)) by lia. cbn [negb orb Z.eqb].
  erewrite bind_done by (by eapply memset_page_eq).
  erewrite bind_done by (apply acquire_eq; exact Hlk). kpure. ksimpl.
  replace pa with (pa + 0) at 1 by lia.
  erewrite bind_done.
  2:{ eapply (store64_page _ pa (fill (u8 1)) 0); [|klia]. ksimpl.
      split; [apply lookup_insert_eq|]. split; [apply length_fill|done]. }
  kpure. ksimpl. rewrite insert_insert_eq.
  erewrite release_eq by (ksimpl; done).
  by destruct s.
Qed.

(** A loose page can always be freed, and is free afterwards. *)
Lemma kfree_spec (s : kstate F) own pa :
  kinv own (k_end s) (k_mem s) (k_freelist s) -> own !! pa = Some RLoose ->
  LKmem ∉ k_locks s ->
  exists s', kfree pa s = Done tt s' /\
    s' = set_k_freelist pa (set_k_mem (<[pa := free_page (k_freelist s)]> (k_mem s)) s) /\
    kinv (<[pa := RFree]> own) (k_end s) (k_mem s') pa.
Proof.
  intros KI Hown Hlk. destruct (ki_is_page _ _ _ _ KI _ _ Hown) as (pg & Hpg).
  destruct (ki_range _ _ _ _ KI _ _ Hown) as [Hr _].
  eexists. split; [by eapply kfree_eq|]. split; [done|]. ksimpl.
  apply (kinv_free _ _ _ _ KI); [done|apply length_free_page|].
  apply free_page_next. destruct (decide (k_freelist s = 0)) as [->|Hh]; [lia|].
  pose proof (ki_range _ _ _ _ KI _ _ (ki_head _ _ _ _ KI Hh)) as [? _].
  pose proof (ki_end _ _ _ _ KI). klia.
Qed.
(** ** Initialisation *)

Lemma freerange_loop_spec fuel : forall (s : kstate F) own p,
  kinv own (k_end s) (k_mem s) (k_freelist s) -> LKmem ∉ k_locks s ->
  p mod PGSIZE = 0 -> (PHYSTOP - p) / PGSIZE <= Z.of_nat fuel ->
  (forall pa, p <= pa -> pa + PGSIZE <= PHYSTOP -> pa mod PGSIZE = 0 ->
     own !! pa = Some RLoose) ->
  (forall pa r, own !! pa = Some r -> pa < p -> r = RFree) ->
  exists s', freerange_loop fuel p PHYSTOP s = Done tt s' /\
    k_end s' = k_end s /\ kinv ((fun _ => RFree) <$> own) (k_end s) (k_mem s') (k_freelist s').
Proof.
  induction fuel as [|fuel IH]; intros s own p KI Hlk Hp Hfuel Hge Hlt.
  all: cbn [freerange_loop]; destruct (Z.leb_spec (p + PGSIZE) PHYSTOP) as [Hle|Hgt].
  2,4: exists s; split; [done|split; [done|]]; replace ((fun _ => RFree) <$> own) with own; [done|];
    apply map_eq; intros pa; rewrite lookup_fmap; destruct (own !! pa) as [r|] eqn:Hr; [|done];
    simpl; f_equal; apply (Hlt pa); [done|];
    destruct (ki_range _ _ _ _ KI _ _ Hr) as [? Hal];
    destruct (Z_lt_ge_dec pa p); [done|];
    pose proof (Z.div_mod pa 4096); pose proof (Z.div_mod p 4096); klia.
  - exfalso. pose proof (Z.div_le_lower_bound (PHYSTOP - p) PGSIZE 1). klia.
  - pose proof (Hge p ltac:(lia) Hle Hp) as Hown.
    destruct (kfree_spec s own p KI Hown Hlk) as (s1 & E & Es1 & KI1).
    erewrite bind_done by exact E.
    destruct (IH s1 (<[p := RFree]> own) (p + PGSIZE)) as (s' & E' & He & KI').
    + rewrite Es1 in KI1 |- *. exact KI1.
    + rewrite Es1. exact Hlk.
    + rewrite <- Zplus_mod_idemp_l, Hp. done.
    + replace (PHYSTOP - (p + PGSIZE)) with (PHYSTOP - p + (-1) * PGSIZE) by lia.
      rewrite Z.div_add by klia. lia.
    + intros pa Hpa Hpa' Hal. rewrite lookup_insert_ne by klia. apply Hge; klia.
    + intros pa r. destruct (decide (pa = p)) as [->|].
      * rewrite lookup_insert_eq. naive_solver.
      * rewrite lookup_insert_ne by done. intros Hr Hpa. apply (Hlt pa r Hr).
        destruct (ki_range _ _ _ _ KI _ _ Hr) as [_ Hal].
        pose proof (Z.div_mod pa 4096); pose proof (Z.div_mod p 4096). klia.
    + exists s'. split; [done|]. rewrite He, Es1 in *. split; [done|].
      rewrite fmap_insert in KI'. rewrite insert_id in KI'; [done|].
      by rewrite lookup_fmap, Hown.
Qed.

(** RAM as the boot code finds it: every page from the end of the kernel up to
    [PHYSTOP], and nothing else. *)
Definition ram_ok (s : kstate F) : Prop :=
  0 < k_end s <= PHYSTOP /\
  (forall pa, is_Some (k_mem s !! pa) <->
     k_end s <= pa /\ pa + PGSIZE <= PHYSTOP /\ pa mod PGSIZE = 0) /\
  (forall pa pg, k_mem s !! pa = Some pg -> length pg = Z.to_nat PGSIZE).
End kmem.

(** Freeing every page of RAM puts them all on the free list. *)
Theorem kinit_spec {F} (s : kstate F) :
  ram_ok s -> k_freelist s = 0 -> LKmem ∉ k_locks s ->
  exists s', kinit s = Done tt s' /\
    kinv ((fun _ => RFree) <$> k_mem s) (k_end s') (k_mem s') (k_freelist s').
Proof.
  intros (He & Hdom & Hlen) Hfl Hlk. unfold kinit, freerange. rewrite bind_get.
  assert (Hup : PGROUNDUP (k_end s) = (k_end s + 4095) / 4096 * 4096)
    by (apply PGROUNDUP_eq; klia).
  destruct (freerange_loop_spec (Z.to_nat ((PHYSTOP - k_end s) / PGSIZE)) s
    ((fun _ => RLoose) <$> k_mem s) (PGROUNDUP (k_end s))) as (s' & E & He' & KI).
  - split; try lia.
    + intros pa pg Hpg. split; [by eapply Hlen|].
      destruct (proj1 (Hdom pa) ltac:(by eexists)) as (? & ? & ?). split; [done|klia].
    + intros pa. by rewrite lookup_fmap, fmap_is_Some.
    + exists []. split; [by rewrite Hfl|]. split; [constructor|].
      intros x. rewrite lookup_fmap. destruct (k_mem s !! x); simpl; set_solver.
    + intros pa root path. rewrite lookup_fmap. by destruct (k_mem s !! pa).
    + intros pa root path pg. rewrite lookup_fmap. by destruct (k_mem s !! pa).
    + intros pa root path i. rewrite lookup_fmap. by destruct (k_mem s !! pa).
  - done.
  - rewrite Hup. apply Z.mod_mul. klia.
  - rewrite Z2Nat.id by (apply Z.div_pos; klia). apply Z.div_le_mono; [klia|].
    rewrite Hup. pose proof (Z.div_mod (k_end s + 4095) 4096). 
    pose proof (Z.mod_pos_bound (k_end s + 4095) 4096). lia.
  - intros pa Hpa Hpa' Hal. rewrite lookup_fmap.
    destruct (proj2 (Hdom pa)) as [pg ->]; [|done]. split; [|done].
    rewrite Hup in Hpa. pose proof (Z.div_mod (k_end s + 4095) 4096).
    pose proof (Z.mod_pos_bound (k_end s + 4095) 4096). lia.
  - intros pa r. rewrite lookup_fmap. destruct (k_mem s !! pa) eqn:Hpg; [|done]. intros _ Hpa.
    destruct (proj1 (Hdom pa) ltac:(by eexists)) as (Hpa1 & ? & Hal).
    rewrite Hup in Hpa. exfalso. kdlia.
  - exists s'. split; [done|]. rewrite He'. rewrite <- map_fmap_compose in KI. exact KI.
Qed.
