(* ===== verification/Swap.v ===== *)
(** * Swap slots

    The per-process bitmap of kernel/proc.c: [swap_slot_alloc] and
    [swap_slot_free] on [p->swap_slots], 128 bytes of 8 slots. *)

From S2P Require Import Prelude Riscv Kernel.

(** The inner loop: the first clear bit of a byte from bit [j] on. *)
Fixpoint free_bit (fuel : nat) (byte j : Z) : option Z :=
  match fuel with
  | O => None
  | S fuel =>
      if Z.land (Z.shiftr byte j) 1 =? 0 then Some j else free_bit fuel byte (j + 1)
  end.

(** The outer loop: the first byte with a clear bit, from byte number [i] on. *)
Fixpoint free_slot (slots : list Z) (i : Z) : option (Z * Z) :=
  match slots with
  | [] => None
  | byte :: slots =>
      match free_bit 8 byte 0 with
      | Some j => Some (i, j)
      | None => free_slot slots (i + 1)
      end
  end.

(** The bitmap after [swap_slots[i] |= 1 << j], and after
    [swap_slots[i] &= ~(1 << j)]. *)
Definition slot_set (slots : list Z) (i j : Z) : list Z :=
  alter (fun b => u8 (Z.lor b (Z.shiftl 1 j))) (Z.to_nat i) slots.
Definition slot_clear (slots : list Z) (i j : Z) : list Z :=
  alter (fun b => u8 (Z.land b (Z.lnot (Z.shiftl 1 j)))) (Z.to_nat i) slots.

Definition slots_alloc (slots : list Z) : Z * list Z :=
  match free_slot slots 0 with
  | Some (i, j) => (i * 8 + j, slot_set slots i j)
  | None => (-1, slots)
  end.

Definition slots_free (slots : list Z) (slot : Z) : list Z :=
  if (0 <=? slot) && (slot <? 1024) then slot_clear slots (slot / 8) (slot mod 8) else slots.

Section swap.
Context {F : Type}.

Definition swap_slot_alloc (p : nat) : K F Z :=
  let* pr := getp p in
  let '(slot, slots) := slots_alloc (p_swap_slots pr) in
  modp p (set_p_swap_slots slots) ;;
  ret slot.

Definition swap_slot_free (p : nat) (slot : Z) : K F unit :=
  modp p (fun pr => set_p_swap_slots (slots_free (p_swap_slots pr) slot) pr).
End swap.

(** ** Abstract view: the set of slots in use *)

(** Slot [s] is in use. *)
Definition slot_used (slots : list Z) (s : Z) : bool :=
  Z.testbit (default 0 (slots !! Z.to_nat (s / 8))) (s mod 8).

(** How many slots are in use, as the cleanup in [freeproc] counts them. *)
Definition slots_count (slots : list Z) : Z :=
  foldr (fun b n => Z.of_nat (length (filter (fun j => Z.testbit b (Z.of_nat j)) (seq 0 8))) + n) 0 slots.

(** ** Correctness of the bitmap operations *)

Lemma bit_clear byte j : 0 <= j -> (Z.land (Z.shiftr byte j) 1 =? 0) = negb (Z.testbit byte j).
Proof.
  intros Hj. change 1 with (Z.ones 1). rewrite Z.land_ones by lia.
  change (2 ^ 1) with 2. rewrite <- Z.bit0_mod, Z.shiftr_spec by lia.
  replace (0 + j) with j by lia. by destruct (Z.testbit byte j).
Qed.

Lemma free_bit_spec fuel byte j :
  0 <= j ->
  match free_bit fuel byte j with
  | Some k => j <= k < j + Z.of_nat fuel /\ Z.testbit byte k = false /\
      forall i, j <= i < k -> Z.testbit byte i = true
  | None => forall i, j <= i < j + Z.of_nat fuel -> Z.testbit byte i = true
  end.
Proof.
  revert j. induction fuel as [|fuel IH]; intros j Hj; cbn [free_bit].
  { intros i Hi. lia. }
  rewrite bit_clear by done. destruct (Z.testbit byte j) eqn:Hb; simpl negb; cbn iota.
  - specialize (IH (j + 1) ltac:(lia)). destruct (free_bit fuel byte (j + 1)) as [k|].
    + destruct IH as (Hk & Hf & Hlt). split; [lia|]. split; [done|].
      intros i Hi. destruct (decide (i = j)) as [->|]; [done|]. apply Hlt. lia.
    + intros i Hi. destruct (decide (i = j)) as [->|]; [done|]. apply IH. lia.
  - split; [lia|]. split; [done|]. lia.
Qed.

Lemma free_slot_spec slots i0 :
  match free_slot slots i0 with
  | Some (i, j) => exists n b, i = i0 + Z.of_nat n /\ slots !! n = Some b /\ 0 <= j < 8 /\
      Z.testbit b j = false /\ (forall k, 0 <= k < j -> Z.testbit b k = true) /\
      forall n' b' k, (n' < n)%nat -> slots !! n' = Some b' -> 0 <= k < 8 -> Z.testbit b' k = true
  | None => forall n b k, slots !! n = Some b -> 0 <= k < 8 -> Z.testbit b k = true
  end.
Proof.
  revert i0. induction slots as [|b slots IH]; intros i0; cbn [free_slot]; [done|].
  pose proof (free_bit_spec 8 b 0 ltac:(lia)) as Hb.
  destruct (free_bit 8 b 0) as [j|].
  - destruct Hb as (Hj & Hf & Hlt). exists 0%nat, b. split; [lia|]. split; [done|].
    split; [lia|]. split; [done|]. split; [done|]. lia.
  - specialize (IH (i0 + 1)). destruct (free_slot slots (i0 + 1)) as [[i j]|].
    + destruct IH as (n & b' & -> & Hn & Hj & Hf & Hlt & Hall).
      exists (S n), b'. split; [lia|]. split; [done|]. split; [done|]. split; [done|].
      split; [done|]. intros [|n'] b'' k Hn' E Hk; [|eapply Hall; [|done..]; lia].
      simpl in E. simplify_eq. apply Hb. lia.
    + intros [|n] b' k E Hk; [|by eapply IH]. simpl in E. simplify_eq. apply Hb. lia.
Qed.

(** Reading a slot of a bitmap in which byte [n] has been updated. *)
Lemma slot_used_alter f slots n b s :
  slots !! n = Some b -> 0 <= s ->
  slot_used (alter f n slots) s =
  if decide (s / 8 = Z.of_nat n) then Z.testbit (f b) (s mod 8) else slot_used slots s.
Proof.
  intros Hn Hs. unfold slot_used. case_decide as E.
  - rewrite E, Nat2Z.id. rewrite list_lookup_alter_eq, Hn. done.
  - rewrite list_lookup_alter_ne; [done|]. intros ->. apply E. rewrite Z2Nat.id; [done|].
    apply Z.div_pos; lia.
Qed.

Lemma slot_used_set slots i j n b s :
  i = Z.of_nat n -> slots !! n = Some b -> 0 <= j < 8 -> 0 <= s ->
  slot_used (slot_set slots i j) s = (s =? i * 8 + j) || slot_used slots s.
Proof.
  intros -> Hn Hj Hs. unfold slot_set. rewrite Nat2Z.id, (slot_used_alter _ _ _ b) by done.
  pose proof (Z.div_mod s 8 ltac:(lia)). pose proof (Z.mod_pos_bound s 8 ltac:(lia)).
  case_decide as E.
  - unfold u8, wrap. rewrite Z.mod_pow2_bits_low, Z.lor_spec, Z.shiftl_spec by lia.
    unfold slot_used. rewrite E, Nat2Z.id, Hn. simpl default. rewrite orb_comm. f_equal.
    destruct (Z.eqb_spec s (Z.of_nat n * 8 + j)) as [Es|Es].
    + replace (s mod 8 - j) with 0 by lia. done.
    + destruct (decide (s mod 8 < j)); [by rewrite Z.testbit_neg_r by lia|].
      apply (Z.bits_above_log2 1); simpl; lia.
  - rewrite (proj2 (Z.eqb_neq _ _)) by lia. done.
Qed.

Lemma slot_used_clear slots i j n b s :
  i = Z.of_nat n -> slots !! n = Some b -> 0 <= j < 8 -> 0 <= s ->
  slot_used (slot_clear slots i j) s = negb (s =? i * 8 + j) && slot_used slots s.
Proof.
  intros -> Hn Hj Hs. unfold slot_clear. rewrite Nat2Z.id, (slot_used_alter _ _ _ b) by done.
  pose proof (Z.div_mod s 8 ltac:(lia)). pose proof (Z.mod_pos_bound s 8 ltac:(lia)).
  case_decide as E.
  - unfold u8, wrap. rewrite Z.mod_pow2_bits_low, Z.land_spec, Z.lnot_spec, Z.shiftl_spec by lia.
    unfold slot_used. rewrite E, Nat2Z.id, Hn. simpl default. rewrite andb_comm. f_equal. f_equal.
    destruct (Z.eqb_spec s (Z.of_nat n * 8 + j)) as [Es|Es].
    + replace (s mod 8 - j) with 0 by lia. done.
    + destruct (decide (s mod 8 < j)); [by rewrite Z.testbit_neg_r by lia|].
      apply (Z.bits_above_log2 1); simpl; lia.
  - rewrite (proj2 (Z.eqb_neq _ _)) by lia. done.
Qed.

(** What [swap_slot_alloc] does to the bitmap: the lowest free slot, or none. *)
Lemma slots_alloc_cases slots :
  match slots_alloc slots with
  | (slot, slots') => length slots' = length slots /\
     ((slot = -1 /\ slots' = slots /\
       forall s, 0 <= s < 8 * Z.of_nat (length slots) -> slot_used slots s = true) \/
      (0 <= slot < 8 * Z.of_nat (length slots) /\ slot_used slots slot = false /\
       (forall s, 0 <= s < slot -> slot_used slots s = true) /\
       forall s, 0 <= s -> slot_used slots' s = (s =? slot) || slot_used slots s))
  end.
Proof.
  unfold slots_alloc. pose proof (free_slot_spec slots 0) as Hf.
  destruct (free_slot slots 0) as [[i j]|].
  - destruct Hf as (n & b & -> & Hn & Hj & Hb & Hlt & Hall).
    split; [apply length_alter|]. right. pose proof (lookup_lt_Some _ _ _ Hn).
    assert (Hdiv : forall s, s / 8 = Z.of_nat n -> slot_used slots s = Z.testbit b (s mod 8)).
    { intros s E. unfold slot_used. by rewrite E, Nat2Z.id, Hn. }
    split; [lia|]. split; [|split].
    + rewrite Hdiv; [|rewrite Z.add_comm, Z.div_add by lia; rewrite Z.div_small by lia; lia].
      rewrite Z.add_comm, Z.mod_add, Z.mod_small by lia. done.
    + intros s Hs. pose proof (Z.div_mod s 8 ltac:(lia)).
      pose proof (Z.mod_pos_bound s 8 ltac:(lia)). pose proof (Z.div_pos s 8 ltac:(lia) ltac:(lia)).
      destruct (decide (s / 8 = Z.of_nat n)); [rewrite Hdiv by done; apply Hlt; lia|].
      unfold slot_used. destruct (slots !! Z.to_nat (s / 8)) as [b'|] eqn:E.
      * eapply (Hall (Z.to_nat (s / 8)) b'); [lia|done|lia].
      * apply lookup_ge_None in E. lia.
    + intros s Hs. by apply (slot_used_set slots (0 + Z.of_nat n) j n b).
  - split; [done|]. left. split; [done|]. split; [done|]. intros s Hs.
    pose proof (Z.div_mod s 8 ltac:(lia)). pose proof (Z.mod_pos_bound s 8 ltac:(lia)).
    pose proof (Z.div_pos s 8 ltac:(lia) ltac:(lia)).
    unfold slot_used. destruct (slots !! Z.to_nat (s / 8)) as [b'|] eqn:E.
    + by eapply Hf.
    + apply lookup_ge_None in E. lia.
Qed.

Lemma slots_free_used slots slot s :
  length slots = 128%nat -> 0 <= slot < 1024 -> 0 <= s ->
  slot_used (slots_free slots slot) s = negb (s =? slot) && slot_used slots s.
Proof.
  intros Hl Hslot Hs. unfold slots_free.
  rewrite (proj2 (Z.leb_le _ _)), (proj2 (Z.ltb_lt _ _)) by lia. cbn [andb].
  pose proof (Z.div_mod slot 8 ltac:(lia)). pose proof (Z.mod_pos_bound slot 8 ltac:(lia)).
  pose proof (Z.div_pos slot 8 ltac:(lia) ltac:(lia)).
  destruct (slots !! Z.to_nat (slot / 8)) as [b|] eqn:E.
  - rewrite (slot_used_clear _ _ _ (Z.to_nat (slot / 8)) b) by (done || lia).
    do 2 f_equal. lia.
  - apply lookup_ge_None in E. lia.
Qed.

Lemma length_slots_free slots slot : length (slots_free slots slot) = length slots.
Proof. unfold slots_free. destruct (_ && _); [|done]. apply length_alter. Qed.
