(* ===== verification/Walk.v ===== *)
(** * Page-table walk

    [walk] of kernel/vm.c. The C function calls [kalloc] when it has to create a
    table, [kalloc] calls [do_page_replacement], and that calls [walk] without
    creation; here [walk_with] takes the allocator as an argument, and [walk]
    in Vm.v ties the knot with [kalloc]. *)

From S2P Require Import Prelude Riscv Kernel.

Section walk.
Context {F : Type}.
Variable kalloc : K F Z.

(** The loop of [walk] for the given levels, then the leaf slot. Returns the
    address of the entry, or [0]. *)
Fixpoint walk_levels (levels : list Z) (pagetable va : Z) (alloc : bool) : K F Z :=
  match levels with
  | [] => ret (pagetable + 8 * PX 0 va)
  | level :: levels =>
      let pte := pagetable + 8 * PX level va in
      let* w := load64 pte in
      if has w PTE_V then walk_levels levels (PTE2PA w) va alloc
      else if negb alloc then ret 0
      else
        let* pa := kalloc in
        if pa =? 0 then ret 0
        else
          memset_page pa 0 ;;
          store64 pte (Z.lor (PA2PTE pa) PTE_V) ;;
          walk_levels levels pa va alloc
  end.

Definition walk_with (pagetable va : Z) (alloc : bool) : K F Z :=
  if MAXVA <=? va then panic "walk" else walk_levels [2; 1] pagetable va alloc.
End walk.

Section walk0.
Context {F : Type}.

(** [walk(pagetable, va, 0)]: the allocator is never called. *)
Definition walk0 (pagetable va : Z) : K F Z := walk_with (panic "unreachable") pagetable va false.

Lemma walk_with_noalloc (kalloc : K F Z) pagetable va s :
  walk_with kalloc pagetable va false s = walk0 pagetable va s.
Proof.
  unfold walk0, walk_with. case_match; [done|].
  generalize pagetable s. generalize [2; 1].
  induction l as [|level l IH]; intros pt st; [done|]. simpl. unfold bind.
  destruct (load64 _ st); [|done..]. destruct (has _ _); [apply IH|done].
Qed.

(** Where all tables exist, [walk] creates none. *)
Lemma walk_present (kalloc : K F Z) pagetable va s r s' :
  walk0 pagetable va s = Done r s' -> r <> 0 -> walk_with kalloc pagetable va true s = Done r s'.
Proof.
  unfold walk0, walk_with. case_match; [done|]. intros Hw Hr. revert Hw.
  generalize pagetable s. generalize [2; 1].
  induction l as [|level l IH]; intros pt st; [done|]. cbn [walk_levels negb]. unfold bind.
  destruct (load64 _ st); [|done..]. destruct (has _ _); [apply IH|]. by intros [= <- _].
Qed.
End walk0.
