(* ===== verification/Pt.v ===== *)
(** * Page tables under the invariant

    Walking a well-formed page table, and the effect of the two kinds of store
    the kernel makes into one: linking a fresh table, and writing a leaf entry. *)

From S2P Require Import Prelude Riscv Kernel Mem Inv Walk.

Lemma va_of_PX va :
  0 <= va < MAXVA -> va_of [PX 2 va; PX 1 va] (PX 0 va) = va / 4096 * 4096.
Proof. intros Hva. simpl. by rewrite <- PX_page. Qed.

(** Different pages have different index triples. *)
Lemma PX_ne va va' :
  0 <= va < MAXVA -> 0 <= va' < MAXVA -> va / 4096 <> va' / 4096 ->
  [PX 2 va; PX 1 va] = [PX 2 va'; PX 1 va'] -> PX 0 va <> PX 0 va'.
Proof. intros H1 H2 Hne E E0. simplify_eq. by apply Hne, PX_inj. Qed.

Lemma PX_same_page va va' :
  0 <= va -> 0 <= va' -> va / 4096 = va' / 4096 ->
  PX 2 va = PX 2 va' /\ PX 1 va = PX 1 va' /\ PX 0 va = PX 0 va'.
Proof.
  intros H1 H2 E. rewrite !PX_eq by lia. change (2 ^ (12 + 9 * 2)) with (4096 * (512 * 512)).
  change (2 ^ (12 + 9 * 1)) with (4096 * 512). change (2 ^ (12 + 9 * 0)) with 4096.
  rewrite <- !(Z.div_div _ 4096) by lia. by rewrite E.
Qed.

Lemma pt_child_eq m pa pg i :
  m !! pa = Some pg ->
  pt_child m pa i =
  if has (pg64 pg (8 * i)) PTE_V then Some (PTE2PA (pg64 pg (8 * i))) else None.
Proof. intros E. unfold pt_child. by rewrite E. Qed.

Lemma pteval_same_page m root va va' :
  0 <= va -> 0 <= va' -> va / 4096 = va' / 4096 -> pteval m root va = pteval m root va'.
Proof.
  intros H1 H2 E. destruct (PX_same_page va va' H1 H2 E) as (E2 & E1 & E0).
  unfold pteval, pt_leaf. by rewrite E2, E1, E0.
Qed.

Section pt.
Context (own : gmap Z role) (e : Z) (m : gmap Z (list Z)) (h root : Z).
Hypothesis KI : kinv own e m h.
Hypothesis HR : own !! root = Some (RTable root []).

Lemma pt_child_role pa path i c :
  own !! pa = Some (RTable root path) -> (length path < 2)%nat -> 0 <= i < 512 ->
  pt_child m pa i = Some c -> own !! c = Some (RTable root (path ++ [i])).
Proof.
  intros Hpa Hlen Hi Hc. unfold pt_child in Hc.
  destruct (m !! pa) as [pg|] eqn:Hpg; [|done]. simpl in Hc.
  destruct (has _ _) eqn:Hv; [|done]. simplify_eq.
  pose proof (ki_tab _ _ _ _ KI _ _ _ _ Hpa Hpg i Hi Hv) as Hok.
  rewrite decide_True in Hok by done. apply Hok.
Qed.

Lemma pt_leaf_role va p0 :
  pt_leaf m root va = Some p0 -> own !! p0 = Some (RTable root [PX 2 va; PX 1 va]).
Proof.
  unfold pt_leaf. destruct (pt_child m root (PX 2 va)) as [p1|] eqn:E1; [|done].
  simpl. intros E0.
  pose proof (pt_child_role _ _ _ _ HR ltac:(simpl; lia) ltac:(by apply PX_range) E1) as H1.
  exact (pt_child_role _ _ _ _ H1 ltac:(simpl; lia) ltac:(by apply PX_range) E0).
Qed.

(** Reading an entry of a table page. *)
Lemma load_entry {F} (s : kstate F) pa pg i :
  k_mem s = m -> m !! pa = Some pg -> 0 <= i < 512 ->
  load64 (pa + 8 * i) s = Done (pg64 pg (8 * i)) s.
Proof.
  intros Hm Hpg Hi. apply load64_page; [|klia]. rewrite Hm.
  destruct (ki_mem _ _ _ _ KI _ _ Hpg) as (? & ? & ?). done.
Qed.

(** [walk] without creation finds the leaf slot, or [0] if a table is missing. *)
Lemma walk0_eq {F} (s : kstate F) va :
  k_mem s = m -> 0 <= va < MAXVA ->
  walk0 root va s =
  Done (match pt_leaf m root va with Some p0 => p0 + 8 * PX 0 va | None => 0 end) s.
Proof.
  intros Hm Hva. unfold walk0, walk_with.
  rewrite (proj2 (Z.leb_gt _ _)) by lia. cbn [walk_levels].
  destruct (ki_is_page _ _ _ _ KI _ _ HR) as (pgr & Hpgr & _).
  erewrite bind_done by (eapply load_entry; [done..|by apply PX_range]).
  unfold pt_leaf. pose proof (pt_child_eq _ _ _ (PX 2 va) Hpgr) as H1.
  destruct (has (pg64 pgr _) PTE_V) eqn:Hv; rewrite H1; [|done]. cbn [mbind option_bind].
  pose proof (pt_child_role _ _ _ _ HR ltac:(simpl; lia) ltac:(by apply PX_range) H1) as R1.
  destruct (ki_is_page _ _ _ _ KI _ _ R1) as (pg1 & Hpg1 & _).
  erewrite bind_done by (eapply load_entry; [done..|by apply PX_range]).
  rewrite (pt_child_eq _ _ _ _ Hpg1). by destruct (has (pg64 pg1 _) PTE_V).
Qed.

(** Reading the slot gives the entry of [va]. *)
Lemma pteval_leaf va p0 :
  pt_leaf m root va = Some p0 ->
  exists pg, m !! p0 = Some pg /\ pteval m root va = pg64 pg (8 * PX 0 va).
Proof.
  intros Hl. destruct (ki_is_page _ _ _ _ KI _ _ (pt_leaf_role _ _ Hl)) as (pg & Hpg & _).
  exists pg. split; [done|]. unfold pteval. rewrite Hl. simpl. by rewrite Hpg.
Qed.

Lemma pteval_None va : pt_leaf m root va = None -> pteval m root va = 0.
Proof. intros Hl. unfold pteval. by rewrite Hl. Qed.

Lemma slot_nonzero va p0 : pt_leaf m root va = Some p0 -> p0 + 8 * PX 0 va <> 0.
Proof.
  intros Hl. pose proof (ki_range _ _ _ _ KI _ _ (pt_leaf_role _ _ Hl)).
  pose proof (ki_end _ _ _ _ KI). pose proof (PX_range 0 va). lia.
Qed.

(** A valid entry below the trapframe maps a user page of this address space. *)
Lemma pteval_user va :
  0 <= va < TRAPFRAME -> has (pteval m root va) PTE_V = true ->
  own !! PTE2PA (pteval m root va) = Some (RUser root (va / 4096 * 4096)).
Proof.
  intros Hva Hv. destruct (pt_leaf m root va) as [p0|] eqn:Hl.
  2:{ rewrite (pteval_None _ Hl) in Hv. done. }
  destruct (pteval_leaf _ _ Hl) as (pg & Hpg & E). rewrite E in *.
  pose proof (ki_tab _ _ _ _ KI _ _ _ _ (pt_leaf_role _ _ Hl) Hpg (PX 0 va)
    ltac:(by apply PX_range) Hv) as Hok.
  rewrite decide_False in Hok by (simpl; lia).
  assert (Hm : 0 <= va < MAXVA) by klia.
  rewrite va_of_PX in Hok by done. apply Hok.
  pose proof (Z.mul_div_le va 4096 ltac:(lia)). lia.
Qed.

(** Memories that agree on the upper tables of [root] have the same leaf tables,
    and memories that agree on all its tables denote the same address space. *)
Lemma pt_leaf_agree m' va :
  (forall pa path, own !! pa = Some (RTable root path) -> (length path < 2)%nat ->
     m' !! pa = m !! pa) ->
  pt_leaf m' root va = pt_leaf m root va.
Proof.
  intros Hag.
  assert (H0 : pt_child m' root (PX 2 va) = pt_child m root (PX 2 va))
    by (unfold pt_child; by rewrite (Hag _ _ HR ltac:(simpl; lia))).
  unfold pt_leaf. rewrite H0. destruct (pt_child m root (PX 2 va)) as [p1|] eqn:E1; [|done].
  simpl.
  pose proof (pt_child_role _ _ _ _ HR ltac:(simpl; lia) ltac:(by apply PX_range) E1) as R1.
  unfold pt_child. by rewrite (Hag _ _ R1 ltac:(simpl; lia)).
Qed.

Lemma pteval_agree m' va :
  (forall pa path, own !! pa = Some (RTable root path) -> m' !! pa = m !! pa) ->
  pteval m' root va = pteval m root va.
Proof.
  intros Hag. unfold pteval. rewrite (pt_leaf_agree m' va) by eauto.
  destruct (pt_leaf m root va) as [p0|] eqn:Hl; [|done]. simpl.
  by rewrite (Hag _ _ (pt_leaf_role _ _ Hl)).
Qed.

Lemma pteval_insert pa pg va :
  (forall path, own !! pa <> Some (RTable root path)) ->
  pteval (<[pa := pg]> m) root va = pteval m root va.
Proof.
  intros Hn. apply pteval_agree. intros pa' path Hpa'.
  rewrite lookup_insert_ne; [done|]. intros ->. by eapply Hn.
Qed.

(** The indices of a leaf table, and the address of its entries. *)
Lemma leaf_path_range t i2 i1 :
  own !! t = Some (RTable root [i2; i1]) -> 0 <= i2 < 512 /\ 0 <= i1 < 512.
Proof.
  intros Ht. destruct (ki_parent _ _ _ _ KI t root [i2] i1 Ht) as (t1 & pg1 & Ht1 & _ & ? & _).
  destruct (ki_parent _ _ _ _ KI t1 root [] i2 Ht1) as (_ & _ & _ & _ & ? & _). done.
Qed.

Lemma va_of_inj va t path i :
  0 <= va < MAXVA -> own !! t = Some (RTable root path) -> length path = 2%nat ->
  0 <= i < 512 -> va_of path i = va / 4096 * 4096 ->
  path = [PX 2 va; PX 1 va] /\ i = PX 0 va.
Proof.
  intros Hva Ht Hlen Hi E.
  destruct path as [|i2 [|i1 [|]]]; try (simpl in Hlen; lia).
  destruct (leaf_path_range _ _ _ Ht) as [H2 H1].
  pose proof (PX_range 2 va ltac:(lia)). pose proof (PX_range 1 va ltac:(lia)).
  pose proof (PX_range 0 va ltac:(lia)).
  unfold va_of in E. rewrite PX_page in E by done.
  assert (i2 = PX 2 va /\ i1 = PX 1 va /\ i = PX 0 va) as (-> & -> & ->) by lia. done.
Qed.

(** *** Writing a leaf entry *)
Section set_leaf.
Context (va p0 : Z) (pg : list Z) (w : Z).
Hypothesis Hva : 0 <= va < MAXVA.
Hypothesis Hl : pt_leaf m root va = Some p0.
Hypothesis Hpg : m !! p0 = Some pg.
Let m' := <[p0 := pg64_set pg (8 * PX 0 va) w]> m.

Local Lemma leaf_len : length pg = Z.to_nat PGSIZE.
Proof. by destruct (ki_mem _ _ _ _ KI _ _ Hpg). Qed.

Lemma kinv_set_leaf :
  (has (u64 w) PTE_V = true -> va / 4096 * 4096 < TRAPFRAME ->
   own !! PTE2PA (u64 w) = Some (RUser root (va / 4096 * 4096))) ->
  kinv own e m' h.
Proof.
  intros Hw. pose proof (PX_range 0 va). pose proof leaf_len as Hlen.
  eapply kinv_write; [exact KI|exact (pt_leaf_role _ _ Hl)|done|..].
  - rewrite length_pg64_set; klia.
  - intros root' path Hr. injection Hr as <- <-. split; [|simpl; lia]. intros i Hi Hv.
    destruct (decide (i = PX 0 va)) as [->|Hne].
    + rewrite pg64_set_same in Hv |- * by klia.
      rewrite decide_False by (simpl; lia). rewrite va_of_PX by done. auto.
    + rewrite pg64_set_other in Hv |- * by klia.
      by apply (ki_tab _ _ _ _ KI _ _ _ _ (pt_leaf_role _ _ Hl) Hpg i).
Qed.

Lemma pt_leaf_set_leaf va' : pt_leaf m' root va' = pt_leaf m root va'.
Proof.
  apply pt_leaf_agree. intros pa path Hpa Hlen. apply lookup_insert_ne. intros <-.
  rewrite (pt_leaf_role _ _ Hl) in Hpa. simplify_eq. simpl in Hlen. lia.
Qed.

Lemma pteval_set_leaf va' :
  0 <= va' < MAXVA ->
  pteval m' root va' =
  if decide (va' / 4096 = va / 4096) then u64 w else pteval m root va'.
Proof.
  intros Hva'. pose proof (PX_range 0 va). pose proof (PX_range 0 va'). pose proof leaf_len.
  unfold pteval. rewrite pt_leaf_set_leaf.
  case_decide as Heq.
  - assert (PX 2 va' = PX 2 va /\ PX 1 va' = PX 1 va /\ PX 0 va' = PX 0 va) as (E2 & E1 & E0).
    { apply PX_same_page; [lia..|done]. }
    assert (El : pt_leaf m root va' = Some p0)
      by (rewrite <- Hl; unfold pt_leaf; by rewrite E2, E1).
    rewrite El. cbn [mbind option_bind]. unfold m'. rewrite lookup_insert_eq, E0.
    rewrite pg64_set_same by klia. done.
  - destruct (pt_leaf m root va') as [q0|] eqn:Hl'; [|done]. cbn [mbind option_bind].
    unfold m'. destruct (decide (q0 = p0)) as [->|]; [|by rewrite lookup_insert_ne].
    rewrite lookup_insert_eq, Hpg. rewrite pg64_set_other; try klia.
    assert (PX 0 va <> PX 0 va'); [|lia].
    apply PX_ne; [done..|congruence|].
    pose proof (pt_leaf_role _ _ Hl) as R. rewrite (pt_leaf_role _ _ Hl') in R.
    congruence.
Qed.

(** Clearing the valid bit of a user page's entry sets the page loose. *)
Lemma kinv_unmap :
  has (u64 w) PTE_V = false -> va / 4096 * 4096 < TRAPFRAME ->
  has (pteval m root va) PTE_V = true ->
  kinv (<[PTE2PA (pteval m root va) := RLoose]> own) e m' h.
Proof.
  intros Hw Hlt Hv. pose proof (PX_range 0 va ltac:(lia)) as Hx. pose proof leaf_len as Hlen.
  assert (Hr : own !! PTE2PA (pteval m root va) = Some (RUser root (va / 4096 * 4096))).
  { apply pteval_user; [|done]. kdlia. }
  assert (KI1 : kinv own e m' h) by (apply kinv_set_leaf; congruence).
  eapply kinv_role; [exact KI1|exact Hr|done..|].
  intros root' va' t path pgt j [= <- <-] Ht Hpgt Hl2 Hj Hvo _ Hjv.
  destruct (va_of_inj va t path j) as [-> ->]; try done.
  pose proof (ki_uniq _ _ _ _ KI _ _ _ _ Ht (pt_leaf_role _ _ Hl)) as ->.
  unfold m' in Hpgt. rewrite lookup_insert_eq in Hpgt. injection Hpgt as <-.
  rewrite pg64_set_same, Hw in Hjv by klia. done.
Qed.
End set_leaf.

(** *** Linking a fresh table *)
Section link.
Context (t : Z) (path : list Z) (pgt : list Z) (i c : Z).
Hypothesis Ht : own !! t = Some (RTable root path).
Hypothesis Hlen : (length path < 2)%nat.
Hypothesis Hpgt : m !! t = Some pgt.
Hypothesis Hi : 0 <= i < 512.
Hypothesis Hinv : has (pg64 pgt (8 * i)) PTE_V = false.
Hypothesis Hc : own !! c = Some RLoose.
Hypothesis Hpgc : m !! c = Some (fill 0).
Let w := Z.lor (PA2PTE c) PTE_V.
Let own' := <[c := RTable root (path ++ [i])]> own.
Let m' := <[t := pg64_set pgt (8 * i) w]> m.

Local Lemma link_range : 0 <= c < 2 ^ 56 /\ c mod 4096 = 0.
Proof.
  pose proof (ki_range _ _ _ _ KI _ _ Hc) as [? ?]. pose proof (ki_end _ _ _ _ KI).
  split; [klia|done].
Qed.

Local Lemma link_w : u64 w = w /\ has w PTE_V = true /\ PTE2PA w = c /\
  Z.land w (Z.lor (Z.lor PTE_R PTE_W) PTE_X) = 0.
Proof.
  destruct link_range as [Hr Ha]. unfold w. split; [|split; [|split]].
  - rewrite pte_add by klia. apply u64_small.
    assert (c / 4096 < 2 ^ 44) by (apply Z.div_lt_upper_bound; lia).
    pose proof (Z.div_pos c 4096). klia.
  - rewrite has_V, testbit_pte by klia. done.
  - apply PTE2PA_pte; klia.
  - apply Z.bits_inj'. intros j Hj. rewrite Z.land_spec, Z.bits_0.
    change (Z.lor (Z.lor PTE_R PTE_W) PTE_X) with 14.
    destruct (decide (j < 10)) as [Hj'|].
    + rewrite testbit_pte by klia.
      assert (j = 0 \/ j = 1 \/ j = 2 \/ j = 3 \/ j = 4 \/ j = 5 \/ j = 6 \/ j = 7 \/ j = 8 \/ j = 9)
        as Hcases by lia.
      repeat destruct Hcases as [->|Hcases]; try done. by subst.
    + rewrite <- (Z.mod_small 14 (2 ^ 10)), Z.mod_pow2_bits_high by lia. apply andb_false_r.
Qed.

Local Lemma link_ne : t <> c.
Proof. intros ->. congruence. Qed.

Local Lemma link_lookup pa r : own !! pa = Some r -> r <> RLoose -> own' !! pa = Some r.
Proof. intros Hpa Hr. unfold own'. rewrite lookup_insert_ne; [done|]. congruence. Qed.

Local Lemma link_table_ok root' path' pg :
  table_ok own root' path' pg -> table_ok own' root' path' pg.
Proof.
  intros Hok j Hj Hv. specialize (Hok j Hj Hv). case_decide.
  - destruct Hok as [? Hok]. split; [done|]. by apply link_lookup.
  - intros Hva. specialize (Hok Hva). by apply link_lookup.
Qed.

Lemma kinv_link : kinv own' e m' h.
Proof.
  destruct link_w as (Ew & Hv & Hpa & Hrwx). pose proof link_ne.
  destruct KI as [He Hm Hd (fl & Hch & Hnd & Hfl) Hp Htab Hpar].
  destruct (Hm _ _ Hpgt) as (Hl & Hal & Hrg). split; [done|..].
  - intros pa pg. unfold m'. destruct (decide (pa = t)) as [->|].
    + rewrite lookup_insert_eq. intros ?. simplify_eq. rewrite length_pg64_set by klia. done.
    + rewrite lookup_insert_ne by done. apply Hm.
  - intros pa. unfold own', m'. rewrite !lookup_insert_is_Some, Hd.
    destruct (decide (pa = t)) as [->|]; [|destruct (decide (pa = c)) as [->|]].
    + split; [by left|]. intros _. right. split; [congruence|by eexists].
    + split; [|by left]. intros _. right. split; [done|by eexists].
    + naive_solver.
  - exists fl. split; [|split; [done|]].
    + eapply fl_chain_agree; [|done]. intros x Hx. apply Hfl in Hx. unfold m'.
      rewrite lookup_insert_ne; [done|]. congruence.
    + intros x. rewrite Hfl. unfold own'. destruct (decide (x = c)) as [->|].
      * rewrite lookup_insert_eq. naive_solver.
      * by rewrite lookup_insert_ne.
  - intros pa root' path'. unfold own'. destruct (decide (pa = c)) as [->|].
    + rewrite lookup_insert_eq. intros [= <- <-]. rewrite length_app. simpl.
      split; [lia|]. by destruct path.
    + rewrite lookup_insert_ne by done. apply Hp.
  - intros pa root' path' pg Hpa' Hpg. destruct (decide (pa = t)) as [->|].
    + unfold m' in Hpg. rewrite lookup_insert_eq in Hpg. injection Hpg as <-.
      rewrite (link_lookup _ _ Ht) in Hpa' by done. injection Hpa' as <- <-.
      intros j Hj Hjv. destruct (decide (j = i)) as [->|].
      * rewrite pg64_set_same in Hjv |- * by klia. rewrite Ew in *.
        rewrite decide_True by done. split; [done|]. rewrite Hpa. apply lookup_insert_eq.
      * rewrite pg64_set_other in Hjv |- * by klia.
        by apply (link_table_ok _ _ _ (Htab _ _ _ _ Ht Hpgt)).
    + unfold m' in Hpg. rewrite lookup_insert_ne in Hpg by done.
      destruct (decide (pa = c)) as [->|].
      * rewrite Hpgc in Hpg. injection Hpg as <-. intros j Hj Hjv. by rewrite pg64_fill0 in Hjv.
      * unfold own' in Hpa'. rewrite lookup_insert_ne in Hpa' by done.
        by eapply link_table_ok, Htab.
  - intros c' root' path' j Hc'. destruct (decide (c' = c)) as [->|].
    + unfold own' in Hc'. rewrite lookup_insert_eq in Hc'. injection Hc' as <- Hpath.
      apply app_inj_tail in Hpath as [<- <-]. exists t. eexists. unfold m'.
      rewrite lookup_insert_eq. split; [by apply link_lookup|]. split; [done|].
      split; [done|]. rewrite pg64_set_same, Ew by klia. done.
    + unfold own' in Hc'. rewrite lookup_insert_ne in Hc' by done.
      destruct (Hpar _ _ _ _ Hc') as (t' & pgt' & Ht1 & Ht2 & Hj & Hjv & Ec).
      destruct (decide (t' = t)) as [->|].
      * exists t. eexists. unfold m'. rewrite lookup_insert_eq.
        split; [by apply link_lookup|]. split; [done|]. split; [done|].
        rewrite Hpgt in Ht2. injection Ht2 as <-.
        assert (j <> i) by congruence. rewrite pg64_set_other by klia. done.
      * exists t', pgt'. unfold m'. rewrite lookup_insert_ne by done.
        split; [by apply link_lookup|done].
Qed.

Lemma pt_child_link : pt_child m' t i = Some c.
Proof.
  destruct link_w as (Ew & Hv & Hpa & _).
  destruct (ki_mem _ _ _ _ KI _ _ Hpgt) as (Hl & _ & _).
  unfold m'. erewrite pt_child_eq by apply lookup_insert_eq.
  rewrite pg64_set_same, Ew, Hv, Hpa by klia. done.
Qed.

Local Lemma pt_child_link_other pa j :
  pa <> t \/ j <> i -> 0 <= j < 512 -> pt_child m' pa j = pt_child m pa j.
Proof.
  intros Hne Hj. destruct (ki_mem _ _ _ _ KI _ _ Hpgt) as (Hl & _ & _).
  destruct (decide (pa = t)) as [->|].
  - unfold m'. erewrite !pt_child_eq; [|done|apply lookup_insert_eq].
    rewrite pg64_set_other by klia. done.
  - unfold pt_child, m'. by rewrite lookup_insert_ne.
Qed.

Local Lemma pt_child_fresh j : pt_child m' c j = None.
Proof.
  pose proof link_ne. unfold pt_child, m'. rewrite lookup_insert_ne, Hpgc by done.
  simpl. by rewrite pg64_fill0.
Qed.

(** Linking a zeroed table changes no entry of the address space. *)
Lemma pteval_link va : pteval m' root va = pteval m root va.
Proof.
  pose proof (PX_range 2 va ltac:(lia)) as Hx2. pose proof (PX_range 1 va ltac:(lia)) as Hx1. pose proof link_ne.
  assert (Hnone : pt_child m t i = None) by (by rewrite (pt_child_eq _ _ _ _ Hpgt), Hinv).
  destruct (ki_path _ _ _ _ KI _ _ _ Ht) as [_ Hp].
  assert (Hin : forall q path', own !! q = Some (RTable root path') -> q <> t ->
    m' !! q = m !! q) by (intros; unfold m'; by rewrite lookup_insert_ne).
  destruct (decide (t = root /\ PX 2 va = i)) as [[Etr Ei]|Hn2].
  { pose proof pt_child_link as Hcl. rewrite Etr, <- Ei in Hcl, Hnone.
    unfold pteval, pt_leaf. rewrite Hnone, Hcl. cbn [mbind option_bind].
    by rewrite pt_child_fresh. }
  assert (E2 : pt_child m' root (PX 2 va) = pt_child m root (PX 2 va)).
  { apply pt_child_link_other; [|lia].
    destruct (decide (root = t)) as [<-|]; [right; naive_solver|by left]. }
  unfold pteval, pt_leaf. rewrite E2.
  destruct (pt_child m root (PX 2 va)) as [p1|] eqn:E1; [|done]. cbn [mbind option_bind].
  pose proof (pt_child_role _ _ _ _ HR ltac:(simpl; lia) Hx2 E1) as R1.
  destruct (decide (t = p1 /\ PX 1 va = i)) as [[<- Ei]|Hn1].
  { rewrite Ei, Hnone, pt_child_link. simpl. unfold m'. rewrite lookup_insert_ne by done.
    rewrite Hpgc. by rewrite pg64_fill0. }
  rewrite pt_child_link_other by (first [lia | destruct (decide (p1 = t)) as [<-|]; [right; naive_solver|by left]]).
  destruct (pt_child m p1 (PX 1 va)) as [p0|] eqn:E0; [|done]. simpl.
  pose proof (pt_child_role _ _ _ _ R1 ltac:(simpl; lia) Hx1 E0) as R0.
  rewrite (Hin p0 _ R0); [done|]. intros ->. rewrite Ht in R0. simplify_eq.
  simpl in Hlen. lia.
Qed.
End link.
End pt.
