(* ===== verification/Replace.v ===== *)
(** * Resident set, FIFO page replacement and page allocation

    [remove_from_resident_set], [find_seq_in_resident_set],
    [do_page_replacement] and [add_to_resident_set] of kernel/proc.c and
    [kalloc] of kernel/kalloc.c. The resident set is the chain of
    [struct resident_page] nodes in memory, each in a page of its own. *)

From S2P Require Import Prelude Riscv Kernel Kmem Swap Walk.

(** The bytes of the swap file's name: /pgswp and five decimal digits. *)
Definition swapname (pid : Z) : list Z :=
  [47; 112; 103; 115; 119; 112;
   48 + Z.rem (Z.quot (Z.quot (Z.quot (Z.quot pid 10) 10) 10) 10) 10;
   48 + Z.rem (Z.quot (Z.quot (Z.quot pid 10) 10) 10) 10;
   48 + Z.rem (Z.quot (Z.quot pid 10) 10) 10;
   48 + Z.rem (Z.quot pid 10) 10;
   48 + Z.rem pid 10].

Section replace.
Context {F : Type} `{FsOps F}.

(** The search loop of [remove_from_resident_set]: the node for [va] and its
    predecessor, [(0, prev)] when there is none. The fuel bounds the length of
    the chain. *)
Fixpoint find_node (fuel : nat) (curr prev va : Z) : K F (Z * Z) :=
  if curr =? 0 then ret (0, prev)
  else
    match fuel with
    | O => nofuel
    | S fuel =>
        let* v := load64 (curr + rp_va) in
        if v =? va then ret (curr, prev)
        else
          let* next := load64 (curr + rp_next) in
          find_node fuel next curr va
    end.

(** A chain has at most as many nodes as there are pages. *)
Definition chain_fuel : K F nat := fun s => Done (size (k_mem s)) s.

Definition remove_from_resident_set (p : nat) (va : Z) : K F unit :=
  acquire (LProc p) ;;
  let* pr := getp p in
  let* fuel := chain_fuel in
  let* (curr, prev) := find_node fuel (p_resident_set_head pr) 0 va in
  (if curr =? 0 then ret tt
   else
     let* next := load64 (curr + rp_next) in
     (if prev =? 0 then modp p (set_p_resident_set_head next)
      else store64 (prev + rp_next) next) ;;
     (if p_resident_set_tail pr =? curr then modp p (set_p_resident_set_tail prev)
      else ret tt)) ;;
  release (LProc p) ;;
  if curr =? 0 then ret tt else kfree curr.

Definition find_seq_in_resident_set (p : nat) (va : Z) : K F Z :=
  acquire (LProc p) ;;
  let* pr := getp p in
  let* fuel := chain_fuel in
  let* (curr, _) := find_node fuel (p_resident_set_head pr) 0 va in
  if curr =? 0 then release (LProc p) ;; ret (-1)
  else
    let* seq := load32 (curr + rp_seq) in
    release (LProc p) ;;
    ret seq.

(** The file-system calls that open or create the swap file, inside one
    transaction; [0] when the file cannot be created. *)
Definition swap_open (name : list Z) : M F Z :=
  fs_begin_op ;;
  let* sip := fs_namei name in
  let* sip :=
    (if sip =? 0 then
       let* sip := fs_create name T_FILE 0 0 in
       (if negb (sip =? 0) then fs_iunlock sip else ret tt) ;;
       ret sip
     else
       fs_ilock sip ;;
       fs_iunlock sip ;;
       ret sip) in
  fs_end_op ;;
  ret sip.

(** Creation of the swap file on first use. *)
Definition open_swap_file (p : nat) : K F unit :=
  let* pr := getp p in
  if p_swap_inode pr =? 0 then
    let* sip := fs (swap_open (swapname (p_pid pr))) in
    modp p (set_p_swap_inode sip)
  else ret tt.

(** The write of one page to its slot; no transaction is opened here. *)
Definition swap_write (sip slot : Z) (data : list Z) : M F Z :=
  fs_ilock sip ;;
  let* n := fs_writei sip data (u32 (slot * PGSIZE)) in
  fs_iunlock sip ;;
  ret n.

(** [do_page_replacement(p)] from step 4 on: [va] and [seq] are the fields of
    the victim. *)
Definition evict (p : nat) (victim va seq : Z) : K F Z :=
  let* pr := getp p in
  let pid := p_pid pr in
  let* pte := walk0 (p_pagetable pr) va in
  if pte =? 0 then panic "do_page_replacement: pte not found"
  else
    let* w := load64 pte in
    if negb (has w PTE_V) then panic "do_page_replacement: page not valid"
    else
      let is_executable_backed := va <? p_exe_end pr in
      let is_dirty := has w PTE_D in
      let pa := PTE2PA w in
      (if negb is_dirty && is_executable_backed then
         printf (EvEvict pid va false) ;;
         printf (EvDiscard pid va) ;;
         store64 pte 0 ;;
         kfree pa
       else
         let* slot := swap_slot_alloc p in
         if slot =? -1 then
           printf (EvEvict pid va true) ;;
           printf (EvSwapfull pid) ;;
           printf (EvKillSwap pid) ;;
           modp p (set_p_killed 1) ;;
           store64 pte 0 ;;
           kfree pa
         else
           let perms := Z.land w (Z.lor (Z.lor (Z.lor PTE_R PTE_W) PTE_X) PTE_U) in
           printf (EvEvict pid va true) ;;
           printf (EvSwapout pid va slot) ;;
           open_swap_file p ;;
           let* pr := getp p in
           let sip := p_swap_inode pr in
           if negb (sip =? 0) then
             let* data := load_bytes pa (Z.to_nat PGSIZE) in
             let* n := fs (swap_write sip slot data) in
             if negb (n =? PGSIZE) then
               printf (EvDiscard pid va) ;;
               swap_slot_free p slot ;;
               store64 pte 0 ;;
               kfree pa
             else
               store64 pte (Z.lor (Z.lor (SLOT_PTE slot) perms) PTE_S) ;;
               kfree pa
           else
             printf (EvNoSwapFile seq) ;;
             swap_slot_free p slot ;;
             store64 pte 0 ;;
             kfree pa) ;;
      kfree victim ;;
      ret 1.

Definition do_page_replacement (p : nat) : K F Z :=
  acquire (LProc p) ;;
  let* pr := getp p in
  let victim := p_resident_set_head pr in
  if victim =? 0 then release (LProc p) ;; ret 0
  else
    let* next := load64 (victim + rp_next) in
    modp p (set_p_resident_set_head next) ;;
    (if next =? 0 then modp p (set_p_resident_set_tail 0) else ret tt) ;;
    release (LProc p) ;;
    let* va := load64 (victim + rp_va) in
    let* seq := load32 (victim + rp_seq) in
    printf (EvVictim (p_pid pr) va seq) ;;
    evict p victim va seq.

(** [kalloc()]: a page from the free list, or one made free by evicting the
    oldest page of the running process; [0] when there is none. *)
Definition kalloc : K F Z :=
  acquire LKmem ;;
  let* s := get in
  let r := k_freelist s in
  release LKmem ;;
  if negb (r =? 0) then
    acquire LKmem ;;
    let* next := load64 r in
    modify (set_k_freelist next) ;;
    release LKmem ;;
    memset_page r 5 ;;
    ret r
  else
    let* p := myproc in
    (match p with
     | Some p => let* pr := getp p in printf (EvMemfull (Some (p_pid pr)))
     | None => printf (EvMemfull None)
     end) ;;
    let* ok :=
      match p with Some p => do_page_replacement p | None => ret 1 end in
    if ok =? 0 then ret 0
    else
      acquire LKmem ;;
      let* r := kmem_pop in
      release LKmem ;;
      (if negb (r =? 0) then memset_page r 5 else ret tt) ;;
      ret r.

Definition add_to_resident_set (p : nat) (va seq_num : Z) : K F unit :=
  let* node := kalloc in
  if node =? 0 then panic "add_to_resident_set: kalloc failed"
  else
    store64 (node + rp_va) va ;;
    store32 (node + rp_seq) seq_num ;;
    store64 (node + rp_next) 0 ;;
    acquire (LProc p) ;;
    let* pr := getp p in
    (if p_resident_set_head pr =? 0 then
       modp p (set_p_resident_set_head node) ;;
       modp p (set_p_resident_set_tail node)
     else
       store64 (p_resident_set_tail pr + rp_next) node ;;
       modp p (set_p_resident_set_tail node)) ;;
    release (LProc p).
End replace.
