(* ===== verification/ResidentSpec.v ===== *)
(** * The resident-set operations implement the queue

    [remove_from_resident_set], [find_seq_in_resident_set] and
    [add_to_resident_set] on the chain in memory do what the list operations of
    Queue.v do, keep the memory invariant, and touch nothing else. *)

From S2P Require Import Prelude Riscv Kernel Mem Inv Queue Kmem Walk Replace.

(** A state whose memory, free list and process [i] have been replaced. *)
Definition kupd {F} (s : kstate F) (fl : Z) (m : gmap Z (list Z)) (i : nat) (pr : proc)
    : kstate F :=
  set_k_freelist fl (set_k_mem m (set_k_procs (<[i := pr]> (k_procs s)) s)).

(** A process with other queue ends. *)
Definition set_ends (h t : Z) (pr : proc) : proc :=
  set_p_resident_set_head h (set_p_resident_set_tail t pr).

Lemma set_ends_id pr : set_ends (p_resident_set_head pr) (p_resident_set_tail pr) pr = pr.
Proof. by destruct pr. Qed.

Lemma length_le_size (m : gmap Z (list Z)) l :
  NoDup l -> (forall x, x ∈ l -> is_Some (m !! x)) -> (length l <= size m)%nat.
Proof.
  intros Hnd Hin. rewrite <- (size_list_to_set (C := gset Z) l) by done.
  rewrite <- size_dom. apply subseteq_size. intros x.
  rewrite elem_of_list_to_set, elem_of_dom. auto.
Qed.

(** *** Unlinking a node, on memory *)

(** The memory after node [x], between [q1] and [q2], has been unlinked: the
    last node of [q1], if any, now points to what [x] pointed to. *)
Definition unlink (m : gmap Z (list Z)) (q1 : list rnode) (next : Z) : gmap Z (list Z) :=
  match last q1 with
  | None => m
  | Some y =>
      match m !! rn_node y with
      | Some pg => <[rn_node y := pg64_set pg rp_next next]> m
      | None => m
      end
  end.

Section unlink.
Context (own : gmap Z role) (e : Z) (m : gmap Z (list Z)) (fl : Z) (i : nat)
  (head tail : Z) (q1 q2 : list rnode) (x : rnode) (pgx : list Z).
Hypothesis KI : kinv own e m fl.
Hypothesis Q : qinv own m i head tail (q1 ++ x :: q2).
Hypothesis Hx : m !! rn_node x = Some pgx.
Let next := pg64 pgx rp_next.
Let m1 := unlink m q1 next.
Let head1 := match q1 with [] => next | _ => head end.

Lemma unlink_fresh y : y ∈ (rn_node <$> q1) \/ y ∈ (rn_node <$> q2) -> y <> rn_node x.
Proof.
  intros Hy ->. pose proof (qi_nodup _ _ _ _ _ _ Q) as Hnd.
  rewrite fmap_app, fmap_cons in Hnd. apply NoDup_app in Hnd as (_ & Hd & Hnd).
  apply NoDup_cons in Hnd as [Hnx _]. destruct Hy as [Hy|Hy]; [|done].
  apply (Hd _ Hy). set_solver.
Qed.

Lemma unlink_next : 0 <= next < 2 ^ 64 /\ rq_seg m next q2 0 /\ rq_seg m head q1 (rn_node x).
Proof.
  split; [apply pg64_range|]. pose proof (qi_seg _ _ _ _ _ _ Q) as Hs.
  apply rq_seg_app in Hs as (h' & H1 & Hs). simpl in Hs.
  destruct Hs as (-> & pg & Hpg & _ & _ & H2). simplify_eq. done.
Qed.

Lemma unlink_agree pa : pa ∉ (rn_node <$> q1) -> m1 !! pa = m !! pa.
Proof.
  intros Hpa. unfold m1, unlink. destruct (last q1) as [y|] eqn:Hl; [|done].
  destruct (m !! rn_node y) eqn:Hy; [|done]. rewrite lookup_insert_ne; [done|].
  intros <-. apply Hpa. apply list_elem_of_fmap. exists y. split; [done|].
  apply last_Some in Hl as (q' & Eq). rewrite Eq. clear. set_solver.
Qed.

Lemma unlink_role y : y ∈ (rn_node <$> q1 ++ x :: q2) ->
  own !! y = Some (RNode i) /\ exists pg, is_page m y pg.
Proof.
  intros Hy. apply (qi_role _ _ _ _ _ _ Q) in Hy. split; [done|]. by eapply ki_is_page.
Qed.

Lemma unlink_seg : rq_seg m1 head1 (q1 ++ q2) 0.
Proof.
  destruct unlink_next as (Hn & H2 & H1). unfold head1.
  destruct (last q1) as [y|] eqn:Hl.
  2:{ apply last_None in Hl as ->. done. }
  pose proof Hl as Hl'. apply last_Some in Hl' as (l & Eq).
  destruct (unlink_role (rn_node y)) as [_ (pgy & Hy & Hly & _)]; [rewrite Eq; set_solver|].
  replace (match q1 with [] => next | _ => head end) with head by (by rewrite Eq; destruct l).
  pose proof (qi_nodup _ _ _ _ _ _ Q) as Hnd. rewrite fmap_app in Hnd.
  apply NoDup_app in Hnd as (Hnd1 & Hd & _).
  apply rq_seg_app. exists next. split.
  - unfold m1, unlink. rewrite Hl, Hy, Eq. apply (rq_seg_relink _ _ _ _ (rn_node x)); try done.
    + by rewrite <- Eq.
    + by rewrite <- Eq.
  - eapply rq_seg_agree; [|exact H2]. intros z Hz. apply unlink_agree.
    intros Hz1. apply (Hd _ Hz1). set_solver.
Qed.

Lemma unlink_tail : qtail (q1 ++ q2) = if tail =? rn_node x then qtail q1 else tail.
Proof.
  rewrite (qi_tail _ _ _ _ _ _ Q).
  assert (Hfr : forall y, y ∈ (rn_node <$> q2) -> y <> rn_node x)
    by (intros; apply unlink_fresh; by right).
  revert Hfr. generalize q2. intros q Hfr. destruct q as [|z q _] using rev_ind.
  - by rewrite app_nil_r, qtail_snoc, Z.eqb_refl.
  - rewrite !app_comm_cons, !app_assoc, !qtail_snoc.
    rewrite (proj2 (Z.eqb_neq _ _)); [done|]. apply Hfr. set_solver.
Qed.

Lemma unlink_kinv : kinv (<[rn_node x := RLoose]> own) e m1 fl.
Proof.
  destruct (unlink_role (rn_node x)) as [Hr _]; [set_solver|].
  assert (KI1 : kinv own e m1 fl).
  { unfold m1, unlink. destruct (last q1) as [y|] eqn:Hl; [|done].
    apply last_Some in Hl as (l & Eq).
    destruct (unlink_role (rn_node y)) as [Hry (pgy & Hy & Hly & _)]; [rewrite Eq; set_solver|].
    rewrite Hy. eapply kinv_write; [done|exact Hry|done| |done].
    rewrite length_pg64_set; [done|]. unfold rp_next. klia. }
  eapply kinv_role; [exact KI1|exact Hr|done..].
Qed.

Lemma unlink_qinv :
  qinv (<[rn_node x := RLoose]> own) m1 i head1 (if tail =? rn_node x then qtail q1 else tail)
    (q1 ++ q2).
Proof.
  split.
  - apply unlink_seg.
  - symmetry. apply unlink_tail.
  - pose proof (qi_nodup _ _ _ _ _ _ Q) as Hnd. rewrite fmap_app in Hnd |- *.
    apply NoDup_app in Hnd as (? & Hd & Hnd). apply NoDup_cons in Hnd as [_ ?].
    apply NoDup_app. split_and!; try done. set_solver.
  - intros n. destruct (decide (n = rn_node x)) as [->|Hne].
    + rewrite lookup_insert_eq. split; [|done]. rewrite fmap_app, elem_of_app.
      intros Hn. by apply unlink_fresh in Hn.
    + rewrite lookup_insert_ne by done. rewrite <- (qi_role _ _ _ _ _ _ Q).
      rewrite !fmap_app, fmap_cons. set_solver.
Qed.
End unlink.

(** Writing a page that is not one of its nodes leaves a queue as it is. *)
Lemma qinv_frame own m i h t q pa r r' pg :
  qinv own m i h t q -> own !! pa = Some r -> r <> RNode i -> r' <> RNode i ->
  qinv (<[pa := r']> own) (<[pa := pg]> m) i h t q.
Proof.
  intros [Hs Ht Hnd Hr] Hown Hne Hne'. split; try done.
  - eapply rq_seg_agree; [|done]. intros x Hx. rewrite lookup_insert_ne; [done|].
    intros <-. apply Hr in Hx. congruence.
  - intros n. rewrite Hr. destruct (decide (n = pa)) as [->|].
    + rewrite lookup_insert_eq. split; congruence.
    + by rewrite lookup_insert_ne.
Qed.

Section resident.
Context {F : Type} `{FsOps F}.
Implicit Types s : kstate F.

(** What the lemmas of this section assume: the invariant, process [i], its
    queue [q], and the locks the operations take are free. *)
Record rstate (own : gmap Z role) s (i : nat) (pr : proc) (q : list rnode) : Prop := {
  rs_inv : kinv own (k_end s) (k_mem s) (k_freelist s);
  rs_proc : k_procs s !! i = Some pr;
  rs_q : qinv own (k_mem s) i (p_resident_set_head pr) (p_resident_set_tail pr) q;
  rs_kmem : LKmem ∉ k_locks s;
  rs_plock : LProc i ∉ k_locks s
}.

Lemma rs_node own s i pr q x :
  rstate own s i pr q -> x ∈ (rn_node <$> q) ->
  own !! x = Some (RNode i) /\ exists pg, is_page (k_mem s) x pg.
Proof.
  intros R Hx. apply (qi_role _ _ _ _ _ _ (rs_q _ _ _ _ _ R)) in Hx. split; [done|].
  by eapply ki_is_page; [apply (rs_inv _ _ _ _ _ R)|].
Qed.

Lemma find_node_eq fuel s h prev va q :
  rq_seg (k_mem s) h q 0 ->
  (forall x, x ∈ (rn_node <$> q) -> x <> 0 /\ exists pg, is_page (k_mem s) x pg) ->
  (length q <= fuel)%nat ->
  find_node fuel h prev va s = Done (qsearch va prev q) s.
Proof.
  revert h prev q. induction fuel as [|fuel IH]; intros h prev q Hs Hin Hf.
  - destruct q; [|simpl in Hf; lia]. simpl in Hs. by subst.
  - destruct q as [|x q]; simpl in Hs; [by subst|].
    destruct Hs as (-> & pg & Hpg & Hva & _ & Hs).
    destruct (Hin (rn_node x) ltac:(set_solver)) as (Hnz & pg' & Hpg').
    destruct Hpg' as (Hpg'' & Hl & Ha). simplify_eq.
    cbn [find_node qsearch]. rewrite (proj2 (Z.eqb_neq _ _)) by done.
    erewrite bind_done by (eapply load64_page; [done|unfold rp_va; klia]).
    rewrite Hva. destruct (rn_va x =? va); [done|].
    erewrite bind_done by (eapply load64_page; [done|unfold rp_next; klia]).
    apply IH; [done|set_solver|simpl in Hf; lia].
Qed.

Lemma find_node_rs own s s1 i pr q va :
  rstate own s i pr q -> k_mem s1 = k_mem s ->
  find_node (size (k_mem s)) (p_resident_set_head pr) 0 va s1 = Done (qsearch va 0 q) s1.
Proof.
  intros R Hm. apply find_node_eq; rewrite ?Hm.
  - apply (rs_q _ _ _ _ _ R).
  - intros x Hx. destruct (rs_node _ _ _ _ _ _ R Hx) as [Hr Hp]. split; [|done].
    by eapply ki_nonzero; [apply (rs_inv _ _ _ _ _ R)|].
  - erewrite <- (length_fmap rn_node). apply length_le_size.
    + apply (rs_q _ _ _ _ _ R).
    + intros x Hx. destruct (rs_node _ _ _ _ _ _ R Hx) as [_ (pg & Hpg & _)]. by eexists.
Qed.

(** The node [qfind] finds, with its page. *)
Lemma qfind_node own s i pr q va x :
  rstate own s i pr q -> qfind va q = Some x ->
  own !! rn_node x = Some (RNode i) /\ exists pg, is_page (k_mem s) (rn_node x) pg /\
    pg64 pg rp_va = rn_va x /\ pg32 pg rp_seq = rn_seq x.
Proof.
  intros R Hf. destruct (qremove_split _ _ _ Hf) as (q1 & q2 & -> & _ & _ & _).
  destruct (rs_node _ _ _ _ _ (rn_node x) R ltac:(set_solver)) as [Hr (pg & Hpg & Hl & Ha)].
  split; [done|]. exists pg. split; [done|].
  pose proof (qi_seg _ _ _ _ _ _ (rs_q _ _ _ _ _ R)) as Hs.
  apply rq_seg_app in Hs as (h' & _ & Hs). simpl in Hs.
  destruct Hs as (_ & pg' & Hpg' & ? & ? & _). by simplify_eq.
Qed.

(** [find_seq_in_resident_set] returns the sequence number of the page, [-1] if
    it is not resident, and changes nothing. *)
Lemma find_seq_eq own s i pr q va :
  rstate own s i pr q ->
  find_seq_in_resident_set i va s =
  Done (match qfind va q with Some x => rn_seq x | None => -1 end) s.
Proof.
  intros R. unfold find_seq_in_resident_set.
  erewrite bind_done by (apply acquire_eq, (rs_plock _ _ _ _ _ R)).
  erewrite bind_done by (apply getp_eq; ksimpl; apply (rs_proc _ _ _ _ _ R)).
  erewrite bind_done by reflexivity. ksimpl.
  erewrite bind_done by (by eapply find_node_rs).
  destruct (qfind va q) as [x|] eqn:Hf.
  - destruct (qfind_node _ _ _ _ _ _ _ R Hf) as (Hr & pg & Hpg & _ & Hseq).
    destruct (qremove_split _ _ _ Hf) as (q1 & q2 & -> & _ & Hx & Hq1).
    rewrite qsearch_split by done.
    rewrite (proj2 (Z.eqb_neq _ _)) by (by eapply ki_nonzero; [apply (rs_inv _ _ _ _ _ R)|]).
    erewrite bind_done by (eapply load32_page; [ksimpl; done|unfold rp_seq; klia]).
    erewrite bind_done by (eapply release_eq; [done|apply (rs_plock _ _ _ _ _ R)]).
    rewrite Hseq. by destruct s.
  - pose proof (qsearch_None va 0 q Hf) as E0. destruct (qsearch va 0 q) as [c p]; simpl in E0.
    subst c. rewrite Z.eqb_refl.
    erewrite bind_done by (eapply release_eq; [done|apply (rs_plock _ _ _ _ _ R)]).
    by destruct s.
Qed.
(** [remove_from_resident_set]: nothing happens if the page is not resident;
    otherwise its node leaves the queue and becomes the first free page. *)
Lemma remove_none own s i pr q va :
  rstate own s i pr q -> qfind va q = None -> remove_from_resident_set i va s = Done tt s.
Proof.
  intros R Hf. unfold remove_from_resident_set.
  erewrite bind_done by (apply acquire_eq, (rs_plock _ _ _ _ _ R)).
  erewrite bind_done by (apply getp_eq; ksimpl; apply (rs_proc _ _ _ _ _ R)).
  erewrite bind_done by reflexivity. ksimpl.
  erewrite bind_done by (by eapply find_node_rs).
  pose proof (qsearch_None va 0 q Hf) as E0. destruct (qsearch va 0 q) as [c p]; simpl in E0.
  subst c. rewrite !Z.eqb_refl. kpure.
  erewrite bind_done by (eapply release_eq; [done|apply (rs_plock _ _ _ _ _ R)]).
  by destruct s.
Qed.

Lemma remove_some own s i pr q va x :
  rstate own s i pr q -> qfind va q = Some x ->
  exists m' h' t',
    remove_from_resident_set i va s = Done tt (kupd s (rn_node x) m' i (set_ends h' t' pr)) /\
    rstate (<[rn_node x := RFree]> own) (kupd s (rn_node x) m' i (set_ends h' t' pr)) i
      (set_ends h' t' pr) (qremove va q) /\
    (forall pa, own !! pa <> Some (RNode i) -> m' !! pa = k_mem s !! pa).
Proof.
  intros R Hf. destruct (qfind_node _ _ _ _ _ _ _ R Hf) as (Hr & pgx & Hpgx & _ & _).
  destruct (qremove_split _ _ _ Hf) as (q1 & q2 & -> & -> & Hx & Hq1).
  pose proof (rs_inv _ _ _ _ _ R) as KI. pose proof (rs_q _ _ _ _ _ R) as Q.
  pose proof (proj1 Hpgx) as Hmx.
  set (next := pg64 pgx rp_next).
  set (m1 := unlink (k_mem s) q1 next).
  set (h1 := match q1 with [] => next | _ => p_resident_set_head pr end).
  set (t1 := if p_resident_set_tail pr =? rn_node x then qtail q1 else p_resident_set_tail pr).
  pose proof (unlink_kinv _ _ _ _ _ _ _ _ _ _ _ KI Q Hmx) as KI1.
  pose proof (unlink_qinv _ _ _ _ _ _ _ _ _ _ _ KI Q Hmx) as Q1.
  fold next m1 h1 t1 in KI1, Q1.
  set (s1 := set_k_mem m1 (set_k_procs (<[i := set_ends h1 t1 pr]> (k_procs s)) s)).
  destruct (kfree_spec s1 (<[rn_node x := RLoose]> own) (rn_node x)) as (s2 & Ef & Es2 & KI2).
  { exact KI1. } { apply lookup_insert_eq. } { apply (rs_kmem _ _ _ _ _ R). }
  rewrite insert_insert_eq in KI2.
  exists (k_mem s2), h1, t1.
  assert (E : remove_from_resident_set i va s = Done tt (kupd s (rn_node x) (k_mem s2) i (set_ends h1 t1 pr))).
  { transitivity (kfree (rn_node x) s1); [|rewrite Ef, Es2; by destruct s].
    unfold remove_from_resident_set.
    erewrite bind_done by (apply acquire_eq, (rs_plock _ _ _ _ _ R)).
    erewrite bind_done by (apply getp_eq; ksimpl; apply (rs_proc _ _ _ _ _ R)).
    erewrite bind_done by reflexivity. ksimpl.
    erewrite bind_done by (by eapply find_node_rs).
    rewrite qsearch_split by done.
    rewrite (proj2 (Z.eqb_neq (rn_node x) 0)) by (by eapply (ki_nonzero _ _ _ _ KI)).
    kpure. erewrite bind_done by (eapply load64_page; [ksimpl; done|unfold rp_next; klia]).
    fold next. pose proof (rs_proc _ _ _ _ _ R) as Hp.
    pose proof (rs_plock _ _ _ _ _ R) as Hlk.
    destruct (last q1) as [y|] eqn:Hl.
    - pose proof Hl as Hl'. apply last_Some in Hl' as (l & Eq).
      destruct (rs_node _ _ _ _ _ (rn_node y) R) as [Hry (pgy & Hy)]; [rewrite Eq; set_solver|].
      rewrite (proj2 (Z.eqb_neq (rn_node y) 0)) by (by eapply (ki_nonzero _ _ _ _ KI)).
      rewrite !bind_assoc. erewrite bind_done by (eapply store64_page; [ksimpl; done|unfold rp_next; klia]).
      assert (Em1 : m1 = <[rn_node y := pg64_set pgy rp_next next]> (k_mem s))
        by (unfold m1, unlink; by rewrite Hl, (proj1 Hy)).
      assert (Eh1 : h1 = p_resident_set_head pr) by (unfold h1; rewrite Eq; by destruct l).
      ksimpl. unfold s1. rewrite Em1, Eh1. unfold t1.
      destruct (p_resident_set_tail pr =? rn_node x) eqn:Et.
      + erewrite bind_done by (eapply modp_eq; ksimpl; done).
        erewrite bind_done by (eapply release_eq; [ksimpl; done|done]).
        unfold qtail. by rewrite Hl.
      + kpure. erewrite bind_done by (eapply release_eq; [ksimpl; done|done]).
        f_equal. rewrite set_ends_id, list_insert_id by done. by destruct s.
    - apply last_None in Hl. unfold s1, m1, h1, t1, unlink. rewrite Hl. cbn [last].
      rewrite Z.eqb_refl, !bind_assoc.
      erewrite bind_done by (eapply modp_eq; ksimpl; done).
      destruct (p_resident_set_tail pr =? rn_node x) eqn:Et.
      + erewrite bind_done by (eapply modp_eq; ksimpl; apply list_lookup_insert_eq; by eapply lookup_lt_Some).
        erewrite bind_done by (eapply release_eq; [ksimpl; done|done]).
        ksimpl. by rewrite list_insert_insert_eq.
      + kpure. erewrite bind_done by (eapply release_eq; [ksimpl; done|done]).
        done. }
  split; [done|]. split; [split|].
  - unfold kupd; ksimpl. exact KI2.
  - unfold kupd; ksimpl. apply list_lookup_insert_eq. eapply lookup_lt_Some, (rs_proc _ _ _ _ _ R).
  - unfold kupd; ksimpl. rewrite Es2. ksimpl. psimpl. rewrite <- (insert_insert_eq own (rn_node x) RFree RLoose).
    eapply qinv_frame; [exact Q1|apply lookup_insert_eq|done..].
  - apply (rs_kmem _ _ _ _ _ R).
  - apply (rs_plock _ _ _ _ _ R).
  - intros pa Hpa. rewrite Es2. ksimpl. rewrite lookup_insert_ne by congruence.
    apply unlink_agree. intros Hin. apply Hpa, (qi_role _ _ _ _ _ _ Q). set_solver.
Qed.
End resident.
