(* ===== verification/EvictSpec.v ===== *)
(** * Page replacement implements its specification

    [evict_plan] says what evicting a page decides: the new page-table entry,
    the messages, the change to the process and the file-system calls. The code
    on memory does exactly that, and frees the page and the node. *)

From S2P Require Import Prelude Riscv Kernel Mem Inv Queue Kmem Swap Walk Pt Replace ResidentSpec.

Section plan.
Context {F : Type} `{FsOps F}.

(** What [do_page_replacement] decides for the page at [va] with entry [w] and
    contents [data]: the entry it leaves, the messages it prints and the
    process record it leaves, computed by file-system calls only. *)
Definition evict_plan (pr : proc) (va seq w : Z) (data : list Z)
    : M F (Z * list event * proc) :=
  let pid := p_pid pr in
  if negb (has w PTE_D) && (va <? p_exe_end pr) then
    ret (0, [EvEvict pid va false; EvDiscard pid va], pr)
  else
    let '(slot, slots) := slots_alloc (p_swap_slots pr) in
    let pr := set_p_swap_slots slots pr in
    if slot =? -1 then
      ret (0, [EvEvict pid va true; EvSwapfull pid; EvKillSwap pid], set_p_killed 1 pr)
    else
      let evs := [EvEvict pid va true; EvSwapout pid va slot] in
      let* sip := if p_swap_inode pr =? 0 then swap_open (swapname pid) else ret (p_swap_inode pr) in
      let pr := set_p_swap_inode sip pr in
      let freed := set_p_swap_slots (slots_free slots slot) pr in
      if negb (sip =? 0) then
        let* n := swap_write sip slot data in
        if negb (n =? PGSIZE) then ret (0, evs ++ [EvDiscard pid va], freed)
        else
          ret (Z.lor (Z.lor (SLOT_PTE slot)
                 (Z.land w (Z.lor (Z.lor (Z.lor PTE_R PTE_W) PTE_X) PTE_U))) PTE_S,
               evs, pr)
      else ret (0, evs ++ [EvNoSwapFile seq], freed).

(** The memory an eviction leaves: the entry [w'] in leaf table [p0], the page
    [pa] and then the node pushed on the free list [fl]. *)
Definition evict_mem (m : gmap Z (list Z)) (fl p0 va w' pa node : Z) : gmap Z (list Z) :=
  <[node := free_page pa]> (<[pa := free_page fl]>
    (alter (fun pg => pg64_set pg (8 * PX 0 va) w') p0 m)).

(** A state in which memory, free list, process [i], console and file system
    have been replaced. *)
Definition kevict (s : kstate F) (fl : Z) (m : gmap Z (list Z)) (i : nat) (pr : proc)
    (evs : list event) (f : F) : kstate F :=
  set_k_fs f (set_k_console (k_console s ++ evs) (kupd s fl m i pr)).

(** Run a file-system computation, and continue from its result and state. *)
Definition fs_then {A B} (c : M F A) (k : A -> F -> outcome (kstate F) B) (f : F)
    : outcome (kstate F) B :=
  match c f with
  | Done a f' => k a f'
  | Panic msg => Panic msg
  | Blocked | Switch _ => Blocked
  | NoFuel => NoFuel
  end.
End plan.

Lemma fs_then_bind {F A B C} (c : M F A) (k : A -> M F B)
    (K : B -> F -> outcome (kstate F) C) f :
  fs_then (bind c k) K f = fs_then c (fun a => fs_then (k a) K) f.
Proof. unfold fs_then, bind. by destruct (c f). Qed.

Lemma fs_then_ext {F A B} (c : M F A) (K K' : A -> F -> outcome (kstate F) B) f :
  (forall a f', K a f' = K' a f') -> fs_then c K f = fs_then c K' f.
Proof. unfold fs_then. intros E. by destruct (c f). Qed.

(** ** Stepping a state in normal form *)
Section nf.
Context {F : Type} (s : kstate F) (i : nat).
Hypothesis Hi : (i < length (k_procs s))%nat.
Implicit Types (fl : Z) (m : gmap Z (list Z)) (pr : proc) (evs : list event) (f : F).

Lemma kevict_self pr :
  k_procs s !! i = Some pr -> kevict s (k_freelist s) (k_mem s) i pr [] (k_fs s) = s.
Proof.
  intros Hp. unfold kevict, kupd. destruct s; ksimpl; cbn in Hp. by rewrite list_insert_id, app_nil_r.
Qed.

Lemma kevict_proc fl m pr evs f : k_procs (kevict s fl m i pr evs f) !! i = Some pr.
Proof. unfold kevict, kupd; ksimpl. by apply list_lookup_insert_eq. Qed.

Lemma getp_nf fl m pr evs f :
  getp i (kevict s fl m i pr evs f) = Done pr (kevict s fl m i pr evs f).
Proof. apply getp_eq, kevict_proc. Qed.

Lemma modp_nf fl m pr evs f g :
  modp i g (kevict s fl m i pr evs f) = Done tt (kevict s fl m i (g pr) evs f).
Proof.
  erewrite modp_eq by apply kevict_proc. unfold kevict, kupd; ksimpl.
  by rewrite list_insert_insert_eq.
Qed.

Lemma printf_nf fl m pr evs f e :
  printf e (kevict s fl m i pr evs f) = Done tt (kevict s fl m i pr (evs ++ [e]) f).
Proof. unfold printf, modify, kevict, kupd; ksimpl. by rewrite app_assoc. Qed.

Lemma fs_nf {A B} (c : M F A) (k : A -> K F B) fl m pr evs f :
  bind (fs c) k (kevict s fl m i pr evs f) =
  fs_then c (fun a f' => k a (kevict s fl m i pr evs f')) f.
Proof. unfold bind, fs, fs_then, kevict, kupd; ksimpl. by destruct (c f). Qed.

Lemma kfree_nf fl m pr evs f own pa :
  kinv own (k_end s) m fl -> own !! pa = Some RLoose -> LKmem ∉ k_locks s ->
  kfree pa (kevict s fl m i pr evs f) =
    Done tt (kevict s pa (<[pa := free_page fl]> m) i pr evs f) /\
  kinv (<[pa := RFree]> own) (k_end s) (<[pa := free_page fl]> m) pa.
Proof.
  intros KI Hown Hlk.
  destruct (kfree_spec (kevict s fl m i pr evs f) own pa) as (s' & E & -> & KI'); [done..|].
  split; [|done]. rewrite E. done.
Qed.

Lemma store64_nf fl m pr evs f pa pg o v :
  is_page m pa pg -> 0 <= o <= PGSIZE - 8 ->
  store64 (pa + o) v (kevict s fl m i pr evs f) =
  Done tt (kevict s fl (<[pa := pg64_set pg o v]> m) i pr evs f).
Proof. intros Hp Ho. by rewrite (store64_page _ pa pg). Qed.

Lemma open_swap_nf `{FsOps F} {B} (k : unit -> K F B) fl m pr evs f :
  bind (open_swap_file i) k (kevict s fl m i pr evs f) =
  fs_then (if p_swap_inode pr =? 0 then swap_open (swapname (p_pid pr))
           else ret (p_swap_inode pr))
    (fun sip f' => k tt (kevict s fl m i (set_p_swap_inode sip pr) evs f')) f.
Proof.
  unfold open_swap_file. rewrite bind_assoc. erewrite bind_done by apply getp_nf.
  destruct (p_swap_inode pr =? 0).
  - rewrite bind_assoc, fs_nf. unfold fs_then. destruct (swap_open _ f); [|done..].
    by erewrite bind_done by apply modp_nf.
  - cbn. by destruct pr.
Qed.
End nf.

(** ** Eviction *)

(** The entry of a swapped-out page is not valid. *)
Lemma slot_pte_invalid slot w :
  0 <= slot < 1024 ->
  has (u64 (Z.lor (Z.lor (SLOT_PTE slot)
    (Z.land w (Z.lor (Z.lor (Z.lor PTE_R PTE_W) PTE_X) PTE_U))) PTE_S)) PTE_V = false.
Proof.
  intros Hs. rewrite has_V. unfold u64, wrap. rewrite Z.mod_pow2_bits_low by lia.
  rewrite <- Z.lor_assoc, testbit_slot by lia. by rewrite Z.lor_spec, Z.land_spec, andb_false_r.
Qed.

Section evict.
Context {F : Type} `{FsOps F}.
Context (s : kstate F) (own : gmap Z role) (i : nat) (pr : proc) (va p0 node : Z).
Hypothesis KI : kinv own (k_end s) (k_mem s) (k_freelist s).
Hypothesis Hproc : k_procs s !! i = Some pr.
Hypothesis HR : own !! p_pagetable pr = Some (RTable (p_pagetable pr) []).
Hypothesis Hva : 0 <= va < TRAPFRAME.
Hypothesis Hl : pt_leaf (k_mem s) (p_pagetable pr) va = Some p0.
Hypothesis Hv : has (pteval (k_mem s) (p_pagetable pr) va) PTE_V = true.
Hypothesis Hn : own !! node = Some (RNode i).
Hypothesis Hlk : LKmem ∉ k_locks s.
Hypothesis Hslots : length (p_swap_slots pr) = 128%nat.
Let w := pteval (k_mem s) (p_pagetable pr) va.
Let pa := PTE2PA w.
Let own' := <[node := RFree]> (<[pa := RFree]> own).

Local Lemma evict_user : own !! pa = Some (RUser (p_pagetable pr) (va / 4096 * 4096)).
Proof. by apply (pteval_user _ _ _ _ _ KI HR). Qed.

Local Lemma evict_ne : node <> pa /\ p0 <> pa /\ p0 <> node.
Proof.
  pose proof evict_user. pose proof (pt_leaf_role _ _ _ _ _ KI HR _ _ Hl).
  split_and!; congruence.
Qed.

(** The last steps of every branch: store the entry, free the page, free the
    node. *)
Lemma evict_finish pr' evs f w' :
  has (u64 w') PTE_V = false ->
  (store64 (p0 + 8 * PX 0 va) w' ;; kfree pa ;; kfree node ;; ret 1)
    (kevict s (k_freelist s) (k_mem s) i pr' evs f) =
    Done 1 (kevict s node (evict_mem (k_mem s) (k_freelist s) p0 va w' pa node) i pr' evs f) /\
  kinv own' (k_end s) (evict_mem (k_mem s) (k_freelist s) p0 va w' pa node) node.
Proof.
  intros Hw. pose proof evict_user as Hu. pose proof evict_ne as (? & ? & ?).
  pose proof (PX_range 0 va ltac:(lia)).
  destruct (ki_is_page _ _ _ _ KI _ _ (pt_leaf_role _ _ _ _ _ KI HR _ _ Hl)) as (pg & Hpg).
  assert (KI1 : kinv (<[pa := RLoose]> own) (k_end s)
     (<[p0 := pg64_set pg (8 * PX 0 va) w']> (k_mem s)) (k_freelist s)).
  { eapply kinv_unmap; try done; [klia|apply Hpg|kdlia]. }
  erewrite bind_done by (apply store64_nf; [done|klia]).
  edestruct (kfree_nf s i) as [E2 KI2]; [exact KI1|apply lookup_insert_eq|done|].
  erewrite bind_done by exact E2. rewrite insert_insert_eq in KI2.
  assert (KI3 := kinv_role _ _ _ _ KI2 node (RNode i) RLoose
    ltac:(by rewrite lookup_insert_ne) ltac:(done) ltac:(done) ltac:(done) ltac:(done) ltac:(done)).
  edestruct (kfree_nf s i) as [E3 KI4]; [exact KI3|apply lookup_insert_eq|done|].
  erewrite bind_done by exact E3. rewrite insert_insert_eq in KI4.
  assert (Em : evict_mem (k_mem s) (k_freelist s) p0 va w' pa node =
    <[node := free_page pa]> (<[pa := free_page (k_freelist s)]>
      (<[p0 := pg64_set pg (8 * PX 0 va) w']> (k_mem s)))).
  { unfold evict_mem. do 2 f_equal. by erewrite alter_lookup by apply Hpg. }
  rewrite Em. done.
Qed.

(** The address space after the eviction. *)
Lemma evict_pteval w' va' :
  has (u64 w') PTE_V = false -> 0 <= va' < MAXVA ->
  pteval (evict_mem (k_mem s) (k_freelist s) p0 va w' pa node) (p_pagetable pr) va' =
  if decide (va' / 4096 = va / 4096) then u64 w' else pteval (k_mem s) (p_pagetable pr) va'.
Proof.
  intros Hw Hva'. pose proof evict_user as Hu.
  destruct (ki_is_page _ _ _ _ KI _ _ (pt_leaf_role _ _ _ _ _ KI HR _ _ Hl)) as (pg & Hpg & _).
  rewrite <- (pteval_set_leaf _ _ _ _ _ KI HR va p0 pg w') by (done || klia).
  assert (KI1 : kinv own (k_end s) (<[p0 := pg64_set pg (8 * PX 0 va) w']> (k_mem s)) (k_freelist s)).
  { eapply kinv_set_leaf; try done; [klia|congruence]. }
  apply (pteval_agree _ _ _ _ _ KI1 HR). intros pa' path Hpa'. unfold evict_mem.
  erewrite alter_lookup by done. rewrite !lookup_insert_ne by congruence. done.
Qed.

Lemma evict_frame w' pa' :
  pa' <> p0 -> pa' <> pa -> pa' <> node ->
  evict_mem (k_mem s) (k_freelist s) p0 va w' pa node !! pa' = k_mem s !! pa'.
Proof.
  intros H1 H2 H3. unfold evict_mem. by rewrite !lookup_insert_ne, lookup_alter_ne.
Qed.

(** [do_page_replacement] from step 4 on does what the plan says. *)
Lemma evict_eq seq data :
  k_mem s !! pa = Some data ->
  evict i node va seq s =
  fs_then (evict_plan pr va seq w data) (fun x f' =>
    Done 1 (kevict s node (evict_mem (k_mem s) (k_freelist s) p0 va (x.1.1) pa node)
              i x.2 x.1.2 f')) (k_fs s).
Proof.
  intros Hdata. pose proof (lookup_lt_Some _ _ _ Hproc) as Hi.
  assert (Hdp : is_page (k_mem s) pa data).
  { destruct (ki_mem _ _ _ _ KI _ _ Hdata) as (? & ? & ?). done. }
  unfold evict. kstep by (by apply getp_eq).
  kstep by (eapply walk0_eq; [exact KI|exact HR|done|klia]). rewrite Hl.
  rewrite (proj2 (Z.eqb_neq _ _)) by (by eapply (slot_nonzero _ _ _ _ _ KI HR)).
  destruct (pteval_leaf _ _ _ _ _ KI HR _ _ Hl) as (pg & Hpg & Ew).
  kstep by (eapply load_entry; [exact KI|done|exact Hpg|by apply PX_range]).
  rewrite <- Ew, Hv. cbn [negb]. fold w. fold pa.
  rewrite <- (kevict_self s i Hi pr Hproc) at 1. unfold evict_plan.
  destruct (negb (has w PTE_D) && (va <? p_exe_end pr)).
  { do 2 kstep by (by apply printf_nf). cbn [app].
    rewrite ?bind_assoc. by rewrite (proj1 (evict_finish pr _ (k_fs s) 0 eq_refl)). }
  unfold swap_slot_alloc. kstep by (by apply getp_nf).
  pose proof (slots_alloc_cases (p_swap_slots pr)) as Hc.
  destruct (slots_alloc (p_swap_slots pr)) as [slot slots]. destruct Hc as [_ Hc].
  kstep by (by apply modp_nf). rewrite bind_ret.
  destruct (Z.eqb_spec slot (-1)) as [->|Hslot].
  { do 3 kstep by (by apply printf_nf). cbn [app].
    kstep by (by apply modp_nf). rewrite ?bind_assoc.
    by rewrite (proj1 (evict_finish _ _ (k_fs s) 0 eq_refl)). }
  do 2 kstep by (by apply printf_nf). cbn [app].
  rewrite ?bind_assoc, open_swap_nf by done. rewrite fs_then_bind. psimpl.
  apply fs_then_ext. intros sip f'.
  kstep by (by apply getp_nf). psimpl.
  destruct (sip =? 0); cbn [negb].
  - kstep by (by apply printf_nf).
    kstep by (by apply modp_nf). rewrite ?bind_assoc. psimpl.
    by rewrite (proj1 (evict_finish _ _ f' 0 eq_refl)).
  - kstep by (by apply load_page_eq).
    rewrite ?bind_assoc, fs_nf, fs_then_bind. apply fs_then_ext. intros n f''.
    destruct (n =? PGSIZE); cbn [negb].
    + rewrite ?bind_assoc, (proj1 (evict_finish _ _ f'' _ (slot_pte_invalid slot w ltac:(lia)))). done.
    + kstep by (by apply printf_nf).
      kstep by (by apply modp_nf). rewrite ?bind_assoc. psimpl.
      by rewrite (proj1 (evict_finish _ _ f'' 0 eq_refl)).
Qed.
End evict.

(** ** The invariant of a process that allocates memory *)

(** A page in the resident set: a mapped page below the trapframe. *)
Definition res_ok (m : gmap Z (list Z)) (root : Z) (x : rnode) : Prop :=
  rn_va x mod PGSIZE = 0 /\ 0 <= rn_va x < TRAPFRAME /\
  has (pteval m root (rn_va x)) PTE_V = true.

Section pinv.
Context {F : Type} `{FsOps F}.
Implicit Types s : kstate F.

Record pinv (own : gmap Z role) s (i : nat) (pr : proc) (q : list rnode) : Prop := {
  pi_rs : rstate own s i pr q;
  pi_root : own !! p_pagetable pr = Some (RTable (p_pagetable pr) []);
  pi_pages : Forall (res_ok (k_mem s) (p_pagetable pr)) q;
  pi_vas : NoDup (rn_va <$> q);
  pi_slots : length (p_swap_slots pr) = 128%nat
}.

(** What allocation may change in the process record. *)
Definition pext (pr pr' : proc) : Prop :=
  exists k h t si sl,
    pr' = set_p_killed k (set_ends h t (set_p_swap_inode si (set_p_swap_slots sl pr))).

(** What it may change in memory: evict pages of [root], and nothing else that
    is in use. *)
Record kext (root : Z) (i : nat) (own own' : gmap Z role) (m m' : gmap Z (list Z)) : Prop := {
  kx_role : forall pa r, own !! pa = Some r -> r <> RFree -> r <> RNode i ->
    (forall va, r <> RUser root va) -> own' !! pa = Some r;
  kx_mem : forall pa r, own !! pa = Some r -> r <> RFree -> r <> RNode i ->
    (forall va, r <> RUser root va) ->
    (forall path, r = RTable root path -> (length path < 2)%nat) -> m' !! pa = m !! pa;
  kx_pte : forall va, 0 <= va < MAXVA -> pteval m' root va = pteval m root va \/
    (has (pteval m root va) PTE_V = true /\ has (pteval m' root va) PTE_V = false);
  kx_user : forall pa va, own !! pa = Some (RUser root va) -> 0 <= va < MAXVA ->
    has (pteval m' root va) PTE_V = true ->
    own' !! pa = Some (RUser root va) /\ m' !! pa = m !! pa
}.
End pinv.

Lemma pext_refl pr : pext pr pr.
Proof.
  exists (p_killed pr), (p_resident_set_head pr), (p_resident_set_tail pr), (p_swap_inode pr),
    (p_swap_slots pr). by destruct pr.
Qed.

Lemma pext_trans pr1 pr2 pr3 : pext pr1 pr2 -> pext pr2 pr3 -> pext pr1 pr3.
Proof.
  intros (k & h & t & si & sl & ->) (k' & h' & t' & si' & sl' & ->).
  by exists k', h', t', si', sl'.
Qed.

Lemma pext_pagetable pr pr' : pext pr pr' -> p_pagetable pr' = p_pagetable pr.
Proof. by intros (k & h & t & si & sl & ->). Qed.

Lemma kext_refl root i own m : kext root i own own m m.
Proof. split; auto. Qed.

Lemma kext_trans root i own1 own2 own3 m1 m2 m3 :
  kext root i own1 own2 m1 m2 -> kext root i own2 own3 m2 m3 -> kext root i own1 own3 m1 m3.
Proof.
  intros [R1 M1 P1 U1] [R2 M2 P2 U2]. split.
  - eauto.
  - intros. erewrite M2; eauto.
  - intros va Hva. destruct (P2 va Hva) as [->|[Hv Hv']]; [by apply P1|].
    right. split; [|done]. by destruct (P1 va Hva) as [<-|[_ E]]; [|congruence].
  - intros pa va Hr Hva Hv.
    assert (Hv2 : has (pteval m2 root va) PTE_V = true)
      by (destruct (P2 va Hva) as [<-|[? ?]]; [done|congruence]).
    destruct (U1 _ _ Hr Hva Hv2) as [Hr2 Hm2]. destruct (U2 _ _ Hr2 Hva Hv) as [? Hm3].
    split; [done|]. by rewrite Hm3.
Qed.

(** Other address spaces do not change. *)
Lemma kext_other root i own own' e m m' h root' va :
  kinv own e m h -> kext root i own own' m m' -> root' <> root ->
  own !! root' = Some (RTable root' []) -> pteval m' root' va = pteval m root' va.
Proof.
  intros KI X Hne Hr. eapply pteval_agree; [done..|]. intros pa path Hpa.
  apply (kx_mem _ _ _ _ _ _ X _ _ Hpa); naive_solver.
Qed.

Lemma qinv_agree own own' m m' i h t q :
  qinv own m i h t q ->
  (forall n, own !! n = Some (RNode i) <-> own' !! n = Some (RNode i)) ->
  (forall n, own !! n = Some (RNode i) -> m' !! n = m !! n) -> qinv own' m' i h t q.
Proof.
  intros [Hs Ht Hnd Hr] Hown Hm. split; try done.
  - eapply rq_seg_agree; [|done]. intros x Hx. by apply Hm, Hr.
  - intros n. by rewrite Hr.
Qed.

Section plan_spec.
Context {F : Type} `{FsOps F}.

(** Every plan clears the valid bit and leaves the queue of the process alone. *)
Lemma evict_plan_spec pr va seq w data f w' evs pr' f' :
  length (p_swap_slots pr) = 128%nat ->
  evict_plan pr va seq w data f = Done (w', evs, pr') f' ->
  has (u64 w') PTE_V = false /\ length (p_swap_slots pr') = 128%nat /\
  exists k si sl, pr' = set_p_killed k (set_p_swap_inode si (set_p_swap_slots sl pr)).
Proof.
  intros Hl. unfold evict_plan.
  destruct (negb _ && _).
  { intros [= <- <- <- <-]. split; [done|]. split; [done|].
    exists (p_killed pr), (p_swap_inode pr), (p_swap_slots pr). by destruct pr. }
  pose proof (slots_alloc_cases (p_swap_slots pr)) as Hc.
  destruct (slots_alloc (p_swap_slots pr)) as [slot slots]. destruct Hc as [Hlen Hc].
  destruct (Z.eqb_spec slot (-1)) as [->|Hslot].
  { intros [= <- <- <- <-]. split; [done|]. psimpl. split; [congruence|].
    exists 1, (p_swap_inode pr), slots. by destruct pr. }
  assert (Hfr : length (slots_free slots slot) = 128%nat).
  { unfold slots_free. destruct (_ && _); [|congruence]. unfold slot_clear.
    rewrite length_alter. congruence. }
  unfold bind at 1. lazymatch goal with
  |- match ?o with Done _ _ => _ | _ => _ end = _ -> _ => destruct o as [sip f1| | | |]; try done
  end.
  destruct (sip =? 0); cbn [negb].
  { intros [= <- <- <- <-]. psimpl. split; [done|]. split; [done|].
    exists (p_killed pr), sip, (slots_free slots slot). by destruct pr. }
  unfold bind at 1. destruct (swap_write _ _ _ f1) as [n f2| | | |]; try done.
  destruct (n =? PGSIZE); cbn [negb]; intros [= <- <- <- <-]; psimpl.
  - split; [apply slot_pte_invalid; lia|]. split; [congruence|].
    exists (p_killed pr), sip, slots. by destruct pr.
  - split; [done|]. split; [done|].
    exists (p_killed pr), sip, (slots_free slots slot). by destruct pr.
Qed.
End plan_spec.

(** ** How the swapped pages of a process evolve

    The steps that change what a page table says of its pages, which slots are
    in use, or the file system: evictions, mapping a page that is not swapped
    out, and file-system calls that only lock and read. *)
Section evol.
Context {F : Type} `{FsOps F} (root : Z).
Implicit Types (m : gmap Z (list Z)) (pr : proc) (f : F).

Definition swapped (w : Z) : bool := has w PTE_S && negb (has w PTE_V).

Definition fs_quiet f f' : Prop :=
  (exists ip, fs_ilock ip f = Done tt f' \/ fs_iunlock ip f = Done tt f') \/
  exists ip off n bs, fs_readi ip off n f = Done bs f'.

(** Entry [w] at the page of [va], the others as before. *)
Definition pte_set m m' (va w : Z) : Prop :=
  forall va', 0 <= va' < MAXVA ->
    pteval m' root va' = if decide (va' / 4096 = va / 4096) then w else pteval m root va'.

Inductive evol : gmap Z (list Z) -> proc -> F -> gmap Z (list Z) -> proc -> F -> Prop :=
| evol_same m pr f m' pr' :
    (forall va, 0 <= va < MAXVA -> pteval m' root va = pteval m root va) ->
    p_swap_slots pr' = p_swap_slots pr -> p_swap_inode pr' = p_swap_inode pr ->
    evol m pr f m' pr' f
| evol_evict m pr f m' pr' f' va seq data w' evs :
    va mod PGSIZE = 0 -> 0 <= va < TRAPFRAME -> has (pteval m root va) PTE_V = true ->
    m !! PTE2PA (pteval m root va) = Some data -> length data = Z.to_nat PGSIZE ->
    evict_plan pr va seq (pteval m root va) data f = Done (w', evs, pr') f' ->
    pte_set m m' va (u64 w') ->
    evol m pr f m' pr' f'
| evol_fs m pr f f' : fs_quiet f f' -> evol m pr f m pr f'
| evol_map m pr f m' va w :
    0 <= va < MAXVA -> swapped (pteval m root va) = false -> has w PTE_V = true ->
    pte_set m m' va w -> evol m pr f m' pr f
| evol_trans m1 pr1 f1 m2 pr2 f2 m3 pr3 f3 :
    evol m1 pr1 f1 m2 pr2 f2 -> evol m2 pr2 f2 m3 pr3 f3 -> evol m1 pr1 f1 m3 pr3 f3.

Lemma evol_refl m pr f : evol m pr f m pr f.
Proof. by apply evol_same. Qed.
End evol.
