(* ===== verification/AllocSpec.v ===== *)
(** * Page allocation

    [do_page_replacement] pops the oldest page of the resident set and carries
    out its eviction plan; [kalloc] takes a page from the free list, or the page
    an eviction frees. *)

From S2P Require Import Prelude Riscv Kernel Mem Inv Queue Kmem Swap Walk Pt Replace ResidentSpec EvictSpec.

(** The process after its oldest node, whose successor is [next], left. *)
Definition pop (next : Z) (pr : proc) : proc :=
  set_ends next (if next =? 0 then 0 else p_resident_set_tail pr) pr.

Lemma kevict_kevict {F} (s : kstate F) i fl m pr evs f fl' m' pr' evs' f' :
  kevict (kevict s fl m i pr evs f) fl' m' i pr' evs' f' =
  kevict s fl' m' i pr' (evs ++ evs') f'.
Proof. unfold kevict, kupd; ksimpl. by rewrite list_insert_insert_eq, app_assoc. Qed.

Section replacement.
Context {F : Type} `{FsOps F}.
Context (own : gmap Z role) (s : kstate F) (i : nat) (pr : proc) (x : rnode) (q : list rnode).
Hypothesis P : pinv own s i pr (x :: q).
Let root := p_pagetable pr.
Let m := k_mem s.
Let w := pteval m root (rn_va x).
Let pa := PTE2PA w.

Local Lemma KI : kinv own (k_end s) m (k_freelist s).
Proof. apply (rs_inv _ _ _ _ _ (pi_rs _ _ _ _ _ P)). Qed.
Local Lemma HR : own !! root = Some (RTable root []).
Proof. apply (pi_root _ _ _ _ _ P). Qed.

Lemma oldest_ok : res_ok m root x.
Proof. by pose proof (pi_pages _ _ _ _ _ P) as Hp; inversion Hp. Qed.

Lemma oldest_node :
  p_resident_set_head pr = rn_node x /\ own !! rn_node x = Some (RNode i) /\
  exists pgx, is_page m (rn_node x) pgx /\ pg64 pgx rp_va = rn_va x /\ pg32 pgx rp_seq = rn_seq x /\
    rq_seg m (pg64 pgx rp_next) q 0.
Proof.
  destruct (rs_node _ _ _ _ _ (rn_node x) (pi_rs _ _ _ _ _ P)) as [Hr (pg & Hpg & Hl & Ha)];
    [set_solver|].
  pose proof (qi_seg _ _ _ _ _ _ (rs_q _ _ _ _ _ (pi_rs _ _ _ _ _ P))) as Hs. simpl in Hs.
  destruct Hs as (-> & pg' & Hpg' & Hva & Hseq & Hs). fold m in Hpg, Hpg', Hs. simplify_eq.
  split; [done|]. split; [done|]. by exists pg.
Qed.

Lemma oldest_leaf : exists p0, pt_leaf m root (rn_va x) = Some p0.
Proof.
  destruct oldest_ok as (_ & _ & Hv). destruct (pt_leaf m root (rn_va x)) as [p0|] eqn:E; [by eexists|].
  rewrite (pteval_None _ _ _ E) in Hv. done.
Qed.

Lemma oldest_page : own !! pa = Some (RUser root (rn_va x)) /\ exists data, is_page m pa data.
Proof.
  destruct oldest_ok as (Ha & Hr & Hv).
  assert (Hu : own !! pa = Some (RUser root (rn_va x / 4096 * 4096)))
    by (by apply (pteval_user _ _ _ _ _ KI HR)).
  replace (rn_va x / 4096 * 4096) with (rn_va x) in Hu by kdlia. split; [done|].
  by apply (ki_is_page _ _ _ _ KI _ _ Hu).
Qed.

(** [do_page_replacement] on a non-empty resident set. *)
Lemma replacement_eq pgx p0 data :
  m !! rn_node x = Some pgx -> pt_leaf m root (rn_va x) = Some p0 -> m !! pa = Some data ->
  do_page_replacement i s =
  fs_then (evict_plan (pop (pg64 pgx rp_next) pr) (rn_va x) (rn_seq x) w data) (fun y f' =>
    Done 1 (kevict s (rn_node x) (evict_mem m (k_freelist s) p0 (rn_va x) (y.1.1) pa (rn_node x))
      i y.2 (EvVictim (p_pid pr) (rn_va x) (rn_seq x) :: y.1.2) f')) (k_fs s).
Proof.
  intros Hpgx Hl Hd. destruct oldest_node as (Eh & Hn & pg & Hpg & Hva & Hseq & Hs).
  rewrite (proj1 Hpg) in Hpgx. injection Hpgx as ->. pose proof (pi_rs _ _ _ _ _ P) as R.
  pose proof (rs_proc _ _ _ _ _ R) as Hp. pose proof (lookup_lt_Some _ _ _ Hp) as Hi.
  unfold do_page_replacement. kstep by (apply acquire_eq, (rs_plock _ _ _ _ _ R)).
  kstep by (apply getp_eq; ksimpl; done). rewrite Eh.
  rewrite (proj2 (Z.eqb_neq _ _)) by (by eapply (ki_nonzero _ _ _ _ KI)).
  kstep by (eapply load64_page; [ksimpl; done|unfold rp_next; klia]).
  kstep by (eapply modp_eq; ksimpl; done).
  transitivity ((let* va := load64 (rn_node x + rp_va) in
    let* seq := load32 (rn_node x + rp_seq) in
    printf (EvVictim (p_pid pr) va seq) ;; evict i (rn_node x) va seq)
    (kevict s (k_freelist s) m i (pop (pg64 pgx rp_next) pr) [] (k_fs s))).
  { unfold pop. destruct (pg64 pgx rp_next =? 0).
    - kstep by (eapply modp_eq; ksimpl; by apply list_lookup_insert_eq).
      kstep by (eapply release_eq; [ksimpl; done|apply (rs_plock _ _ _ _ _ R)]). ksimpl.
      rewrite list_insert_insert_eq. unfold kevict, kupd. rewrite app_nil_r. by destruct s.
    - rewrite bind_ret. kstep by (eapply release_eq; [ksimpl; done|apply (rs_plock _ _ _ _ _ R)]).
      unfold kevict, kupd. rewrite app_nil_r. by destruct s. }
  kstep by (eapply load64_page; [exact Hpg|unfold rp_va; klia]).
  kstep by (eapply load32_page; [exact Hpg|unfold rp_seq; klia]). rewrite Hva, Hseq.
  kstep by (by apply printf_nf). cbn [app].
  destruct oldest_ok as (Ha & Hr & Hv).
  rewrite (evict_eq _ own i (pop (pg64 pgx rp_next) pr) _ p0 _) with (data := data); try done.
  - apply fs_then_ext. intros y f'. by rewrite kevict_kevict.
  - exact KI.
  - by apply kevict_proc.
  - exact HR.
  - apply (rs_kmem _ _ _ _ _ R).
  - apply (pi_slots _ _ _ _ _ P).
Qed.

(** What an eviction preserves. *)
Section after.
Context (p0 w' : Z) (pgx : list Z).
Hypothesis Hpgx : m !! rn_node x = Some pgx.
Hypothesis Hl : pt_leaf m root (rn_va x) = Some p0.
Hypothesis Hw : has (u64 w') PTE_V = false.
Let m' := evict_mem m (k_freelist s) p0 (rn_va x) w' pa (rn_node x).
Let own' := <[rn_node x := RFree]> (<[pa := RFree]> own).

Lemma after_kinv : kinv own' (k_end s) m' (rn_node x).
Proof.
  destruct oldest_node as (_ & Hn & _). destruct oldest_ok as (_ & Hr & Hv).
  pose proof (pi_rs _ _ _ _ _ P) as R.
  apply (evict_finish s own i pr (rn_va x) p0 (rn_node x)) with (evs := []) (pr' := pr) (f := k_fs s);
    try done; first [exact KI|exact HR|apply (rs_kmem _ _ _ _ _ R)|apply (pi_slots _ _ _ _ _ P)].
Qed.

Lemma after_pteval va : 0 <= va < MAXVA ->
  pteval m' root va = if decide (va / 4096 = rn_va x / 4096) then u64 w' else pteval m root va.
Proof.
  destruct oldest_node as (_ & Hn & _). destruct oldest_ok as (_ & Hr & Hv).
  apply (evict_pteval s own i pr); try done; first [exact KI|exact HR|apply P|apply (pi_slots _ _ _ _ _ P)|apply (pi_rs _ _ _ _ _ P)].
Qed.

Lemma after_role pa' r : own !! pa' = Some r -> r <> RNode i -> r <> RUser root (rn_va x) ->
  own' !! pa' = Some r.
Proof.
  intros Hpa Hr1 Hr2. destruct oldest_node as (_ & Hn & _). destruct oldest_page as [Hu _].
  unfold own'. rewrite !lookup_insert_ne by congruence. done.
Qed.

Lemma after_mem pa' r : own !! pa' = Some r -> r <> RNode i -> r <> RUser root (rn_va x) ->
  (forall path, r = RTable root path -> (length path < 2)%nat) -> m' !! pa' = m !! pa'.
Proof.
  intros Hpa Hr1 Hr2 Hr3. destruct oldest_node as (_ & Hn & _). destruct oldest_page as [Hu _].
  unfold m', evict_mem. rewrite !lookup_insert_ne by congruence. apply lookup_alter_ne.
  intros <-. rewrite (pt_leaf_role _ _ _ _ _ KI HR _ _ Hl) in Hpa. injection Hpa as <-.
  specialize (Hr3 _ eq_refl). simpl in Hr3. lia.
Qed.

Lemma after_kext : kext root i own own' m m'.
Proof.
  destruct oldest_ok as (Ha & Hr & Hv). split.
  - intros pa' r ? ? ? Hu. apply after_role; eauto.
  - intros pa' r ? ? ? Hu Ht. eapply after_mem; eauto.
  - intros va Hva. rewrite after_pteval by done. case_decide as E; [right|by left].
    split; [|done]. rewrite (pteval_same_page _ _ _ (rn_va x)) by (done || klia). done.
  - intros pa' va Hpa Hva Hv'. rewrite after_pteval in Hv' by done.
    case_decide as E; [congruence|]. assert (va <> rn_va x) by (intros ->; done).
    split; [eapply after_role; [done..|]; congruence|].
    eapply after_mem; [done..| |done]. congruence.
Qed.

Lemma after_qinv :
  qinv own' m' i (pg64 pgx rp_next) (p_resident_set_tail (pop (pg64 pgx rp_next) pr)) q.
Proof.
  destruct oldest_node as (Eh & Hn & pg & Hpg & _ & _ & Hs).
  rewrite (proj1 Hpg) in Hpgx. injection Hpgx as ->. destruct oldest_page as [Hu _].
  pose proof (rs_q _ _ _ _ _ (pi_rs _ _ _ _ _ P)) as Q.
  pose proof (unlink_qinv own (k_end s) m (k_freelist s) i _ _ [] q x pgx KI Q (proj1 Hpg)) as Q1.
  cbn [app] in Q1.
  assert (Et : p_resident_set_tail (pop (pg64 pgx rp_next) pr) =
    if p_resident_set_tail pr =? rn_node x then qtail [] else p_resident_set_tail pr).
  { transitivity (qtail q); [|symmetry; apply (qi_tail _ _ _ _ _ _ Q1)].
    unfold pop, set_ends; psimpl.
    assert (Hnz : forall y, y ∈ (rn_node <$> q) -> y <> 0).
    { intros y Hy. apply (ki_nonzero _ _ _ _ KI _ (RNode i)), (qi_role _ _ _ _ _ _ Q).
      set_solver. }
    rewrite (qi_tail _ _ _ _ _ _ Q). clear -Hs Hnz. destruct q as [|y q']; simpl in Hs; [by rewrite Hs|].
    destruct Hs as [-> _]. rewrite (proj2 (Z.eqb_neq _ _)); [done|]. apply Hnz. set_solver. }
  rewrite Et. eapply qinv_agree; [exact Q1|..].
  - intros n. unfold own'. destruct (decide (n = rn_node x)) as [->|].
    + by rewrite !lookup_insert_eq.
    + rewrite !(lookup_insert_ne _ (rn_node x)) by done.
      destruct (decide (n = pa)) as [->|]; [|by rewrite lookup_insert_ne].
      rewrite lookup_insert_eq. split; congruence.
  - intros n Hn'. destruct (decide (n = rn_node x)) as [->|];
      [by rewrite lookup_insert_eq in Hn'|]. rewrite lookup_insert_ne in Hn' by done.
    unfold m', evict_mem. rewrite !lookup_insert_ne by congruence. apply lookup_alter_ne.
    intros <-. rewrite (pt_leaf_role _ _ _ _ _ KI HR _ _ Hl) in Hn'. done.
Qed.

Lemma after_pinv pr' evs f' k si sl :
  pr' = set_p_killed k (set_p_swap_inode si (set_p_swap_slots sl (pop (pg64 pgx rp_next) pr))) ->
  length (p_swap_slots pr') = 128%nat ->
  pinv own' (kevict s (rn_node x) m' i pr' evs f') i pr' q.
Proof.
  intros -> Hsl. pose proof (pi_rs _ _ _ _ _ P) as R.
  pose proof (lookup_lt_Some _ _ _ (rs_proc _ _ _ _ _ R)) as Hi. split; [split|..].
  - apply after_kinv.
  - by apply kevict_proc.
  - apply after_qinv.
  - apply R.
  - apply R.
  - apply after_role; [apply HR|done..].
  - pose proof (NoDup_cons_1_1 _ _ (pi_vas _ _ _ _ _ P)) as Hx.
    destruct (Forall_cons_1 _ _ _ (pi_pages _ _ _ _ _ P)) as [_ Hq].
    apply Forall_forall. intros y Hy. rewrite Forall_forall in Hq.
    destruct (Hq y Hy) as (Ha & Hr & Hv). split; [done|]. split; [done|].
    change (has (pteval m' root (rn_va y)) PTE_V = true). rewrite after_pteval by klia.
    case_decide as E; [|done]. exfalso. apply Hx.
    destruct oldest_ok as (Hax & _ & _). replace (rn_va x) with (rn_va y) by kdlia.
    by apply list_elem_of_fmap_2.
  - by apply (NoDup_cons_1_2 _ _ (pi_vas _ _ _ _ _ P)).
  - done.
Qed.
End after.
End replacement.

Lemma elem_of_suffix {A} (x : A) l l' : l' `suffix_of` l -> x ∈ l' -> x ∈ l.
Proof. intros [k ->] Hx. apply elem_of_app. by right. Qed.

(** ** [kalloc] *)
Section alloc.
Context {F : Type} `{FsOps F}.
Implicit Types s : kstate F.

(** The state after the first free page, whose successor is [next], is taken. *)
Definition kpop (next : Z) s : kstate F :=
  set_k_freelist next (set_k_mem (<[k_freelist s := fill 5]> (k_mem s)) s).

(** The page of [va] is not in the resident set [q]. *)
Definition unlisted (q : list rnode) (va : Z) : Prop :=
  forall x, x ∈ q -> rn_va x / 4096 <> va / 4096.

(** The result of [kalloc] on behalf of process [i]. *)
Record pstep (own : gmap Z role) s (i : nat) (pr : proc) (q : list rnode)
    (own' : gmap Z role) s' (pr' : proc) (q' : list rnode) : Prop := {
  ps_pinv : pinv own' s' i pr' q';
  ps_kext : kext (p_pagetable pr) i own own' (k_mem s) (k_mem s');
  ps_pext : pext pr pr';
  ps_state : exists fl m evs f, s' = kevict s fl m i pr' evs f;
  ps_queue : q' `suffix_of` q;
  ps_kept : forall va, 0 <= va < MAXVA -> unlisted q va ->
    pteval (k_mem s') (p_pagetable pr) va = pteval (k_mem s) (p_pagetable pr) va;
  ps_evol : evol (p_pagetable pr) (k_mem s) pr (k_fs s) (k_mem s') pr' (k_fs s')
}.

Lemma pstep_refl own s i pr q : pinv own s i pr q -> pstep own s i pr q own s pr q.
Proof.
  intros P. split; [done|apply kext_refl|apply pext_refl| |done|done|apply evol_refl].
  exists (k_freelist s), (k_mem s), [], (k_fs s). symmetry.
  pose proof (rs_proc _ _ _ _ _ (pi_rs _ _ _ _ _ P)) as Hp.
  apply kevict_self; [|done]. by eapply lookup_lt_Some.
Qed.

Lemma pstep_trans own1 s1 i pr1 q1 own2 s2 pr2 q2 own3 s3 pr3 q3 :
  pstep own1 s1 i pr1 q1 own2 s2 pr2 q2 -> pstep own2 s2 i pr2 q2 own3 s3 pr3 q3 ->
  pstep own1 s1 i pr1 q1 own3 s3 pr3 q3.
Proof.
  intros [P1 K1 E1 (fl & m & evs & f & ->) Q1 U1 V1] [P2 K2 E2 (fl' & m' & evs' & f' & ->) Q2 U2 V2].
  rewrite (pext_pagetable _ _ E1) in K2, U2, V2. split.
  - done.
  - by eapply kext_trans.
  - by eapply pext_trans.
  - exists fl', m', (evs ++ evs'), f'. apply kevict_kevict.
  - by etrans.
  - intros va Hva Hun. rewrite U2, U1; try done. intros x Hx. apply Hun.
    by eapply elem_of_suffix.
  - by eapply evol_trans.
Qed.

(** A step that only writes to the console. *)
Lemma pstep_log own s i pr q evs :
  pinv own s i pr q -> pstep own s i pr q own (set_k_console (k_console s ++ evs) s) pr q.
Proof.
  intros P. split; [|apply kext_refl|apply pext_refl| |done|done|apply evol_refl].
  - destruct P as [[] ? ? ? ?]. by split; [split|..].
  - exists (k_freelist s), (k_mem s), evs, (k_fs s).
    pose proof (rs_proc _ _ _ _ _ (pi_rs _ _ _ _ _ P)) as Hp.
    unfold kevict, kupd. rewrite list_insert_id by done. by destruct s.
Qed.

Lemma pop_pstep own s i pr q pg :
  pinv own s i pr q -> k_freelist s <> 0 -> k_mem s !! k_freelist s = Some pg ->
  pstep own s i pr q (<[k_freelist s := RLoose]> own) (kpop (pg64 pg 0) s) pr q /\
  own !! k_freelist s = Some RFree.
Proof.
  intros P Hh Hpg. pose proof (rs_inv _ _ _ _ _ (pi_rs _ _ _ _ _ P)) as KI.
  pose proof (ki_head _ _ _ _ KI Hh) as Hr. split; [|done].
  pose proof (rs_proc _ _ _ _ _ (pi_rs _ _ _ _ _ P)) as Hp.
  assert (Hpte : forall va, pteval (<[k_freelist s := fill 5]> (k_mem s)) (p_pagetable pr) va =
    pteval (k_mem s) (p_pagetable pr) va).
  { intros va. eapply pteval_insert; [exact KI|apply P|]. congruence. }
  split; [split; [split|..]|split|..].
  - by apply (kinv_alloc _ _ _ _ KI).
  - done.
  - eapply qinv_frame; [apply (rs_q _ _ _ _ _ (pi_rs _ _ _ _ _ P))|done..].
  - apply (rs_kmem _ _ _ _ _ (pi_rs _ _ _ _ _ P)).
  - apply (rs_plock _ _ _ _ _ (pi_rs _ _ _ _ _ P)).
  - pose proof (pi_root _ _ _ _ _ P). rewrite lookup_insert_ne by congruence. done.
  - eapply Forall_impl; [apply (pi_pages _ _ _ _ _ P)|]. intros y (? & ? & ?).
    split; [done|]. split; [done|]. unfold kpop; ksimpl. by rewrite Hpte.
  - apply (pi_vas _ _ _ _ _ P).
  - apply (pi_slots _ _ _ _ _ P).
  - intros pa r Hpa ? ? ?. rewrite lookup_insert_ne by congruence. done.
  - intros pa r Hpa ? ? ? ?. unfold kpop; ksimpl. rewrite lookup_insert_ne by congruence. done.
  - intros va _. left. apply Hpte.
  - intros pa va Hpa _ _. unfold kpop; ksimpl. rewrite !lookup_insert_ne by congruence. done.
  - apply pext_refl.
  - exists (pg64 pg 0), (<[k_freelist s := fill 5]> (k_mem s)), [], (k_fs s).
    unfold kpop, kevict, kupd. rewrite app_nil_r, list_insert_id by done.
    by destruct s.
  - done.
  - intros va _ _. apply Hpte.
  - apply evol_same; [|done..]. intros va _. apply Hpte.
Qed.

(** The ways the file-system calls of an eviction end without returning. *)
Definition swap_stop (x : stop) : Prop :=
  exists pr va seq w data (f : F), stop_of (evict_plan pr va seq w data f) = Some x.

Lemma kalloc_fast s pg :
  k_freelist s <> 0 -> is_page (k_mem s) (k_freelist s) pg -> LKmem ∉ k_locks s ->
  kalloc s = Done (k_freelist s) (kpop (pg64 pg 0) s).
Proof.
  intros Hh Hpg Hlk. unfold kalloc. kstep by (by apply acquire_eq). kpure. ksimpl.
  kstep by (by eapply release_eq). ksimpl. rewrite (proj2 (Z.eqb_neq _ _)) by done. cbn [negb].
  kstep by (by apply acquire_eq). replace (k_freelist s) with (k_freelist s + 0) at 1 by lia.
  kstep by (eapply load64_page; [ksimpl; exact Hpg|klia]). kpure. ksimpl.
  kstep by (by eapply release_eq). ksimpl.
  kstep by (eapply memset_page_eq; ksimpl; exact Hpg). done.
Qed.

Lemma replacement_empty own s i pr :
  pinv own s i pr [] -> do_page_replacement i s = Done 0 s.
Proof.
  intros P. pose proof (pi_rs _ _ _ _ _ P) as R. pose proof (rs_plock _ _ _ _ _ R) as Hlk.
  unfold do_page_replacement. kstep by (by apply acquire_eq).
  kstep by (apply getp_eq; ksimpl; apply (rs_proc _ _ _ _ _ R)).
  pose proof (qi_seg _ _ _ _ _ _ (rs_q _ _ _ _ _ R)) as Eh. simpl in Eh. rewrite Eh, Z.eqb_refl.
  kstep by (by eapply release_eq). by destruct s.
Qed.

Lemma replacement_pstep own s i pr x q :
  pinv own s i pr (x :: q) ->
  wpe swap_stop (do_page_replacement i) (fun r s' => r = 1 /\ exists own' pr',
    pstep own s i pr (x :: q) own' s' pr' q /\ k_freelist s' = rn_node x /\
    exists pg, is_page (k_mem s') (rn_node x) pg) s.
Proof.
  intros P. destruct (oldest_node _ _ _ _ _ _ P) as (_ & Hn & pgx & Hpgx & _).
  destruct (oldest_leaf _ _ _ _ _ _ P) as (p0 & Hl).
  destruct (oldest_page _ _ _ _ _ _ P) as (_ & data & Hd).
  unfold wpe. rewrite (replacement_eq _ _ _ _ _ _ P _ _ _ (proj1 Hpgx) Hl (proj1 Hd)).
  unfold fs_then. destruct (evict_plan _ _ _ _ _ (k_fs s)) as [[[w' evs] pr'] f'| | | |] eqn:Ep.
  2-5: unfold swap_stop; do 6 eexists; by rewrite Ep.
  destruct (evict_plan_spec (pop (pg64 pgx rp_next) pr) _ _ _ _ _ _ _ _ _ (pi_slots _ _ _ _ _ P) Ep)
    as (Hw & Hsl & k & si & sl & Epr).
  split; [done|]. simpl.
  pose proof (after_pinv _ _ _ _ _ _ P _ _ _ (proj1 Hpgx) Hl Hw _
    (EvVictim (p_pid pr) (rn_va x) (rn_seq x) :: evs) f' _ _ _ Epr Hsl) as P'.
  eexists _, pr'. split; [|split; [done|]].
  - split; [exact P'|exact (after_kext _ _ _ _ _ _ P _ _ Hl Hw)| | | | |].
    + rewrite Epr. unfold pop. by eexists k, _, _, si, sl.
    + by do 4 eexists.
    + by apply suffix_cons_r.
    + intros va Hva Hun. unfold kevict, kupd; ksimpl.
      rewrite (after_pteval _ _ _ _ _ _ P _ _ Hl Hw) by done. rewrite decide_False; [done|].
      intros E. apply (Hun x); [set_solver|done].
    + destruct (oldest_ok _ _ _ _ _ _ P) as (Hxa & Hxr & Hxv).
      eapply evol_trans; [by apply (evol_same _ _ pr _ (k_mem s) (pop (pg64 pgx rp_next) pr))|].
      eapply (evol_evict _ (k_mem s) (pop (pg64 pgx rp_next) pr) (k_fs s) _ pr' f' (rn_va x)); try done.
      * apply Hd.
      * apply Hd.
      * intros va' Hva'. exact (after_pteval _ _ _ _ _ _ P _ _ Hl Hw va' Hva').
  - eapply ki_is_page; [apply (rs_inv _ _ _ _ _ (pi_rs _ _ _ _ _ P'))|apply lookup_insert_eq].
Qed.

(** The second half of [kalloc], after an eviction. *)
Lemma kmem_take_eq s pg :
  k_freelist s <> 0 -> is_page (k_mem s) (k_freelist s) pg -> LKmem ∉ k_locks s ->
  (acquire LKmem ;; let* r := kmem_pop in release LKmem ;;
   (if negb (r =? 0) then memset_page r 5 else ret tt) ;; ret r) s =
  Done (k_freelist s) (kpop (pg64 pg 0) s).
Proof.
  intros Hh Hpg Hlk. kstep by (by apply acquire_eq). unfold kmem_pop. kpure. ksimpl.
  rewrite (proj2 (Z.eqb_neq _ _)) by done.
  replace (k_freelist s) with (k_freelist s + 0) at 1 by lia.
  kstep by (eapply load64_page; [ksimpl; exact Hpg|klia]). kpure. ksimpl.
  kstep by (by eapply release_eq). ksimpl. rewrite (proj2 (Z.eqb_neq _ _)) by done.
  kstep by (eapply memset_page_eq; ksimpl; exact Hpg). done.
Qed.

Lemma kalloc_slow s i pr :
  k_freelist s = 0 -> k_cur s = Some i -> k_procs s !! i = Some pr -> LKmem ∉ k_locks s ->
  kalloc s =
  (let* ok := do_page_replacement i in
   if ok =? 0 then ret 0
   else
     acquire LKmem ;; let* r := kmem_pop in release LKmem ;;
     (if negb (r =? 0) then memset_page r 5 else ret tt) ;; ret r)
  (set_k_console (k_console s ++ [EvMemfull (Some (p_pid pr))]) s).
Proof.
  intros Hz Hcur Hp Hlk. unfold kalloc. kstep by (by apply acquire_eq). kpure. ksimpl.
  kstep by (by eapply release_eq). ksimpl. rewrite Hz, Z.eqb_refl. cbn [negb].
  erewrite bind_done by (unfold myproc; ksimpl; by rewrite Hcur). cbn beta iota.
  kstep by (by apply getp_eq). unfold printf. rewrite bind_modify. by destruct s.
Qed.

(** [kalloc] on behalf of the running process. *)
Lemma kalloc_pstep own s i pr q :
  pinv own s i pr q -> k_cur s = Some i ->
  wpe swap_stop kalloc (fun r s' => exists own' pr' q',
    pstep own s i pr q own' s' pr' q' /\
    (r = 0 /\ own' = own /\ q = [] /\ k_freelist s = 0 /\ k_freelist s' = 0 \/
     own' !! r = Some RLoose /\ k_mem s' !! r = Some (fill 5) /\
     (own !! r = Some RFree \/ own !! r = Some (RNode i)))) s.
Proof.
  intros P Hcur. pose proof (pi_rs _ _ _ _ _ P) as R.
  pose proof (rs_inv _ _ _ _ _ R) as KI. pose proof (rs_kmem _ _ _ _ _ R) as Hlk.
  destruct (decide (k_freelist s = 0)) as [Hz|Hnz].
  2:{ pose proof (ki_head _ _ _ _ KI Hnz) as Hr.
      destruct (ki_is_page _ _ _ _ KI _ _ Hr) as (pg & Hpg).
      eapply wpe_done; [by apply kalloc_fast|].
      destruct (pop_pstep _ _ _ _ _ pg P Hnz (proj1 Hpg)) as [PS _].
      do 3 eexists. split; [exact PS|]. right. split; [apply lookup_insert_eq|].
      split; [apply lookup_insert_eq|by left]. }
  unfold wpe. rewrite (kalloc_slow s i pr) by (done || apply (rs_proc _ _ _ _ _ R)).
  pose proof (pstep_log own s i pr q [EvMemfull (Some (p_pid pr))] P) as PS1.
  set (s1 := set_k_console _ s) in *. apply wpe_bind.
  destruct q as [|x q].
  { eapply wpe_done; [eapply replacement_empty, PS1|]. eapply wpe_done; [done|].
    exists own, pr, []. split; [done|]. by left. }
  eapply wpe_mono; [eapply replacement_pstep, PS1|done|].
  intros r s' (-> & own' & pr' & PS2 & Hfl & pg & Hpg). cbn [Z.eqb].
  pose proof (pstep_trans _ _ _ _ _ _ _ _ _ _ _ _ _ PS1 PS2) as PS.
  pose proof (ps_pinv _ _ _ _ _ _ _ _ _ PS) as P'. pose proof (pi_rs _ _ _ _ _ P') as R'.
  assert (Hnz : k_freelist s' <> 0).
  { rewrite Hfl. eapply (ki_nonzero _ _ _ _ KI), (qi_role _ _ _ _ _ _ (rs_q _ _ _ _ _ R)).
    set_solver. }
  rewrite <- Hfl in Hpg. destruct (pop_pstep _ _ _ _ _ pg P' Hnz (proj1 Hpg)) as [PS3 _].
  eapply wpe_done; [by apply kmem_take_eq; [..|apply (rs_kmem _ _ _ _ _ R')]|].
  do 3 eexists. split; [eapply pstep_trans; [exact PS|exact PS3]|]. right.
  split; [apply lookup_insert_eq|]. split; [apply lookup_insert_eq|]. right. rewrite Hfl.
  apply (qi_role _ _ _ _ _ _ (rs_q _ _ _ _ _ R)). set_solver.
Qed.
End alloc.
