(* ===== verification/Check.v ===== *)
(** * Deciding the invariant on a concrete state

    Boolean versions of the invariants, and that they imply them. *)

From S2P Require Import Prelude Riscv Kernel Mem Inv Queue Walk Pt Replace ResidentSpec EvictSpec.

Fixpoint fl_chainb (m : gmap Z (list Z)) (h : Z) (l : list Z) : bool :=
  match l with
  | [] => h =? 0
  | x :: l =>
      (h =? x) && match m !! x with Some pg => fl_chainb m (pg64 pg 0) l | None => false end
  end.

Definition role_is (own : gmap Z role) (pa : Z) (r : role) : bool := bool_decide (own !! pa = Some r).

Definition entry_okb (own : gmap Z role) (root : Z) (path : list Z) (i w : Z) : bool :=
  negb (has w PTE_V) ||
  if bool_decide (length path < 2)%nat then
    (Z.land w (Z.lor (Z.lor PTE_R PTE_W) PTE_X) =? 0) &&
    role_is own (PTE2PA w) (RTable root (path ++ [i]))
  else (TRAPFRAME <=? va_of path i) || role_is own (PTE2PA w) (RUser root (va_of path i)).

(** The entries of a table page. *)
Fixpoint entries (n : nat) (bs : list Z) : list Z :=
  match n with
  | O => []
  | S n => le_combine (take 8 bs) :: entries n (drop 8 bs)
  end.

Definition table_okb (own : gmap Z role) (root : Z) (path : list Z) (pg : list Z) : bool :=
  forallb (fun x => entry_okb own root path (Z.of_nat x.1) x.2) (zip (seq 0 512) (entries 512 pg)).

Definition parentb (own : gmap Z role) (m : gmap Z (list Z)) (c root : Z) (path : list Z) : bool :=
  match last path with
  | None => c =? root
  | Some i =>
      (0 <=? i) && (i <? 512) &&
      existsb (fun x : Z * role =>
        bool_decide (x.2 = RTable root (removelast path)) &&
        match m !! x.1 with
        | Some pg => has (pg64 pg (8 * i)) PTE_V && (PTE2PA (pg64 pg (8 * i)) =? c)
        | None => false
        end) (map_to_list own)
  end.

Definition roleb (own : gmap Z role) (m : gmap Z (list Z)) (fl : list Z) (x : Z * role) : bool :=
  match m !! x.1 with
  | None => false
  | Some pg =>
      match x.2 with
      | RFree => bool_decide (x.1 ∈ fl)
      | RTable root path =>
          bool_decide (length path <= 2)%nat && parentb own m x.1 root path &&
          table_okb own root path pg
      | _ => true
      end
  end.

Definition pageb (own : gmap Z role) (e : Z) (x : Z * list Z) : bool :=
  bool_decide (length x.2 = Z.to_nat PGSIZE) && (x.1 mod PGSIZE =? 0) && (e <=? x.1) &&
  (x.1 <? PHYSTOP) && bool_decide (is_Some (own !! x.1)).

Definition kinvb (own : gmap Z role) (e : Z) (m : gmap Z (list Z)) (h : Z) (fl : list Z) : bool :=
  (0 <? e) && forallb (pageb own e) (map_to_list m) && forallb (roleb own m fl) (map_to_list own) &&
  fl_chainb m h fl && bool_decide (NoDup fl) && forallb (fun x => role_is own x RFree) fl.

Fixpoint rq_segb (m : gmap Z (list Z)) (h : Z) (q : list rnode) : bool :=
  match q with
  | [] => h =? 0
  | x :: q =>
      (h =? rn_node x) &&
      match m !! rn_node x with
      | Some pg =>
          (pg64 pg rp_va =? rn_va x) && (pg32 pg rp_seq =? rn_seq x) && rq_segb m (pg64 pg rp_next) q
      | None => false
      end
  end.

Definition pinvb {F} (own : gmap Z role) (fl : list Z) (s : kstate F) (i : nat) (pr : proc)
    (q : list rnode) : bool :=
  let root := p_pagetable pr in
  kinvb own (k_end s) (k_mem s) (k_freelist s) fl &&
  rq_segb (k_mem s) (p_resident_set_head pr) q && (p_resident_set_tail pr =? qtail q) &&
  bool_decide (NoDup (rn_node <$> q)) &&
  forallb (fun n => role_is own n (RNode i)) (rn_node <$> q) &&
  forallb (fun x : Z * role => negb (bool_decide (x.2 = RNode i)) ||
    bool_decide (x.1 ∈ (rn_node <$> q))) (map_to_list own) &&
  bool_decide (LKmem ∉ k_locks s) && bool_decide (LProc i ∉ k_locks s) &&
  role_is own root (RTable root []) &&
  forallb (fun x => (rn_va x mod PGSIZE =? 0) && (0 <=? rn_va x) && (rn_va x <? TRAPFRAME) &&
    has (pteval (k_mem s) root (rn_va x)) PTE_V) q &&
  bool_decide (NoDup (rn_va <$> q)) && bool_decide (length (p_swap_slots pr) = 128%nat).

(** ** Soundness *)

Ltac bsplit := repeat match goal with
  | H : (_ && _)%bool = true |- _ => apply andb_true_iff in H as [? ?]
  | H : bool_decide _ = true |- _ => apply bool_decide_eq_true in H
  | H : (_ =? _) = true |- _ => apply Z.eqb_eq in H
  | H : (_ <=? _) = true |- _ => apply Z.leb_le in H
  | H : (_ <? _) = true |- _ => apply Z.ltb_lt in H
  | H : (_ =? _)%nat = true |- _ => apply Nat.eqb_eq in H
  | H : negb (_ =? _) = true |- _ => apply negb_true_iff, Z.eqb_neq in H
  end.

Lemma forallb_elem {A} (f : A -> bool) l x : forallb f l = true -> x ∈ l -> f x = true.
Proof. intros Hf Hx. rewrite forallb_forall in Hf. apply Hf. by apply list_elem_of_In. Qed.

Lemma forallb_map {A} (f : Z * A -> bool) (m : gmap Z A) k v :
  forallb f (map_to_list m) = true -> m !! k = Some v -> f (k, v) = true.
Proof. intros Hf Hm. eapply forallb_elem; [done|]. by apply elem_of_map_to_list. Qed.

Lemma fl_chainb_sound m h l : fl_chainb m h l = true -> fl_chain m h l.
Proof.
  revert h. induction l as [|x l IH]; intros h; simpl; intros Hc; bsplit; [done|].
  split; [done|]. destruct (m !! x) as [pg|]; [|done]. exists pg. split; [done|]. by apply IH.
Qed.

Lemma entries_lookup n bs i : (i < n)%nat ->
  entries n bs !! i = Some (le_combine (take 8 (drop (8 * i) bs))).
Proof.
  revert bs i. induction n as [|n IH]; intros bs i Hi; [lia|].
  cbn [entries]. destruct i as [|i]; [done|]. cbn [lookup list_lookup].
  change (entries n (drop 8 bs) !! i = Some (le_combine (take 8 (drop (8 * S i) bs)))).
  rewrite IH by lia. do 3 f_equal. rewrite drop_drop. f_equal. lia.
Qed.

Lemma entries_elem pg i :
  0 <= i < 512 -> (Z.to_nat i, pg64 pg (8 * i)) ∈ zip (seq 0 512) (entries 512 pg).
Proof.
  intros Hi. apply list_elem_of_lookup. exists (Z.to_nat i). apply lookup_zip_with_Some.
  exists (Z.to_nat i), (pg64 pg (8 * i)). split; [done|]. split.
  - rewrite lookup_seq_lt by lia. done.
  - rewrite entries_lookup by lia. unfold pg64. do 4 f_equal. lia.
Qed.

Lemma table_okb_sound own root path pg : table_okb own root path pg = true -> table_ok own root path pg.
Proof.
  intros Ht i Hi Hv. unfold table_okb in Ht.
  pose proof (forallb_elem _ _ _ Ht (entries_elem pg i Hi)) as He. cbn [fst snd] in He.
  rewrite Z2Nat.id in He by lia. unfold entry_okb in He. rewrite Hv in He. cbn [negb orb] in He.
  destruct (decide (length path < 2)%nat) as [Hl|Hl].
  - rewrite bool_decide_eq_true_2 in He by done. unfold role_is in He. bsplit. done.
  - rewrite bool_decide_eq_false_2 in He by done. intros Hlt. apply orb_true_iff in He as [He|He].
    + bsplit. lia.
    + unfold role_is in He. by bsplit.
Qed.

Section kinvb.
Context (own : gmap Z role) (e : Z) (m : gmap Z (list Z)) (h : Z) (fl : list Z).
Hypothesis Hk : kinvb own e m h fl = true.

Lemma kinvb_role pa r : own !! pa = Some r -> roleb own m fl (pa, r) = true.
Proof. unfold kinvb in Hk. bsplit. intros Hr. by eapply forallb_map. Qed.

Lemma kinvb_page pa pg : m !! pa = Some pg -> pageb own e (pa, pg) = true.
Proof. unfold kinvb in Hk. bsplit. intros Hr. by eapply forallb_map. Qed.

Lemma kinvb_parent c root path i :
  own !! c = Some (RTable root (path ++ [i])) ->
  exists t pg, own !! t = Some (RTable root path) /\ m !! t = Some pg /\
    0 <= i < 512 /\ has (pg64 pg (8 * i)) PTE_V = true /\ PTE2PA (pg64 pg (8 * i)) = c.
Proof.
  intros Hc. pose proof (kinvb_role _ _ Hc) as Hr. unfold roleb in Hr. cbn [fst snd] in Hr.
  destruct (m !! c) as [pgc|]; [|done]. bsplit.
  match goal with H : parentb _ _ _ _ _ = true |- _ => rename H into Hp end.
  unfold parentb in Hp. rewrite last_snoc in Hp. bsplit.
  match goal with H : existsb _ _ = true |- _ => apply existsb_exists in H as ([t r] & Hin & Hx) end.
  cbn [fst snd] in Hx. apply list_elem_of_In, elem_of_map_to_list in Hin. bsplit.
  subst r. rewrite List.removelast_last in Hin.
  destruct (m !! t) as [pg|] eqn:Hpg; [|done]. bsplit. exists t, pg. split_and!; try done.
Qed.

Lemma kinvb_sound : kinv own e m h.
Proof.
  pose proof Hk as Hk'. unfold kinvb in Hk'. bsplit. split.
  - done.
  - intros pa pg Hpg. pose proof (kinvb_page _ _ Hpg) as Hp. unfold pageb in Hp.
    cbn [fst snd] in Hp. bsplit. done.
  - intros pa. split; intros [x Hx].
    + pose proof (kinvb_role _ _ Hx) as Hr. unfold roleb in Hr. cbn [fst snd] in Hr.
      destruct (m !! pa); [by eexists|done].
    + pose proof (kinvb_page _ _ Hx) as Hp. unfold pageb in Hp. cbn [fst snd] in Hp. bsplit. done.
  - exists fl. split; [by apply fl_chainb_sound|]. split; [done|]. intros x. split.
    + intros Hx. match goal with H : forallb (fun x => role_is _ _ _) fl = true |- _ =>
        pose proof (forallb_elem _ _ _ H Hx) as Hr end. unfold role_is in Hr. by bsplit.
    + intros Hx. pose proof (kinvb_role _ _ Hx) as Hr. unfold roleb in Hr. cbn [fst snd] in Hr.
      destruct (m !! x); [|done]. by bsplit.
  - intros pa root path Hr. pose proof (kinvb_role _ _ Hr) as Hb. unfold roleb in Hb.
    cbn [fst snd] in Hb. destruct (m !! pa); [|done]. bsplit. split; [done|]. intros ->.
    match goal with H : parentb _ _ _ _ _ = true |- _ => unfold parentb in H; simpl in H end.
    by bsplit.
  - intros pa root path pg Hr Hpg. pose proof (kinvb_role _ _ Hr) as Hb. unfold roleb in Hb.
    cbn [fst snd] in Hb. rewrite Hpg in Hb. bsplit. by apply table_okb_sound.
  - apply kinvb_parent.
Qed.
End kinvb.

Lemma rq_segb_sound m h q : rq_segb m h q = true -> rq_seg m h q 0.
Proof.
  revert h. induction q as [|x q IH]; intros h; simpl; intros Hc; bsplit; [done|].
  split; [done|]. destruct (m !! rn_node x) as [pg|]; [|done]. bsplit. exists pg.
  split_and!; try done. by apply IH.
Qed.

Lemma pinvb_sound {F} own fl (s : kstate F) i pr q :
  pinvb own fl s i pr q = true -> k_procs s !! i = Some pr -> pinv own s i pr q.
Proof.
  intros Hb Hp. unfold pinvb in Hb. bsplit. split; [split|..].
  - by eapply kinvb_sound.
  - done.
  - split; [by apply rq_segb_sound|done|done|]. intros n. split.
    + intros Hn. match goal with H : forallb (fun n => role_is _ _ _) _ = true |- _ =>
        pose proof (forallb_elem _ _ _ H Hn) as Hr end. unfold role_is in Hr. by bsplit.
    + intros Hn. match goal with H : forallb _ (map_to_list own) = true |- _ =>
        pose proof (forallb_map _ _ _ _ H Hn) as Hr end. cbn [fst snd] in Hr.
      rewrite bool_decide_eq_true_2 in Hr by done. cbn [negb orb] in Hr. by bsplit.
  - done.
  - done.
  - match goal with H : role_is _ _ _ = true |- _ => unfold role_is in H end. by bsplit.
  - apply Forall_forall. intros x Hx. match goal with H : forallb _ q = true |- _ =>
      pose proof (forallb_elem _ _ _ H Hx) as Hr end. cbn beta in Hr. bsplit.
    by unfold res_ok; split_and!.
  - done.
  - done.
Qed.
