(* ===== verification/RamFs.v ===== *)
(** * A file system in memory

    A small file system behind the interface [FsOps], with the limits of the
    real one: no holes, at most [MAXFILE] blocks. It shows that what the
    theorems assume of the file system can hold, and runs the examples. *)

From S2P Require Import Prelude Riscv Kernel.

Record ramfs := mkRam {
  rf_files : gmap Z (list Z);
  rf_names : list (list Z * Z);
  rf_ops : Z
}.

Definition ram_file (f : ramfs) (ip : Z) : list Z := default [] (rf_files f !! ip).

Definition ram_lookup (f : ramfs) (name : list Z) : Z :=
  match list_find (fun x => x.1 = name) (rf_names f) with
  | Some (_, x) => x.2
  | None => 0
  end.

(** [MAXFILE * BSIZE] bytes. *)
Definition ram_max : Z := 268 * 1024.

Definition ram_write (f : ramfs) (ip : Z) (bs : list Z) (off : Z) : Z * ramfs :=
  let old := ram_file f ip in
  let n := Z.of_nat (length bs) in
  if (Z.of_nat (length old) <? off) || (ram_max <? off + n) then (-1, f)
  else
    (n, mkRam (<[ip := splice old (Z.to_nat off) bs]> (rf_files f)) (rf_names f) (rf_ops f)).

#[export] Instance ram_ops : FsOps ramfs := {|
  fs_begin_op := modify (fun f => mkRam (rf_files f) (rf_names f) (rf_ops f + 1));
  fs_end_op := modify (fun f => mkRam (rf_files f) (rf_names f) (rf_ops f - 1));
  fs_namei name := fun f => Done (ram_lookup f name) f;
  fs_create name _ _ _ := fun f =>
    let ip := 1 + Z.of_nat (length (rf_names f)) in
    Done ip (mkRam (<[ip := []]> (rf_files f)) ((name, ip) :: rf_names f) (rf_ops f));
  fs_ilock _ := ret tt;
  fs_iunlock _ := ret tt;
  fs_iput _ := ret tt;
  fs_idup ip := ret ip;
  fs_itrunc ip := modify (fun f => mkRam (<[ip := []]> (rf_files f)) (rf_names f) (rf_ops f));
  fs_readi ip off n := fun f =>
    Done (take (Z.to_nat n) (drop (Z.to_nat off) (ram_file f ip))) f;
  fs_writei ip bs off := fun f => let '(n, f') := ram_write f ip bs off in Done n f'
|}.
