(* ===== verification/Elf.v ===== *)
(** * ELF headers

    [struct elfhdr] and [struct proghdr] of kernel/elf.h, read from the bytes
    [readi] delivers. *)

From S2P Require Import Prelude.

Definition ELF_MAGIC : Z := 0x464C457F.
Definition ELF_PROG_LOAD : Z := 1.
Definition ELF_PROG_FLAG_EXEC : Z := 1.
Definition ELF_PROG_FLAG_WRITE : Z := 2.
Definition ELF_PROG_FLAG_READ : Z := 4.

Record elfhdr := mkElf {
  e_magic : Z; e_elf : list Z; e_type : Z; e_machine : Z; e_version : Z; e_entry : Z;
  e_phoff : Z; e_shoff : Z; e_flags : Z; e_ehsize : Z; e_phentsize : Z; e_phnum : Z;
  e_shentsize : Z; e_shnum : Z; e_shstrndx : Z
}.

Record proghdr := mkPh {
  ph_type : Z; ph_flags : Z; ph_off : Z; ph_vaddr : Z; ph_paddr : Z;
  ph_filesz : Z; ph_memsz : Z; ph_align : Z
}.

Definition sizeof_elfhdr : Z := 64.
Definition sizeof_proghdr : Z := 56.

(** The little-endian field of [n] bytes at offset [off]. *)
Definition field (bs : list Z) (off n : nat) : Z := le_combine (take n (drop off bs)).

Definition parse_elfhdr (bs : list Z) : elfhdr :=
  mkElf (field bs 0 4) (take 12 (drop 4 bs)) (field bs 16 2) (field bs 18 2) (field bs 20 4)
        (field bs 24 8) (field bs 32 8) (field bs 40 8) (field bs 48 4) (field bs 52 2)
        (field bs 54 2) (field bs 56 2) (field bs 58 2) (field bs 60 2) (field bs 62 2).

Definition parse_proghdr (bs : list Z) : proghdr :=
  mkPh (field bs 0 4) (field bs 4 4) (field bs 8 8) (field bs 16 8) (field bs 24 8)
       (field bs 32 8) (field bs 40 8) (field bs 48 8).
