(* ===== verification/Vm.v ===== *)
(** * Virtual memory

    The page-table operations and the demand-paging handler of kernel/vm.c. *)

From S2P Require Import Prelude Riscv Kernel Kmem Swap Walk Replace Elf.

Section vm.
Context {F : Type} `{FsOps F}.

Definition walk : Z -> Z -> bool -> K F Z := walk_with kalloc.

Definition walkaddr (pagetable va : Z) : K F Z :=
  if MAXVA <=? va then ret 0
  else
    let* pte := walk pagetable va false in
    if pte =? 0 then ret 0
    else
      let* w := load64 pte in
      if negb (has w PTE_V) then ret 0
      else if negb (has w PTE_U) then ret 0
      else ret (PTE2PA w).

Definition ismapped (pagetable va : Z) : K F bool :=
  let* pte := walk pagetable va false in
  if pte =? 0 then ret false
  else
    let* w := load64 pte in
    ret (has w PTE_V).

(** The loop of [mappages]: one page per iteration, until [a] is [last]. *)
Fixpoint mappages_loop (fuel : nat) (pagetable a last pa perm : Z) : K F Z :=
  match fuel with
  | O => nofuel
  | S fuel =>
      let* pte := walk pagetable a true in
      if pte =? 0 then ret (-1)
      else
        let* w := load64 pte in
        if has w PTE_V then panic "mappages: remap"
        else
          store64 pte (Z.lor (Z.lor (PA2PTE pa) perm) PTE_V) ;;
          if a =? last then ret 0
          else mappages_loop fuel pagetable (u64 (a + PGSIZE)) last (u64 (pa + PGSIZE)) perm
  end.

Definition mappages (pagetable va size pa perm : Z) : K F Z :=
  if negb (va mod PGSIZE =? 0) then panic "mappages: va not aligned"
  else if negb (size mod PGSIZE =? 0) then panic "mappages: size not aligned"
  else if size =? 0 then panic "mappages: size"
  else
    mappages_loop (Z.to_nat (size / PGSIZE)) pagetable va (u64 (va + size - PGSIZE)) pa perm.

Definition kvmmap (kpgtbl va pa sz perm : Z) : K F unit :=
  let* r := mappages kpgtbl va sz pa perm in
  if negb (r =? 0) then panic "kvmmap" else ret tt.

Definition uvmcreate : K F Z :=
  let* pagetable := kalloc in
  if pagetable =? 0 then ret 0
  else memset_page pagetable 0 ;; ret pagetable.

(** One iteration of [uvmunmap]: the entry for [a], if its table exists. *)
Definition uvmunmap_one (pagetable a : Z) (do_free : bool) : K F unit :=
  let* p := myproc in
  let* pte := walk pagetable a false in
  if pte =? 0 then ret tt
  else
    let* w := load64 pte in
    (if has w PTE_S && negb (has w PTE_V) then
       match p with
       | Some p => swap_slot_free p (s32 (PTE_SLOT w))
       | None => ret tt
       end
     else ret tt) ;;
    if negb (has w PTE_V) then ret tt
    else
      (match p with
       | Some p => remove_from_resident_set p a
       | None => ret tt
       end) ;;
      (if do_free then kfree (PTE2PA w) else ret tt) ;;
      store64 pte 0.

Fixpoint uvmunmap_loop (fuel : nat) (pagetable a stop : Z) (do_free : bool) : K F unit :=
  if a <? stop then
    match fuel with
    | O => nofuel
    | S fuel =>
        uvmunmap_one pagetable a do_free ;;
        uvmunmap_loop fuel pagetable (u64 (a + PGSIZE)) stop do_free
    end
  else ret tt.

Definition uvmunmap (pagetable va npages : Z) (do_free : bool) : K F unit :=
  if negb (va mod PGSIZE =? 0) then panic "uvmunmap: not aligned"
  else uvmunmap_loop (Z.to_nat npages) pagetable va (u64 (va + npages * PGSIZE)) do_free.

Definition uvmdealloc (pagetable oldsz newsz : Z) : K F Z :=
  if oldsz <=? newsz then ret oldsz
  else
    (if PGROUNDUP newsz <? PGROUNDUP oldsz then
       let npages := s32 ((PGROUNDUP oldsz - PGROUNDUP newsz) / PGSIZE) in
       uvmunmap pagetable (PGROUNDUP newsz) (u64 npages) true
     else ret tt) ;;
    ret newsz.

Fixpoint uvmalloc_loop (fuel : nat) (pagetable a oldsz newsz xperm : Z) : K F Z :=
  if a <? newsz then
    match fuel with
    | O => nofuel
    | S fuel =>
        let* mem := kalloc in
        if mem =? 0 then uvmdealloc pagetable a oldsz ;; ret 0
        else
          memset_page mem 0 ;;
          let* r := mappages pagetable a PGSIZE mem (Z.lor (Z.lor PTE_R PTE_U) xperm) in
          if negb (r =? 0) then
            kfree mem ;; uvmdealloc pagetable a oldsz ;; ret 0
          else uvmalloc_loop fuel pagetable (u64 (a + PGSIZE)) oldsz newsz xperm
    end
  else ret newsz.

Definition uvmalloc (pagetable oldsz newsz xperm : Z) : K F Z :=
  if newsz <? oldsz then ret oldsz
  else
    let oldsz := PGROUNDUP oldsz in
    uvmalloc_loop (S (Z.to_nat ((newsz - oldsz) / PGSIZE))) pagetable oldsz oldsz newsz xperm.

(** [freewalk]: the recursion descends one level of tables at a time; three
    levels exist. *)
Fixpoint freewalk_level (level : nat) (pagetable : Z) : K F unit :=
  match level with
  | O => nofuel
  | S level =>
      (fix entries (idx : list nat) : K F unit :=
         match idx with
         | [] => ret tt
         | i :: idx =>
             let* pte := load64 (pagetable + 8 * Z.of_nat i) in
             (if has pte PTE_V && (Z.land pte (Z.lor (Z.lor PTE_R PTE_W) PTE_X) =? 0) then
                freewalk_level level (PTE2PA pte) ;;
                store64 (pagetable + 8 * Z.of_nat i) 0
              else if has pte PTE_V then panic "freewalk: leaf"
              else ret tt) ;;
             entries idx
         end) (seq 0 512) ;;
      kfree pagetable
  end.

Definition freewalk (pagetable : Z) : K F unit := freewalk_level 3 pagetable.

Definition uvmfree (pagetable sz : Z) : K F unit :=
  (if 0 <? sz then uvmunmap pagetable 0 (PGROUNDUP sz / PGSIZE) true else ret tt) ;;
  freewalk pagetable.

(** The loop of [uvmcopy]; a failure at [i] unmaps the child's first
    [i / PGSIZE] pages. *)
Fixpoint uvmcopy_loop (fuel : nat) (old new i sz : Z) : K F Z :=
  if i <? sz then
    match fuel with
    | O => nofuel
    | S fuel =>
        let err := uvmunmap new 0 (i / PGSIZE) true ;; ret (-1) in
        let* pte := walk old i false in
        if pte =? 0 then uvmcopy_loop fuel old new (u64 (i + PGSIZE)) sz
        else
          let* w := load64 pte in
          if negb (has w PTE_V) then uvmcopy_loop fuel old new (u64 (i + PGSIZE)) sz
          else
            let* mem := kalloc in
            if mem =? 0 then err
            else
              memmove_page mem (PTE2PA w) ;;
              let* r := mappages new i PGSIZE mem (PTE_FLAGS w) in
              if negb (r =? 0) then kfree mem ;; err
              else uvmcopy_loop fuel old new (u64 (i + PGSIZE)) sz
    end
  else ret 0.

Definition uvmcopy (old new sz : Z) : K F Z :=
  uvmcopy_loop (S (Z.to_nat (sz / PGSIZE))) old new 0 sz.

Definition uvmclear (pagetable va : Z) : K F unit :=
  let* pte := walk pagetable va false in
  if pte =? 0 then panic "uvmclear"
  else
    let* w := load64 pte in
    store64 pte (Z.land w (Z.lnot PTE_U)).
(** Record a freshly mapped page: queue it, log it, advance the sequence
    number. [ev] is the ALLOC or LOADEXEC line printed before RESIDENT. *)
Definition note_resident (p : nat) (va : Z) (ev : Z -> Z -> event) : K F unit :=
  let* pr := getp p in
  add_to_resident_set p va (p_fifo_seq_num pr) ;;
  let* pr := getp p in
  printf (ev (p_pid pr) va) ;;
  printf (EvResident (p_pid pr) va (p_fifo_seq_num pr)) ;;
  modp p (fun pr => set_p_fifo_seq_num (s32 (p_fifo_seq_num pr + 1)) pr).

(** The stack-growth and heap branches of [vmfault]: map the zeroed page. *)
Definition map_anon (p : nat) (va mem : Z) : K F Z :=
  let* pr := getp p in
  let* r := mappages (p_pagetable pr) va PGSIZE mem
              (Z.lor (Z.lor (Z.lor PTE_W PTE_R) PTE_U) PTE_V) in
  if negb (r =? 0) then kfree mem ;; ret 0
  else note_resident p (PGROUNDDOWN va) EvAlloc ;; ret mem.

(** How many bytes of the page at [page_addr] come from the file, as a [uint]. *)
Definition seg_filesz (ph : proghdr) (page_addr : Z) : Z :=
  let delta := u64 (page_addr - ph_vaddr ph) in
  if ph_filesz ph <=? delta then 0
  else if ph_filesz ph <? u64 (delta + PGSIZE) then u32 (ph_filesz ph - delta)
  else PGSIZE.

(** Page permissions from the segment's flags. *)
Definition seg_perms (ph : proghdr) : Z :=
  let perms := Z.lor PTE_U PTE_V in
  let perms := if has (ph_flags ph) ELF_PROG_FLAG_EXEC then Z.lor perms PTE_X else perms in
  let perms := if has (ph_flags ph) ELF_PROG_FLAG_WRITE then Z.lor perms PTE_W else perms in
  if has (ph_flags ph) ELF_PROG_FLAG_READ then Z.lor perms PTE_R else perms.

(** Does the segment contain [va]? *)
Definition seg_contains (ph : proghdr) (va : Z) : bool :=
  (ph_vaddr ph <=? va) && (va <? u64 (ph_vaddr ph + ph_memsz ph)).

(** Leave the text/data branch with an error: unlock the inode, free the page. *)
Definition fault_fail (ip mem : Z) : K F Z :=
  fs (fs_iunlock ip) ;; kfree mem ;; ret 0.

(** Load the page from the matching segment and map it. *)
Definition load_segment (p : nat) (ip : Z) (ph : proghdr) (va mem : Z) : K F Z :=
  let page_addr := PGROUNDDOWN va in
  let file_offset := u64 (ph_off ph + u64 (page_addr - ph_vaddr ph)) in
  let filesz := seg_filesz ph page_addr in
  let* ok :=
    (if 0 <? filesz then
       let* bs := fs (fs_readi ip (u32 file_offset) filesz) in
       store_bytes mem bs ;;
       ret (Z.of_nat (length bs) =? filesz)
     else ret true) in
  if negb ok then fault_fail ip mem
  else
    let* pr := getp p in
    let* r := mappages (p_pagetable pr) page_addr PGSIZE mem (seg_perms ph) in
    if negb (r =? 0) then fault_fail ip mem
    else
      note_resident p page_addr EvLoadexec ;;
      fs (fs_iunlock ip) ;;
      ret mem.

(** The search for the segment of [va] among the [n] program headers that
    remain, the next of them at file offset [off]. *)
Fixpoint find_segment (n : nat) (p : nat) (ip off va mem : Z) : K F Z :=
  match n with
  | O => fault_fail ip mem
  | S n =>
      let* bs := fs (fs_readi ip (u32 off) sizeof_proghdr) in
      if negb (Z.of_nat (length bs) =? sizeof_proghdr) then fault_fail ip mem
      else
        let ph := parse_proghdr bs in
        if seg_contains ph va then load_segment p ip ph va mem
        else find_segment n p ip (s32 (off + sizeof_proghdr)) va mem
  end.

(** The text/data branch of [vmfault]. *)
Definition load_exec (p : nat) (va mem : Z) : K F Z :=
  let* pr := getp p in
  let ip := p_exe_inode pr in
  if ip =? 0 then kfree mem ;; ret 0
  else
    fs (fs_ilock ip) ;;
    let* bs := fs (fs_readi ip 0 sizeof_elfhdr) in
    if negb (Z.of_nat (length bs) =? sizeof_elfhdr) then fault_fail ip mem
    else
      let elf := parse_elfhdr bs in
      find_segment (Z.to_nat (e_phnum elf)) p ip (s32 (e_phoff elf)) va mem.

(** [vmfault(pagetable, va, read)]; the third argument is not used by the code. *)
Definition vmfault (pagetable va : Z) : K F Z :=
  let* p := myproc in
  let va := PGROUNDDOWN va in
  let* m := ismapped pagetable va in
  if (m : bool) then ret 0
  else
    let* mem := kalloc in
    if mem =? 0 then ret 0
    else
      memset_page mem 0 ;;
      match p with
      | None => badaddr
      | Some p =>
          let* pr := getp p in
          if p_sz pr <=? va then
            let* sp := load64 (p_trapframe pr + tf_sp) in
            if (va <? sp) && (u64 (sp - PGSIZE) <=? va) then map_anon p va mem
            else kfree mem ;; ret 0
          else if p_exe_end pr <=? va then map_anon p va mem
          else load_exec p va mem
      end.

(** [copyout]: [src] is the kernel buffer that is left to copy. *)
Fixpoint copyout_loop (fuel : nat) (pagetable dstva : Z) (src : list Z) : K F Z :=
  match src with
  | [] => ret 0
  | _ =>
      match fuel with
      | O => nofuel
      | S fuel =>
          let va0 := PGROUNDDOWN dstva in
          if MAXVA <=? va0 then ret (-1)
          else
            let* pa0 := walkaddr pagetable va0 in
            let* pa0 := (if pa0 =? 0 then vmfault pagetable va0 else ret pa0) in
            if pa0 =? 0 then ret (-1)
            else
              let* pte := walk pagetable va0 false in
              let* w := load64 pte in
              if negb (has w PTE_W) then ret (-1)
              else
                let n := Nat.min (Z.to_nat (PGSIZE - (dstva - va0))) (length src) in
                store_bytes (pa0 + (dstva - va0)) (take n src) ;;
                copyout_loop fuel pagetable (u64 (va0 + PGSIZE)) (drop n src)
      end
  end.

Definition copyout (pagetable dstva : Z) (src : list Z) : K F Z :=
  copyout_loop (length src / Z.to_nat PGSIZE + 2)%nat pagetable dstva src.

(** [copyin]: [acc] holds the bytes already in the kernel buffer. Returns the
    C return value and the buffer. *)
Fixpoint copyin_loop (fuel : nat) (pagetable srcva : Z) (len : nat) (acc : list Z)
    : K F (Z * list Z) :=
  match len with
  | O => ret (0, acc)
  | _ =>
      match fuel with
      | O => nofuel
      | S fuel =>
          let va0 := PGROUNDDOWN srcva in
          let* pa0 := walkaddr pagetable va0 in
          let* pa0 := (if pa0 =? 0 then vmfault pagetable va0 else ret pa0) in
          if pa0 =? 0 then ret (-1, acc)
          else
            let n := Nat.min (Z.to_nat (PGSIZE - (srcva - va0))) len in
            let* bs := load_bytes (pa0 + (srcva - va0)) n in
            copyin_loop fuel pagetable (u64 (va0 + PGSIZE)) (len - n)%nat (acc ++ bs)
      end
  end.

Definition copyin (pagetable srcva : Z) (len : nat) : K F (Z * list Z) :=
  copyin_loop (len / Z.to_nat PGSIZE + 2)%nat pagetable srcva len [].

(** The bytes of a string up to its terminating 0, and whether it is there. *)
Fixpoint take_str (bs : list Z) : list Z * bool :=
  match bs with
  | [] => ([], false)
  | b :: bs =>
      if b =? 0 then ([0], true)
      else let '(str, got_null) := take_str bs in (b :: str, got_null)
  end.

(** [copyinstr]: no fault handling here, as in the code. *)
Fixpoint copyinstr_loop (fuel : nat) (pagetable srcva : Z) (max : nat) (acc : list Z)
    : K F (Z * list Z) :=
  match max with
  | O => ret (-1, acc)
  | _ =>
      match fuel with
      | O => nofuel
      | S fuel =>
          let va0 := PGROUNDDOWN srcva in
          let* pa0 := walkaddr pagetable va0 in
          if pa0 =? 0 then ret (-1, acc)
          else
            let n := Nat.min (Z.to_nat (PGSIZE - (srcva - va0))) max in
            let* bs := load_bytes (pa0 + (srcva - va0)) n in
            let '(str, got_null) := take_str bs in
            if (got_null : bool) then ret (0, acc ++ str)
            else copyinstr_loop fuel pagetable (u64 (va0 + PGSIZE)) (max - n)%nat (acc ++ str)
      end
  end.

Definition copyinstr (pagetable srcva : Z) (max : nat) : K F (Z * list Z) :=
  copyinstr_loop (max / Z.to_nat PGSIZE + 2)%nat pagetable srcva max [].
End vm.
