(* ===== verification/Proc.v ===== *)
(** * Processes

    kernel/proc.c: the process table, creation, exit and wait, sleep and wakeup,
    the scheduler. The resident set and page replacement, which are in the same
    source file, are in Replace.v. A context switch to the scheduler is the
    outcome [Switch]: the state is the one the scheduler finds. *)

From S2P Require Import Prelude Riscv Kernel Str Kmem Swap Walk Replace Elf Vm.

(** Addresses the linker fixes: the trampoline page, [forkret] and [usertrap],
    and the offsets of [uservec] and [userret] in the trampoline. *)
Class Image := {
  trampoline : Z;
  forkret_addr : Z;
  usertrap_addr : Z;
  uservec_off : Z;
  userret_off : Z
}.

(** What processes need of the open-file layer, kernel/file.c. *)
Class FileOps (F : Type) := {
  filedup : Z -> K F Z;
  fileclose : Z -> K F unit
}.

Definition proc_indices : list nat := seq 0 (Z.to_nat NPROC).

(** The channel of a process pointer, as [wakeup] gets it. *)
Definition proc_chan (p : option nat) : chan :=
  match p with Some i => ChProc i | None => NoChan end.

Definition sizeof_trapframe : nat := 288.

Section proc.
Context {F : Type} `{FsOps F} `{FileOps F} `{Image}.

(** The running process; the code dereferences [myproc()] without a check. *)
Definition curproc : K F nat :=
  let* p := myproc in match p with Some i => ret i | None => badaddr end.

Definition procinit : K F unit :=
  for_each proc_indices (fun i =>
    modp i (fun p => set_p_kstack (KSTACK (Z.of_nat i)) (set_p_state UNUSED p))).

Definition proc_mapstacks (kpgtbl : Z) : K F unit :=
  for_each proc_indices (fun i =>
    let* pa := kalloc in
    if pa =? 0 then panic "kalloc"
    else kvmmap kpgtbl (KSTACK (Z.of_nat i)) pa PGSIZE (Z.lor PTE_R PTE_W)).

Definition allocpid : K F Z :=
  acquire LPid ;;
  let* s := get in
  let pid := k_nextpid s in
  modify (set_k_nextpid (s32 (pid + 1))) ;;
  release LPid ;;
  ret pid.

Definition proc_pagetable (p : nat) : K F Z :=
  let* pagetable := uvmcreate in
  if pagetable =? 0 then ret 0
  else
    let* r := mappages pagetable TRAMPOLINE PGSIZE trampoline (Z.lor PTE_R PTE_X) in
    if r <? 0 then uvmfree pagetable 0 ;; ret 0
    else
      let* pr := getp p in
      let* r := mappages pagetable TRAPFRAME PGSIZE (p_trapframe pr) (Z.lor PTE_R PTE_W) in
      if r <? 0 then
        uvmunmap pagetable TRAMPOLINE 1 false ;;
        uvmfree pagetable 0 ;;
        ret 0
      else ret pagetable.

Definition proc_freepagetable (pagetable sz : Z) : K F unit :=
  uvmunmap pagetable TRAMPOLINE 1 false ;;
  uvmunmap pagetable TRAPFRAME 1 false ;;
  uvmfree pagetable sz.

Definition fs_iunlockput (ip : Z) : M F unit := fs_iunlock ip ;; fs_iput ip.

(** The end of [freeproc]: the executable, the swap file and its slots. *)
Definition freeproc_files (p : nat) : K F unit :=
  let* pr := getp p in
  (if negb (p_exe_inode pr =? 0) then
     fs (fs_iput (p_exe_inode pr)) ;;
     modp p (set_p_exe_inode 0)
   else ret tt) ;;
  let* pr := getp p in
  (if negb (p_swap_inode pr =? 0) then
     let used_slots := slots_count (p_swap_slots pr) in
     (if 0 <? used_slots then printf (EvSwapcleanup (p_pid pr) used_slots) else ret tt) ;;
     fs (fs_ilock (p_swap_inode pr)) ;;
     fs (fs_itrunc (p_swap_inode pr)) ;;
     fs (fs_iunlock (p_swap_inode pr)) ;;
     fs (fs_iput (p_swap_inode pr)) ;;
     modp p (set_p_swap_inode 0)
   else ret tt) ;;
  modp p (set_p_swap_slots (replicate 128 0)).

Definition freeproc (p : nat) : K F unit :=
  let* pr := getp p in
  (if negb (p_trapframe pr =? 0) then kfree (p_trapframe pr) else ret tt) ;;
  modp p (set_p_trapframe 0) ;;
  (if negb (p_pagetable pr =? 0) then proc_freepagetable (p_pagetable pr) (p_sz pr) else ret tt) ;;
  modp p (fun pr =>
    set_p_state UNUSED (set_p_xstate 0 (set_p_killed 0 (set_p_chan NoChan
      (set_p_name (<[0%nat := 0]> (p_name pr)) (set_p_parent None (set_p_pid 0
        (set_p_sz 0 (set_p_pagetable 0 pr))))))))) ;;
  freeproc_files p.

(** The search of [allocproc]; the slot found is returned locked. *)
Fixpoint find_unused (l : list nat) : K F (option nat) :=
  match l with
  | [] => ret None
  | i :: l =>
      acquire (LProc i) ;;
      let* pr := getp i in
      if bool_decide (p_state pr = UNUSED) then ret (Some i)
      else release (LProc i) ;; find_unused l
  end.

(** What [allocproc] resets before it allocates. *)
Definition proc_reset (pid : Z) (pr : proc) : proc :=
  set_p_swap_slots (replicate 128 0) (set_p_swap_inode 0 (set_p_resident_set_tail 0
    (set_p_resident_set_head 0 (set_p_exe_end 0 (set_p_fifo_seq_num 0 (set_p_exe_inode 0
      (set_p_state USED (set_p_pid pid pr)))))))).

Definition allocproc : K F (option nat) :=
  let* found := find_unused proc_indices in
  match found with
  | None => ret None
  | Some p =>
      let* pid := allocpid in
      modp p (proc_reset pid) ;;
      let* tf := kalloc in
      modp p (set_p_trapframe tf) ;;
      if tf =? 0 then freeproc p ;; release (LProc p) ;; ret None
      else
        let* pagetable := proc_pagetable p in
        modp p (set_p_pagetable pagetable) ;;
        if pagetable =? 0 then freeproc p ;; release (LProc p) ;; ret None
        else
          modp p (fun pr =>
            set_p_context (mkContext forkret_addr (p_kstack pr + PGSIZE) (replicate 12 0)) pr) ;;
          ret (Some p)
  end.

Definition userinit : K F unit :=
  let* found := allocproc in
  modify (set_k_initproc found) ;;
  match found with
  | None => badaddr
  | Some p =>
      let* pr := getp p in
      let* sz := uvmalloc (p_pagetable pr) 0 PGSIZE PTE_W in
      if sz =? 0 then freeproc p ;; release (LProc p)
      else
        modp p (set_p_sz sz) ;;
        let* pr := getp p in
        store64 (p_trapframe pr + tf_epc) 0 ;;
        store64 (p_trapframe pr + tf_sp) sz ;;
        let* cwd := fs (fs_namei [47]) in
        modp p (set_p_cwd cwd) ;;
        modp p (set_p_state RUNNABLE) ;;
        release (LProc p)
  end.

Definition growproc (n : Z) : K F Z :=
  let* p := curproc in
  let* pr := getp p in
  let sz := p_sz pr in
  (if 0 <? n then modp p (set_p_sz (u64 (sz + n)))
   else if n <? 0 then
     let* sz := uvmdealloc (p_pagetable pr) sz (u64 (sz + n)) in
     modp p (set_p_sz sz)
   else ret tt) ;;
  ret 0.

(** Duplicate the parent's open files into the child's table. *)
Definition fork_files (p np : nat) : K F unit :=
  for_each (seq 0 (Z.to_nat NOFILE)) (fun fd =>
    let* pr := getp p in
    let f := default 0 (p_ofile pr !! fd) in
    if negb (f =? 0) then
      let* f' := filedup f in
      modp np (fun npr => set_p_ofile (<[fd := f']> (p_ofile npr)) npr)
    else ret tt).

Definition kfork : K F Z :=
  let* p := curproc in
  let* found := allocproc in
  match found with
  | None => ret (-1)
  | Some np =>
      let* pr := getp p in
      let* npr := getp np in
      let* r := uvmcopy (p_pagetable pr) (p_pagetable npr) (p_sz pr) in
      if r <? 0 then freeproc np ;; release (LProc np) ;; ret (-1)
      else
        let* pr := getp p in
        modp np (set_p_sz (p_sz pr)) ;;
        let* tf := load_bytes (p_trapframe pr) sizeof_trapframe in
        store_bytes (p_trapframe npr) tf ;;
        store64 (p_trapframe npr + tf_a 0) 0 ;;
        fork_files p np ;;
        let* cwd := fs (fs_idup (p_cwd pr)) in
        modp np (set_p_cwd cwd) ;;
        modp np (fun npr => set_p_name (safestrcpy (p_name npr) (p_name pr) 16) npr) ;;
        let* npr := getp np in
        let pid := p_pid npr in
        release (LProc np) ;;
        acquire LWait ;;
        modp np (set_p_parent (Some p)) ;;
        release LWait ;;
        acquire (LProc np) ;;
        modp np (set_p_state RUNNABLE) ;;
        release (LProc np) ;;
        ret pid
  end.

Definition wakeup (ch : chan) : K F unit :=
  for_each proc_indices (fun i =>
    let* cur := myproc in
    if negb (bool_decide (cur = Some i)) then
      acquire (LProc i) ;;
      let* pr := getp i in
      (if bool_decide (p_state pr = SLEEPING) && bool_decide (p_chan pr = ch)
       then modp i (set_p_state RUNNABLE) else ret tt) ;;
      release (LProc i)
    else ret tt).

Definition reparent (p : nat) : K F unit :=
  for_each proc_indices (fun i =>
    let* pr := getp i in
    if bool_decide (p_parent pr = Some p) then
      let* s := get in
      modp i (set_p_parent (k_initproc s)) ;;
      wakeup (proc_chan (k_initproc s))
    else ret tt).

(** [sched]: the running process must hold its lock and no other, and must not
    be [RUNNING]; then the scheduler runs. *)
Definition sched : K F unit :=
  let* p := curproc in
  let* s := get in
  let* pr := getp p in
  if negb (bool_decide (LProc p ∈ k_locks s)) then panic "sched p->lock"
  else if negb (Nat.eqb (length (k_locks s)) 1) then panic "sched locks"
  else if bool_decide (p_state pr = RUNNING) then panic "sched RUNNING"
  else switch.

Definition yield : K F unit :=
  let* p := curproc in
  acquire (LProc p) ;;
  modp p (set_p_state RUNNABLE) ;;
  sched ;;
  release (LProc p).

(** What [sleep] does once the scheduler has resumed the process. *)
Definition sleep_resume (p : nat) (lk : lockid) : K F unit :=
  modp p (set_p_chan NoChan) ;;
  release (LProc p) ;;
  acquire lk.

Definition sleep (ch : chan) (lk : lockid) : K F unit :=
  let* p := curproc in
  acquire (LProc p) ;;
  release lk ;;
  modp p (fun pr => set_p_state SLEEPING (set_p_chan ch pr)) ;;
  sched ;;
  sleep_resume p lk.

Definition setkilled (p : nat) : K F unit :=
  acquire (LProc p) ;; modp p (set_p_killed 1) ;; release (LProc p).

Definition killed (p : nat) : K F Z :=
  acquire (LProc p) ;;
  let* pr := getp p in
  release (LProc p) ;;
  ret (p_killed pr).

(** The search loop of [kkill]. *)
Fixpoint kkill_loop (l : list nat) (pid : Z) : K F Z :=
  match l with
  | [] => ret (-1)
  | i :: l =>
      acquire (LProc i) ;;
      let* pr := getp i in
      if p_pid pr =? pid then
        modp i (set_p_killed 1) ;;
        (if bool_decide (p_state pr = SLEEPING) then modp i (set_p_state RUNNABLE) else ret tt) ;;
        release (LProc i) ;;
        ret 0
      else release (LProc i) ;; kkill_loop l pid
  end.
Definition kkill (pid : Z) : K F Z := kkill_loop proc_indices pid.

Definition close_files (p : nat) : K F unit :=
  for_each (seq 0 (Z.to_nat NOFILE)) (fun fd =>
    let* pr := getp p in
    let f := default 0 (p_ofile pr !! fd) in
    if negb (f =? 0) then
      fileclose f ;;
      modp p (fun pr => set_p_ofile (<[fd := 0]> (p_ofile pr)) pr)
    else ret tt).

(** The part of [kexit] after the files are closed. *)
Definition exit_zombie (p : nat) (status : Z) : K F unit :=
  acquire LWait ;;
  reparent p ;;
  let* pr := getp p in
  wakeup (proc_chan (p_parent pr)) ;;
  acquire (LProc p) ;;
  modp p (fun pr => set_p_state ZOMBIE (set_p_xstate status pr)) ;;
  release LWait ;;
  sched ;;
  panic "zombie exit".

Definition kexit (status : Z) : K F unit :=
  let* p := curproc in
  let* s := get in
  if bool_decide (k_initproc s = Some p) then panic "init exiting"
  else
    close_files p ;;
    fs fs_begin_op ;;
    let* pr := getp p in
    fs (fs_iput (p_cwd pr)) ;;
    fs fs_end_op ;;
    modp p (set_p_cwd 0) ;;
    exit_zombie p status.

(** One pass of [kwait] over the table: [inl] is what it returns, [inr] whether
    it saw a child. *)
Fixpoint kwait_scan (l : list nat) (p : nat) (addr : Z) (havekids : bool) : K F (Z + bool) :=
  match l with
  | [] => ret (inr havekids)
  | i :: l =>
      let* pr := getp i in
      if bool_decide (p_parent pr = Some p) then
        acquire (LProc i) ;;
        let* pr := getp i in
        if bool_decide (p_state pr = ZOMBIE) then
          let pid := p_pid pr in
          let* me := getp p in
          let* r := (if negb (addr =? 0)
                     then copyout (p_pagetable me) addr (le_split 4 (p_xstate pr)) else ret 0) in
          if r <? 0 then
            release (LProc i) ;;
            release LWait ;;
            ret (inl (-1))
          else
            freeproc i ;;
            release (LProc i) ;;
            release LWait ;;
            ret (inl pid)
        else release (LProc i) ;; kwait_scan l p addr true
      else kwait_scan l p addr havekids
  end.

(** The loop of [kwait], with [LWait] held. A pass that finds nothing ends in
    [sleep], which leaves for the scheduler: the next pass is a new run. *)
Fixpoint kwait_loop (fuel : nat) (p : nat) (addr : Z) : K F Z :=
  match fuel with
  | O => nofuel
  | S fuel =>
      let* r := kwait_scan proc_indices p addr false in
      match r with
      | inl v => ret v
      | inr havekids =>
          let* k := (if havekids : bool then killed p else ret 1) in
          if negb (k =? 0) then release LWait ;; ret (-1)
          else
            sleep (ChProc p) LWait ;;
            kwait_loop fuel p addr
      end
  end.

Definition kwait (addr : Z) : K F Z :=
  let* p := curproc in
  acquire LWait ;;
  kwait_loop 1 p addr.

(** One pass of the scheduler over the table up to the process it picks: that
    process becomes the running one, its lock held. *)
Fixpoint scheduler_pass (l : list nat) : K F (option nat) :=
  match l with
  | [] => ret None
  | i :: l =>
      acquire (LProc i) ;;
      let* pr := getp i in
      if bool_decide (p_state pr = RUNNABLE) then
        modp i (set_p_state RUNNING) ;;
        modify (set_k_cur (Some i)) ;;
        ret (Some i)
      else release (LProc i) ;; scheduler_pass l
  end.

(** The scheduler's code after [swtch] returns from process [i]. *)
Definition scheduler_back (i : nat) : K F unit :=
  modify (set_k_cur None) ;; release (LProc i).

(** [either_copyout] and [either_copyin]: the kernel side is a byte list, a
    kernel destination is an address. *)
Definition either_copyout (user_dst : bool) (dst : Z) (src : list Z) : K F Z :=
  let* p := curproc in
  if user_dst then
    let* pr := getp p in copyout (p_pagetable pr) dst src
  else store_bytes dst src ;; ret 0.

Definition either_copyin (user_src : bool) (src : Z) (len : nat) : K F (Z * list Z) :=
  let* p := curproc in
  if user_src then
    let* pr := getp p in copyin (p_pagetable pr) src len
  else
    let* bs := load_bytes src len in ret (0, bs).

Definition procdump : K F unit :=
  printf EvNewline ;;
  for_each proc_indices (fun i =>
    let* pr := getp i in
    if bool_decide (p_state pr = UNUSED) then ret tt
    else printf (EvProcLine (p_pid pr) (p_state pr) (p_name pr))).
End proc.
