(* ===== verification/ProcSpec.v ===== *)
(** * Sleep, wakeup, kill and the scheduler

    The operations of kernel/proc.c that move processes between states, as
    functions of the process table. *)

From S2P Require Import Prelude Riscv Kernel Mem Str Kmem Swap Walk Replace Elf Vm Proc.

(** ** Definitions *)

(** What [wakeup] does to the process at index [i]. *)
Definition woken (cur : option nat) (ch : chan) (i : nat) (p : proc) : proc :=
  if bool_decide (cur <> Some i) && bool_decide (p_state p = SLEEPING) && bool_decide (p_chan p = ch)
  then set_p_state RUNNABLE p else p.

(** What [kkill] does to the process it finds. *)
Definition killed_proc (p : proc) : proc :=
  let p := set_p_killed 1 p in
  if bool_decide (p_state p = SLEEPING) then set_p_state RUNNABLE p else p.

Section defs.
Context {F : Type} `{FsOps F} `{FileOps F} `{Image}.

(** No process's lock is held. *)
Definition unlocked (s : kstate F) : Prop := forall i, LProc i ∉ k_locks s.
Definition table_ok (s : kstate F) : Prop := length (k_procs s) = Z.to_nat NPROC.

(** The loop of [scheduler] over the table. [run] is what happens between the
    [swtch] to a process and the [swtch] back. The result is the processes that
    ran, in order, and the state at the end. *)
Fixpoint scheduler_scan (l : list nat) (run : nat -> kstate F -> kstate F) (s : kstate F)
    : list nat * kstate F :=
  match l with
  | [] => ([], s)
  | i :: l =>
      match scheduler_pass [i] s with
      | Done (Some j) s1 =>
          match scheduler_back j (run j s1) with
          | Done _ s2 => let '(t, s3) := scheduler_scan l run s2 in (j :: t, s3)
          | _ => ([j], s1)
          end
      | Done None s1 => scheduler_scan l run s1
      | _ => ([], s)
      end
  end.
End defs.

(** ** Loops over the table *)

Section loops.
Context {F : Type}.
Implicit Types s : kstate F.

Lemma set_procs_twice ps ps' s : set_k_procs ps (set_k_procs ps' s) = set_k_procs ps s.
Proof. done. Qed.
Lemma set_procs_id s : set_k_procs (k_procs s) s = s.
Proof. by destruct s. Qed.
Lemma set_locks_id s : set_k_locks (k_locks s) s = s.
Proof. by destruct s. Qed.

(** A loop whose body changes the process at its index and nothing else changes
    each of the processes named. *)
Lemma for_each_procs (f : nat -> proc -> proc) (body : nat -> K F unit) l : forall s,
  (forall i p, f i (f i p) = f i p) ->
  (forall i p ps, i ∈ l -> ps !! i = Some p ->
     body i (set_k_procs ps s) = Done tt (set_k_procs (<[i := f i p]> ps) s)) ->
  (forall i, i ∈ l -> (i < length (k_procs s))%nat) ->
  exists ps, for_each l body s = Done tt (set_k_procs ps s) /\ length ps = length (k_procs s) /\
    forall i p, k_procs s !! i = Some p -> ps !! i = Some (if decide (i ∈ l) then f i p else p).
Proof.
  induction l as [|j l IH]; intros s Hf Hb Hl.
  { exists (k_procs s). rewrite set_procs_id. split_and!; [done|done|]. intros i p Hp.
    rewrite decide_False by apply not_elem_of_nil. done. }
  destruct (lookup_lt_is_Some_2 (k_procs s) j) as [q Hq]; [apply Hl; by left|].
  cbn [for_each]. erewrite bind_done.
  2: { rewrite <- (set_procs_id s) at 1. apply (Hb j q); [by left|done]. }
  destruct (IH (set_k_procs (<[j := f j q]> (k_procs s)) s)) as (ps & E & Len & Hps).
  - done.
  - intros i p ps Hi Hp. rewrite !set_procs_twice. apply Hb; [by right|done].
  - intros i Hi. ksimpl. rewrite length_insert. apply Hl. by right.
  - exists ps. ksimpl in *. rewrite length_insert in Len. split_and!; [by rewrite E|done|].
    intros i p Hp. destruct (decide (i = j)) as [-> |Hn].
    + assert (p = q) as -> by congruence. rewrite (Hps j (f j q)).
      * rewrite (decide_True (P := j ∈ j :: l)) by by left. case_decide; [by rewrite Hf|done].
      * rewrite list_lookup_insert_eq; [done|]. by eapply lookup_lt_Some.
    + rewrite (Hps i p) by by rewrite list_lookup_insert_ne. f_equal.
      destruct (decide (i ∈ l)) as [Hi|Hi].
      * by rewrite decide_True by by right.
      * rewrite decide_False; [done|]. by rewrite not_elem_of_cons.
Qed.
End loops.

Section spec.
Context {F : Type} `{FsOps F} `{FileOps F} `{Image}.
Implicit Types s : kstate F.

Lemma proc_indices_all s i : table_ok s -> i ∈ proc_indices <-> (i < length (k_procs s))%nat.
Proof. intros ->. unfold proc_indices. rewrite elem_of_seq. lia. Qed.

(** [wakeup] wakes exactly the processes that sleep on the channel. *)
Lemma wakeup_spec ch s :
  table_ok s -> unlocked s ->
  wakeup ch s = Done tt (set_k_procs (imap (woken (k_cur s) ch) (k_procs s)) s).
Proof.
  intros Ht Hu. unfold wakeup.
  destruct (for_each_procs (woken (k_cur s) ch) (fun i =>
    let* cur := myproc in
    if negb (bool_decide (cur = Some i)) then
      acquire (LProc i) ;;
      let* pr := getp i in
      (if bool_decide (p_state pr = SLEEPING) && bool_decide (p_chan pr = ch)
       then modp i (set_p_state RUNNABLE) else ret tt) ;;
      release (LProc i)
    else ret tt) proc_indices s) as (ps & E & Len & Hps).
  - intros i p. unfold woken. repeat case_bool_decide; cbn [andb] in *; done.
  - intros i p ps _ Hp. unfold myproc, bind at 1. ksimpl. unfold woken.
    case_bool_decide as Hc; cbn [negb].
    + rewrite (bool_decide_eq_false_2 (k_cur s <> Some i)) by tauto. cbn [andb].
      by rewrite list_insert_id.
    + rewrite (bool_decide_eq_true_2 (k_cur s <> Some i)) by done. cbn [andb].
      erewrite bind_done by (apply acquire_eq; apply Hu). erewrite bind_done by (apply getp_eq; exact Hp).
      destruct (bool_decide (p_state p = SLEEPING) && bool_decide (p_chan p = ch)).
      * erewrite bind_done by (apply modp_eq; exact Hp). erewrite release_eq; [|done|apply Hu]. by destruct s.
      * rewrite bind_ret. erewrite release_eq; [|done|apply Hu]. rewrite list_insert_id by done. by destruct s.
  - intros i Hi. by apply (proc_indices_all s).
  - rewrite E. do 2 f_equal. apply list_eq. intros i. rewrite list_lookup_imap.
    destruct (k_procs s !! i) as [p|] eqn:Hp; cbn.
    + rewrite (Hps i p Hp), decide_True; [done|]. apply (proc_indices_all s i Ht). by eapply lookup_lt_Some.
    + apply lookup_ge_None. rewrite Len. by apply lookup_ge_None.
Qed.

(** *** [kkill] *)

Lemma kkill_loop_spec pid s n : forall k,
  unlocked s -> (k + n = length (k_procs s))%nat ->
  kkill_loop (seq k n) pid s =
    match list_find (fun p => p_pid p = pid) (drop k (k_procs s)) with
    | Some (i, p) => Done 0 (set_k_procs (<[(k + i)%nat := killed_proc p]> (k_procs s)) s)
    | None => Done (-1) s
    end.
Proof.
  induction n as [|n IH]; intros k Hu Hk; cbn [seq kkill_loop].
  { by rewrite drop_ge by lia. }
  destruct (lookup_lt_is_Some_2 (k_procs s) k) as [p Hp]; [lia|].
  rewrite (drop_S _ p) by done. cbn [list_find].
  erewrite bind_done by (apply acquire_eq; apply Hu). erewrite bind_done by (apply getp_eq; exact Hp).
  destruct (decide (p_pid p = pid)) as [E|E].
  - rewrite (proj2 (Z.eqb_eq _ _) E). erewrite bind_done by (apply modp_eq; exact Hp).
    rewrite Nat.add_0_r. unfold killed_proc. psimpl.
    assert (k < length (k_procs s))%nat as Hl by lia.
    destruct (bool_decide (p_state p = SLEEPING)).
    + erewrite bind_done by (apply modp_eq; ksimpl; by apply list_lookup_insert_eq).
      erewrite bind_done by (apply release_eq; [done|apply Hu]). ksimpl. rewrite list_insert_insert_eq. by destruct s.
    + rewrite bind_ret. erewrite bind_done by (apply release_eq; [done|apply Hu]). by destruct s.
  - rewrite (proj2 (Z.eqb_neq _ _) E). erewrite bind_done by (apply release_eq; [done|apply Hu]).
    replace (set_k_locks (k_locks s) (set_k_locks (LProc k :: k_locks s) s)) with s by by destruct s. rewrite IH by (done || lia).
    destruct (list_find _ (drop (S k) (k_procs s))) as [[i q]|]; [|done]. cbn.
    by replace (k + S i)%nat with (S (k + i)) by lia.
Qed.

Lemma kkill_spec pid s :
  table_ok s -> unlocked s ->
  kkill pid s =
    match list_find (fun p => p_pid p = pid) (k_procs s) with
    | Some (i, p) => Done 0 (set_k_procs (<[i := killed_proc p]> (k_procs s)) s)
    | None => Done (-1) s
    end.
Proof.
  intros Ht Hu. unfold kkill, proc_indices. rewrite <- Ht, kkill_loop_spec by (done || lia). done.
Qed.

(** *** The scheduler *)

Lemma scheduler_pass_one i p s :
  k_procs s !! i = Some p -> unlocked s ->
  scheduler_pass [i] s =
    if bool_decide (p_state p = RUNNABLE)
    then Done (Some i) (set_k_cur (Some i) (set_k_procs (<[i := set_p_state RUNNING p]> (k_procs s))
           (set_k_locks (LProc i :: k_locks s) s)))
    else Done None s.
Proof.
  intros Hp Hu. cbn [scheduler_pass]. erewrite bind_done by (apply acquire_eq; apply Hu).
  erewrite bind_done by (apply getp_eq; exact Hp). case_bool_decide.
  - erewrite bind_done by (apply modp_eq; exact Hp). done.
  - erewrite bind_done by (apply release_eq; [done|apply Hu]). unfold ret. by destruct s.
Qed.

(** Coming back to the scheduler: the process released its lock and took it
    again, holds nothing else, and left the processes that wait to run. *)
Definition returns (run : nat -> kstate F -> kstate F) : Prop := forall i s,
  k_locks (run i s) = k_locks s /\ length (k_procs (run i s)) = length (k_procs s) /\
  forall j p, j <> i -> k_procs s !! j = Some p -> p_state p = RUNNABLE ->
    exists p', k_procs (run i s) !! j = Some p' /\ p_state p' = RUNNABLE.

Lemma scheduler_scan_runs run l : forall s i p,
  returns run -> unlocked s -> (forall j, j ∈ l -> (j < length (k_procs s))%nat) ->
  i ∈ l -> k_procs s !! i = Some p -> p_state p = RUNNABLE -> i ∈ (scheduler_scan l run s).1.
Proof.
  induction l as [|j l IH]; intros s i p Hr Hu Hl Hi Hp Hs; [by apply elem_of_nil in Hi|].
  cbn [scheduler_scan]. destruct (lookup_lt_is_Some_2 (k_procs s) j) as [q Hq]; [apply Hl; by left|].
  rewrite (scheduler_pass_one j q) by done. case_bool_decide as E.
  - set (s1 := set_k_cur _ _). destruct (Hr j s1) as (Lk & Len & Keep).
    assert (scheduler_back j (run j s1) = Done tt (set_k_locks (k_locks s) (set_k_cur None (run j s1)))) as Eb.
    { unfold scheduler_back. rewrite bind_modify. apply release_eq; [by ksimpl|apply Hu]. }
    rewrite Eb. destruct (scheduler_scan l run _) as [t s3] eqn:Es. cbn [fst].
    destruct (decide (i = j)) as [-> |Hn]; [by left|right].
    destruct (Keep i p Hn) as (p' & Hp' & Hs'); [subst s1; ksimpl; by rewrite list_lookup_insert_ne|done|].
    change t with (t, s3).1. rewrite <- Es. apply (IH _ i p').
    + done.
    + done.
    + intros k Hk. ksimpl. rewrite Len. subst s1. ksimpl. rewrite length_insert. apply Hl. by right.
    + apply elem_of_cons in Hi as [?|?]; done.
    + by ksimpl.
    + done.
  - apply (IH s i p); try done.
    + intros k Hk. apply Hl. by right.
    + apply elem_of_cons in Hi as [->|?]; [|done]. congruence.
Qed.

Lemma find_unused_first s n : forall k i p,
  unlocked s -> (k <= i < k + n)%nat -> k_procs s !! i = Some p -> p_state p = UNUSED ->
  (forall j q, (k <= j < i)%nat -> k_procs s !! j = Some q -> p_state q <> UNUSED) ->
  find_unused (seq k n) s = Done (Some i) (set_k_locks (LProc i :: k_locks s) s).
Proof.
  induction n as [|n IH]; intros k i p Hu Hi Hp Hs Hb; [lia|]. cbn [seq find_unused].
  erewrite bind_done by (apply acquire_eq; apply Hu).
  destruct (lookup_lt_is_Some_2 (k_procs s) k) as [q Hq]; [apply lookup_lt_Some in Hp; lia|].
  erewrite bind_done by (apply getp_eq; exact Hq).
  destruct (decide (k = i)) as [-> |Hn].
  - assert (q = p) as -> by congruence. by rewrite bool_decide_eq_true_2.
  - rewrite bool_decide_eq_false_2 by (apply (Hb k); [lia|done]).
    erewrite bind_done by (apply release_eq; [done|apply Hu]).
    replace (set_k_locks (k_locks s) (set_k_locks (LProc k :: k_locks s) s)) with s by by destruct s.
    apply (IH (S k) i p); [done|lia|done|done|]. intros j r Hj. apply Hb. lia.
Qed.
End spec.

(** ** Properties *)

(** C20: A sleeping process that is woken is run: [wakeup] does not fail, makes
    runnable exactly the processes that sleep on the channel, and the next sweep
    of the scheduler over the table switches to each of them, whatever the
    processes it runs before them do. *)
Theorem wakeup_scheduled {F} (s : kstate F) ch i p run :
  table_ok s -> unlocked s -> returns run ->
  k_procs s !! i = Some p -> p_state p = SLEEPING -> p_chan p = ch -> k_cur s <> Some i ->
  exists s', wakeup ch s = Done tt s' /\
    k_procs s' = imap (woken (k_cur s) ch) (k_procs s) /\
    i ∈ (scheduler_scan proc_indices run s').1.
Proof.
  intros Ht Hu Hr Hp Hs Hc Hn. eexists. split; [by apply wakeup_spec|]. split; [done|].
  apply (scheduler_scan_runs run proc_indices _ i (set_p_state RUNNABLE p)).
  - done.
  - done.
  - intros j Hj. ksimpl. rewrite length_imap. by apply (proc_indices_all s).
  - apply (proc_indices_all s i Ht). by eapply lookup_lt_Some.
  - ksimpl. rewrite list_lookup_imap, Hp. cbn. f_equal. unfold woken.
    by rewrite !bool_decide_eq_true_2.
  - done.
Qed.

(** [kill(pid)] returns 0 exactly when some process-table entry has that pid;
    it then marks the first such entry killed and, if it sleeps, makes it
    runnable so that it can notice, and it changes nothing else; otherwise it
    returns -1 and changes nothing. *)
Theorem kkill_correct {F} (s : kstate F) pid :
  table_ok s -> unlocked s ->
  (exists i p, k_procs s !! i = Some p /\ p_pid p = pid /\
     (forall j q, (j < i)%nat -> k_procs s !! j = Some q -> p_pid q <> pid) /\
     kkill pid s = Done 0 (set_k_procs (<[i := killed_proc p]> (k_procs s)) s)) \/
  ((forall i p, k_procs s !! i = Some p -> p_pid p <> pid) /\ kkill pid s = Done (-1) s).
Proof.
  intros Ht Hu. rewrite (kkill_spec pid s Ht Hu).
  destruct (list_find (fun p => p_pid p = pid) (k_procs s)) as [[i p]|] eqn:E.
  - left. exists i, p. apply list_find_Some in E as (Hp & Hpid & Hb). split_and!; try done.
    intros j q Hj Hq. by eapply Hb.
  - right. split; [|done]. intros i p Hp. apply list_find_None in E.
    rewrite Forall_forall in E. apply E. by eapply list_elem_of_lookup_2.
Qed.

(** [kill(0)] succeeds on a free process-table entry and marks it killed, and
    the next [allocproc] takes that entry without clearing the mark, so a process
    that nobody killed starts out killed. *)
Theorem kill_zero_poisons {F} (s : kstate F) i p :
  table_ok s -> unlocked s -> k_procs s !! i = Some p -> p_state p = UNUSED -> p_pid p = 0 ->
  (forall j q, (j < i)%nat -> k_procs s !! j = Some q -> p_state q <> UNUSED /\ p_pid q <> 0) ->
  exists s' s'' p', kkill 0 s = Done 0 s' /\
    find_unused proc_indices s' = Done (Some i) s'' /\ k_procs s'' !! i = Some p' /\
    forall pid, p_killed (proc_reset pid p') = 1.
Proof.
  intros Ht Hu Hp Hs Hpid Hb.
  assert (list_find (fun p => p_pid p = 0) (k_procs s) = Some (i, p)) as E.
  { apply list_find_Some. split_and!; [done|done|]. intros j q Hq Hj. by apply (Hb j q). }
  assert (killed_proc p = set_p_killed 1 p) as Hk by (unfold killed_proc; psimpl; by rewrite Hs).
  assert (i < length (k_procs s))%nat as Hl by by eapply lookup_lt_Some.
  eexists. exists (set_k_locks (LProc i :: k_locks s) (set_k_procs (<[i := set_p_killed 1 p]> (k_procs s)) s)), (set_p_killed 1 p).
  split_and!.
  - rewrite (kkill_spec 0 s Ht Hu), E, Hk. done.
  - unfold proc_indices. apply (find_unused_first (set_k_procs (<[i := set_p_killed 1 p]> (k_procs s)) s) (Z.to_nat NPROC) 0 i (set_p_killed 1 p)); ksimpl.
    + done.
    + rewrite <- Ht. lia.
    + by apply list_lookup_insert_eq.
    + done.
    + intros j q Hj. rewrite list_lookup_insert_ne by lia. intros Hq. apply (Hb j q); [lia|done].
  - ksimpl. by apply list_lookup_insert_eq.
  - done.
Qed.

(** A table of free entries with one process asleep on [ticks] at entry 2. *)
Definition spec_proc (st : procstate) (pid : Z) : proc :=
  mkProc st ChTicks 0 0 pid None 0 0 0 0 (mkContext 0 0 []) [] 0 [] 0 0 0 0 0 0 [].
Definition spec_table : list proc :=
  [spec_proc RUNNING 1; spec_proc RUNNABLE 2; spec_proc SLEEPING 3] ++ replicate 61 (spec_proc UNUSED 0).
Definition spec_state : kstate unit := mkK 0 ∅ 0 spec_table (Some 0%nat) None 4 0 false 0 [] [] [] tt.

Lemma spec_state_ok : table_ok spec_state /\ unlocked spec_state.
Proof. split; [reflexivity|]. intros i. apply not_elem_of_nil. Qed.

Lemma wakeup_scheduled_witness : exists s',
  wakeup ChTicks spec_state = Done tt s' /\
  2%nat ∈ (scheduler_scan proc_indices (fun _ s => s) s').1.
Proof.
  destruct spec_state_ok as [Ht Hu].
  destruct (wakeup_scheduled spec_state ChTicks 2 (spec_proc SLEEPING 3) (fun _ s => s)) as (s' & E & _ & Hi).
  - exact Ht.
  - exact Hu.
  - intros i s. split; [reflexivity|]. split; [reflexivity|]. intros j p _ Hp Hs. by exists p.
  - reflexivity.
  - reflexivity.
  - reflexivity.
  - discriminate.
  - exists s'. split; [exact E|exact Hi].
Defined.

Lemma kkill_correct_witness : kkill 7 spec_state = Done (-1) spec_state.
Proof.
  destruct spec_state_ok as [Ht Hu].
  destruct (kkill_correct spec_state 7 Ht Hu) as [(i & p & Hp & Hpid & _)|[_ E]]; [|exact E].
  exfalso. assert (Forall (fun p => p_pid p <> 7) spec_table) as Hall by (repeat constructor; done).
  eapply Forall_lookup_1 in Hall; [|exact Hp]. done.
Defined.

Lemma kill_zero_poisons_witness : exists s' s'' p',
  kkill 0 spec_state = Done 0 s' /\ find_unused proc_indices s' = Done (Some 3%nat) s'' /\
  k_procs s'' !! 3%nat = Some p' /\ forall pid, p_killed (proc_reset pid p') = 1.
Proof.
  destruct spec_state_ok as [Ht Hu].
  apply (kill_zero_poisons spec_state 3 (spec_proc UNUSED 0) Ht Hu); [reflexivity..|].
  intros j q Hj Hq. do 3 (destruct j as [|j]; [injection Hq as <-; done|]). lia.
Defined.
