(* ===== verification/Trap.v ===== *)
(** * Traps

    kernel/trap.c: page faults, system calls and interrupts from user space, and
    interrupts in the kernel. The control registers the code reads and writes
    are a record that is passed in and out. *)

From S2P Require Import Prelude Riscv Kernel Kmem Swap Walk Replace Elf Vm Proc.

Record csr := mkCsr {
  c_scause : Z;
  c_stval : Z;
  c_sepc : Z;
  c_sstatus : Z;
  c_stvec : Z;
  c_satp : Z;
  c_tp : Z
}.

(** The device drivers [devintr] calls, and the hart's number. *)
Class Devices (F : Type) := {
  cpuid : Z;
  plic_claim : K F Z;
  plic_complete : Z -> K F unit;
  uartintr : K F unit;
  virtio_disk_intr : K F unit
}.

Definition UART0_IRQ : Z := 10.
Definition VIRTIO0_IRQ : Z := 1.

(** [access_type] of the fault. *)
Definition access_of (scause : Z) : access :=
  if scause =? 12 then AExec else if scause =? 13 then ARead else AWrite.

Section trap.
Context {F : Type} `{FsOps F} `{FileOps F} `{Image} `{Devices F}.

(** Branch 1 of the page-fault handler, from [kalloc] on: read the page in
    [slot] back and map it with [perms]; [pte] is the address of its entry. *)
Definition swap_load (p : nat) (va pte slot perms : Z) : K F unit :=
  let* mem := kalloc in
  if mem =? 0 then setkilled p
  else
    let* pr := getp p in
    let sip := p_swap_inode pr in
    if negb (sip =? 0) then
      fs (fs_ilock sip) ;;
      let* bs := fs (fs_readi sip (u32 (slot * PGSIZE)) PGSIZE) in
      store_bytes mem bs ;;
      fs (fs_iunlock sip) ;;
      if negb (Z.of_nat (length bs) =? PGSIZE) then
        kfree mem ;;
        setkilled p
      else
        swap_slot_free p slot ;;
        store64 pte 0 ;;
        let* r := mappages (p_pagetable pr) va PGSIZE mem (Z.lor perms PTE_V) in
        if negb (r =? 0) then
          kfree mem ;;
          setkilled p
        else
          let* pr := getp p in
          add_to_resident_set p va (p_fifo_seq_num pr) ;;
          let* pr := getp p in
          printf (EvResident (p_pid pr) va (p_fifo_seq_num pr)) ;;
          modp p (fun pr => set_p_fifo_seq_num (s32 (p_fifo_seq_num pr + 1)) pr)
    else
      kfree mem ;;
      setkilled p.

(** Branch 1: bring the page back from its slot. [w] is the entry. *)
Definition swap_in (p : nat) (va pte w : Z) (acc : access) : K F unit :=
  let* pr := getp p in
  printf (EvPagefault (p_pid pr) va acc CSwap) ;;
  let slot := s32 (PTE_SLOT w) in
  let perms := Z.land w (Z.lor (Z.lor (Z.lor PTE_R PTE_W) PTE_X) PTE_U) in
  printf (EvSwapin (p_pid pr) va slot) ;;
  swap_load p va pte slot perms.

(** Branch 2: an address without a leaf table, or a page that is mapped. *)
Definition invalid_access (p : nat) (va : Z) (acc : access) : K F unit :=
  let* pr := getp p in
  printf (EvPagefault (p_pid pr) va acc CInvalid) ;;
  printf (EvKillInvalid (p_pid pr) va acc) ;;
  setkilled p.

(** Branch 3: the first access to a page. *)
Definition fresh_page (p : nat) (va : Z) (acc : access) : K F unit :=
  let* pr := getp p in
  let* cause :=
    (if (p_exe_end pr <=? va) && (va <? p_sz pr) then ret CHeap
     else
       let* sp := load64 (p_trapframe pr + tf_sp) in
       if (sp <=? va) && (va <? u64 (sp + PGSIZE)) then ret CStack
       else if va <? p_exe_end pr then ret CExec
       else ret CHeap) in
  printf (EvPagefault (p_pid pr) va acc cause) ;;
  let* r := vmfault (p_pagetable pr) va in
  if r =? 0 then setkilled p else ret tt.

(** The page-fault part of [usertrap]. *)
Definition page_fault (p : nat) (scause stval : Z) : K F unit :=
  let va := PGROUNDDOWN stval in
  let acc := access_of scause in
  let* pr := getp p in
  let* pte := walk (p_pagetable pr) va false in
  let* w := (if pte =? 0 then ret 0 else load64 pte) in
  if negb (pte =? 0) && negb (has w PTE_V) && has w PTE_S then swap_in p va pte w acc
  else if (pte =? 0) || has w PTE_V then invalid_access p va acc
  else fresh_page p va acc.

Definition clockintr : K F unit :=
  if cpuid =? 0 then
    acquire LTicks ;;
    modify (fun s => set_k_ticks (u32 (k_ticks s + 1)) s) ;;
    wakeup ChTicks ;;
    release LTicks
  else ret tt.

(** 2 for a timer interrupt, 1 for another device, 0 if not recognised. *)
Definition devintr (scause : Z) : K F Z :=
  if scause =? 0x8000000000000009 then
    let* irq := plic_claim in
    (if irq =? UART0_IRQ then uartintr
     else if irq =? VIRTIO0_IRQ then virtio_disk_intr
     else if negb (irq =? 0) then printf (EvIrq irq)
     else ret tt) ;;
    (if negb (irq =? 0) then plic_complete irq else ret tt) ;;
    ret 1
  else if scause =? 0x8000000000000005 then
    clockintr ;;
    ret 2
  else ret 0.

Definition prepare_return (c : csr) : K F csr :=
  let* p := curproc in
  let* pr := getp p in
  let tf := p_trapframe pr in
  store64 (tf + tf_kernel_satp) (c_satp c) ;;
  store64 (tf + tf_kernel_sp) (p_kstack pr + PGSIZE) ;;
  store64 (tf + tf_kernel_trap) usertrap_addr ;;
  store64 (tf + tf_kernel_hartid) (c_tp c) ;;
  let x := Z.lor (Z.land (c_sstatus c) (Z.lnot SSTATUS_SPP)) SSTATUS_SPIE in
  let* epc := load64 (tf + tf_epc) in
  ret (mkCsr (c_scause c) (c_stval c) epc x (TRAMPOLINE + uservec_off) (c_satp c) (c_tp c)).

(** [usertrap], with the system-call dispatcher as an argument. Returns the
    control registers and the [satp] of the user page table. *)
Definition usertrap (syscall : K F unit) (c : csr) : K F (csr * Z) :=
  if has (c_sstatus c) SSTATUS_SPP then panic "usertrap: not from user mode"
  else
    let* p := curproc in
    let* pr := getp p in
    store64 (p_trapframe pr + tf_epc) (c_sepc c) ;;
    let* which_dev :=
      (if c_scause c =? 8 then
         let* k := killed p in
         (if negb (k =? 0) then kexit (-1) else ret tt) ;;
         let* epc := load64 (p_trapframe pr + tf_epc) in
         store64 (p_trapframe pr + tf_epc) (u64 (epc + 4)) ;;
         syscall ;;
         ret 0
       else
         let* which_dev := devintr (c_scause c) in
         if negb (which_dev =? 0) then ret which_dev
         else if (c_scause c =? 12) || (c_scause c =? 13) || (c_scause c =? 15) then
           page_fault p (c_scause c) (c_stval c) ;;
           ret which_dev
         else
           printf (EvUnexpectedScause (c_scause c) (p_pid pr) (c_sepc c) (c_stval c)) ;;
           setkilled p ;;
           ret which_dev) in
    let* k := killed p in
    (if negb (k =? 0) then kexit (-1) else ret tt) ;;
    (if which_dev =? 2 then yield else ret tt) ;;
    let* c := prepare_return c in
    let* pr := getp p in
    ret (c, MAKE_SATP (p_pagetable pr)).

Definition kerneltrap (c : csr) : K F csr :=
  if negb (has (c_sstatus c) SSTATUS_SPP) then panic "kerneltrap: not from supervisor mode"
  else if has (c_sstatus c) SSTATUS_SIE then panic "kerneltrap: interrupts enabled"
  else
    let* which_dev := devintr (c_scause c) in
    (if which_dev =? 0 then
       printf (EvScause (c_scause c) (c_sepc c) (c_stval c)) ;;
       panic "kerneltrap"
     else ret tt) ;;
    let* p := myproc in
    (if (which_dev =? 2) && bool_decide (is_Some p) then yield else ret tt) ;;
    ret c.
End trap.
