(* ===== verification/Exec.v ===== *)
(** * Program execution

    [kexec] of kernel/exec.c. A path and the arguments are C strings, here the
    bytes before the terminating 0. *)

From S2P Require Import Prelude Riscv Kernel Str Kmem Swap Walk Replace Elf Vm Proc Trap.

Definition flags2perm (flags : Z) : Z :=
  let perm := if has flags 1 then PTE_X else 0 in
  if has flags 2 then Z.lor perm PTE_W else perm.

(** The file name of a path: what follows the last slash. *)
Fixpoint path_last (path last : list Z) : list Z :=
  match path with
  | [] => last
  | c :: path => path_last path (if c =? 47 then path else last)
  end.

Section exec.
Context {F : Type} `{FsOps F} `{FileOps F} `{Image}.

(** The label [bad]: [pagetable] and [ip] are 0 where the code has not set
    them, or has cleared them. *)
Definition exec_bad (pagetable sz ip : Z) : K F Z :=
  (if negb (pagetable =? 0) then proc_freepagetable pagetable sz else ret tt) ;;
  (if negb (ip =? 0) then fs (fs_iunlockput ip) ;; fs fs_end_op else ret tt) ;;
  ret (-1).

(** The loop over the program headers; [inl] is the size when it goes to
    [bad]. *)
Fixpoint exec_segments (n : nat) (ip off sz : Z) : K F (Z + Z) :=
  match n with
  | O => ret (inr sz)
  | S n =>
      let* bs := fs (fs_readi ip (u32 off) sizeof_proghdr) in
      let next := s32 (off + sizeof_proghdr) in
      if negb (Z.of_nat (length bs) =? sizeof_proghdr) then ret (inl sz)
      else
        let ph := parse_proghdr bs in
        if negb (ph_type ph =? ELF_PROG_LOAD) then exec_segments n ip next sz
        else if ph_memsz ph <? ph_filesz ph then ret (inl sz)
        else if u64 (ph_vaddr ph + ph_memsz ph) <? ph_vaddr ph then ret (inl sz)
        else if negb (ph_vaddr ph mod PGSIZE =? 0) then ret (inl sz)
        else exec_segments n ip next (Z.max sz (u64 (ph_vaddr ph + ph_memsz ph)))
  end.

(** Copy the argument strings to the new stack. Returns the stack pointer and
    the addresses of the strings. *)
Fixpoint exec_args (argv : list (list Z)) (pagetable sp stackbase : Z) (ustack : list Z)
    : K F (option (Z * list Z)) :=
  match argv with
  | [] => ret (Some (sp, ustack))
  | arg :: argv =>
      if MAXARG <=? Z.of_nat (length ustack) then ret None
      else
        let sp := u64 (sp - (Z.of_nat (length arg) + 1)) in
        let sp := u64 (sp - sp mod 16) in
        if sp <? stackbase then ret None
        else
          let* r := copyout pagetable sp (arg ++ [0]) in
          if r <? 0 then ret None
          else exec_args argv pagetable sp stackbase (ustack ++ [sp])
  end.

(** Replace the executable inode and drop the swap file of the old image. *)
Definition exec_files (p : nat) (ip : Z) : K F unit :=
  let* pr := getp p in
  (if negb (p_exe_inode pr =? 0) then fs (fs_iput (p_exe_inode pr)) else ret tt) ;;
  let* ip' := fs (fs_idup ip) in
  modp p (set_p_exe_inode ip') ;;
  let* pr := getp p in
  (if negb (p_swap_inode pr =? 0) then
     fs (fs_iput (p_swap_inode pr)) ;;
     modp p (set_p_swap_inode 0)
   else ret tt) ;;
  modp p (set_p_swap_slots (replicate 128 0)).

(** Commit to the new image: nothing fails from here on. *)
Definition exec_commit (p : nat) (path : list Z) (pagetable sz oldsz sp entry : Z) : K F unit :=
  let* pr := getp p in
  store64 (p_trapframe pr + tf_a 1) sp ;;
  modp p (fun pr => set_p_name (safestrcpy (p_name pr) (path_last path path) 16) pr) ;;
  let* pr := getp p in
  let oldpagetable := p_pagetable pr in
  modp p (set_p_pagetable pagetable) ;;
  modp p (set_p_sz sz) ;;
  store64 (p_trapframe pr + tf_epc) entry ;;
  store64 (p_trapframe pr + tf_sp) sp ;;
  proc_freepagetable oldpagetable oldsz ;;
  modp p (set_p_swap_inode 0) ;;
  let* pr := getp p in
  printf (EvInitLazymap (p_pid pr) (p_exe_end pr) sz sp).

(** From the size of the image on: the stack page, the arguments, the commit. *)
Definition exec_image (p : nat) (path : list Z) (argv : list (list Z)) (pagetable sz entry : Z)
    : K F Z :=
  let* pr := getp p in
  let oldsz := p_sz pr in
  modp p (set_p_exe_end sz) ;;
  let sz := PGROUNDUP sz in
  let* sz1 := uvmalloc pagetable sz (u64 (sz + PGSIZE)) PTE_W in
  if sz1 =? 0 then exec_bad pagetable sz 0
  else
    let sz := sz1 in
    let stackbase := u64 (sz - PGSIZE) in
    let* r := exec_args argv pagetable sz stackbase [] in
    match r with
    | None => exec_bad pagetable sz 0
    | Some (sp, ustack) =>
        let argc := Z.of_nat (length ustack) in
        let sp := u64 (sp - (argc + 1) * 8) in
        let sp := u64 (sp - sp mod 16) in
        if sp <? stackbase then exec_bad pagetable sz 0
        else
          let* r := copyout pagetable sp (concat (le_split 8 <$> ustack ++ [0])) in
          if r <? 0 then exec_bad pagetable sz 0
          else
            exec_commit p path pagetable sz oldsz sp entry ;;
            ret argc
    end.

Definition kexec (path : list Z) (argv : list (list Z)) : K F Z :=
  let* p := curproc in
  fs fs_begin_op ;;
  let* ip := fs (fs_namei path) in
  if ip =? 0 then fs fs_end_op ;; ret (-1)
  else
    fs (fs_ilock ip) ;;
    let* bs := fs (fs_readi ip 0 sizeof_elfhdr) in
    if negb (Z.of_nat (length bs) =? sizeof_elfhdr) then exec_bad 0 0 ip
    else
      let elf := parse_elfhdr bs in
      if negb (e_magic elf =? ELF_MAGIC) then exec_bad 0 0 ip
      else
        let* pagetable := proc_pagetable p in
        if pagetable =? 0 then exec_bad 0 0 ip
        else
          exec_files p ip ;;
          let* r := exec_segments (Z.to_nat (e_phnum elf)) ip (s32 (e_phoff elf)) 0 in
          match r with
          | inl sz => exec_bad pagetable sz ip
          | inr sz =>
              fs (fs_iunlockput ip) ;;
              fs fs_end_op ;;
              exec_image p path argv pagetable sz (e_entry elf)
          end.

(** [forkret], with [fsinit(ROOTDEV)] as an argument: returns the control
    registers and [satp] for the return to user space. *)
Definition forkret `{Devices F} (fsinit : M F unit) (c : csr) : K F (csr * Z) :=
  let* p := curproc in
  release (LProc p) ;;
  let* s := get in
  (if k_first s then
     fs fsinit ;;
     modify (set_k_first false) ;;
     let init := [47; 105; 110; 105; 116] in
     let* r := kexec init [init] in
     let* pr := getp p in
     store64 (p_trapframe pr + tf_a 0) (u64 r) ;;
     let* a0 := load64 (p_trapframe pr + tf_a 0) in
     if a0 =? u64 (-1) then panic "exec" else ret tt
   else ret tt) ;;
  let* c := prepare_return c in
  let* pr := getp p in
  ret (c, MAKE_SATP (p_pagetable pr)).
End exec.
