(* ===== verification/SysProc.v ===== *)
(** * Process system calls

    kernel/sysproc.c, and the argument access and the dispatcher of
    kernel/syscall.c. The file-system calls come in as an interface. *)

From S2P Require Import Prelude Riscv Kernel Str Kmem Swap Walk Replace Elf Vm Proc Trap.

Definition SBRK_EAGER : Z := 1.

(** ** kernel/memstat.h *)
Definition MAX_PAGES_INFO : Z := 128.
Definition UNMAPPED : Z := 0.
Definition RESIDENT : Z := 1.
Definition SWAPPED : Z := 2.

Record page_stat := mkPs {
  ps_va : Z;
  ps_state : Z;
  ps_is_dirty : Z;
  ps_seq : Z;
  ps_swap_slot : Z
}.

Record proc_mem_stat := mkPms {
  ms_pid : Z;
  ms_num_pages_total : Z;
  ms_num_resident_pages : Z;
  ms_num_swapped_pages : Z;
  ms_next_fifo_seq : Z;
  ms_pages : list page_stat
}.

(** The bytes of the structures; the pages that are not reported are 0. *)
Definition page_stat_bytes (ps : page_stat) : list Z :=
  concat (le_split 4 <$> [ps_va ps; ps_state ps; ps_is_dirty ps; ps_seq ps; ps_swap_slot ps]).
Definition proc_mem_stat_bytes (ms : proc_mem_stat) : list Z :=
  concat (le_split 4 <$> [ms_pid ms; ms_num_pages_total ms; ms_num_resident_pages ms;
                          ms_num_swapped_pages ms; ms_next_fifo_seq ms]) ++
  concat (page_stat_bytes <$> ms_pages ms) ++
  replicate ((128 - length (ms_pages ms)) * 20) 0.

(** Add one page to the report. *)
Definition ms_add (ms : proc_mem_stat) (ps : page_stat) : proc_mem_stat :=
  mkPms (ms_pid ms) (ms_num_pages_total ms)
    (if ps_state ps =? RESIDENT then s32 (ms_num_resident_pages ms + 1) else ms_num_resident_pages ms)
    (if ps_state ps =? SWAPPED then s32 (ms_num_swapped_pages ms + 1) else ms_num_swapped_pages ms)
    (ms_next_fifo_seq ms) (ms_pages ms ++ [ps]).

Section sysproc.
Context {F : Type} `{FsOps F} `{FileOps F} `{Image}.

(** *** Arguments *)

Definition argraw (n : Z) : K F Z :=
  let* p := curproc in
  let* pr := getp p in
  if (0 <=? n) && (n <=? 5) then load64 (p_trapframe pr + tf_a n) else panic "argraw".

Definition argint (n : Z) : K F Z := let* v := argraw n in ret (s32 v).
Definition argaddr (n : Z) : K F Z := argraw n.

Definition fetchaddr (addr : Z) : K F (Z * Z) :=
  let* p := curproc in
  let* pr := getp p in
  if (p_sz pr <=? addr) || (p_sz pr <? u64 (addr + 8)) then ret (-1, 0)
  else
    let* (r, bs) := copyin (p_pagetable pr) addr 8 in
    if negb (r =? 0) then ret (-1, 0) else ret (0, le_combine bs).

(** The length of the string, or [-1], and the bytes copied. *)
Definition fetchstr (addr : Z) (max : nat) : K F (Z * list Z) :=
  let* p := curproc in
  let* pr := getp p in
  let* (r, buf) := copyinstr (p_pagetable pr) addr max in
  if r <? 0 then ret (-1, buf) else ret (strlen buf, buf).

Definition argstr (n : Z) (max : nat) : K F (Z * list Z) :=
  let* addr := argaddr n in fetchstr addr max.

(** *** System calls *)

Definition sys_exit : K F Z :=
  let* n := argint 0 in kexit n ;; ret 0.

Definition sys_getpid : K F Z :=
  let* p := curproc in let* pr := getp p in ret (p_pid pr).

Definition sys_fork : K F Z := kfork.

Definition sys_wait : K F Z :=
  let* p := argaddr 0 in kwait p.

Definition sys_sbrk : K F Z :=
  let* n := argint 0 in
  let* t := argint 1 in
  let* p := curproc in
  let* pr := getp p in
  let addr := p_sz pr in
  if (t =? SBRK_EAGER) || (n <? 0) then
    let* r := growproc n in
    if r <? 0 then ret (-1) else ret addr
  else if u64 (addr + n) <? addr then ret (-1)
  else
    modp p (fun pr => set_p_sz (u64 (p_sz pr + n)) pr) ;;
    ret addr.

(** The loop of [sys_pause], with [LTicks] held. [sleep] leaves for the
    scheduler, so one run makes at most one pass. *)
Fixpoint pause_loop (fuel : nat) (n ticks0 : Z) : K F Z :=
  match fuel with
  | O => nofuel
  | S fuel =>
      let* s := get in
      if u32 (k_ticks s - ticks0) <? n then
        let* p := curproc in
        let* k := killed p in
        if negb (k =? 0) then release LTicks ;; ret (-1)
        else
          sleep ChTicks LTicks ;;
          pause_loop fuel n ticks0
      else release LTicks ;; ret 0
  end.

Definition sys_pause : K F Z :=
  let* n := argint 0 in
  let n := if n <? 0 then 0 else n in
  acquire LTicks ;;
  let* s := get in
  pause_loop 1 n (k_ticks s).

Definition sys_kill : K F Z :=
  let* pid := argint 0 in kkill pid.

Definition sys_uptime : K F Z :=
  acquire LTicks ;;
  let* s := get in
  release LTicks ;;
  ret (k_ticks s).

(** The report on one page. *)
Definition memstat_page (p : nat) (va : Z) : K F page_stat :=
  let* pr := getp p in
  let* pte := walk (p_pagetable pr) va false in
  if pte =? 0 then ret (mkPs (u32 va) UNMAPPED 0 (-1) (-1))
  else
    let* w := load64 pte in
    if has w PTE_V then
      let* seq := find_seq_in_resident_set p va in
      ret (mkPs (u32 va) RESIDENT (if has w PTE_D then 1 else 0) seq (-1))
    else if has w PTE_S then ret (mkPs (u32 va) SWAPPED 0 (-1) (s32 (PTE_SLOT w)))
    else ret (mkPs (u32 va) UNMAPPED 0 (-1) (-1)).

(** The loop over the address space: at most [MAX_PAGES_INFO] pages. *)
Fixpoint memstat_loop (fuel : nat) (p : nat) (va : Z) (ms : proc_mem_stat) : K F proc_mem_stat :=
  match fuel with
  | O => ret ms
  | S fuel =>
      let* pr := getp p in
      if va <? p_sz pr then
        let* ps := memstat_page p va in
        memstat_loop fuel p (u64 (va + PGSIZE)) (ms_add ms ps)
      else ret ms
  end.

Definition sys_memstat : K F Z :=
  let* p := curproc in
  let* user_info_ptr := argaddr 0 in
  let* pr := getp p in
  let ms := mkPms (p_pid pr) (s32 (p_sz pr / PGSIZE)) 0 0 (p_fifo_seq_num pr) [] in
  let* ms := memstat_loop (Z.to_nat MAX_PAGES_INFO) p 0 ms in
  let* pr := getp p in
  let* r := copyout (p_pagetable pr) user_info_ptr (proc_mem_stat_bytes ms) in
  if r <? 0 then ret (-1) else ret 0.

(** *** The dispatcher

    The handlers of the table other than those above, by number. *)
Variable sys_file : Z -> option (K F Z).

Definition sys_handler (num : Z) : option (K F Z) :=
  if num =? 1 then Some sys_fork
  else if num =? 2 then Some sys_exit
  else if num =? 3 then Some sys_wait
  else if num =? 6 then Some sys_kill
  else if num =? 11 then Some sys_getpid
  else if num =? 12 then Some sys_sbrk
  else if num =? 13 then Some sys_pause
  else if num =? 14 then Some sys_uptime
  else if num =? 22 then Some sys_memstat
  else sys_file num.

Definition syscall : K F unit :=
  let* p := curproc in
  let* pr := getp p in
  let tf := p_trapframe pr in
  let* a7 := load64 (tf + tf_a 7) in
  let num := s32 a7 in
  match (if (0 <? num) && (num <? 23) then sys_handler num else None) with
  | Some handler =>
      let* r := handler in
      store64 (tf + tf_a 0) (u64 r)
  | None =>
      printf (EvUnknownSyscall (p_pid pr) (p_name pr) num) ;;
      store64 (tf + tf_a 0) (u64 (-1))
  end.
End sysproc.
