(* ===== verification/Demo.v ===== *)
(** * A small machine

    A kernel with a dozen pages of memory, one process and the in-memory file
    system, for the examples: the states are obtained by running the model. *)

From S2P Require Import Prelude Riscv Kernel Mem Inv Queue Kmem Swap Walk Pt Replace ResidentSpec EvictSpec Check Elf Vm RamFs.

Definition demo_ram (n : nat) : gmap Z (list Z) :=
  list_to_map ((fun k => (PHYSTOP - Z.of_nat (S k) * PGSIZE, replicate 4096 0)) <$> seq 0 n).

Definition demo_proc : proc :=
  mkProc RUNNING NoChan 0 0 3 None 0 0x8000 0 0 (mkContext 0 0 []) [] 0 [] 0 0 0 0 0 0
    (replicate 128 0).

Definition demo_boot (n : nat) : kstate ramfs :=
  mkK (PHYSTOP - PGSIZE * Z.of_nat n) (demo_ram n) 0 [demo_proc] (Some 0%nat) None 1 0 false 0 [] [] []
    (mkRam ∅ [] 0).

(** Run a computation, and keep the state it ends in. *)
Definition exec {A} (c : K ramfs A) (s : kstate ramfs) : kstate ramfs :=
  match c s with Done _ s' => s' | _ => s end.

(** A trapframe, an empty page table, then heap pages by page faults. *)
Definition demo_setup (pages : list Z) : K ramfs unit :=
  kinit ;;
  let* tf := kalloc in
  modp 0 (set_p_trapframe tf) ;;
  let* pt := uvmcreate in
  modp 0 (set_p_pagetable pt) ;;
  foldr (fun va (k : K ramfs unit) => vmfault pt va ;; k) (ret tt) pages.

(** Free pages left: nine pages, two of the heap mapped. *)
Definition demo_free : kstate ramfs := Eval vm_compute in exec (demo_setup [0; 0x1000]) (demo_boot 12).

(** No page left: twelve pages, four of the heap mapped, the oldest at 0. *)
Definition demo_full : kstate ramfs :=
  Eval vm_compute in exec (demo_setup [0; 0x1000; 0x2000; 0x3000]) (demo_boot 12).

(** The process of a state. *)
Definition demo_pr (s : kstate ramfs) : proc := default demo_proc (k_procs s !! 0%nat).

(** Pages are numbered down from [PHYSTOP]. *)
Definition dpage (k : Z) : Z := PHYSTOP - k * PGSIZE.
Definition demo_root : Z := dpage 2.

Definition demo_base : list (Z * role) :=
  [(dpage 1, ROther); (demo_root, RTable demo_root []); (dpage 3, RUser demo_root 0);
   (dpage 4, RTable demo_root [0]); (dpage 5, RTable demo_root [0; 0]); (dpage 6, RNode 0);
   (dpage 7, RUser demo_root 0x1000); (dpage 8, RNode 0)].

Definition demo_free_own : gmap Z role :=
  list_to_map (demo_base ++ [(dpage 9, RFree); (dpage 10, RFree); (dpage 11, RFree); (dpage 12, RFree)]).
Definition demo_full_own : gmap Z role :=
  list_to_map (demo_base ++ [(dpage 9, RUser demo_root 0x2000); (dpage 10, RNode 0);
                             (dpage 11, RUser demo_root 0x3000); (dpage 12, RNode 0)]).

Definition demo_free_q : list rnode := [mkRn (dpage 6) 0 0; mkRn (dpage 8) 0x1000 1].
Definition demo_full_q : list rnode :=
  demo_free_q ++ [mkRn (dpage 10) 0x2000 2; mkRn (dpage 12) 0x3000 3].

Lemma demo_free_pinv : pinv demo_free_own demo_free 0 (demo_pr demo_free) demo_free_q.
Proof.
  apply (pinvb_sound _ [dpage 9; dpage 10; dpage 11; dpage 12]); [|reflexivity].
  by vm_compute.
Qed.

Lemma demo_full_pinv : pinv demo_full_own demo_full 0 (demo_pr demo_full) demo_full_q.
Proof.
  apply (pinvb_sound _ []); [|reflexivity]. by vm_compute.
Qed.
