(* ===== verification/WalkSpec.v ===== *)
(** * Building page tables

    [walk] with creation and [mappages] under the invariant: they may evict
    pages of the running process, they never change another mapping. *)

From S2P Require Import Prelude Riscv Kernel Mem Inv Queue Kmem Swap Walk Pt Replace ResidentSpec EvictSpec AllocSpec Elf Vm.

(** What growing page tables may change: as [kext], and in addition it links
    new tables. [root] is the address space that loses pages. *)
Record kgrow (root : Z) (i : nat) (own own' : gmap Z role) (m m' : gmap Z (list Z)) : Prop := {
  kg_role : forall pa r, own !! pa = Some r -> r <> RFree -> r <> RNode i ->
    (forall va, r <> RUser root va) -> own' !! pa = Some r;
  kg_mem : forall pa r, own !! pa = Some r -> r <> RFree -> r <> RNode i ->
    (forall va, r <> RUser root va) -> is_table r = false -> m' !! pa = m !! pa;
  kg_table : forall pa rt path pg j, own !! pa = Some (RTable rt path) ->
    (length path < 2)%nat -> m !! pa = Some pg -> 0 <= j < 512 ->
    has (pg64 pg (8 * j)) PTE_V = true ->
    exists pg', m' !! pa = Some pg' /\ pg64 pg' (8 * j) = pg64 pg (8 * j);
  kg_pte : forall rt va, own !! rt = Some (RTable rt []) -> 0 <= va < MAXVA ->
    pteval m' rt va = pteval m rt va \/
    (rt = root /\ has (pteval m rt va) PTE_V = true /\ has (pteval m' rt va) PTE_V = false);
  kg_user : forall pa va, own !! pa = Some (RUser root va) -> 0 <= va < MAXVA ->
    has (pteval m' root va) PTE_V = true ->
    own' !! pa = Some (RUser root va) /\ m' !! pa = m !! pa
}.

Lemma kgrow_refl root i own m : kgrow root i own own m m.
Proof. split; eauto. Qed.

Lemma kgrow_trans root i own1 own2 own3 m1 m2 m3 :
  own1 !! root = Some (RTable root []) ->
  kgrow root i own1 own2 m1 m2 -> kgrow root i own2 own3 m2 m3 -> kgrow root i own1 own3 m1 m3.
Proof.
  intros HR [R1 M1 T1 P1 U1] [R2 M2 T2 P2 U2].
  assert (HT : forall pa rt path, own1 !! pa = Some (RTable rt path) -> own2 !! pa = Some (RTable rt path))
    by eauto.
  split.
  - eauto.
  - intros. erewrite M2; eauto.
  - intros pa rt path pg j Hpa Hl Hpg Hj Hv.
    destruct (T1 _ _ _ _ _ Hpa Hl Hpg Hj Hv) as (pg2 & Hpg2 & E2).
    destruct (T2 _ _ _ _ _ (HT _ _ _ Hpa) Hl Hpg2 Hj ltac:(congruence)) as (pg3 & Hpg3 & E3).
    exists pg3. split; [done|congruence].
  - intros rt va Hrt Hva. destruct (P2 rt va (HT _ _ _ Hrt) Hva) as [->|(-> & Hv & Hv')];
      [by apply P1|].
    right. split; [done|]. split; [|done].
    destruct (P1 root va Hrt Hva) as [<-|(_ & _ & E)]; [done|congruence].
  - intros pa va Hr Hva Hv.
    assert (Hv2 : has (pteval m2 root va) PTE_V = true)
      by (destruct (P2 root va (HT _ _ _ HR) Hva) as [<-|(_ & ? & ?)]; [done|congruence]).
    destruct (U1 _ _ Hr Hva Hv2) as [Hr2 Hm2]. destruct (U2 _ _ Hr2 Hva Hv) as [? Hm3].
    split; [done|]. by rewrite Hm3.
Qed.

Lemma kext_kgrow root i own own' e m m' h :
  kinv own e m h -> kext root i own own' m m' -> kgrow root i own own' m m'.
Proof.
  intros KI X. pose proof X as [R M P U]. split.
  - done.
  - intros pa r ? ? ? ? Ht. eapply M; try done. intros path ->. done.
  - intros pa rt path pg j Hpa Hl Hpg Hj Hv. exists pg. split; [|done].
    rewrite <- Hpg. eapply M; try done. congruence.
  - intros rt va Hrt Hva. destruct (decide (rt = root)) as [->|].
    + destruct (P va Hva) as [|[]]; [by left|by right].
    + left. by eapply kext_other.
  - done.
Qed.

(** Tables that exist stay where they are. *)
Lemma pt_child_grow root i own own' e m m' h rt t path j c :
  kinv own e m h -> kgrow root i own own' m m' -> own !! t = Some (RTable rt path) ->
  (length path < 2)%nat -> 0 <= j < 512 -> pt_child m t j = Some c -> pt_child m' t j = Some c.
Proof.
  intros KI G Ht Hlen Hj Hc. destruct (ki_is_page _ _ _ _ KI _ _ Ht) as (pg & Hpg & _).
  rewrite (pt_child_eq _ _ _ _ Hpg) in Hc. destruct (has _ _) eqn:Hv; [|done].
  destruct (kg_table _ _ _ _ _ _ G _ _ _ _ _ Ht Hlen Hpg Hj Hv) as (pg' & Hpg' & E).
  rewrite (pt_child_eq _ _ _ _ Hpg'), E, Hv. done.
Qed.

Lemma pt_leaf_grow root i own own' e m m' h rt va p0 :
  kinv own e m h -> kgrow root i own own' m m' -> own !! rt = Some (RTable rt []) ->
  pt_leaf m rt va = Some p0 -> pt_leaf m' rt va = Some p0.
Proof.
  intros KI G Hrt Hl.
  unfold pt_leaf in *. destruct (pt_child m rt (PX 2 va)) as [p1|] eqn:E1; [|done].
  pose proof (PX_range 2 va ltac:(lia)) as X2. pose proof (PX_range 1 va ltac:(lia)) as X1.
  rewrite (pt_child_grow _ _ _ _ _ _ _ _ _ _ _ _ _ KI G Hrt ltac:(simpl; lia) X2 E1). simpl in *.
  eapply (pt_child_grow _ _ _ _ _ _ _ _ _ _ [PX 2 va]); [done..| |simpl; lia|done|done].
  exact (pt_child_role _ _ _ _ _ KI _ _ _ _ Hrt ltac:(simpl; lia) X2 E1).
Qed.

Section wstep.
Context {F : Type} `{FsOps F}.
Implicit Types s : kstate F.

(** The result of growing page tables on behalf of process [i]. *)
Record wstep (own : gmap Z role) s (i : nat) (pr : proc) (q : list rnode)
    (own' : gmap Z role) s' (pr' : proc) (q' : list rnode) : Prop := {
  ws_pinv : pinv own' s' i pr' q';
  ws_grow : kgrow (p_pagetable pr) i own own' (k_mem s) (k_mem s');
  ws_pext : pext pr pr';
  ws_state : exists fl m evs f, s' = kevict s fl m i pr' evs f;
  ws_queue : q' `suffix_of` q;
  ws_kept : forall va, 0 <= va < MAXVA -> unlisted q va ->
    pteval (k_mem s') (p_pagetable pr) va = pteval (k_mem s) (p_pagetable pr) va;
  ws_evol : evol (p_pagetable pr) (k_mem s) pr (k_fs s) (k_mem s') pr' (k_fs s')
}.

Lemma wstep_refl own s i pr q : pinv own s i pr q -> wstep own s i pr q own s pr q.
Proof.
  intros P. destruct (pstep_refl own s i pr q P) as [? _ ? ? ? ? ?]. split; try done.
  apply kgrow_refl.
Qed.

Lemma pstep_wstep own s i pr q own' s' pr' q' :
  pinv own s i pr q -> pstep own s i pr q own' s' pr' q' -> wstep own s i pr q own' s' pr' q'.
Proof.
  intros P [? ? ? ? ? ? ?]. split; try done.
  eapply kext_kgrow; [|done]. apply (rs_inv _ _ _ _ _ (pi_rs _ _ _ _ _ P)).
Qed.

Lemma wstep_trans own1 s1 i pr1 q1 own2 s2 pr2 q2 own3 s3 pr3 q3 :
  pinv own1 s1 i pr1 q1 ->
  wstep own1 s1 i pr1 q1 own2 s2 pr2 q2 -> wstep own2 s2 i pr2 q2 own3 s3 pr3 q3 ->
  wstep own1 s1 i pr1 q1 own3 s3 pr3 q3.
Proof.
  intros P [P1 K1 E1 (fl & m & evs & f & ->) Q1 U1 V1] [P2 K2 E2 (fl' & m' & evs' & f' & ->) Q2 U2 V2].
  rewrite (pext_pagetable _ _ E1) in K2, U2, V2. split.
  - done.
  - eapply kgrow_trans; [apply P|done..].
  - by eapply pext_trans.
  - exists fl', m', (evs ++ evs'), f'. apply kevict_kevict.
  - by etrans.
  - intros va Hva Hun. rewrite U2, U1; try done. intros x Hx. apply Hun.
    by eapply elem_of_suffix.
  - by eapply evol_trans.
Qed.

(** Replacing memory and roles around the queue of a process. *)
Lemma pinv_mem own own' s i pr q m' :
  pinv own s i pr q -> kinv own' (k_end s) m' (k_freelist s) ->
  (forall n, own !! n = Some (RNode i) <-> own' !! n = Some (RNode i)) ->
  (forall n, own !! n = Some (RNode i) -> m' !! n = k_mem s !! n) ->
  own' !! p_pagetable pr = Some (RTable (p_pagetable pr) []) ->
  (forall x, x ∈ q -> has (pteval m' (p_pagetable pr) (rn_va x)) PTE_V = true) ->
  pinv own' (set_k_mem m' s) i pr q.
Proof.
  intros P KI Hn Hm HR Hv. destruct P as [[] ? Hp ? ?]. split; [split|..]; try done.
  - by eapply qinv_agree.
  - apply Forall_forall. intros x Hx. rewrite Forall_forall in Hp.
    destruct (Hp x Hx) as (? & ? & _). split; [done|]. split; [done|]. by apply Hv.
Qed.

(** The pages an allocation can return. *)
Definition fresh (i : nat) (own : gmap Z role) (c : Z) : Prop :=
  own !! c = Some RFree \/ own !! c = Some (RNode i).

Lemma fresh_ne i own c pa r :
  fresh i own c -> own !! pa = Some r -> r <> RFree -> r <> RNode i -> c <> pa.
Proof. intros Hf ? ? ? ->. destruct Hf; congruence. Qed.

Lemma kgrow_write root i own own' m m' c pg :
  own !! root = Some (RTable root []) ->
  (forall rt va, own !! rt = Some (RTable rt []) ->
     pteval (<[c := pg]> m') rt va = pteval m' rt va) ->
  kgrow root i own own' m m' -> fresh i own c ->
  kgrow root i own own' m (<[c := pg]> m').
Proof.
  intros HR Hp [R M T P U] Hf. split.
  - done.
  - intros pa r Hpa ? ? ? ?. rewrite lookup_insert_ne by (by eapply fresh_ne). by eapply M.
  - intros pa rt path pg0 j Hpa. rewrite lookup_insert_ne by (by eapply fresh_ne). by eapply T.
  - intros rt va Hrt. rewrite Hp by done. by apply P.
  - intros pa va Hpa. rewrite Hp by done. rewrite lookup_insert_ne by (by eapply fresh_ne). by apply U.
Qed.

(** Writing to the page just allocated. *)
Lemma wstep_write own s i pr q own' s' pr' q' c pg :
  pinv own s i pr q -> wstep own s i pr q own' s' pr' q' ->
  fresh i own c -> own' !! c = Some RLoose -> length pg = Z.to_nat PGSIZE ->
  wstep own s i pr q own' (set_k_mem (<[c := pg]> (k_mem s')) s') pr' q'.
Proof.
  intros P [P' G E (fl & m & evs & f & ->) Q U V] Hf Hc Hlen.
  pose proof (rs_inv _ _ _ _ _ (pi_rs _ _ _ _ _ P')) as KI'.
  assert (Hp : forall rt va, own' !! rt = Some (RTable rt []) ->
    pteval (<[c := pg]> m) rt va = pteval m rt va).
  { intros rt va Hrt. eapply pteval_insert; [exact KI'|done|]. congruence. }
  split; try done.
  - eapply pinv_mem; [exact P'|..].
    + eapply kinv_write; [exact KI'|done..].
    + done.
    + intros n Hn. rewrite lookup_insert_ne by congruence. done.
    + apply P'.
    + intros x Hx. ksimpl. rewrite Hp by apply P'.
      pose proof (pi_pages _ _ _ _ _ P') as Hpg. rewrite Forall_forall in Hpg.
      by destruct (Hpg x Hx) as (_ & _ & ?).
  - eapply kgrow_write; [apply P| |done|done]. intros rt va Hrt. apply Hp.
    by apply (kg_role _ _ _ _ _ _ G _ _ Hrt).
  - by exists fl, (<[c := pg]> m), evs, f.
  - intros va Hva Hun. ksimpl. rewrite Hp by (rewrite <- (pext_pagetable _ _ E); apply P').
    by apply U.
  - eapply evol_trans; [exact V|]. apply evol_same; [|done..]. intros va Hva. ksimpl.
    apply Hp. rewrite <- (pext_pagetable _ _ E). apply P'.
Qed.

Section link.
Context (own : gmap Z role) (s : kstate F) (i : nat) (pr : proc) (q : list rnode)
  (own' : gmap Z role) (s' : kstate F) (pr' : proc) (q' : list rnode)
  (rt t : Z) (path : list Z) (pgt : list Z) (j c : Z).
Hypothesis P : pinv own s i pr q.
Hypothesis W : wstep own s i pr q own' s' pr' q'.
Hypothesis Hrt : own' !! rt = Some (RTable rt []).
Hypothesis Ht : own' !! t = Some (RTable rt path).
Hypothesis Hlen : (length path < 2)%nat.
Hypothesis Hpgt : k_mem s' !! t = Some pgt.
Hypothesis Hj : 0 <= j < 512.
Hypothesis Hinv : has (pg64 pgt (8 * j)) PTE_V = false.
Hypothesis Hf : fresh i own c.
Hypothesis Hc : own' !! c = Some RLoose.
Hypothesis Hpgc : k_mem s' !! c = Some (fill 0).
Let own2 := <[c := RTable rt (path ++ [j])]> own'.
Let m2 := <[t := pg64_set pgt (8 * j) (Z.lor (PA2PTE c) PTE_V)]> (k_mem s').

Local Lemma link_KI : kinv own' (k_end s') (k_mem s') (k_freelist s').
Proof. apply (rs_inv _ _ _ _ _ (pi_rs _ _ _ _ _ (ws_pinv _ _ _ _ _ _ _ _ _ W))). Qed.

Local Lemma link_pteval rt' va : own' !! rt' = Some (RTable rt' []) ->
  pteval m2 rt' va = pteval (k_mem s') rt' va.
Proof.
  intros Hrt'. destruct (decide (rt' = rt)) as [->|].
  - by eapply pteval_link; [exact link_KI|..].
  - eapply pteval_insert; [exact link_KI|done|]. congruence.
Qed.

Local Lemma link_kgrow : kgrow (p_pagetable pr) i own own2 (k_mem s) m2.
Proof.
  pose proof (ws_grow _ _ _ _ _ _ _ _ _ W) as [R M T Pt U].
  pose proof (ki_mem _ _ _ _ link_KI _ _ Hpgt) as (Hl & _ & _). split.
  - intros pa r Hpa ? ? ?. unfold own2. rewrite lookup_insert_ne by (by eapply fresh_ne). eauto.
  - intros pa r Hpa ? ? Hu Htb. unfold m2. rewrite lookup_insert_ne; [by eapply M|].
    intros <-. rewrite (R _ _ Hpa) in Ht by done. by simplify_eq.
  - intros pa rt' path' pg k Hpa Hlp Hpg Hk Hv.
    destruct (T _ _ _ _ _ Hpa Hlp Hpg Hk Hv) as (pg1 & Hpg1 & E1).
    unfold m2. destruct (decide (pa = t)) as [->|]; [|by rewrite lookup_insert_ne; eauto].
    rewrite lookup_insert_eq. eexists. split; [done|]. rewrite Hpgt in Hpg1. simplify_eq.
    destruct (decide (k = j)) as [->|]; [congruence|]. rewrite pg64_set_other by klia. done.
  - intros rt' va Hrt'. rewrite link_pteval by eauto. by apply Pt.
  - intros pa va Hpa Hva. rewrite link_pteval by (apply (R _ _ (pi_root _ _ _ _ _ P)); done).
    intros Hv. destruct (U _ _ Hpa Hva Hv) as [Hr Hm]. unfold own2, m2.
    rewrite lookup_insert_ne by congruence. split; [done|].
    rewrite lookup_insert_ne by congruence. done.
Qed.

Lemma wstep_link : wstep own s i pr q own2 (set_k_mem m2 s') pr' q'.
Proof.
  pose proof W as [P' G E (fl & m & evs & f & Es) Q U V]. split; try done.
  - eapply pinv_mem; [exact P'|..].
    + by eapply kinv_link; [exact link_KI|..].
    + intros n. unfold own2. destruct (decide (n = c)) as [->|]; [|by rewrite lookup_insert_ne].
      rewrite lookup_insert_eq. split; congruence.
    + intros n Hn. unfold m2. rewrite lookup_insert_ne by congruence. done.
    + pose proof (pi_root _ _ _ _ _ P'). unfold own2. rewrite lookup_insert_ne by congruence. done.
    + intros x Hx. rewrite link_pteval by apply P'.
      pose proof (pi_pages _ _ _ _ _ P') as Hpg. rewrite Forall_forall in Hpg.
      by destruct (Hpg x Hx) as (_ & _ & ?).
  - exact link_kgrow.
  - exists fl, m2, evs, f. by rewrite Es.
  - intros va Hva Hun. ksimpl. rewrite link_pteval by (rewrite <- (pext_pagetable _ _ E); apply P').
    by apply U.
  - eapply evol_trans; [exact V|]. apply evol_same; [|done..]. intros va Hva. ksimpl.
    apply link_pteval. rewrite <- (pext_pagetable _ _ E). apply P'.
Qed.
End link.

(** *** [walk] with creation *)

Lemma wstep_cur own s i pr q own' s' pr' q' :
  wstep own s i pr q own' s' pr' q' -> k_cur s' = k_cur s.
Proof. intros [_ _ _ (fl & m & evs & f & ->) _ _ _]. done. Qed.

Lemma wstep_role own s i pr q own' s' pr' q' pa rt path :
  wstep own s i pr q own' s' pr' q' -> own !! pa = Some (RTable rt path) ->
  own' !! pa = Some (RTable rt path).
Proof. intros W Hpa. by apply (kg_role _ _ _ _ _ _ (ws_grow _ _ _ _ _ _ _ _ _ W) _ _ Hpa). Qed.

(** One level: the next table exists afterwards, or memory is exhausted. *)
Lemma walk_step own s i pr q rt t path level levels va Q :
  pinv own s i pr q -> k_cur s = Some i -> own !! rt = Some (RTable rt []) ->
  own !! t = Some (RTable rt path) -> (length path < 2)%nat -> 0 <= level ->
  (forall own' s' pr' q' c, wstep own s i pr q own' s' pr' q' ->
     pt_child (k_mem s') t (PX level va) = Some c ->
     wpe swap_stop (walk_levels kalloc levels c va true) Q s') ->
  (forall own' s' pr', wstep own s i pr q own' s' pr' [] -> k_freelist s' = 0 -> Q 0 s') ->
  wpe swap_stop (walk_levels kalloc (level :: levels) t va true) Q s.
Proof.
  intros P Hcur Hrt Ht Hlen Hlv Hok Hfail. pose proof (rs_inv _ _ _ _ _ (pi_rs _ _ _ _ _ P)) as KI.
  pose proof (PX_range level va Hlv) as Hx.
  destruct (ki_is_page _ _ _ _ KI _ _ Ht) as (pgt & Hpgt). cbn [walk_levels].
  unfold wpe. kstep by (by eapply load_entry; [exact KI|done|apply Hpgt|]).
  destruct (has _ PTE_V) eqn:Hv.
  { eapply Hok; [by apply wstep_refl|]. by rewrite (pt_child_eq _ _ _ _ (proj1 Hpgt)), Hv. }
  cbn [negb]. apply wpe_bind. eapply wpe_mono; [by eapply kalloc_pstep|done|].
  intros c s1 (own1 & pr1 & q1 & PS & [(-> & -> & -> & _ & Hfl)|(Hc & Hmc & Hf)]).
  { rewrite Z.eqb_refl. pose proof (suffix_nil_inv _ (ps_queue _ _ _ _ _ _ _ _ _ PS)) as ->.
    eapply wpe_done; [done|]. eapply Hfail; [|done]. by apply pstep_wstep. }
  pose proof (ps_pinv _ _ _ _ _ _ _ _ _ PS) as P1.
  pose proof (rs_inv _ _ _ _ _ (pi_rs _ _ _ _ _ P1)) as KI1.
  rewrite (proj2 (Z.eqb_neq c 0)) by (by eapply (ki_nonzero _ _ _ _ KI1)).
  pose proof (wstep_write _ _ _ _ _ _ _ _ _ c (fill 0) P (pstep_wstep _ _ _ _ _ _ _ _ _ P PS)
    Hf Hc (length_fill 0)) as W2.
  destruct (ki_is_page _ _ _ _ KI1 _ _ Hc) as (pgc & Hpgc).
  assert (Hne : t <> c) by (intros ->; destruct Hf; congruence).
  assert (Ht1 : k_mem s1 !! t = Some pgt).
  { rewrite <- (proj1 Hpgt). apply (kx_mem _ _ _ _ _ _ (ps_kext _ _ _ _ _ _ _ _ _ PS) _ _ Ht);
      try done. congruence. }
  unfold wpe. kstep by (by eapply memset_page_eq).
  kstep by (eapply (store64_page _ t pgt); [|klia]; split; [ksimpl; by rewrite lookup_insert_ne|apply Hpgt]).
  ksimpl. eapply Hok.
  - eapply (wstep_link _ _ _ _ _ _ _ _ _ rt t path pgt (PX level va) c P W2); try done.
    all: first [by eapply wstep_role|ksimpl; by rewrite lookup_insert_ne|ksimpl; apply lookup_insert_eq].
  - ksimpl. eapply pt_child_link; try done.
    all: first [apply (rs_inv _ _ _ _ _ (pi_rs _ _ _ _ _ (ws_pinv _ _ _ _ _ _ _ _ _ W2)))
      |by eapply wstep_role|ksimpl; by rewrite lookup_insert_ne|ksimpl; apply lookup_insert_eq].
Qed.

Lemma walk_alloc own s i pr q rt va :
  pinv own s i pr q -> k_cur s = Some i -> own !! rt = Some (RTable rt []) -> 0 <= va < MAXVA ->
  wpe swap_stop (walk rt va true) (fun r s' => exists own' pr' q',
    wstep own s i pr q own' s' pr' q' /\
    (r = 0 /\ q' = [] /\ k_freelist s' = 0 \/
     exists p0, pt_leaf (k_mem s') rt va = Some p0 /\ r = p0 + 8 * PX 0 va)) s.
Proof.
  intros P Hcur Hrt Hva. unfold walk, walk_with. rewrite (proj2 (Z.leb_gt _ _)) by lia.
  pose proof (PX_range 2 va ltac:(lia)) as X2. pose proof (PX_range 1 va ltac:(lia)) as X1.
  eapply walk_step; [done..|simpl; lia|lia| |].
  2:{ intros own1 s1 pr1 W Hfl. exists own1, pr1, []. split; [done|]. by left. }
  intros own1 s1 pr1 q1 p1 W1 Hc1. pose proof (ws_pinv _ _ _ _ _ _ _ _ _ W1) as P1.
  pose proof (rs_inv _ _ _ _ _ (pi_rs _ _ _ _ _ P1)) as KI1.
  pose proof (wstep_role _ _ _ _ _ _ _ _ _ _ _ _ W1 Hrt) as Hrt1.
  pose proof (pt_child_role _ _ _ _ _ KI1 _ _ _ _ Hrt1 ltac:(simpl; lia) X2 Hc1) as Hp1.
  eapply walk_step; [exact P1|by rewrite (wstep_cur _ _ _ _ _ _ _ _ _ W1)|exact Hrt1|exact Hp1|
    simpl; lia|lia| |].
  2:{ intros own2 s2 pr2 W2 Hfl. exists own2, pr2, [].
      split; [by eapply wstep_trans|]. by left. }
  intros own2 s2 pr2 q2 p0 W2 Hc2. cbn [walk_levels]. eapply wpe_done; [done|].
  exists own2, pr2, q2. split; [by eapply wstep_trans|]. right. exists p0. split; [|done].
  unfold pt_leaf.
  rewrite (pt_child_grow _ _ _ _ _ _ _ _ _ _ _ _ _ KI1 (ws_grow _ _ _ _ _ _ _ _ _ W2) Hrt1
    ltac:(simpl; lia) X2 Hc1). done.
Qed.

(** *** Mapping one page *)

(** The entry [mappages] writes. *)
Definition map_pte (pa perm : Z) : Z := Z.lor (Z.lor (PA2PTE pa) perm) PTE_V.

Lemma map_pte_spec pa perm :
  0 <= pa < 2 ^ 56 -> pa mod 4096 = 0 -> 0 <= perm < 1024 ->
  u64 (map_pte pa perm) = map_pte pa perm /\ has (map_pte pa perm) PTE_V = true /\
  PTE2PA (map_pte pa perm) = pa.
Proof.
  intros Hpa Ha Hperm. unfold map_pte. rewrite <- Z.lor_assoc.
  assert (Hf : 0 <= Z.lor perm PTE_V < 1024).
  { split; [apply Z.lor_nonneg; split; [lia|done]|]. change 1024 with (2 ^ 10).
    apply Z.log2_lt_cancel. rewrite Z.log2_lor by (lia || done).
    destruct (decide (perm = 0)) as [->|]; [done|].
    apply Z.max_lub_lt; [|done]. apply Z.log2_lt_pow2; simpl; lia. }
  split; [|split].
  - rewrite pte_add by klia. apply u64_small.
    assert (pa / 4096 < 2 ^ 44) by (apply Z.div_lt_upper_bound; lia).
    pose proof (Z.div_pos pa 4096). klia.
  - rewrite has_V, testbit_pte by klia. rewrite Z.lor_spec. by rewrite orb_true_r.
  - apply PTE2PA_pte; klia.
Qed.

(** The state after the entry has been written. *)
Record mapped (own : gmap Z role) s (i : nat) (pr : proc) (q : list rnode) (rt va pa perm : Z)
    (own' : gmap Z role) s' (pr' : proc) (q' : list rnode) : Prop := {
  mp_pinv : pinv own' s' i pr' q';
  mp_pext : pext pr pr';
  mp_state : exists fl m evs f, s' = kevict s fl m i pr' evs f;
  mp_queue : q' `suffix_of` q;
  mp_kept : forall va', 0 <= va' < MAXVA -> unlisted q va' ->
    rt <> p_pagetable pr \/ va' / 4096 <> va / 4096 ->
    pteval (k_mem s') (p_pagetable pr) va' = pteval (k_mem s) (p_pagetable pr) va';
  mp_pte : pteval (k_mem s') rt va = map_pte pa perm;
  mp_evol : rt = p_pagetable pr -> has (pteval (k_mem s) rt va) PTE_V = false ->
    swapped (pteval (k_mem s) rt va) = false ->
    evol (p_pagetable pr) (k_mem s) pr (k_fs s) (k_mem s') pr' (k_fs s');
  mp_grow : exists own1 m1, kgrow (p_pagetable pr) i own own1 (k_mem s) m1 /\
    own' = <[pa := RUser rt va]> own1 /\
    (forall pa' r, own1 !! pa' = Some r -> is_table r = false -> k_mem s' !! pa' = m1 !! pa') /\
    forall rt' va', own !! rt' = Some (RTable rt' []) -> 0 <= va' < MAXVA ->
      rt' <> rt \/ va' / 4096 <> va / 4096 -> pteval (k_mem s') rt' va' = pteval m1 rt' va'
}.

Section map_leaf.
Context (own : gmap Z role) (s : kstate F) (i : nat) (pr : proc) (q : list rnode)
  (own1 : gmap Z role) (s1 : kstate F) (pr1 : proc) (q1 : list rnode)
  (rt va pa perm p0 : Z) (pg : list Z).
Hypothesis P : pinv own s i pr q.
Hypothesis W : wstep own s i pr q own1 s1 pr1 q1.
Hypothesis Hrt : own1 !! rt = Some (RTable rt []).
Hypothesis Hpa : own1 !! pa = Some RLoose.
Hypothesis Ha : va mod PGSIZE = 0.
Hypothesis Hva : 0 <= va < TRAPFRAME.
Hypothesis Hperm : 0 <= perm < 1024.
Hypothesis Hl : pt_leaf (k_mem s1) rt va = Some p0.
Hypothesis Hpg : k_mem s1 !! p0 = Some pg.
Hypothesis Hinv : has (pteval (k_mem s1) rt va) PTE_V = false.
Let own' := <[pa := RUser rt va]> own1.
Let m' := <[p0 := pg64_set pg (8 * PX 0 va) (map_pte pa perm)]> (k_mem s1).

Local Lemma ml_KI : kinv own1 (k_end s1) (k_mem s1) (k_freelist s1).
Proof. apply (rs_inv _ _ _ _ _ (pi_rs _ _ _ _ _ (ws_pinv _ _ _ _ _ _ _ _ _ W))). Qed.

Local Lemma ml_KI' : kinv own' (k_end s1) (k_mem s1) (k_freelist s1).
Proof. eapply kinv_role; [exact ml_KI|exact Hpa|done..]. Qed.

Local Lemma ml_role : own1 !! p0 = Some (RTable rt [PX 2 va; PX 1 va]).
Proof. by apply (pt_leaf_role _ _ _ _ _ ml_KI Hrt). Qed.

Local Lemma ml_rt : own' !! rt = Some (RTable rt []).
Proof. unfold own'. rewrite lookup_insert_ne by congruence. done. Qed.

Local Lemma ml_w : u64 (map_pte pa perm) = map_pte pa perm /\
  has (map_pte pa perm) PTE_V = true /\ PTE2PA (map_pte pa perm) = pa.
Proof.
  pose proof (ki_range _ _ _ _ ml_KI _ _ Hpa) as [? ?]. pose proof (ki_end _ _ _ _ ml_KI).
  apply map_pte_spec; [klia|done|done].
Qed.

Local Lemma ml_va : va / 4096 * 4096 = va.
Proof. kdlia. Qed.

Lemma ml_kinv : kinv own' (k_end s1) m' (k_freelist s1).
Proof.
  destruct ml_w as (Eu & _ & Epa).
  eapply kinv_set_leaf; [exact ml_KI'|exact ml_rt|klia|exact Hl|exact Hpg|].
  intros _ _. rewrite Eu, Epa, ml_va. apply lookup_insert_eq.
Qed.

Lemma ml_pteval va' : 0 <= va' < MAXVA ->
  pteval m' rt va' =
  if decide (va' / 4096 = va / 4096) then map_pte pa perm else pteval (k_mem s1) rt va'.
Proof.
  intros Hva'. destruct ml_w as (Eu & _ & _). rewrite <- Eu.
  apply (pteval_set_leaf _ _ _ _ _ ml_KI Hrt); try done. klia.
Qed.

Lemma ml_pteval_other rt' va' : own1 !! rt' = Some (RTable rt' []) -> 0 <= va' < MAXVA ->
  rt' <> rt \/ va' / 4096 <> va / 4096 -> pteval m' rt' va' = pteval (k_mem s1) rt' va'.
Proof.
  intros Hrt' Hva' Hne. destruct (decide (rt' = rt)) as [->|].
  - rewrite ml_pteval by done. rewrite decide_False; naive_solver.
  - eapply pteval_insert; [exact ml_KI|done|]. intros path. rewrite ml_role. congruence.
Qed.

Lemma map_leaf :
  mapped own s i pr q rt va pa perm own' (set_k_mem m' s1) pr1 q1.
Proof.
  pose proof W as [P1 G E (fl & m & evs & f & Es) Q U V]. split; try done.
  - eapply pinv_mem; [exact P1|exact ml_kinv|..].
    + intros n. unfold own'. destruct (decide (n = pa)) as [->|]; [|by rewrite lookup_insert_ne].
      rewrite lookup_insert_eq. split; congruence.
    + intros n Hn. pose proof ml_role. unfold m'. rewrite lookup_insert_ne by congruence. done.
    + pose proof (pi_root _ _ _ _ _ P1). unfold own'. rewrite lookup_insert_ne by congruence. done.
    + intros x Hx. pose proof (pi_pages _ _ _ _ _ P1) as Hps. rewrite Forall_forall in Hps.
      destruct (Hps x Hx) as (Hxa & Hxr & Hxv). rewrite ml_pteval_other; [done|apply P1|klia|].
      destruct (decide (p_pagetable pr1 = rt)) as [Er|]; [right|by left]. intros Ep.
      rewrite Er in Hxv. replace (rn_va x) with va in Hxv by kdlia. congruence.
  - exists fl, m', evs, f. by rewrite Es.
  - intros va' Hva' Hun Hne. ksimpl. rewrite ml_pteval_other; [by apply U|..|done|naive_solver].
    rewrite <- (pext_pagetable _ _ E). apply P1.
  - ksimpl. rewrite ml_pteval by klia. by rewrite decide_True.
  - intros Ert Hnv Hsw. eapply evol_trans; [exact V|]. apply (evol_map _ _ _ _ _ va (map_pte pa perm)).
    + klia.
    + rewrite <- Ert. pose proof (pi_root _ _ _ _ _ P) as HR. rewrite <- Ert in HR.
      destruct (kg_pte _ _ _ _ _ _ G rt va HR ltac:(klia)) as [->|(_ & ? & _)]; [done|congruence].
    + apply ml_w.
    + intros va' Hva'. rewrite <- Ert. by apply ml_pteval.
  - exists own1, (k_mem s1). split; [done|]. split; [done|]. ksimpl. split.
    + intros pa' r Hr Htb. unfold m'. rewrite lookup_insert_ne; [done|]. intros <-.
      rewrite ml_role in Hr. by simplify_eq.
    + intros rt' va' Hrt'. apply ml_pteval_other. by eapply wstep_role.
Qed.
End map_leaf.

(** [mappages] for one page that is not mapped yet: the page is mapped, or
    memory is exhausted and nothing is. The changes are relative to an earlier
    state [s0]. *)
Lemma mappages_one own0 s0 i pr0 q0 own s pr q rt va pa perm :
  pinv own0 s0 i pr0 q0 -> wstep own0 s0 i pr0 q0 own s pr q ->
  k_cur s = Some i -> own !! rt = Some (RTable rt []) ->
  va mod PGSIZE = 0 -> 0 <= va < TRAPFRAME -> 0 <= perm < 1024 ->
  own !! pa = Some RLoose -> has (pteval (k_mem s) rt va) PTE_V = false ->
  wpe swap_stop (mappages rt va PGSIZE pa perm) (fun r s' => exists own' pr' q',
    own' !! pa = Some RLoose /\ k_mem s' !! pa = k_mem s !! pa /\
    r = -1 /\ wstep own0 s0 i pr0 q0 own' s' pr' q' /\ q' = [] /\ k_freelist s' = 0 \/
    k_mem s' !! pa = k_mem s !! pa /\
    r = 0 /\ mapped own0 s0 i pr0 q0 rt va pa perm own' s' pr' q') s.
Proof.
  intros P0 W0 Hcur Hrt Ha Hva Hperm Hpa Hinv. unfold mappages. rewrite Ha, Z.eqb_refl.
  change (PGSIZE mod PGSIZE =? 0) with true. change (PGSIZE =? 0) with false. cbn [negb].
  change (Z.to_nat (PGSIZE / PGSIZE)) with 1%nat. cbn [mappages_loop].
  pose proof (ws_pinv _ _ _ _ _ _ _ _ _ W0) as P.
  apply wpe_bind. eapply wpe_mono; [eapply walk_alloc; [done..|klia]|done|].
  intros r s1 (own1 & pr1 & q1 & W & Hcase).
  pose proof (ws_grow _ _ _ _ _ _ _ _ _ W) as G.
  assert (Hpa1 : own1 !! pa = Some RLoose) by (by apply (kg_role _ _ _ _ _ _ G _ _ Hpa)).
  assert (Hm1 : k_mem s1 !! pa = k_mem s !! pa) by (by apply (kg_mem _ _ _ _ _ _ G _ _ Hpa)).
  pose proof (wstep_trans _ _ _ _ _ _ _ _ _ _ _ _ _ P0 W0 W) as W1.
  destruct Hcase as [(-> & -> & Hfl)|(p0 & Hl & ->)].
  { eapply wpe_done; [done|]. exists own1, pr1, []. by left. }
  pose proof (ws_pinv _ _ _ _ _ _ _ _ _ W) as P1.
  pose proof (rs_inv _ _ _ _ _ (pi_rs _ _ _ _ _ P1)) as KI1.
  pose proof (wstep_role _ _ _ _ _ _ _ _ _ _ _ _ W Hrt) as Hrt1.
  assert (Hinv1 : has (pteval (k_mem s1) rt va) PTE_V = false).
  { destruct (kg_pte _ _ _ _ _ _ G rt va Hrt ltac:(klia)) as [->|(_ & ? & ?)]; done. }
  rewrite (proj2 (Z.eqb_neq _ _)) by (by eapply (slot_nonzero _ _ _ _ _ KI1 Hrt1)).
  destruct (pteval_leaf _ _ _ _ _ KI1 Hrt1 _ _ Hl) as (pg & Hpg & Ew).
  pose proof (PX_range 0 va ltac:(lia)).
  unfold wpe. kstep by (by eapply load_entry; [exact KI1|done|exact Hpg|]).
  rewrite <- Ew, Hinv1. kstep by (eapply (store64_page _ p0 pg); [|klia];
    destruct (ki_mem _ _ _ _ KI1 _ _ Hpg) as (? & ? & _); done).
  replace (u64 (va + PGSIZE - PGSIZE)) with va
    by (replace (va + PGSIZE - PGSIZE) with va by lia; rewrite u64_small; klia).
  rewrite Z.eqb_refl. exists (<[pa := RUser rt va]> own1), pr1, q1. right. split.
  - ksimpl. pose proof (pt_leaf_role _ _ _ _ _ KI1 Hrt1 _ _ Hl).
    rewrite lookup_insert_ne by congruence. done.
  - split; [done|]. by apply map_leaf.
Qed.
End wstep.
