(* ===== verification/FaultSpec.v ===== *)
(** * The page-fault handler

    [add_to_resident_set] appends to the queue, and [vmfault] maps the faulting
    page and records it. *)

From S2P Require Import Prelude Riscv Kernel Mem Inv Queue Kmem Swap Walk Pt Replace ResidentSpec EvictSpec AllocSpec Elf Vm WalkSpec.

Section append.
Context (own : gmap Z role) (e : Z) (m : gmap Z (list Z)) (fl : Z) (i : nat)
  (head tail : Z) (q : list rnode) (x : rnode) (pgx : list Z).
Hypothesis KI : kinv own e m fl.
Hypothesis Q : qinv own m i head tail q.
Hypothesis Hr : own !! rn_node x = Some RLoose.
Hypothesis Hx : m !! rn_node x = Some pgx.
Hypothesis Hva : pg64 pgx rp_va = rn_va x.
Hypothesis Hseq : pg32 pgx rp_seq = rn_seq x.
Hypothesis Hnext : pg64 pgx rp_next = 0.
Let m1 := unlink m q (rn_node x).
Let own1 := <[rn_node x := RNode i]> own.

Lemma append_node y : y ∈ (rn_node <$> q) -> own !! y = Some (RNode i) /\ y <> rn_node x.
Proof. intros Hy. apply (qi_role _ _ _ _ _ _ Q) in Hy. split; [done|]. congruence. Qed.

Lemma append_agree pa : own !! pa <> Some (RNode i) -> m1 !! pa = m !! pa.
Proof.
  intros Hpa. unfold m1, unlink. destruct (last q) as [y|] eqn:Hl; [|done].
  destruct (m !! rn_node y) as [pgy|]; [|done]. apply lookup_insert_ne. intros <-.
  apply Hpa, (qi_role _ _ _ _ _ _ Q). apply last_Some in Hl as (l & Eq). rewrite Eq.
  clear. set_solver.
Qed.

Lemma append_kinv : kinv own1 e m1 fl.
Proof.
  assert (KI1 : kinv own e m1 fl).
  { unfold m1, unlink. destruct (last q) as [y|] eqn:Hl; [|done].
    apply last_Some in Hl as (l & Eq).
    destruct (append_node (rn_node y)) as [Hry _]; [rewrite Eq; clear; set_solver|].
    destruct (ki_is_page _ _ _ _ KI _ _ Hry) as (pgy & Hy & Hly & _).
    rewrite Hy. eapply kinv_write; [exact KI|exact Hry|done| |done].
    rewrite length_pg64_set; [done|]. unfold rp_next. klia. }
  eapply kinv_role; [exact KI1|exact Hr|done..].
Qed.

Lemma append_seg : rq_seg m1 (match q with [] => rn_node x | _ => head end) (q ++ [x]) 0.
Proof.
  assert (Hlast : rq_seg m1 (rn_node x) [x] 0).
  { simpl. split; [done|]. exists pgx. rewrite append_agree by congruence. done. }
  apply rq_seg_app. exists (rn_node x). split; [|done].
  destruct (last q) as [y|] eqn:Hl.
  2:{ apply last_None in Hl. by rewrite Hl. }
  pose proof Hl as Hl'. apply last_Some in Hl' as (l & Eq).
  destruct (append_node (rn_node y)) as [Hry _]; [rewrite Eq; clear; set_solver|].
  destruct (ki_is_page _ _ _ _ KI _ _ Hry) as (pgy & Hy & Hly & _).
  replace (match q with [] => rn_node x | _ => head end) with head by (by rewrite Eq; destruct l).
  pose proof (ki_range _ _ _ _ KI _ _ Hr) as [? _]. pose proof (ki_end _ _ _ _ KI).
  unfold m1, unlink. rewrite Hl, Hy. rewrite Eq. apply (rq_seg_relink _ _ _ _ 0); try done.
  - rewrite <- Eq. apply Q.
  - rewrite <- Eq. apply Q.
  - klia.
Qed.

Lemma append_qinv :
  qinv own1 m1 i (match q with [] => rn_node x | _ => head end) (rn_node x) (q ++ [x]).
Proof.
  split.
  - apply append_seg.
  - by rewrite qtail_snoc.
  - rewrite fmap_app. apply NoDup_app. split; [apply Q|]. split; [|apply NoDup_singleton].
    intros y Hy. apply append_node in Hy as [_ Hne]. set_solver.
  - intros n. unfold own1. rewrite fmap_app, elem_of_app.
    destruct (decide (n = rn_node x)) as [->|].
    + rewrite lookup_insert_eq. split; [done|]. intros _. right. simpl. by left.
    + rewrite lookup_insert_ne by done. rewrite <- (qi_role _ _ _ _ _ _ Q). set_solver.
Qed.
End append.

(** The node [add_to_resident_set] fills in. *)
Definition node_page (pg : list Z) (va seq : Z) : list Z :=
  pg64_set (pg32_set (pg64_set pg rp_va va) rp_seq seq) rp_next 0.

Lemma node_page_spec pg va seq :
  length pg = Z.to_nat PGSIZE ->
  length (node_page pg va seq) = Z.to_nat PGSIZE /\ pg64 (node_page pg va seq) rp_va = u64 va /\
  pg32 (node_page pg va seq) rp_seq = s32 seq /\ pg64 (node_page pg va seq) rp_next = 0.
Proof.
  intros Hl. unfold node_page, rp_va, rp_seq, rp_next.
  assert (H1 : length (pg64_set pg 8 va) = Z.to_nat PGSIZE) by (rewrite length_pg64_set; klia).
  assert (H2 : length (pg32_set (pg64_set pg 8 va) 16 seq) = Z.to_nat PGSIZE)
    by (rewrite length_pg32_set; klia).
  split; [rewrite length_pg64_set; klia|]. split; [|split].
  - rewrite pg64_set_other, pg64_set32_other, pg64_set_same by klia. done.
  - rewrite pg32_set64_other, pg32_set_same by klia. done.
  - rewrite pg64_set_same by klia. done.
Qed.

Section add.
Context {F : Type} `{FsOps F}.
Implicit Types s : kstate F.

(** [add_to_resident_set] after its [kalloc]. *)
Definition add_node (p : nat) (va seq_num node : Z) : K F unit :=
  store64 (node + rp_va) va ;;
  store32 (node + rp_seq) seq_num ;;
  store64 (node + rp_next) 0 ;;
  acquire (LProc p) ;;
  let* pr := getp p in
  (if p_resident_set_head pr =? 0 then
     modp p (set_p_resident_set_head node) ;;
     modp p (set_p_resident_set_tail node)
   else
     store64 (p_resident_set_tail pr + rp_next) node ;;
     modp p (set_p_resident_set_tail node)) ;;
  release (LProc p).

Lemma add_split p va seq s :
  add_to_resident_set p va seq s =
  (let* node := kalloc in
   if node =? 0 then panic "add_to_resident_set: kalloc failed" else add_node p va seq node) s.
Proof. done. Qed.

Section node.
Context (own : gmap Z role) (s : kstate F) (i : nat) (pr : proc) (q : list rnode)
  (node va seq : Z) (pg : list Z).
Hypothesis P : pinv own s i pr q.
Hypothesis Hr : own !! node = Some RLoose.
Hypothesis Hpg : k_mem s !! node = Some pg.
Hypothesis Hva : 0 <= va < TRAPFRAME.
Let x := mkRn node va (s32 seq).
Let m2 := <[node := node_page pg va seq]> (k_mem s).
Let m3 := unlink m2 q node.
Let pr' := set_ends (match q with [] => node | _ => p_resident_set_head pr end) node pr.
Let own' := <[node := RNode i]> own.

Local Lemma add_KI : kinv own (k_end s) (k_mem s) (k_freelist s).
Proof. apply (rs_inv _ _ _ _ _ (pi_rs _ _ _ _ _ P)). Qed.
Local Lemma add_page : is_page (k_mem s) node pg.
Proof. destruct (ki_mem _ _ _ _ add_KI _ _ Hpg) as (? & ? & ?). done. Qed.

Lemma add_node_eq :
  add_node i va seq node s = Done tt (kupd s (k_freelist s) m3 i pr').
Proof.
  pose proof add_page as (_ & Hl & Ha). pose proof (pi_rs _ _ _ _ _ P) as R.
  pose proof (rs_q _ _ _ _ _ R) as Q. pose proof (rs_plock _ _ _ _ _ R) as Hlk.
  pose proof (rs_proc _ _ _ _ _ R) as Hp. pose proof (lookup_lt_Some _ _ _ Hp) as Hi.
  assert (L1 : length (pg64_set pg rp_va va) = Z.to_nat PGSIZE)
    by (unfold rp_va; rewrite length_pg64_set; klia).
  assert (L2 : length (pg32_set (pg64_set pg rp_va va) rp_seq seq) = Z.to_nat PGSIZE)
    by (unfold rp_seq; rewrite length_pg32_set; klia).
  unfold add_node.
  kstep by (eapply store64_page; [exact add_page|unfold rp_va; klia]).
  kstep by (eapply (store32_page _ node); [|unfold rp_seq; klia]; ksimpl;
    split; [apply lookup_insert_eq|done]).
  ksimpl. rewrite insert_insert_eq.
  kstep by (eapply (store64_page _ node); [|unfold rp_next; klia]; ksimpl;
    split; [apply lookup_insert_eq|done]).
  ksimpl. rewrite insert_insert_eq. fold (node_page pg va seq). fold m2.
  kstep by (by apply acquire_eq). kstep by (by apply getp_eq).
  destruct (last q) as [y|] eqn:Hlast.
  - pose proof Hlast as Hl'. apply last_Some in Hl' as (l & Eq).
    assert (Hy : rn_node y ∈ (rn_node <$> q)) by (rewrite Eq; clear; set_solver).
    destruct (rs_node _ _ _ _ _ _ R Hy) as [Hry (pgy & Hpgy & Hly & Hay)].
    assert (Hh : p_resident_set_head pr <> 0).
    { pose proof (qi_seg _ _ _ _ _ _ Q) as Hs. rewrite Eq in Hs.
      destruct l as [|z l]; simpl in Hs; destruct Hs as [-> _];
        apply (ki_nonzero _ _ _ _ add_KI _ (RNode i)), (qi_role _ _ _ _ _ _ Q);
        rewrite Eq; clear; set_solver. }
    rewrite (proj2 (Z.eqb_neq _ _)) by done.
    assert (Et : p_resident_set_tail pr = rn_node y)
      by (rewrite (qi_tail _ _ _ _ _ _ Q); unfold qtail; by rewrite Hlast).
    assert (Hm2 : m2 !! rn_node y = Some pgy)
      by (unfold m2; rewrite lookup_insert_ne by congruence; done).
    rewrite Et. kstep by (eapply (store64_page _ (rn_node y) pgy); [done|unfold rp_next; klia]).
    kstep by (eapply modp_eq; ksimpl; done).
    erewrite release_eq; [|ksimpl; done|done]. unfold kupd, m3, unlink, pr'. rewrite Hlast, Hm2.
    rewrite Eq. f_equal. destruct l; by destruct s, pr.
  - apply last_None in Hlast.
    assert (Eh : p_resident_set_head pr = 0).
    { pose proof (qi_seg _ _ _ _ _ _ Q) as Hs. by rewrite Hlast in Hs. }
    rewrite Eh, Z.eqb_refl. kstep by (eapply modp_eq; ksimpl; done).
    kstep by (eapply modp_eq; ksimpl; by apply list_lookup_insert_eq).
    erewrite release_eq; [|ksimpl; done|done]. unfold kupd, m3, unlink, pr'. rewrite Hlast.
    cbn [last]. ksimpl. rewrite list_insert_insert_eq. f_equal.
Qed.

Hypothesis Ha : va mod PGSIZE = 0.
Hypothesis Hv : has (pteval (k_mem s) (p_pagetable pr) va) PTE_V = true.
Hypothesis Hun : unlisted q va.

Local Lemma add_x : m2 !! node = Some (node_page pg va seq) /\
  pg64 (node_page pg va seq) rp_va = rn_va x /\ pg32 (node_page pg va seq) rp_seq = rn_seq x /\
  pg64 (node_page pg va seq) rp_next = 0.
Proof.
  destruct (node_page_spec pg va seq) as (_ & E1 & E2 & E3); [apply add_page|].
  split; [apply lookup_insert_eq|]. split; [|done]. rewrite E1. change (rn_va x) with va. apply u64_small. klia.
Qed.

Local Lemma add_KI2 : kinv own (k_end s) m2 (k_freelist s).
Proof.
  eapply kinv_write; [exact add_KI|exact Hr|done| |done]. apply node_page_spec, add_page.
Qed.

Local Lemma add_Q2 :
  qinv own m2 i (p_resident_set_head pr) (p_resident_set_tail pr) q.
Proof.
  eapply qinv_agree; [apply (rs_q _ _ _ _ _ (pi_rs _ _ _ _ _ P))|done|].
  intros n Hn. unfold m2. rewrite lookup_insert_ne by congruence. done.
Qed.

(** Only the nodes of the process change. *)
Lemma add_frame pa : pa <> node -> own !! pa <> Some (RNode i) -> m3 !! pa = k_mem s !! pa.
Proof.
  intros Hne Hpa. unfold m3. change node with (rn_node x) at 1.
  rewrite (append_agree own _ i _ _ _ x add_Q2 pa Hpa).
  unfold m2. rewrite lookup_insert_ne by done. done.
Qed.

Lemma add_pteval rt va' : own !! rt = Some (RTable rt []) -> pteval m3 rt va' = pteval (k_mem s) rt va'.
Proof.
  intros Hrt. eapply pteval_agree; [exact add_KI|done|]. intros pa path Hpa.
  apply add_frame; congruence.
Qed.

Lemma add_pinv : pinv own' (kupd s (k_freelist s) m3 i pr') i pr' (q ++ [x]).
Proof.
  destruct add_x as (E0 & E1 & E2 & E3). pose proof (pi_rs _ _ _ _ _ P) as R.
  pose proof (lookup_lt_Some _ _ _ (rs_proc _ _ _ _ _ R)) as Hi.
  assert (Hroot : own' !! p_pagetable pr = Some (RTable (p_pagetable pr) [])).
  { pose proof (pi_root _ _ _ _ _ P). unfold own'. rewrite lookup_insert_ne by congruence. done. }
  split; [split|..].
  - exact (append_kinv _ _ _ _ _ _ _ _ x add_KI2 add_Q2 Hr).
  - unfold kupd; ksimpl. by apply list_lookup_insert_eq.
  - exact (append_qinv _ _ _ _ _ _ _ _ x _ add_KI2 add_Q2 Hr E0 E1 E2 E3).
  - apply R.
  - apply R.
  - exact Hroot.
  - apply Forall_app. split.
    + eapply Forall_impl; [apply (pi_pages _ _ _ _ _ P)|]. intros y (? & ? & ?).
      split; [done|]. split; [done|]. unfold kupd; ksimpl. rewrite add_pteval by apply P. done.
    + apply Forall_singleton. split; [done|]. split; [done|]. unfold kupd; ksimpl.
      rewrite add_pteval by apply P. done.
  - rewrite fmap_app. apply NoDup_app. split; [apply P|]. split; [|apply NoDup_singleton].
    intros y Hy. apply list_elem_of_fmap in Hy as (z & -> & Hz). intros Hin.
    apply list_elem_of_singleton in Hin. apply (Hun z Hz). by rewrite Hin.
  - apply P.
Qed.
End node.

Lemma kupd_kevict s fl m i pr evs (f : F) fl' m' pr' :
  kupd (kevict s fl m i pr evs f) fl' m' i pr' = kevict s fl' m' i pr' evs f.
Proof. unfold kupd, kevict, kupd; ksimpl. by rewrite list_insert_insert_eq. Qed.

Lemma set_ends_pext h t pr : pext pr (set_ends h t pr).
Proof.
  exists (p_killed pr), h, t, (p_swap_inode pr), (p_swap_slots pr). by destruct pr.
Qed.

Lemma kgrow_node root i own own1 m m1 m3 node :
  own !! root = Some (RTable root []) -> kgrow root i own own1 m m1 ->
  fresh i own node -> own1 !! node = Some RLoose ->
  (forall rt va, own !! rt = Some (RTable rt []) -> pteval m3 rt va = pteval m1 rt va) ->
  (forall pa, pa <> node -> own1 !! pa <> Some (RNode i) -> m3 !! pa = m1 !! pa) ->
  kgrow root i own (<[node := RNode i]> own1) m m3.
Proof.
  intros HR [R M T Pt U] Hf Hn Hp Hm. split.
  - intros pa r Hpa ? ? ?. rewrite lookup_insert_ne by (by eapply fresh_ne). eauto.
  - intros pa r Hpa ? ? ? ?. pose proof (R _ _ Hpa ltac:(done) ltac:(done) ltac:(done)).
    rewrite Hm; [by eapply M| |congruence]. by eapply not_eq_sym, fresh_ne.
  - intros pa rt path pg j Hpa Hl Hpg Hj Hv.
    pose proof (R _ _ Hpa ltac:(done) ltac:(done) ltac:(done)).
    rewrite Hm; [by eapply T| |congruence]. by eapply not_eq_sym, fresh_ne.
  - intros rt va Hrt. rewrite Hp by done. by apply Pt.
  - intros pa va Hpa Hva. rewrite Hp by done. intros Hv.
    destruct (U _ _ Hpa Hva Hv) as [Hr E].
    rewrite lookup_insert_ne by (by eapply fresh_ne). split; [done|].
    rewrite Hm; [done| |congruence]. by eapply not_eq_sym, fresh_ne.
Qed.

(** The ways [add_to_resident_set] does not return. *)
Definition add_stop (x : stop) : Prop :=
  swap_stop (F := F) x \/ x = SPanic "add_to_resident_set: kalloc failed".

Lemma add_spec own s i pr q va seq :
  pinv own s i pr q -> k_cur s = Some i -> va mod PGSIZE = 0 -> 0 <= va < TRAPFRAME ->
  has (pteval (k_mem s) (p_pagetable pr) va) PTE_V = true -> unlisted q va ->
  wpe add_stop (add_to_resident_set i va seq) (fun _ s' => exists own' pr' q' node,
    pinv own' s' i pr' (q' ++ [mkRn node va (s32 seq)]) /\ q' `suffix_of` q /\
    kgrow (p_pagetable pr) i own own' (k_mem s) (k_mem s') /\ pext pr pr' /\
    (exists fl m evs f, s' = kevict s fl m i pr' evs f) /\
    evol (p_pagetable pr) (k_mem s) pr (k_fs s) (k_mem s') pr' (k_fs s') /\
    forall va', 0 <= va' < MAXVA -> unlisted q va' ->
      pteval (k_mem s') (p_pagetable pr) va' = pteval (k_mem s) (p_pagetable pr) va') s.
Proof.
  intros P Hcur Ha Hva Hv Hun. unfold wpe. rewrite add_split. apply wpe_bind.
  eapply wpe_mono; [by eapply kalloc_pstep|by left|].
  intros node s1 (own1 & pr1 & q1 & PS & [(-> & _)|(Hc & Hmc & Hf)]).
  { rewrite Z.eqb_refl. by right. }
  pose proof (ps_pinv _ _ _ _ _ _ _ _ _ PS) as P1.
  pose proof (rs_inv _ _ _ _ _ (pi_rs _ _ _ _ _ P1)) as KI1.
  rewrite (proj2 (Z.eqb_neq node 0)) by (by eapply (ki_nonzero _ _ _ _ KI1)).
  eapply wpe_done; [by eapply add_node_eq|].
  pose proof (ps_pext _ _ _ _ _ _ _ _ _ PS) as E. pose proof (pext_pagetable _ _ E) as Ept.
  pose proof (ps_queue _ _ _ _ _ _ _ _ _ PS) as Hq.
  pose proof (ps_kept _ _ _ _ _ _ _ _ _ PS) as Hk.
  assert (Hun1 : unlisted q1 va) by (intros y Hy; apply Hun; by eapply elem_of_suffix).
  assert (Hv1 : has (pteval (k_mem s1) (p_pagetable pr1) va) PTE_V = true)
    by (rewrite Ept, Hk by (done || klia); done).
  assert (Hroot1 : own1 !! p_pagetable pr = Some (RTable (p_pagetable pr) []))
    by (rewrite <- Ept; apply P1).
  exists (<[node := RNode i]> own1). do 2 eexists. exists node.
  pose proof (ps_evol _ _ _ _ _ _ _ _ _ PS) as V.
  split; [by eapply add_pinv|]. split; [done|]. split; [|split; [|split; [|split]]].
  - eapply kgrow_node; [apply P| |done|done|..].
    + eapply kext_kgrow; [apply (rs_inv _ _ _ _ _ (pi_rs _ _ _ _ _ P))|].
      exact (ps_kext _ _ _ _ _ _ _ _ _ PS).
    + intros rt va' Hrt. eapply add_pteval; [done..|].
      by apply (kx_role _ _ _ _ _ _ (ps_kext _ _ _ _ _ _ _ _ _ PS) _ _ Hrt).
    + intros pa Hne Hpa. by eapply add_frame.
  - eapply pext_trans; [exact E|]. apply set_ends_pext.
  - destruct (ps_state _ _ _ _ _ _ _ _ _ PS) as (fl & m & evs & f & ->).
    do 2 eexists. exists evs, f. apply kupd_kevict.
  - eapply evol_trans; [exact V|]. apply evol_same; [|done..]. intros va' Hva'.
    unfold kupd; ksimpl. by eapply add_pteval.
  - intros va' Hva' Hun'. unfold kupd; ksimpl. erewrite add_pteval by done. by apply Hk.
Qed.
End add.

(** ** What a page fault may change *)

(** As [kgrow], but for the page at [va0] of [root], which gets mapped. *)
Record kfault (root va0 : Z) (i : nat) (own own' : gmap Z role) (m m' : gmap Z (list Z)) : Prop := {
  kf_role : forall pa r, own !! pa = Some r -> r <> RFree -> r <> RNode i ->
    (forall va, r <> RUser root va) -> own' !! pa = Some r;
  kf_mem : forall pa r, own !! pa = Some r -> r <> RFree -> r <> RNode i ->
    (forall va, r <> RUser root va) -> is_table r = false -> m' !! pa = m !! pa;
  kf_pte : forall rt va, own !! rt = Some (RTable rt []) -> 0 <= va < MAXVA ->
    rt <> root \/ va / 4096 <> va0 / 4096 -> pteval m' rt va = pteval m rt va \/
    (rt = root /\ has (pteval m rt va) PTE_V = true /\ has (pteval m' rt va) PTE_V = false);
  kf_user : forall pa va, own !! pa = Some (RUser root va) -> 0 <= va < MAXVA ->
    va / 4096 <> va0 / 4096 -> has (pteval m' root va) PTE_V = true ->
    own' !! pa = Some (RUser root va) /\ m' !! pa = m !! pa
}.

Lemma kgrow_kfault root va0 i own own' m m' :
  kgrow root i own own' m m' -> kfault root va0 i own own' m m'.
Proof. intros [R M T P U]. split; eauto. Qed.

Lemma kfault_grow root va0 i own own1 own2 m m1 m2 :
  own !! root = Some (RTable root []) ->
  kfault root va0 i own own1 m m1 -> kgrow root i own1 own2 m1 m2 ->
  kfault root va0 i own own2 m m2.
Proof.
  intros HR [R1 M1 P1 U1] [R2 M2 T2 P2 U2].
  assert (HT : forall pa rt path, own !! pa = Some (RTable rt path) ->
    own1 !! pa = Some (RTable rt path)) by eauto.
  split.
  - eauto.
  - intros. erewrite M2; eauto.
  - intros rt va Hrt Hva Hne. destruct (P2 rt va (HT _ _ _ Hrt) Hva) as [->|(-> & Hv & Hv')];
      [by apply P1|].
    right. split; [done|]. split; [|done].
    destruct (P1 root va Hrt Hva Hne) as [<-|(_ & _ & E)]; [done|congruence].
  - intros pa va Hr Hva Hne Hv.
    assert (Hv2 : has (pteval m1 root va) PTE_V = true)
      by (destruct (P2 root va (HT _ _ _ HR) Hva) as [<-|(_ & ? & ?)]; [done|congruence]).
    destruct (U1 _ _ Hr Hva Hne Hv2) as [Hr2 Hm2]. destruct (U2 _ _ Hr2 Hva Hv) as [? Hm3].
    split; [done|]. by rewrite Hm3.
Qed.

Section fault.
Context {F : Type} `{FsOps F}.
Implicit Types s : kstate F.

Lemma mapped_kfault own s i pr q va pa perm own' s' pr' q' :
  pinv own s i pr q -> fresh i own pa ->
  mapped own s i pr q (p_pagetable pr) va pa perm own' s' pr' q' ->
  kfault (p_pagetable pr) va i own own' (k_mem s) (k_mem s').
Proof.
  intros P Hf [_ _ _ _ _ _ _ (own1 & m1 & [R M T Pt U] & -> & Hm & Hp)]. split.
  - intros pa' r Hpa ? ? ?. rewrite lookup_insert_ne by (by eapply fresh_ne). eauto.
  - intros pa' r Hpa ? ? ? ?. rewrite (Hm pa' r) by eauto. by eapply M.
  - intros rt va' Hrt Hva Hne. rewrite Hp by done. by apply Pt.
  - intros pa' va' Hpa Hva Hne. rewrite Hp; [|apply P|done|by right]. intros Hv.
    destruct (U _ _ Hpa Hva Hv) as [Hr Em].
    rewrite lookup_insert_ne by (by eapply fresh_ne). split; [done|]. by rewrite (Hm _ _ Hr).
Qed.

(** The page at [va] has been recorded, the sequence number advanced, and the
    last messages are [tail]. *)
Definition noted (own : gmap Z role) s (i : nat) (pr : proc) (q : list rnode) (va : Z)
    (tail : Z -> Z -> Z -> list event) s' : Prop :=
  exists own' pr' q' node,
    pinv own' s' i pr' (q' ++ [mkRn node va (s32 (p_fifo_seq_num pr))]) /\ q' `suffix_of` q /\
    kgrow (p_pagetable pr) i own own' (k_mem s) (k_mem s') /\
    pext (set_p_fifo_seq_num (s32 (p_fifo_seq_num pr + 1)) pr) pr' /\
    (exists fl m evs f, s' = kevict s fl m i pr'
       (evs ++ tail (p_pid pr) va (p_fifo_seq_num pr)) f) /\
    evol (p_pagetable pr) (k_mem s) pr (k_fs s) (k_mem s') pr' (k_fs s') /\
    forall va', 0 <= va' < MAXVA -> unlisted q va' ->
      pteval (k_mem s') (p_pagetable pr) va' = pteval (k_mem s) (p_pagetable pr) va'.

(** A piece of code that records the page it finds mapped at [va]. *)
Definition notes (i : nat) (va : Z) (c : K F unit) (tail : Z -> Z -> Z -> list event) : Prop :=
  forall own s pr q,
    pinv own s i pr q -> k_cur s = Some i -> va mod PGSIZE = 0 -> 0 <= va < TRAPFRAME ->
    has (pteval (k_mem s) (p_pagetable pr) va) PTE_V = true -> unlisted q va ->
    wpe add_stop c (fun _ s' => noted own s i pr q va tail s') s.

Lemma note_spec i va ev :
  notes i va (note_resident i va ev) (fun pid va seq => [ev pid va; EvResident pid va seq]).
Proof.
  intros own s pr q P Hcur Ha Hva Hv Hun. unfold note_resident.
  pose proof (rs_proc _ _ _ _ _ (pi_rs _ _ _ _ _ P)) as Hp.
  pose proof (lookup_lt_Some _ _ _ Hp) as Hi.
  unfold wpe. kstep by (by apply getp_eq). apply wpe_bind.
  eapply wpe_mono; [by eapply add_spec|done|].
  intros [] s1 (own1 & pr1 & q1 & node & P1 & Hq & G & E & (fl & m & evs & f & ->) & V & Hk).
  assert (Epid : p_pid pr1 = p_pid pr /\ p_fifo_seq_num pr1 = p_fifo_seq_num pr)
    by (by destruct E as (? & ? & ? & ? & ? & ->)). destruct Epid as [Epid Eseq].
  unfold wpe. kstep by (by apply getp_nf). rewrite Epid, Eseq.
  do 2 kstep by (by apply printf_nf). rewrite modp_nf by done. cbn beta. rewrite Eseq.
  exists own1, (set_p_fifo_seq_num (s32 (p_fifo_seq_num pr + 1)) pr1), q1, node. split; [|split; [done|split; [done|split; [|split; [|split]]]]].
  - destruct P1 as [[? ? ? ? ?] ? ? ? ?]. split; [split|..]; try done. by apply kevict_proc.
  - destruct E as (k & h & t & si & sl & ->). exists k, h, t, si, sl. by destruct pr.
  - exists fl, m, evs, f. by rewrite <- app_assoc.
  - eapply evol_trans; [exact V|]. by apply evol_same.
  - done.
Qed.

(** A page that is not mapped is not in the resident set. *)
Lemma unmapped_unlisted own s i pr q va :
  pinv own s i pr q -> 0 <= va ->
  has (pteval (k_mem s) (p_pagetable pr) va) PTE_V = false -> unlisted q va.
Proof.
  intros P Hva Hinv x Hx E. pose proof (pi_pages _ _ _ _ _ P) as Hp. rewrite Forall_forall in Hp.
  destruct (Hp x Hx) as (_ & Hr & Hv).
  rewrite (pteval_same_page _ _ _ va) in Hv by (done || lia). congruence.
Qed.

(** Freeing an unlinked page. *)
Definition kfreed (c : Z) s : kstate F :=
  set_k_freelist c (set_k_mem (<[c := free_page (k_freelist s)]> (k_mem s)) s).

Section freed.
Context (own : gmap Z role) (s : kstate F) (i : nat) (pr : proc) (q : list rnode) (c : Z).
Hypothesis P : pinv own s i pr q.
Hypothesis Hc : own !! c = Some RLoose.

Local Lemma freed_KI : kinv own (k_end s) (k_mem s) (k_freelist s).
Proof. apply (rs_inv _ _ _ _ _ (pi_rs _ _ _ _ _ P)). Qed.

Lemma freed_kfree : kfree c s = Done tt (kfreed c s) /\
  kinv (<[c := RFree]> own) (k_end s) (k_mem (kfreed c s)) c.
Proof.
  destruct (kfree_spec _ _ _ freed_KI Hc (rs_kmem _ _ _ _ _ (pi_rs _ _ _ _ _ P)))
    as (s2 & Ek & -> & KI2). done.
Qed.

Lemma freed_pteval rt va : own !! rt = Some (RTable rt []) ->
  pteval (k_mem (kfreed c s)) rt va = pteval (k_mem s) rt va.
Proof. intros Hrt. eapply pteval_insert; [exact freed_KI|done|]. congruence. Qed.

Lemma freed_pinv : pinv (<[c := RFree]> own) (kfreed c s) i pr q.
Proof.
  pose proof (pi_root _ _ _ _ _ P). pose proof (pi_rs _ _ _ _ _ P) as R. split; [split|..].
  - apply freed_kfree.
  - apply R.
  - eapply qinv_frame; [apply (rs_q _ _ _ _ _ R)|done..].
  - apply R.
  - apply R.
  - rewrite lookup_insert_ne by congruence. done.
  - eapply Forall_impl; [apply (pi_pages _ _ _ _ _ P)|]. intros y (? & ? & ?).
    split; [done|]. split; [done|]. by rewrite freed_pteval.
  - apply P.
  - apply P.
Qed.
End freed.

(** Freeing the page just allocated. *)
Lemma wstep_free own s i pr q own' s' pr' q' c :
  pinv own s i pr q -> wstep own s i pr q own' s' pr' q' ->
  fresh i own c -> own' !! c = Some RLoose ->
  exists own2 s2, kfree c s' = Done tt s2 /\ wstep own s i pr q own2 s2 pr' q' /\
    k_fs s2 = k_fs s' /\ k_console s2 = k_console s'.
Proof.
  intros P W Hf Hc. pose proof W as [P' G E (fl & m & evs & f & Es) Q U V].
  exists (<[c := RFree]> own'), (kfreed c s'). split; [by eapply freed_kfree|].
  assert (Hroot : own' !! p_pagetable pr = Some (RTable (p_pagetable pr) []))
    by (rewrite <- (pext_pagetable _ _ E); apply P').
  split; [|done]. split; try done.
  - by eapply freed_pinv.
  - destruct (kgrow_write (p_pagetable pr) i own own' (k_mem s) (k_mem s') c
      (free_page (k_freelist s'))) as [R2 M2 T2 P2 U2]; try done.
    + apply P.
    + intros rt va Hrt. eapply (freed_pteval own' s'); [done..|].
      by apply (kg_role _ _ _ _ _ _ G _ _ Hrt).
    + split; try done.
      * intros pa r Hpa ? ? ?. rewrite lookup_insert_ne by (by eapply fresh_ne). eauto.
      * intros pa va Hpa Hva Hv. rewrite lookup_insert_ne by (by eapply fresh_ne). eauto.
  - subst s'. by eexists c, _, evs, f.
  - intros va Hva Hun. erewrite freed_pteval by done. by apply U.
  - eapply evol_trans; [exact V|]. apply evol_same; [|done..]. intros va Hva. by eapply freed_pteval.
Qed.

Lemma ismapped_eq own s i pr q va :
  pinv own s i pr q -> 0 <= va < MAXVA ->
  ismapped (p_pagetable pr) va s = Done (has (pteval (k_mem s) (p_pagetable pr) va) PTE_V) s.
Proof.
  intros P Hva. pose proof (rs_inv _ _ _ _ _ (pi_rs _ _ _ _ _ P)) as KI.
  pose proof (pi_root _ _ _ _ _ P) as HR. unfold ismapped, walk.
  erewrite bind_done by (rewrite walk_with_noalloc; by eapply walk0_eq).
  destruct (pt_leaf (k_mem s) (p_pagetable pr) va) as [p0|] eqn:Hl.
  - rewrite (proj2 (Z.eqb_neq _ _)) by (by eapply (slot_nonzero _ _ _ _ _ KI HR)).
    destruct (pteval_leaf _ _ _ _ _ KI HR _ _ Hl) as (pg & Hpg & Ew).
    kstep by (eapply load_entry; [exact KI|done|exact Hpg|by apply PX_range]). by rewrite Ew.
  - by rewrite (pteval_None _ _ _ Hl).
Qed.

(** The two results of a page fault at page [va]: the page is mapped with the
    given permissions and contents and is the youngest of the resident set; or
    nothing was mapped, for a reason [why] that may refer to the resident set
    that is left. *)
Definition fault_done (own : gmap Z role) s (i : nat) (pr : proc) (q : list rnode)
    (va perm : Z) (data : list Z) (tail : Z -> Z -> Z -> list event) (r : Z) s' : Prop :=
  exists own' pr' q' node,
    pinv own' s' i pr' (q' ++ [mkRn node va (s32 (p_fifo_seq_num pr))]) /\ q' `suffix_of` q /\
    kfault (p_pagetable pr) va i own own' (k_mem s) (k_mem s') /\
    pext (set_p_fifo_seq_num (s32 (p_fifo_seq_num pr + 1)) pr) pr' /\
    (exists fl m evs f, s' = kevict s fl m i pr'
       (evs ++ tail (p_pid pr) va (p_fifo_seq_num pr)) f) /\
    pteval (k_mem s') (p_pagetable pr) va = map_pte r perm /\
    own' !! r = Some (RUser (p_pagetable pr) va) /\ k_mem s' !! r = Some data /\
    (swapped (pteval (k_mem s) (p_pagetable pr) va) = false ->
     evol (p_pagetable pr) (k_mem s) pr (k_fs s) (k_mem s') pr' (k_fs s')).

Definition fault_none (own : gmap Z role) s (i : nat) (pr : proc) (q : list rnode) (va : Z)
    (why : list rnode -> Prop) (r : Z) s' :=
  r = 0 /\ exists own' pr' q', wstep own s i pr q own' s' pr' q' /\
    has (pteval (k_mem s') (p_pagetable pr) va) PTE_V = false /\ why q'.

(** The reason for anonymous memory: every resident page has been evicted and
    there still is no memory. *)
Definition nomem (q' : list rnode) : Prop := q' = [].

(** The messages of the anonymous and of the loaded pages. *)
Definition alloc_tail (pid va seq : Z) : list event := [EvAlloc pid va; EvResident pid va seq].
Definition load_tail (pid va seq : Z) : list event := [EvLoadexec pid va; EvResident pid va seq].

Section map_page.
Context (own0 : gmap Z role) (s0 : kstate F) (i : nat) (pr0 : proc) (q0 : list rnode)
  (own : gmap Z role) (s : kstate F) (pr : proc) (q : list rnode) (va mem perm : Z) (data : list Z).
Hypothesis P0 : pinv own0 s0 i pr0 q0.
Hypothesis W0 : wstep own0 s0 i pr0 q0 own s pr q.
Hypothesis Hcur : k_cur s0 = Some i.
Hypothesis Ha : va mod PGSIZE = 0.
Hypothesis Hva : 0 <= va < TRAPFRAME.
Hypothesis Hperm : 0 <= perm < 1024.
Hypothesis Hinv : has (pteval (k_mem s0) (p_pagetable pr0) va) PTE_V = false.
Hypothesis Hf : fresh i own0 mem.
Hypothesis Hc : own !! mem = Some RLoose.
Hypothesis Hd : k_mem s !! mem = Some data.

Lemma still_unmapped own' s' pr' q' :
  wstep own0 s0 i pr0 q0 own' s' pr' q' ->
  has (pteval (k_mem s') (p_pagetable pr0) va) PTE_V = false.
Proof.
  intros W. destruct (kg_pte _ _ _ _ _ _ (ws_grow _ _ _ _ _ _ _ _ _ W) (p_pagetable pr0) va)
    as [->|(_ & ? & ?)]; try done; [apply P0|klia].
Qed.

(** Mapping the page and recording it, on success. *)
Lemma map_note own' s' pr' q' (c : K F unit) tail :
  notes i va c tail ->
  mapped own0 s0 i pr0 q0 (p_pagetable pr0) va mem perm own' s' pr' q' ->
  k_mem s' !! mem = Some data ->
  wpe add_stop c (fun _ => fault_done own0 s0 i pr0 q0 va perm data tail mem) s'.
Proof.
  intros Hnote Mp Hm. pose proof (mp_pinv _ _ _ _ _ _ _ _ _ _ _ _ _ Mp) as P'.
  pose proof (mp_evol _ _ _ _ _ _ _ _ _ _ _ _ _ Mp eq_refl Hinv) as V.
  pose proof (mp_pext _ _ _ _ _ _ _ _ _ _ _ _ _ Mp) as E. pose proof (pext_pagetable _ _ E) as Ept.
  pose proof (mp_pte _ _ _ _ _ _ _ _ _ _ _ _ _ Mp) as Epte.
  pose proof (mapped_kfault _ _ _ _ _ _ _ _ _ _ _ _ P0 Hf Mp) as KF.
  destruct (mp_state _ _ _ _ _ _ _ _ _ _ _ _ _ Mp) as (fl & m & evs & f & Es).
  destruct (mp_grow _ _ _ _ _ _ _ _ _ _ _ _ _ Mp) as (own1 & m1 & _ & Eown & _).
  pose proof (mp_queue _ _ _ _ _ _ _ _ _ _ _ _ _ Mp) as Hq.
  assert (Hw : has (map_pte mem perm) PTE_V = true).
  { unfold map_pte. rewrite has_V, Z.lor_spec. by rewrite orb_true_r. }
  assert (Hun : unlisted q' va).
  { intros x Hx. pose proof (unmapped_unlisted _ _ _ _ _ va P0 ltac:(lia) Hinv) as Hun.
    apply Hun. by eapply elem_of_suffix. }
  assert (Hr : own' !! mem = Some (RUser (p_pagetable pr0) va))
    by (rewrite Eown; apply lookup_insert_eq).
  eapply wpe_mono; [eapply (Hnote own' s' pr' q'); try done|done|].
  - by rewrite Es.
  - by rewrite Ept, Epte.
  - intros [] s2 (own2 & pr2 & q2 & node & P2 & Hq2 & G & E2 & (fl2 & m2 & evs2 & f2 & Es2) & V2 & Hk).
    rewrite Ept in G, Hk, V2.
    assert (Ef : p_fifo_seq_num pr' = p_fifo_seq_num pr0 /\ p_pid pr' = p_pid pr0)
      by (by destruct E as (? & ? & ? & ? & ? & ->)). destruct Ef as [Ef Epid].
    rewrite Ef in P2, E2, Es2. rewrite Epid in Es2.
    assert (Epte2 : pteval (k_mem s2) (p_pagetable pr0) va = map_pte mem perm)
      by (rewrite Hk by (done || klia); done).
    destruct (kg_user _ _ _ _ _ _ G _ _ Hr ltac:(klia) ltac:(by rewrite Epte2)) as [Hr2 Hm2].
    exists own2, pr2, q2, node. split_and!; try done.
    + by etrans.
    + eapply kfault_grow; [apply P0|exact KF|exact G].
    + destruct E as (k & h & t & si & sl & ->). destruct E2 as (k' & h' & t' & si' & sl' & ->).
      exists k', h', t', si', sl'. by destruct pr0.
    + exists fl2, m2, (evs ++ evs2), f2. rewrite Es2, Es, kevict_kevict. by rewrite app_assoc.
    + by rewrite Hm2.
    + intros Hsw. eapply evol_trans; [by apply V|exact V2].
Qed.

(** [mappages] and what follows it: recording the page, or [fail] if memory is
    exhausted. *)
Lemma map_or_fail (E : stop -> Prop) (ok fail : K F Z) (Q : Z -> kstate F -> Prop) :
  (forall x, swap_stop (F := F) x -> E x) ->
  (forall own' s' pr', wstep own0 s0 i pr0 q0 own' s' pr' [] -> own' !! mem = Some RLoose ->
     wpe E fail Q s') ->
  (forall s' own' pr' q', mapped own0 s0 i pr0 q0 (p_pagetable pr0) va mem perm own' s' pr' q' ->
     k_mem s' !! mem = Some data -> wpe E ok Q s') ->
  wpe E (let* pr := getp i in
    let* r := mappages (p_pagetable pr) va PGSIZE mem perm in
    if negb (r =? 0) then fail else ok) Q s.
Proof.
  intros HE Hfail Hok. pose proof (ws_pinv _ _ _ _ _ _ _ _ _ W0) as P.
  pose proof (pext_pagetable _ _ (ws_pext _ _ _ _ _ _ _ _ _ W0)) as Ept.
  unfold wpe. kstep by (apply getp_eq, (rs_proc _ _ _ _ _ (pi_rs _ _ _ _ _ P))).
  apply wpe_bind. rewrite Ept. eapply wpe_mono.
  - eapply (mappages_one own0 s0 i pr0 q0 own s pr q); try done.
    + by rewrite (wstep_cur _ _ _ _ _ _ _ _ _ W0).
    + rewrite <- Ept. apply P.
    + by eapply still_unmapped.
  - done.
  - intros r s' (own' & pr' & q' & [(Hr & Hm & -> & W & -> & _)|(Hm & -> & Mp)]); cbn [Z.eqb negb].
    + by eapply Hfail.
    + eapply Hok; [done|congruence].
Qed.

Lemma map_anon_spec :
  perm = Z.lor (Z.lor (Z.lor PTE_W PTE_R) PTE_U) PTE_V ->
  wpe add_stop (map_anon i va mem) (fun r s' =>
    fault_done own0 s0 i pr0 q0 va perm data alloc_tail r s' \/
    fault_none own0 s0 i pr0 q0 va nomem r s') s.
Proof.
  intros Eperm. unfold map_anon. rewrite <- Eperm. apply map_or_fail; [by left|..].
  - intros own' s' pr' W Hr.
    destruct (wstep_free _ _ _ _ _ _ _ _ _ _ P0 W Hf Hr) as (own2 & s2 & Ek & W2 & _).
    unfold wpe. kstep by exact Ek. right. split; [done|]. exists own2, pr', [].
    split; [done|]. split; [by eapply still_unmapped|done].
  - intros s' own' pr' q' Mp Hm.
    assert (Erd : PGROUNDDOWN va = va) by (rewrite PGROUNDDOWN_eq by klia; kdlia). rewrite Erd.
    apply wpe_bind. eapply wpe_mono; [eapply map_note; [apply note_spec|done..]|done|].
    intros [] s2 Hd2. by left.
Qed.
End map_page.

(** [vmfault] up to the choice of the region: the page is mapped already, or
    there is no memory, or a zeroed page has been allocated. *)
Definition fault_region (p : nat) (va mem : Z) : K F Z :=
  let* pr := getp p in
  if p_sz pr <=? va then
    let* sp := load64 (p_trapframe pr + tf_sp) in
    if (va <? sp) && (u64 (sp - PGSIZE) <=? va) then map_anon p va mem
    else kfree mem ;; ret 0
  else if p_exe_end pr <=? va then map_anon p va mem
  else load_exec p va mem.

Section vmfault.
Context (own : gmap Z role) (s : kstate F) (i : nat) (pr : proc) (q : list rnode) (va : Z).
Hypothesis P : pinv own s i pr q.
Hypothesis Hcur : k_cur s = Some i.
Hypothesis Hva : 0 <= va < TRAPFRAME.
Let va0 := PGROUNDDOWN va.

Lemma va0_ok : va0 mod PGSIZE = 0 /\ 0 <= va0 < TRAPFRAME /\ va0 / 4096 = va / 4096.
Proof. unfold va0. rewrite PGROUNDDOWN_eq by klia. split_and!; kdlia. Qed.

Lemma vmfault_mapped :
  has (pteval (k_mem s) (p_pagetable pr) va) PTE_V = true ->
  vmfault (p_pagetable pr) va s = Done 0 s.
Proof.
  intros Hv. destruct va0_ok as (_ & Hr & E). unfold vmfault.
  erewrite bind_done by (unfold myproc; by rewrite Hcur). fold va0.
  kstep by (eapply ismapped_eq; [exact P|klia]).
  rewrite (pteval_same_page _ _ va0 va), Hv by (done || lia). done.
Qed.

Lemma vmfault_unmapped E Q :
  has (pteval (k_mem s) (p_pagetable pr) va) PTE_V = false ->
  (forall x, swap_stop (F := F) x -> E x) ->
  (forall own' s' pr', wstep own s i pr q own' s' pr' [] -> q = [] -> Q 0 s') ->
  (forall own' s' pr' q' mem, wstep own s i pr q own' s' pr' q' -> fresh i own mem ->
     own' !! mem = Some RLoose -> k_mem s' !! mem = Some (fill 0) ->
     wpe E (fault_region i va0 mem) Q s') ->
  wpe E (vmfault (p_pagetable pr) va) Q s.
Proof.
  intros Hv HE Hnone Hreg. destruct va0_ok as (_ & Hr & Ep). unfold vmfault, wpe.
  erewrite bind_done by (unfold myproc; by rewrite Hcur). fold va0.
  kstep by (eapply ismapped_eq; [exact P|klia]).
  rewrite (pteval_same_page _ _ va0 va), Hv by (done || lia). cbn iota.
  apply wpe_bind. eapply wpe_mono; [by eapply kalloc_pstep|done|].
  intros mem s1 (own1 & pr1 & q1 & PS & [(-> & -> & Eq & _ & Hfl)|(Hc & Hmc & Hf)]).
  { rewrite Z.eqb_refl. eapply wpe_done; [done|].
    pose proof (ps_queue _ _ _ _ _ _ _ _ _ PS) as Hs. rewrite Eq in Hs.
    apply suffix_nil_inv in Hs as ->. eapply Hnone; [|done]. by apply pstep_wstep. }
  pose proof (rs_inv _ _ _ _ _ (pi_rs _ _ _ _ _ (ps_pinv _ _ _ _ _ _ _ _ _ PS))) as KI1.
  rewrite (proj2 (Z.eqb_neq mem 0)) by (by eapply (ki_nonzero _ _ _ _ KI1)).
  destruct (ki_is_page _ _ _ _ KI1 _ _ Hc) as (pgc & Hpgc).
  unfold wpe. kstep by (by eapply memset_page_eq). eapply Hreg; [|done|done|].
  - eapply wstep_write; [done|by apply pstep_wstep|done|done|apply length_fill].
  - ksimpl. apply lookup_insert_eq.
Qed.
End vmfault.
End fault.
