(* ===== verification/ExecFaultSpec.v ===== *)
(** * Demand loading from the executable

    The text/data branch of [vmfault]: the page is filled from the segment of
    the executable that contains it and mapped with the segment's permissions. *)

From S2P Require Import Prelude Riscv Kernel Mem Inv Queue Kmem Swap Walk Pt Replace ResidentSpec EvictSpec AllocSpec Elf Vm WalkSpec FaultSpec.

(** What the loader relies on: [readi] delivers at most the bytes asked for. *)
Class FsReads (F : Type) `{FsOps F} := {
  readi_le : forall ip off n f bs f',
    fs_readi ip off n f = Done bs f' -> Z.of_nat (length bs) <= Z.max 0 n
}.

(** At most one page is read, also when the segment is not page-aligned. *)
Lemma seg_filesz_range ph va : 0 <= seg_filesz ph va <= PGSIZE.
Proof.
  unfold seg_filesz. set (d := u64 (va - ph_vaddr ph)).
  destruct (Z.leb_spec (ph_filesz ph) d) as [|Hd]; [klia|].
  destruct (Z.ltb_spec (ph_filesz ph) (u64 (d + PGSIZE))) as [Hl|]; [|klia].
  pose proof (u64_range (va - ph_vaddr ph)) as Hr. fold d in Hr.
  assert (u64 (d + PGSIZE) <= d + PGSIZE) by (apply Z.mod_le; klia).
  rewrite u32_small by klia. klia.
Qed.

Section exec.
Context {F : Type} `{FsOps F} `{!FsReads F}.
Implicit Types s : kstate F.

(** The reads of the loader: the segment of [va] and the bytes of the page, on
    the file system only. *)
Fixpoint seg_search (n : nat) (ip off va : Z) : M F (option (proghdr * list Z)) :=
  match n with
  | O => ret None
  | S n =>
      let* bs := fs_readi ip (u32 off) sizeof_proghdr in
      if negb (Z.of_nat (length bs) =? sizeof_proghdr) then ret None
      else
        let ph := parse_proghdr bs in
        if seg_contains ph va then
          let filesz := seg_filesz ph va in
          if 0 <? filesz then
            let* bs := fs_readi ip (u32 (u64 (ph_off ph + u64 (va - ph_vaddr ph)))) filesz in
            ret (if Z.of_nat (length bs) =? filesz then Some (ph, bs) else None)
          else ret (Some (ph, []))
        else seg_search n ip (s32 (off + sizeof_proghdr)) va
  end.

Definition exec_plan (ip va : Z) : M F (option (proghdr * list Z)) :=
  fs_ilock ip ;;
  let* bs := fs_readi ip 0 sizeof_elfhdr in
  if negb (Z.of_nat (length bs) =? sizeof_elfhdr) then ret None
  else
    let elf := parse_elfhdr bs in
    seg_search (Z.to_nat (e_phnum elf)) ip (s32 (e_phoff elf)) va.

(** The ways the loader does not return. *)
Definition exec_stop (x : stop) : Prop :=
  add_stop (F := F) x \/
  (exists ip (f : F), stop_of (fs_ilock ip f) = Some x) \/
  (exists ip (f : F), stop_of (fs_iunlock ip f) = Some x) \/
  exists ip off n (f : F), stop_of (fs_readi ip off n f) = Some x.

(** The page the loader builds. *)
Definition exec_page (bs : list Z) : list Z := splice (fill 0) 0 bs.

Lemma wstep_fs own s i pr q own' s' pr' q' f :
  fs_quiet (k_fs s') f ->
  wstep own s i pr q own' s' pr' q' -> wstep own s i pr q own' (set_k_fs f s') pr' q'.
Proof.
  intros Hq [P G E (fl & m & evs & f0 & ->) Q U V]. split; try done.
  - destruct P as [[] ? ? ? ?]. by split; [split|..].
  - by exists fl, m, evs, f.
  - eapply evol_trans; [exact V|]. by apply evol_fs.
Qed.

Lemma readi_quiet ip off n (f f' : F) bs : fs_readi ip off n f = Done bs f' -> fs_quiet f f'.
Proof. intros Er. right. by exists ip, off, n, bs. Qed.

Lemma wpe_fs {A B} E (c : M F A) (k : A -> K F B) Q s :
  (forall x, stop_of (c (k_fs s)) = Some x -> E x) ->
  (forall a f', c (k_fs s) = Done a f' -> wpe E (k a) Q (set_k_fs f' s)) ->
  wpe E (bind (fs c) k) Q s.
Proof.
  intros HE Hk. unfold wpe, bind, fs. destruct (c (k_fs s)) as [a f'| | | |] eqn:Ec.
  - by apply Hk.
  - by apply HE.
  - by apply HE.
  - by apply HE.
  - by apply HE.
Qed.

Lemma wpe_assoc {A B C} E (m : K F A) (k : A -> K F B) (k' : B -> K F C) Q s :
  wpe E (bind (bind m k) k') Q s <-> wpe E (bind m (fun a => bind (k a) k')) Q s.
Proof. unfold wpe. by rewrite bind_assoc. Qed.

Lemma fault_done_fs own s i pr q va perm data tail r s' f :
  fs_quiet (k_fs s') f -> fault_done own s i pr q va perm data tail r s' ->
  fault_done own s i pr q va perm data tail r (set_k_fs f s').
Proof.
  intros Hf (own' & pr' & q' & node & P & Hq & K & E & (fl & m & evs & f0 & ->) & Hp & Hr & Hm & V).
  exists own', pr', q', node. split_and!; try done.
  - destruct P as [[] ? ? ? ?]. by split; [split|..].
  - by exists fl, m, evs, f.
  - intros Hsw. eapply evol_trans; [by apply V|]. by apply evol_fs.
Qed.

Section load.
Context (own0 : gmap Z role) (s0 : kstate F) (i : nat) (pr0 : proc) (q0 : list rnode)
  (own : gmap Z role) (pr : proc) (q : list rnode) (va mem ip : Z).
Hypothesis P0 : pinv own0 s0 i pr0 q0.
Hypothesis Hcur : k_cur s0 = Some i.
Hypothesis Ha : va mod PGSIZE = 0.
Hypothesis Hva : 0 <= va < TRAPFRAME.
Hypothesis Hinv : has (pteval (k_mem s0) (p_pagetable pr0) va) PTE_V = false.
Hypothesis Hf : fresh i own0 mem.
Hypothesis Hc : own !! mem = Some RLoose.

(** The result, [R] being what is known of the outcome of the search. *)
Definition load_result (R : option (proghdr * list Z) -> Prop) (r : Z) s' : Prop :=
  fault_none own0 s0 i pr0 q0 va (fun q' => nomem q' \/ R None) r s' \/
  exists ph bs, R (Some (ph, bs)) /\
    fault_done own0 s0 i pr0 q0 va (seg_perms ph) (exec_page bs) load_tail r s'.

Lemma fault_none_fail (R : option (proghdr * list Z) -> Prop) own' s' pr' q' :
  wstep own0 s0 i pr0 q0 own' s' pr' q' -> own' !! mem = Some RLoose -> nomem q' \/ R None ->
  wpe exec_stop (fault_fail ip mem) (load_result R) s'.
Proof.
  intros W Hr HR. unfold fault_fail. apply wpe_fs.
  { intros x Hx. right; right; left. by do 2 eexists. }
  intros [] f' Eu. assert (Hqt : fs_quiet (k_fs s') f') by (left; exists ip; by right).
  pose proof (wstep_fs _ _ _ _ _ _ _ _ _ f' Hqt W) as W'.
  destruct (wstep_free _ _ _ _ _ _ _ _ _ _ P0 W' Hf Hr) as (own2 & s2 & Ek & W2 & _).
  unfold wpe. kstep by exact Ek. left. split; [done|]. exists own2, pr', q'.
  split; [done|]. split; [by eapply still_unmapped|done].
Qed.

Lemma seg_perms_range ph : 0 <= seg_perms ph < 1024.
Proof.
  unfold seg_perms. destruct (has (ph_flags ph) ELF_PROG_FLAG_EXEC);
    destruct (has (ph_flags ph) ELF_PROG_FLAG_WRITE);
    destruct (has (ph_flags ph) ELF_PROG_FLAG_READ); by vm_compute.
Qed.

(** Mapping the filled page. *)
Lemma load_map s' ph bs (R : option (proghdr * list Z) -> Prop) :
  wstep own0 s0 i pr0 q0 own s' pr q -> k_mem s' !! mem = Some (exec_page bs) ->
  R (Some (ph, bs)) ->
  wpe exec_stop (let* pr := getp i in
    let* r := mappages (p_pagetable pr) va PGSIZE mem (seg_perms ph) in
    if negb (r =? 0) then fault_fail ip mem
    else note_resident i va EvLoadexec ;; fs (fs_iunlock ip) ;; ret mem) (load_result R) s'.
Proof.
  intros W Hm Hres. eapply map_or_fail; try done.
  - apply seg_perms_range.
  - intros x Hx. by left; left.
  - intros own' s1 pr' W' Hr. eapply fault_none_fail; [done..|by left].
  - intros s1 own' pr' q' Mp Hm'. apply wpe_bind. eapply wpe_mono; [eapply map_note; try done; apply note_spec|by left|].
    intros [] s2 Hd. apply wpe_fs.
    { intros x Hx. right; right; left. by do 2 eexists. }
    intros [] f' Eu. eapply wpe_done; [done|]. right. exists ph, bs. split; [done|].
    apply fault_done_fs; [|done]. left. exists ip. by right.
Qed.

Lemma load_segment_spec ph s1 (R : option (proghdr * list Z) -> Prop) :
  wstep own0 s0 i pr0 q0 own s1 pr q -> k_mem s1 !! mem = Some (fill 0) ->
  (if 0 <? seg_filesz ph va then
     forall bs f', fs_readi ip (u32 (u64 (ph_off ph + u64 (va - ph_vaddr ph)))) (seg_filesz ph va)
       (k_fs s1) = Done bs f' ->
       R (if Z.of_nat (length bs) =? seg_filesz ph va then Some (ph, bs) else None)
   else R (Some (ph, []))) ->
  wpe exec_stop (load_segment i ip ph va mem) (load_result R) s1.
Proof.
  intros W Hm Hres. unfold load_segment.
  assert (Erd : PGROUNDDOWN va = va) by (rewrite PGROUNDDOWN_eq by klia; kdlia). rewrite Erd.
  pose proof (seg_filesz_range ph va) as Hsz.
  assert (Hpg : is_page (k_mem s1) mem (fill 0)).
  { destruct (ki_mem _ _ _ _ (rs_inv _ _ _ _ _ (pi_rs _ _ _ _ _ (ws_pinv _ _ _ _ _ _ _ _ _ W)))
      _ _ Hm) as (? & ? & ?). done. }
  destruct (0 <? seg_filesz ph va) eqn:Hpos.
  2:{ unfold wpe. rewrite bind_ret. cbn [negb]. eapply load_map; [done| |done].
      unfold exec_page, splice. by rewrite take_0, drop_0. }
  rewrite wpe_assoc. apply wpe_fs.
  { intros x Hx. right; right; right. by do 4 eexists. }
  intros bs f' Er. pose proof (readi_le _ _ _ _ _ _ Er) as Hle.
  assert (Hst : store_bytes mem bs (set_k_fs f' s1) =
    Done tt (set_k_mem (<[mem := exec_page bs]> (k_mem s1)) (set_k_fs f' s1))).
  { replace mem with (mem + 0) at 1 by lia.
    rewrite (store_bytes_page _ mem (fill 0)) by (first [exact Hpg|klia]). done. }
  unfold wpe. kstep by exact Hst. kpure.
  pose proof (wstep_write _ _ _ _ _ _ _ _ _ mem (exec_page bs) P0
    (wstep_fs _ _ _ _ _ _ _ _ _ f' (readi_quiet _ _ _ _ _ _ Er) W) Hf Hc) as W2.
  assert (Hlen : length (exec_page bs) = Z.to_nat PGSIZE).
  { unfold exec_page. rewrite length_splice; rewrite length_fill; klia. }
  specialize (W2 Hlen). ksimpl in *. specialize (Hres _ _ Er).
  destruct (Z.of_nat (length bs) =? seg_filesz ph va); cbn [negb].
  - eapply load_map; [exact W2| |exact Hres]. ksimpl. apply lookup_insert_eq.
  - eapply fault_none_fail; [exact W2|done|by right].
Qed.

Lemma find_segment_spec n : forall off s1 (R : option (proghdr * list Z) -> Prop),
  wstep own0 s0 i pr0 q0 own s1 pr q -> k_mem s1 !! mem = Some (fill 0) ->
  (forall r f', seg_search n ip off va (k_fs s1) = Done r f' -> R r) ->
  wpe exec_stop (find_segment n i ip off va mem) (load_result R) s1.
Proof.
  induction n as [|n IH]; intros off s1 R W Hm Hs; cbn [find_segment].
  { eapply fault_none_fail; [done..|]. right. by eapply Hs. }
  apply wpe_fs.
  { intros x Hx. right; right; right. by do 4 eexists. }
  intros bs f' Er. pose proof (wstep_fs _ _ _ _ _ _ _ _ _ f' (readi_quiet _ _ _ _ _ _ Er) W) as W'.
  cbn [seg_search] in Hs. unfold bind at 1 in Hs. rewrite Er in Hs.
  destruct (negb _); [eapply fault_none_fail; [done..|]; right; by eapply Hs|].
  destruct (seg_contains _ va); [|by eapply IH].
  apply load_segment_spec; [done|done|].
  destruct (0 <? seg_filesz _ va).
  - intros bs2 f3 Er2. ksimpl in *. unfold bind, ret in Hs. rewrite Er2 in Hs. by eapply Hs.
  - by eapply Hs.
Qed.

Lemma load_exec_spec s1 :
  p_exe_inode pr0 = ip ->
  wstep own0 s0 i pr0 q0 own s1 pr q -> k_mem s1 !! mem = Some (fill 0) ->
  wpe exec_stop (load_exec i va mem) (fun r s' =>
    fault_none own0 s0 i pr0 q0 va (fun q' => nomem q' \/ ip = 0 \/
      exists f1 f2, exec_plan ip va f1 = Done None f2) r s' \/
    ip <> 0 /\ exists ph bs f1 f2, exec_plan ip va f1 = Done (Some (ph, bs)) f2 /\
      fault_done own0 s0 i pr0 q0 va (seg_perms ph) (exec_page bs) load_tail r s') s1.
Proof.
  intros Eip W Hm. pose proof (ws_pinv _ _ _ _ _ _ _ _ _ W) as P.
  assert (Eip1 : p_exe_inode pr = ip).
  { rewrite <- Eip. by destruct (ws_pext _ _ _ _ _ _ _ _ _ W) as (? & ? & ? & ? & ? & ->). }
  unfold load_exec, wpe. kstep by (apply getp_eq, (rs_proc _ _ _ _ _ (pi_rs _ _ _ _ _ P))).
  rewrite Eip1. destruct (Z.eqb_spec ip 0) as [Hz|Hip].
  { destruct (wstep_free _ _ _ _ _ _ _ _ _ _ P0 W Hf Hc) as (own2 & s2 & Ek & W2 & _).
    kstep by exact Ek. left. split; [done|]. exists own2, pr, q.
    split; [done|]. split; [by eapply still_unmapped|]. auto. }
  apply wpe_fs.
  { intros x Hx. right; left. by do 2 eexists. }
  intros [] f1 El. apply wpe_fs.
  { intros x Hx. right; right; right. by do 4 eexists. }
  intros bs f2 Er. assert (Hq1 : fs_quiet (k_fs s1) f1) by (left; exists ip; by left).
  pose proof (wstep_fs _ _ _ _ _ _ _ _ _ f2 (readi_quiet _ _ _ _ _ _ Er)
    (wstep_fs _ _ _ _ _ _ _ _ _ f1 Hq1 W)) as W2.
  ksimpl in *. set (R := fun r => exists f3, exec_plan ip va (k_fs s1) = Done r f3).
  eapply (wpe_mono exec_stop _ _ (load_result R)); [|done|].
  2:{ intros r s2 [(-> & own' & pr' & q' & ? & ? & Hwhy)|(ph & bs' & (f3 & E3) & ?)].
      - left. split; [done|]. exists own', pr', q'. split; [done|]. split; [done|].
        destruct Hwhy as [?|(f3 & ?)]; [by left|]. right. right. by exists (k_fs s1), f3.
      - right. split; [done|]. by exists ph, bs', (k_fs s1), f3. }
  destruct (negb (Z.of_nat (length bs) =? sizeof_elfhdr)) eqn:Hn.
  { apply (fault_none_fail R own _ pr q W2 Hc). right. exists f2.
    unfold exec_plan, bind at 1 2. by rewrite El, Er, Hn. }
  apply (find_segment_spec _ _ _ R W2 Hm). intros r f3 Es. exists f3.
  unfold exec_plan, bind at 1 2. rewrite El, Er, Hn. exact Es.
Qed.
End load.
End exec.

(** ** The page-fault handler, by region *)

Section regions.
Context {F : Type} `{FsOps F}.
Context (own : gmap Z role) (s : kstate F) (i : nat) (pr : proc) (q : list rnode) (va : Z).
Hypothesis P : pinv own s i pr q.
Hypothesis Hcur : k_cur s = Some i.
Hypothesis Hva : 0 <= va < TRAPFRAME.
Hypothesis Hinv : has (pteval (k_mem s) (p_pagetable pr) va) PTE_V = false.
Let va0 := PGROUNDDOWN va.
Let anon := Z.lor (Z.lor (Z.lor PTE_W PTE_R) PTE_U) PTE_V.

Lemma region_inv : va0 mod PGSIZE = 0 /\ 0 <= va0 < TRAPFRAME /\
  has (pteval (k_mem s) (p_pagetable pr) va0) PTE_V = false.
Proof.
  destruct (va0_ok va Hva) as (? & ? & E). split; [done|]. split; [done|].
  rewrite (pteval_same_page _ _ _ va) by (done || lia). done.
Qed.

(** No memory for the page itself. *)
Lemma region_none own' s' pr' :
  wstep own s i pr q own' s' pr' [] -> fault_none own s i pr q va0 nomem 0 s'.
Proof.
  intros W. destruct region_inv as (? & ? & ?). split; [done|]. exists own', pr', [].
  split; [done|]. split; [by eapply still_unmapped|done].
Qed.

Lemma region_pr own' s' pr' q' : wstep own s i pr q own' s' pr' q' ->
  k_procs s' !! i = Some pr' /\ p_sz pr' = p_sz pr /\ p_exe_end pr' = p_exe_end pr /\
  p_trapframe pr' = p_trapframe pr.
Proof.
  intros W. split; [apply (rs_proc _ _ _ _ _ (pi_rs _ _ _ _ _ (ws_pinv _ _ _ _ _ _ _ _ _ W)))|].
  by destruct (ws_pext _ _ _ _ _ _ _ _ _ W) as (? & ? & ? & ? & ? & ->).
Qed.

Lemma vmfault_heap_aux :
  va0 < p_sz pr -> p_exe_end pr <= va0 ->
  wpe add_stop (vmfault (p_pagetable pr) va) (fun r s' =>
    fault_done own s i pr q va0 anon (fill 0) alloc_tail r s' \/
    fault_none own s i pr q va0 nomem r s') s.
Proof.
  intros Hsz Hexe. destruct region_inv as (Ha0 & Hr0 & Hi0).
  eapply vmfault_unmapped; [exact P|exact Hcur|exact Hva|exact Hinv|by left|..].
  - intros own' s' pr' W _. right. by eapply region_none.
  - intros own' s' pr' q' mem W Hf Hc Hm. destruct (region_pr _ _ _ _ W) as (Hp & Esz & Eexe & _).
    unfold fault_region, wpe. kstep by (by apply getp_eq). rewrite Esz, Eexe.
    rewrite (proj2 (Z.leb_gt _ _)), (proj2 (Z.leb_le _ _)) by done.
    eapply map_anon_spec; try done.
Qed.

Lemma fault_none_mono (why why' : list rnode -> Prop) r s' :
  fault_none own s i pr q va0 why r s' -> (forall q', why q' -> why' q') ->
  fault_none own s i pr q va0 why' r s'.
Proof. intros (-> & own' & pr' & q' & W & Hv & Hw) Hm. split; [done|]. exists own', pr', q'. auto. Qed.

Lemma vmfault_exec_aux `{!FsReads F} :
  va0 < p_sz pr -> va0 < p_exe_end pr ->
  wpe exec_stop (vmfault (p_pagetable pr) va) (fun r s' =>
    fault_none own s i pr q va0 (fun q' => nomem q' \/ p_exe_inode pr = 0 \/
      exists f1 f2, exec_plan (p_exe_inode pr) va0 f1 = Done None f2) r s' \/
    p_exe_inode pr <> 0 /\ exists ph bs f1 f2,
      exec_plan (p_exe_inode pr) va0 f1 = Done (Some (ph, bs)) f2 /\
      fault_done own s i pr q va0 (seg_perms ph) (exec_page bs) load_tail r s') s.
Proof.
  intros Hsz Hexe. destruct region_inv as (Ha0 & Hr0 & Hi0).
  eapply vmfault_unmapped; [exact P|exact Hcur|exact Hva|exact Hinv|by left; left|..].
  - intros own' s' pr' W _. left. eapply fault_none_mono; [by eapply region_none|auto].
  - intros own' s' pr' q' mem W Hf Hc Hm. destruct (region_pr _ _ _ _ W) as (Hp & Esz & Eexe & _).
    unfold fault_region, wpe. kstep by (by apply getp_eq). rewrite Esz, Eexe.
    rewrite !(proj2 (Z.leb_gt _ _)) by done. by eapply load_exec_spec.
Qed.

(** The word at the stack-pointer slot of the trapframe. *)
Hypothesis Htf : own !! p_trapframe pr = Some ROther.

Lemma vmfault_above_aux tf :
  k_mem s !! p_trapframe pr = Some tf -> p_sz pr <= va0 ->
  wpe add_stop (vmfault (p_pagetable pr) va) (fun r s' =>
    (va0 < pg64 tf tf_sp /\ u64 (pg64 tf tf_sp - PGSIZE) <= va0 /\
     fault_done own s i pr q va0 anon (fill 0) alloc_tail r s') \/
    fault_none own s i pr q va0 (fun q' => nomem q' \/
      ~ (va0 < pg64 tf tf_sp /\ u64 (pg64 tf tf_sp - PGSIZE) <= va0)) r s') s.
Proof.
  intros Htfp Hsz. destruct region_inv as (Ha0 & Hr0 & Hi0).
  eapply vmfault_unmapped; [exact P|exact Hcur|exact Hva|exact Hinv|by left|..].
  - intros own' s' pr' W _. right. eapply fault_none_mono; [by eapply region_none|auto].
  - intros own' s' pr' q' mem W Hf Hc Hm. destruct (region_pr _ _ _ _ W) as (Hp & Esz & Eexe & Etf).
    unfold fault_region, wpe. kstep by (by apply getp_eq). rewrite Esz, Etf.
    rewrite (proj2 (Z.leb_le _ _)) by done.
    pose proof (kg_mem _ _ _ _ _ _ (ws_grow _ _ _ _ _ _ _ _ _ W) _ _ Htf) as Em.
    assert (Hpg : is_page (k_mem s') (p_trapframe pr) tf).
    { pose proof (rs_inv _ _ _ _ _ (pi_rs _ _ _ _ _ (ws_pinv _ _ _ _ _ _ _ _ _ W))) as KI.
      assert (Hs' : k_mem s' !! p_trapframe pr = Some tf) by (by rewrite Em).
      destruct (ki_mem _ _ _ _ KI _ _ Hs') as (? & ? & ?). done. }
    kstep by (eapply load64_page; [exact Hpg|unfold tf_sp; klia]). fold va0.
    destruct ((va0 <? pg64 tf tf_sp) && (u64 (pg64 tf tf_sp - PGSIZE) <=? va0)) eqn:Eb.
    + apply andb_true_iff in Eb as [E1%Z.ltb_lt E2%Z.leb_le].
      eapply wpe_mono; [eapply map_anon_spec with (perm := anon); done|done|].
      intros r s2 [?|?]; [by left|right]. eapply fault_none_mono; [done|auto].
    + destruct (wstep_free _ _ _ _ _ _ _ _ _ _ P W Hf Hc) as (own2 & s2 & Ek & W2 & _).
      kstep by exact Ek. right. split; [done|]. exists own2, pr', q'. split; [done|].
      split; [by eapply still_unmapped|]. right. intros [E1 E2].
      rewrite (proj2 (Z.ltb_lt _ _) E1), (proj2 (Z.leb_le _ _) E2) in Eb. done.
Qed.
End regions.
