(* ===== verification/SwapSpec.v ===== *)
(** * Swapped-out pages keep their contents

    [swinv] ties the entries of swapped-out pages to the slots of the swap file
    and to the contents the pages had when they were evicted. Evictions and page
    faults preserve it. *)

From S2P Require Import Prelude Riscv Kernel Mem Inv Queue Kmem Swap Walk Pt Replace ResidentSpec EvictSpec AllocSpec.

(** What swapping relies on: locking and reading an inode change no file, a read
    delivers a prefix of what is there, a write that reports all its bytes has
    stored them, and a write stores nothing outside its range. *)
Class FsSwap (F : Type) `{FsOps F} := {
  fs_file : F -> Z -> list Z;
  file_ilock : forall ip f u f' ip', fs_ilock ip f = Done u f' -> fs_file f' ip' = fs_file f ip';
  file_iunlock : forall ip f u f' ip', fs_iunlock ip f = Done u f' -> fs_file f' ip' = fs_file f ip';
  file_readi : forall ip off n f bs f', fs_readi ip off n f = Done bs f' ->
    (0 <= off -> exists k, bs = take k (drop (Z.to_nat off) (fs_file f ip))) /\
    forall ip', fs_file f' ip' = fs_file f ip';
  file_writei : forall ip data off f n f', fs_writei ip data off f = Done n f' -> 0 <= off ->
    exists k, (n = Z.of_nat (length data) -> k = length data) /\ (k <= length data)%nat /\
      (k = 0 \/ Z.to_nat off <= length (fs_file f ip))%nat /\
      fs_file f' ip = splice (fs_file f ip) (Z.to_nat off) (take k data)
}.

(** The page a swap file holds in a slot. *)
Definition slot_page (file : list Z) (slot : Z) : list Z :=
  take (Z.to_nat PGSIZE) (drop (Z.to_nat (slot * PGSIZE)) file).

(** The entry of a page swapped out to [slot]. *)
Definition swap_pte (slot w : Z) : Z :=
  Z.lor (Z.lor (SLOT_PTE slot)
    (Z.land w (Z.lor (Z.lor (Z.lor PTE_R PTE_W) PTE_X) PTE_U))) PTE_S.

Record swinv {F} `{FsOps F} `{!FsSwap F} (root : Z) (m : gmap Z (list Z)) (pr : proc) (f : F)
    (saved : gmap Z (list Z)) : Prop := {
  sv_slots : length (p_swap_slots pr) = 128%nat;
  sv_va : forall va data, saved !! va = Some data ->
    va mod PGSIZE = 0 /\ 0 <= va < TRAPFRAME /\ swapped (pteval m root va) = true;
  sv_page : forall va data, saved !! va = Some data ->
    let slot := PTE_SLOT (pteval m root va) in
    0 <= slot < 1024 /\ slot_used (p_swap_slots pr) slot = true /\ p_swap_inode pr <> 0 /\
    length data = Z.to_nat PGSIZE /\ slot_page (fs_file f (p_swap_inode pr)) slot = data;
  sv_inj : forall va va' data data', saved !! va = Some data -> saved !! va' = Some data' ->
    PTE_SLOT (pteval m root va) = PTE_SLOT (pteval m root va') -> va = va';
  sv_all : forall va, va mod PGSIZE = 0 -> 0 <= va < TRAPFRAME ->
    swapped (pteval m root va) = true -> is_Some (saved !! va)
}.

(** ** The encoding of a swapped-out entry *)

Lemma swap_pte_spec slot w :
  0 <= slot < 1024 ->
  u64 (swap_pte slot w) = swap_pte slot w /\ swapped (swap_pte slot w) = true /\
  PTE_SLOT (swap_pte slot w) = slot.
Proof.
  intros Hs. unfold swap_pte. rewrite <- Z.lor_assoc.
  set (perms := Z.land w _). set (fl := Z.lor perms PTE_S).
  assert (Hp : 0 <= perms < 256).
  { unfold perms. change (Z.lor (Z.lor (Z.lor PTE_R PTE_W) PTE_X) PTE_U) with 30. split.
    - apply Z.land_nonneg. by right.
    - assert (E : Z.land w 30 = Z.land (Z.land w 255) 30)
        by (rewrite <- Z.land_assoc; by change (Z.land 255 30) with 30).
      rewrite E. change 255 with (Z.ones 8). rewrite Z.land_ones by lia.
      pose proof (Z.mod_pos_bound w (2 ^ 8) ltac:(lia)).
      destruct (decide (Z.land (w mod 2 ^ 8) 30 = 0)) as [->|Hnz]; [lia|].
      change 256 with (2 ^ 8). apply Z.log2_lt_cancel. eapply Z.le_lt_trans; [apply Z.log2_land; lia|].
      pose proof (Z.le_min_r (Z.log2 (w mod 2 ^ 8)) (Z.log2 30)) as Hm.
      change (Z.log2 30) with 4 in *. change (Z.log2 (2 ^ 8)) with 8. lia. }
  assert (Hf : 0 <= fl < 1024).
  { unfold fl. rewrite Z.lor_comm. change PTE_S with 256. rewrite (lor_low_add 8); [lia| |done|lia].
    lia. }
  assert (Hslot : SLOT_PTE slot = slot * 1024).
  { unfold SLOT_PTE. rewrite Z.shiftl_mul_pow2 by lia. apply u64_small. lia. }
  split; [|split].
  - apply u64_small. rewrite Hslot. rewrite (lor_low_add 10); [lia| |apply Z.mod_mul; lia|lia]. lia.
  - unfold swapped. rewrite has_S, has_V, !testbit_slot by lia. unfold fl.
    rewrite !Z.lor_spec. change (Z.testbit PTE_S 8) with true. change (Z.testbit PTE_S 0) with false.
    rewrite orb_true_r, orb_false_r. unfold perms. rewrite Z.land_spec.
    change (Z.testbit (Z.lor (Z.lor (Z.lor PTE_R PTE_W) PTE_X) PTE_U) 0) with false.
    by rewrite andb_false_r.
  - by apply PTE_SLOT_pte; [lia|].
Qed.

(** ** Slots in the file *)

Lemma slot_page_same file slot data :
  0 <= slot -> length data = Z.to_nat PGSIZE -> (Z.to_nat (slot * PGSIZE) <= length file)%nat ->
  slot_page (splice file (Z.to_nat (slot * PGSIZE)) data) slot = data.
Proof.
  intros Hs Hd Hl. unfold slot_page, splice.
  rewrite drop_app_length' by (rewrite length_take; lia). by rewrite take_app_length'.
Qed.

Lemma slot_page_other file slot t data :
  0 <= slot -> 0 <= t -> t <> slot -> (length data <= Z.to_nat PGSIZE)%nat ->
  (Z.to_nat (slot * PGSIZE) <= length file)%nat ->
  slot_page (splice file (Z.to_nat (slot * PGSIZE)) data) t = slot_page file t.
Proof.
  intros Hs Ht Hne Hd Hl. unfold slot_page, splice.
  destruct (decide (t < slot)).
  - apply list_eq. intros j. destruct (decide (j < Z.to_nat PGSIZE)%nat) as [Hj|Hj].
    + rewrite !lookup_take_lt, !lookup_drop by done.
      rewrite lookup_app_l by (rewrite length_take; klia). by rewrite lookup_take_lt by klia.
    + by rewrite !lookup_take_ge by lia.
  - rewrite drop_app_ge by (rewrite length_take; klia). rewrite length_take.
    rewrite drop_app_ge by klia. rewrite drop_drop. do 2 f_equal. klia.
Qed.

Section swap_fs.
Context {F : Type} `{FsOps F} `{!FsSwap F}.

Lemma swap_write_file ip slot data (f f' : F) n :
  swap_write ip slot data f = Done n f' -> 0 <= slot < 1024 -> length data = Z.to_nat PGSIZE ->
  (forall t, 0 <= t -> t <> slot -> slot_page (fs_file f' ip) t = slot_page (fs_file f ip) t) /\
  (n = PGSIZE -> slot_page (fs_file f' ip) slot = data).
Proof.
  intros Hw Hs Hd. unfold swap_write, bind, ret in Hw.
  destruct (fs_ilock ip f) as [u1 f1| | | |] eqn:E1; try done.
  destruct (fs_writei ip data _ f1) as [n1 f2| | | |] eqn:E2; try done.
  destruct (fs_iunlock ip f2) as [u3 f3| | | |] eqn:E3; try done. injection Hw as -> <-.
  rewrite (file_iunlock _ _ _ _ ip E3), <- (file_ilock _ _ _ _ ip E1).
  rewrite u32_small in E2 by klia.
  destruct (file_writei _ _ _ _ _ _ E2 ltac:(klia)) as (k & Hn & Hk & Hoff & ->).
  destruct (decide (k = 0)%nat) as [->|Hnz].
  - assert (Es : splice (fs_file f1 ip) (Z.to_nat (slot * PGSIZE)) (take 0 data) = fs_file f1 ip).
    { unfold splice. rewrite take_0. simpl. rewrite Nat.add_0_r. apply take_drop. }
    rewrite Es. split; [done|]. intros ->. rewrite Hd in Hn. specialize (Hn ltac:(klia)). klia.
  - destruct Hoff as [|Hoff]; [done|]. split.
    + intros t Ht Hne. apply slot_page_other; try done; [lia|]. rewrite length_take. lia.
    + intros ->. rewrite Hd in Hn. specialize (Hn ltac:(klia)). rewrite take_ge by lia.
      by apply slot_page_same; [lia|..].
Qed.

(** What a plan does to the slots and to the swap file. *)
Lemma evict_plan_swap pr va seq w data (f f' : F) w' evs pr' :
  length (p_swap_slots pr) = 128%nat -> length data = Z.to_nat PGSIZE ->
  evict_plan pr va seq w data f = Done (w', evs, pr') f' ->
  length (p_swap_slots pr') = 128%nat /\
  (p_swap_inode pr <> 0 -> p_swap_inode pr' = p_swap_inode pr /\
    forall t, 0 <= t < 1024 -> slot_used (p_swap_slots pr) t = true ->
      slot_page (fs_file f' (p_swap_inode pr)) t = slot_page (fs_file f (p_swap_inode pr)) t) /\
  (w' = 0 /\ (forall t, 0 <= t < 1024 -> slot_used (p_swap_slots pr') t = slot_used (p_swap_slots pr) t) \/
   exists slot, 0 <= slot < 1024 /\ slot_used (p_swap_slots pr) slot = false /\
     (forall t, 0 <= t -> slot_used (p_swap_slots pr') t = (t =? slot) || slot_used (p_swap_slots pr) t) /\
     w' = swap_pte slot w /\ p_swap_inode pr' <> 0 /\
     slot_page (fs_file f' (p_swap_inode pr')) slot = data).
Proof.
  intros Hl Hd Hpl. destruct (evict_plan_spec _ _ _ _ _ _ _ _ _ _ Hl Hpl) as (_ & Hl' & _).
  split; [done|]. revert Hpl. unfold evict_plan. destruct (negb _ && _).
  { intros [= <- <- <- <-]. split; [done|]. by left. }
  pose proof (slots_alloc_cases (p_swap_slots pr)) as Hc.
  destruct (slots_alloc (p_swap_slots pr)) as [slot slots]. destruct Hc as [Hlen Hc].
  destruct (Z.eqb_spec slot (-1)) as [->|Hslot].
  { intros [= <- <- <- <-]. psimpl. split; [done|]. left. split; [done|].
    destruct Hc as [(_ & -> & _)|[? _]]; [done|lia]. }
  destruct Hc as [[? _]|(Hr & Hfree & _ & Hset)]; [done|]. rewrite Hl in Hr.
  assert (Hback : forall t, 0 <= t < 1024 -> slot_used (slots_free slots slot) t = slot_used (p_swap_slots pr) t).
  { intros t Ht. rewrite slots_free_used by (congruence || lia). rewrite Hset by lia.
    destruct (Z.eqb_spec t slot) as [->|]; simpl; [by rewrite Hfree|done]. }
  unfold bind at 1. lazymatch goal with
  |- match ?o with Done _ _ => _ | _ => _ end = _ -> _ => destruct o as [sip f1| | | |] eqn:Eo; try done
  end. psimpl in *.
  assert (Hsip : p_swap_inode pr <> 0 -> sip = p_swap_inode pr /\ f1 = f).
  { intros Hnz. rewrite (proj2 (Z.eqb_neq _ _)) in Eo by done. by injection Eo as <- <-. }
  destruct (Z.eqb_spec sip 0) as [->|Hsz]; cbn [negb].
  { intros [= <- <- <- <-]. psimpl. split; [intros Hnz; by destruct (Hsip Hnz)|]. by left. }
  unfold bind at 1. destruct (swap_write sip slot data f1) as [n f2| | | |] eqn:Ew; try done.
  destruct (swap_write_file _ _ _ _ _ _ Ew ltac:(lia) Hd) as [Hoth Hsame].
  assert (Hkeep : p_swap_inode pr <> 0 -> sip = p_swap_inode pr /\
    forall t, 0 <= t < 1024 -> slot_used (p_swap_slots pr) t = true ->
      slot_page (fs_file f2 (p_swap_inode pr)) t = slot_page (fs_file f (p_swap_inode pr)) t).
  { intros Hnz. destruct (Hsip Hnz) as [Es Ef]. split; [done|]. intros t Ht Hu. rewrite <- Es, <- Ef.
    apply Hoth; [lia|]. congruence. }
  destruct (Z.eqb_spec n PGSIZE) as [->|Hn]; cbn [negb]; intros [= <- <- <- <-]; psimpl.
  - split; [done|]. right. exists slot. split_and!; try done; try lia. by apply Hsame.
  - split; [done|]. by left.
Qed.

(** When a plan drops the page: it is clean and part of the executable, no slot
    is free, or the file system does not take it. *)
Definition drop_reason (pr : proc) (va w : Z) : Prop :=
  (has w PTE_D = false /\ va < p_exe_end pr) \/
  (forall t, 0 <= t < 1024 -> slot_used (p_swap_slots pr) t = true) \/
  (exists name (f f' : F), swap_open name f = Done 0 f') \/
  exists ip slot data n (f f' : F), swap_write ip slot data f = Done n f' /\ n <> PGSIZE.

Lemma evict_plan_drop pr va seq w data (f f' : F) evs pr' :
  length (p_swap_slots pr) = 128%nat ->
  evict_plan pr va seq w data f = Done (0, evs, pr') f' -> drop_reason pr va w.
Proof.
  intros Hl. unfold evict_plan. destruct (negb _ && _) eqn:Eb.
  { intros _. apply andb_true_iff in Eb as [E1%negb_true_iff E2%Z.ltb_lt]. by left. }
  pose proof (slots_alloc_cases (p_swap_slots pr)) as Hc.
  destruct (slots_alloc (p_swap_slots pr)) as [slot slots]. destruct Hc as [_ Hc].
  destruct (Z.eqb_spec slot (-1)) as [->|Hslot].
  { intros _. right; left. destruct Hc as [(_ & _ & Hu)|[? _]]; [|lia]. intros t Ht. apply Hu. lia. }
  destruct Hc as [[? _]|(Hr & _)]; [done|]. rewrite Hl in Hr. unfold bind at 1. lazymatch goal with
  |- match ?o with Done _ _ => _ | _ => _ end = _ -> _ => destruct o as [sip f1| | | |] eqn:Eo; try done
  end. psimpl in *.
  destruct (Z.eqb_spec sip 0) as [->|Hsz]; cbn [negb].
  { intros _. destruct (Z.eqb_spec (p_swap_inode pr) 0).
    - right; right; left. by do 3 eexists.
    - unfold ret in Eo. congruence. }
  unfold bind at 1. destruct (swap_write sip slot data f1) as [n f2| | | |] eqn:Ew; try done.
  destruct (Z.eqb_spec n PGSIZE) as [->|Hn]; cbn [negb]; intros [= E _ _].
  - destruct (swap_pte_spec slot w ltac:(lia)) as (_ & Hsw & _). unfold swap_pte in Hsw.
    by rewrite E in Hsw.
  - right; right; right. by do 6 eexists.
Qed.

(** *** One eviction *)
Section evict.
Context (root : Z) (m m' : gmap Z (list Z)) (pr pr' : proc) (f f' : F) (saved : gmap Z (list Z))
  (va seq w' : Z) (data : list Z) (evs : list event).
Hypothesis S : swinv root m pr f saved.
Hypothesis Ha : va mod PGSIZE = 0.
Hypothesis Hva : 0 <= va < TRAPFRAME.
Hypothesis Hv : has (pteval m root va) PTE_V = true.
Hypothesis Hd : length data = Z.to_nat PGSIZE.
Hypothesis Hpl : evict_plan pr va seq (pteval m root va) data f = Done (w', evs, pr') f'.
Hypothesis Hset : pte_set root m m' va (u64 w').

Lemma evict_unsaved : saved !! va = None.
Proof.
  destruct (saved !! va) as [d|] eqn:E; [|done].
  destruct (sv_va _ _ _ _ _ S _ _ E) as (_ & _ & Hsw). unfold swapped in Hsw.
  rewrite Hv, andb_false_r in Hsw. done.
Qed.

Lemma evict_pte_other va' : va' mod PGSIZE = 0 -> 0 <= va' < TRAPFRAME -> va' <> va ->
  pteval m' root va' = pteval m root va'.
Proof.
  intros Ha' Hva' Hne. rewrite Hset by klia. rewrite decide_False; [done|]. intros E.
  apply Hne. kdlia.
Qed.

Lemma evict_pte_same : pteval m' root va = u64 w'.
Proof. rewrite Hset by klia. by rewrite decide_True. Qed.

Lemma saved_other va' d : saved !! va' = Some d -> pteval m' root va' = pteval m root va'.
Proof.
  intros Hs. destruct (sv_va _ _ _ _ _ S _ _ Hs) as (? & ? & _). apply evict_pte_other; try done.
  intros ->. rewrite evict_unsaved in Hs. done.
Qed.

(** The pages saved before are still there. *)
Lemma evict_old_page va' d : saved !! va' = Some d ->
  let slot := PTE_SLOT (pteval m' root va') in
  0 <= slot < 1024 /\ slot_used (p_swap_slots pr') slot = true /\ p_swap_inode pr' <> 0 /\
  length d = Z.to_nat PGSIZE /\ slot_page (fs_file f' (p_swap_inode pr')) slot = d.
Proof.
  intros Hs. rewrite (saved_other _ _ Hs).
  destruct (sv_page _ _ _ _ _ S _ _ Hs) as (Hr & Hu & Hnz & Hl & Hp).
  destruct (evict_plan_swap _ _ _ _ _ _ _ _ _ _ (sv_slots _ _ _ _ _ S) Hd Hpl) as (_ & Hk & Hc).
  destruct (Hk Hnz) as [Ei Hf]. split; [done|]. split; [|split; [congruence|split; [done|]]].
  - destruct Hc as [[_ E]|(slot & _ & _ & E & _)]; [by rewrite E|].
    rewrite E by lia. by rewrite Hu, orb_true_r.
  - rewrite Ei, Hf by done. exact Hp.
Qed.

(** If the page was written to swap, it is saved too. *)
Definition evict_saved : gmap Z (list Z) := if w' =? 0 then saved else <[va := data]> saved.

Lemma evict_swinv : swinv root m' pr' f' evict_saved.
Proof.
  destruct (evict_plan_swap _ _ _ _ _ _ _ _ _ _ (sv_slots _ _ _ _ _ S) Hd Hpl) as (Hl & Hk & Hc).
  unfold evict_saved. destruct Hc as [[E0 Hsl]|(slot & Hr & Hfree & Hsl & Ew & Hi & Hp)].
  - rewrite E0, Z.eqb_refl. split; [done|..].
    + intros va' d Hs. destruct (sv_va _ _ _ _ _ S _ _ Hs) as (? & ? & ?).
      rewrite (saved_other _ _ Hs). done.
    + apply evict_old_page.
    + intros v1 v2 d1 d2 H1 H2. rewrite (saved_other _ _ H1), (saved_other _ _ H2).
      by apply (sv_inj _ _ _ _ _ S _ _ d1 d2).
    + intros va' Ha' Hr' Hsw. destruct (decide (va' = va)) as [->|].
      * rewrite evict_pte_same, E0 in Hsw. done.
      * rewrite evict_pte_other in Hsw by done. by apply (sv_all _ _ _ _ _ S).
  - destruct (swap_pte_spec slot (pteval m root va) Hr) as (Eu & Hsw & Es).
    rewrite (proj2 (Z.eqb_neq _ _)) by (rewrite Ew; intros E; rewrite E in Hsw; done).
    pose proof evict_pte_same as Evw. rewrite Ew, Eu in Evw.
    split; [done|..].
    + intros va' d. destruct (decide (va' = va)) as [->|].
      * intros _. rewrite Evw. done.
      * rewrite lookup_insert_ne by done. intros Hs.
        destruct (sv_va _ _ _ _ _ S _ _ Hs) as (? & ? & ?). by rewrite (saved_other _ _ Hs).
    + intros va' d. destruct (decide (va' = va)) as [->|].
      * rewrite lookup_insert_eq. intros [= <-]. rewrite Evw, Es. split_and!; try done; try lia.
        rewrite Hsl by lia. by rewrite Z.eqb_refl.
      * rewrite lookup_insert_ne by done. apply evict_old_page.
    + assert (Hnew : forall v d, saved !! v = Some d -> PTE_SLOT (pteval m' root v) <> slot).
      { intros v d Hs E. rewrite (saved_other _ _ Hs) in E.
        destruct (sv_page _ _ _ _ _ S _ _ Hs) as (_ & Hu & _). rewrite E in Hu. congruence. }
      intros v1 v2 d1 d2. destruct (decide (v1 = va)) as [->|], (decide (v2 = va)) as [->|]; try done.
      * intros _ H2. rewrite lookup_insert_ne in H2 by done. rewrite Evw, Es. intros E.
        by destruct (Hnew _ _ H2).
      * intros H1 _. rewrite lookup_insert_ne in H1 by done. rewrite Evw, Es. intros E.
        by destruct (Hnew _ _ H1).
      * rewrite !lookup_insert_ne by done. intros H1 H2.
        rewrite (saved_other _ _ H1), (saved_other _ _ H2). by apply (sv_inj _ _ _ _ _ S _ _ d1 d2).
    + intros va' Ha' Hr' Hsw'. destruct (decide (va' = va)) as [->|].
      * rewrite lookup_insert_eq. by eexists.
      * rewrite lookup_insert_ne by done. rewrite evict_pte_other in Hsw' by done.
        by apply (sv_all _ _ _ _ _ S).
Qed.
End evict.

Lemma fs_quiet_file (f f' : F) ip : fs_quiet f f' -> fs_file f' ip = fs_file f ip.
Proof.
  intros [(ip' & [E|E])|(ip' & off & n & bs & E)].
  - by eapply file_ilock.
  - by eapply file_iunlock.
  - by apply (file_readi _ _ _ _ _ _ E).
Qed.

(** *** Any number of steps *)

(** Steps that keep the entries of swapped-out pages keep the saved pages. *)
Lemma swinv_keep root m pr (f : F) m' pr' f' saved :
  swinv root m pr f saved ->
  (forall va data, saved !! va = Some data -> pteval m' root va = pteval m root va) ->
  (forall va, va mod PGSIZE = 0 -> 0 <= va < TRAPFRAME -> swapped (pteval m' root va) = true ->
     pteval m' root va = pteval m root va) ->
  p_swap_slots pr' = p_swap_slots pr -> p_swap_inode pr' = p_swap_inode pr ->
  fs_file f' (p_swap_inode pr) = fs_file f (p_swap_inode pr) ->
  swinv root m' pr' f' saved.
Proof.
  intros [Sl Sv Sp Si Sa] Hold Hnew Es Ei Ef. split.
  - congruence.
  - intros va d Hs. rewrite (Hold _ _ Hs). eauto.
  - intros va d Hs. rewrite (Hold _ _ Hs), Es, Ei, Ef. by apply Sp.
  - intros v1 v2 d1 d2 H1 H2. rewrite (Hold _ _ H1), (Hold _ _ H2). eauto.
  - intros va Ha Hr Hsw. apply Sa; try done. by rewrite <- Hnew.
Qed.

Lemma swinv_evol root m pr (f : F) m' pr' f' :
  evol root m pr f m' pr' f' -> forall saved, swinv root m pr f saved ->
  exists saved', swinv root m' pr' f' saved' /\ saved ⊆ saved'.
Proof.
  induction 1 as [m pr f m' pr' Hp Es Ei|m pr f m' pr' f' va seq data w' evs Ha Hva Hv Hd Hl Hpl Hset
    |m pr f f' Hq|m pr f m' va w Hva Hns Hw Hset|m1 pr1 f1 m2 pr2 f2 m3 pr3 f3 _ IH1 _ IH2]; intros saved S.
  - exists saved. split; [|done]. eapply swinv_keep; try done.
    + intros va d Hs. destruct (sv_va _ _ _ _ _ S _ _ Hs) as (_ & ? & _). apply Hp. klia.
    + intros va Ha Hr Hsw. apply Hp. klia.
  - exists (evict_saved saved va w' data). split; [by eapply evict_swinv|].
    unfold evict_saved. destruct (w' =? 0); [done|]. apply insert_subseteq.
    by eapply (evict_unsaved root m pr f).
  - exists saved. split; [|done]. eapply swinv_keep; try done. by apply fs_quiet_file.
  - exists saved. split; [|done].
    assert (Hne : forall v, v mod PGSIZE = 0 -> 0 <= v < TRAPFRAME -> v / 4096 <> va / 4096 ->
      pteval m' root v = pteval m root v).
    { intros v _ Hr Hne. rewrite Hset by klia. by rewrite decide_False. }
    eapply swinv_keep; try done.
    + intros v d Hs. destruct (sv_va _ _ _ _ _ S _ _ Hs) as (? & ? & Hsw). apply Hne; try done.
      intros E. rewrite (pteval_same_page _ _ _ va) in Hsw by (done || lia). congruence.
    + intros v Ha Hr Hsw. apply Hne; try done. intros E. rewrite Hset in Hsw by klia.
      rewrite decide_True in Hsw by done. unfold swapped in Hsw. rewrite Hw, andb_false_r in Hsw. done.
  - destruct (IH1 _ S) as (saved2 & S2 & H2). destruct (IH2 _ S2) as (saved3 & S3 & H3).
    exists saved3. split; [done|]. by etrans.
Qed.
End swap_fs.
