(* ===== verification/SwapInSpec.v ===== *)
(** * Bringing a swapped-out page back

    Branch 1 of the page-fault handler ([swap_in] of Trap.v): the page returns
    with the contents it had when it was evicted, and its slot is free again. *)

From S2P Require Import Prelude Riscv Kernel Mem Inv Queue Kmem Swap Walk Pt Replace ResidentSpec EvictSpec AllocSpec Elf Vm Proc Trap WalkSpec FaultSpec ExecFaultSpec SwapSpec.

(** The permissions a swapped-out entry carries. *)
Definition swap_perms (w : Z) : Z :=
  Z.lor (Z.land w (Z.lor (Z.lor (Z.lor PTE_R PTE_W) PTE_X) PTE_U)) PTE_V.

Lemma swap_perms_range w : 0 <= swap_perms w < 1024.
Proof.
  unfold swap_perms. change (Z.lor (Z.lor (Z.lor PTE_R PTE_W) PTE_X) PTE_U) with 30.
  change PTE_V with 1.
  assert (E : Z.lor (Z.land w 30) 1 = Z.land (Z.lor (Z.land w 30) 1) 31).
  { rewrite Z.land_lor_distr_l, <- Z.land_assoc. done. }
  rewrite E. change 31 with (Z.ones 5). rewrite Z.land_ones by lia.
  pose proof (Z.mod_pos_bound (Z.lor (Z.land w 30) 1) (2 ^ 5)). lia.
Qed.

(** Changes after an allocation, and then relative to the state in which the
    allocated page is free again. *)
Lemma kfault_after root va0 i own own1 own0 own' m m1 m0 m' mem :
  own !! root = Some (RTable root []) ->
  kgrow root i own own1 m m1 -> fresh i own mem ->
  (forall pa, pa <> mem -> own0 !! pa = own1 !! pa) ->
  (forall pa r, own1 !! pa = Some r -> is_table r = false -> pa <> mem -> m0 !! pa = m1 !! pa) ->
  (forall rt va, own1 !! rt = Some (RTable rt []) -> 0 <= va < MAXVA ->
     rt <> root \/ va / 4096 <> va0 / 4096 -> pteval m0 rt va = pteval m1 rt va) ->
  kfault root va0 i own0 own' m0 m' -> kfault root va0 i own own' m m'.
Proof.
  intros HR [R1 M1 _ P1 U1] Hf Ho Hm Hp [R2 M2 P2 U2].
  assert (Hne : forall pa r, own !! pa = Some r -> r <> RFree -> r <> RNode i -> pa <> mem)
    by (intros; by eapply not_eq_sym, fresh_ne).
  assert (H01 : forall pa r, own !! pa = Some r -> r <> RFree -> r <> RNode i ->
    own0 !! pa = own1 !! pa) by eauto.
  split.
  - intros pa r Hpa ? ? ?. apply R2; try done. rewrite (H01 _ _ Hpa) by done. eauto.
  - intros pa r Hpa ? ? ? Ht. rewrite (M2 pa r); try done; [|by rewrite (H01 _ _ Hpa); eauto].
    rewrite (Hm pa r); eauto.
  - intros rt va Hrt Hva Hd. assert (own1 !! rt = Some (RTable rt [])) by eauto.
    destruct (P2 rt va) as [->|(-> & Hv & Hv')]; try done; [by rewrite (H01 _ _ Hrt)|..].
    + rewrite Hp by done. by apply P1.
    + right. split; [done|]. split; [|done]. rewrite Hp in Hv by done.
      destruct (P1 root va Hrt Hva) as [<-|(_ & ? & _)]; done.
  - intros pa va Hpa Hva Hd Hv. assert (HR1 : own1 !! root = Some (RTable root [])) by eauto.
    assert (Hv0 : has (pteval m0 root va) PTE_V = true).
    { destruct (P2 root va) as [<-|(_ & ? & _)]; try done; [by rewrite (H01 _ _ HR)|by right]. }
    rewrite Hp in Hv0 by (done || by right). destruct (U1 _ _ Hpa Hva Hv0) as [Hr1 Hm1].
    assert (pa <> mem) by eauto.
    destruct (U2 pa va) as [? Hm2]; try done; [by rewrite Ho|]. split; [done|].
    rewrite Hm2, <- Hm1. by eapply Hm.
Qed.

Lemma take_length_eq {A} n k (l : list A) : length (take n l) = k -> take k l = take n l.
Proof.
  rewrite length_take. intros <-. destruct (decide (n <= length l)%nat).
  - by rewrite Nat.min_l.
  - by rewrite Nat.min_r, !take_ge by lia.
Qed.

Section steps.
Context {F : Type} `{FsOps F}.
Implicit Types s : kstate F.

(** Messages change nothing else. *)
Lemma pinv_console own s i pr q c : pinv own s i pr q -> pinv own (set_k_console c s) i pr q.
Proof. intros [[] ? ? ? ?]. by split; [split|..]. Qed.

(** Marking the process killed. *)
Lemma wstep_killed own s i pr q own' s' pr' q' :
  wstep own s i pr q own' s' pr' q' ->
  exists s2, setkilled i s' = Done tt s2 /\ wstep own s i pr q own' s2 (set_p_killed 1 pr') q' /\
    k_mem s2 = k_mem s' /\ k_fs s2 = k_fs s' /\ k_console s2 = k_console s'.
Proof.
  intros [P G E (fl & m & evs & f & ->) Q U V]. pose proof (pi_rs _ _ _ _ _ P) as R.
  pose proof (rs_proc _ _ _ _ _ R) as Hp. pose proof (rs_plock _ _ _ _ _ R) as Hlk.
  pose proof (lookup_lt_Some _ _ _ Hp) as Hi.
  exists (kevict s fl m i (set_p_killed 1 pr') evs f). split; [|split; [|done]].
  - unfold setkilled. kstep by (by apply acquire_eq). kstep by (eapply modp_eq; ksimpl; done).
    erewrite release_eq; [|ksimpl; done|done]. unfold kevict, kupd; ksimpl. f_equal.
    rewrite list_insert_insert_eq. by destruct s.
  - assert (Hlen : (i < length (k_procs s))%nat).
    { revert Hi. unfold kevict, kupd; ksimpl. by rewrite length_insert. }
    split; try done.
    + destruct P as [[? ? ? ? ?] ? ? ? ?]. split; [split|..]; try done.
      unfold kevict, kupd; ksimpl. by apply list_lookup_insert_eq.
    + destruct E as (k & h & t & si & sl & ->). exists 1, h, t, si, sl. by destruct pr.
    + by exists fl, m, evs, f.
    + eapply evol_trans; [exact V|]. by apply evol_same.
Qed.

(** The state before the allocation of a page that is in the hands of the code:
    the one in which it is free. *)
Lemma wstep_unalloc own s i pr q c :
  pinv own s i pr q -> own !! c = Some RLoose ->
  wstep (<[c := RFree]> own) (kfreed c s) i pr q own s pr q.
Proof.
  intros P Hc. pose proof (pi_root _ _ _ _ _ P) as HR. pose proof (pi_rs _ _ _ _ _ P) as R.
  assert (Hne : forall pa r, <[c := RFree]> own !! pa = Some r -> r <> RFree ->
    pa <> c /\ own !! pa = Some r).
  { intros pa r. destruct (decide (pa = c)) as [->|]; [rewrite lookup_insert_eq; congruence|].
    by rewrite lookup_insert_ne. }
  assert (Hm : forall pa, pa <> c -> k_mem (kfreed c s) !! pa = k_mem s !! pa)
    by (intros pa Hpa; unfold kfreed; ksimpl; by rewrite lookup_insert_ne).
  split; try done.
  - split.
    + intros pa r Hpa ? _ _. by apply Hne.
    + intros pa r Hpa ? _ _ _. symmetry. apply Hm. by eapply Hne.
    + intros pa rt path pg j Hpa _ Hpg _ _. exists pg. split; [|done].
      rewrite <- Hm; [done|]. by eapply Hne.
    + intros rt va Hrt Hva. left. symmetry. eapply freed_pteval; [done..|]. by apply (Hne _ _ Hrt).
    + intros pa va Hpa Hva _. destruct (Hne _ _ Hpa) as [? ?]; [done|]. by rewrite Hm.
  - apply pext_refl.
  - exists (k_freelist s), (k_mem s), [], (k_fs s). unfold kevict, kfreed, kupd; ksimpl.
    rewrite app_nil_r, list_insert_id by apply R. by destruct s.
  - intros va Hva _. symmetry. by eapply freed_pteval.
  - apply evol_same; [|done..]. intros va Hva. symmetry. by eapply freed_pteval.
Qed.
End steps.

(** ** Giving up the slot and clearing the entry *)
Section clear.
Context {F : Type} `{FsOps F}.
Context (own : gmap Z role) (s : kstate F) (i : nat) (pr : proc) (q : list rnode)
  (va p0 slot : Z) (pg : list Z).
Hypothesis P : pinv own s i pr q.
Hypothesis Hva : 0 <= va < TRAPFRAME.
Hypothesis Hl : pt_leaf (k_mem s) (p_pagetable pr) va = Some p0.
Hypothesis Hpg : k_mem s !! p0 = Some pg.
Hypothesis Hinv : has (pteval (k_mem s) (p_pagetable pr) va) PTE_V = false.

Definition kcleared : kstate F :=
  set_k_mem (<[p0 := pg64_set pg (8 * PX 0 va) 0]> (k_mem s))
    (set_k_procs (<[i := set_p_swap_slots (slots_free (p_swap_slots pr) slot) pr]> (k_procs s)) s).

Local Lemma clear_KI : kinv own (k_end s) (k_mem s) (k_freelist s).
Proof. apply (rs_inv _ _ _ _ _ (pi_rs _ _ _ _ _ P)). Qed.

Lemma clear_run {A} (k : unit -> K F A) :
  (swap_slot_free i slot ;; bind (store64 (p0 + 8 * PX 0 va) 0) k) s = k tt kcleared.
Proof.
  pose proof (rs_proc _ _ _ _ _ (pi_rs _ _ _ _ _ P)) as Hp. pose proof (PX_range 0 va ltac:(lia)).
  destruct (ki_mem _ _ _ _ clear_KI _ _ Hpg) as (? & ? & _).
  kstep by (by apply modp_eq). by kstep by (eapply (store64_page _ p0 pg); [done|klia]).
Qed.

Lemma clear_set : pte_set (p_pagetable pr) (k_mem s) (k_mem kcleared) va 0.
Proof.
  intros va' Hva'. unfold kcleared; ksimpl. change 0 with (u64 0) at 2.
  apply (pteval_set_leaf _ _ _ _ _ clear_KI (pi_root _ _ _ _ _ P)); try done. klia.
Qed.

Lemma clear_other rt va' : own !! rt = Some (RTable rt []) -> 0 <= va' < MAXVA ->
  rt <> p_pagetable pr \/ va' / 4096 <> va / 4096 ->
  pteval (k_mem kcleared) rt va' = pteval (k_mem s) rt va'.
Proof.
  intros Hrt Hva' Hne. destruct (decide (rt = p_pagetable pr)) as [->|].
  - rewrite clear_set by done. rewrite decide_False; naive_solver.
  - eapply pteval_insert; [exact clear_KI|done|]. intros path.
    rewrite (pt_leaf_role _ _ _ _ _ clear_KI (pi_root _ _ _ _ _ P) _ _ Hl). congruence.
Qed.

Lemma clear_frame pa r : own !! pa = Some r -> is_table r = false ->
  k_mem kcleared !! pa = k_mem s !! pa.
Proof.
  intros Hr Ht. unfold kcleared; ksimpl. rewrite lookup_insert_ne; [done|]. intros <-.
  rewrite (pt_leaf_role _ _ _ _ _ clear_KI (pi_root _ _ _ _ _ P) _ _ Hl) in Hr. by simplify_eq.
Qed.

Lemma clear_pinv :
  pinv own kcleared i (set_p_swap_slots (slots_free (p_swap_slots pr) slot) pr) q.
Proof.
  pose proof (pi_rs _ _ _ _ _ P) as R. pose proof (rs_proc _ _ _ _ _ R) as Hp.
  pose proof (lookup_lt_Some _ _ _ Hp) as Hi.
  assert (P1 : pinv own (set_k_mem (k_mem kcleared) s) i pr q).
  { eapply pinv_mem; [exact P|..].
    - eapply (kinv_set_leaf _ _ _ _ _ clear_KI (pi_root _ _ _ _ _ P)); try done. klia.
    - done.
    - intros n Hn. by apply (clear_frame n (RNode i)).
    - apply P.
    - intros x Hx. pose proof (pi_pages _ _ _ _ _ P) as Hps. rewrite Forall_forall in Hps.
      destruct (Hps x Hx) as (_ & Hxr & Hxv). rewrite clear_other; [done|apply P|klia|]. right.
      intros E. rewrite (pteval_same_page _ _ _ va) in Hxv by (done || lia). congruence. }
  destruct P1 as [[? ? ? ? ?] ? ? ? Hsl]. split; [split|..]; try done.
  - unfold kcleared; ksimpl. by apply list_lookup_insert_eq.
  - psimpl. by rewrite length_slots_free.
Qed.
End clear.

(** A page that leaves the swap file. *)
Lemma swinv_in {F} `{FsOps F} `{!FsSwap F} root m pr (f : F) saved m' pr' va data :
  swinv root m pr f saved -> saved !! va = Some data -> pte_set root m m' va 0 ->
  p_swap_slots pr' = slots_free (p_swap_slots pr) (PTE_SLOT (pteval m root va)) ->
  p_swap_inode pr' = p_swap_inode pr ->
  swinv root m' pr' f (delete va saved).
Proof.
  intros S Hs Hset Es Ei. pose proof (sv_slots _ _ _ _ _ S) as Hl.
  destruct (sv_va _ _ _ _ _ S _ _ Hs) as (Ha & Hr & _).
  destruct (sv_page _ _ _ _ _ S _ _ Hs) as (Hsl & _).
  assert (Hoth : forall v d, delete va saved !! v = Some d ->
    v <> va /\ saved !! v = Some d /\ pteval m' root v = pteval m root v).
  { intros v d Hd. apply lookup_delete_Some in Hd as [Hne Hv].
    destruct (sv_va _ _ _ _ _ S _ _ Hv) as (Hva & Hvr & _). split; [done|]. split; [done|].
    rewrite Hset by klia. rewrite decide_False; [done|]. intros E. apply Hne. kdlia. }
  split.
  - rewrite Es. by rewrite length_slots_free.
  - intros v d Hd. destruct (Hoth _ _ Hd) as (_ & Hv & ->). by eapply sv_va.
  - intros v d Hd. destruct (Hoth _ _ Hd) as (Hne & Hv & ->).
    destruct (sv_page _ _ _ _ _ S _ _ Hv) as (Hrv & Hu & ? & ? & ?).
    rewrite Es, Ei. split_and!; try done; try lia. rewrite slots_free_used by lia.
    rewrite (proj2 (Z.eqb_neq _ _)); [done|]. intros E. apply Hne. by eapply (sv_inj _ _ _ _ _ S).
  - intros v1 v2 d1 d2 H1 H2. destruct (Hoth _ _ H1) as (_ & ? & ->), (Hoth _ _ H2) as (_ & ? & ->).
    by eapply (sv_inj _ _ _ _ _ S).
  - intros v Hva Hvr. rewrite Hset by klia. case_decide as E; [done|]. intros Hsw.
    rewrite lookup_delete_ne by congruence. by apply (sv_all _ _ _ _ _ S).
Qed.

Section swap_in.
Context {F : Type} `{FsOps F}.
Implicit Types s : kstate F.

(** [mappages] where the leaf table exists does not allocate, so it cannot
    fail. *)
Lemma mappages_leaf own0 s0 i pr0 q0 own s pr q rt va pa perm p0 :
  pinv own0 s0 i pr0 q0 -> wstep own0 s0 i pr0 q0 own s pr q ->
  own !! rt = Some (RTable rt []) -> va mod PGSIZE = 0 -> 0 <= va < TRAPFRAME -> 0 <= perm < 1024 ->
  own !! pa = Some RLoose -> pt_leaf (k_mem s) rt va = Some p0 ->
  has (pteval (k_mem s) rt va) PTE_V = false ->
  exists own' s', mappages rt va PGSIZE pa perm s = Done 0 s' /\
    k_mem s' !! pa = k_mem s !! pa /\ mapped own0 s0 i pr0 q0 rt va pa perm own' s' pr q.
Proof.
  intros P0 W Hrt Ha Hva Hperm Hpa Hl Hinv. unfold mappages. rewrite Ha, Z.eqb_refl.
  change (PGSIZE mod PGSIZE =? 0) with true. change (PGSIZE =? 0) with false. cbn [negb].
  change (Z.to_nat (PGSIZE / PGSIZE)) with 1%nat. cbn [mappages_loop].
  pose proof (rs_inv _ _ _ _ _ (pi_rs _ _ _ _ _ (ws_pinv _ _ _ _ _ _ _ _ _ W))) as KI.
  pose proof (slot_nonzero _ _ _ _ _ KI Hrt _ _ Hl) as Hnz.
  pose proof (walk0_eq _ _ _ _ _ KI Hrt s va eq_refl ltac:(klia)) as Ew. rewrite Hl in Ew.
  unfold walk. kstep by (by eapply walk_present). rewrite (proj2 (Z.eqb_neq _ _)) by done.
  destruct (pteval_leaf _ _ _ _ _ KI Hrt _ _ Hl) as (pg & Hpg & Ev).
  pose proof (PX_range 0 va ltac:(lia)).
  kstep by (by eapply load_entry; [exact KI|done|exact Hpg|]).
  rewrite <- Ev, Hinv. kstep by (eapply (store64_page _ p0 pg); [|klia];
    destruct (ki_mem _ _ _ _ KI _ _ Hpg) as (? & ? & _); done).
  replace (u64 (va + PGSIZE - PGSIZE)) with va
    by (replace (va + PGSIZE - PGSIZE) with va by lia; rewrite u64_small; klia).
  rewrite Z.eqb_refl. do 2 eexists. split; [done|]. split; [|by apply map_leaf].
  ksimpl. pose proof (pt_leaf_role _ _ _ _ _ KI Hrt _ _ Hl).
  rewrite lookup_insert_ne by congruence. done.
Qed.

(** The last part of [swap_in]: recording the page. *)
Definition note_swapin (p : nat) (va : Z) : K F unit :=
  let* pr := getp p in
  add_to_resident_set p va (p_fifo_seq_num pr) ;;
  let* pr := getp p in
  printf (EvResident (p_pid pr) va (p_fifo_seq_num pr)) ;;
  modp p (fun pr => set_p_fifo_seq_num (s32 (p_fifo_seq_num pr + 1)) pr).

Definition swapin_tail (pid va seq : Z) : list event := [EvResident pid va seq].

Lemma note_swapin_spec i va : notes i va (note_swapin i va) swapin_tail.
Proof.
  intros own s pr q P Hcur Ha Hva Hv Hun. unfold note_swapin.
  pose proof (rs_proc _ _ _ _ _ (pi_rs _ _ _ _ _ P)) as Hp.
  pose proof (lookup_lt_Some _ _ _ Hp) as Hi.
  unfold wpe. kstep by (by apply getp_eq). apply wpe_bind.
  eapply wpe_mono; [by eapply add_spec|done|].
  intros [] s1 (own1 & pr1 & q1 & node & P1 & Hq & G & E & (fl & m & evs & f & ->) & V & Hk).
  assert (Epid : p_pid pr1 = p_pid pr /\ p_fifo_seq_num pr1 = p_fifo_seq_num pr)
    by (by destruct E as (? & ? & ? & ? & ? & ->)). destruct Epid as [Epid Eseq].
  unfold wpe. kstep by (by apply getp_nf). rewrite Epid, Eseq.
  kstep by (by apply printf_nf). rewrite modp_nf by done. cbn beta. rewrite Eseq.
  exists own1, (set_p_fifo_seq_num (s32 (p_fifo_seq_num pr + 1)) pr1), q1, node.
  split; [|split; [done|split; [done|split; [|split; [|split]]]]].
  - destruct P1 as [[? ? ? ? ?] ? ? ? ?]. split; [split|..]; try done. by apply kevict_proc.
  - destruct E as (k & h & t & si & sl & ->). exists k, h, t, si, sl. by destruct pr.
  - by exists fl, m, evs, f.
  - eapply evol_trans; [exact V|]. by apply evol_same.
  - done.
Qed.

Context `{!FsReads F} `{!FsSwap F}.

(** The page is back, with its old contents and permissions; the other
    swapped-out pages are still saved. *)
Definition swapin_done (own : gmap Z role) s (i : nat) (pr : proc) (q : list rnode)
    (va : Z) (saved : gmap Z (list Z)) (data : list Z) s' : Prop :=
  exists own' pr' q' node mem saved',
    pinv own' s' i pr' (q' ++ [mkRn node va (s32 (p_fifo_seq_num pr))]) /\ q' `suffix_of` q /\
    kfault (p_pagetable pr) va i own own' (k_mem s) (k_mem s') /\
    pext (set_p_fifo_seq_num (s32 (p_fifo_seq_num pr + 1)) pr) pr' /\
    pteval (k_mem s') (p_pagetable pr) va =
      map_pte mem (swap_perms (pteval (k_mem s) (p_pagetable pr) va)) /\
    own' !! mem = Some (RUser (p_pagetable pr) va) /\ k_mem s' !! mem = Some data /\
    swinv (p_pagetable pr) (k_mem s') pr' (k_fs s') saved' /\ delete va saved ⊆ saved' /\
    exists fl m evs f, s' = kevict s fl m i pr' (evs ++ swapin_tail (p_pid pr) va (p_fifo_seq_num pr)) f.

(** Why a page cannot be brought back: there is no free page and none to evict,
    or the file system delivers less than a page. *)
Definition swapin_fails s (q : list rnode) : Prop :=
  (k_freelist s = 0 /\ q = []) \/
  exists ip off (f : F) bs f', fs_readi ip off PGSIZE f = Done bs f' /\ Z.of_nat (length bs) <> PGSIZE.

(** The process is marked killed; the page is still saved in its slot. *)
Definition swapin_killed (own : gmap Z role) s (i : nat) (pr : proc) (q : list rnode)
    (va : Z) (saved : gmap Z (list Z)) s' : Prop :=
  swapin_fails s q /\
  exists own' pr' q' saved', wstep own s i pr q own' s' pr' q' /\ p_killed pr' = 1 /\
    pteval (k_mem s') (p_pagetable pr) va = pteval (k_mem s) (p_pagetable pr) va /\
    swinv (p_pagetable pr) (k_mem s') pr' (k_fs s') saved' /\ saved ⊆ saved'.

Section run.
Context (own : gmap Z role) (s : kstate F) (i : nat) (pr : proc) (q : list rnode)
  (va p0 : Z) (saved : gmap Z (list Z)) (data : list Z).
Let root := p_pagetable pr.
Let w := pteval (k_mem s) root va.
Hypothesis P : pinv own s i pr q.
Hypothesis Hcur : k_cur s = Some i.
Hypothesis S : swinv root (k_mem s) pr (k_fs s) saved.
Hypothesis Hs : saved !! va = Some data.
Hypothesis Hl : pt_leaf (k_mem s) root va = Some p0.

Local Lemma run_va : va mod PGSIZE = 0 /\ 0 <= va < TRAPFRAME /\ has w PTE_V = false.
Proof.
  destruct (sv_va _ _ _ _ _ S _ _ Hs) as (? & ? & Hsw). split; [done|]. split; [done|].
  unfold swapped in Hsw. fold w in Hsw. by destruct (has w PTE_V); [rewrite andb_false_r in Hsw|].
Qed.

(** What holds of the page after other pages may have been evicted. *)
Local Lemma run_step own1 s1 pr1 q1 : wstep own s i pr q own1 s1 pr1 q1 ->
  pteval (k_mem s1) root va = w /\ pt_leaf (k_mem s1) root va = Some p0 /\
  p_pagetable pr1 = root /\
  exists saved1, swinv root (k_mem s1) pr1 (k_fs s1) saved1 /\ saved ⊆ saved1.
Proof.
  intros W. destruct run_va as (_ & Hr & Hv). pose proof (ws_grow _ _ _ _ _ _ _ _ _ W) as G.
  pose proof (pi_root _ _ _ _ _ P) as HR. split; [|split; [|split]].
  - destruct (kg_pte _ _ _ _ _ _ G root va HR ltac:(klia)) as [E|(_ & E & _)]; [done|].
    fold w in E. congruence.
  - eapply pt_leaf_grow; [apply (rs_inv _ _ _ _ _ (pi_rs _ _ _ _ _ P))|done..].
  - apply (pext_pagetable _ _ (ws_pext _ _ _ _ _ _ _ _ _ W)).
  - by apply (swinv_evol _ _ _ _ _ _ _ (ws_evol _ _ _ _ _ _ _ _ _ W)).
Qed.

Local Lemma run_pg own1 s1 pr1 q1 : wstep own s i pr q own1 s1 pr1 q1 ->
  exists pg, k_mem s1 !! p0 = Some pg.
Proof.
  intros W. destruct (run_step _ _ _ _ W) as (_ & Hl1 & Ept & _).
  pose proof (ws_pinv _ _ _ _ _ _ _ _ _ W) as P1.
  pose proof (rs_inv _ _ _ _ _ (pi_rs _ _ _ _ _ P1)) as KI1.
  pose proof (pi_root _ _ _ _ _ P1) as HR. rewrite Ept in HR.
  destruct (pteval_leaf _ _ _ _ _ KI1 HR _ _ Hl1) as (pg & ? & _). by exists pg.
Qed.

Local Lemma run_killed own1 s1 pr1 q1 : swapin_fails s q -> wstep own s i pr q own1 s1 pr1 q1 ->
  wpe exec_stop (setkilled i) (fun _ => swapin_killed own s i pr q va saved) s1.
Proof.
  intros Hfl W. destruct (wstep_killed _ _ _ _ _ _ _ _ _ W) as (s2 & E & W2 & _).
  eapply wpe_done; [done|]. split; [done|]. destruct (run_step _ _ _ _ W2) as (Ew & _ & _ & saved1 & S1 & Hsub).
  by exists own1, (set_p_killed 1 pr1), q1, saved1.
Qed.

Local Lemma run_free_killed own1 s1 pr1 q1 mem :
  swapin_fails s q -> wstep own s i pr q own1 s1 pr1 q1 -> fresh i own mem -> own1 !! mem = Some RLoose ->
  wpe exec_stop (kfree mem ;; setkilled i) (fun _ => swapin_killed own s i pr q va saved) s1.
Proof.
  intros Hfl W Hf Hc.
  destruct (wstep_free _ _ _ _ _ _ _ _ _ _ P W Hf Hc) as (own2 & s2 & Ek & W2 & _).
  unfold wpe. kstep by exact Ek. by eapply run_killed.
Qed.

(** The part after the page has been read. *)
Section finish.
Context (own1 : gmap Z role) (s1 : kstate F) (pr1 : proc) (q1 : list rnode) (mem : Z).
Hypothesis W : wstep own s i pr q own1 s1 pr1 q1.
Hypothesis Hf : fresh i own mem.
Hypothesis Hc : own1 !! mem = Some RLoose.
Hypothesis Hd : k_mem s1 !! mem = Some data.

Context (pg : list Z).
Hypothesis Hpg : k_mem s1 !! p0 = Some pg.
Let slot := PTE_SLOT w.
Let s4 := kcleared s1 i pr1 va p0 slot pg.
Let pr4 := set_p_swap_slots (slots_free (p_swap_slots pr1) slot) pr1.
Let own0 := <[mem := RFree]> own1.
Let s0 := kfreed mem s4.

Local Lemma fin_slot : 0 <= slot < 1024.
Proof.
  destruct (run_step _ _ _ _ W) as (Ew & _ & _ & saved1 & S1 & Hsub).
  pose proof (lookup_weaken _ _ _ _ Hs Hsub) as Hs1.
  destruct (sv_page _ _ _ _ _ S1 _ _ Hs1) as (Hr & _). by rewrite Ew in Hr.
Qed.

Local Lemma fin_leaf : pt_leaf (k_mem s1) (p_pagetable pr1) va = Some p0 /\
  has (pteval (k_mem s1) (p_pagetable pr1) va) PTE_V = false.
Proof.
  destruct (run_step _ _ _ _ W) as (Ew & Hl1 & -> & _). split; [done|]. rewrite Ew. apply run_va.
Qed.

Local Lemma fin_pinv : pinv own1 s4 i pr4 q1.
Proof.
  destruct fin_leaf. destruct run_va as (_ & ? & _).
  eapply clear_pinv; try done. apply (ws_pinv _ _ _ _ _ _ _ _ _ W).
Qed.

Local Lemma fin_set : pte_set root (k_mem s1) (k_mem s4) va 0.
Proof.
  destruct fin_leaf. destruct run_va as (_ & ? & _).
  pose proof (run_step _ _ _ _ W) as (_ & _ & <- & _).
  eapply clear_set; try done. apply (ws_pinv _ _ _ _ _ _ _ _ _ W).
Qed.

(** The state [s0] in terms of the one before the slot was given up. *)
Local Lemma fin_pteval rt va' : own1 !! rt = Some (RTable rt []) ->
  pteval (k_mem s0) rt va' = pteval (k_mem s4) rt va'.
Proof. intros Hrt. eapply freed_pteval; [exact fin_pinv|done|done]. Qed.

Local Lemma fin_root : own1 !! root = Some (RTable root []).
Proof.
  destruct (run_step _ _ _ _ W) as (_ & _ & <- & _).
  apply (pi_root _ _ _ _ _ (ws_pinv _ _ _ _ _ _ _ _ _ W)).
Qed.

Local Lemma fin_swinv : exists saved0,
  swinv root (k_mem s0) pr4 (k_fs s0) saved0 /\ delete va saved ⊆ saved0.
Proof.
  destruct (run_step _ _ _ _ W) as (Ew & _ & _ & saved1 & S1 & Hsub).
  pose proof (lookup_weaken _ _ _ _ Hs Hsub) as Hs1. exists (delete va saved1).
  split; [|by apply delete_mono].
  eapply (swinv_keep root (k_mem s4) pr4 (k_fs s4)); try done.
  - eapply swinv_in; [exact S1|exact Hs1|exact fin_set| |done]. unfold pr4, slot. by rewrite Ew.
  - intros va' d _. apply fin_pteval, fin_root.
  - intros va' _ _ _. apply fin_pteval, fin_root.
Qed.

Local Lemma fin_kfault own' m' :
  kfault root va i own0 own' (k_mem s0) m' -> kfault root va i own own' (k_mem s) m'.
Proof.
  intros KF. destruct fin_leaf. destruct run_va as (_ & ? & _).
  pose proof (ws_pinv _ _ _ _ _ _ _ _ _ W) as P1.
  pose proof (run_step _ _ _ _ W) as (_ & _ & Ept & _).
  eapply (kfault_after _ _ _ _ own1 own0 _ _ (k_mem s1) (k_mem s0)); try done.
  - apply P.
  - exact (ws_grow _ _ _ _ _ _ _ _ _ W).
  - intros pa Hne. unfold own0. by rewrite lookup_insert_ne.
  - intros pa r Hr Ht Hne. unfold s0, kfreed; ksimpl. rewrite lookup_insert_ne by done.
    by eapply clear_frame.
  - intros rt va' Hrt Hva' Hne. rewrite fin_pteval by done. rewrite <- Ept in Hne.
    by eapply clear_other.
Qed.

Local Lemma fin_done s' :
  fault_done own0 s0 i pr4 q1 va (swap_perms w) data swapin_tail mem s' ->
  swapin_done own s i pr q va saved data s'.
Proof.
  intros (own' & pr' & q' & node & P' & Hq & KF & E & (fl & m & evs & f & Es) & Hp & Hr & Hm & V).
  destruct fin_swinv as (saved0 & S0 & Hsub0). destruct run_va as (_ & Hva & _).
  destruct (run_step _ _ _ _ W) as (_ & _ & Ept & _).
  pose proof (ws_pext _ _ _ _ _ _ _ _ _ W) as E1.
  change (p_pagetable pr4) with (p_pagetable pr1) in *. rewrite Ept in *.
  assert (Ef : p_fifo_seq_num pr4 = p_fifo_seq_num pr /\ p_pid pr4 = p_pid pr)
    by (unfold pr4; by destruct E1 as (? & ? & ? & ? & ? & ->)).
  destruct Ef as [Ef Epid]. rewrite Ef in *. rewrite Epid in *.
  destruct (swinv_evol _ _ _ _ _ _ _ (V ltac:(
    rewrite fin_pteval, fin_set by (apply fin_root || klia); by rewrite decide_True)) _ S0)
    as (saved' & S' & Hsub').
  exists own', pr', q', node, mem, saved'. split_and!; try done.
  - etrans; [exact Hq|]. apply (ws_queue _ _ _ _ _ _ _ _ _ W).
  - by apply fin_kfault.
  - destruct E1 as (k & h & t & si & sl & ->). destruct E as (k' & h' & t' & si' & sl' & ->).
    exists k', h', t', si', sl'. unfold pr4. by destruct pr.
  - by etrans.
  - destruct (ws_state _ _ _ _ _ _ _ _ _ W) as (fl1 & m1 & evs1 & f1 & Es1).
    exists fl, m, (evs1 ++ evs), f. rewrite Es. unfold s0, s4, kfreed, kcleared. rewrite Es1.
    unfold kevict, kupd; ksimpl. rewrite !list_insert_insert_eq, !app_assoc. done.
Qed.

Lemma swapin_finish fail :
  wpe exec_stop (swap_slot_free i slot ;; store64 (p0 + 8 * PX 0 va) 0 ;;
    let* r := mappages root va PGSIZE mem (swap_perms w) in
    if negb (r =? 0) then fail else note_swapin i va)
    (fun _ => swapin_done own s i pr q va saved data) s1.
Proof.
  destruct run_va as (Ha & Hr & _). pose proof fin_slot as Hslot. destruct fin_leaf as [Hl1 Hv1].
  pose proof (ws_pinv _ _ _ _ _ _ _ _ _ W) as P1. pose proof fin_pinv as P4.
  pose proof (run_step _ _ _ _ W) as (_ & _ & Ept & _). pose proof fin_root as HR.
  unfold wpe. erewrite (clear_run own1 s1); [|done..]. fold s4.
  assert (Hv4 : pteval (k_mem s4) root va = 0) by (rewrite fin_set by klia; by rewrite decide_True).
  assert (Hl4 : pt_leaf (k_mem s4) root va = Some p0).
  { rewrite <- Ept. unfold s4, kcleared; ksimpl.
    rewrite (pt_leaf_set_leaf own1 (k_end s1) _ (k_freelist s1)); try done;
      [apply (rs_inv _ _ _ _ _ (pi_rs _ _ _ _ _ P1))|apply P1]. }
  assert (P0 : pinv own0 s0 i pr4 q1) by (by apply freed_pinv).
  assert (W0 : wstep own0 s0 i pr4 q1 own1 s4 pr4 q1) by (by apply wstep_unalloc).
  assert (Hd4 : k_mem s4 !! mem = Some data)
    by (rewrite <- Hd; by eapply (clear_frame own1 s1)).
  destruct (mappages_leaf own0 s0 i pr4 q1 own1 s4 pr4 q1 root va mem (swap_perms w) p0)
    as (own5 & s5 & Em & Em5 & Mp); try done; [apply swap_perms_range|by rewrite Hv4|].
  kstep by exact Em. cbn [Z.eqb negb]. rewrite Hd4 in Em5.
  apply (wpe_mono add_stop _ _ (fun _ => fault_done own0 s0 i pr4 q1 va (swap_perms w) data swapin_tail mem));
    [|by left|intros [] s'; apply fin_done].
  eapply (map_note own0 s0 i pr4 q1); try done.
  - unfold s0, s4, kfreed, kcleared; ksimpl.
    destruct (ws_state _ _ _ _ _ _ _ _ _ W) as (? & ? & ? & ? & ->). done.
  - change (p_pagetable pr4) with (p_pagetable pr1). rewrite Ept, fin_pteval, Hv4 by done. done.
  - left. apply lookup_insert_eq.
  - apply note_swapin_spec.
  - change (p_pagetable pr4) with (p_pagetable pr1). rewrite Ept. exact Mp.
Qed.
End finish.

(** Reading the page from its slot. *)
Lemma swapin_read own1 s1 pr1 q1 mem k :
  wstep own s i pr q own1 s1 pr1 q1 -> fresh i own mem -> own1 !! mem = Some RLoose ->
  (forall bs s2, wstep own s i pr q own1 s2 pr1 q1 ->
     (Z.of_nat (length bs) = PGSIZE -> k_mem s2 !! mem = Some data) ->
     (Z.of_nat (length bs) <> PGSIZE -> swapin_fails s q) ->
     wpe exec_stop (k bs) (fun (_ : unit) s' => swapin_done own s i pr q va saved data s' \/
       swapin_killed own s i pr q va saved s') s2) ->
  wpe exec_stop (fs (fs_ilock (p_swap_inode pr1)) ;;
    let* bs := fs (fs_readi (p_swap_inode pr1) (u32 (PTE_SLOT w * PGSIZE)) PGSIZE) in
    store_bytes mem bs ;; fs (fs_iunlock (p_swap_inode pr1)) ;; k bs)
    (fun _ s' => swapin_done own s i pr q va saved data s' \/
       swapin_killed own s i pr q va saved s') s1.
Proof.
  intros W Hf Hc Hk. destruct (run_step _ _ _ _ W) as (Ew & _ & _ & saved1 & S1 & Hsub).
  destruct (sv_page _ _ _ _ _ S1 _ _ (lookup_weaken _ _ _ _ Hs Hsub)) as (Hsl & _ & _ & Hld & Hpage).
  rewrite Ew in Hsl, Hpage. rewrite u32_small by klia.
  set (ip := p_swap_inode pr1) in *. apply wpe_fs.
  { intros x Hx. right; left. by do 2 eexists. }
  intros [] f1 El. assert (Hq1 : fs_quiet (k_fs s1) f1) by (left; exists ip; by left).
  pose proof (wstep_fs _ _ _ _ _ _ _ _ _ f1 Hq1 W) as W1. apply wpe_fs.
  { intros x Hx. right; right; right. by do 4 eexists. }
  intros bs f2 Er. pose proof (wstep_fs _ _ _ _ _ _ _ _ _ f2 (readi_quiet _ _ _ _ _ _ Er) W1) as W2.
  pose proof (readi_le _ _ _ _ _ _ Er) as Hle. ksimpl in *.
  destruct (file_readi _ _ _ _ _ _ Er) as [Hbs _]. destruct (Hbs ltac:(klia)) as [n En].
  rewrite (file_ilock _ _ _ _ ip El) in En.
  pose proof (rs_inv _ _ _ _ _ (pi_rs _ _ _ _ _ (ws_pinv _ _ _ _ _ _ _ _ _ W))) as KI.
  destruct (ki_is_page _ _ _ _ KI _ _ Hc) as (pgm & Hpgm). pose proof Hpgm as (_ & Hlm & _).
  assert (Hst : forall s', k_mem s' = k_mem s1 -> store_bytes mem bs s' =
    Done tt (set_k_mem (<[mem := splice pgm 0 bs]> (k_mem s')) s')).
  { intros s' Es. replace mem with (mem + 0) at 1 by lia.
    rewrite (store_bytes_page _ mem pgm); [done|by rewrite Es|klia|klia]. }
  unfold wpe. kstep by (by apply Hst). apply wpe_fs.
  { intros x Hx. right; right; left. by do 2 eexists. }
  intros [] f3 Eu. ksimpl in *. assert (Hq3 : fs_quiet f2 f3) by (left; exists ip; by right).
  assert (Hls : length (splice pgm 0 bs) = Z.to_nat PGSIZE) by (rewrite length_splice; klia).
  pose proof (wstep_write _ _ _ _ _ _ _ _ _ mem (splice pgm 0 bs) P W2 Hf Hc Hls) as W3.
  eapply Hk; [eapply wstep_fs; [exact Hq3|exact W3]| |].
  2:{ intros Hn. right. by exists ip, (PTE_SLOT w * PGSIZE), f1, bs, f2. }
  intros Hlen. ksimpl. rewrite lookup_insert_eq, splice_all by klia.
  rewrite <- Hpage. unfold slot_page. rewrite En in Hlen |- *.
  rewrite (take_length_eq n (Z.to_nat PGSIZE)) by klia. done.
Qed.

Lemma swap_load_spec :
  wpe exec_stop (swap_load i va (p0 + 8 * PX 0 va) (PTE_SLOT w)
      (Z.land w (Z.lor (Z.lor (Z.lor PTE_R PTE_W) PTE_X) PTE_U)))
    (fun _ s' => swapin_done own s i pr q va saved data s' \/
       swapin_killed own s i pr q va saved s') s.
Proof.
  unfold swap_load. apply wpe_bind. eapply wpe_mono; [by eapply kalloc_pstep|by left; left|].
  intros mem s1 (own1 & pr1 & q1 & PS & Hcase).
  pose proof (pstep_wstep _ _ _ _ _ _ _ _ _ P PS) as W.
  destruct Hcase as [(-> & _ & Hq & Hfl & _)|(Hc & _ & Hf)].
  { rewrite Z.eqb_refl. eapply wpe_mono; [by eapply run_killed; [left|]|done|]. by right. }
  pose proof (ws_pinv _ _ _ _ _ _ _ _ _ W) as P1.
  pose proof (rs_inv _ _ _ _ _ (pi_rs _ _ _ _ _ P1)) as KI1.
  rewrite (proj2 (Z.eqb_neq mem 0)) by (by eapply (ki_nonzero _ _ _ _ KI1)).
  unfold wpe. kstep by (apply getp_eq, (rs_proc _ _ _ _ _ (pi_rs _ _ _ _ _ P1))).
  rewrite (proj2 (Z.eqb_neq _ _)).
  2:{ destruct (run_step _ _ _ _ W) as (_ & _ & _ & saved1 & S1 & Hsub).
      by destruct (sv_page _ _ _ _ _ S1 _ _ (lookup_weaken _ _ _ _ Hs Hsub)) as (_ & _ & ? & _). }
  cbn [negb]. eapply swapin_read; try done. intros bs s2 W2 Hbs Hshort.
  destruct (Z.eqb_spec (Z.of_nat (length bs)) PGSIZE) as [Hlen|]; cbn [negb].
  2:{ eapply wpe_mono; [by eapply run_free_killed; [auto|..]|done|]. by right. }
  destruct (run_pg _ _ _ _ W2) as (pg & Hpg). destruct (run_step _ _ _ _ W2) as (_ & _ & -> & _).
  eapply wpe_mono; [by eapply swapin_finish; [exact W2|..|auto|exact Hpg]|done|]. by left.
Qed.
End run.

Lemma wstep_console own s i pr q evs own' s' pr' q' :
  wstep own (set_k_console (k_console s ++ evs) s) i pr q own' s' pr' q' ->
  wstep own s i pr q own' s' pr' q'.
Proof.
  intros [? ? ? (fl & m & evs' & f & ->) ? ? ?]. split; try done.
  exists fl, m, (evs ++ evs'), f. unfold kevict, kupd; ksimpl. by rewrite app_assoc.
Qed.

Lemma swapin_done_console own s i pr q va saved data evs s' :
  swapin_done own (set_k_console (k_console s ++ evs) s) i pr q va saved data s' ->
  swapin_done own s i pr q va saved data s'.
Proof.
  intros (own' & pr' & q' & node & mem & saved' & ? & ? & ? & ? & ? & ? & ? & ? & ? & fl & m & evs' & f & ->).
  exists own', pr', q', node, mem, saved'. split_and!; try done.
  exists fl, m, (evs ++ evs'), f. unfold kevict, kupd; ksimpl. by rewrite !app_assoc.
Qed.

Lemma swap_in_aux own s i pr q va p0 saved data acc :
  pinv own s i pr q -> k_cur s = Some i ->
  swinv (p_pagetable pr) (k_mem s) pr (k_fs s) saved -> saved !! va = Some data ->
  pt_leaf (k_mem s) (p_pagetable pr) va = Some p0 ->
  wpe exec_stop (swap_in i va (p0 + 8 * PX 0 va) (pteval (k_mem s) (p_pagetable pr) va) acc)
    (fun _ s' => swapin_done own s i pr q va saved data s' \/
       swapin_killed own s i pr q va saved s') s.
Proof.
  intros P Hcur S Hs Hl. set (w := pteval (k_mem s) (p_pagetable pr) va).
  destruct (sv_page _ _ _ _ _ S _ _ Hs) as (Hslot & _). fold w in Hslot.
  unfold swap_in, wpe. kstep by (apply getp_eq, (rs_proc _ _ _ _ _ (pi_rs _ _ _ _ _ P))).
  rewrite s32_small by lia. unfold printf at 1 2. kpure. ksimpl. rewrite <- app_assoc. cbn [app].
  match goal with |- context [k_console s ++ ?e] => set (evs := e) end.
  set (s0 := set_k_console (k_console s ++ evs) s).
  assert (P0 : pinv own s0 i pr q) by (by apply pinv_console).
  apply (wpe_mono exec_stop _ _ (fun _ s' => swapin_done own s0 i pr q va saved data s' \/
    swapin_killed own s0 i pr q va saved s')); [|done|].
  2:{ intros _ s' [Hd|(Hfl & own' & pr' & q' & saved' & W & Hk)]; [left; by eapply swapin_done_console|right].
      split; [done|]. exists own', pr', q', saved'. split; [by eapply wstep_console|done]. }
  exact (swap_load_spec own s0 i pr q va p0 saved data P0 Hcur S Hs Hl).
Qed.
End swap_in.
