(* ===== verification/DemoSwap.v ===== *)
(** * A machine that has swapped

    The in-memory file system satisfies what swapping and loading rely on, and a
    small machine with a page in its swap file satisfies [swinv]. *)

From S2P Require Import Prelude Riscv Kernel Mem Inv Queue Kmem Swap Walk Pt Replace ResidentSpec EvictSpec AllocSpec Check Elf Vm RamFs Demo WalkSpec FaultSpec ExecFaultSpec SwapSpec.

#[export] Instance ram_reads : FsReads ramfs.
Proof.
  split. intros ip off n f bs f' E. injection E as <- _. rewrite length_take. lia.
Qed.

#[export] Instance ram_swap : FsSwap ramfs.
Proof.
  refine (Build_FsSwap _ _ ram_file _ _ _ _).
  - intros ip f u f' ip' [= _ <-]. done.
  - intros ip f u f' ip' [= _ <-]. done.
  - intros ip off n f bs f' [= <- <-]. split; [|done]. intros _. by eexists.
  - intros ip data off f n f' E Hoff. cbn [fs_writei ram_ops] in E. unfold ram_write in E.
    destruct (Z.ltb_spec (Z.of_nat (length (ram_file f ip))) off) as [Hlt|Hge]; cbn [orb] in E.
    { injection E as <- <-. exists 0%nat. split; [lia|]. split; [lia|]. split; [by left|].
      unfold splice. rewrite take_0, Nat.add_0_r. cbn [app]. by rewrite take_drop. }
    destruct (ram_max <? _).
    { injection E as <- <-. exists 0%nat. split; [lia|]. split; [lia|]. split; [by left|].
      unfold splice. rewrite take_0, Nat.add_0_r. cbn [app]. by rewrite take_drop. }
    injection E as <- <-. exists (length data). split; [done|]. split; [done|].
    split; [right; lia|]. unfold ram_file at 1. cbn [rf_files]. rewrite lookup_insert_eq. cbn.
    by rewrite take_ge by lia.
Defined.

(** ** A check for [swinv] *)

Definition savedb (m : gmap Z (list Z)) (root : Z) (pr : proc) (file : list Z) (saved : list (Z * list Z)) : bool :=
  forallb (fun '(va, data) =>
    let w := pteval m root va in
    let slot := PTE_SLOT w in
    (va mod PGSIZE =? 0) && (0 <=? va) && (va <? TRAPFRAME) && swapped w &&
    (0 <=? slot) && (slot <? 1024) && slot_used (p_swap_slots pr) slot &&
    negb (p_swap_inode pr =? 0) && (length data =? Z.to_nat PGSIZE)%nat &&
    bool_decide (slot_page file slot = data)) saved.

Definition leafb (m : gmap Z (list Z)) (root : Z) (saved : list (Z * list Z)) (e : Z * role) : bool :=
  match e.2 with
  | RTable root' [i2; i1] =>
      negb (root' =? root) ||
      forallb (fun y => negb (swapped y.2) || existsb (fun x => x.1 =? va_of [i2; i1] (Z.of_nat y.1)) saved)
        (zip (seq 0 512) (entries 512 (default [] (m !! e.1))))
  | _ => true
  end.

Definition swinvb (own : gmap Z role) (m : gmap Z (list Z)) (root : Z) (pr : proc) (file : list Z)
    (saved : list (Z * list Z)) : bool :=
  (length (p_swap_slots pr) =? 128)%nat && savedb m root pr file saved &&
  bool_decide (NoDup ((fun x => PTE_SLOT (pteval m root x.1)) <$> saved)) &&
  forallb (leafb m root saved) (map_to_list own).

Lemma swinvb_sound own e m h root pr (f : ramfs) saved :
  kinv own e m h -> own !! root = Some (RTable root []) ->
  swinvb own m root pr (ram_file f (p_swap_inode pr)) saved = true ->
  swinv root m pr f (list_to_map saved).
Proof.
  intros KI HR Hb. unfold swinvb in Hb. bsplit.
  match goal with H : savedb _ _ _ _ _ = true |- _ => rename H into Hs end.
  match goal with H : NoDup _ |- _ => rename H into Hnd end.
  match goal with H : forallb (leafb _ _ _) _ = true |- _ => rename H into Hlf end.
  assert (Hel : forall va data, (list_to_map saved : gmap Z (list Z)) !! va = Some data -> (va, data) ∈ saved)
    by (intros va data; apply elem_of_list_to_map_2).
  assert (Hok : forall va data, (va, data) ∈ saved ->
    let w := pteval m root va in
    (va mod PGSIZE = 0 /\ 0 <= va < TRAPFRAME /\ swapped w = true) /\
    0 <= PTE_SLOT w < 1024 /\ slot_used (p_swap_slots pr) (PTE_SLOT w) = true /\ p_swap_inode pr <> 0 /\
    length data = Z.to_nat PGSIZE /\ slot_page (ram_file f (p_swap_inode pr)) (PTE_SLOT w) = data).
  { intros va data Hin. pose proof (forallb_elem _ _ _ Hs Hin) as Hx. cbn zeta beta iota in Hx.
    bsplit. by split_and!. }
  split.
  - done.
  - intros va data Hin%Hel. by apply (Hok _ _ Hin).
  - intros va data Hin%Hel. by apply (Hok _ _ Hin).
  - intros v1 v2 d1 d2 H1%Hel H2%Hel E.
    apply list_elem_of_lookup in H1 as [j1 H1], H2 as [j2 H2].
    assert (j1 = j2) as ->; [|congruence].
    eapply (NoDup_lookup _ _ _ (PTE_SLOT (pteval m root v1)) Hnd); rewrite list_lookup_fmap.
    + by rewrite H1.
    + rewrite H2. cbn. by rewrite E.
  - intros va Ha Hr Hsw.
    destruct (pt_leaf m root va) as [p0|] eqn:Hl; [|by rewrite (pteval_None _ _ _ Hl) in Hsw].
    pose proof (forallb_map _ _ _ _ Hlf (pt_leaf_role _ _ _ _ _ KI HR _ _ Hl)) as Hlb.
    unfold leafb in Hlb. cbn [fst snd] in Hlb. rewrite Z.eqb_refl in Hlb. cbn [negb orb] in Hlb.
    destruct (pteval_leaf _ _ _ _ _ KI HR _ _ Hl) as (pg & Hpg & Ew). rewrite Hpg in Hlb.
    pose proof (PX_range 0 va ltac:(lia)) as HX. cbn [default] in Hlb.
    pose proof (forallb_elem _ _ _ Hlb (entries_elem pg (PX 0 va) HX)) as He. cbn [fst snd] in He.
    rewrite <- Ew, Hsw in He. cbn [negb orb] in He. apply existsb_exists in He as ([v d] & Hin & E).
    cbn [fst] in E. rewrite Z2Nat.id, va_of_PX in E by klia. bsplit. subst v.
    apply list_elem_of_In in Hin. replace va with (va / 4096 * 4096) by kdlia.
    destruct (list_to_map saved !! (va / 4096 * 4096)) eqn:El; [by eexists|].
    apply not_elem_of_list_to_map_2 in El. destruct El. apply list_elem_of_fmap. by exists (va / 4096 * 4096, d).
Qed.

(** ** Twelve pages, four of the heap touched, the oldest swapped out *)

Definition demo_page : list Z := splice (fill 0) 0 [104; 101; 108; 108; 111].

Definition demo_swap : kstate ramfs :=
  Eval vm_compute in exec (store_bytes (dpage 3) [104; 101; 108; 108; 111] ;;
    let* r := kalloc in kfree r) demo_full.

Definition demo_swap_own : gmap Z role := <[dpage 3 := RFree]> (<[dpage 6 := RFree]> demo_full_own).
Definition demo_swap_q : list rnode := tail demo_full_q.
Definition demo_saved : gmap Z (list Z) := list_to_map [(0, demo_page)].

Lemma demo_swap_pinv : pinv demo_swap_own demo_swap 0 (demo_pr demo_swap) demo_swap_q.
Proof.
  apply (pinvb_sound _ [dpage 6; dpage 3]); [|reflexivity]. by vm_compute.
Qed.

Lemma demo_swap_swinv :
  swinv (p_pagetable (demo_pr demo_swap)) (k_mem demo_swap) (demo_pr demo_swap) (k_fs demo_swap) demo_saved.
Proof.
  pose proof demo_swap_pinv as P.
  eapply (swinvb_sound demo_swap_own); [apply (rs_inv _ _ _ _ _ (pi_rs _ _ _ _ _ P))|apply P|].
  by vm_compute.
Qed.

(** ** A page in the hands of the kernel *)

Definition demo_loose : kstate ramfs := Eval vm_compute in exec kalloc demo_free.
Definition demo_loose_own : gmap Z role := <[dpage 9 := RLoose]> demo_free_own.

Lemma demo_loose_pinv : pinv demo_loose_own demo_loose 0 (demo_pr demo_loose) demo_free_q.
Proof.
  apply (pinvb_sound _ [dpage 10; dpage 11; dpage 12]); [|reflexivity]. by vm_compute.
Qed.

(** Nothing is swapped out while memory suffices. *)
Lemma demo_free_swinv :
  swinv (p_pagetable (demo_pr demo_free)) (k_mem demo_free) (demo_pr demo_free) (k_fs demo_free) ∅.
Proof.
  pose proof demo_free_pinv as P.
  eapply (swinvb_sound demo_free_own _ _ _ _ _ _ []);
    [apply (rs_inv _ _ _ _ _ (pi_rs _ _ _ _ _ P))|apply P|].
  by vm_compute.
Qed.

Lemma demo_full_swinv :
  swinv (p_pagetable (demo_pr demo_full)) (k_mem demo_full) (demo_pr demo_full) (k_fs demo_full) ∅.
Proof.
  pose proof demo_full_pinv as P.
  eapply (swinvb_sound demo_full_own _ _ _ _ _ _ []);
    [apply (rs_inv _ _ _ _ _ (pi_rs _ _ _ _ _ P))|apply P|].
  by vm_compute.
Qed.

(** ** A user stack pointer above the heap *)

Definition demo_stack : kstate ramfs :=
  Eval vm_compute in exec (store64 (dpage 1 + tf_sp) 0xA000) demo_free.

Lemma demo_stack_pinv : pinv demo_free_own demo_stack 0 (demo_pr demo_stack) demo_free_q.
Proof.
  apply (pinvb_sound _ [dpage 9; dpage 10; dpage 11; dpage 12]); [|reflexivity]. by vm_compute.
Qed.

(** ** A process with an executable of one segment *)

Definition demo_elf : list Z :=
  le_split 4 ELF_MAGIC ++ replicate 12 0 ++ replicate 16 0 ++ le_split 8 64 ++ replicate 16 0 ++
  le_split 2 1 ++ replicate 6 0 ++
  le_split 4 ELF_PROG_LOAD ++ le_split 4 5 ++ le_split 8 120 ++ le_split 8 0 ++ le_split 8 0 ++
  le_split 8 5 ++ le_split 8 0x1000 ++ le_split 8 0x1000 ++ [7; 8; 9; 10; 11].

Definition demo_exec : kstate ramfs :=
  Eval vm_compute in exec (modp 0 (fun pr => set_p_exe_inode 1 (set_p_exe_end 0x1000 pr)) ;;
    fs (modify (fun f => mkRam (<[1 := demo_elf]> (rf_files f)) (rf_names f) (rf_ops f))) ;;
    demo_setup [0x1000]) (demo_boot 12).

Definition demo_exec_own : gmap Z role :=
  list_to_map [(dpage 1, ROther); (demo_root, RTable demo_root []); (dpage 3, RUser demo_root 0x1000);
    (dpage 4, RTable demo_root [0]); (dpage 5, RTable demo_root [0; 0]); (dpage 6, RNode 0);
    (dpage 7, RFree); (dpage 8, RFree); (dpage 9, RFree); (dpage 10, RFree); (dpage 11, RFree);
    (dpage 12, RFree)].

Lemma demo_exec_pinv :
  pinv demo_exec_own demo_exec 0 (demo_pr demo_exec) [mkRn (dpage 6) 0x1000 0].
Proof.
  apply (pinvb_sound _ [dpage 7; dpage 8; dpage 9; dpage 10; dpage 11; dpage 12]); [|reflexivity].
  by vm_compute.
Qed.
