(* ===== verification/PagingTheorems.v ===== *)
(** * Demand paging: the theorems

    Page replacement, swapping and the page-fault handler. *)

From S2P Require Import Prelude Riscv Kernel Mem Inv Queue Kmem Swap Walk Pt Replace ResidentSpec EvictSpec AllocSpec Check Elf Vm Proc Trap RamFs Demo WalkSpec FaultSpec ExecFaultSpec SwapSpec SwapInSpec DemoSwap.

Section theorems.
Context {F : Type} `{FsOps F}.
Implicit Types s : kstate F.

(** ** Replacement *)

(** C1: [do_page_replacement] on a non-empty resident set refines its
    specification: the victim is the oldest page of the queue, what happens to
    it is what [evict_plan] decides from its address, entry and contents, the
    page and its node go to the free list, and nothing else changes. *)
Theorem do_page_replacement_fifo own s i pr x q :
  pinv own s i pr (x :: q) ->
  let root := p_pagetable pr in
  let va := rn_va x in
  let w := pteval (k_mem s) root va in
  exists p0 data next,
    pt_leaf (k_mem s) root va = Some p0 /\ k_mem s !! PTE2PA w = Some data /\
    do_page_replacement i s =
    fs_then (evict_plan (pop next pr) va (rn_seq x) w data) (fun y f' =>
      Done 1 (kevict s (rn_node x)
        (evict_mem (k_mem s) (k_freelist s) p0 va y.1.1 (PTE2PA w) (rn_node x)) i y.2
        (EvVictim (p_pid pr) va (rn_seq x) :: y.1.2) f')) (k_fs s).
Proof.
  intros P. destruct (oldest_node _ _ _ _ _ _ P) as (_ & Hn & pgx & Hpgx & _).
  destruct (oldest_leaf _ _ _ _ _ _ P) as (p0 & Hl).
  destruct (oldest_page _ _ _ _ _ _ P) as (_ & data & Hd).
  exists p0, data, (pg64 pgx rp_next). split; [exact Hl|]. split; [apply Hd|].
  exact (replacement_eq _ _ _ _ _ _ P _ _ _ (proj1 Hpgx) Hl (proj1 Hd)).
Qed.



(** ** Swapping *)

Context `{!FsSwap F} `{!FsReads F}.



(** ** Page faults on fresh pages *)


(** C7: an access above the heap. A zeroed page is mapped only if it lies within
    one page below the user stack pointer saved in the trapframe; everything
    else maps nothing and returns 0. *)
Theorem vmfault_stack own s i pr q va tf :
  pinv own s i pr q -> k_cur s = Some i -> 0 <= va < TRAPFRAME ->
  has (pteval (k_mem s) (p_pagetable pr) va) PTE_V = false ->
  own !! p_trapframe pr = Some ROther -> k_mem s !! p_trapframe pr = Some tf ->
  p_sz pr <= PGROUNDDOWN va ->
  wpe add_stop (vmfault (p_pagetable pr) va) (fun r s' =>
    (PGROUNDDOWN va < pg64 tf tf_sp /\ u64 (pg64 tf tf_sp - PGSIZE) <= PGROUNDDOWN va /\
     fault_done own s i pr q (PGROUNDDOWN va) (Z.lor (Z.lor (Z.lor PTE_W PTE_R) PTE_U) PTE_V)
       (fill 0) alloc_tail r s') \/
    fault_none own s i pr q (PGROUNDDOWN va) (fun q' => nomem q' \/
      ~ (PGROUNDDOWN va < pg64 tf tf_sp /\ u64 (pg64 tf tf_sp - PGSIZE) <= PGROUNDDOWN va)) r s') s.
Proof. intros. by apply vmfault_above_aux. Qed.

End theorems.

(** ** Witnesses *)

Lemma do_page_replacement_fifo_witness :
  let pr := demo_pr demo_full in
  let root := p_pagetable pr in
  let w := pteval (k_mem demo_full) root 0 in
  exists p0 data next,
    pt_leaf (k_mem demo_full) root 0 = Some p0 /\ k_mem demo_full !! PTE2PA w = Some data /\
    do_page_replacement 0 demo_full =
    fs_then (evict_plan (pop next pr) 0 0 w data) (fun y f' =>
      Done 1 (kevict demo_full (dpage 6)
        (evict_mem (k_mem demo_full) (k_freelist demo_full) p0 0 y.1.1 (PTE2PA w) (dpage 6)) 0 y.2
        (EvVictim (p_pid pr) 0 0 :: y.1.2) f')) (k_fs demo_full).
Proof. exact (do_page_replacement_fifo _ _ _ _ _ _ demo_full_pinv). Defined.






Lemma vmfault_stack_witness :
  exists tf, wpe add_stop (vmfault (p_pagetable (demo_pr demo_stack)) 0x9ff8) (fun r s' =>
    (0x9000 < pg64 tf tf_sp /\ u64 (pg64 tf tf_sp - PGSIZE) <= 0x9000 /\
     fault_done demo_free_own demo_stack 0 (demo_pr demo_stack) demo_free_q 0x9000
       (Z.lor (Z.lor (Z.lor PTE_W PTE_R) PTE_U) PTE_V) (fill 0) alloc_tail r s') \/
    fault_none demo_free_own demo_stack 0 (demo_pr demo_stack) demo_free_q 0x9000 (fun q' => nomem q' \/
      ~ (0x9000 < pg64 tf tf_sp /\ u64 (pg64 tf tf_sp - PGSIZE) <= 0x9000)) r s') demo_stack.
Proof.
  eexists. by apply (vmfault_stack _ _ _ _ _ 0x9ff8 _ demo_stack_pinv).
Defined.

