(* ===== verification/KallocRace.v ===== *)
(** * Two harts in [kalloc]

    [kalloc] of kernel/kalloc.c reads the head of the free list in one critical
    section and unlinks it in a second one. Between the two the lock is free, so
    another hart can be at the same place. Each critical section is one step of
    the harts (Spinlock.v). *)

From S2P Require Import Prelude Riscv Kernel Mem Inv Kmem Swap Walk Pt Replace ResidentSpec EvictSpec AllocSpec RamFs Vm Elf Proc Trap Exec SysProc Demo.

(** ** Definitions *)

Section race.
Context {F : Type} `{FsOps F}.

(** The first critical section, and what follows it when it saw a page. *)
Definition kalloc_peek : K F Z :=
  acquire LKmem ;;
  let* s := get in
  let r := k_freelist s in
  release LKmem ;;
  ret r.
Definition kalloc_pop (r : Z) : K F Z :=
  acquire LKmem ;;
  let* next := load64 r in
  modify (set_k_freelist next) ;;
  release LKmem ;;
  memset_page r 5 ;;
  ret r.
End race.

(** ** Lemmas *)

Section race.
Context {F : Type} `{FsOps F}.
Implicit Types s : kstate F.

Lemma kalloc_peek_run s : LKmem ∉ k_locks s -> kalloc_peek s = Done (k_freelist s) s.
Proof.
  intros Hl. unfold kalloc_peek. kstep by (by apply acquire_eq). kpure. kstep by (by eapply release_eq). by destruct s.
Qed.

Lemma kalloc_pop_run s r pg : is_page (k_mem s) r pg -> LKmem ∉ k_locks s ->
  kalloc_pop r s = Done r (set_k_freelist (pg64 pg 0) (set_k_mem (<[r := fill 5]> (k_mem s)) s)).
Proof.
  intros Hp Hl. unfold kalloc_pop. kstep by (by apply acquire_eq). replace r with (r + 0) at 1 by lia.
  kstep by (eapply load64_page; [exact Hp|klia]). kpure. kstep by (by eapply release_eq).
  kstep by (eapply memset_page_eq; exact Hp). by destruct s.
Qed.

Lemma kalloc_split s : LKmem ∉ k_locks s -> k_freelist s <> 0 ->
  kalloc s = (let* r := kalloc_peek in kalloc_pop r) s.
Proof.
  intros Hl Hz. kstep by (by apply kalloc_peek_run). unfold kalloc. kstep by (by apply acquire_eq). kpure.
  kstep by (by eapply release_eq). ksimpl. rewrite (proj2 (Z.eqb_neq _ _)) by done. cbn [negb]. by destruct s.
Qed.

Lemma fill_word : pg64 (fill 5) 0 = 0x0505050505050505.
Proof. reflexivity. Qed.

(** ** Theorems *)

(** C18: When two harts are in [kalloc] at once and both have passed the first
    critical section, both get the same page: the second unlinks it after the
    first has filled it, takes the filling for the next pointer, and leaves the
    free list pointing outside memory, where the next [kalloc] faults. *)
Theorem kalloc_race own s : kinv own (k_end s) (k_mem s) (k_freelist s) -> LKmem ∉ k_locks s -> k_freelist s <> 0 ->
  kalloc s = (let* r := kalloc_peek in kalloc_pop r) s /\
  let r := k_freelist s in
  kalloc_peek s = Done r s /\
  exists s1 s2, kalloc_pop r s = Done r s1 /\ kalloc_pop r s1 = Done r s2 /\
    k_freelist s2 = 0x0505050505050505 /\ kalloc s2 = Panic "kerneltrap".
Proof.
  intros KI Hl Hz. split; [by apply kalloc_split|]. split; [by apply kalloc_peek_run|].
  pose proof (ki_head _ _ _ _ KI Hz) as Hr. destruct (ki_is_page _ _ _ _ KI _ _ Hr) as (pg & Hp).
  do 2 eexists. split; [by eapply kalloc_pop_run|]. split.
  { eapply (kalloc_pop_run _ _ (fill 5)); [|done]. destruct Hp as (_ & _ & Ha). split; [ksimpl; by rewrite lookup_insert_eq|].
    by rewrite length_fill. }
  ksimpl. rewrite fill_word. split; [done|]. rewrite kalloc_split by done. kstep by (by apply kalloc_peek_run). ksimpl.
  unfold kalloc_pop. kstep by (by apply acquire_eq). apply bind_panic.
  unfold load64. apply bind_panic. unfold load_bytes. ksimpl. rewrite !lookup_insert_ne.
  - destruct (k_mem s !! _) as [pg'|] eqn:E; [|done].
    destruct (ki_mem _ _ _ _ KI _ _ E) as (_ & _ & Hlt). kdlia.
  - intros E. destruct (ki_range _ _ _ _ KI _ _ Hr) as [[_ Hlt] _]. rewrite E in Hlt. kdlia.
  - intros E. destruct (ki_range _ _ _ _ KI _ _ Hr) as [[_ Hlt] _]. rewrite E in Hlt. kdlia.
Qed.
End race.

Lemma kalloc_race_witness : exists s1 s2,
  kalloc_pop (dpage 9) demo_free = Done (dpage 9) s1 /\ kalloc_pop (dpage 9) s1 = Done (dpage 9) s2 /\
  kalloc s2 = Panic "kerneltrap".
Proof.
  destruct (kalloc_race demo_free_own demo_free) as (_ & _ & s1 & s2 & E1 & E2 & _ & E3).
  - exact (rs_inv _ _ _ _ _ (pi_rs _ _ _ _ _ demo_free_pinv)).
  - vm_compute. intros E. inversion E.
  - vm_compute. discriminate.
  - exists s1, s2. split; [exact E1|]. split; [exact E2|exact E3].
Defined.
