(* ===== verification/CopySpec.v ===== *)
(** * Copying to and from user memory

    [copyin] and [copyout] of kernel/vm.c on an address space whose pages are
    resident: they copy exactly the bytes of the range, across page boundaries,
    and [copyout] changes nothing else. *)

From S2P Require Import Prelude Riscv Kernel Mem Inv Str Kmem Swap Walk Pt Replace ResidentSpec EvictSpec AllocSpec RamFs Elf Vm Proc Trap Exec SysProc Demo.

(** ** Definitions *)

(** The byte at a user address. *)
Definition umem (m : gmap Z (list Z)) (root va : Z) : Z :=
  match m !! PTE2PA (pteval m root va) with
  | Some pg => byte_at pg (Z.to_nat (va mod PGSIZE))
  | None => 0
  end.

Definition readable (m : gmap Z (list Z)) (root va : Z) : Prop :=
  has (pteval m root va) PTE_V = true /\ has (pteval m root va) PTE_U = true.
Definition writable (m : gmap Z (list Z)) (root va : Z) : Prop :=
  readable m root va /\ has (pteval m root va) PTE_W = true.

(** The user bytes from [va] on. *)
Definition ubytes (m : gmap Z (list Z)) (root va : Z) (n : nat) : list Z :=
  (fun k => umem m root (va + Z.of_nat k)) <$> seq 0 n.

(** ** One page *)

Section copy.
Context {F : Type} `{FsOps F}.
Context (own : gmap Z role) (e h root : Z).
Hypothesis HR : own !! root = Some (RTable root []).

Lemma walk_mapped (s : kstate F) va : kinv own e (k_mem s) h -> 0 <= va < TRAPFRAME ->
  has (pteval (k_mem s) root va) PTE_V = true ->
  exists slot, walk root va false s = Done slot s /\ slot <> 0 /\ load64 slot s = Done (pteval (k_mem s) root va) s.
Proof.
  intros KI Hva Hv. unfold walk. rewrite walk_with_noalloc, (walk0_eq _ _ _ _ _ KI HR s va eq_refl) by klia.
  destruct (pt_leaf (k_mem s) root va) as [p0|] eqn:Hl; [|by rewrite (pteval_None _ _ _ Hl) in Hv].
  exists (p0 + 8 * PX 0 va). split; [done|]. split; [by apply (slot_nonzero _ _ _ _ _ KI HR _ _ Hl)|].
  destruct (pteval_leaf _ _ _ _ _ KI HR _ _ Hl) as (pg & Hpg & ->).
  by apply (load_entry _ _ _ _ KI s p0 pg (PX 0 va)); [done|done|apply PX_range].
Qed.

Lemma walkaddr_mapped (s : kstate F) va : kinv own e (k_mem s) h -> 0 <= va < TRAPFRAME -> readable (k_mem s) root va ->
  walkaddr root va s = Done (PTE2PA (pteval (k_mem s) root va)) s.
Proof.
  intros KI Hva [Hv Hu]. destruct (walk_mapped s va KI Hva Hv) as (slot & Hw & Hn & Hld).
  unfold walkaddr. rewrite (proj2 (Z.leb_gt MAXVA va)) by klia.
  kstep by exact Hw. rewrite (proj2 (Z.eqb_neq slot 0)) by done. kstep by exact Hld. by rewrite Hv, Hu.
Qed.

(** The page behind a mapped address. *)
Lemma user_page m va : kinv own e m h -> 0 <= va < TRAPFRAME -> has (pteval m root va) PTE_V = true ->
  PTE2PA (pteval m root va) <> 0 /\ exists pg, is_page m (PTE2PA (pteval m root va)) pg.
Proof.
  intros KI Hva Hv. pose proof (pteval_user _ _ _ _ _ KI HR va Hva Hv) as Hr.
  split; [by apply (ki_nonzero _ _ _ _ KI _ _ Hr)|]. by apply (ki_is_page _ _ _ _ KI _ _ Hr).
Qed.

Lemma same_page_facts va o : 0 <= va -> va mod PGSIZE = 0 -> 0 <= o < PGSIZE ->
  (va + o) / 4096 = va / 4096 /\ (va + o) mod PGSIZE = o.
Proof. intros H1 H2 H3. change PGSIZE with 4096 in *. split; Z.div_mod_to_equations; lia. Qed.

(** The bytes of a part of a page. *)
Lemma page_bytes m va0 o n pg : 0 <= va0 -> va0 mod PGSIZE = 0 -> 0 <= o < PGSIZE -> (Z.to_nat o + n <= Z.to_nat PGSIZE)%nat ->
  is_page m (PTE2PA (pteval m root va0)) pg -> take n (drop (Z.to_nat o) pg) = ubytes m root (va0 + o) n.
Proof.
  intros Hva Ha Ho Hn (Hpg & Hlen & _). apply bytes_eq.
  - unfold ubytes. rewrite length_fmap, length_seq, length_take, length_drop. lia.
  - intros i Hi. rewrite length_take, length_drop in Hi. rewrite byte_at_take_drop, decide_True by lia.
    unfold ubytes, byte_at at 2. rewrite list_lookup_fmap, lookup_seq_lt by lia. cbn [fmap option_fmap option_map from_option id].
    unfold umem. destruct (same_page_facts va0 (o + Z.of_nat i)) as [E1 E2]; [done|done|klia|].
    replace (va0 + o + Z.of_nat (0 + i)) with (va0 + (o + Z.of_nat i)) by lia.
    rewrite (pteval_same_page m root (va0 + (o + Z.of_nat i)) va0) by (try done; lia).
    rewrite Hpg, E2. f_equal. lia.
Qed.

Lemma ubytes_app m va n k : ubytes m root va (n + k) = ubytes m root va n ++ ubytes m root (va + Z.of_nat n) k.
Proof.
  unfold ubytes. rewrite seq_app, fmap_app. f_equal.
  apply list_eq. intros i. rewrite !list_lookup_fmap. destruct (decide (i < k)%nat).
  - rewrite !lookup_seq_lt by lia. cbn. do 2 f_equal. lia.
  - rewrite !lookup_seq_ge by lia. done.
Qed.

Lemma down_facts va : 0 <= va < TRAPFRAME ->
  let va0 := PGROUNDDOWN va in
  0 <= va0 <= va /\ va - va0 = va mod PGSIZE /\ va0 mod PGSIZE = 0 /\ va0 / 4096 = va / 4096 /\
  u64 (va0 + PGSIZE) = va0 + PGSIZE /\ 0 <= va mod PGSIZE < PGSIZE.
Proof.
  intros Hva. cbv zeta. rewrite PGROUNDDOWN_eq by klia.
  assert (Hm : 0 <= va mod PGSIZE < PGSIZE) by (apply Z.mod_pos_bound; klia).
  split_and!; try kdlia. apply u64_small. kdlia.
Qed.

Lemma copyin_loop_spec fuel : forall srcva len acc (s : kstate F), kinv own e (k_mem s) h -> 0 <= srcva ->
  srcva + Z.of_nat len <= TRAPFRAME -> (forall va, srcva <= va < srcva + Z.of_nat len -> readable (k_mem s) root va) ->
  srcva mod PGSIZE + Z.of_nat len <= Z.of_nat fuel * PGSIZE ->
  copyin_loop fuel root srcva len acc s = Done (0, acc ++ ubytes (k_mem s) root srcva len) s.
Proof.
  induction fuel as [|fuel IH]; intros srcva len acc s KI H0 Hr Hm Hf.
  { destruct len; [cbn; by rewrite app_nil_r|]. pose proof (Z.mod_pos_bound srcva PGSIZE). klia. }
  destruct len as [|len']; [cbn; by rewrite app_nil_r|]. set (len := S len') in *.
  destruct (down_facts srcva) as (Hd1 & Hd2 & Hd3 & Hd4 & Hd5 & Hd6); [unfold len in *; klia|].
  assert (Hloop : copyin_loop (S fuel) root srcva len acc s =
    (let va0 := PGROUNDDOWN srcva in
     let* pa0 := walkaddr root va0 in
     let* pa0 := (if pa0 =? 0 then vmfault root va0 else ret pa0) in
     if pa0 =? 0 then ret (-1, acc)
     else
       let n := Nat.min (Z.to_nat (PGSIZE - (srcva - va0))) len in
       let* bs := load_bytes (pa0 + (srcva - va0)) n in
       copyin_loop fuel root (u64 (va0 + PGSIZE)) (len - n)%nat (acc ++ bs)) s) by done.
  rewrite Hloop. clear Hloop. cbv zeta. set (va0 := PGROUNDDOWN srcva) in *.
  assert (readable (k_mem s) root va0) as Hrd.
  { unfold readable. rewrite (pteval_same_page _ root va0 srcva) by lia. apply Hm. unfold len. lia. }
  assert (0 <= va0 < TRAPFRAME) as Hv0 by (unfold len in *; lia).
  destruct (user_page _ va0 KI Hv0 (proj1 Hrd)) as (Hnz & pg & Hpg).
  kstep by (apply walkaddr_mapped; done). rewrite (proj2 (Z.eqb_neq _ 0)) by done. kpure.
  rewrite (proj2 (Z.eqb_neq _ 0)) by done.
  set (n := Nat.min (Z.to_nat (PGSIZE - (srcva - va0))) len).
  assert (n <= len)%nat as Hn by (unfold n; lia).
  assert (Z.to_nat (srcva - va0) + n <= Z.to_nat PGSIZE)%nat as Hn2 by (unfold n; klia).
  kstep by (apply (load_bytes_page s _ pg); [done|lia|done]).
  rewrite (page_bytes (k_mem s) va0) by (try done; lia). replace (va0 + (srcva - va0)) with srcva by lia.
  rewrite Hd5. destruct (decide (n = len)) as [En|En].
  - rewrite En, Nat.sub_diag. destruct fuel; done.
  - assert (va0 + PGSIZE = srcva + Z.of_nat n) as Ev by (unfold n in *; klia).
    rewrite IH; [|done|klia|lia| |].
    + rewrite <- app_assoc, Ev, <- ubytes_app. by replace (n + (len - n))%nat with len by lia.
    + intros va Hva. apply Hm. lia.
    + rewrite <- Z.add_mod_idemp_l, Hd3 by klia. change (0 + PGSIZE) with PGSIZE. rewrite Z.mod_same by klia.
      unfold len in *. klia.
Qed.

(** ** Writing *)

(** The memory after bytes are stored in user pages of [root]. *)
Record wrote (m m' : gmap Z (list Z)) (va : Z) (bs : list Z) : Prop := {
  wr_inv : kinv own e m' h;
  wr_pte : forall r v, own !! r = Some (RTable r []) -> pteval m' r v = pteval m r v;
  wr_else : forall pa r, own !! pa = Some r -> (forall v, r <> RUser root v) -> m' !! pa = m !! pa;
  wr_bytes : forall v, 0 <= v < TRAPFRAME -> has (pteval m root v) PTE_V = true ->
    umem m' root v = if decide (va <= v < va + Z.of_nat (length bs)) then byte_at bs (Z.to_nat (v - va)) else umem m root v
}.

Lemma wrote_nil m va : kinv own e m h -> wrote m m va [].
Proof. intros KI. split; try done. intros v Hv Hp. cbn. by rewrite decide_False by lia. Qed.

Lemma wrote_app m1 m2 m3 va bs1 bs2 : wrote m1 m2 va bs1 -> wrote m2 m3 (va + Z.of_nat (length bs1)) bs2 -> wrote m1 m3 va (bs1 ++ bs2).
Proof.
  intros [I1 P1 E1 B1] [I2 P2 E2 B2]. split; [done| | |].
  - intros r v Hr. by rewrite P2, P1.
  - intros pa r Hpa Hn. rewrite (E2 pa r), (E1 pa r) by done. done.
  - intros v Hv Hp. rewrite B2 by (try done; by rewrite P1). rewrite B1 by done. rewrite length_app.
    unfold byte_at. repeat case_decide; try lia; [|rewrite lookup_app_l by lia; done].
    rewrite lookup_app_r by lia. do 2 f_equal. lia.
Qed.

Lemma store_user (s : kstate F) va0 o bs pg : kinv own e (k_mem s) h -> 0 <= va0 < TRAPFRAME -> va0 mod PGSIZE = 0 ->
  has (pteval (k_mem s) root va0) PTE_V = true -> 0 <= o < PGSIZE -> (Z.to_nat o + length bs <= Z.to_nat PGSIZE)%nat ->
  is_page (k_mem s) (PTE2PA (pteval (k_mem s) root va0)) pg ->
  wrote (k_mem s) (<[PTE2PA (pteval (k_mem s) root va0) := splice pg (Z.to_nat o) bs]> (k_mem s)) (va0 + o) bs.
Proof.
  intros KI Hv0 Ha Hv Ho Hl Hpg. set (m := k_mem s) in *. set (pa := PTE2PA (pteval m root va0)) in *.
  pose proof (pteval_user _ _ _ _ _ KI HR va0 Hv0 Hv) as Hrole. fold pa in Hrole.
  destruct Hpg as (Hpg & Hlen & Hal).
  assert (forall r v, own !! r = Some (RTable r []) -> pteval (<[pa := splice pg (Z.to_nat o) bs]> m) r v = pteval m r v) as HP.
  { intros r v Hr. apply (pteval_insert _ _ _ _ _ KI Hr). intros path E. congruence. }
  split; [| done | |].
  - apply (kinv_write _ _ _ _ KI _ _ _ Hrole); [done|rewrite length_splice; lia|done].
  - intros pa' r Hpa' Hn. rewrite lookup_insert_ne; [done|]. intros <-. rewrite Hrole in Hpa'. simplify_eq. by eapply Hn.
  - intros v Hv' Hp. unfold umem. rewrite HP by done. destruct (decide (v / 4096 = va0 / 4096)) as [E|E].
    + rewrite (pteval_same_page m root v va0) by lia. fold pa. rewrite lookup_insert_eq, Hpg.
      assert (v = va0 + v mod PGSIZE) as Ev by kdlia. pose proof (Z.mod_pos_bound v PGSIZE ltac:(klia)).
      rewrite byte_at_splice by lia. repeat case_decide; try lia; f_equal; lia.
    + rewrite lookup_insert_ne.
      * rewrite decide_False; [done|]. intros Hin. apply E. kdlia.
      * intros Epa. pose proof (pteval_user _ _ _ _ _ KI HR v Hv' Hp) as Hr. rewrite <- Epa, Hrole in Hr.
        injection Hr as Er. apply E. kdlia.
Qed.

Lemma copyout_loop_spec fuel : forall dstva src (s : kstate F), kinv own e (k_mem s) h -> 0 <= dstva ->
  dstva + Z.of_nat (length src) <= TRAPFRAME ->
  (forall va, dstva <= va < dstva + Z.of_nat (length src) -> writable (k_mem s) root va) ->
  dstva mod PGSIZE + Z.of_nat (length src) <= Z.of_nat fuel * PGSIZE ->
  exists m', copyout_loop fuel root dstva src s = Done 0 (set_k_mem m' s) /\ wrote (k_mem s) m' dstva src.
Proof.
  induction fuel as [|fuel IH]; intros dstva src s KI H0 Hr Hm Hf.
  { destruct src; [|cbn in Hf; pose proof (Z.mod_pos_bound dstva PGSIZE); klia].
    exists (k_mem s). split; [by destruct s|by apply wrote_nil]. }
  destruct src as [|b src']; [exists (k_mem s); split; [by destruct s|by apply wrote_nil]|]. set (src := b :: src') in *.
  assert (0 < length src)%nat as Hpos by (cbn; lia).
  destruct (down_facts dstva) as (Hd1 & Hd2 & Hd3 & Hd4 & Hd5 & Hd6); [klia|].
  assert (Hloop : copyout_loop (S fuel) root dstva src s =
    (let va0 := PGROUNDDOWN dstva in
     if MAXVA <=? va0 then ret (-1)
     else let* pa0 := walkaddr root va0 in
       let* pa0 := (if pa0 =? 0 then vmfault root va0 else ret pa0) in
       if pa0 =? 0 then ret (-1)
       else let* pte := walk root va0 false in
         let* w := load64 pte in
         if negb (has w PTE_W) then ret (-1)
         else
           let n := Nat.min (Z.to_nat (PGSIZE - (dstva - va0))) (length src) in
           store_bytes (pa0 + (dstva - va0)) (take n src) ;;
           copyout_loop fuel root (u64 (va0 + PGSIZE)) (drop n src)) s) by done.
  rewrite Hloop. clear Hloop. cbv zeta. set (va0 := PGROUNDDOWN dstva) in *.
  assert (writable (k_mem s) root va0) as [Hrd Hwr].
  { unfold writable, readable. rewrite (pteval_same_page _ root va0 dstva) by lia. apply Hm. lia. }
  assert (0 <= va0 < TRAPFRAME) as Hv0 by lia. rewrite (proj2 (Z.leb_gt MAXVA va0)) by klia.
  destruct (user_page _ va0 KI Hv0 (proj1 Hrd)) as (Hnz & pg & Hpg).
  kstep by (apply walkaddr_mapped; done). rewrite (proj2 (Z.eqb_neq _ 0)) by done. kpure. rewrite (proj2 (Z.eqb_neq _ 0)) by done.
  destruct (walk_mapped s va0 KI Hv0 (proj1 Hrd)) as (slot & Hw & _ & Hld).
  kstep by exact Hw. kstep by exact Hld. rewrite Hwr. cbn [negb].
  set (n := Nat.min (Z.to_nat (PGSIZE - (dstva - va0))) (length src)).
  assert (length (take n src) = n) as Hln by (rewrite length_take; unfold n; lia).
  assert (Z.to_nat (dstva - va0) + n <= Z.to_nat PGSIZE)%nat as Hn2 by (unfold n; klia).
  kstep by (apply (store_bytes_page s _ pg); [done|lia|lia]).
  pose proof (store_user s va0 (dstva - va0) (take n src) pg KI Hv0 Hd3 (proj1 Hrd) ltac:(lia) ltac:(lia) Hpg) as W1.
  replace (va0 + (dstva - va0)) with dstva in W1 by lia.
  set (m1 := <[_ := _]> (k_mem s)) in *. rewrite Hd5.
  destruct (decide (n = length src)) as [En|En].
  - rewrite drop_ge by lia. exists m1. rewrite take_ge in W1 by lia. destruct fuel; done.
  - assert (va0 + PGSIZE = dstva + Z.of_nat n) as Ev by (unfold n in *; klia).
    destruct (IH (va0 + PGSIZE) (drop n src) (set_k_mem m1 s)) as (m2 & E2 & W2).
    + apply W1.
    + klia.
    + rewrite length_drop. lia.
    + rewrite length_drop. intros va Hva. unfold writable, readable. ksimpl. rewrite (wr_pte _ _ _ _ W1) by done. apply Hm. lia.
    + rewrite <- Z.add_mod_idemp_l, Hd3 by klia. change (0 + PGSIZE) with PGSIZE. rewrite Z.mod_same, length_drop by klia. klia.
    + exists m2. split; [done|]. rewrite <- (take_drop n src). apply (wrote_app _ m1); [done|]. rewrite Hln, <- Ev. done.
Qed.
End copy.

Lemma copy_fuel va (n : nat) : 0 <= va -> va mod PGSIZE + Z.of_nat n <= Z.of_nat (n / Z.to_nat PGSIZE + 2) * PGSIZE.
Proof.
  intros Hva. pose proof (Z.mod_pos_bound va PGSIZE ltac:(klia)) as Hm. change (Z.to_nat PGSIZE) with 4096%nat.
  rewrite Nat2Z.inj_add, Nat2Z.inj_div. change (Z.of_nat 4096) with 4096. change PGSIZE with 4096 in *.
  Z.div_mod_to_equations. lia.
Qed.

Lemma copyin_spec {F} `{FsOps F} own e h root (s : kstate F) va n : kinv own e (k_mem s) h ->
  own !! root = Some (RTable root []) -> 0 <= va -> va + Z.of_nat n <= TRAPFRAME ->
  (forall v, va <= v < va + Z.of_nat n -> readable (k_mem s) root v) ->
  copyin root va n s = Done (0, ubytes (k_mem s) root va n) s.
Proof.
  intros KI HR H0 Hr Hm. unfold copyin. by rewrite (copyin_loop_spec own e h root HR) by (try done; by apply copy_fuel).
Qed.

Lemma copyout_spec {F} `{FsOps F} own e h root (s : kstate F) va bs : kinv own e (k_mem s) h ->
  own !! root = Some (RTable root []) -> 0 <= va -> va + Z.of_nat (length bs) <= TRAPFRAME ->
  (forall v, va <= v < va + Z.of_nat (length bs) -> writable (k_mem s) root v) ->
  exists m', copyout root va bs s = Done 0 (set_k_mem m' s) /\ wrote own e h root (k_mem s) m' va bs.
Proof.
  intros KI HR H0 Hr Hm. apply (copyout_loop_spec own e h root HR); [done..|]. by apply copy_fuel.
Qed.

(** Reading back what was written. *)
Lemma wrote_ubytes own e h root m m' va bs : own !! root = Some (RTable root []) -> wrote own e h root m m' va bs -> 0 <= va ->
  va + Z.of_nat (length bs) <= TRAPFRAME -> (forall v, va <= v < va + Z.of_nat (length bs) -> readable m root v) ->
  ubytes m' root va (length bs) = bs.
Proof.
  intros HR W H0 Hr Hm. apply bytes_eq; [unfold ubytes; by rewrite length_fmap, length_seq|].
  unfold ubytes at 1. rewrite length_fmap, length_seq. intros i Hi.
  unfold ubytes, byte_at at 1. rewrite list_lookup_fmap, lookup_seq_lt by done. cbn [fmap option_fmap option_map from_option id].
  rewrite (wr_bytes _ _ _ _ _ _ _ _ W) by (try lia; apply Hm; lia). rewrite decide_True by lia. f_equal. lia.
Qed.

(** ** Theorems *)

(** C31: Copying out to user memory that is mapped and writable stores exactly
    the given bytes there, across page boundaries; it leaves every other byte of
    the address space, its page table, every other page of memory and the
    kernel's memory invariant as they were; and [copyin] of the same range then
    returns the bytes. *)
Theorem copyout_copyin {F} `{FsOps F} own e h root (s : kstate F) va bs : kinv own e (k_mem s) h ->
  own !! root = Some (RTable root []) -> 0 <= va -> va + Z.of_nat (length bs) <= TRAPFRAME ->
  (forall v, va <= v < va + Z.of_nat (length bs) -> writable (k_mem s) root v) ->
  exists m', copyout root va bs s = Done 0 (set_k_mem m' s) /\ wrote own e h root (k_mem s) m' va bs /\
    copyin root va (length bs) (set_k_mem m' s) = Done (0, bs) (set_k_mem m' s).
Proof.
  intros KI HR H0 Hr Hm. destruct (copyout_spec own e h root s va bs KI HR H0 Hr Hm) as (m' & E & W).
  exists m'. split; [done|]. split; [done|]. rewrite (copyin_spec own e h root); [|apply W|done|done|done|].
  - do 3 f_equal. apply (wrote_ubytes own e h root _ _ _ _ HR W); try done. intros v Hv. by apply Hm.
  - intros v Hv. unfold readable. ksimpl. rewrite (wr_pte _ _ _ _ _ _ _ _ W) by done. by apply Hm.
Qed.

(** Four bytes across the boundary between the first two pages. *)
Lemma copyout_copyin_witness :
  exists m', copyout demo_root 4094 [1; 2; 3; 4] demo_free = Done 0 (set_k_mem m' demo_free) /\
    wrote demo_free_own (k_end demo_free) (k_freelist demo_free) demo_root (k_mem demo_free) m' 4094 [1; 2; 3; 4] /\
    copyin demo_root 4094 4 (set_k_mem m' demo_free) = Done (0, [1; 2; 3; 4]) (set_k_mem m' demo_free).
Proof.
  apply (copyout_copyin demo_free_own (k_end demo_free) (k_freelist demo_free) demo_root demo_free 4094 [1; 2; 3; 4]).
  - exact (rs_inv _ _ _ _ _ (pi_rs _ _ _ _ _ demo_free_pinv)).
  - reflexivity.
  - lia.
  - vm_compute. discriminate.
  - intros v Hv. change (Z.of_nat (length [1; 2; 3; 4])) with 4 in Hv.
    assert (v = 4094 \/ v = 4095 \/ v = 4096 \/ v = 4097) as [-> | [-> | [-> | ->]]] by lia;
      (split; [split|]; vm_compute; reflexivity).
Defined.
