(* ===== verification/Bio.v ===== *)
(** * The buffer cache

    kernel/bio.c, with the sleep-locks of kernel/sleeplock.c and the state all
    file-system layers share. The disk is a map from block numbers to blocks;
    the driver is its two operations, reading and writing a block. Every block
    written is also appended to a history, which says what the disk was at each
    point of a run.

    Only one thread runs at a time in the model, so the spin-locks that protect
    the cache, the log and the inode table are always free and are left out. A
    thread that has to sleep ends with the outcome [Blocked]. *)

From S2P Require Import Prelude Riscv Kernel.

Definition BSIZE : Z := 1024.

(** A sleep-lock: the pid of its holder. *)
Definition sleeplock : Type := option Z.

(** [struct buf]; the links of the list are in [x_lru]. *)
Record buf := mkBuf {
  b_valid : bool;
  b_dev : Z;
  b_blockno : Z;
  b_lock : sleeplock;
  b_refcnt : Z;
  b_data : list Z
}.
Definition set_b_valid x b := mkBuf x (b_dev b) (b_blockno b) (b_lock b) (b_refcnt b) (b_data b).
Definition set_b_lock x b := mkBuf (b_valid b) (b_dev b) (b_blockno b) x (b_refcnt b) (b_data b).
Definition set_b_refcnt x b := mkBuf (b_valid b) (b_dev b) (b_blockno b) (b_lock b) x (b_data b).
Definition set_b_data x b := mkBuf (b_valid b) (b_dev b) (b_blockno b) (b_lock b) (b_refcnt b) x.

(** [struct log] with its in-memory header. *)
Record logst := mkLog {
  lg_start : Z;
  lg_outstanding : Z;
  lg_committing : bool;
  lg_dev : Z;
  lh_n : Z;
  lh_block : list Z
}.
Definition set_lg_start x l := mkLog x (lg_outstanding l) (lg_committing l) (lg_dev l) (lh_n l) (lh_block l).
Definition set_lg_outstanding x l := mkLog (lg_start l) x (lg_committing l) (lg_dev l) (lh_n l) (lh_block l).
Definition set_lg_committing x l := mkLog (lg_start l) (lg_outstanding l) x (lg_dev l) (lh_n l) (lh_block l).
Definition set_lg_dev x l := mkLog (lg_start l) (lg_outstanding l) (lg_committing l) x (lh_n l) (lh_block l).
Definition set_lh_n x l := mkLog (lg_start l) (lg_outstanding l) (lg_committing l) (lg_dev l) x (lh_block l).
Definition set_lh_block x l := mkLog (lg_start l) (lg_outstanding l) (lg_committing l) (lg_dev l) (lh_n l) x.

Record superblock := mkSb {
  sb_magic : Z; sb_size : Z; sb_nblocks : Z; sb_ninodes : Z; sb_nlog : Z;
  sb_logstart : Z; sb_inodestart : Z; sb_bmapstart : Z
}.

(** [struct inode], the in-memory copy. *)
Record inode := mkInode {
  i_dev : Z; i_inum : Z; i_ref : Z; i_lock : sleeplock; i_valid : bool;
  i_type : Z; i_major : Z; i_minor : Z; i_nlink : Z; i_size : Z; i_addrs : list Z
}.
Definition set_i_ref x i := mkInode (i_dev i) (i_inum i) x (i_lock i) (i_valid i) (i_type i) (i_major i) (i_minor i) (i_nlink i) (i_size i) (i_addrs i).
Definition set_i_lock x i := mkInode (i_dev i) (i_inum i) (i_ref i) x (i_valid i) (i_type i) (i_major i) (i_minor i) (i_nlink i) (i_size i) (i_addrs i).
Definition set_i_valid x i := mkInode (i_dev i) (i_inum i) (i_ref i) (i_lock i) x (i_type i) (i_major i) (i_minor i) (i_nlink i) (i_size i) (i_addrs i).
Definition set_i_type x i := mkInode (i_dev i) (i_inum i) (i_ref i) (i_lock i) (i_valid i) x (i_major i) (i_minor i) (i_nlink i) (i_size i) (i_addrs i).
Definition set_i_major x i := mkInode (i_dev i) (i_inum i) (i_ref i) (i_lock i) (i_valid i) (i_type i) x (i_minor i) (i_nlink i) (i_size i) (i_addrs i).
Definition set_i_minor x i := mkInode (i_dev i) (i_inum i) (i_ref i) (i_lock i) (i_valid i) (i_type i) (i_major i) x (i_nlink i) (i_size i) (i_addrs i).
Definition set_i_nlink x i := mkInode (i_dev i) (i_inum i) (i_ref i) (i_lock i) (i_valid i) (i_type i) (i_major i) (i_minor i) x (i_size i) (i_addrs i).
Definition set_i_size x i := mkInode (i_dev i) (i_inum i) (i_ref i) (i_lock i) (i_valid i) (i_type i) (i_major i) (i_minor i) (i_nlink i) x (i_addrs i).
Definition set_i_addrs x i := mkInode (i_dev i) (i_inum i) (i_ref i) (i_lock i) (i_valid i) (i_type i) (i_major i) (i_minor i) (i_nlink i) (i_size i) x.

(** The messages the file system prints. *)
Inductive fsmsg :=
| MsgRecover (tail dst : Z)
| MsgNoBlocks
| MsgNoInodes
| MsgReclaim (inum : Z).

(** The state of the file system. [x_bufs] is the array [bcache.buf] and [x_lru]
    the list through [bcache.head], the most recently used first. *)
Record fsstate := mkFs {
  x_disk : gmap Z (list Z);
  x_hist : list (Z * list Z);
  x_bufs : list buf;
  x_lru : list nat;
  x_log : logst;
  x_sb : superblock;
  x_itable : list inode;
  x_out : list fsmsg
}.
Definition set_x_disk x s := mkFs x (x_hist s) (x_bufs s) (x_lru s) (x_log s) (x_sb s) (x_itable s) (x_out s).
Definition set_x_hist x s := mkFs (x_disk s) x (x_bufs s) (x_lru s) (x_log s) (x_sb s) (x_itable s) (x_out s).
Definition set_x_bufs x s := mkFs (x_disk s) (x_hist s) x (x_lru s) (x_log s) (x_sb s) (x_itable s) (x_out s).
Definition set_x_lru x s := mkFs (x_disk s) (x_hist s) (x_bufs s) x (x_log s) (x_sb s) (x_itable s) (x_out s).
Definition set_x_log x s := mkFs (x_disk s) (x_hist s) (x_bufs s) (x_lru s) x (x_sb s) (x_itable s) (x_out s).
Definition set_x_sb x s := mkFs (x_disk s) (x_hist s) (x_bufs s) (x_lru s) (x_log s) x (x_itable s) (x_out s).
Definition set_x_itable x s := mkFs (x_disk s) (x_hist s) (x_bufs s) (x_lru s) (x_log s) (x_sb s) x (x_out s).
Definition set_x_out x s := mkFs (x_disk s) (x_hist s) (x_bufs s) (x_lru s) (x_log s) (x_sb s) (x_itable s) x.

Ltac xsimpl := cbn [x_disk x_hist x_bufs x_lru x_log x_sb x_itable x_out set_x_disk set_x_hist
  set_x_bufs set_x_lru set_x_log set_x_sb set_x_itable set_x_out
  b_valid b_dev b_blockno b_lock b_refcnt b_data set_b_valid set_b_lock set_b_refcnt set_b_data
  lg_start lg_outstanding lg_committing lg_dev lh_n lh_block set_lg_start set_lg_outstanding
  set_lg_committing set_lg_dev set_lh_n set_lh_block].
Tactic Notation "xsimpl" "in" "*" := cbn [x_disk x_hist x_bufs x_lru x_log x_sb x_itable x_out set_x_disk set_x_hist
  set_x_bufs set_x_lru set_x_log set_x_sb set_x_itable set_x_out
  b_valid b_dev b_blockno b_lock b_refcnt b_data set_b_valid set_b_lock set_b_refcnt set_b_data
  lg_start lg_outstanding lg_committing lg_dev lh_n lh_block set_lg_start set_lg_outstanding
  set_lg_committing set_lg_dev set_lh_n set_lh_block] in *.

(** The process on whose behalf the file system runs. *)
Class Self := { self_pid : Z; self_cwd : Z }.

Section bio.
Context `{Self}.
Notation X := (M fsstate).

Definition fsprint (m : fsmsg) : X unit := modify (fun s => set_x_out (x_out s ++ [m]) s).

(** A pointer that is not the address of a buffer or an inode. *)
Definition badptr {A} : X A := panic "kerneltrap".

Definition getb (b : nat) : X buf := fun s =>
  match x_bufs s !! b with Some x => Done x s | None => badptr s end.
Definition modb (b : nat) (f : buf -> buf) : X unit := fun s =>
  match x_bufs s !! b with
  | Some x => Done tt (set_x_bufs (<[b := f x]> (x_bufs s)) s)
  | None => badptr s
  end.

(** [acquiresleep]: sleeps while the lock is held, by whomever. *)
Definition acquiresleep (lk : sleeplock) : X sleeplock :=
  match lk with Some _ => block | None => ret (Some self_pid) end.
Definition holdingsleep (lk : sleeplock) : bool := bool_decide (lk = Some self_pid).

(** The device: [virtio_disk_rw(b, 0)] and [virtio_disk_rw(b, 1)]. *)
Definition disk_read (blockno : Z) : X (list Z) := fun s =>
  match x_disk s !! blockno with Some d => Done d s | None => badptr s end.
Definition disk_write (blockno : Z) (d : list Z) : X unit := fun s =>
  match x_disk s !! blockno with
  | Some _ =>
      Done tt (set_x_hist (x_hist s ++ [(blockno, d)]) (set_x_disk (<[blockno := d]> (x_disk s)) s))
  | None => badptr s
  end.

Definition lock_buf (b : nat) : X nat :=
  let* x := getb b in
  let* lk := acquiresleep (b_lock x) in
  modb b (set_b_lock lk) ;;
  ret b.

(** The two searches of [bget] along the list. *)
Definition cached (dev blockno : Z) (x : buf) : bool := (b_dev x =? dev) && (b_blockno x =? blockno).
Fixpoint find_buf (p : buf -> bool) (l : list nat) (bufs : list buf) : option nat :=
  match l with
  | [] => None
  | b :: l => if from_option p false (bufs !! b) then Some b else find_buf p l bufs
  end.

Definition bget (dev blockno : Z) : X nat :=
  let* s := get in
  match find_buf (cached dev blockno) (x_lru s) (x_bufs s) with
  | Some b =>
      modb b (fun x => set_b_refcnt (u32 (b_refcnt x + 1)) x) ;;
      lock_buf b
  | None =>
      match find_buf (fun x => b_refcnt x =? 0) (rev (x_lru s)) (x_bufs s) with
      | Some b =>
          modb b (fun x => mkBuf false dev blockno (b_lock x) 1 (b_data x)) ;;
          lock_buf b
      | None => panic "bget: no buffers"
      end
  end.

Definition bread (dev blockno : Z) : X nat :=
  let* b := bget dev blockno in
  let* x := getb b in
  (if b_valid x then ret tt
   else
     let* d := disk_read (b_blockno x) in
     modb b (fun x => set_b_valid true (set_b_data d x))) ;;
  ret b.

Definition bwrite (b : nat) : X unit :=
  let* x := getb b in
  if negb (holdingsleep (b_lock x)) then panic "bwrite"
  else disk_write (b_blockno x) (b_data x).

Definition brelse (b : nat) : X unit :=
  let* x := getb b in
  if negb (holdingsleep (b_lock x)) then panic "brelse"
  else
    modb b (fun x => set_b_refcnt (u32 (b_refcnt x - 1)) (set_b_lock None x)) ;;
    let* x := getb b in
    if b_refcnt x =? 0 then
      modify (fun s => set_x_lru (b :: filter (fun b' => b' <> b) (x_lru s)) s)
    else ret tt.

Definition bpin (b : nat) : X unit := modb b (fun x => set_b_refcnt (u32 (b_refcnt x + 1)) x).
Definition bunpin (b : nat) : X unit := modb b (fun x => set_b_refcnt (u32 (b_refcnt x - 1)) x).

(** [binit]: buffers are pushed on the list one by one, so the last comes first. *)
Definition binit : X unit :=
  for_each (seq 0 (Z.to_nat NBUF)) (fun b =>
    modb b (set_b_lock None) ;;
    modify (fun s => set_x_lru (b :: x_lru s) s)).
End bio.
