(* ===== verification/Log.v ===== *)
(** * The log

    kernel/log.c: a redo log that makes the block writes of a transaction
    atomic with respect to crashes. *)

From S2P Require Import Prelude Riscv Kernel Bio.

Section log.
Context `{Self}.
Notation X := (M fsstate).

Definition modlog (f : logst -> logst) : X unit := modify (fun s => set_x_log (f (x_log s)) s).
Definition getlog : X logst := let* s := get in ret (x_log s).

(** The [int] at an offset of a block, and storing one. *)
Definition blk_int (d : list Z) (off : Z) : Z := s32 (le_combine (take 4 (drop (Z.to_nat off) d))).
Definition blk_set (d : list Z) (off v : Z) : list Z := splice d (Z.to_nat off) (le_split 4 v).

(** [log.lh.block[i]]; the array has [LOGBLOCKS] entries, and going past its end
    overwrites what follows it, which the model treats as a fault. *)
Definition lh_get (l : logst) (i : Z) : Z := default 0 (lh_block l !! Z.to_nat i).

Definition read_head : X unit :=
  let* lg := getlog in
  let* b := bread (lg_dev lg) (lg_start lg) in
  let* x := getb b in
  let n := blk_int (b_data x) 0 in
  modlog (set_lh_n n) ;;
  for_each (seq 0 (Z.to_nat n)) (fun i =>
    if Z.of_nat i <? LOGBLOCKS then
      modlog (fun l =>
        set_lh_block (<[i := blk_int (b_data x) (4 + 4 * Z.of_nat i)]> (lh_block l)) l)
    else badptr) ;;
  brelse b.

(** The header block as [write_head] leaves it. *)
Definition head_bytes (l : logst) (d : list Z) : list Z :=
  foldl (fun d i => blk_set d (4 + 4 * Z.of_nat i) (lh_get l (Z.of_nat i))) (blk_set d 0 (lh_n l))
    (seq 0 (Z.to_nat (lh_n l))).

Definition write_head : X unit :=
  let* lg := getlog in
  let* b := bread (lg_dev lg) (lg_start lg) in
  modb b (fun x => set_b_data (head_bytes lg (b_data x)) x) ;;
  bwrite b ;;
  brelse b.

(** One round of [install_trans]. *)
Definition install_one (recovering : bool) (lg : logst) (tail : nat) : X unit :=
  let dst := lh_get lg (Z.of_nat tail) in
  (if recovering then fsprint (MsgRecover (Z.of_nat tail) dst) else ret tt) ;;
  let* lbuf := bread (lg_dev lg) (lg_start lg + Z.of_nat tail + 1) in
  let* dbuf := bread (lg_dev lg) (u32 dst) in
  let* x := getb lbuf in
  modb dbuf (set_b_data (b_data x)) ;;
  bwrite dbuf ;;
  (if recovering then ret tt else bunpin dbuf) ;;
  brelse lbuf ;;
  brelse dbuf.

Definition install_trans (recovering : bool) : X unit :=
  let* lg := getlog in
  for_each (seq 0 (Z.to_nat (lh_n lg))) (install_one recovering lg).

Definition recover_from_log : X unit :=
  read_head ;;
  install_trans true ;;
  modlog (set_lh_n 0) ;;
  write_head.

Definition initlog (dev : Z) (sb : superblock) : X unit :=
  modlog (fun l => set_lg_dev dev (set_lg_start (sb_logstart sb) l)) ;;
  recover_from_log.

(** [begin_op] sleeps while a commit is in progress or the log might overflow;
    when woken it starts over. *)
Definition begin_op : X unit :=
  let* lg := getlog in
  if lg_committing lg then block
  else if LOGBLOCKS <? lh_n lg + (lg_outstanding lg + 1) * MAXOPBLOCKS then block
  else modlog (fun l => set_lg_outstanding (lg_outstanding l + 1) l).

(** One round of [write_log]. *)
Definition write_log_one (lg : logst) (tail : nat) : X unit :=
  let* to := bread (lg_dev lg) (lg_start lg + Z.of_nat tail + 1) in
  let* from := bread (lg_dev lg) (u32 (lh_get lg (Z.of_nat tail))) in
  let* x := getb from in
  modb to (set_b_data (b_data x)) ;;
  bwrite to ;;
  brelse from ;;
  brelse to.

Definition write_log : X unit :=
  let* lg := getlog in
  for_each (seq 0 (Z.to_nat (lh_n lg))) (write_log_one lg).

Definition commit : X unit :=
  let* lg := getlog in
  if 0 <? lh_n lg then
    write_log ;;
    write_head ;;
    install_trans false ;;
    modlog (set_lh_n 0) ;;
    write_head
  else ret tt.

Definition end_op : X unit :=
  modlog (fun l => set_lg_outstanding (lg_outstanding l - 1) l) ;;
  let* lg := getlog in
  if lg_committing lg then panic "log.committing"
  else if lg_outstanding lg =? 0 then
    modlog (set_lg_committing true) ;;
    commit ;;
    modlog (set_lg_committing false)
  else ret tt.

(** The first index below [n] whose entry is [blockno], or [n]. *)
Fixpoint log_index (blocks : list Z) (n : nat) (blockno : Z) : nat :=
  match n, blocks with
  | S n, b :: blocks => if u32 b =? blockno then O else S (log_index blocks n blockno)
  | _, _ => O
  end.

Definition log_write (b : nat) : X unit :=
  let* lg := getlog in
  if LOGBLOCKS <=? lh_n lg then panic "too big a transaction"
  else if lg_outstanding lg <? 1 then panic "log_write outside of trans"
  else
    let* x := getb b in
    let i := log_index (lh_block lg) (Z.to_nat (lh_n lg)) (b_blockno x) in
    modlog (fun l => set_lh_block (<[i := s32 (b_blockno x)]> (lh_block l)) l) ;;
    if Z.of_nat i =? lh_n lg then
      bpin b ;;
      modlog (fun l => set_lh_n (lh_n l + 1) l)
    else ret tt.
End log.
