(* ===== verification/Virtio.v ===== *)
(** * The disk driver

    kernel/virtio_disk.c and kernel/virtio.h, with several processes that read and
    write blocks, the disk's interrupt, and the device itself. The driver's
    routines are translated whole. Every access to [struct disk] is made under
    [vdisk_lock], so the code between taking the lock and releasing it or going
    to sleep is one step of the system; the interrupt handler's loop takes one
    step per completion, since the device goes on adding completions meanwhile.
    The device is not part of the kernel: it is a relation about which only what
    the virtio specification promises is assumed, and that lets it do anything
    once it meets a malformed request. *)

From stdpp Require Import functions.
From S2P Require Import Prelude Riscv Kernel Bio.

(** ** Definitions *)

(** *** kernel/virtio.h *)

Definition NUM : nat := 8.
Definition VRING_DESC_F_NEXT : Z := 1.
Definition VRING_DESC_F_WRITE : Z := 2.
Definition VIRTIO_BLK_T_IN : Z := 0.
Definition VIRTIO_BLK_T_OUT : Z := 1.

(** What a descriptor points to: a command header, the data of a buffer, or a
    status byte. *)
Inductive dma := ANull | AOp (i : nat) | AData (b : nat) | AStatus (i : nat).
Record virtq_desc := mkDesc { d_addr : dma; d_len : Z; d_flags : Z; d_next : nat }.
Record virtio_blk_req := mkReq { rq_type : Z; rq_reserved : Z; rq_sector : Z }.

(** [struct disk] with the three queue pages it points to. Only the device
    writes [k_used_ring] and [k_used_end] ([used->idx]). *)
Record disk := mkDisk {
  k_desc : list virtq_desc;
  k_avail_ring : list nat;
  k_avail_idx : Z;
  k_used_ring : list nat;
  k_used_end : Z;
  k_free : list bool;
  k_used_idx : Z;
  k_info_b : list (option nat);
  k_info_status : list Z;
  k_ops : list virtio_blk_req
}.

(** The fields of [struct buf] that the driver uses. *)
Record vbuf := mkVbuf { vb_blockno : Z; vb_data : list Z; vb_disk : bool }.

(** A process: outside the driver, in the loop that allocates descriptors, or
    with a request made and waiting for it; [asleep] when it sleeps there. *)
Inductive thread :=
| Idle
| Asking (b : nat) (write : bool) (asleep : bool)
| Waiting (b : nat) (write : bool) (idx : nat * nat * nat) (asleep : bool).

(** The device: how far it has read the avail ring, the requests it has taken
    and not finished, its sectors, whether it has been notified and has not yet
    found the ring empty, and its interrupt line. *)
Record dev := mkDev {
  v_seen : Z; v_taken : list nat; v_sectors : Z -> list Z; v_kick : bool; v_irq : bool
}.

(** [y_intr] is set while the interrupt handler runs and holds the lock. *)
Record sys := mkSys { y_disk : disk; y_buf : nat -> vbuf; y_thr : nat -> thread; y_dev : dev; y_intr : bool }.

Definition set_disk (d : disk) (s : sys) : sys := mkSys d (y_buf s) (y_thr s) (y_dev s) (y_intr s).
Definition set_buf (b : nat) (x : vbuf) (s : sys) : sys :=
  mkSys (y_disk s) (<[b := x]> (y_buf s)) (y_thr s) (y_dev s) (y_intr s).
Definition set_threads (f : nat -> thread) (s : sys) : sys :=
  mkSys (y_disk s) (y_buf s) f (y_dev s) (y_intr s).
Definition set_thr (t : nat) (x : thread) (s : sys) : sys := set_threads (<[t := x]> (y_thr s)) s.
Definition set_dv (d : dev) (s : sys) : sys := mkSys (y_disk s) (y_buf s) (y_thr s) d (y_intr s).
Definition set_intr (b : bool) (s : sys) : sys := mkSys (y_disk s) (y_buf s) (y_thr s) (y_dev s) b.

Definition on_disk (f : disk -> disk) (s : sys) : sys := set_disk (f (y_disk s)) s.
Definition set_desc (i : nat) (x : virtq_desc) (d : disk) : disk :=
  mkDisk (<[i := x]> (k_desc d)) (k_avail_ring d) (k_avail_idx d) (k_used_ring d) (k_used_end d)
    (k_free d) (k_used_idx d) (k_info_b d) (k_info_status d) (k_ops d).
Definition set_avail (r : list nat) (n : Z) (d : disk) : disk :=
  mkDisk (k_desc d) r n (k_used_ring d) (k_used_end d)
    (k_free d) (k_used_idx d) (k_info_b d) (k_info_status d) (k_ops d).
Definition set_used (r : list nat) (n : Z) (d : disk) : disk :=
  mkDisk (k_desc d) (k_avail_ring d) (k_avail_idx d) r n
    (k_free d) (k_used_idx d) (k_info_b d) (k_info_status d) (k_ops d).
Definition set_free (i : nat) (b : bool) (d : disk) : disk :=
  mkDisk (k_desc d) (k_avail_ring d) (k_avail_idx d) (k_used_ring d) (k_used_end d)
    (<[i := b]> (k_free d)) (k_used_idx d) (k_info_b d) (k_info_status d) (k_ops d).
Definition set_used_idx (n : Z) (d : disk) : disk :=
  mkDisk (k_desc d) (k_avail_ring d) (k_avail_idx d) (k_used_ring d) (k_used_end d)
    (k_free d) n (k_info_b d) (k_info_status d) (k_ops d).
Definition set_info_b (i : nat) (b : option nat) (d : disk) : disk :=
  mkDisk (k_desc d) (k_avail_ring d) (k_avail_idx d) (k_used_ring d) (k_used_end d)
    (k_free d) (k_used_idx d) (<[i := b]> (k_info_b d)) (k_info_status d) (k_ops d).
Definition set_status (i : nat) (z : Z) (d : disk) : disk :=
  mkDisk (k_desc d) (k_avail_ring d) (k_avail_idx d) (k_used_ring d) (k_used_end d)
    (k_free d) (k_used_idx d) (k_info_b d) (<[i := z]> (k_info_status d)) (k_ops d).
Definition set_op (i : nat) (r : virtio_blk_req) (d : disk) : disk :=
  mkDisk (k_desc d) (k_avail_ring d) (k_avail_idx d) (k_used_ring d) (k_used_end d)
    (k_free d) (k_used_idx d) (k_info_b d) (k_info_status d) (<[i := r]> (k_ops d)).

Definition set_flag (f : bool) (x : vbuf) : vbuf := mkVbuf (vb_blockno x) (vb_data x) f.
Definition set_data (l : list Z) (x : vbuf) : vbuf := mkVbuf (vb_blockno x) l (vb_disk x).
Definition set_kick (b : bool) (v : dev) : dev := mkDev (v_seen v) (v_taken v) (v_sectors v) b (v_irq v).
Definition set_irq (b : bool) (v : dev) : dev := mkDev (v_seen v) (v_taken v) (v_sectors v) (v_kick v) b.

(** *** Sleeping and waking *)

(** The two channels: [&disk.free[0]] and a buffer. *)
Inductive vchan := CFree | CBuf (b : nat).

Definition roused (ch : vchan) (x : thread) : thread :=
  match ch, x with
  | CFree, Asking b w _ => Asking b w false
  | CBuf b', Waiting b w i z => Waiting b w i (if bool_decide (b = b') then false else z)
  | _, _ => x
  end.
Definition rouse (ch : vchan) : M sys unit := modify (fun s => set_threads (fun t => roused ch (y_thr s t)) s).

(** *** kernel/virtio_disk.c *)

Definition badindex {A} : M sys A := panic "index out of range".

Fixpoint first_free (l : list bool) : option nat :=
  match l with
  | [] => None
  | true :: _ => Some 0%nat
  | false :: l => S <$> first_free l
  end.

(** The index, or [None] for -1. *)
Definition alloc_desc : M sys (option nat) := fun s =>
  match first_free (k_free (y_disk s)) with
  | Some i => Done (Some i) (on_disk (set_free i false) s)
  | None => Done None s
  end.

Definition free_desc (i : nat) : M sys unit := fun s =>
  if (NUM <=? i)%nat then Panic "free_desc 1"
  else
    match k_free (y_disk s) !! i with
    | Some true => Panic "free_desc 2"
    | Some false =>
        (modify (on_disk (set_desc i (mkDesc ANull 0 0 0))) ;;
         modify (on_disk (set_free i true)) ;;
         rouse CFree) s
    | None => badindex s
    end.

Fixpoint free_chain (fuel : nat) (i : nat) : M sys unit :=
  match fuel with
  | O => nofuel
  | S fuel =>
      let* s := get in
      match k_desc (y_disk s) !! i with
      | None => badindex
      | Some x =>
          free_desc i ;;
          if has (d_flags x) VRING_DESC_F_NEXT then free_chain fuel (d_next x) else ret tt
      end
  end.

(** [alloc3_desc], its loop written out: a failure gives back what it took. *)
Definition alloc3_desc : M sys (option (nat * nat * nat)) :=
  let* r0 := alloc_desc in
  match r0 with
  | None => ret None
  | Some i0 =>
      let* r1 := alloc_desc in
      match r1 with
      | None => free_desc i0 ;; ret None
      | Some i1 =>
          let* r2 := alloc_desc in
          match r2 with
          | None => free_desc i0 ;; free_desc i1 ;; ret None
          | Some i2 => ret (Some (i0, i1, i2))
          end
      end
  end.

(** Formatting the three descriptors, making them available, and notifying the
    device. *)
Definition rw_format (b : nat) (write : bool) (idx : nat * nat * nat) : M sys unit := fun s =>
  let '(i0, i1, i2) := idx in
  let sector := u32 (vb_blockno (y_buf s b) * (BSIZE / 512)) in
  (modify (on_disk (set_op i0 (mkReq (if write then VIRTIO_BLK_T_OUT else VIRTIO_BLK_T_IN) 0 sector))) ;;
   modify (on_disk (set_desc i0 (mkDesc (AOp i0) 16 VRING_DESC_F_NEXT i1))) ;;
   modify (on_disk (set_desc i1 (mkDesc (AData b) BSIZE
     (Z.lor (if write then 0 else VRING_DESC_F_WRITE) VRING_DESC_F_NEXT) i2))) ;;
   modify (on_disk (set_status i0 0xff)) ;;
   modify (on_disk (set_desc i2 (mkDesc (AStatus i0) 1 VRING_DESC_F_WRITE 0))) ;;
   modify (fun s => set_buf b (set_flag true (y_buf s b)) s) ;;
   modify (on_disk (set_info_b i0 (Some b)))) s.

Definition rw_submit (i0 : nat) : M sys unit :=
  modify (on_disk (fun d =>
    set_avail (<[Z.to_nat (k_avail_idx d mod Z.of_nat NUM) := i0]> (k_avail_ring d)) (k_avail_idx d) d)) ;;
  modify (on_disk (fun d => set_avail (k_avail_ring d) (wrap 16 (k_avail_idx d + 1)) d)) ;;
  modify (fun s => set_dv (set_kick true (y_dev s)) s).

(** From the test of [b->disk] on: back to sleep, or done. *)
Definition rw_finish (t : nat) (b : nat) (write : bool) (idx : nat * nat * nat) : M sys unit :=
  let* s := get in
  if vb_disk (y_buf s b) then modify (set_thr t (Waiting b write idx true))
  else
    modify (on_disk (set_info_b idx.1.1 None)) ;;
    free_chain NUM idx.1.1 ;;
    modify (set_thr t Idle).

(** From the allocation on: to sleep until descriptors are freed, or through to
    the wait for the device. *)
Definition rw_start (t : nat) (b : nat) (write : bool) : M sys unit :=
  let* r := alloc3_desc in
  match r with
  | None => modify (set_thr t (Asking b write true))
  | Some idx =>
      rw_format b write idx ;;
      rw_submit idx.1.1 ;;
      rw_finish t b write idx
  end.

(** The acknowledgement of the interrupt, one round of the loop, and the whole
    handler for a device that adds nothing meanwhile. *)
Definition intr_ack : M sys unit := fun s =>
  let status := if v_irq (y_dev s) then 1 else 0 in
  let ack := Z.land status 3 in
  Done tt (set_dv (set_irq (if has ack 1 then false else v_irq (y_dev s)) (y_dev s)) s).

Definition intr_one : M sys unit :=
  let* s := get in
  let d := y_disk s in
  match k_used_ring d !! Z.to_nat (k_used_idx d mod Z.of_nat NUM) with
  | None => badindex
  | Some id =>
      match k_info_status d !! id, k_info_b d !! id with
      | Some st, Some ob =>
          if negb (st =? 0) then panic "virtio_disk_intr status"
          else
            match ob with
            | None => panic "null buffer"
            | Some b =>
                modify (fun s => set_buf b (set_flag false (y_buf s b)) s) ;;
                rouse (CBuf b) ;;
                modify (on_disk (fun d => set_used_idx (wrap 16 (k_used_idx d + 1)) d))
            end
      | _, _ => badindex
      end
  end.

Definition intr_pending (s : sys) : bool := negb (k_used_idx (y_disk s) =? k_used_end (y_disk s)).

Fixpoint intr_loop (fuel : nat) : M sys unit :=
  match fuel with
  | O => nofuel
  | S fuel =>
      let* s := get in
      if intr_pending s then intr_one ;; intr_loop fuel else ret tt
  end.
Definition virtio_disk_intr (fuel : nat) : M sys unit := intr_ack ;; intr_loop fuel.

(** *** The device *)

(** The request at the head of a chain: a command header the device reads, the
    data, which it reads or writes as the command says, and a status byte it
    writes. [None] for a chain that is not of this form. *)
Definition chain (d : disk) (h : nat) : option (virtio_blk_req * nat * Z * nat) :=
  match k_desc d !! h with
  | Some (mkDesc (AOp o) 16 f0 n1) =>
      match k_desc d !! n1 with
      | Some (mkDesc (AData b) len f1 n2) =>
          match k_desc d !! n2, k_ops d !! o with
          | Some (mkDesc (AStatus j) 1 f2 _), Some rq =>
              if has f0 VRING_DESC_F_NEXT && negb (has f0 VRING_DESC_F_WRITE) &&
                 has f1 VRING_DESC_F_NEXT && (len mod 512 =? 0) &&
                 has f2 VRING_DESC_F_WRITE && negb (has f2 VRING_DESC_F_NEXT) &&
                 (if rq_type rq =? VIRTIO_BLK_T_OUT then negb (has f1 VRING_DESC_F_WRITE)
                  else (rq_type rq =? VIRTIO_BLK_T_IN) && has f1 VRING_DESC_F_WRITE)
              then Some (rq, b, len / 512, j) else None
          | _, _ => None
          end
      | _ => None
      end
  | _ => None
  end.

Definition sectors_read (f : Z -> list Z) (x n : Z) : list Z := mjoin (f <$> seqZ x n).
Definition sectors_write (f : Z -> list Z) (x n : Z) (l : list Z) (y : Z) : list Z :=
  if (x <=? y) && (y <? x + n) then take 512 (drop (Z.to_nat (512 * (y - x))) l) else f y.

(** What the device does to finish the request at [h]. *)
Definition finish (h : nat) (rq : virtio_blk_req) (b : nat) (n : Z) (j : nat) (s : sys) : sys :=
  let v := y_dev s in
  let d := y_disk s in
  let out := rq_type rq =? VIRTIO_BLK_T_OUT in
  let v' := mkDev (v_seen v) (filter (fun x => x <> h) (v_taken v))
              (if out then sectors_write (v_sectors v) (rq_sector rq) n (vb_data (y_buf s b)) else v_sectors v)
              (v_kick v) true in
  let d' := set_used (<[Z.to_nat (k_used_end d mod Z.of_nat NUM) := h]> (k_used_ring d))
              (wrap 16 (k_used_end d + 1)) (set_status j 0 d) in
  set_dv v' (set_disk d'
    (if out then s else set_buf b (set_data (sectors_read (v_sectors v) (rq_sector rq) n) (y_buf s b)) s)).

(** What the virtio specification lets a healthy device do: take the next
    request of the avail ring after a notification, stop when the ring is
    empty, finish any request it has taken, and anything at all with a
    malformed one. *)
Inductive promised (s : sys) : sys -> Prop :=
| pr_take h :
    v_kick (y_dev s) = true -> v_seen (y_dev s) <> k_avail_idx (y_disk s) ->
    k_avail_ring (y_disk s) !! Z.to_nat (v_seen (y_dev s) mod Z.of_nat NUM) = Some h ->
    promised s (set_dv (mkDev (wrap 16 (v_seen (y_dev s) + 1)) (v_taken (y_dev s) ++ [h])
      (v_sectors (y_dev s)) true (v_irq (y_dev s))) s)
| pr_rest :
    v_kick (y_dev s) = true -> v_seen (y_dev s) = k_avail_idx (y_disk s) ->
    promised s (set_dv (set_kick false (y_dev s)) s)
| pr_finish h rq b n j :
    h ∈ v_taken (y_dev s) -> chain (y_disk s) h = Some (rq, b, n, j) ->
    promised s (finish h rq b n j s)
| pr_malformed h s' :
    h ∈ v_taken (y_dev s) -> chain (y_disk s) h = None -> promised s s'.

(** *** The system *)

Definition uses (x : thread) : option nat :=
  match x with Idle => None | Asking b _ _ => Some b | Waiting b _ _ _ => Some b end.

Section system.
Variable device : sys -> sys -> Prop.

(** A process calls [virtio_disk_rw] on a buffer that it has locked, so that no
    other process uses it; it may change the data of such a buffer between
    calls. *)
Inductive step (s : sys) : sys -> Prop :=
| st_call t b w s' :
    y_intr s = false -> y_thr s t = Idle -> (forall t', uses (y_thr s t') <> Some b) ->
    rw_start t b w s = Done tt s' -> step s s'
| st_retry t b w s' :
    y_intr s = false -> y_thr s t = Asking b w false -> rw_start t b w s = Done tt s' -> step s s'
| st_resume t b w idx s' :
    y_intr s = false -> y_thr s t = Waiting b w idx false -> rw_finish t b w idx s = Done tt s' -> step s s'
| st_fill b blockno l :
    (forall t', uses (y_thr s t') <> Some b) -> 0 <= blockno < 2 ^ 31 -> length l = Z.to_nat BSIZE ->
    step s (set_buf b (mkVbuf blockno l (vb_disk (y_buf s b))) s)
| st_intr s' :
    y_intr s = false -> v_irq (y_dev s) = true -> intr_ack s = Done tt s' -> step s (set_intr true s')
| st_intr_one s' :
    y_intr s = true -> intr_pending s = true -> intr_one s = Done tt s' -> step s s'
| st_intr_end :
    y_intr s = true -> intr_pending s = false -> step s (set_intr false s)
| st_device s' :
    device s s' -> step s s'.

(** The state [virtio_disk_init] leaves. *)
Definition started (s : sys) : Prop :=
  (exists ops desc ring ring' info st,
     y_disk s = mkDisk desc ring 0 ring' 0 (replicate NUM true) 0 info st ops /\
     length desc = NUM /\ length ring = NUM /\ length ring' = NUM /\ length info = NUM /\
     length st = NUM /\ length ops = NUM) /\
  (forall t, y_thr s t = Idle) /\
  (forall b, 0 <= vb_blockno (y_buf s b) < 2 ^ 31 /\ length (vb_data (y_buf s b)) = Z.to_nat BSIZE) /\
  (exists f irq, y_dev s = mkDev 0 [] f false irq /\ forall x, length (f x) = 512%nat) /\
  y_intr s = false.

Inductive reachable : sys -> Prop :=
| re_start s : started s -> reachable s
| re_step s s' : reachable s -> step s s' -> reachable s'.
End system.

(** *** What the rest of the kernel relies on: a disk of blocks *)

Inductive call := CIdle | CBusy (b : nat) (write : bool) | CServed (b : nat) (write : bool).
Record adisk := mkAdisk { a_blocks : Z -> list Z; a_buf : nat -> Z * list Z; a_call : nat -> call }.

Definition update {A} (f g : nat -> A) (i : nat) (x : A) : Prop :=
  g i = x /\ forall j, j <> i -> g j = f j.

(** Calls begin, are served at one moment, in which a block is read or written
    as a whole, and return. *)
Inductive aevent :=
| ACall (t b : nat) (write : bool) | AServe (t : nat) | AReturn (t : nat) | AFill (b : nat).

Definition astep (e : aevent) (a a' : adisk) : Prop :=
  match e with
  | ACall t b w =>
      a_call a t = CIdle /\ update (a_call a) (a_call a') t (CBusy b w) /\
      (forall i, a_buf a' i = a_buf a i) /\ (forall x, a_blocks a' x = a_blocks a x)
  | AServe t =>
      exists b w, a_call a t = CBusy b w /\ update (a_call a) (a_call a') t (CServed b w) /\
        let '(n, data) := a_buf a b in
        if w : bool then
          (forall i, a_buf a' i = a_buf a i) /\
          a_blocks a' n = data /\ (forall x, x <> n -> a_blocks a' x = a_blocks a x)
        else
          update (a_buf a) (a_buf a') b (n, a_blocks a n) /\ (forall x, a_blocks a' x = a_blocks a x)
  | AReturn t =>
      (exists b w, a_call a t = CServed b w) /\ update (a_call a) (a_call a') t CIdle /\
      (forall i, a_buf a' i = a_buf a i) /\ (forall x, a_blocks a' x = a_blocks a x)
  | AFill b =>
      (forall t w, a_call a t <> CBusy b w /\ a_call a t <> CServed b w) /\
      (forall i, i <> b -> a_buf a' i = a_buf a i) /\
      (forall t, a_call a' t = a_call a t) /\ (forall x, a_blocks a' x = a_blocks a x)
  end.

Definition same (a a' : adisk) : Prop :=
  (forall t, a_call a' t = a_call a t) /\ (forall i, a_buf a' i = a_buf a i) /\
  (forall x, a_blocks a' x = a_blocks a x).

(** The disk of blocks behind a state: a request has been served once its
    status byte says so. *)
Definition abs_call (d : disk) (x : thread) : call :=
  match x with
  | Idle => CIdle
  | Asking b w _ => CBusy b w
  | Waiting b w (i0, _, _) _ =>
      if bool_decide (k_info_status d !! i0 = Some 0) then CServed b w else CBusy b w
  end.
Definition abs (s : sys) : adisk :=
  mkAdisk (fun n => v_sectors (y_dev s) (2 * n) ++ v_sectors (y_dev s) (2 * n + 1))
    (fun b => (vb_blockno (y_buf s b), vb_data (y_buf s b)))
    (fun t => abs_call (y_disk s) (y_thr s t)).
