(* ===== verification/VirtioSpec.v ===== *)
(** * The disk driver is a disk of blocks

    The invariant of the driver, its processes, the interrupt handler and the
    device, and the theorems about kernel/virtio_disk.c: it never panics, loses
    no wake-up, and implements a disk whose blocks are read and written at one
    moment during each call. *)

From stdpp Require Import functions.
From S2P Require Import Prelude Riscv Kernel Bio Virtio.

(** ** Definitions *)

(** [l] is in the ring from index [start] on. *)
Definition ring_is (r : list nat) (start : Z) (l : list nat) : Prop :=
  forall k x, l !! k = Some x -> r !! Z.to_nat ((start + Z.of_nat k) mod Z.of_nat NUM) = Some x.

Record ring_ok (r : list nat) (start stop : Z) (l : list nat) : Prop := {
  ro_len : length r = NUM;
  ro_is : ring_is r start l;
  ro_stop : stop = wrap 16 (start + Z.of_nat (length l));
  ro_start : 0 <= start < 2 ^ 16
}.

Definition owns (idx : nat * nat * nat) (i : nat) : Prop := i = idx.1.1 \/ i = idx.1.2 \/ i = idx.2.
Definition spread (idx : nat * nat * nat) : Prop :=
  idx.1.1 <> idx.1.2 /\ idx.1.1 <> idx.2 /\ idx.1.2 <> idx.2.

(** The request a call has made. *)
Definition request (blockno : Z) (w : bool) : virtio_blk_req :=
  mkReq (if w then VIRTIO_BLK_T_OUT else VIRTIO_BLK_T_IN) 0 (u32 (blockno * 2)).

Record flight (s : sys) (b : nat) (w : bool) (idx : nat * nat * nat) : Prop := {
  fl_0 : k_desc (y_disk s) !! idx.1.1 = Some (mkDesc (AOp idx.1.1) 16 VRING_DESC_F_NEXT idx.1.2);
  fl_1 : k_desc (y_disk s) !! idx.1.2 =
    Some (mkDesc (AData b) BSIZE (Z.lor (if w then 0 else VRING_DESC_F_WRITE) VRING_DESC_F_NEXT) idx.2);
  fl_2 : k_desc (y_disk s) !! idx.2 = Some (mkDesc (AStatus idx.1.1) 1 VRING_DESC_F_WRITE 0);
  fl_op : k_ops (y_disk s) !! idx.1.1 = Some (request (vb_blockno (y_buf s b)) w);
  fl_b : k_info_b (y_disk s) !! idx.1.1 = Some (Some b);
  fl_busy : forall i, owns idx i -> k_free (y_disk s) !! i = Some false;
  fl_spread : spread idx
}.

(** How far the request at [h] for [b] has got: with the device, finished and
    not yet seen by the handler, or seen. *)
Definition phase (s : sys) (A U : list nat) (b h : nat) : Prop :=
  (h ∈ A ++ v_taken (y_dev s) /\ k_info_status (y_disk s) !! h = Some 0xff /\ vb_disk (y_buf s b) = true) \/
  (h ∈ U /\ k_info_status (y_disk s) !! h = Some 0 /\ vb_disk (y_buf s b) = true) \/
  (h ∉ A ++ v_taken (y_dev s) ++ U /\ k_info_status (y_disk s) !! h = Some 0 /\ vb_disk (y_buf s b) = false).

(** [A] are the requests the device has not taken, [U] those it has finished
    and the handler has not seen. *)
Record vinv (s : sys) (A U : list nat) : Prop := {
  vi_len : length (k_desc (y_disk s)) = NUM /\ length (k_free (y_disk s)) = NUM /\
    length (k_info_b (y_disk s)) = NUM /\ length (k_info_status (y_disk s)) = NUM /\ length (k_ops (y_disk s)) = NUM;
  vi_buf : forall b, 0 <= vb_blockno (y_buf s b) < 2 ^ 31 /\ length (vb_data (y_buf s b)) = Z.to_nat BSIZE;
  vi_sectors : forall x, length (v_sectors (y_dev s) x) = 512%nat;
  vi_flight : forall t b w idx z, y_thr s t = Waiting b w idx z -> flight s b w idx;
  vi_owner : forall i, k_free (y_disk s) !! i = Some false ->
    exists t b w idx z, y_thr s t = Waiting b w idx z /\ owns idx i;
  vi_apart : forall t t' b w idx z b' w' idx' z' i,
    y_thr s t = Waiting b w idx z -> y_thr s t' = Waiting b' w' idx' z' -> owns idx i -> owns idx' i -> t = t';
  vi_uses : forall t t' b, uses (y_thr s t) = Some b -> uses (y_thr s t') = Some b -> t = t';
  vi_nodup : NoDup (A ++ v_taken (y_dev s) ++ U);
  vi_heads : forall h, h ∈ A ++ v_taken (y_dev s) ++ U ->
    exists t b w idx z, y_thr s t = Waiting b w idx z /\ idx.1.1 = h;
  vi_phase : forall t b w idx z, y_thr s t = Waiting b w idx z -> phase s A U b idx.1.1;
  vi_avail : ring_ok (k_avail_ring (y_disk s)) (v_seen (y_dev s)) (k_avail_idx (y_disk s)) A;
  vi_used : ring_ok (k_used_ring (y_disk s)) (k_used_idx (y_disk s)) (k_used_end (y_disk s)) U;
  vi_asleep : forall t b w idx, y_thr s t = Waiting b w idx true -> vb_disk (y_buf s b) = true;
  vi_asking : forall t b w, y_thr s t = Asking b w true -> exists t' b' w' idx z, y_thr s t' = Waiting b' w' idx z;
  vi_kick : A <> [] -> v_kick (y_dev s) = true;
  vi_irq : U <> [] -> v_irq (y_dev s) = true \/ y_intr s = true
}.

(** The fields of an updated state. *)
Ltac vsimpl := cbn [
  y_disk y_buf y_thr y_dev y_intr set_disk set_buf set_threads set_thr set_dv set_intr on_disk
  k_desc k_avail_ring k_avail_idx k_used_ring k_used_end k_free k_used_idx k_info_b k_info_status k_ops
  set_desc set_avail set_used set_free set_used_idx set_info_b set_status set_op
  vb_blockno vb_data vb_disk set_flag set_data
  v_seen v_taken v_sectors v_kick v_irq set_kick set_irq fst snd] in *.

(** ** Rings *)

Lemma wrap16_mod x : wrap 16 x mod Z.of_nat NUM = x mod Z.of_nat NUM.
Proof.
  unfold wrap. change (Z.of_nat NUM) with 8. change (2 ^ 16) with (8 * 8192).
  rewrite (Z.rem_mul_r x 8 8192) by done.
  rewrite (Z.mul_comm 8 (_ mod _)), Z.mod_add by done. by apply Z.mod_mod.
Qed.

Lemma ring_slot start (j k : nat) : (j < NUM)%nat -> (k < NUM)%nat ->
  Z.to_nat ((start + Z.of_nat j) mod Z.of_nat NUM) = Z.to_nat ((start + Z.of_nat k) mod Z.of_nat NUM) -> j = k.
Proof.
  intros Hj Hk H. change (Z.of_nat NUM) with 8 in H. unfold NUM in *.
  pose proof (Z.mod_pos_bound (start + Z.of_nat j) 8). pose proof (Z.mod_pos_bound (start + Z.of_nat k) 8).
  apply Z2Nat.inj in H; [|lia..]. Z.div_mod_to_equations. lia.
Qed.

Lemma slot_lt x : (Z.to_nat (x mod Z.of_nat NUM) < NUM)%nat.
Proof. unfold NUM. pose proof (Z.mod_pos_bound x 8). change (Z.of_nat 8) with 8. lia. Qed.

Lemma ring_push r start stop l x : ring_ok r start stop l -> (length l < NUM)%nat ->
  ring_ok (<[Z.to_nat (stop mod Z.of_nat NUM) := x]> r) start (wrap 16 (stop + 1)) (l ++ [x]).
Proof.
  intros [Hlen Hr -> Hs] Hl. rewrite wrap16_mod. split.
  - by rewrite length_insert.
  - intros k y Hk. apply lookup_snoc_Some in Hk as [[Hk Hy] | [-> <-]].
    + rewrite list_lookup_insert_ne; [by apply Hr|]. intros E. apply ring_slot in E; lia.
    + rewrite list_lookup_insert_eq; [done|]. rewrite Hlen. apply slot_lt.
  - rewrite length_app. cbn [length]. unfold wrap. rewrite Z.add_mod_idemp_l by lia. f_equal. lia.
  - done.
Qed.

Lemma ring_pop r start stop x l : ring_ok r start stop (x :: l) ->
  r !! Z.to_nat (start mod Z.of_nat NUM) = Some x /\ ring_ok r (wrap 16 (start + 1)) stop l.
Proof.
  intros [Hlen Hr -> Hs]. split.
  - specialize (Hr 0%nat x eq_refl). by rewrite Z.add_0_r in Hr.
  - split; [done| | |apply wrap_range; lia].
    + intros k y Hk. specialize (Hr (S k) y Hk). rewrite <- Hr. do 2 f_equal.
      rewrite <- Z.add_mod_idemp_l, wrap16_mod, Z.add_mod_idemp_l by done. f_equal. lia.
    + cbn [length]. unfold wrap. rewrite Z.add_mod_idemp_l by lia. f_equal. lia.
Qed.

Lemma ring_empty r start stop l : ring_ok r start stop l -> (length l <= NUM)%nat -> start = stop <-> l = [].
Proof.
  intros [_ _ -> Hs] Hl. unfold wrap, NUM in *. split; intros H.
  - destruct l; [done|]. cbn [length] in *. exfalso.
    destruct (Z.lt_ge_cases (start + Z.of_nat (S (length l))) (2 ^ 16)).
    + rewrite Z.mod_small in H by lia. lia.
    + replace (start + Z.of_nat (S (length l))) with (start + Z.of_nat (S (length l)) - 2 ^ 16 + 1 * 2 ^ 16) in H by lia.
      rewrite Z.mod_add, Z.mod_small in H by lia. lia.
  - subst. cbn. rewrite Z.add_0_r, Z.mod_small; lia.
Qed.

(** Distinct descriptors are at most [NUM], fewer when one is left out. *)
Lemma distinct_bound (l : list nat) : NoDup l -> (forall x, x ∈ l -> (x < NUM)%nat) -> (length l <= NUM)%nat.
Proof.
  intros Hd Hl. replace NUM with (length (seq 0 NUM)) by done.
  apply submseteq_length, NoDup_submseteq; [done|]. intros x Hx. apply elem_of_seq. specialize (Hl x Hx). lia.
Qed.

Lemma distinct_lt (l : list nat) i : NoDup l -> (forall x, x ∈ l -> (x < NUM)%nat) -> (i < NUM)%nat -> i ∉ l ->
  (length l < NUM)%nat.
Proof.
  intros Hd Hl Hi Hn.
  assert (length (i :: l) <= NUM)%nat; [|cbn [length] in *; lia].
  apply distinct_bound; [by constructor|]. intros x [-> | Hx]%elem_of_cons; auto.
Qed.

(** ** The routines *)

Lemma first_free_Some l i : first_free l = Some i -> l !! i = Some true.
Proof.
  revert i. induction l as [|[] l IH]; intros i H; simplify_eq/=; [done|].
  apply fmap_Some in H as (j & Hj & ->). by apply IH.
Qed.

Lemma first_free_None l i x : first_free l = None -> l !! i = Some x -> x = false.
Proof.
  revert i. induction l as [|[] l IH]; intros i H Hx; simplify_eq/=.
  destruct i as [|i]; [by simplify_eq/=|]. apply fmap_None in H. by apply (IH i).
Qed.

(** The state after a descriptor is freed. *)
Definition freed (i : nat) (s : sys) : sys :=
  set_threads (fun t => roused CFree (y_thr s t))
    (on_disk (set_free i true) (on_disk (set_desc i (mkDesc ANull 0 0 0)) s)).

Lemma free_desc_run i s : (i < NUM)%nat -> k_free (y_disk s) !! i = Some false -> free_desc i s = Done tt (freed i s).
Proof. intros Hi Hf. unfold free_desc. rewrite (proj2 (Nat.leb_gt NUM i)) by lia. by rewrite Hf. Qed.

(** What a failed allocation of three descriptors leaves: some free descriptors
    cleared again, and the processes that wait for descriptors awake. *)
Record gave_back (s s' : sys) : Prop := {
  gb_disk : exists l, y_disk s' = mkDisk l (k_avail_ring (y_disk s)) (k_avail_idx (y_disk s)) (k_used_ring (y_disk s))
      (k_used_end (y_disk s)) (k_free (y_disk s)) (k_used_idx (y_disk s)) (k_info_b (y_disk s))
      (k_info_status (y_disk s)) (k_ops (y_disk s)) /\ length l = length (k_desc (y_disk s)) /\
      forall i, k_free (y_disk s) !! i = Some false -> l !! i = k_desc (y_disk s) !! i;
  gb_buf : y_buf s' = y_buf s;
  gb_dev : y_dev s' = y_dev s;
  gb_intr : y_intr s' = y_intr s;
  gb_thr : forall t, y_thr s' t = y_thr s t \/ y_thr s' t = roused CFree (y_thr s t)
}.

Lemma disk_eta d : d = mkDisk (k_desc d) (k_avail_ring d) (k_avail_idx d) (k_used_ring d) (k_used_end d) (k_free d)
  (k_used_idx d) (k_info_b d) (k_info_status d) (k_ops d).
Proof. by destruct d. Qed.

Lemma gave_back_refl s : gave_back s s.
Proof. split; try done; [|by left]. eexists. split; [apply disk_eta|done]. Qed.

Lemma roused_twice ch x : roused ch (roused ch x) = roused ch x.
Proof. destruct ch, x; cbn [roused]; try done. by case_bool_decide. Qed.

(** Taking a free descriptor and giving it back. *)
Lemma gave_back_one s i : k_free (y_disk s) !! i = Some true ->
  gave_back s (freed i (on_disk (set_free i false) s)).
Proof.
  intros Hi. split; try done; [|by right].
  eexists. split; [|split].
  - unfold freed, on_disk, set_free, set_desc. vsimpl. rewrite list_insert_insert_eq, (list_insert_id (k_free _)) by done. reflexivity.
  - by rewrite length_insert.
  - intros j Hj. apply list_lookup_insert_ne. congruence.
Qed.

Lemma gave_back_two s i j : i <> j -> k_free (y_disk s) !! i = Some true -> k_free (y_disk s) !! j = Some true ->
  gave_back s (freed j (freed i (on_disk (set_free j false) (on_disk (set_free i false) s)))).
Proof.
  intros Hn Hi Hj. split; try done; [|right; unfold freed; vsimpl; by rewrite roused_twice].
  eexists. split; [|split].
  - unfold freed, on_disk, set_free, set_desc. vsimpl.
    rewrite (list_insert_insert_ne _ i j), !list_insert_insert_eq by done.
    rewrite (list_insert_id (k_free _) i), (list_insert_id (k_free _) j) by done. reflexivity.
  - by rewrite !length_insert.
  - intros k Hk. rewrite !list_lookup_insert_ne by congruence. done.
Qed.

Lemma some_other (i j : nat) : exists k, (k < NUM)%nat /\ k <> i /\ k <> j.
Proof.
  destruct (decide (0 = i \/ 0 = j)%nat); [|exists 0%nat; unfold NUM; lia].
  destruct (decide (1 = i \/ 1 = j)%nat); [|exists 1%nat; unfold NUM; lia].
  exists 2%nat. unfold NUM. lia.
Qed.

Lemma busy_rest (l : list bool) i j : length l = NUM -> first_free (<[j := false]> (<[i := false]> l)) = None ->
  exists k, l !! k = Some false.
Proof.
  intros Hl Hf. destruct (some_other i j) as (k & Hk & Hi & Hj).
  destruct (lookup_lt_is_Some_2 l k) as [x Hx]; [lia|].
  exists k. rewrite Hx. f_equal. apply (first_free_None _ k x) in Hf; [done|].
  by rewrite !list_lookup_insert_ne by done.
Qed.

Lemma alloc_desc_run s : alloc_desc s =
  match first_free (k_free (y_disk s)) with
  | Some i => Done (Some i) (on_disk (set_free i false) s)
  | None => Done None s
  end.
Proof. done. Qed.

Lemma alloc3_run s : length (k_free (y_disk s)) = NUM ->
  (exists i0 i1 i2, spread (i0, i1, i2) /\ (forall i, owns (i0, i1, i2) i -> k_free (y_disk s) !! i = Some true) /\
     alloc3_desc s = Done (Some (i0, i1, i2))
       (on_disk (set_free i2 false) (on_disk (set_free i1 false) (on_disk (set_free i0 false) s)))) \/
  (exists s', alloc3_desc s = Done None s' /\ gave_back s s' /\ exists i, k_free (y_disk s) !! i = Some false).
Proof.
  intros Hl. unfold alloc3_desc.
  destruct (first_free (k_free (y_disk s))) as [i0|] eqn:E0.
  2:{ right. eexists. split; [kstep by (rewrite alloc_desc_run, E0; done); done|].
      split; [apply gave_back_refl|]. apply (busy_rest _ 0 0); [done|].
      destruct (lookup_lt_is_Some_2 (k_free (y_disk s)) 0) as [x Hx]; [unfold NUM in *; lia|].
      pose proof (first_free_None _ _ _ E0 Hx) as ->. by rewrite !list_insert_id by (by rewrite ?list_insert_id). }
  pose proof (first_free_Some _ _ E0) as F0. pose proof (lookup_lt_Some _ _ _ F0) as L0.
  rewrite (bind_done alloc_desc _ s (Some i0) _) by (rewrite alloc_desc_run, E0; done). cbv beta iota.
  destruct (first_free (<[i0:=false]> (k_free (y_disk s)))) as [i1|] eqn:E1.
  2:{ right. eexists. split.
      - kstep by (rewrite alloc_desc_run; vsimpl; rewrite E1; done). cbv beta iota.
        kstep by (apply free_desc_run; [lia|vsimpl; by apply list_lookup_insert_eq]). done.
      - split; [by apply gave_back_one|]. apply (busy_rest _ i0 i0); [done|]. by rewrite list_insert_insert_eq. }
  pose proof (first_free_Some _ _ E1) as [(_ & ? & _)|(N1 & F1)]%list_lookup_insert_Some; [done|].
  pose proof (lookup_lt_Some _ _ _ F1) as L1.
  rewrite (bind_done alloc_desc _ _ (Some i1) _) by (rewrite alloc_desc_run; vsimpl; rewrite E1; done). cbv beta iota.
  destruct (first_free (<[i1:=false]> (<[i0:=false]> (k_free (y_disk s))))) as [i2|] eqn:E2.
  - left. pose proof (first_free_Some _ _ E2) as [(_ & ? & _)|(N2 & F2)]%list_lookup_insert_Some; [done|].
    apply list_lookup_insert_Some in F2 as [(_ & ? & _)|(N2' & F2)]; [done|].
    exists i0, i1, i2. split; [done|]. split; [intros i [-> | [-> | ->]]; done|].
    kstep by (rewrite alloc_desc_run; vsimpl; rewrite E2; done). done.
  - right. eexists. split.
    + kstep by (rewrite alloc_desc_run; vsimpl; rewrite E2; done). cbv beta iota.
      kstep by (apply free_desc_run; [lia|vsimpl; rewrite list_lookup_insert_ne by done; by apply list_lookup_insert_eq]).
      kstep by (apply free_desc_run; [lia|unfold freed; vsimpl; rewrite list_lookup_insert_ne by done;
                                          apply list_lookup_insert_eq; by rewrite length_insert]). done.
    + split; [by apply gave_back_two|]. by apply (busy_rest _ i0 i1).
Qed.

(** ** The invariant *)

(** Case analysis on an updated thread table or buffer table. *)
Ltac at_thread H t t' :=
  destruct (decide (t' = t)) as [->|]; [rewrite fn_lookup_insert in H|rewrite fn_lookup_insert_ne in H by done].

Section inv.
Context (s : sys) (A U : list nat).
Hypothesis I : vinv s A U.

Lemma owned_lt i t b w idx z : y_thr s t = Waiting b w idx z -> owns idx i -> (i < NUM)%nat.
Proof.
  intros Ht Hi. pose proof (fl_busy _ _ _ _ (vi_flight _ _ _ I _ _ _ _ _ Ht) _ Hi) as Hf.
  apply lookup_lt_Some in Hf. destruct (vi_len _ _ _ I) as (_ & Hl & _). lia.
Qed.

Lemma head_lt h : h ∈ A ++ v_taken (y_dev s) ++ U -> (h < NUM)%nat.
Proof.
  intros Hh. destruct (vi_heads _ _ _ I h Hh) as (t & b & w & idx & z & Ht & <-).
  apply (owned_lt _ _ _ _ _ _ Ht). by left.
Qed.

Lemma avail_bound : (length A <= NUM)%nat.
Proof.
  pose proof (distinct_bound _ (vi_nodup _ _ _ I) head_lt) as H. rewrite !length_app in H. lia.
Qed.
Lemma used_bound : (length U <= NUM)%nat.
Proof.
  pose proof (distinct_bound _ (vi_nodup _ _ _ I) head_lt) as H. rewrite !length_app in H. lia.
Qed.

(** A free descriptor is in no request. *)
Lemma free_unowned i t b w idx z : k_free (y_disk s) !! i = Some true -> y_thr s t = Waiting b w idx z -> ~ owns idx i.
Proof.
  intros Hf Ht Hi. pose proof (fl_busy _ _ _ _ (vi_flight _ _ _ I _ _ _ _ _ Ht) _ Hi). congruence.
Qed.

Lemma free_not_head i : k_free (y_disk s) !! i = Some true -> i ∉ A ++ v_taken (y_dev s) ++ U.
Proof.
  intros Hf Hi. destruct (vi_heads _ _ _ I i Hi) as (t & b & w & idx & z & Ht & <-).
  apply (free_unowned _ _ _ _ _ _ Hf Ht). by left.
Qed.

Lemma waiting_uses t b w idx z : y_thr s t = Waiting b w idx z -> uses (y_thr s t) = Some b.
Proof. by intros ->. Qed.

(** Two requests have different buffers and heads. *)
Lemma waiting_apart t t' b w idx z b' w' idx' z' : t <> t' ->
  y_thr s t = Waiting b w idx z -> y_thr s t' = Waiting b' w' idx' z' -> b <> b' /\ idx.1.1 <> idx'.1.1.
Proof.
  intros Hn Ht Ht'. split.
  - intros ->. apply Hn, (vi_uses _ _ _ I _ _ b'); by eapply waiting_uses.
  - intros E. apply Hn, (vi_apart _ _ _ I _ _ _ _ _ _ _ _ _ _ idx.1.1 Ht Ht'); [by left|]. rewrite E. by left.
Qed.

(** Waking the processes that wait for descriptors, and clearing free ones. *)
Lemma vinv_gave_back s' : gave_back s s' -> vinv s' A U.
Proof.
  intros [(l & Hd & Hll & Hl) Hb Hv Hi Ht].
  assert (forall t b w idx z, y_thr s' t = Waiting b w idx z <-> y_thr s t = Waiting b w idx z) as HW.
  { intros t b w idx z. destruct (Ht t) as [-> | ->]; [done|]. by destruct (y_thr s t). }
  assert (forall t, uses (y_thr s' t) = uses (y_thr s t)) as HU.
  { intros t. destruct (Ht t) as [-> | ->]; [done|]. by destruct (y_thr s t). }
  assert (forall t b w, y_thr s' t = Asking b w true -> y_thr s t = Asking b w true) as HA.
  { intros t b w. destruct (Ht t) as [-> | ->]; [done|]. by destruct (y_thr s t). }
  destruct I. unfold phase in *. split; rewrite ?Hd, ?Hb, ?Hv, ?Hi; vsimpl; try done.
  - by rewrite Hll.
  - intros t b w idx z Hw%HW. destruct (vi_flight0 _ _ _ _ _ Hw) as [F0 F1 F2 Fo Fb Ff Fs].
    split; rewrite ?Hd, ?Hb; vsimpl; try done; rewrite Hl; auto; apply Ff; unfold owns; auto.
  - intros i Hf. destruct (vi_owner0 i Hf) as (t & b & w & idx & z & H & ?). exists t, b, w, idx, z. by rewrite HW.
  - intros t t' b w idx z b' w' idx' z' i H1%HW H2%HW. by apply (vi_apart0 _ _ _ _ _ _ _ _ _ _ _ H1 H2).
  - intros t t' b. rewrite !HU. apply vi_uses0.
  - intros h Hh. destruct (vi_heads0 h Hh) as (t & b & w & idx & z & H & ?). exists t, b, w, idx, z. by rewrite HW.
  - intros t b w idx z Hw%HW. unfold phase. rewrite Hd, Hb, Hv. vsimpl. by apply (vi_phase0 _ _ _ _ _ Hw).
  - intros t b w idx Hw%HW. by apply (vi_asleep0 _ _ _ _ Hw).
  - intros t b w Hw%HA. destruct (vi_asking0 _ _ _ Hw) as (t' & b' & w' & idx & z & H).
    exists t', b', w', idx, z. by rewrite HW.
Qed.

(** A process that has found no descriptors goes to sleep. *)
Lemma vinv_ask t b w : (forall b' w' idx z, y_thr s t <> Waiting b' w' idx z) ->
  (forall t', t' <> t -> uses (y_thr s t') <> Some b) ->
  (exists i, k_free (y_disk s) !! i = Some false) -> vinv (set_thr t (Asking b w true) s) A U.
Proof.
  intros Hn Hu (i & Hi). destruct (vi_owner _ _ _ I i Hi) as (t0 & b0 & w0 & idx0 & z0 & H0 & _).
  assert (t0 <> t) as Hne by (intros ->; by apply Hn in H0).
  assert (forall t' b' w' idx z, (<[t := Asking b w true]> (y_thr s)) t' = Waiting b' w' idx z <->
            y_thr s t' = Waiting b' w' idx z) as HW.
  { intros t' b' w' idx z. destruct (decide (t' = t)) as [->|].
    - rewrite fn_lookup_insert. split; [done|]. by intros H%Hn.
    - by rewrite fn_lookup_insert_ne. }
  destruct I. split; vsimpl; try done.
  - intros t' b' w' idx z H%HW. destruct (vi_flight0 _ _ _ _ _ H) as [? ? ? ? ? ? ?]. by split.
  - intros j Hj. destruct (vi_owner0 j Hj) as (t' & b' & w' & idx & z & H & ?). exists t', b', w', idx, z. by rewrite HW.
  - intros t1 t2 b1 w1 idx1 z1 b2 w2 idx2 z2 j H1%HW H2%HW. by apply (vi_apart0 _ _ _ _ _ _ _ _ _ _ _ H1 H2).
  - intros t1 t2 b1 H1 H2. at_thread H1 t t1; at_thread H2 t t2; try done; cbn [uses] in *; simplify_eq.
    + by destruct (Hu t2).
    + by destruct (Hu t1).
    + by apply (vi_uses0 _ _ b1).
  - intros h Hh. destruct (vi_heads0 h Hh) as (t' & b' & w' & idx & z & H & ?). exists t', b', w', idx, z. by rewrite HW.
  - intros t' b' w' idx z H%HW. by apply (vi_phase0 _ _ _ _ _ H).
  - intros t' b' w' idx H%HW. by apply (vi_asleep0 _ _ _ _ H).
  - intros t' b' w' _. exists t0, b0, w0, idx0, z0. by rewrite fn_lookup_insert_ne.
Qed.

(** The state after a request is made. *)
Definition submitted (t b : nat) (w : bool) (idx : nat * nat * nat) : sys :=
  let '(i0, i1, i2) := idx in
  let d := y_disk s in
  mkSys
    (mkDisk
       (<[i2 := mkDesc (AStatus i0) 1 VRING_DESC_F_WRITE 0]>
         (<[i1 := mkDesc (AData b) BSIZE (Z.lor (if w then 0 else VRING_DESC_F_WRITE) VRING_DESC_F_NEXT) i2]>
           (<[i0 := mkDesc (AOp i0) 16 VRING_DESC_F_NEXT i1]> (k_desc d))))
       (<[Z.to_nat (k_avail_idx d mod Z.of_nat NUM) := i0]> (k_avail_ring d)) (wrap 16 (k_avail_idx d + 1))
       (k_used_ring d) (k_used_end d)
       (<[i2 := false]> (<[i1 := false]> (<[i0 := false]> (k_free d)))) (k_used_idx d)
       (<[i0 := Some b]> (k_info_b d)) (<[i0 := 0xff]> (k_info_status d))
       (<[i0 := request (vb_blockno (y_buf s b)) w]> (k_ops d)))
    (<[b := set_flag true (y_buf s b)]> (y_buf s)) (<[t := Waiting b w idx true]> (y_thr s))
    (set_kick true (y_dev s)) (y_intr s).

Lemma submit_run t b w i0 i1 i2 :
  (rw_format b w (i0, i1, i2) ;; rw_submit i0 ;; rw_finish t b w (i0, i1, i2))
    (on_disk (set_free i2 false) (on_disk (set_free i1 false) (on_disk (set_free i0 false) s))) =
  Done tt (submitted t b w (i0, i1, i2)).
Proof.
  unfold rw_format, rw_submit, rw_finish, bind, modify, get. vsimpl. rewrite fn_lookup_insert. reflexivity.
Qed.

Context (t b : nat) (w : bool) (i0 i1 i2 : nat).
Hypothesis Hs : spread (i0, i1, i2).
Hypothesis Hf : forall i, owns (i0, i1, i2) i -> k_free (y_disk s) !! i = Some true.
Hypothesis Hn : forall b' w' idx z, y_thr s t <> Waiting b' w' idx z.
Hypothesis Hu : forall t', t' <> t -> uses (y_thr s t') <> Some b.

Let s' := submitted t b w (i0, i1, i2).

Lemma new_lt i : owns (i0, i1, i2) i -> (i < NUM)%nat.
Proof.
  intros Hi%Hf. apply lookup_lt_Some in Hi. destruct (vi_len _ _ _ I) as (_ & Hl & _). lia.
Qed.

Lemma submitted_old t' b' w' idx z : y_thr s t' = Waiting b' w' idx z -> t' <> t /\ b' <> b /\ (forall i, owns idx i -> ~ owns (i0, i1, i2) i).
Proof.
  intros H. split; [intros ->; by apply Hn in H|]. split.
  - intros ->. destruct (decide (t' = t)) as [->|Hne]; [by apply Hn in H|]. apply (Hu t' Hne). by rewrite H.
  - intros i Hi Hi'. by apply (free_unowned _ _ _ _ _ _ (Hf i Hi') H).
Qed.

Lemma submitted_flight_new : flight s' b w (i0, i1, i2).
Proof.
  destruct Hs as (N01 & N02 & N12). cbn [fst snd] in *. destruct (vi_len _ _ _ I) as (L1 & L2 & L3 & L4 & L5).
  pose proof (new_lt i0 ltac:(by left)). pose proof (new_lt i1 ltac:(by right; left)).
  pose proof (new_lt i2 ltac:(by right; right)).
  unfold s', submitted. split; vsimpl; rewrite ?fn_lookup_insert.
  - rewrite !list_lookup_insert_ne, list_lookup_insert_eq by lia. done.
  - rewrite list_lookup_insert_ne, list_lookup_insert_eq by (rewrite ?length_insert; lia). done.
  - rewrite list_lookup_insert_eq by (rewrite ?length_insert; lia). done.
  - rewrite list_lookup_insert_eq by lia. done.
  - rewrite list_lookup_insert_eq by lia. done.
  - intros i Hi. apply list_lookup_insert_Some. rewrite !length_insert, L2.
    destruct (decide (i2 = i)); [left; subst; auto|right; split; [done|]].
    apply list_lookup_insert_Some. rewrite !length_insert, L2.
    destruct (decide (i1 = i)); [left; subst; auto|right; split; [done|]].
    apply list_lookup_insert_Some. rewrite L2. destruct Hi as [? | [? | ?]]; cbn in *; subst; auto; done.
  - done.
Qed.

Lemma submitted_flight_old t' b' w' idx z : y_thr s t' = Waiting b' w' idx z -> flight s' b' w' idx.
Proof.
  intros H. destruct (submitted_old _ _ _ _ _ H) as (_ & Hb & Ho).
  destruct (vi_flight _ _ _ I _ _ _ _ _ H) as [F0 F1 F2 Fo Fb Ff Fs].
  assert (forall i, owns idx i -> i0 <> i /\ i1 <> i /\ i2 <> i) as Hne.
  { intros i Hi. specialize (Ho i Hi). unfold owns in Ho. cbn in Ho. naive_solver. }
  destruct (Hne idx.1.1 ltac:(by left)) as (? & ? & ?). destruct (Hne idx.1.2 ltac:(by right; left)) as (? & ? & ?).
  destruct (Hne idx.2 ltac:(by right; right)) as (? & ? & ?).
  unfold s', submitted. split; cbn [y_disk y_buf k_desc k_ops k_info_b k_free];
    rewrite ?fn_lookup_insert_ne, ?list_lookup_insert_ne by done; try done.
  intros i Hi. destruct (Hne i Hi) as (? & ? & ?). rewrite !list_lookup_insert_ne by done. by apply Ff.
Qed.

Lemma submitted_thr t' b' w' idx z : y_thr s' t' = Waiting b' w' idx z ->
  (t' = t /\ b' = b /\ w' = w /\ idx = (i0, i1, i2) /\ z = true) \/ (t' <> t /\ y_thr s t' = Waiting b' w' idx z).
Proof. unfold s', submitted. vsimpl. intros H. at_thread H t t'; [left|right]; by simplify_eq. Qed.

Lemma submitted_keeps t' b' w' idx z : y_thr s t' = Waiting b' w' idx z -> y_thr s' t' = Waiting b' w' idx z.
Proof.
  intros H. unfold s', submitted. vsimpl. rewrite fn_lookup_insert_ne; [done|].
  by destruct (submitted_old _ _ _ _ _ H).
Qed.

Lemma submitted_self : y_thr s' t = Waiting b w (i0, i1, i2) true.
Proof. unfold s', submitted. vsimpl. apply fn_lookup_insert. Qed.

Lemma submitted_uses t' b' : uses (y_thr s' t') = Some b' -> (t' = t /\ b' = b) \/ (t' <> t /\ uses (y_thr s t') = Some b').
Proof. unfold s', submitted. vsimpl. intros H. at_thread H t t'; [left|right]; by simplify_eq/=. Qed.

Lemma submitted_phase t' b' w' idx z : y_thr s' t' = Waiting b' w' idx z -> phase s' (A ++ [i0]) U b' idx.1.1.
Proof.
  intros [(-> & -> & -> & -> & ->) | (Hne & H)]%submitted_thr.
  - left. unfold s', submitted. vsimpl. rewrite fn_lookup_insert. split; [set_solver|]. split; [|done].
    apply list_lookup_insert_eq. destruct (vi_len _ _ _ I) as (_ & _ & _ & -> & _). apply new_lt. by left.
  - destruct (submitted_old _ _ _ _ _ H) as (_ & Hb & Ho).
    assert (idx.1.1 <> i0) as Hh by (intros E; apply (Ho idx.1.1); [by left|rewrite E; by left]).
    unfold phase, s', submitted. vsimpl. rewrite fn_lookup_insert_ne, list_lookup_insert_ne by done.
    pose proof (vi_phase _ _ _ I _ _ _ _ _ H) as P. unfold phase in P. set_solver.
Qed.

Lemma vinv_submitted : vinv s' (A ++ [i0]) U.
Proof.
  pose proof (free_not_head _ (Hf i0 ltac:(by left))) as Hh0.
  pose proof (vi_nodup _ _ _ I) as Hnd.
  split.
  - unfold s', submitted. vsimpl. rewrite !length_insert. apply I.
  - intros b'. pose proof (vi_buf _ _ _ I b') as Hb. unfold s', submitted. vsimpl.
    destruct (decide (b' = b)) as [->|]; [by rewrite fn_lookup_insert|by rewrite fn_lookup_insert_ne].
  - apply I.
  - intros t' b' w' idx z [(-> & -> & -> & -> & ->) | (_ & H)]%submitted_thr;
      [apply submitted_flight_new|by apply (submitted_flight_old _ _ _ _ _ H)].
  - intros i Hi. destruct (decide (owns (i0, i1, i2) i)) as [Ho|Ho].
    + exists t, b, w, (i0, i1, i2), true. split; [apply submitted_self|done].
    + unfold s', submitted in Hi. vsimpl. unfold owns in Ho. cbn in Ho. rewrite !list_lookup_insert_ne in Hi by naive_solver.
      destruct (vi_owner _ _ _ I i Hi) as (t' & b' & w' & idx & z & H & ?).
      exists t', b', w', idx, z. split; [by apply submitted_keeps|done].
  - intros t1 t2 b1 w1 idx1 z1 b2 w2 idx2 z2 i [(-> & -> & -> & -> & ->) | (N1 & H1)]%submitted_thr
      [(-> & -> & -> & -> & ->) | (N2 & H2)]%submitted_thr O1 O2; try done.
    + by destruct (submitted_old _ _ _ _ _ H2) as (_ & _ & []%(fun f => f i O2)).
    + by destruct (submitted_old _ _ _ _ _ H1) as (_ & _ & []%(fun f => f i O1)).
    + by apply (vi_apart _ _ _ I _ _ _ _ _ _ _ _ _ _ i H1 H2).
  - intros t1 t2 b1 [(-> & ->) | (N1 & H1)]%submitted_uses [(-> & E) | (N2 & H2)]%submitted_uses; try done.
    + by apply Hu in H2.
    + subst. by apply Hu in H1.
    + by apply (vi_uses _ _ _ I _ _ b1).
  - unfold s', submitted. vsimpl. rewrite <- app_assoc. cbn [app]. apply NoDup_app. apply NoDup_app in Hnd as (N1 & N2 & N3).
    split; [done|]. split; [set_solver|]. constructor; set_solver.
  - intros h Hh. destruct (decide (h = i0)) as [->|].
    + exists t, b, w, (i0, i1, i2), true. split; [apply submitted_self|done].
    + destruct (vi_heads _ _ _ I h) as (t' & b' & w' & idx & z & H & ?).
      { unfold s', submitted in Hh. vsimpl. set_solver. }
      exists t', b', w', idx, z. split; [by apply submitted_keeps|done].
  - apply submitted_phase.
  - unfold s', submitted. vsimpl. apply ring_push; [apply I|].
    apply (distinct_lt _ i0); [by apply NoDup_app in Hnd as (? & _ & _)| |apply new_lt; by left|set_solver].
    intros x Hx. apply head_lt. set_solver.
  - apply I.
  - intros t' b' w' idx [(-> & -> & -> & -> & _) | (_ & H)]%submitted_thr; unfold s', submitted; vsimpl.
    + by rewrite fn_lookup_insert.
    + rewrite fn_lookup_insert_ne by (by destruct (submitted_old _ _ _ _ _ H) as (_ & ? & _)).
      by apply (vi_asleep _ _ _ I _ _ _ _ H).
  - intros _ _ _ _. exists t, b, w, (i0, i1, i2), true. apply submitted_self.
  - done.
  - apply I.
Qed.
End inv.

(** The end of a call: its request has been seen, and its descriptors go back. *)
Section finish.
Context (s : sys) (A U : list nat) (t b : nat) (w : bool) (i0 i1 i2 : nat) (z : bool).
Hypothesis I : vinv s A U.
Hypothesis Ht : y_thr s t = Waiting b w (i0, i1, i2) z.

Definition null_desc : virtq_desc := mkDesc ANull 0 0 0.
Definition returned : sys :=
  let d := y_disk s in
  mkSys
    (mkDisk (<[i2 := null_desc]> (<[i1 := null_desc]> (<[i0 := null_desc]> (k_desc d))))
       (k_avail_ring d) (k_avail_idx d) (k_used_ring d) (k_used_end d)
       (<[i2 := true]> (<[i1 := true]> (<[i0 := true]> (k_free d)))) (k_used_idx d)
       (<[i0 := None]> (k_info_b d)) (k_info_status d) (k_ops d))
    (y_buf s) (<[t := Idle]> (fun t' => roused CFree (roused CFree (roused CFree (y_thr s t'))))) (y_dev s) (y_intr s).

Lemma free_chain_S fuel i x s0 : (i < NUM)%nat -> k_desc (y_disk s0) !! i = Some x -> k_free (y_disk s0) !! i = Some false ->
  free_chain (S fuel) i s0 =
    (if has (d_flags x) VRING_DESC_F_NEXT then free_chain fuel (d_next x) else ret tt) (freed i s0).
Proof.
  intros Hi Hx Hf. cbn [free_chain]. unfold bind at 1, get. rewrite Hx.
  by rewrite (bind_done _ _ _ tt (freed i s0)) by (by apply free_desc_run).
Qed.

Lemma finish_run : vb_disk (y_buf s b) = false -> rw_finish t b w (i0, i1, i2) s = Done tt returned.
Proof.
  intros Hd. destruct (vi_flight _ _ _ I _ _ _ _ _ Ht) as [F0 F1 F2 _ _ Ff (N01 & N02 & N12)]. cbn [fst snd] in *.
  pose proof (fun i Hi => owned_lt _ _ _ I i _ _ _ _ _ Ht Hi) as Hlt.
  assert (owns (i0, i1, i2) i0 /\ owns (i0, i1, i2) i1 /\ owns (i0, i1, i2) i2) as (O0 & O1 & O2) by (unfold owns; auto).
  unfold rw_finish. kpure. rewrite Hd. kpure. cbn [fst snd]. unfold NUM at 1.
  rewrite (bind_done _ _ _ tt (freed i2 (freed i1 (freed i0 (on_disk (set_info_b i0 None) s))))); [reflexivity|].
  rewrite (free_chain_S _ _ _ (on_disk (set_info_b i0 None) s) (Hlt _ O0) F0 (Ff _ O0)). cbn [d_flags d_next].
  change (has VRING_DESC_F_NEXT VRING_DESC_F_NEXT) with true. cbv iota.
  erewrite free_chain_S; [|by apply Hlt|unfold freed; vsimpl; rewrite list_lookup_insert_ne by done; exact F1
    |unfold freed; vsimpl; rewrite list_lookup_insert_ne by done; by apply Ff].
  cbn [d_flags d_next]. replace (has _ VRING_DESC_F_NEXT) with true by (by destruct w).
  erewrite free_chain_S; [|by apply Hlt|unfold freed; vsimpl; rewrite !list_lookup_insert_ne by done; exact F2
    |unfold freed; vsimpl; rewrite !list_lookup_insert_ne by done; by apply Ff].
  reflexivity.
Qed.

Lemma returned_thr t' b' w' idx z' : y_thr returned t' = Waiting b' w' idx z' <-> t' <> t /\ y_thr s t' = Waiting b' w' idx z'.
Proof.
  unfold returned. vsimpl. destruct (decide (t' = t)) as [->|].
  - rewrite fn_lookup_insert. naive_solver.
  - rewrite fn_lookup_insert_ne, !roused_twice by done. destruct (y_thr s t'); naive_solver.
Qed.

Lemma returned_uses t' b' : uses (y_thr returned t') = Some b' -> t' <> t /\ uses (y_thr s t') = Some b'.
Proof.
  unfold returned. vsimpl. intros H. at_thread H t t'; [done|]. split; [done|]. by destruct (y_thr s t').
Qed.

Lemma returned_flight t' b' w' idx z' : t' <> t -> y_thr s t' = Waiting b' w' idx z' -> flight returned b' w' idx.
Proof.
  intros Hne H. destruct (vi_flight _ _ _ I _ _ _ _ _ H) as [F0 F1 F2 Fo Fb Ff Fs].
  assert (forall i, owns idx i -> i0 <> i /\ i1 <> i /\ i2 <> i) as Hn.
  { intros i Hi. assert (~ owns (i0, i1, i2) i) as Ho.
    { intros Hi'. apply Hne. by apply (vi_apart _ _ _ I _ _ _ _ _ _ _ _ _ _ i H Ht). }
    unfold owns in Ho. cbn in Ho. naive_solver. }
  destruct (Hn idx.1.1 ltac:(by left)) as (? & ? & ?). destruct (Hn idx.1.2 ltac:(by right; left)) as (? & ? & ?).
  destruct (Hn idx.2 ltac:(by right; right)) as (? & ? & ?).
  unfold returned. split; cbn [y_disk y_buf k_desc k_ops k_info_b k_free]; rewrite ?list_lookup_insert_ne by done; try done.
  intros i Hi. destruct (Hn i Hi) as (? & ? & ?). rewrite !list_lookup_insert_ne by done. by apply Ff.
Qed.

Lemma vinv_returned : vb_disk (y_buf s b) = false -> vinv returned A U.
Proof.
  intros Hd. pose proof (vi_phase _ _ _ I _ _ _ _ _ Ht) as P. cbn in P.
  assert (i0 ∉ A ++ v_taken (y_dev s) ++ U) as Hout by (unfold phase in P; naive_solver congruence).
  split; try (unfold returned; vsimpl; apply I).
  - unfold returned. vsimpl. rewrite !length_insert. apply I.
  - intros t' b' w' idx z' (Hne & H)%returned_thr. by apply (returned_flight _ _ _ _ _ Hne H).
  - intros i Hi. unfold returned in Hi. vsimpl.
    apply list_lookup_insert_Some in Hi as [(_ & ? & _)|(N2 & Hi)]; [done|].
    apply list_lookup_insert_Some in Hi as [(_ & ? & _)|(N1 & Hi)]; [done|].
    apply list_lookup_insert_Some in Hi as [(_ & ? & _)|(N0 & Hi)]; [done|].
    destruct (vi_owner _ _ _ I i Hi) as (t' & b' & w' & idx & z' & H & Ho).
    exists t', b', w', idx, z'. split; [|done]. apply returned_thr. split; [|done].
    intros ->. rewrite Ht in H. simplify_eq. unfold owns in Ho. cbn in Ho. naive_solver.
  - intros t1 t2 b1 w1 idx1 z1 b2 w2 idx2 z2 i (_ & H1)%returned_thr (_ & H2)%returned_thr.
    by apply (vi_apart _ _ _ I _ _ _ _ _ _ _ _ _ _ i H1 H2).
  - intros t1 t2 b1 (_ & H1)%returned_uses (_ & H2)%returned_uses. by apply (vi_uses _ _ _ I _ _ b1).
  - intros h Hh. destruct (vi_heads _ _ _ I h Hh) as (t' & b' & w' & idx & z' & H & <-).
    exists t', b', w', idx, z'. split; [|done]. apply returned_thr. split; [|done].
    intros ->. rewrite Ht in H. by simplify_eq.
  - intros t' b' w' idx z' (_ & H)%returned_thr. by apply (vi_phase _ _ _ I _ _ _ _ _ H).
  - intros t' b' w' idx (_ & H)%returned_thr. by apply (vi_asleep _ _ _ I _ _ _ _ H).
  - intros t' b' w' H. unfold returned in H. vsimpl. at_thread H t t'; [done|]. by destruct (y_thr s t').
Qed.
End finish.

(** ** Sleeping, waking and the handler *)

Definition core (x : thread) : thread :=
  match x with Idle => Idle | Asking b w _ => Asking b w false | Waiting b w idx _ => Waiting b w idx false end.

Lemma core_waiting x y b w idx z : core x = core y -> x = Waiting b w idx z -> exists z', y = Waiting b w idx z'.
Proof. intros E ->. destruct y; simplify_eq/=. eauto. Qed.

Lemma core_uses x y : core x = core y -> uses x = uses y.
Proof. by destruct x, y; intros; simplify_eq/=. Qed.

(** Changing only who is asleep. *)
Lemma vinv_threads s A U f : vinv s A U -> (forall t, core (f t) = core (y_thr s t)) ->
  (forall t b w idx, f t = Waiting b w idx true -> vb_disk (y_buf s b) = true) ->
  (forall t b w, f t = Asking b w true -> exists t' b' w' idx z, y_thr s t' = Waiting b' w' idx z) ->
  vinv (set_threads f s) A U.
Proof.
  intros I Hc Hs Ha.
  assert (forall t b w idx z, f t = Waiting b w idx z -> exists z', y_thr s t = Waiting b w idx z') as HW.
  { intros t b w idx z. by apply core_waiting. }
  assert (forall t b w idx z, y_thr s t = Waiting b w idx z -> exists z', f t = Waiting b w idx z') as HW'.
  { intros t b w idx z. by apply core_waiting. }
  destruct I. split; vsimpl; try done.
  - intros t b w idx z (z' & H)%HW. destruct (vi_flight0 _ _ _ _ _ H) as [? ? ? ? ? ? ?]. by split.
  - intros i Hi. destruct (vi_owner0 i Hi) as (t & b & w & idx & z & (z' & H)%HW' & ?). by exists t, b, w, idx, z'.
  - intros t1 t2 b1 w1 idx1 z1 b2 w2 idx2 z2 i (z1' & H1)%HW (z2' & H2)%HW. by apply (vi_apart0 _ _ _ _ _ _ _ _ _ _ i H1 H2).
  - intros t1 t2 b. rewrite (core_uses _ _ (Hc t1)), (core_uses _ _ (Hc t2)). apply vi_uses0.
  - intros h Hh. destruct (vi_heads0 h Hh) as (t & b & w & idx & z & (z' & H)%HW' & ?). by exists t, b, w, idx, z'.
  - intros t b w idx z (z' & H)%HW. by apply (vi_phase0 _ _ _ _ _ H).
  - intros t b w H. destruct (Ha t b w H) as (t' & b' & w' & idx & z & (z' & H')%HW'). by exists t', b', w', idx, z'.
Qed.

Lemma vinv_sleep s A U t b w idx z : vinv s A U -> y_thr s t = Waiting b w idx z -> vb_disk (y_buf s b) = true ->
  vinv (set_thr t (Waiting b w idx true) s) A U.
Proof.
  intros I Ht Hd. apply vinv_threads; [done| | |].
  - intros t'. destruct (decide (t' = t)) as [->|]; [by rewrite fn_lookup_insert, Ht|by rewrite fn_lookup_insert_ne].
  - intros t' b' w' idx' H. at_thread H t t'; [by simplify_eq|]. by apply (vi_asleep _ _ _ I _ _ _ _ H).
  - intros t' b' w' _. by exists t, b, w, idx, z.
Qed.

(** Waking the process that waits for a buffer. *)
Lemma vinv_rouse s A U b : vinv s A U -> vinv (set_threads (fun t => roused (CBuf b) (y_thr s t)) s) A U.
Proof.
  intros I. apply vinv_threads; [done| | |].
  - intros t. by destruct (y_thr s t).
  - intros t b' w idx H. destruct (y_thr s t) as [| |b0 w0 idx0 z0] eqn:Ht; simplify_eq/=.
    case_bool_decide; simplify_eq. by apply (vi_asleep _ _ _ I _ _ _ _ Ht).
  - intros t b' w H. apply (vi_asking _ _ _ I t b' w). by destruct (y_thr s t).
Qed.

(** The handler has seen the completion of [h]. *)
Definition seen (b : nat) (s : sys) : sys :=
  on_disk (fun d => set_used_idx (wrap 16 (k_used_idx d + 1)) d) (set_buf b (set_flag false (y_buf s b)) s).

Lemma vinv_seen s A U t b w idx : vinv s A (idx.1.1 :: U) -> y_thr s t = Waiting b w idx false -> vinv (seen b s) A U.
Proof.
  intros I Ht. pose proof (vi_nodup _ _ _ I) as Hnd.
  assert (forall x, x ∈ A ++ v_taken (y_dev s) ++ U -> x <> idx.1.1) as Hne.
  { intros x Hx ->. apply NoDup_app in Hnd as (N1 & N2 & N3). apply NoDup_app in N3 as (N3 & N4 & N5).
    apply NoDup_cons in N5 as (N5 & N6). apply elem_of_app in Hx as [Hx|Hx]; [set_solver|].
    apply elem_of_app in Hx as [Hx|Hx]; set_solver. }
  assert (phase (seen b s) A U b idx.1.1) as Hph.
  { right; right. unfold seen. vsimpl. rewrite fn_lookup_insert. split; [intros Hx; by apply Hne in Hx|]. split; [|done].
    destruct (vi_phase _ _ _ I _ _ _ _ _ Ht) as [(Hx & _)|[(_ & ? & _)|(_ & ? & _)]]; try done.
    exfalso. apply NoDup_app in Hnd as (N1 & N2 & N3). apply NoDup_app in N3 as (N3 & N4 & N5). set_solver. }
  split; try (unfold seen; vsimpl; apply I).
  - intros b'. pose proof (vi_buf _ _ _ I b') as Hb. unfold seen. vsimpl.
    destruct (decide (b' = b)) as [->|]; [by rewrite fn_lookup_insert|by rewrite fn_lookup_insert_ne].
  - intros t' b' w' idx' z' H. destruct (vi_flight _ _ _ I _ _ _ _ _ H) as [? ? ? Fo ? ? ?]. split; try done.
    unfold seen. vsimpl. destruct (decide (b' = b)) as [->|]; [by rewrite fn_lookup_insert|by rewrite fn_lookup_insert_ne].
  - unfold seen. vsimpl. apply (NoDup_Permutation_proper _ (idx.1.1 :: A ++ v_taken (y_dev s) ++ U)) in Hnd;
      [by apply NoDup_cons in Hnd as [_ ?]|solve_Permutation].
  - intros h Hh. apply (vi_heads _ _ _ I). unfold seen in Hh. vsimpl. set_solver.
  - intros t' b' w' idx' z' H. unfold seen in H. vsimpl. destruct (decide (t' = t)) as [->|Ht'].
    { rewrite Ht in H. by simplify_eq. }
    destruct (waiting_apart _ _ _ I _ _ _ _ _ _ _ _ _ _ Ht' H Ht) as [Nb Nh].
    pose proof (vi_phase _ _ _ I _ _ _ _ _ H) as P. unfold phase, seen in *. vsimpl.
    rewrite fn_lookup_insert_ne by done. set_solver.
  - unfold seen. vsimpl. by apply ring_pop with idx.1.1, I.
  - intros t' b' w' idx' H. unfold seen in *. vsimpl. destruct (decide (t' = t)) as [->|Ht']; [congruence|].
    destruct (waiting_apart _ _ _ I _ _ _ _ _ _ _ _ _ _ Ht' H Ht) as [Nb Nh].
    rewrite fn_lookup_insert_ne by done. by apply (vi_asleep _ _ _ I _ _ _ _ H).
  - intros _. by apply (vi_irq _ _ _ I).
Qed.

(** One round of the handler's loop. *)
Lemma intr_one_run s A U : vinv s A U -> intr_pending s = true ->
  exists h U' t b w idx z, U = h :: U' /\ y_thr s t = Waiting b w idx z /\ idx.1.1 = h /\
    intr_one s = Done tt (seen b (set_threads (fun t => roused (CBuf b) (y_thr s t)) s)) /\
    vinv (seen b (set_threads (fun t => roused (CBuf b) (y_thr s t)) s)) A U'.
Proof.
  intros I Hp. destruct U as [|h U'].
  { exfalso. unfold intr_pending in Hp. apply negb_true_iff, Z.eqb_neq in Hp. apply Hp.
    by apply (ring_empty _ _ _ _ (vi_used _ _ _ I)); [cbn; lia|]. }
  destruct (vi_heads _ _ _ I h ltac:(set_solver)) as (t & b & w & idx & z & Ht & <-).
  exists idx.1.1, U', t, b, w, idx, z. split; [done|]. split; [done|]. split; [done|]. split.
  - destruct (ring_pop _ _ _ _ _ (vi_used _ _ _ I)) as [Hr _].
    assert (k_info_status (y_disk s) !! idx.1.1 = Some 0) as Hst.
    { pose proof (vi_nodup _ _ _ I) as (N1 & N2 & N3)%NoDup_app. apply NoDup_app in N3 as (N3 & N4 & N5).
      destruct (vi_phase _ _ _ I _ _ _ _ _ Ht) as [(Hx & _)|[(_ & ? & _)|(_ & ? & _)]]; try done. set_solver. }
    unfold intr_one. kpure. rewrite Hr, Hst, (fl_b _ _ _ _ (vi_flight _ _ _ I _ _ _ _ _ Ht)). reflexivity.
  - apply (vinv_seen _ _ _ t b w idx); [by apply vinv_rouse|]. vsimpl. rewrite Ht. cbn. by rewrite bool_decide_eq_true_2.
Qed.

(** ** The device *)

Lemma chain_flight s b w idx : flight s b w idx ->
  chain (y_disk s) idx.1.1 = Some (request (vb_blockno (y_buf s b)) w, b, 2, idx.1.1).
Proof. intros [F0 F1 F2 Fo _ _ _]. unfold chain. rewrite F0, F1, F2, Fo. by destruct w. Qed.

Lemma vinv_take s h A U : vinv s (h :: A) U ->
  k_avail_ring (y_disk s) !! Z.to_nat (v_seen (y_dev s) mod Z.of_nat NUM) = Some h /\
  vinv (set_dv (mkDev (wrap 16 (v_seen (y_dev s) + 1)) (v_taken (y_dev s) ++ [h]) (v_sectors (y_dev s)) true
    (v_irq (y_dev s))) s) A U.
Proof.
  intros I. destruct (ring_pop _ _ _ _ _ (vi_avail _ _ _ I)) as [Hr Hring]. split; [done|].
  destruct I. split; vsimpl; try done.
  - intros t b w idx z H. destruct (vi_flight0 _ _ _ _ _ H) as [? ? ? ? ? ? ?]. by split.
  - eapply NoDup_Permutation_proper; [|exact vi_nodup0]. solve_Permutation.
  - intros x Hx. apply vi_heads0. set_solver.
  - intros t b w idx z H. specialize (vi_phase0 _ _ _ _ _ H). unfold phase in *. vsimpl. set_solver.
Qed.

Lemma vinv_rest s U : vinv s [] U -> vinv (set_dv (set_kick false (y_dev s)) s) [] U.
Proof.
  intros I. destruct I. split; vsimpl; try done.
  intros t b w idx z H. destruct (vi_flight0 _ _ _ _ _ H) as [? ? ? ? ? ? ?]. by split.
Qed.

Lemma sectors_read_2 f x : sectors_read f x 2 = f x ++ f (x + 1).
Proof.
  unfold sectors_read. change (seqZ x 2) with [0 + x; 1 + x]. rewrite Z.add_0_l, (Z.add_comm 1).
  cbn [fmap list_fmap mjoin list_join]. by rewrite app_nil_r.
Qed.

Lemma sectors_write_length f x n l y : (forall y, length (f y) = 512%nat) -> Z.of_nat (length l) = 512 * n ->
  length (sectors_write f x n l y) = 512%nat.
Proof.
  intros Hf Hl. unfold sectors_write. destruct (_ && _) eqn:E; [|done]. rewrite length_take, length_drop. lia.
Qed.

(** Writing a block and reading blocks afterwards. *)
Lemma sectors_write_block f n m l : length l = Z.to_nat BSIZE ->
  sectors_write f (2 * n) 2 l (2 * m) ++ sectors_write f (2 * n) 2 l (2 * m + 1) =
  if decide (m = n) then l else f (2 * m) ++ f (2 * m + 1).
Proof.
  intros Hl. change (Z.to_nat BSIZE) with 1024%nat in Hl. unfold sectors_write. destruct (decide (m = n)) as [->|Hne].
  - destruct (_ && _) eqn:E; [|lia]. destruct ((2 * n <=? 2 * n + 1) && _) eqn:E'; [|lia].
    replace (512 * (2 * n - 2 * n)) with 0 by lia. replace (512 * (2 * n + 1 - 2 * n)) with 512 by lia.
    change (Z.to_nat 0) with 0%nat. change (Z.to_nat 512) with 512%nat. rewrite drop_0.
    rewrite (take_ge (drop 512 l)) by (rewrite length_drop; lia). apply take_drop.
  - destruct (_ && _) eqn:E; [lia|]. destruct ((2 * n <=? 2 * m + 1) && _) eqn:E'; [lia|]. done.
Qed.

Lemma request_out n w : (rq_type (request n w) =? VIRTIO_BLK_T_OUT) = w.
Proof. by destruct w. Qed.

Lemma taken_filter (l : list nat) x : NoDup l -> x ∈ l -> l ≡ₚ x :: filter (fun y => y <> x) l.
Proof.
  intros Hd Hx. apply NoDup_Permutation; [done| |].
  - constructor; [rewrite list_elem_of_filter; naive_solver|by apply NoDup_filter].
  - intros y. rewrite elem_of_cons, list_elem_of_filter. destruct (decide (y = x)); naive_solver.
Qed.

Section serve.
Context (s : sys) (A U : list nat) (t b : nat) (w : bool) (idx : nat * nat * nat) (z : bool).
Hypothesis I : vinv s A U.
Hypothesis Ht : y_thr s t = Waiting b w idx z.
Hypothesis Hin : idx.1.1 ∈ v_taken (y_dev s).

Let h := idx.1.1.
Let s' := finish h (request (vb_blockno (y_buf s b)) w) b 2 h s.

Lemma serve_lt : (h < NUM)%nat.
Proof. apply (owned_lt _ _ _ I _ _ _ _ _ _ Ht). by left. Qed.

Lemma serve_sector : rq_sector (request (vb_blockno (y_buf s b)) w) = 2 * vb_blockno (y_buf s b).
Proof. cbn. destruct (vi_buf _ _ _ I b) as [Hb _]. rewrite u32_small; lia. Qed.

Lemma serve_buf i : vb_blockno (y_buf s' i) = vb_blockno (y_buf s i) /\ vb_disk (y_buf s' i) = vb_disk (y_buf s i) /\
  vb_data (y_buf s' i) = if decide (i = b /\ w = false) then
      v_sectors (y_dev s) (2 * vb_blockno (y_buf s b)) ++ v_sectors (y_dev s) (2 * vb_blockno (y_buf s b) + 1)
    else vb_data (y_buf s i).
Proof.
  unfold s', finish. rewrite serve_sector, sectors_read_2, request_out. destruct w; vsimpl.
  - rewrite decide_False by naive_solver. done.
  - destruct (decide (i = b)) as [->|Hne].
    + rewrite fn_lookup_insert, decide_True by done. done.
    + rewrite fn_lookup_insert_ne, decide_False by naive_solver. done.
Qed.

Lemma serve_disk : y_disk s' =
  set_used (<[Z.to_nat (k_used_end (y_disk s) mod Z.of_nat NUM) := h]> (k_used_ring (y_disk s)))
    (wrap 16 (k_used_end (y_disk s) + 1)) (set_status h 0 (y_disk s)).
Proof. done. Qed.
Lemma serve_thr : y_thr s' = y_thr s.
Proof. unfold s', finish. by destruct w. Qed.
Lemma serve_intr : y_intr s' = y_intr s.
Proof. unfold s', finish. by destruct w. Qed.
Lemma serve_dev : y_dev s' = mkDev (v_seen (y_dev s)) (filter (fun x => x <> h) (v_taken (y_dev s)))
  (if w then sectors_write (v_sectors (y_dev s)) (2 * vb_blockno (y_buf s b)) 2 (vb_data (y_buf s b)) else v_sectors (y_dev s))
  (v_kick (y_dev s)) true.
Proof. unfold s', finish. rewrite serve_sector. by destruct w. Qed.

Lemma serve_phase t' b' w' idx' z' : y_thr s t' = Waiting b' w' idx' z' -> phase s' A (U ++ [h]) b' idx'.1.1.
Proof.
  intros H. pose proof (vi_nodup _ _ _ I) as (N1 & N2 & N3)%NoDup_app. apply NoDup_app in N3 as (N3 & N4 & N5).
  unfold phase. rewrite serve_disk, serve_dev. destruct (serve_buf b') as (_ & -> & _). vsimpl.
  destruct (decide (t' = t)) as [->|Hne].
  - assert (b' = b /\ idx' = idx) as [-> ->] by (split; congruence). right; left. fold h. split; [set_solver|]. split.
    + apply list_lookup_insert_eq. destruct (vi_len _ _ _ I) as (_ & _ & _ & -> & _). apply serve_lt.
    + destruct (vi_phase _ _ _ I _ _ _ _ _ Ht) as [(_ & _ & ?)|[(_ & _ & ?)|(Hx & _)]]; try done. set_solver.
  - destruct (waiting_apart _ _ _ I _ _ _ _ _ _ _ _ _ _ Hne H Ht) as [Nb Nh].
    rewrite list_lookup_insert_ne by done.
    pose proof (vi_phase _ _ _ I _ _ _ _ _ H) as P. unfold phase in P.
    rewrite !elem_of_app, !list_elem_of_filter in *. set_solver.
Qed.

Lemma serve_lists : A ++ v_taken (y_dev s) ++ U ≡ₚ A ++ filter (fun x => x <> h) (v_taken (y_dev s)) ++ U ++ [h].
Proof.
  pose proof (vi_nodup _ _ _ I) as (_ & _ & N3)%NoDup_app. apply NoDup_app in N3 as (N3 & _ & _).
  rewrite (taken_filter _ h N3 Hin) at 1. solve_Permutation.
Qed.

Lemma vinv_serve : vinv s' A (U ++ [h]).
Proof.
  pose proof serve_lists as HP. split; rewrite ?serve_disk, ?serve_dev, ?serve_thr, ?serve_intr; vsimpl; try apply I.
  - rewrite length_insert. apply I.
  - intros i. destruct (serve_buf i) as (-> & _ & ->). destruct (vi_buf _ _ _ I i) as [Hb Hl]. split; [done|].
    case_decide; [|done]. by rewrite length_app, !(vi_sectors _ _ _ I).
  - destruct w; [|apply I]. intros x. apply sectors_write_length; [apply I|].
    destruct (vi_buf _ _ _ I b) as [_ ->]. reflexivity.
  - intros t' b' w' idx' z' H. destruct (vi_flight _ _ _ I _ _ _ _ _ H) as [? ? ? Fo ? ? ?].
    split; rewrite ?serve_disk; vsimpl; try done. destruct (serve_buf b') as (-> & _ & _). done.
  - rewrite <- HP. apply I.
  - intros x. rewrite <- HP. apply I.
  - intros t' b' w' idx' z' H. by apply (serve_phase _ _ _ _ _ H).
  - apply ring_push; [apply I|]. pose proof (vi_nodup _ _ _ I) as (N1 & N2 & N3)%NoDup_app.
    apply NoDup_app in N3 as (N3 & N4 & N5).
    apply (distinct_lt _ h); [done| |apply serve_lt|set_solver]. intros x Hx. apply (head_lt _ _ _ I). set_solver.
  - intros t' b' w' idx' H. destruct (serve_buf b') as (_ & -> & _). by apply (vi_asleep _ _ _ I _ _ _ _ H).
  - by left.
Qed.
End serve.

(** ** Every step *)

Lemma vinv_started s : started s -> vinv s [] [].
Proof.
  intros ((ops & desc & ring & ring' & info & st & Hd & L1 & L2 & L3 & L4 & L5 & L6) & Ht & Hb & (f & irq & Hv & Hf) & Hi).
  split; rewrite ?Hd, ?Hv; vsimpl; try done; try (intros; by rewrite Ht in *).
  - intros i Hi'. apply lookup_replicate in Hi' as [? _]. done.
  - apply NoDup_nil_2.
  - intros h Hh. by apply not_elem_of_nil in Hh.
Qed.

Lemma rw_start_inv s A U t b w : vinv s A U -> (forall b' w' idx z, y_thr s t <> Waiting b' w' idx z) ->
  (forall t', t' <> t -> uses (y_thr s t') <> Some b) ->
  exists s', rw_start t b w s = Done tt s' /\
    ((exists i0 i1 i2, spread (i0, i1, i2) /\ (forall i, owns (i0, i1, i2) i -> k_free (y_disk s) !! i = Some true) /\
        s' = submitted s t b w (i0, i1, i2) /\ vinv s' (A ++ [i0]) U) \/
     (exists s0, gave_back s s0 /\ s' = set_thr t (Asking b w true) s0 /\ vinv s' A U)).
Proof.
  intros I Hn Hu. destruct (vi_len _ _ _ I) as (_ & Hl & _). unfold rw_start.
  destruct (alloc3_run s Hl) as [(i0 & i1 & i2 & Hs & Hf & E) | (s0 & E & G & (i & Hi))].
  - exists (submitted s t b w (i0, i1, i2)). rewrite (bind_done _ _ _ _ _ E). cbn [fst snd]. rewrite submit_run.
    split; [done|]. left. exists i0, i1, i2. do 3 (split; [done|]). by apply vinv_submitted.
  - exists (set_thr t (Asking b w true) s0). rewrite (bind_done _ _ _ _ _ E). split; [done|]. right. exists s0.
    do 2 (split; [done|]). pose proof (vinv_gave_back _ _ _ I _ G) as I0. destruct G as [(l & Hd & _) _ _ _ Ht].
    apply vinv_ask; [done| | |].
    + intros b' w' idx z H. destruct (Ht t) as [E'|E']; rewrite E' in H; [by apply Hn in H|].
      destruct (y_thr s t) eqn:E2; try done. by eapply Hn.
    + intros t' Hne H. apply (Hu t' Hne). destruct (Ht t') as [E'|E']; rewrite E' in H; [done|]. by destruct (y_thr s t').
    + exists i. by rewrite Hd.
Qed.

(** What a healthy device may do keeps the invariant. *)
Lemma promised_inv s s' A U : vinv s A U -> promised s s' -> exists A' U', vinv s' A' U'.
Proof.
  intros I [h Hk Hne Hr | Hk He | h rq b n j Hh Hc | h s'' Hh Hc].
  - destruct A as [|h' A].
    { exfalso. apply Hne. by apply (ring_empty _ _ _ _ (vi_avail _ _ _ I)); [cbn; lia|]. }
    destruct (vinv_take _ _ _ _ I) as [Hr' I']. simplify_eq. eauto.
  - apply (ring_empty _ _ _ _ (vi_avail _ _ _ I) (avail_bound _ _ _ I)) in He as ->.
    exists [], U. by apply vinv_rest.
  - destruct (vi_heads _ _ _ I h ltac:(set_solver)) as (t & b' & w & idx & z & Ht & <-).
    rewrite (chain_flight _ _ _ _ (vi_flight _ _ _ I _ _ _ _ _ Ht)) in Hc. simplify_eq.
    exists A, (U ++ [idx.1.1]). by apply (vinv_serve _ _ _ t b w idx z).
  - destruct (vi_heads _ _ _ I h ltac:(set_solver)) as (t & b' & w & idx & z & Ht & <-).
    by rewrite (chain_flight _ _ _ _ (vi_flight _ _ _ I _ _ _ _ _ Ht)) in Hc.
Qed.

(** The interrupt line changes, and the handler starts or ends. *)
Lemma vinv_line s A U v intr : vinv s A U -> v_seen v = v_seen (y_dev s) -> v_taken v = v_taken (y_dev s) ->
  v_sectors v = v_sectors (y_dev s) -> v_kick v = v_kick (y_dev s) -> (U <> [] -> v_irq v = true \/ intr = true) ->
  vinv (set_intr intr (set_dv v s)) A U.
Proof.
  intros I E1 E2 E3 E4 Hq. destruct I. split; unfold phase in *; vsimpl; rewrite ?E1, ?E2, ?E3, ?E4; try done.
  intros t b w idx z H. destruct (vi_flight0 _ _ _ _ _ H) as [? ? ? ? ? ? ?]. by split.
Qed.

(** A buffer outside the driver changes. *)
Lemma vinv_fill s A U b n l : vinv s A U -> (forall t, uses (y_thr s t) <> Some b) -> 0 <= n < 2 ^ 31 ->
  length l = Z.to_nat BSIZE -> vinv (set_buf b (mkVbuf n l (vb_disk (y_buf s b))) s) A U.
Proof.
  intros I Hu Hn Hl. destruct I.
  assert (forall t b' w idx z, y_thr s t = Waiting b' w idx z -> b' <> b) as Hne.
  { intros t b' w idx z H ->. apply (Hu t). by rewrite H. }
  split; unfold phase in *; vsimpl; try done.
  - intros b'. destruct (decide (b' = b)) as [->|]; [by rewrite fn_lookup_insert|by rewrite fn_lookup_insert_ne].
  - intros t b' w idx z H. destruct (vi_flight0 _ _ _ _ _ H) as [? ? ? ? ? ? ?]. split; vsimpl; try done.
    by rewrite fn_lookup_insert_ne by (pose proof (Hne _ _ _ _ _ H); done).
  - intros t b' w idx z H. rewrite fn_lookup_insert_ne by (pose proof (Hne _ _ _ _ _ H); done). by apply (vi_phase0 _ _ _ _ _ H).
  - intros t b' w idx H. rewrite fn_lookup_insert_ne by (pose proof (Hne _ _ _ _ _ H); done). by apply (vi_asleep0 _ _ _ _ H).
Qed.

Section reach.
Variable device : sys -> sys -> Prop.
Hypothesis device_promise : forall s s', device s s' -> promised s s'.

Lemma call_ready s t b w : (y_thr s t = Idle /\ forall t', uses (y_thr s t') <> Some b) \/ y_thr s t = Asking b w false ->
  (forall t t' b, uses (y_thr s t) = Some b -> uses (y_thr s t') = Some b -> t = t') ->
  (forall b' w' idx z, y_thr s t <> Waiting b' w' idx z) /\ (forall t', t' <> t -> uses (y_thr s t') <> Some b).
Proof.
  intros [[E Hu]|E] HU; (split; [intros b' w' idx z H; congruence|]); intros t' Hne H.
  - by apply Hu in H.
  - apply Hne, (HU _ _ b); [done|]. by rewrite E.
Qed.

Lemma driver_step_inv s s' A U : vinv s A U -> step device s s' -> exists A' U', vinv s' A' U'.
Proof.
  intros I [t b w s1 Hi Ht Hu Hr | t b w s1 Hi Ht Hr | t b w idx s1 Hi Ht Hr | b n l Hu Hn Hl | s1 Hi Hq Hr
           | s1 Hi Hp Hr | Hi Hp | s1 Hd].
  - destruct (call_ready s t b w) as [Hn Hu']; [auto|apply I|].
    destruct (rw_start_inv _ _ _ t b w I Hn Hu') as (s2 & E & [(i0 & i1 & i2 & _ & _ & _ & I')|(s0 & _ & _ & I')]);
      rewrite Hr in E; simplify_eq; eauto.
  - destruct (call_ready s t b w) as [Hn Hu']; [auto|apply I|].
    destruct (rw_start_inv _ _ _ t b w I Hn Hu') as (s2 & E & [(i0 & i1 & i2 & _ & _ & _ & I')|(s0 & _ & _ & I')]);
      rewrite Hr in E; simplify_eq; eauto.
  - destruct idx as [[i0 i1] i2]. destruct (vb_disk (y_buf s b)) eqn:Hd.
    + unfold rw_finish, bind, get in Hr. rewrite Hd in Hr. injection Hr as <-. exists A, U. by apply (vinv_sleep _ _ _ t b w _ false).
    + rewrite (finish_run _ _ _ _ _ _ _ _ _ _ I Ht Hd) in Hr. injection Hr as <-. exists A, U. by apply (vinv_returned _ _ _ _ _ _ _ _ _ _ I Ht).
  - exists A, U. by apply vinv_fill.
  - exists A, U. unfold intr_ack in Hr. injection Hr as <-. apply (vinv_line s); auto.
  - destruct (intr_one_run _ _ _ I Hp) as (h & U' & t & b & w & idx & z & -> & _ & _ & E & I').
    rewrite Hr in E. simplify_eq. eauto.
  - exists A, U. unfold intr_pending in Hp. apply negb_false_iff, Z.eqb_eq in Hp.
    apply (ring_empty _ _ _ _ (vi_used _ _ _ I) (used_bound _ _ _ I)) in Hp as ->.
    by apply (vinv_line s _ _ (y_dev s)).
  - by apply (promised_inv s s1 A U I), device_promise.
Qed.

Lemma driver_reachable_inv s : reachable device s -> exists A U, vinv s A U.
Proof.
  induction 1 as [s Hs|s s' _ (A & U & I) Hs]; [exists [], []; by apply vinv_started|by apply (driver_step_inv s s' A U)].
Qed.
End reach.

(** ** The disk of blocks *)

Lemma abs_call_core d x y : core x = core y -> abs_call d x = abs_call d y.
Proof. by destruct x, y; intros; simplify_eq/=. Qed.

Lemma roused_core ch x : core (roused ch x) = core x.
Proof. by destruct ch, x. Qed.

Lemma abs_call_status d d' x : (forall b w idx z, x = Waiting b w idx z -> k_info_status d' !! idx.1.1 = k_info_status d !! idx.1.1) ->
  abs_call d' x = abs_call d x.
Proof.
  destruct x as [| |b w [[i0 i1] i2] z]; [done..|]. intros H.
  specialize (H b w (i0, i1, i2) z eq_refl). cbn in *. by rewrite H.
Qed.

Lemma same_refl a : same a a.
Proof. done. Qed.

(** Steps that change neither data nor status bytes. *)
Lemma abs_same s s' : (forall t, core (y_thr s' t) = core (y_thr s t)) -> k_info_status (y_disk s') = k_info_status (y_disk s) ->
  (forall b, vb_blockno (y_buf s' b) = vb_blockno (y_buf s b) /\ vb_data (y_buf s' b) = vb_data (y_buf s b)) ->
  v_sectors (y_dev s') = v_sectors (y_dev s) -> same (abs s) (abs s').
Proof.
  intros Ht Hs Hb Hv. split; [|split]; cbn.
  - intros t. rewrite (abs_call_core _ _ _ (Ht t)). apply abs_call_status. by rewrite Hs.
  - intros b. by destruct (Hb b) as [-> ->].
  - intros x. by rewrite Hv.
Qed.

(** A call of [rw_start] in the abstract: the call begins, or goes on. *)
Lemma abs_start s s' t b w : (forall t', t' <> t -> abs_call (y_disk s') (y_thr s' t') = abs_call (y_disk s) (y_thr s t')) ->
  abs_call (y_disk s') (y_thr s' t) = CBusy b w ->
  (forall b, vb_blockno (y_buf s' b) = vb_blockno (y_buf s b) /\ vb_data (y_buf s' b) = vb_data (y_buf s b)) ->
  v_sectors (y_dev s') = v_sectors (y_dev s) ->
  (y_thr s t = Idle -> astep (ACall t b w) (abs s) (abs s')) /\
  (y_thr s t = Asking b w false -> same (abs s) (abs s')).
Proof.
  intros Ho Ht Hb Hv. split; intros E.
  - split; [cbn; by rewrite E|]. split; [by split; [|intros; apply Ho]|]. split; cbn; [|by rewrite Hv].
    intros i. by destruct (Hb i) as [-> ->].
  - split; [|split]; cbn; [|intros i; by destruct (Hb i) as [-> ->]|by rewrite Hv].
    intros t'. destruct (decide (t' = t)) as [->|]; [by rewrite Ht, E|by apply Ho].
Qed.

Lemma abs_submitted s A U t b w i0 i1 i2 : vinv s A U -> spread (i0, i1, i2) ->
  (forall i, owns (i0, i1, i2) i -> k_free (y_disk s) !! i = Some true) ->
  (forall b' w' idx z, y_thr s t <> Waiting b' w' idx z) -> (forall t', t' <> t -> uses (y_thr s t') <> Some b) ->
  let s' := submitted s t b w (i0, i1, i2) in
  (y_thr s t = Idle -> astep (ACall t b w) (abs s) (abs s')) /\
  (y_thr s t = Asking b w false -> same (abs s) (abs s')).
Proof.
  intros I Hs Hf Hn Hu s'. apply abs_start; [| | |done]; unfold s', submitted; vsimpl.
  - intros t' Hne. rewrite fn_lookup_insert_ne by done. apply abs_call_status. intros b' w' idx z H. vsimpl.
    apply list_lookup_insert_ne. intros E.
    destruct (submitted_old s A U I t b i0 i1 i2 Hf Hn Hu _ _ _ _ _ H) as (_ & _ & Ho).
    apply (Ho idx.1.1); [by left|]. rewrite <- E. by left.
  - rewrite fn_lookup_insert. cbn. rewrite list_lookup_insert_eq, bool_decide_eq_false_2; [done..|].
    destruct (vi_len _ _ _ I) as (_ & _ & _ & -> & _). apply (new_lt s A U I i0 i1 i2 Hf). by left.
  - intros i. destruct (decide (i = b)) as [->|]; [by rewrite fn_lookup_insert|by rewrite fn_lookup_insert_ne].
Qed.

Lemma abs_gave_back s s0 t b w : gave_back s s0 ->
  let s' := set_thr t (Asking b w true) s0 in
  (y_thr s t = Idle -> astep (ACall t b w) (abs s) (abs s')) /\
  (y_thr s t = Asking b w false -> same (abs s) (abs s')).
Proof.
  intros [(l & Hd & _) Hb Hv _ Ht] s'. apply abs_start; unfold s'; vsimpl; rewrite ?Hb, ?Hv; [| |done|done].
  - intros t' Hne. rewrite fn_lookup_insert_ne by done. rewrite Hd.
    rewrite (abs_call_core _ (y_thr s0 t') (y_thr s t')); [by apply abs_call_status|].
    destruct (Ht t') as [-> | ->]; [done|apply roused_core].
  - by rewrite fn_lookup_insert.
Qed.

Lemma abs_returned s A U t b w i0 i1 i2 z : vinv s A U -> y_thr s t = Waiting b w (i0, i1, i2) z ->
  vb_disk (y_buf s b) = false -> astep (AReturn t) (abs s) (abs (returned s t i0 i1 i2)).
Proof.
  intros I Ht Hd. split; [|split; [split|split]]; cbn; try done.
  - exists b, w. rewrite Ht. cbn. rewrite bool_decide_eq_true_2; [done|].
    pose proof (vi_phase _ _ _ I _ _ _ _ _ Ht) as P. unfold phase in P. cbn in P. naive_solver congruence.
  - by rewrite fn_lookup_insert.
  - intros t' Hne. rewrite fn_lookup_insert_ne by done. etrans; [by apply (abs_call_status (y_disk s))|].
    apply abs_call_core. by destruct (y_thr s t').
Qed.

Lemma abs_serve s A U t b w idx z : vinv s A U -> y_thr s t = Waiting b w idx z -> idx.1.1 ∈ v_taken (y_dev s) ->
  astep (AServe t) (abs s) (abs (finish idx.1.1 (request (vb_blockno (y_buf s b)) w) b 2 idx.1.1 s)).
Proof.
  intros I Ht Hin. set (s' := finish _ _ _ _ _ s).
  assert (k_info_status (y_disk s) !! idx.1.1 = Some 0xff) as Hst.
  { pose proof (vi_nodup _ _ _ I) as (N1 & N2 & N3)%NoDup_app. apply NoDup_app in N3 as (N3 & N4 & N5).
    destruct (vi_phase _ _ _ I _ _ _ _ _ Ht) as [(_ & ? & _)|[(Hx & _)|(Hx & _)]]; [done|set_solver..]. }
  pose proof (serve_lt s A U t b w idx z I Ht) as Hlt. destruct (vi_len _ _ _ I) as (_ & _ & _ & L4 & _).
  pose proof (serve_buf s A U t b w idx z I Ht) as HB.
  exists b, w. split; [|split; [split|]].
  - cbn. rewrite Ht. destruct idx as [[i0 i1] i2]. cbn in *. by rewrite Hst.
  - cbn [abs a_call]. unfold s'. rewrite (serve_thr _ _ _ _ _ _ Ht), Ht, serve_disk. destruct idx as [[i0 i1] i2]. cbn in *.
    by rewrite list_lookup_insert_eq by lia.
  - intros t' Hne. cbn [abs a_call]. unfold s'. rewrite (serve_thr _ _ _ _ _ _ Ht), serve_disk. apply abs_call_status. intros b' w' idx' z' H. vsimpl.
    apply list_lookup_insert_ne. by destruct (waiting_apart _ _ _ I _ _ _ _ _ _ _ _ _ _ Hne H Ht).
  - cbn [abs a_buf a_blocks]. unfold s'. rewrite (serve_dev s A U t b w idx z I Ht). vsimpl. destruct w.
    + split; [|split].
      * intros i. destruct (HB i) as (-> & _ & ->). by rewrite decide_False by naive_solver.
      * rewrite sectors_write_block by apply I. by rewrite decide_True.
      * intros x Hx. rewrite sectors_write_block by apply I. by rewrite decide_False.
    + split; [|done]. split.
      * destruct (HB b) as (-> & _ & ->). by rewrite decide_True.
      * intros i Hi. destruct (HB i) as (-> & _ & ->). by rewrite decide_False by naive_solver.
Qed.

Lemma promised_refines s s' A U : vinv s A U -> promised s s' -> same (abs s) (abs s') \/ exists t, astep (AServe t) (abs s) (abs s').
Proof.
  intros I [h Hk Hne Hr | Hk He | h rq b n j Hh Hc | h s'' Hh Hc].
  - left. by apply abs_same.
  - left. by apply abs_same.
  - destruct (vi_heads _ _ _ I h ltac:(set_solver)) as (t & b' & w & idx & z & Ht & <-).
    rewrite (chain_flight _ _ _ _ (vi_flight _ _ _ I _ _ _ _ _ Ht)) in Hc. simplify_eq.
    right. exists t. by apply (abs_serve s A U t b w idx z).
  - destruct (vi_heads _ _ _ I h ltac:(set_solver)) as (t & b' & w & idx & z & Ht & <-).
    by rewrite (chain_flight _ _ _ _ (vi_flight _ _ _ I _ _ _ _ _ Ht)) in Hc.
Qed.

Lemma start_refines s s' A U t b w : vinv s A U ->
  (y_thr s t = Idle /\ forall t', uses (y_thr s t') <> Some b) \/ y_thr s t = Asking b w false ->
  rw_start t b w s = Done tt s' -> same (abs s) (abs s') \/ exists e, astep e (abs s) (abs s').
Proof.
  intros I Ht Hr. destruct (call_ready s t b w Ht) as [Hn Hu]; [apply I|].
  destruct (rw_start_inv _ _ _ t b w I Hn Hu) as (s2 & E & [(i0 & i1 & i2 & Hs & Hf & Es & _)|(s0 & G & Es & _)]);
    rewrite Hr in E; injection E as <-; subst s'.
  - destruct (abs_submitted s A U t b w i0 i1 i2 I Hs Hf Hn Hu) as [H1 H2]. destruct Ht as [[Ht _]|Ht]; eauto.
  - destruct (abs_gave_back s s0 t b w G) as [H1 H2]. destruct Ht as [[Ht _]|Ht]; eauto.
Qed.

Lemma step_refines device s s' A U : (forall s s', device s s' -> promised s s') -> vinv s A U -> step device s s' ->
  same (abs s) (abs s') \/ exists e, astep e (abs s) (abs s').
Proof.
  intros HD I [t b w s1 Hi Ht Hu Hr | t b w s1 Hi Ht Hr | t b w idx s1 Hi Ht Hr | b n l Hu Hn Hl | s1 Hi Hq Hr
              | s1 Hi Hp Hr | Hi Hp | s1 Hd].
  - by apply (start_refines s s1 A U t b w); [|left|].
  - by apply (start_refines s s1 A U t b w); [|right|].
  - destruct idx as [[i0 i1] i2]. destruct (vb_disk (y_buf s b)) eqn:Hd.
    + left. unfold rw_finish, bind, get in Hr. rewrite Hd in Hr. injection Hr as <-. apply abs_same; try done.
      intros t'. vsimpl. destruct (decide (t' = t)) as [->|]; [by rewrite fn_lookup_insert, Ht|by rewrite fn_lookup_insert_ne].
    + right. rewrite (finish_run _ _ _ _ _ _ _ _ _ _ I Ht Hd) in Hr. injection Hr as <-.
      exists (AReturn t). by apply (abs_returned _ _ _ _ _ _ _ _ _ _ I Ht).
  - right. exists (AFill b). split; [|split]; cbn; try done.
    + intros t w. specialize (Hu t). unfold abs_call. destruct (y_thr s t) as [| |b0 w0 [[i0 i1] i2] z]; cbn in Hu;
        [done|naive_solver|case_bool_decide; naive_solver].
    + intros i Hne. by rewrite fn_lookup_insert_ne.
  - left. unfold intr_ack in Hr. injection Hr as <-. by apply abs_same.
  - left. destruct (intr_one_run _ _ _ I Hp) as (h & U' & t & b & w & idx & z & -> & _ & _ & E & _).
    rewrite Hr in E. injection E as ->. apply abs_same; try done; unfold seen; vsimpl.
    + intros t'. by destruct (y_thr s t').
    + intros i. destruct (decide (i = b)) as [->|]; [by rewrite fn_lookup_insert|by rewrite fn_lookup_insert_ne].
  - left. by apply abs_same.
  - destruct (promised_refines s s1 A U I (HD _ _ Hd)) as [?|[t ?]]; eauto.
Qed.

(** The loop of the handler ends after as many rounds as there are completions. *)
Lemma intr_loop_run s A U fuel : vinv s A U -> (length U < fuel)%nat ->
  exists s', intr_loop fuel s = Done tt s' /\ intr_pending s' = false /\ vinv s' A [] /\
    k_info_status (y_disk s') = k_info_status (y_disk s) /\ (forall t, core (y_thr s' t) = core (y_thr s t)).
Proof.
  revert s fuel. induction U as [|h U IH]; intros s fuel I Hf; (destruct fuel as [|fuel]; [cbn in Hf; lia|]); cbn [intr_loop]; kpure.
  - destruct (intr_pending s) eqn:Hp; [|by exists s].
    by destruct (intr_one_run _ _ _ I Hp) as (? & ? & ? & ? & ? & ? & ? & ? & _).
  - assert (intr_pending s = true) as Hp.
    { unfold intr_pending. apply negb_true_iff, Z.eqb_neq. intros E.
      by apply (ring_empty _ _ _ _ (vi_used _ _ _ I) (used_bound _ _ _ I)) in E. }
    rewrite Hp. destruct (intr_one_run _ _ _ I Hp) as (h' & U' & t & b & w & idx & z & E & Ht & Hh & Hr & I').
    injection E as <- <-. rewrite (bind_done _ _ _ _ _ Hr). set (s1 := seen _ _) in *.
    destruct (IH s1 fuel I' ltac:(cbn in Hf; lia)) as (s' & Hs' & Hp' & I2 & Hst & Hc).
    exists s'. do 3 (split; [done|]). split; [done|]. intros t'. rewrite Hc. apply roused_core.
Qed.

(** The handler does not look at whether it runs. *)
Definition under_intr (x : bool) (o : outcome sys unit) : outcome sys unit :=
  match o with Done u s => Done u (set_intr x s) | o => o end.

Lemma intr_one_intr x s : intr_one (set_intr x s) = under_intr x (intr_one s).
Proof.
  unfold intr_one, bind, get. vsimpl.
  destruct (k_used_ring _ !! _) as [id|]; [|done].
  destruct (k_info_status (y_disk s) !! id) as [st|], (k_info_b (y_disk s) !! id) as [[b|]|]; try done; by destruct (st =? 0).
Qed.

Lemma intr_loop_intr x fuel : forall s, intr_loop fuel (set_intr x s) = under_intr x (intr_loop fuel s).
Proof.
  induction fuel as [|fuel IH]; intros s; [done|]. cbn [intr_loop]. kpure. change (intr_pending (set_intr x s)) with (intr_pending s).
  destruct (intr_pending s); [|done]. unfold bind. rewrite intr_one_intr. destruct (intr_one s); cbn [under_intr]; [apply IH|done..].
Qed.

Lemma handler_run s A U : vinv s A U ->
  exists s', virtio_disk_intr (S NUM) s = Done tt s' /\ intr_pending s' = false /\
    forall t b w idx z, y_thr s' t = Waiting b w idx z -> k_info_status (y_disk s) !! idx.1.1 = Some 0 ->
      z = false /\ vb_disk (y_buf s' b) = false.
Proof.
  intros I. unfold virtio_disk_intr, bind, intr_ack. set (v := set_irq _ (y_dev s)).
  assert (vinv (set_intr true (set_dv v s)) A U) as I1 by (apply vinv_line; auto).
  destruct (intr_loop_run _ A U (S NUM) I1) as (s1 & E & Hp & I2 & Hst & Hc); [pose proof (used_bound _ _ _ I); lia|].
  change (set_dv v s) with (set_intr (y_intr s) (set_intr true (set_dv v s))). rewrite intr_loop_intr, E.
  eexists. split; [done|]. split; [done|]. intros t b w idx z H H0. vsimpl. rewrite <- Hst in H0.
  assert (vb_disk (y_buf s1 b) = false) as Hd.
  { destruct (vi_phase _ _ _ I2 _ _ _ _ _ H) as [(_ & ? & _)|[(Hx%elem_of_nil & _)|(_ & _ & ?)]]; [congruence|done|done]. }
  split; [|done]. destruct z; [|done]. by rewrite (vi_asleep _ _ _ I2 _ _ _ _ H) in Hd.
Qed.

(** ** Theorems *)

(** C22: The driver and the device together are a disk of blocks: in every run of
    any number of processes, each step either changes nothing that a process can
    see or is one step of a disk on which a call begins, is served at one moment
    (a whole block is copied from the buffer to the disk or from the disk to the
    buffer), and returns only after it was served. *)
Theorem virtio_refines device s s' : (forall s s', device s s' -> promised s s') ->
  reachable device s -> step device s s' ->
  same (abs s) (abs s') \/ exists e, astep e (abs s) (abs s').
Proof. intros HD (A & U & I)%driver_reachable_inv Hs; [|done]. by apply (step_refines device s s' A U). Qed.


(** C24: No wake-up is lost: while a process is inside the driver, some process in
    it is awake, or the handler runs or is about to, or the device works on a
    request or has been notified of one that it has not taken yet. *)
Theorem virtio_live device s t : (forall s s', device s s' -> promised s s') -> reachable device s -> y_thr s t <> Idle ->
  (exists t', y_thr s t' <> Idle /\ y_thr s t' = core (y_thr s t')) \/
  (intr_pending s = true /\ (v_irq (y_dev s) = true \/ y_intr s = true)) \/
  v_taken (y_dev s) <> [] \/
  (v_kick (y_dev s) = true /\ v_seen (y_dev s) <> k_avail_idx (y_disk s)).
Proof.
  intros HD (A & U & I)%driver_reachable_inv Ht; [|done].
  assert (forall t b w idx z, y_thr s t = Waiting b w idx z -> z = true -> idx.1.1 ∈ A ++ v_taken (y_dev s) ++ U) as Hin.
  { intros t' b w idx z H ->. pose proof (vi_asleep _ _ _ I _ _ _ _ H) as Hd.
    destruct (vi_phase _ _ _ I _ _ _ _ _ H) as [(? & _)|[(? & _)|(_ & _ & ?)]]; [set_solver..|congruence]. }
  assert (exists t', y_thr s t' <> Idle /\ (y_thr s t' = core (y_thr s t') \/ exists b w idx, y_thr s t' = Waiting b w idx true))
    as (t' & Hn & [Hc|(b & w & idx & Hw)]).
  { destruct (y_thr s t) as [|b w []|b w idx z] eqn:E; [done| | |].
    - destruct (vi_asking _ _ _ I _ _ _ E) as (t' & b' & w' & idx & [] & H); exists t'; rewrite H; naive_solver.
    - exists t. rewrite E. naive_solver.
    - exists t. rewrite E. destruct z; naive_solver. }
  { left. eauto. }
  right. specialize (Hin _ _ _ _ _ Hw eq_refl). apply elem_of_app in Hin as [Hin|[Hin|Hin]%elem_of_app].
  - right; right. assert (A <> []) as HA by (intros ->; by apply not_elem_of_nil in Hin). split; [by apply I|].
    intros E. by apply (ring_empty _ _ _ _ (vi_avail _ _ _ I) (avail_bound _ _ _ I)) in E.
  - right; left. intros E. rewrite E in Hin. by apply not_elem_of_nil in Hin.
  - left. assert (U <> []) as HU by (intros ->; by apply not_elem_of_nil in Hin). split; [|by apply I].
    unfold intr_pending. apply negb_true_iff, Z.eqb_neq. intros E.
    by apply (ring_empty _ _ _ _ (vi_used _ _ _ I) (used_bound _ _ _ I)) in E.
Qed.

(** ** A run *)

Definition demo_sys : sys :=
  mkSys (mkDisk (replicate NUM null_desc) (replicate NUM 0%nat) 0 (replicate NUM 0%nat) 0 (replicate NUM true) 0
           (replicate NUM None) (replicate NUM 0) (replicate NUM (mkReq 0 0 0)))
    (fun b => mkVbuf (Z.of_nat b mod 5) (replicate (Z.to_nat BSIZE) 7) false) (fun _ => Idle)
    (mkDev 0 [] (fun _ => replicate 512 0) false false) false.

Lemma demo_started : started demo_sys.
Proof.
  split; [|split; [|split; [|split]]]; try done.
  - by do 6 eexists.
  - intros b. cbn. split; [|by rewrite length_replicate]. pose proof (Z.mod_pos_bound (Z.of_nat b) 5). lia.
  - exists (fun _ => replicate 512 0), false. split; [done|]. intros x. apply length_replicate.
Qed.

(** Process 0 writes buffer 3. *)
Definition demo_written : sys := submitted demo_sys 0 3 true (0, 1, 2)%nat.
Lemma demo_call : step promised demo_sys demo_written.
Proof. by apply (st_call _ _ 0%nat 3%nat true). Qed.

Lemma virtio_refines_witness :
  same (abs demo_sys) (abs demo_written) \/ exists e, astep e (abs demo_sys) (abs demo_written).
Proof.
  apply (virtio_refines promised); [intros s s' H; exact H|apply re_start, demo_started|apply demo_call].
Defined.


Lemma virtio_live_witness :
  (exists t', y_thr demo_written t' <> Idle /\ y_thr demo_written t' = core (y_thr demo_written t')) \/
  (intr_pending demo_written = true /\ (v_irq (y_dev demo_written) = true \/ y_intr demo_written = true)) \/
  v_taken (y_dev demo_written) <> [] \/
  (v_kick (y_dev demo_written) = true /\ v_seen (y_dev demo_written) <> k_avail_idx (y_disk demo_written)).
Proof.
  apply (virtio_live promised demo_written 0).
  - intros s s' H. exact H.
  - apply (re_step _ demo_sys); [apply re_start, demo_started|apply demo_call].
  - cbn. discriminate.
Defined.
