(* ===== verification/Fs.v ===== *)
(** * Inodes, directories and paths

    kernel/fs.c on top of the log. An inode pointer is one plus its index in
    the table, and 0 is the null pointer. *)

From S2P Require Import Prelude Riscv Kernel Str Bio Log.

Definition ROOTINO : Z := 1.
Definition FSMAGIC : Z := 0x10203040.
Definition NDIRECT : Z := 12.
Definition NINDIRECT : Z := BSIZE / 4.
Definition MAXFILE : Z := NDIRECT + NINDIRECT.
Definition sizeof_dinode : Z := 64.
Definition IPB : Z := BSIZE / sizeof_dinode.
Definition IBLOCK (i : Z) (sb : superblock) : Z := i / IPB + sb_inodestart sb.
Definition BPB : Z := BSIZE * 8.
Definition BBLOCK (b : Z) (sb : superblock) : Z := b / BPB + sb_bmapstart sb.
Definition DIRSIZ : Z := 14.
Definition sizeof_dirent : Z := 16.

(** The unsigned field of [n] bytes at an offset, and storing one. *)
Definition ufield (d : list Z) (off : Z) (n : nat) : Z := le_combine (take n (drop (Z.to_nat off) d)).
Definition ufield_set (d : list Z) (off : Z) (n : nat) (v : Z) : list Z := splice d (Z.to_nat off) (le_split n v).

(** [struct dinode]: the fields at byte [o] of a block. *)
Record dinode := mkDinode {
  di_type : Z; di_major : Z; di_minor : Z; di_nlink : Z; di_size : Z; di_addrs : list Z
}.
Definition dinode_at (d : list Z) (o : Z) : dinode :=
  mkDinode (s16 (ufield d o 2)) (s16 (ufield d (o + 2) 2)) (s16 (ufield d (o + 4) 2))
    (s16 (ufield d (o + 6) 2)) (ufield d (o + 8) 4)
    ((fun i => ufield d (o + 12 + 4 * Z.of_nat i) 4) <$> seq 0 13).
Definition dinode_bytes (x : dinode) : list Z :=
  le_split 2 (di_type x) ++ le_split 2 (di_major x) ++ le_split 2 (di_minor x) ++
  le_split 2 (di_nlink x) ++ le_split 4 (di_size x) ++ flat_map (le_split 4) (di_addrs x).
Definition dinode_off (inum : Z) : Z := inum mod IPB * sizeof_dinode.

Section fs.
Context `{Self}.
Notation X := (M fsstate).

Definition getsb : X superblock := let* s := get in ret (x_sb s).
Definition geti (ip : Z) : X inode := fun s =>
  if ip <? 1 then badptr s
  else match x_itable s !! Z.to_nat (ip - 1) with Some i => Done i s | None => badptr s end.
Definition modi (ip : Z) (f : inode -> inode) : X unit := fun s =>
  if ip <? 1 then badptr s
  else match x_itable s !! Z.to_nat (ip - 1) with
       | Some i => Done tt (set_x_itable (<[Z.to_nat (ip - 1) := f i]> (x_itable s)) s)
       | None => badptr s
       end.

(** ** Blocks *)

Definition parse_sb (d : list Z) : superblock :=
  mkSb (ufield d 0 4) (ufield d 4 4) (ufield d 8 4) (ufield d 12 4) (ufield d 16 4) (ufield d 20 4)
    (ufield d 24 4) (ufield d 28 4).

Definition readsb (dev : Z) : X unit :=
  let* b := bread dev 1 in
  let* x := getb b in
  modify (set_x_sb (parse_sb (b_data x))) ;;
  brelse b.

Definition bzero (dev bno : Z) : X unit :=
  let* b := bread dev bno in
  modb b (set_b_data (replicate (Z.to_nat BSIZE) 0)) ;;
  log_write b ;;
  brelse b.

(** The inner loop of [balloc]: the first clear bit from [bi] on in the bitmap
    block [d], whose first bit stands for block [b]. *)
Fixpoint clear_bit (fuel : nat) (d : list Z) (b bi size : Z) : option Z :=
  match fuel with
  | O => None
  | S fuel =>
      if (bi <? BPB) && (b + bi <? size) then
        if Z.land (byte_at d (Z.to_nat (bi / 8))) (Z.shiftl 1 (bi mod 8)) =? 0 then Some bi
        else clear_bit fuel d b (bi + 1) size
      else None
  end.

Definition bitmap_set (d : list Z) (bi : Z) : list Z :=
  let i := Z.to_nat (bi / 8) in
  <[i := u8 (Z.lor (byte_at d i) (Z.shiftl 1 (bi mod 8)))]> d.
Definition bitmap_clear (d : list Z) (bi : Z) : list Z :=
  let i := Z.to_nat (bi / 8) in
  <[i := u8 (Z.land (byte_at d i) (Z.lnot (Z.shiftl 1 (bi mod 8))))]> d.

(** The loop over the bitmap blocks. *)
Fixpoint balloc_loop (fuel : nat) (dev b : Z) (sb : superblock) : X Z :=
  match fuel with
  | O => nofuel
  | S fuel =>
      if b <? sb_size sb then
        let* bp := bread dev (BBLOCK b sb) in
        let* x := getb bp in
        match clear_bit (Z.to_nat BPB) (b_data x) b 0 (sb_size sb) with
        | Some bi =>
            modb bp (set_b_data (bitmap_set (b_data x) bi)) ;;
            log_write bp ;;
            brelse bp ;;
            bzero dev (b + bi) ;;
            ret (b + bi)
        | None =>
            brelse bp ;;
            balloc_loop fuel dev (b + BPB) sb
        end
      else fsprint MsgNoBlocks ;; ret 0
  end.

Definition balloc (dev : Z) : X Z :=
  let* sb := getsb in
  balloc_loop (Z.to_nat (sb_size sb / BPB + 2)) dev 0 sb.

Definition bfree (dev b : Z) : X unit :=
  let* sb := getsb in
  let* bp := bread dev (BBLOCK b sb) in
  let* x := getb bp in
  let bi := b mod BPB in
  if Z.land (byte_at (b_data x) (Z.to_nat (bi / 8))) (Z.shiftl 1 (bi mod 8)) =? 0 then
    panic "freeing free block"
  else
    modb bp (set_b_data (bitmap_clear (b_data x) bi)) ;;
    log_write bp ;;
    brelse bp.

(** ** The inode table *)

Definition iinit : X unit :=
  for_each (seq 0 (Z.to_nat NINODE)) (fun i => modi (Z.of_nat i + 1) (set_i_lock None)).

(** The scan of [iget]: the entry that holds the inode, or the first empty one. *)
Fixpoint iget_scan (l : list inode) (i : Z) (dev inum empty : Z) : Z * bool :=
  match l with
  | [] => (empty, false)
  | x :: l =>
      if (0 <? i_ref x) && (i_dev x =? dev) && (i_inum x =? inum) then (i, true)
      else iget_scan l (i + 1) dev inum (if (empty =? 0) && (i_ref x =? 0) then i else empty)
  end.

Definition iget (dev inum : Z) : X Z :=
  let* s := get in
  let '(ip, found) := iget_scan (x_itable s) 1 dev inum 0 in
  if (found : bool) then
    modi ip (fun x => set_i_ref (i_ref x + 1) x) ;;
    ret ip
  else if ip =? 0 then panic "iget: no inodes"
  else
    modi ip (fun x => mkInode dev inum 1 (i_lock x) false (i_type x) (i_major x) (i_minor x)
      (i_nlink x) (i_size x) (i_addrs x)) ;;
    ret ip.

(** The loop of [ialloc] over the inode numbers that remain. *)
Fixpoint ialloc_loop (fuel : nat) (dev inum type : Z) (sb : superblock) : X Z :=
  match fuel with
  | O => nofuel
  | S fuel =>
      if inum <? sb_ninodes sb then
        let* bp := bread dev (IBLOCK inum sb) in
        let* x := getb bp in
        if di_type (dinode_at (b_data x) (dinode_off inum)) =? 0 then
          let d := splice (b_data x) (Z.to_nat (dinode_off inum)) (replicate (Z.to_nat sizeof_dinode) 0) in
          modb bp (set_b_data (ufield_set d (dinode_off inum) 2 type)) ;;
          log_write bp ;;
          brelse bp ;;
          iget dev inum
        else
          brelse bp ;;
          ialloc_loop fuel dev (inum + 1) type sb
      else fsprint MsgNoInodes ;; ret 0
  end.

Definition ialloc (dev type : Z) : X Z :=
  let* sb := getsb in ialloc_loop (Z.to_nat (sb_ninodes sb + 1)) dev 1 type sb.

Definition iupdate (ip : Z) : X unit :=
  let* sb := getsb in
  let* i := geti ip in
  let* bp := bread (i_dev i) (IBLOCK (i_inum i) sb) in
  modb bp (fun x => set_b_data (splice (b_data x) (Z.to_nat (dinode_off (i_inum i)))
    (dinode_bytes (mkDinode (i_type i) (i_major i) (i_minor i) (i_nlink i) (i_size i) (i_addrs i)))) x) ;;
  log_write bp ;;
  brelse bp.

Definition idup (ip : Z) : X Z := modi ip (fun i => set_i_ref (i_ref i + 1) i) ;; ret ip.

Definition ilock (ip : Z) : X unit :=
  if ip =? 0 then panic "ilock"
  else
    let* i := geti ip in
    if i_ref i <? 1 then panic "ilock"
    else
      let* lk := acquiresleep (i_lock i) in
      modi ip (set_i_lock lk) ;;
      if i_valid i then ret tt
      else
        let* sb := getsb in
        let* bp := bread (i_dev i) (IBLOCK (i_inum i) sb) in
        let* x := getb bp in
        let d := dinode_at (b_data x) (dinode_off (i_inum i)) in
        modi ip (fun i => set_i_valid true (mkInode (i_dev i) (i_inum i) (i_ref i) (i_lock i) (i_valid i)
          (di_type d) (di_major d) (di_minor d) (di_nlink d) (di_size d) (di_addrs d))) ;;
        brelse bp ;;
        if di_type d =? 0 then panic "ilock: no type" else ret tt.

Definition iunlock (ip : Z) : X unit :=
  if ip =? 0 then panic "iunlock"
  else
    let* i := geti ip in
    if negb (holdingsleep (i_lock i)) || (i_ref i <? 1) then panic "iunlock"
    else modi ip (set_i_lock None).

(** ** Contents *)

(** Block [bn] of the file, allocated if it does not exist; 0 when the disk is
    full. *)
Definition bmap (ip bn : Z) : X Z :=
  let* i := geti ip in
  if bn <? NDIRECT then
    let addr := default 0 (i_addrs i !! Z.to_nat bn) in
    if addr =? 0 then
      let* addr := balloc (i_dev i) in
      if addr =? 0 then ret 0
      else
        modi ip (fun i => set_i_addrs (<[Z.to_nat bn := addr]> (i_addrs i)) i) ;;
        ret addr
    else ret addr
  else
    let bn := bn - NDIRECT in
    if bn <? NINDIRECT then
      let addr := default 0 (i_addrs i !! Z.to_nat NDIRECT) in
      let* addr :=
        (if addr =? 0 then
           let* addr := balloc (i_dev i) in
           (if addr =? 0 then ret tt
            else modi ip (fun i => set_i_addrs (<[Z.to_nat NDIRECT := addr]> (i_addrs i)) i)) ;;
           ret addr
         else ret addr) in
      if addr =? 0 then ret 0
      else
        let* bp := bread (i_dev i) addr in
        let* x := getb bp in
        let addr := ufield (b_data x) (4 * bn) 4 in
        let* addr :=
          (if addr =? 0 then
             let* addr := balloc (i_dev i) in
             (if addr =? 0 then ret tt
              else
                modb bp (fun x => set_b_data (ufield_set (b_data x) (4 * bn) 4 addr) x) ;;
                log_write bp) ;;
             ret addr
           else ret addr) in
        brelse bp ;;
        ret addr
    else panic "bmap: out of range".

Definition itrunc_direct (ip : Z) (i : nat) : X unit :=
  let* x := geti ip in
  let addr := default 0 (i_addrs x !! i) in
  if addr =? 0 then ret tt
  else
    bfree (i_dev x) addr ;;
    modi ip (fun x => set_i_addrs (<[i := 0]> (i_addrs x)) x).

Definition itrunc (ip : Z) : X unit :=
  for_each (seq 0 (Z.to_nat NDIRECT)) (itrunc_direct ip) ;;
  let* i := geti ip in
  let addr := default 0 (i_addrs i !! Z.to_nat NDIRECT) in
  (if addr =? 0 then ret tt
   else
     let* bp := bread (i_dev i) addr in
     let* x := getb bp in
     for_each (seq 0 (Z.to_nat NINDIRECT)) (fun j =>
       let a := ufield (b_data x) (4 * Z.of_nat j) 4 in
       if a =? 0 then ret tt else bfree (i_dev i) a) ;;
     brelse bp ;;
     bfree (i_dev i) addr ;;
     modi ip (fun x => set_i_addrs (<[Z.to_nat NDIRECT := 0]> (i_addrs x)) x)) ;;
  modi ip (set_i_size 0) ;;
  iupdate ip.

Definition iput (ip : Z) : X unit :=
  let* i := geti ip in
  (if (i_ref i =? 1) && i_valid i && (i_nlink i =? 0) then
     let* lk := acquiresleep (i_lock i) in
     modi ip (set_i_lock lk) ;;
     itrunc ip ;;
     modi ip (set_i_type 0) ;;
     iupdate ip ;;
     modi ip (fun i => set_i_lock None (set_i_valid false i))
   else ret tt) ;;
  modi ip (fun i => set_i_ref (i_ref i - 1) i).

Definition iunlockput (ip : Z) : X unit := iunlock ip ;; iput ip.

Definition ireclaim_one (dev inum : Z) : X unit :=
  let* sb := getsb in
  let* bp := bread dev (IBLOCK inum sb) in
  let* x := getb bp in
  let d := dinode_at (b_data x) (dinode_off inum) in
  let* ip :=
    (if negb (di_type d =? 0) && (di_nlink d =? 0) then
       fsprint (MsgReclaim inum) ;; iget dev inum
     else ret 0) in
  brelse bp ;;
  if ip =? 0 then ret tt
  else begin_op ;; ilock ip ;; iunlock ip ;; iput ip ;; end_op.

Definition ireclaim (dev : Z) : X unit :=
  let* sb := getsb in
  for_each (seqZ 1 (sb_ninodes sb - 1)) (ireclaim_one dev).

Definition fsinit (dev : Z) : X unit :=
  readsb dev ;;
  let* sb := getsb in
  if negb (sb_magic sb =? FSMAGIC) then panic "invalid file system"
  else initlog dev sb ;; ireclaim dev.

(** [struct stat] as [stati] fills it. *)
Record stat := mkStat { st_dev : Z; st_ino : Z; st_type : Z; st_nlink : Z; st_size : Z }.
Definition stati (ip : Z) : X stat :=
  let* i := geti ip in
  ret (mkStat (i_dev i) (i_inum i) (i_type i) (i_nlink i) (i_size i)).

(** [readi] into kernel memory: the loop delivers the bytes read from [off] on,
    at most [n] of them. *)
Fixpoint readi_loop (fuel : nat) (ip off n : Z) : X (list Z) :=
  if n <=? 0 then ret []
  else
    match fuel with
    | O => nofuel
    | S fuel =>
        let* addr := bmap ip (off / BSIZE) in
        if addr =? 0 then ret []
        else
          let* i := geti ip in
          let* bp := bread (i_dev i) addr in
          let* x := getb bp in
          let m := Z.min n (BSIZE - off mod BSIZE) in
          let bs := take (Z.to_nat m) (drop (Z.to_nat (off mod BSIZE)) (b_data x)) in
          brelse bp ;;
          let* rest := readi_loop fuel ip (u32 (off + m)) (n - m) in
          ret (bs ++ rest)
    end.

Definition readi (ip off n : Z) : X (list Z) :=
  let* i := geti ip in
  if (i_size i <? off) || (u32 (off + n) <? off) then ret []
  else
    let n := if i_size i <? u32 (off + n) then i_size i - off else n in
    readi_loop (Z.to_nat (n / BSIZE + 2)) ip off n.

(** [writei] from kernel memory: the loop returns the bytes written and the
    offset it reached; [data] is what is left to write. *)
Fixpoint writei_loop (fuel : nat) (ip off : Z) (data : list Z) (tot : Z) : X (Z * Z) :=
  match data with
  | [] => ret (tot, off)
  | _ =>
      match fuel with
      | O => nofuel
      | S fuel =>
          let* addr := bmap ip (off / BSIZE) in
          if addr =? 0 then ret (tot, off)
          else
            let* i := geti ip in
            let* bp := bread (i_dev i) addr in
            let m := Z.min (Z.of_nat (length data)) (BSIZE - off mod BSIZE) in
            modb bp (fun x => set_b_data
              (splice (b_data x) (Z.to_nat (off mod BSIZE)) (take (Z.to_nat m) data)) x) ;;
            log_write bp ;;
            brelse bp ;;
            writei_loop fuel ip (u32 (off + m)) (drop (Z.to_nat m) data) (tot + m)
      end
  end.

Definition writei (ip : Z) (data : list Z) (off : Z) : X Z :=
  let n := Z.of_nat (length data) in
  let* i := geti ip in
  if (i_size i <? off) || (u32 (off + n) <? off) then ret (-1)
  else if MAXFILE * BSIZE <? u32 (off + n) then ret (-1)
  else
    let* (tot, off) := writei_loop (Z.to_nat (n / BSIZE + 2)) ip off data 0 in
    modi ip (fun i => if i_size i <? off then set_i_size off i else i) ;;
    iupdate ip ;;
    ret tot.

(** ** Directories *)

Definition namecmp (s t : list Z) : Z := strncmp s t (Z.to_nat DIRSIZ).

(** [struct dirent] *)
Definition de_inum (de : list Z) : Z := ufield de 0 2.
Definition de_name (de : list Z) : list Z := take (Z.to_nat DIRSIZ) (drop 2 de).
Definition dirent_bytes (inum : Z) (name : list Z) : list Z :=
  le_split 2 inum ++ strncpy name (Z.to_nat DIRSIZ).

(** The loop of [dirlookup]: the inode and the offset of the entry. *)
Fixpoint dirlookup_loop (fuel : nat) (dp off : Z) (name : list Z) : X (Z * Z) :=
  match fuel with
  | O => nofuel
  | S fuel =>
      let* d := geti dp in
      if off <? i_size d then
        let* de := readi dp off sizeof_dirent in
        if negb (Z.of_nat (length de) =? sizeof_dirent) then panic "dirlookup read"
        else if de_inum de =? 0 then dirlookup_loop fuel dp (u32 (off + sizeof_dirent)) name
        else if namecmp name (de_name de) =? 0 then
          let* ip := iget (i_dev d) (de_inum de) in ret (ip, off)
        else dirlookup_loop fuel dp (u32 (off + sizeof_dirent)) name
      else ret (0, 0)
  end.

Definition dirlookup (dp : Z) (name : list Z) : X (Z * Z) :=
  let* d := geti dp in
  if negb (i_type d =? T_DIR) then panic "dirlookup not DIR"
  else dirlookup_loop (Z.to_nat (i_size d / sizeof_dirent + 2)) dp 0 name.

(** The search of [dirlink] for an empty entry: its offset, or the size. *)
Fixpoint dirlink_slot (fuel : nat) (dp off : Z) : X Z :=
  match fuel with
  | O => nofuel
  | S fuel =>
      let* d := geti dp in
      if off <? i_size d then
        let* de := readi dp off sizeof_dirent in
        if negb (Z.of_nat (length de) =? sizeof_dirent) then panic "dirlink read"
        else if de_inum de =? 0 then ret off
        else dirlink_slot fuel dp (off + sizeof_dirent)
      else ret off
  end.

Definition dirlink (dp : Z) (name : list Z) (inum : Z) : X Z :=
  let* (ip, _) := dirlookup dp name in
  if negb (ip =? 0) then iput ip ;; ret (-1)
  else
    let* d := geti dp in
    let* off := dirlink_slot (Z.to_nat (i_size d / sizeof_dirent + 2)) dp 0 in
    let* r := writei dp (dirent_bytes inum name) off in
    if negb (r =? sizeof_dirent) then ret (-1) else ret 0.

(** ** Paths *)

Fixpoint skip_slashes (path : list Z) : list Z :=
  match path with b :: l => if b =? 47 then skip_slashes l else path | [] => [] end.

(** The path element at the front, up to a slash or the end of the string. *)
Fixpoint path_elem (path : list Z) : list Z :=
  match path with
  | b :: l => if (b =? 47) || (b =? 0) then [] else b :: path_elem l
  | [] => []
  end.

(** [skipelem]: the name of the first element, cut to [DIRSIZ] bytes, and the
    rest of the path. *)
Definition skipelem (path : list Z) : option (list Z * list Z) :=
  let path := skip_slashes path in
  if byte_at path 0 =? 0 then None
  else
    let s := path_elem path in
    Some (take (Z.to_nat DIRSIZ) s, skip_slashes (drop (length s) path)).

(** The loop of [namex]; [name] is what the last [skipelem] stored. *)
Fixpoint namex_loop (fuel : nat) (ip : Z) (path : list Z) (parent : bool) (name : list Z)
    : X (Z * list Z) :=
  match fuel with
  | O => nofuel
  | S fuel =>
      match skipelem path with
      | None => if parent then iput ip ;; ret (0, name) else ret (ip, name)
      | Some (name, path) =>
          ilock ip ;;
          let* i := geti ip in
          if negb (i_type i =? T_DIR) then iunlockput ip ;; ret (0, name)
          else if parent && (byte_at path 0 =? 0) then iunlock ip ;; ret (ip, name)
          else
            let* (next, _) := dirlookup ip name in
            if next =? 0 then iunlockput ip ;; ret (0, name)
            else
              iunlockput ip ;;
              namex_loop fuel next path parent name
      end
  end.

Definition namex (path : list Z) (parent : bool) : X (Z * list Z) :=
  let* ip := (if byte_at path 0 =? 47 then iget ROOTDEV ROOTINO else idup self_cwd) in
  namex_loop (S (length path)) ip path parent [].

Definition namei (path : list Z) : X Z := let* (ip, _) := namex path false in ret ip.
Definition nameiparent (path : list Z) : X (Z * list Z) := namex path true.

(** [create] of kernel/sysfile.c: the new inode is returned locked. *)
Definition create_fail (ip dp : Z) : X Z :=
  modi ip (set_i_nlink 0) ;; iupdate ip ;; iunlockput ip ;; iunlockput dp ;; ret 0.

Definition create (path : list Z) (type major minor : Z) : X Z :=
  let* (dp, name) := nameiparent path in
  if dp =? 0 then ret 0
  else
    ilock dp ;;
    let* (ip, _) := dirlookup dp name in
    if negb (ip =? 0) then
      iunlockput dp ;;
      ilock ip ;;
      let* i := geti ip in
      if (type =? T_FILE) && ((i_type i =? T_FILE) || (i_type i =? T_DEVICE)) then ret ip
      else iunlockput ip ;; ret 0
    else
      let* d := geti dp in
      let* ip := ialloc (i_dev d) type in
      if ip =? 0 then iunlockput dp ;; ret 0
      else
        ilock ip ;;
        modi ip (fun i => set_i_nlink 1 (set_i_minor (s16 minor) (set_i_major (s16 major) i))) ;;
        iupdate ip ;;
        let* i := geti ip in
        let* ok :=
          (if type =? T_DIR then
             let* r := dirlink ip [46] (i_inum i) in
             if r <? 0 then ret false
             else
               let* r := dirlink ip [46; 46] (i_inum d) in
               ret (negb (r <? 0))
           else ret true) in
        if negb ok then create_fail ip dp
        else
          let* r := dirlink dp name (i_inum i) in
          if r <? 0 then create_fail ip dp
          else
            (if type =? T_DIR then modi dp (fun d => set_i_nlink (s16 (i_nlink d + 1)) d) ;; iupdate dp
             else ret tt) ;;
            iunlockput dp ;;
            ret ip.

#[export] Instance xv6_fs : FsOps fsstate := {|
  fs_begin_op := begin_op;
  fs_end_op := end_op;
  fs_namei := namei;
  fs_create := create;
  fs_ilock := ilock;
  fs_iunlock := iunlock;
  fs_iput := iput;
  fs_idup := idup;
  fs_itrunc := itrunc;
  fs_readi := readi;
  fs_writei := writei
|}.
End fs.
