(* ===== verification/Outside.v ===== *)
(** * Writing outside a transaction

    [log.outstanding] counts the file-system operations between [begin_op] and
    [end_op]; no other routine of kernel/fs.c or kernel/log.c changes it. Page
    replacement writes a page to the swap file after [end_op], so when no other
    process is inside an operation the write panics. *)

From S2P Require Import Prelude Riscv Kernel Mem Str Kmem Swap Walk Replace Bio Log Fs.

(** ** What keeps the count *)

(** Every run that returns changes the count of operations by [k]. *)
Definition shifts {A} (k : Z) (m : M fsstate A) : Prop := forall s a s',
  m s = Done a s' -> lg_outstanding (x_log s') = lg_outstanding (x_log s) + k.
Notation keeps_count := (shifts 0).

Create HintDb count.

Lemma count_bind {A B} (m : M fsstate A) (k : A -> M fsstate B) :
  keeps_count m -> (forall a, keeps_count (k a)) -> keeps_count (bind m k).
Proof.
  intros Hm Hk s b s' E. unfold bind in E. destruct (m s) as [a s1| | | |] eqn:E1; try done.
  rewrite (Hk a _ _ _ E), (Hm _ _ _ E1). lia.
Qed.
Lemma count_ret {A} (a : A) : keeps_count (ret a).
Proof. intros s b s' [= _ <-]. lia. Qed.
Lemma count_panic {A} msg : keeps_count (panic (A := A) msg).
Proof. by intros s a s'. Qed.
Lemma count_nofuel {A} : keeps_count (nofuel (A := A)).
Proof. by intros s a s'. Qed.
Lemma count_block {A} : keeps_count (block (A := A)).
Proof. by intros s a s'. Qed.
Lemma count_get : keeps_count get.
Proof. intros s a s' [= _ <-]. lia. Qed.
Lemma count_modify (f : fsstate -> fsstate) :
  (forall s, lg_outstanding (x_log (f s)) = lg_outstanding (x_log s)) -> keeps_count (modify f).
Proof. intros Hf s a s' [= _ <-]. rewrite Hf. lia. Qed.
Lemma count_for_each {A} (l : list A) body : (forall x, keeps_count (body x)) -> keeps_count (for_each l body).
Proof.
  intros Hb. induction l as [|x l IH]; cbn [for_each]; [apply count_ret|]. by apply count_bind.
Qed.
#[export] Hint Resolve count_ret count_panic count_nofuel count_block count_get : count.

(** Go through a routine: sequence, branches, then its operations by hints. *)
Ltac count_tac :=
  repeat first
    [ progress intros
    | progress cbv zeta
    | match goal with
      | |- keeps_count (bind _ _) => apply count_bind
      | |- keeps_count (for_each _ _) => apply count_for_each
      | |- keeps_count (modify _) => apply count_modify; intros; reflexivity
      | |- keeps_count (if ?c then _ else _) => destruct c
      | |- keeps_count (match ?c with _ => _ end) => destruct c
      | |- keeps_count (let '(_, _) := ?c in _) => destruct c
      end
    | solve [eauto 2 with count] ].

Section count.
Context `{Self}.

Lemma count_getb b : keeps_count (getb b).
Proof. intros s a s' E. unfold getb in E. destruct (x_bufs s !! b); [|done]. injection E as _ <-. lia. Qed.
Lemma count_modb b f : keeps_count (modb b f).
Proof. intros s a s' E. unfold modb in E. destruct (x_bufs s !! b); [|done]. injection E as _ <-. cbn. lia. Qed.
Lemma count_disk_read n : keeps_count (disk_read n).
Proof. intros s a s' E. unfold disk_read in E. repeat case_match; simplify_eq/=; lia. Qed.
Lemma count_disk_write n d : keeps_count (disk_write n d).
Proof. intros s a s' E. unfold disk_write in E. repeat case_match; simplify_eq/=; lia. Qed.
Hint Resolve count_getb count_modb count_disk_read count_disk_write : count.

Lemma count_fsprint m : keeps_count (fsprint m).
Proof. unfold fsprint. count_tac. Qed.
Lemma count_acquiresleep lk : keeps_count (acquiresleep lk).
Proof. unfold acquiresleep. count_tac. Qed.
Hint Resolve count_fsprint count_acquiresleep : count.
Lemma count_bread dev n : keeps_count (bread dev n).
Proof. unfold bread, bget, lock_buf. count_tac. Qed.
Lemma count_brelse b : keeps_count (brelse b).
Proof. unfold brelse. count_tac. Qed.
Lemma count_bwrite b : keeps_count (bwrite b).
Proof. unfold bwrite. count_tac. Qed.
Lemma count_bpin b : keeps_count (bpin b).
Proof. unfold bpin. count_tac. Qed.
Lemma count_bunpin b : keeps_count (bunpin b).
Proof. unfold bunpin. count_tac. Qed.
Lemma count_geti ip : keeps_count (geti ip).
Proof. intros s a s' E. unfold geti, badptr, panic in E. repeat case_match; simplify_eq/=; lia. Qed.
Lemma count_modi ip f : keeps_count (modi ip f).
Proof. intros s a s' E. unfold modi, badptr, panic in E. repeat case_match; simplify_eq/=; lia. Qed.
Lemma count_getsb : keeps_count getsb.
Proof. unfold getsb. count_tac. Qed.
Hint Resolve count_bread count_brelse count_bwrite count_bpin count_bunpin count_geti count_modi count_getsb : count.
Lemma count_log_write b : keeps_count (log_write b).
Proof. unfold log_write, getlog, modlog. count_tac. Qed.
Hint Resolve count_log_write : count.

Lemma count_bzero dev n : keeps_count (bzero dev n).
Proof. unfold bzero. count_tac. Qed.
Hint Resolve count_bzero : count.
Lemma count_balloc_loop fuel : forall dev b sb, keeps_count (balloc_loop fuel dev b sb).
Proof. induction fuel as [|fuel IH]; intros; cbn [balloc_loop]; count_tac. Qed.
Hint Resolve count_balloc_loop : count.
Lemma count_balloc dev : keeps_count (balloc dev).
Proof. unfold balloc. count_tac. Qed.
Lemma count_bfree dev b : keeps_count (bfree dev b).
Proof. unfold bfree. count_tac. Qed.
Lemma count_iupdate ip : keeps_count (iupdate ip).
Proof. unfold iupdate. count_tac. Qed.
Lemma count_ilock ip : keeps_count (ilock ip).
Proof. unfold ilock. count_tac. Qed.
Lemma count_iunlock ip : keeps_count (iunlock ip).
Proof. unfold iunlock. count_tac. Qed.
Lemma count_iget dev inum : keeps_count (iget dev inum).
Proof. unfold iget. count_tac. Qed.
Lemma count_idup ip : keeps_count (idup ip).
Proof. unfold idup. count_tac. Qed.
Hint Resolve count_balloc count_bfree count_iupdate count_ilock count_iunlock count_iget count_idup : count.
Lemma count_bmap ip bn : keeps_count (bmap ip bn).
Proof. unfold bmap. count_tac. Qed.
Lemma count_itrunc ip : keeps_count (itrunc ip).
Proof. unfold itrunc, itrunc_direct. count_tac. Qed.
Hint Resolve count_bmap count_itrunc : count.
Lemma count_iput ip : keeps_count (iput ip).
Proof. unfold iput. count_tac. Qed.
Hint Resolve count_iput : count.
Lemma count_iunlockput ip : keeps_count (iunlockput ip).
Proof. unfold iunlockput. count_tac. Qed.
Lemma count_readi_loop fuel : forall ip off n, keeps_count (readi_loop fuel ip off n).
Proof. induction fuel as [|fuel IH]; intros; cbn [readi_loop]; count_tac. Qed.
Lemma count_writei_loop fuel : forall ip off data tot, keeps_count (writei_loop fuel ip off data tot).
Proof. induction fuel as [|fuel IH]; intros; destruct data; cbn [writei_loop]; count_tac. Qed.
Hint Resolve count_iunlockput count_readi_loop count_writei_loop : count.
Lemma count_readi ip off n : keeps_count (readi ip off n).
Proof. unfold readi. count_tac. Qed.
Lemma count_writei ip data off : keeps_count (writei ip data off).
Proof. unfold writei. count_tac. Qed.
Hint Resolve count_readi count_writei : count.
Lemma count_dirlookup_loop fuel : forall dp off name, keeps_count (dirlookup_loop fuel dp off name).
Proof. induction fuel as [|fuel IH]; intros; cbn [dirlookup_loop]; count_tac. Qed.
Hint Resolve count_dirlookup_loop : count.
Lemma count_dirlookup dp name : keeps_count (dirlookup dp name).
Proof. unfold dirlookup. count_tac. Qed.
Lemma count_dirlink_slot fuel : forall dp off, keeps_count (dirlink_slot fuel dp off).
Proof. induction fuel as [|fuel IH]; intros; cbn [dirlink_slot]; count_tac. Qed.
Hint Resolve count_dirlookup count_dirlink_slot : count.
Lemma count_dirlink dp name inum : keeps_count (dirlink dp name inum).
Proof. unfold dirlink. count_tac. Qed.
Lemma count_ialloc_loop fuel : forall dev inum type sb, keeps_count (ialloc_loop fuel dev inum type sb).
Proof. induction fuel as [|fuel IH]; intros; cbn [ialloc_loop]; count_tac. Qed.
Hint Resolve count_ialloc_loop : count.
Lemma count_ialloc dev type : keeps_count (ialloc dev type).
Proof. unfold ialloc. count_tac. Qed.
Lemma count_namex_loop fuel : forall ip path parent name, keeps_count (namex_loop fuel ip path parent name).
Proof. induction fuel as [|fuel IH]; intros; cbn [namex_loop]; count_tac. Qed.
Hint Resolve count_dirlink count_ialloc count_namex_loop : count.
Lemma count_namei path : keeps_count (namei path).
Proof. unfold namei, namex. count_tac. Qed.
Lemma count_nameiparent path : keeps_count (nameiparent path).
Proof. unfold nameiparent, namex. count_tac. Qed.
Hint Resolve count_namei count_nameiparent : count.
Lemma count_create path type major minor : keeps_count (create path type major minor).
Proof. unfold create, create_fail. count_tac. Qed.
Hint Resolve count_create : count.

Lemma count_write_head : keeps_count write_head.
Proof. unfold write_head, getlog. count_tac. Qed.
Lemma count_write_log : keeps_count write_log.
Proof. unfold write_log, write_log_one, getlog. count_tac. Qed.
Lemma count_install_trans r : keeps_count (install_trans r).
Proof. unfold install_trans, install_one, getlog. count_tac. Qed.
Hint Resolve count_write_head count_write_log count_install_trans : count.
Lemma count_commit : keeps_count commit.
Proof. unfold commit, getlog, modlog. count_tac. Qed.
Hint Resolve count_commit : count.

Lemma shifts_then {A B} j k (m : M fsstate A) (c : A -> M fsstate B) :
  shifts j m -> (forall a, shifts k (c a)) -> shifts (j + k) (bind m c).
Proof.
  intros Hm Hc s b s' E. unfold bind in E. destruct (m s) as [a s1| | | |] eqn:E1; try done.
  rewrite (Hc a _ _ _ E), (Hm _ _ _ E1). lia.
Qed.

Lemma count_begin_op : shifts 1 begin_op.
Proof.
  intros s a s' E. unfold begin_op, getlog, modlog, block, bind, get, ret, modify in E.
  repeat case_match; simplify_eq/=; lia.
Qed.

Lemma count_end_op : shifts (-1) end_op.
Proof.
  unfold end_op. change (-1) with (-1 + 0). apply shifts_then; [by intros s a s' [= _ <-]; cbn|].
  intros []. unfold getlog, modlog. count_tac.
Qed.

Lemma count_swap_open name : keeps_count (swap_open (F := fsstate) name).
Proof.
  unfold swap_open. cbn [fs_begin_op fs_end_op fs_namei fs_create fs_ilock fs_iunlock xv6_fs].
  change 0 with (1 + (0 + (0 + (-1 + 0)))). apply shifts_then; [apply count_begin_op|intros _].
  apply shifts_then; [count_tac|intros ip]. apply shifts_then; [count_tac|intros ip'].
  apply shifts_then; [apply count_end_op|intros _]. count_tac.
Qed.

(** ** What needs an operation *)

Definition needs_op {A} (m : M fsstate A) : Prop := forall s a s',
  lg_outstanding (x_log s) < 1 -> m s <> Done a s'.

Lemma needs_op_later {A B} (m : M fsstate A) (k : A -> M fsstate B) :
  keeps_count m -> (forall a, needs_op (k a)) -> needs_op (bind m k).
Proof.
  intros Hm Hk s b s' Ho E. unfold bind in E. destruct (m s) as [a s1| | | |] eqn:E1; try done.
  apply (Hk a s1 b s'); [|done]. rewrite (Hm _ _ _ E1). lia.
Qed.
Lemma needs_op_now {A B} (m : M fsstate A) (k : A -> M fsstate B) : needs_op m -> needs_op (bind m k).
Proof.
  intros Hm s b s' Ho E. unfold bind in E. destruct (m s) as [a s1| | | |] eqn:E1; try done. by apply (Hm s a s1).
Qed.

Lemma log_write_needs_op b : needs_op (log_write b).
Proof.
  intros s a s' Ho E. unfold log_write, getlog, bind, get, ret in E.
  destruct (LOGBLOCKS <=? lh_n (x_log s)); [done|]. by replace (lg_outstanding (x_log s) <? 1) with true in E by lia.
Qed.

Lemma iupdate_needs_op ip : needs_op (iupdate ip).
Proof.
  unfold iupdate. do 4 (apply needs_op_later; [eauto with count|intros]). apply needs_op_now, log_write_needs_op.
Qed.

Lemma writei_needs_op ip data off s r s' :
  lg_outstanding (x_log s) < 1 -> writei ip data off s = Done r s' -> r = -1.
Proof.
  intros Ho E. unfold writei in E. unfold bind at 1 in E. destruct (geti ip s) as [i s1| | | |] eqn:E1; try done.
  apply count_geti in E1. destruct (_ || _) in E; [by injection E|]. destruct (_ <? _) in E; [by injection E|].
  exfalso. revert E. match goal with |- ?m s1 = _ -> _ => assert (needs_op m) as Hn end; [|apply Hn; lia].
  apply needs_op_later; [eauto with count|]. intros [tot o]. apply needs_op_later; [eauto with count|]. intros _.
  apply needs_op_now, iupdate_needs_op.
Qed.

Lemma swap_write_needs_op sip slot data s n s' :
  lg_outstanding (x_log s) < 1 -> swap_write (F := fsstate) sip slot data s = Done n s' -> n = -1.
Proof.
  intros Ho E. unfold swap_write in E. cbn [fs_ilock fs_writei fs_iunlock xv6_fs] in E.
  unfold bind at 1 in E. destruct (ilock sip s) as [[] s1| | | |] eqn:E1; try done. apply count_ilock in E1.
  unfold bind at 1 in E. destruct (writei sip data _ s1) as [r s2| | | |] eqn:E2; try done.
  apply writei_needs_op in E2; [|lia]. unfold bind in E. destruct (iunlock sip s2); try done. by injection E as -> _.
Qed.
End count.

(** ** Properties *)


(** A swap file that is still empty, and a disk with one bitmap block. *)
Definition swap_demo_fs : fsstate :=
  mkFs {[2 := replicate 1024 0]} [] [mkBuf false 0 0 None 0 (replicate 1024 0)] [0%nat]
    (mkLog 0 0 false ROOTDEV 0 (replicate 30 0)) (mkSb 0x10203040 80 40 16 30 0 1 2)
    [mkInode ROOTDEV 5 1 None true T_FILE 0 0 1 0 (replicate 13 0)] [].
Definition swap_demo : kstate fsstate :=
  mkK 0 ∅ 0 [mkProc RUNNING NoChan 0 0 3 None 0 0 0 0 (mkContext 0 0 []) [] 0 [] 0 0 0 0 0 1 (replicate 128 0)]
    (Some 0%nat) None 4 0 false 0 [] [] [] swap_demo_fs.
Definition swap_self : Self := {| self_pid := 3; self_cwd := 0 |}.
Definition swap_demo_run (slot : Z) : outcome (kstate fsstate) Z :=
  (@open_swap_file _ (@xv6_fs swap_self) 0 ;; let* pr := getp 0 in
   fs (@swap_write _ (@xv6_fs swap_self) (p_swap_inode pr) slot (replicate 4096 7))) swap_demo.


(** Slot 0 is written through the log: the kernel panics. *)
Example swap_out_panics : swap_demo_run 0 = Panic "log_write outside of trans".
Proof. vm_compute. reflexivity. Qed.
