(* ===== verification/File.v ===== *)
(** * Open files and pipes

    kernel/file.c and kernel/pipe.c, and the versions of [readi] and [writei]
    of kernel/fs.c that copy to and from user memory. A file pointer is one
    plus its index in the table, and 0 is the null pointer. A pipe lives in a
    page of kernel memory. *)

From S2P Require Import Prelude Riscv Kernel Str Kmem Swap Walk Replace Elf Vm Proc Bio Log Fs.

(** ** The file system inside the kernel's state *)

Class HasFs (F : Type) := { getfs : F -> fsstate; setfs : fsstate -> F -> F }.
#[export] Instance fsstate_has : HasFs fsstate := {| getfs f := f; setfs f _ := f |}.

Definition onfs {F A} `{HasFs F} (m : M fsstate A) : M F A := fun f =>
  match m (getfs f) with
  | Done a x => Done a (setfs x f)
  | Panic msg => Panic msg
  | Blocked => Blocked
  | Switch x => Switch (setfs x f)
  | NoFuel => NoFuel
  end.

(** The interface of the memory subsystem, by the operations of Fs.v. *)
#[export] Instance lifted_fs {F} `{HasFs F} `{Self} : FsOps F | 10 := {|
  fs_begin_op := onfs begin_op;
  fs_end_op := onfs end_op;
  fs_namei path := onfs (namei path);
  fs_create path t ma mi := onfs (create path t ma mi);
  fs_ilock ip := onfs (ilock ip);
  fs_iunlock ip := onfs (iunlock ip);
  fs_iput ip := onfs (iput ip);
  fs_idup ip := onfs (idup ip);
  fs_itrunc ip := onfs (itrunc ip);
  fs_readi ip off n := onfs (readi ip off n);
  fs_writei ip bs off := onfs (writei ip bs off)
|}.

(** The device switch: what [devsw[major].read] and [.write] are. *)
Class DevOps (F : Type) := {
  devread : Z -> option (bool -> Z -> Z -> K F Z);
  devwrite : Z -> option (bool -> Z -> Z -> K F Z)
}.

(** ** Layout of [struct pipe]

    The lock comes first; it is the lock [LAddr pi] of the model. *)
Definition PIPESIZE : Z := 512.
Definition pi_data : Z := 24.
Definition pi_nread : Z := 536.
Definition pi_nwrite : Z := 540.
Definition pi_readopen : Z := 544.
Definition pi_writeopen : Z := 548.

(** [struct stat], with its four bytes of padding. *)
Definition stat_bytes (st : stat) (pad : list Z) : list Z :=
  le_split 4 (st_dev st) ++ le_split 4 (st_ino st) ++ le_split 2 (st_type st) ++
  le_split 2 (st_nlink st) ++ pad ++ le_split 8 (st_size st).

(** [FD_INODE] writes go in pieces that fit a transaction. *)
Definition write_max : Z := (MAXOPBLOCKS - 1 - 1 - 2) / 2 * BSIZE.

Section file.
Context {F : Type} `{HasFs F} `{Self}.

Definition kfs {A} (m : M fsstate A) : K F A := fs (onfs m).

(** *** The file table *)

Definition getf (f : Z) : K F file := fun s =>
  if f <? 1 then badaddr s
  else match k_ftable s !! Z.to_nat (f - 1) with Some x => Done x s | None => badaddr s end.
Definition modf (f : Z) (g : file -> file) : K F unit := fun s =>
  if f <? 1 then badaddr s
  else match k_ftable s !! Z.to_nat (f - 1) with
       | Some x => Done tt (set_k_ftable (<[Z.to_nat (f - 1) := g x]> (k_ftable s)) s)
       | None => badaddr s
       end.
Definition set_f_ref (r : Z) (f : file) : file :=
  mkFile (f_type f) r (f_readable f) (f_writable f) (f_pipe f) (f_ip f) (f_off f) (f_major f).
Definition set_f_type (t : ftype) (f : file) : file :=
  mkFile t (f_ref f) (f_readable f) (f_writable f) (f_pipe f) (f_ip f) (f_off f) (f_major f).
Definition set_f_off (o : Z) (f : file) : file :=
  mkFile (f_type f) (f_ref f) (f_readable f) (f_writable f) (f_pipe f) (f_ip f) o (f_major f).

(** The first entry with no reference. *)
Fixpoint free_file (l : list file) (i : Z) : Z :=
  match l with
  | [] => 0
  | x :: l => if f_ref x =? 0 then i else free_file l (i + 1)
  end.

Definition filealloc : K F Z :=
  acquire LFtable ;;
  let* s := get in
  let f := free_file (k_ftable s) 1 in
  (if f =? 0 then ret tt else modf f (set_f_ref 1)) ;;
  release LFtable ;;
  ret f.

Definition xfiledup (f : Z) : K F Z :=
  acquire LFtable ;;
  let* x := getf f in
  if f_ref x <? 1 then panic "filedup"
  else
    modf f (set_f_ref (s32 (f_ref x + 1))) ;;
    release LFtable ;;
    ret f.

(** *** Pipes *)

Definition pipe_u32 (pi o : Z) : K F Z := let* v := load32 (pi + o) in ret (u32 v).

Definition pipeclose (pi : Z) (writable : bool) : K F unit :=
  acquire (LAddr pi) ;;
  (if writable then
     store32 (pi + pi_writeopen) 0 ;;
     wakeup (ChAddr (pi + pi_nread))
   else
     store32 (pi + pi_readopen) 0 ;;
     wakeup (ChAddr (pi + pi_nwrite))) ;;
  let* ro := load32 (pi + pi_readopen) in
  let* wo := load32 (pi + pi_writeopen) in
  if (ro =? 0) && (wo =? 0) then release (LAddr pi) ;; kfree pi
  else release (LAddr pi).

Definition xfileclose (f : Z) : K F unit :=
  acquire LFtable ;;
  let* x := getf f in
  if f_ref x <? 1 then panic "fileclose"
  else
    let r := f_ref x - 1 in
    modf f (set_f_ref r) ;;
    if 0 <? r then release LFtable
    else
      modf f (fun x => set_f_type FD_NONE (set_f_ref 0 x)) ;;
      release LFtable ;;
      match f_type x with
      | FD_PIPE => pipeclose (f_pipe x) (f_writable x)
      | FD_INODE | FD_DEVICE =>
          kfs begin_op ;;
          kfs (iput (f_ip x)) ;;
          kfs end_op
      | FD_NONE => ret tt
      end.

Definition pipe_end (pi : Z) (w : bool) (f : file) : file :=
  mkFile FD_PIPE (f_ref f) (negb w) w pi (f_ip f) (f_off f) (f_major f).

(** The label [bad] of [pipealloc], where no page has been allocated. *)
Definition pipe_bad (f0 f1 : Z) : K F (option (Z * Z)) :=
  (if f0 =? 0 then ret tt else xfileclose f0) ;;
  (if f1 =? 0 then ret tt else xfileclose f1) ;;
  ret None.

Definition pipealloc : K F (option (Z * Z)) :=
  let* f0 := filealloc in
  if f0 =? 0 then pipe_bad 0 0
  else
    let* f1 := filealloc in
    if f1 =? 0 then pipe_bad f0 0
    else
      let* pi := kalloc in
      if pi =? 0 then pipe_bad f0 f1
      else
        store32 (pi + pi_readopen) 1 ;;
        store32 (pi + pi_writeopen) 1 ;;
        store32 (pi + pi_nwrite) 0 ;;
        store32 (pi + pi_nread) 0 ;;
        modf f0 (pipe_end pi false) ;;
        modf f1 (pipe_end pi true) ;;
        ret (Some (f0, f1)).

(** The loop of [pipewrite], the lock held; [i] bytes of [n] are in the pipe.
    When the pipe is full it sleeps: the run ends there, and the next one
    starts with [sleep_resume] and this loop. *)
Fixpoint pipewrite_loop (fuel : nat) (p : nat) (pi addr i n : Z) : K F Z :=
  if i <? n then
    match fuel with
    | O => nofuel
    | S fuel =>
        let* ro := load32 (pi + pi_readopen) in
        let* k := (if ro =? 0 then ret 1 else killed p) in
        if negb (k =? 0) then release (LAddr pi) ;; ret (-1)
        else
          let* nw := pipe_u32 pi pi_nwrite in
          let* nr := pipe_u32 pi pi_nread in
          if nw =? u32 (nr + PIPESIZE) then
            wakeup (ChAddr (pi + pi_nread)) ;;
            sleep (ChAddr (pi + pi_nwrite)) (LAddr pi) ;;
            pipewrite_loop fuel p pi addr i n
          else
            let* pr := getp p in
            let* (r, ch) := copyin (p_pagetable pr) (u64 (addr + i)) 1 in
            if r =? -1 then
              wakeup (ChAddr (pi + pi_nread)) ;;
              release (LAddr pi) ;;
              ret i
            else
              store32 (pi + pi_nwrite) (u32 (nw + 1)) ;;
              store_bytes (pi + pi_data + nw mod PIPESIZE) ch ;;
              pipewrite_loop fuel p pi addr (i + 1) n
    end
  else
    wakeup (ChAddr (pi + pi_nread)) ;;
    release (LAddr pi) ;;
    ret i.

Definition pipewrite (pi addr n : Z) : K F Z :=
  let* p := curproc in
  acquire (LAddr pi) ;;
  pipewrite_loop (S (Z.to_nat n)) p pi addr 0 n.

(** The copy loop of [piperead]. *)
Fixpoint piperead_loop (fuel : nat) (p : nat) (pi addr i n : Z) : K F Z :=
  if i <? n then
    match fuel with
    | O => nofuel
    | S fuel =>
        let* nr := pipe_u32 pi pi_nread in
        let* nw := pipe_u32 pi pi_nwrite in
        if nr =? nw then ret i
        else
          store32 (pi + pi_nread) (u32 (nr + 1)) ;;
          let* ch := load_bytes (pi + pi_data + nr mod PIPESIZE) 1 in
          let* pr := getp p in
          let* r := copyout (p_pagetable pr) (u64 (addr + i)) ch in
          if r =? -1 then ret i
          else piperead_loop fuel p pi addr (i + 1) n
    end
  else ret i.

(** The wait of [piperead] for data: whether it goes on, or was killed. *)
Fixpoint piperead_wait (fuel : nat) (p : nat) (pi : Z) : K F bool :=
  match fuel with
  | O => nofuel
  | S fuel =>
      let* nr := pipe_u32 pi pi_nread in
      let* nw := pipe_u32 pi pi_nwrite in
      let* wo := load32 (pi + pi_writeopen) in
      if (nr =? nw) && negb (wo =? 0) then
        let* k := killed p in
        if negb (k =? 0) then ret false
        else
          sleep (ChAddr (pi + pi_nread)) (LAddr pi) ;;
          piperead_wait fuel p pi
      else ret true
  end.

Definition piperead (pi addr n : Z) : K F Z :=
  let* p := curproc in
  acquire (LAddr pi) ;;
  let* go := piperead_wait 1 p pi in
  if negb go then release (LAddr pi) ;; ret (-1)
  else
    let* i := piperead_loop (S (Z.to_nat n)) p pi addr 0 n in
    wakeup (ChAddr (pi + pi_nwrite)) ;;
    release (LAddr pi) ;;
    ret i.

(** *** Inode contents to and from user memory *)

(** The loop of [readi] with [user_dst] set: [tot] bytes of [n] are copied. *)
Fixpoint readi_user_loop (fuel : nat) (ip dst off tot n : Z) : K F Z :=
  if tot <? n then
    match fuel with
    | O => nofuel
    | S fuel =>
        let* addr := kfs (bmap ip (off / BSIZE)) in
        if addr =? 0 then ret tot
        else
          let* i := kfs (geti ip) in
          let* bp := kfs (bread (i_dev i) addr) in
          let m := Z.min (n - tot) (BSIZE - off mod BSIZE) in
          let* x := kfs (getb bp) in
          let* r := either_copyout true dst (take (Z.to_nat m) (drop (Z.to_nat (off mod BSIZE)) (b_data x))) in
          kfs (brelse bp) ;;
          if r =? -1 then ret (-1)
          else readi_user_loop fuel ip (u64 (dst + m)) (u32 (off + m)) (tot + m) n
    end
  else ret tot.

Definition readi_user (ip dst off n : Z) : K F Z :=
  let* i := kfs (geti ip) in
  if (i_size i <? off) || (u32 (off + n) <? off) then ret 0
  else
    let n := if i_size i <? u32 (off + n) then i_size i - off else n in
    readi_user_loop (Z.to_nat (n / BSIZE + 2)) ip dst off 0 n.

(** The loop of [writei] with [user_src] set. A copy that fails half way has
    changed the buffer, which is then released without being logged. *)
Fixpoint writei_user_loop (fuel : nat) (ip src off tot n : Z) : K F (Z * Z) :=
  if tot <? n then
    match fuel with
    | O => nofuel
    | S fuel =>
        let* addr := kfs (bmap ip (off / BSIZE)) in
        if addr =? 0 then ret (tot, off)
        else
          let* i := kfs (geti ip) in
          let* bp := kfs (bread (i_dev i) addr) in
          let m := Z.min (n - tot) (BSIZE - off mod BSIZE) in
          let* (r, bs) := either_copyin true src (Z.to_nat m) in
          kfs (modb bp (fun x => set_b_data (splice (b_data x) (Z.to_nat (off mod BSIZE)) bs) x)) ;;
          if r =? -1 then kfs (brelse bp) ;; ret (tot, off)
          else
            kfs (log_write bp) ;;
            kfs (brelse bp) ;;
            writei_user_loop fuel ip (u64 (src + m)) (u32 (off + m)) (tot + m) n
    end
  else ret (tot, off).

Definition writei_user (ip src off n : Z) : K F Z :=
  let* i := kfs (geti ip) in
  if (i_size i <? off) || (u32 (off + n) <? off) then ret (-1)
  else if MAXFILE * BSIZE <? u32 (off + n) then ret (-1)
  else
    let* (tot, off) := writei_user_loop (Z.to_nat (n / BSIZE + 2)) ip src off 0 n in
    kfs (modi ip (fun i => if i_size i <? off then set_i_size off i else i)) ;;
    kfs (iupdate ip) ;;
    ret (s32 tot).

(** *** Files *)

Context `{DevOps F}.

(** [pad] is what the stack holds where the structure has padding. *)
Definition filestat (pad : list Z) (f addr : Z) : K F Z :=
  let* p := curproc in
  let* x := getf f in
  match f_type x with
  | FD_INODE | FD_DEVICE =>
      kfs (ilock (f_ip x)) ;;
      let* st := kfs (stati (f_ip x)) in
      kfs (iunlock (f_ip x)) ;;
      let* pr := getp p in
      let* r := copyout (p_pagetable pr) addr (stat_bytes st pad) in
      if r <? 0 then ret (-1) else ret 0
  | _ => ret (-1)
  end.

Definition fileread (f addr n : Z) : K F Z :=
  let* x := getf f in
  if negb (f_readable x) then ret (-1)
  else
    match f_type x with
    | FD_PIPE => piperead (f_pipe x) addr n
    | FD_DEVICE =>
        if (f_major x <? 0) || (NDEV <=? f_major x) then ret (-1)
        else match devread (f_major x) with
             | None => ret (-1)
             | Some rd => rd true addr n
             end
    | FD_INODE =>
        kfs (ilock (f_ip x)) ;;
        let* r := readi_user (f_ip x) addr (f_off x) (u32 n) in
        let r := s32 r in
        (if 0 <? r then modf f (fun x => set_f_off (u32 (f_off x + r)) x) else ret tt) ;;
        kfs (iunlock (f_ip x)) ;;
        ret r
    | FD_NONE => panic "fileread"
    end.

(** The loop of [filewrite]: one transaction per piece; [i] bytes are written. *)
Fixpoint filewrite_loop (fuel : nat) (f ip addr i n : Z) : K F Z :=
  if i <? n then
    match fuel with
    | O => nofuel
    | S fuel =>
        let n1 := Z.min (n - i) write_max in
        kfs begin_op ;;
        kfs (ilock ip) ;;
        let* x := getf f in
        let* r := writei_user ip (u64 (addr + i)) (f_off x) n1 in
        (if 0 <? r then modf f (fun x => set_f_off (u32 (f_off x + r)) x) else ret tt) ;;
        kfs (iunlock ip) ;;
        kfs end_op ;;
        if negb (r =? n1) then ret i
        else filewrite_loop fuel f ip addr (i + r) n
    end
  else ret i.

Definition filewrite (f addr n : Z) : K F Z :=
  let* x := getf f in
  if negb (f_writable x) then ret (-1)
  else
    match f_type x with
    | FD_PIPE => pipewrite (f_pipe x) addr n
    | FD_DEVICE =>
        if (f_major x <? 0) || (NDEV <=? f_major x) then ret (-1)
        else match devwrite (f_major x) with
             | None => ret (-1)
             | Some wr => wr true addr n
             end
    | FD_INODE =>
        let* i := filewrite_loop (Z.to_nat (n / write_max + 2)) f (f_ip x) addr 0 n in
        ret (if i =? n then n else -1)
    | FD_NONE => panic "filewrite"
    end.
End file.

(** What the process code needs of this layer. *)
#[export] Instance xv6_files {F} `{HasFs F} `{Self} : FileOps F := {|
  filedup := xfiledup;
  fileclose := xfileclose
|}.
