(* ===== verification/PipeSpec.v ===== *)
(** * Pipes are queues

    [pipewrite] and [piperead] of kernel/pipe.c against the queue of bytes that
    a pipe stands for: the ring in its page, between [nread] and [nwrite]. *)

From S2P Require Import Prelude Riscv Kernel Mem Inv Str Kmem Swap Walk Pt Replace Elf Vm Proc ProcSpec CopySpec RamFs ResidentSpec EvictSpec AllocSpec Demo Bio Log Fs Outside File.

(** ** Definitions *)

(** The page of a pipe that holds the bytes [q], oldest first. The counters run
    modulo 2^32 and index the ring modulo its size. *)
Record pipe_page (pg q : list Z) : Prop := {
  pp_len : Z.of_nat (length q) <= PIPESIZE;
  pp_count : u32 (pg32 pg pi_nwrite) = u32 (pg32 pg pi_nread + Z.of_nat (length q));
  pp_data : forall k, (k < length q)%nat ->
    byte_at pg (Z.to_nat (pi_data + (pg32 pg pi_nread + Z.of_nat k) mod PIPESIZE)) = byte_at q k
}.

Definition same_ends (pg pg' : list Z) : Prop :=
  pg32 pg' pi_readopen = pg32 pg pi_readopen /\ pg32 pg' pi_writeopen = pg32 pg pi_writeopen.

(** The page after one byte more, and after one byte less. *)
Definition put_byte (pg : list Z) (ch : Z) : list Z :=
  let nw := u32 (pg32 pg pi_nwrite) in
  splice (pg32_set pg pi_nwrite (u32 (nw + 1))) (Z.to_nat (pi_data + nw mod PIPESIZE)) [ch].
Definition take_byte (pg : list Z) : list Z := pg32_set pg pi_nread (u32 (u32 (pg32 pg pi_nread) + 1)).

Section states.
Context {F : Type}.

(** A process at the start of a system call, and the page of a pipe. *)
Record ready (own : gmap Z role) (e h root : Z) (p : nat) (pr : proc) (pi : Z) (pg : list Z) (s : kstate F) : Prop := {
  rd_inv : kinv own e (k_mem s) h;
  rd_root : own !! root = Some (RTable root []);
  rd_pipe : own !! pi = Some ROther;
  rd_page : is_page (k_mem s) pi pg;
  rd_locks : k_locks s = [];
  rd_cur : k_cur s = Some p;
  rd_proc : k_procs s !! p = Some pr;
  rd_table : ProcSpec.table_ok s;
  rd_pt : p_pagetable pr = root;
  rd_alive : p_killed pr = 0
}.

(** The processes after the current one has woken those that sleep on [ch]. *)
Definition woke (ch : Z) (s : kstate F) : kstate F :=
  set_k_procs (imap (woken (k_cur s) (ChAddr ch)) (k_procs s)) s.

(** The scheduler's view of a process [p] that went to sleep on [ch]. *)
Definition asleep (p : nat) (pr : proc) (ch : Z) (s : kstate F) : kstate F :=
  set_k_locks [LProc p] (set_k_procs (<[p := set_p_state SLEEPING (set_p_chan (ChAddr ch) pr)]> (k_procs s)) s).
End states.

(** ** The page *)

Lemma u32_of_s32 x : u32 (s32 x) = u32 x.
Proof. unfold u32, s32, wrap. Z.div_mod_to_equations. lia. Qed.
Lemma u32_u32 x : u32 (u32 x) = u32 x.
Proof. by apply Z.mod_mod. Qed.
Lemma u32_add_l x y : u32 (u32 x + y) = u32 (x + y).
Proof. apply Zplus_mod_idemp_l. Qed.
Lemma u32_ring x : u32 x mod PIPESIZE = x mod PIPESIZE.
Proof. unfold u32, wrap, PIPESIZE. Z.div_mod_to_equations. lia. Qed.

(** Arithmetic on the layout of a pipe. *)
Ltac plia := unfold pi_data, pi_nread, pi_nwrite, pi_readopen, pi_writeopen, PIPESIZE in *; klia.

Lemma ring_pos x : pi_data <= pi_data + x mod PIPESIZE < pi_nread.
Proof. pose proof (Z.mod_pos_bound x PIPESIZE ltac:(done)). plia. Qed.

Lemma ring_apart x k n : 0 <= k < n -> n < PIPESIZE -> (x + k) mod PIPESIZE <> (x + n) mod PIPESIZE.
Proof. unfold PIPESIZE. Z.div_mod_to_equations. lia. Qed.

Lemma full_test x k : 0 <= k <= PIPESIZE -> (u32 (x + k) =? u32 (x + PIPESIZE)) = (k =? PIPESIZE).
Proof.
  intros Hk. apply Bool.eq_iff_eq_true. rewrite !Z.eqb_eq. split; [|by intros ->].
  unfold u32, wrap, PIPESIZE in *. Z.div_mod_to_equations. lia.
Qed.
Lemma empty_test x k : 0 <= k <= PIPESIZE -> (u32 x =? u32 (x + k)) = (k =? 0).
Proof.
  intros Hk. apply Bool.eq_iff_eq_true. rewrite !Z.eqb_eq. split; [|intros ->; by rewrite Z.add_0_r].
  unfold u32, wrap, PIPESIZE in *. Z.div_mod_to_equations. lia.
Qed.

Lemma take_one (l : list Z) d : (d < length l)%nat -> take 1 (drop d l) = [byte_at l d].
Proof. intros Hd. destruct (lookup_lt_is_Some_2 l d Hd) as [x Hx]. rewrite (drop_S _ x) by done. cbn. by rewrite (byte_at_lookup _ _ _ Hx). Qed.

Section page.
Variables pg q : list Z.
Hypothesis Hlen : length pg = Z.to_nat PGSIZE.
Hypothesis HP : pipe_page pg q.

Lemma pg32_set_other o v o' : 0 <= o -> 0 <= o' -> o + 4 <= PGSIZE ->
  o + 4 <= o' \/ o' + 4 <= o -> pg32 (pg32_set pg o v) o' = pg32 pg o'.
Proof.
  intros Ho Ho' Hl Hd. unfold pg32, pg32_set. rewrite take_drop_splice_other; rewrite ?length_le_split; try done; klia.
Qed.

Lemma byte_at_set32 o v j : 0 <= o -> o + 4 <= PGSIZE -> (j < Z.to_nat o)%nat -> byte_at (pg32_set pg o v) j = byte_at pg j.
Proof.
  intros Ho Hl Hj. unfold pg32_set. rewrite byte_at_splice by (rewrite length_le_split; klia).
  by rewrite decide_False by (rewrite length_le_split; lia).
Qed.

Lemma length_put_byte ch : length (put_byte pg ch) = Z.to_nat PGSIZE.
Proof.
  pose proof (ring_pos (u32 (pg32 pg pi_nwrite))). unfold put_byte.
  rewrite length_splice, length_pg32_set; rewrite ?length_pg32_set; cbn [length]; plia.
Qed.
Lemma length_take_byte : length (take_byte pg) = Z.to_nat PGSIZE.
Proof. unfold take_byte. rewrite length_pg32_set; plia. Qed.

Lemma put_byte_field ch o : pi_nread <= o <= PGSIZE - 4 -> o + 4 <= pi_nwrite \/ pi_nwrite + 4 <= o ->
  pg32 (put_byte pg ch) o = pg32 pg o.
Proof.
  intros Ho Hd. pose proof (ring_pos (u32 (pg32 pg pi_nwrite))). unfold put_byte.
  unfold pg32 at 1. rewrite take_drop_splice_other; [|rewrite length_pg32_set; cbn [length]; plia|cbn [length]; plia].
  fold (pg32 (pg32_set pg pi_nwrite (u32 (u32 (pg32 pg pi_nwrite) + 1))) o).
  apply pg32_set_other; plia.
Qed.

Lemma put_byte_nwrite ch : u32 (pg32 (put_byte pg ch) pi_nwrite) = u32 (pg32 pg pi_nwrite + 1).
Proof.
  pose proof (ring_pos (u32 (pg32 pg pi_nwrite))). unfold put_byte.
  unfold pg32 at 1. rewrite take_drop_splice_other; [|rewrite length_pg32_set; cbn [length]; plia|cbn [length]; plia].
  fold (pg32 (pg32_set pg pi_nwrite (u32 (u32 (pg32 pg pi_nwrite) + 1))) pi_nwrite).
  rewrite pg32_set_same by (plia). by rewrite u32_of_s32, u32_u32, u32_add_l.
Qed.

Lemma put_byte_page ch : Z.of_nat (length q) < PIPESIZE -> pipe_page (put_byte pg ch) (q ++ [ch]) /\ same_ends pg (put_byte pg ch).
Proof.
  intros Hq. destruct HP as [H1 H2 H3]. pose proof (ring_pos (u32 (pg32 pg pi_nwrite))) as Hr.
  split; [|split; apply put_byte_field; plia].
  assert (pg32 (put_byte pg ch) pi_nread = pg32 pg pi_nread) as En by (apply put_byte_field; plia).
  split; rewrite ?length_app, ?En; cbn [length].
  - lia.
  - rewrite put_byte_nwrite, <- u32_add_l, H2, u32_add_l. f_equal. lia.
  - intros k Hk. assert (u32 (pg32 pg pi_nwrite) mod PIPESIZE = (pg32 pg pi_nread + Z.of_nat (length q)) mod PIPESIZE) as Ew
      by (rewrite H2; apply u32_ring).
    pose proof (ring_pos (pg32 pg pi_nread + Z.of_nat k)) as Hk'.
    unfold put_byte. rewrite byte_at_splice by (rewrite length_pg32_set; cbn [length]; plia).
    rewrite Ew in *. cbn [length]. destruct (decide (k = length q)) as [->|Hn].
    + rewrite decide_True by lia. rewrite Nat.sub_diag. unfold byte_at. rewrite lookup_app_r, Nat.sub_diag by lia. done.
    + rewrite decide_False.
      * rewrite byte_at_set32 by (plia). rewrite H3 by lia.
        unfold byte_at. by rewrite lookup_app_l by lia.
      * pose proof (ring_apart (pg32 pg pi_nread) (Z.of_nat k) (Z.of_nat (length q))). unfold pi_data in *. lia.
Qed.
End page.

Lemma take_byte_page pg x q : length pg = Z.to_nat PGSIZE -> pipe_page pg (x :: q) ->
  byte_at pg (Z.to_nat (pi_data + u32 (pg32 pg pi_nread) mod PIPESIZE)) = x /\ pipe_page (take_byte pg) q /\ same_ends pg (take_byte pg).
Proof.
  intros Hlen [H1 H2 H3]. cbn [length] in *. split; [|split].
  - rewrite u32_ring. pose proof (H3 0%nat ltac:(lia)) as E. by rewrite Z.add_0_r in E.
  - assert (forall y, u32 (pg32 (take_byte pg) pi_nread + y) = u32 (pg32 pg pi_nread + 1 + y)) as En.
    { intros y. unfold take_byte. rewrite pg32_set_same by (plia).
      by rewrite <- (u32_add_l (s32 _) y), u32_of_s32, u32_u32, (u32_add_l _ 1), u32_add_l. }
    assert (pg32 (take_byte pg) pi_nwrite = pg32 pg pi_nwrite) as Ew by (apply pg32_set_other; plia).
    split.
    + lia.
    + rewrite Ew, En, H2. f_equal. lia.
    + intros k Hk. rewrite <- u32_ring, En, u32_ring. unfold take_byte.
      pose proof (ring_pos (pg32 pg pi_nread + 1 + Z.of_nat k)).
      rewrite byte_at_set32 by (plia).
      replace (pg32 pg pi_nread + 1 + Z.of_nat k) with (pg32 pg pi_nread + Z.of_nat (S k)) by lia. by rewrite H3 by lia.
  - split; apply pg32_set_other; plia.
Qed.

(** ** The operations *)

Section ops.
Context {F : Type} `{HasFs F} `{Self}.
Context (own : gmap Z role) (e h root : Z) (p : nat) (pr : proc) (pi : Z).
Hypothesis HR : own !! root = Some (RTable root []).
Hypothesis HO : own !! pi = Some ROther.
Hypothesis HPT : p_pagetable pr = root.
Hypothesis HK : p_killed pr = 0.
Implicit Types s : kstate F.

Lemma killed_run s : LProc p ∉ k_locks s -> k_procs s !! p = Some pr -> killed p s = Done (p_killed pr) s.
Proof.
  intros Hl Hp. unfold killed. kstep by (by apply acquire_eq). kstep by (by apply getp_eq).
  kstep by (by apply release_eq). by destruct s.
Qed.

(** A store to the pipe's page is not seen through the page table. *)
Lemma pipe_kinv m pg : kinv own e m h -> length pg = Z.to_nat PGSIZE -> kinv own e (<[pi := pg]> m) h.
Proof. intros KI Hl. by apply (kinv_write _ _ _ _ KI _ _ _ HO). Qed.
Lemma pipe_pteval m pg r v : kinv own e m h -> own !! r = Some (RTable r []) -> pteval (<[pi := pg]> m) r v = pteval m r v.
Proof. intros KI Hr. apply (pteval_insert _ _ _ _ _ KI Hr). intros path E. congruence. Qed.
Lemma pipe_umem m pg v : kinv own e m h -> 0 <= v < TRAPFRAME -> has (pteval m root v) PTE_V = true ->
  umem (<[pi := pg]> m) root v = umem m root v.
Proof.
  intros KI Hv Hp. unfold umem. rewrite pipe_pteval by done. rewrite lookup_insert_ne; [done|].
  intros E. pose proof (pteval_user _ _ _ _ _ KI HR v Hv Hp) as Hr. congruence.
Qed.
Lemma pipe_ubytes m pg va n : kinv own e m h -> 0 <= va -> va + Z.of_nat n <= TRAPFRAME ->
  (forall v, va <= v < va + Z.of_nat n -> readable m root v) -> ubytes (<[pi := pg]> m) root va n = ubytes m root va n.
Proof.
  intros KI Hva Hr Hm. unfold ubytes. apply list_fmap_ext. intros i x Hx. apply lookup_seq in Hx as [-> Hi].
  apply pipe_umem; [done|lia|]. apply Hm. lia.
Qed.

Lemma pipe_page_set m pg pg' : is_page m pi pg -> length pg' = Z.to_nat PGSIZE -> is_page (<[pi := pg']> m) pi pg'.
Proof. intros (_ & _ & Ha) Hl. split; [by rewrite lookup_insert_eq|done]. Qed.

Lemma pipe_counter s pg o : is_page (k_mem s) pi pg -> 0 <= o <= PGSIZE - 4 -> pipe_u32 pi o s = Done (u32 (pg32 pg o)) s.
Proof. intros Hp Ho. unfold pipe_u32. by kstep by (by apply load32_page). Qed.

(** The two stores of a byte. *)
Lemma put_byte_run s pg ch {B} (k : K F B) : is_page (k_mem s) pi pg ->
  (store32 (pi + pi_nwrite) (u32 (u32 (pg32 pg pi_nwrite) + 1)) ;;
   store_bytes (pi + pi_data + u32 (pg32 pg pi_nwrite) mod PIPESIZE) [ch] ;; k) s =
  k (set_k_mem (<[pi := put_byte pg ch]> (k_mem s)) s).
Proof.
  intros Hp. pose proof (ring_pos (u32 (pg32 pg pi_nwrite))). pose proof (proj1 (proj2 Hp)) as Hl.
  kstep by (apply store32_page; [exact Hp|plia]). rewrite <- Z.add_assoc.
  kstep by (eapply store_bytes_page; [eapply pipe_page_set; [exact Hp|rewrite length_pg32_set; plia]|plia|cbn [length]; plia]).
  ksimpl. by rewrite insert_insert_eq.
Qed.

Lemma pipe_unlocked s : k_locks s = [LAddr pi] -> unlocked s.
Proof. intros E i. rewrite E. set_solver. Qed.

Lemma woken_self ch s : k_cur s = Some p -> k_procs s !! p = Some pr -> k_procs (woke ch s) !! p = Some pr.
Proof.
  intros Hc Hp. unfold woke. ksimpl. rewrite list_lookup_imap, Hp. cbn. unfold woken.
  by rewrite bool_decide_eq_false_2 by (rewrite Hc; tauto).
Qed.

(** The process gives up the pipe's lock and its processor together. *)
Lemma sleep_run s ch {B} (k : K F B) : k_locks s = [LAddr pi] -> k_cur s = Some p -> k_procs s !! p = Some pr ->
  (sleep (ChAddr ch) (LAddr pi) ;; k) s = Switch (asleep p pr ch s).
Proof.
  intros El Hc Hp. assert (forall s', k_cur s' = Some p -> curproc s' = Done p s') as Ec.
  { intros s' E. unfold curproc. kstep by (unfold myproc; by rewrite E). done. }
  unfold sleep. kstep by (by apply Ec). kstep by (apply acquire_eq; by apply pipe_unlocked).
  kstep by (unfold release; ksimpl; rewrite El, bool_decide_eq_true_2 by set_solver; reflexivity).
  kstep by (by apply modp_eq).
  unfold sched. kstep by (by apply Ec). kpure. ksimpl.
  assert (p < length (k_procs s))%nat as Hlt by (by eapply lookup_lt_Some).
  kstep by (apply getp_eq; ksimpl; by rewrite list_lookup_insert_eq).
  assert (filter (fun l' => l' <> LAddr pi) [LProc p; LAddr pi] = [LProc p]) as ->.
  { rewrite filter_cons_True by done. by rewrite filter_cons_False by tauto. }
  rewrite bool_decide_eq_true_2 by set_solver. cbn [negb length Nat.eqb].
  rewrite bool_decide_eq_false_2 by done. unfold bind at 1, switch, asleep. by destruct s.
Qed.

Lemma wake_run s ch {B} (k : K F B) : k_locks s = [LAddr pi] -> ProcSpec.table_ok s ->
  (wakeup (ChAddr ch) ;; k) s = k (woke ch s).
Proof. intros El Ht. kstep by (apply wakeup_spec; [done|by apply pipe_unlocked]). done. Qed.

Lemma done_run s ch (n : Z) : k_locks s = [LAddr pi] -> ProcSpec.table_ok s ->
  (wakeup (ChAddr ch) ;; release (LAddr pi) ;; ret n) s = Done n (woke ch (set_k_locks [] s)).
Proof.
  intros El Ht. rewrite wake_run by done. kstep by (apply release_eq; [exact El|set_solver]). done.
Qed.

Lemma copyin_byte s va : kinv own e (k_mem s) h -> 0 <= va < TRAPFRAME -> readable (k_mem s) root va ->
  copyin root va 1 s = Done (0, [umem (k_mem s) root va]) s.
Proof.
  intros KI Hva Hr. rewrite (copyin_spec own e h root) by (try done; try lia; intros v Hv; by replace v with va by lia).
  unfold ubytes. cbn. by rewrite Z.add_0_r.
Qed.

Lemma ubytes_S m va n : ubytes m root va (S n) = umem m root va :: ubytes m root (va + 1) n.
Proof. change (S n) with (1 + n)%nat. rewrite ubytes_app. unfold ubytes at 1. cbn. by rewrite Z.add_0_r. Qed.

(** Writing [r] more bytes. *)
Lemma pipewrite_loop_spec r : forall fuel s pg q va, kinv own e (k_mem s) h -> is_page (k_mem s) pi pg -> pipe_page pg q ->
  pg32 pg pi_readopen <> 0 -> k_locks s = [LAddr pi] -> k_cur s = Some p -> k_procs s !! p = Some pr -> ProcSpec.table_ok s ->
  0 <= va -> va + Z.of_nat r <= TRAPFRAME -> (forall v, va <= v < va + Z.of_nat r -> readable (k_mem s) root v) ->
  (r < fuel)%nat -> forall i n, Z.of_nat r = n - i -> 0 <= i -> forall addr, 0 <= addr -> va = addr + i ->
  let room := (Z.to_nat PIPESIZE - length q)%nat in
  exists pg', length pg' = Z.to_nat PGSIZE /\ pipe_page pg' (q ++ take room (ubytes (k_mem s) root va r)) /\ same_ends pg pg' /\
    let s' := set_k_mem (<[pi := pg']> (k_mem s)) s in
    pipewrite_loop fuel p pi addr i n s =
    if (r <=? room)%nat then Done n (woke (pi + pi_nread) (set_k_locks [] s'))
    else Switch (asleep p pr (pi + pi_nwrite) (woke (pi + pi_nread) s')).
Proof.
  induction r as [|r IH]; intros fuel s pg q va KI Hp HQ Ho El Hc Hpr Ht Hva Hend Hm Hf i n Hi Hi0 addr Ha Ev room.
  { exists pg. pose proof (proj1 (proj2 Hp)) as Hl. cbn [ubytes seq fmap list_fmap]. rewrite take_nil, app_nil_r.
    split_and!; [done|done|done|]. cbv zeta. rewrite insert_id by apply Hp. replace (set_k_mem (k_mem s) s) with s by by destruct s.
    assert (n = i) as -> by lia. destruct fuel as [|fuel]; [lia|]. cbn [pipewrite_loop]. rewrite Z.ltb_irrefl. by apply done_run. }
  destruct fuel as [|fuel]; [lia|]. cbn [pipewrite_loop]. rewrite (proj2 (Z.ltb_lt i n)) by lia.
  kstep by (apply load32_page; [exact Hp|plia]). rewrite (proj2 (Z.eqb_neq _ 0)) by done.
  kstep by (apply killed_run; [by apply pipe_unlocked|done]). rewrite HK. cbn [Z.eqb negb].
  kstep by (apply pipe_counter; [exact Hp|plia]). kstep by (apply pipe_counter; [exact Hp|plia]).
  rewrite (pp_count _ _ HQ), u32_add_l, full_test by (pose proof (pp_len _ _ HQ); lia).
  destruct (Z.eqb_spec (Z.of_nat (length q)) PIPESIZE) as [Eq|Eq].
  { exists pg. assert (room = 0%nat) as -> by (unfold room; plia). rewrite take_0, app_nil_r.
    split_and!; [apply Hp|done|done|]. cbv zeta. rewrite insert_id by apply Hp. replace (set_k_mem (k_mem s) s) with s by by destruct s.
    rewrite wake_run by done. rewrite sleep_run by (try done; by apply woken_self). done. }
  assert (readable (k_mem s) root va) as Hrd by (apply Hm; lia).
  assert (u64 (addr + i) = va) as -> by (rewrite <- Ev; apply u64_small; klia).
  kstep by (by apply getp_eq). rewrite HPT. kstep by (apply copyin_byte; [done|lia|done]). cbn [Z.eqb Z.opp].
  rewrite <- (pp_count _ _ HQ), put_byte_run by done. set (ch := umem (k_mem s) root va).
  pose proof (proj1 (proj2 Hp)) as Hl.
  destruct (put_byte_page pg q Hl HQ ch) as [HQ' [He1 He2]]; [pose proof (pp_len _ _ HQ); lia|].
  set (s1 := set_k_mem (<[pi := put_byte pg ch]> (k_mem s)) s).
  destruct (IH fuel s1 (put_byte pg ch) (q ++ [ch]) (va + 1)) with (i := i + 1) (n := n) (addr := addr)
    as (pg' & Hl' & HP' & He' & E); try done; try lia.
  - by apply pipe_kinv; [|apply length_put_byte].
  - eapply pipe_page_set; [exact Hp|by apply length_put_byte].
  - intros v Hv. unfold readable, s1. ksimpl. rewrite pipe_pteval by done. apply Hm. lia.
  - exists pg'. split; [done|]. rewrite length_app in HP', E. cbn [length] in HP', E.
    assert (room = S (Z.to_nat PIPESIZE - (length q + 1))) as Er by (pose proof (pp_len _ _ HQ); unfold room; plia).
    unfold s1 in HP', E. ksimpl in *. rewrite pipe_ubytes in HP' by (try done; try lia; intros v Hv; apply Hm; lia).
    rewrite ubytes_S. fold ch. rewrite Er. cbn [take Nat.leb]. rewrite <- app_assoc in HP'. split; [done|]. split; [|].
    + unfold same_ends in *. by destruct He' as [-> ->].
    + cbv zeta in *. unfold s1. rewrite E, insert_insert_eq. done.
Qed.
Lemma pipewrite_spec s pg q addr n : ready own e h root p pr pi pg s -> pipe_page pg q -> pg32 pg pi_readopen <> 0 ->
  0 <= addr -> addr + Z.of_nat n <= TRAPFRAME -> (forall v, addr <= v < addr + Z.of_nat n -> readable (k_mem s) root v) ->
  let room := (Z.to_nat PIPESIZE - length q)%nat in
  exists pg', length pg' = Z.to_nat PGSIZE /\ pipe_page pg' (q ++ take room (ubytes (k_mem s) root addr n)) /\ same_ends pg pg' /\
    let s' := set_k_mem (<[pi := pg']> (k_mem s)) s in
    pipewrite pi addr (Z.of_nat n) s =
    if (n <=? room)%nat then Done (Z.of_nat n) (woke (pi + pi_nread) s')
    else Switch (asleep p pr (pi + pi_nwrite) (woke (pi + pi_nread) s')).
Proof.
  intros [KI _ _ Hp El Hc Hpr Ht _ _] HQ Ho Ha Hend Hm room.
  set (s1 := set_k_locks [LAddr pi] s).
  destruct (pipewrite_loop_spec n (S (Z.to_nat (Z.of_nat n))) s1 pg q addr) with (i := 0) (n := Z.of_nat n) (addr := addr)
    as (pg' & Hl & HP & He & E); try done; try lia.
  exists pg'. split_and!; try done. cbv zeta in *. unfold pipewrite. kstep by (unfold curproc; kstep by (unfold myproc; by rewrite Hc); done).
  kstep by (apply acquire_eq; rewrite El; set_solver). rewrite El. fold s1. rewrite E. fold room.
  destruct (n <=? room)%nat; unfold s1, woke, asleep; do 2 f_equal; by destruct s; cbn in El; subst.
Qed.

(** ** Reading *)

Lemma wrote_pipe m m2 pg pg0 va bs : kinv own e m h -> is_page m pi pg0 ->
  wrote own e h root (<[pi := pg]> m) m2 va bs -> wrote own e h root m (<[pi := pg0]> m2) va bs.
Proof.
  intros KI (Hpg & Hl & Ha) [I2 P2 E2 B2].
  assert (kinv own e (<[pi := pg]> m) h -> forall r v, own !! r = Some (RTable r []) -> pteval (<[pi := pg0]> m2) r v = pteval m r v) as HP.
  { intros _ r v Hr. rewrite pipe_pteval, P2 by done. by apply pipe_pteval. }
  assert (forall r v, own !! r = Some (RTable r []) -> pteval m2 r v = pteval m r v) as HP2.
  { intros r v Hr. rewrite P2 by done. by apply pipe_pteval. }
  split.
  - by apply pipe_kinv.
  - intros r v Hr. rewrite pipe_pteval by done. by apply HP2.
  - intros pa r Hr Hn. destruct (decide (pa = pi)) as [->|Hne]; [by rewrite lookup_insert_eq|].
    rewrite lookup_insert_ne, (E2 pa r), lookup_insert_ne by done. done.
  - intros v Hv Hp. rewrite pipe_umem by (try done; by rewrite HP2). rewrite B2, pipe_umem by (try done; by rewrite pipe_pteval). done.
Qed.

Lemma copyout_byte s va x : kinv own e (k_mem s) h -> 0 <= va < TRAPFRAME -> writable (k_mem s) root va ->
  exists m', copyout root va [x] s = Done 0 (set_k_mem m' s) /\ wrote own e h root (k_mem s) m' va [x].
Proof.
  intros KI Hva Hw. apply (copyout_spec own e h root); try done; cbn [length]; try lia.
  intros v Hv. by replace v with va by lia.
Qed.

Lemma piperead_loop_spec r : forall fuel s pg q va, kinv own e (k_mem s) h -> is_page (k_mem s) pi pg -> pipe_page pg q ->
  k_procs s !! p = Some pr -> 0 <= va -> let k := Nat.min r (length q) in va + Z.of_nat k <= TRAPFRAME ->
  (forall v, va <= v < va + Z.of_nat k -> writable (k_mem s) root v) ->
  (r < fuel)%nat -> forall i n, Z.of_nat r = n - i -> 0 <= i -> forall addr, 0 <= addr -> va = addr + i ->
  exists m' pg', length pg' = Z.to_nat PGSIZE /\
    piperead_loop fuel p pi addr i n s = Done (i + Z.of_nat k) (set_k_mem (<[pi := pg']> m') s) /\
    wrote own e h root (k_mem s) m' va (take r q) /\ pipe_page pg' (drop r q) /\ same_ends pg pg'.
Proof.
  induction r as [|r IH]; intros fuel s pg q va KI Hp HQ Hpr Hva k Hend Hm Hf i n Hi Hi0 addr Ha Ev;
    (destruct fuel as [|fuel]; [lia|]); cbn [piperead_loop].
  { exists (k_mem s), pg. rewrite take_0, drop_0, (proj2 (Z.ltb_ge i n)), insert_id by (try apply Hp; lia).
    split_and!; [apply Hp| |by apply wrote_nil|done|done]. rewrite Z.add_0_r. by destruct s. }
  rewrite (proj2 (Z.ltb_lt i n)) by lia.
  kstep by (apply pipe_counter; [exact Hp|plia]). kstep by (apply pipe_counter; [exact Hp|plia]).
  rewrite (pp_count _ _ HQ), empty_test by (pose proof (pp_len _ _ HQ); lia).
  destruct q as [|x q]; cbn [length] in *.
  { exists (k_mem s), pg. cbn [Z.of_nat Z.eqb]. rewrite insert_id by apply Hp.
    split_and!; [apply Hp| |by apply wrote_nil|done|done]. unfold k. rewrite Z.add_0_r. by destruct s. }
  assert (k = S (Nat.min r (length q))) as Ek by (unfold k; lia). clearbody k.
  rewrite (proj2 (Z.eqb_neq _ 0)) by lia. pose proof (proj1 (proj2 Hp)) as Hl.
  destruct (take_byte_page pg x q Hl HQ) as (Ex & HQ' & He1 & He2).
  kstep by (apply store32_page; [exact Hp|plia]). fold (take_byte pg).
  set (s1 := set_k_mem (<[pi := take_byte pg]> (k_mem s)) s).
  assert (is_page (k_mem s1) pi (take_byte pg)) as Hp1 by (eapply pipe_page_set; [exact Hp|by apply length_take_byte]).
  assert (kinv own e (k_mem s1) h) as KI1 by (apply pipe_kinv; [done|by apply length_take_byte]).
  assert (load_bytes (pi + pi_data + u32 (pg32 pg pi_nread) mod PIPESIZE) 1 s1 = Done [x] s1) as Eld.
  { pose proof (ring_pos (u32 (pg32 pg pi_nread))) as Hr. rewrite <- Z.add_assoc.
    rewrite (load_bytes_page s1 pi (take_byte pg)) by (try done; plia). rewrite take_one by (rewrite length_take_byte by done; plia).
    unfold take_byte. rewrite byte_at_set32 by (try done; plia). by rewrite Ex. }
  kstep by exact Eld. kstep by (by apply getp_eq). rewrite HPT.
  assert (u64 (addr + i) = va) as -> by (rewrite <- Ev; apply u64_small; klia).
  assert (forall v, va <= v < va + Z.of_nat k -> writable (k_mem s1) root v) as Hm1.
  { intros v Hv. unfold writable, readable, s1. ksimpl. rewrite pipe_pteval by done. by apply Hm. }
  destruct (copyout_byte s1 va x KI1) as (m2 & E2 & W2); [lia|apply Hm1; lia|].
  kstep by exact E2. cbn [Z.eqb Z.opp].
  destruct (IH fuel (set_k_mem m2 s1) (take_byte pg) q (va + 1)) with (i := i + 1) (n := n) (addr := addr)
    as (m3 & pg' & Hl' & E3 & W3 & HP3 & He3); try done; try lia.
  - apply W2.
  - destruct Hp1 as (H1 & H2 & H3). split; [|done]. ksimpl. by rewrite (wr_else _ _ _ _ _ _ _ _ W2 pi ROther).
  - intros v Hv. unfold writable, readable. ksimpl. rewrite (wr_pte _ _ _ _ _ _ _ _ W2) by done. apply Hm1. lia.
  - exists (<[pi := pg]> m3), pg'. rewrite insert_insert_eq. ksimpl in *. split_and!; [done| | |done|].
    + rewrite E3. f_equal. lia.
    + apply (wrote_pipe _ _ (take_byte pg)); [done|done|]. change (take (S r) (x :: q)) with ([x] ++ take r q). by eapply wrote_app.
    + unfold same_ends in *. by destruct He3 as [-> ->].
Qed.
(** The wait of [piperead], before it copies. *)
Lemma piperead_wait_run s pg q : is_page (k_mem s) pi pg -> pipe_page pg q -> k_locks s = [LAddr pi] -> k_cur s = Some p ->
  k_procs s !! p = Some pr ->
  piperead_wait 1 p pi s = if bool_decide (q = []) && negb (pg32 pg pi_writeopen =? 0)
    then Switch (asleep p pr (pi + pi_nread) s) else Done true s.
Proof.
  intros Hp HQ El Hc Hpr. cbn [piperead_wait].
  kstep by (apply pipe_counter; [exact Hp|plia]). kstep by (apply pipe_counter; [exact Hp|plia]).
  kstep by (apply load32_page; [exact Hp|plia]).
  rewrite (pp_count _ _ HQ), empty_test by (pose proof (pp_len _ _ HQ); lia).
  replace (Z.of_nat (length q) =? 0) with (bool_decide (q = [])) by (destruct q; [done|symmetry; apply Z.eqb_neq; cbn; lia]).
  destruct (bool_decide (q = []) && negb (pg32 pg pi_writeopen =? 0)); [|done].
  kstep by (apply killed_run; [by apply pipe_unlocked|done]). rewrite HK. cbn [Z.eqb negb]. by apply sleep_run.
Qed.

Lemma piperead_spec s pg q addr n : ready own e h root p pr pi pg s -> pipe_page pg q -> 0 <= addr ->
  let k := Nat.min n (length q) in addr + Z.of_nat k <= TRAPFRAME ->
  (forall v, addr <= v < addr + Z.of_nat k -> writable (k_mem s) root v) ->
  if bool_decide (q = []) && negb (pg32 pg pi_writeopen =? 0) then
    piperead pi addr (Z.of_nat n) s = Switch (asleep p pr (pi + pi_nread) s)
  else exists m' pg', length pg' = Z.to_nat PGSIZE /\ pipe_page pg' (drop n q) /\ same_ends pg pg' /\
    wrote own e h root (k_mem s) m' addr (take n q) /\
    piperead pi addr (Z.of_nat n) s = Done (Z.of_nat k) (woke (pi + pi_nwrite) (set_k_mem (<[pi := pg']> m') s)).
Proof.
  intros [KI _ _ Hp El Hc Hpr Ht _ _] HQ Ha k Hend Hm. set (s1 := set_k_locks [LAddr pi] s).
  assert (piperead pi addr (Z.of_nat n) s =
    (let* go := piperead_wait 1 p pi in
     if negb go then release (LAddr pi) ;; ret (-1)
     else
       let* i := piperead_loop (S (Z.to_nat (Z.of_nat n))) p pi addr 0 (Z.of_nat n) in
       wakeup (ChAddr (pi + pi_nwrite)) ;; release (LAddr pi) ;; ret i) s1) as ->.
  { unfold piperead. kstep by (unfold curproc; kstep by (unfold myproc; by rewrite Hc); done).
    kstep by (apply acquire_eq; rewrite El; set_solver). by rewrite El. }
  pose proof (piperead_wait_run s1 pg q Hp HQ eq_refl Hc Hpr) as Ew.
  destruct (bool_decide (q = []) && negb (pg32 pg pi_writeopen =? 0)).
  { unfold bind at 1. rewrite Ew. by destruct s. }
  kstep by exact Ew. cbn [negb].
  destruct (piperead_loop_spec n (S (Z.to_nat (Z.of_nat n))) s1 pg q addr) with (i := 0) (n := Z.of_nat n) (addr := addr)
    as (m' & pg' & Hl & E & W & HP & He); try done; try lia.
  exists m', pg'. split_and!; try done. kstep by exact E. rewrite done_run by done. fold k. cbn [Z.add].
  f_equal. destruct s. cbn in El. by subst.
Qed.

(** A pipe whose read end is closed takes no bytes. *)
Lemma pipewrite_closed s pg addr n : ready own e h root p pr pi pg s -> pg32 pg pi_readopen = 0 -> 0 < n ->
  pipewrite pi addr n s = Done (-1) s.
Proof.
  intros [KI _ _ Hp El Hc Hpr Ht _ _] Ho Hn.
  unfold pipewrite. kstep by (unfold curproc; kstep by (unfold myproc; by rewrite Hc); done).
  kstep by (apply acquire_eq; rewrite El; set_solver). cbn [pipewrite_loop]. rewrite (proj2 (Z.ltb_lt 0 n)) by done.
  kstep by (apply load32_page; [exact Hp|plia]). rewrite Ho. cbn [Z.eqb]. kpure. cbn [Z.eqb negb].
  kstep by (apply release_eq; [by rewrite El|set_solver]). unfold ret. f_equal. destruct s. cbn in El. by subst.
Qed.
End ops.

(** ** Theorems *)

(** C33: Writing to a pipe appends to its queue: the bytes of the user buffer go in
    at the back as far as there is room, and the sleeping readers are woken; the
    call returns the count when all of them fitted, and otherwise the process
    sleeps on [nwrite] with the pipe full; with the read end closed the call
    fails and changes nothing. No other page of memory changes, and the
    counters may wrap around. *)
Theorem pipewrite_fifo {F} `{HasFs F} `{Self} own e h root p pr pi pg q (s : kstate F) addr n :
  ready own e h root p pr pi pg s -> pipe_page pg q -> 0 <= addr -> addr + Z.of_nat n <= TRAPFRAME ->
  (forall v, addr <= v < addr + Z.of_nat n -> readable (k_mem s) root v) ->
  let bs := ubytes (k_mem s) root addr n in
  let room := (Z.to_nat PIPESIZE - length q)%nat in
  (pg32 pg pi_readopen = 0 -> (0 < n)%nat -> pipewrite pi addr (Z.of_nat n) s = Done (-1) s) /\
  (pg32 pg pi_readopen <> 0 -> exists pg',
     length pg' = Z.to_nat PGSIZE /\ pipe_page pg' (q ++ take room bs) /\ same_ends pg pg' /\
     let s' := woke (pi + pi_nread) (set_k_mem (<[pi := pg']> (k_mem s)) s) in
     pipewrite pi addr (Z.of_nat n) s =
     if (n <=? room)%nat then Done (Z.of_nat n) s' else Switch (asleep p pr (pi + pi_nwrite) s')).
Proof.
  intros R HQ Ha Hend Hm bs room. split; intros Ho.
  - intros Hn. by eapply pipewrite_closed; [apply R..|exact R|exact Ho|lia].
  - destruct R as [? ? ? ? ? ? ? ? ? ?]. by apply (pipewrite_spec own e h root p pr pi).
Qed.

(** C34: Reading from a pipe takes from the front of its queue: the user buffer
    receives the oldest bytes, as many as asked for or as there are, in the
    order in which they were written, and the sleeping writers are woken; from
    an empty pipe the call returns 0 when the write end is closed, and otherwise
    the process sleeps on [nread]. Nothing else in memory changes. *)
Theorem piperead_fifo {F} `{HasFs F} `{Self} own e h root p pr pi pg q (s : kstate F) addr n :
  ready own e h root p pr pi pg s -> pipe_page pg q -> 0 <= addr ->
  let k := Nat.min n (length q) in
  addr + Z.of_nat k <= TRAPFRAME -> (forall v, addr <= v < addr + Z.of_nat k -> writable (k_mem s) root v) ->
  if bool_decide (q = []) && negb (pg32 pg pi_writeopen =? 0) then
    piperead pi addr (Z.of_nat n) s = Switch (asleep p pr (pi + pi_nread) s)
  else exists m' pg',
    length pg' = Z.to_nat PGSIZE /\ pipe_page pg' (drop n q) /\ same_ends pg pg' /\
    wrote own e h root (k_mem s) m' addr (take n q) /\
    piperead pi addr (Z.of_nat n) s = Done (Z.of_nat k) (woke (pi + pi_nwrite) (set_k_mem (<[pi := pg']> m') s)).
Proof.
  intros R HQ Ha k Hend Hm. destruct R as [? ? ? ? ? ? ? ? ? ?]. by apply (piperead_spec own e h root p pr pi).
Qed.

(** ** Examples *)

(** The process of [demo_free] with a pipe in its first page, whose counters are
    about to wrap around and which holds the three bytes 7, 8 and 9. *)
Definition demo_pipe_page : list Z :=
  let pg := splice (splice (fill 0) (24 + 510) [7; 8]) 24 [9] in
  pg32_set (pg32_set (pg32_set (pg32_set pg pi_nread (2 ^ 32 - 2)) pi_nwrite 1) pi_readopen 1) pi_writeopen 1.
Definition demo_pipe : Z := dpage 1.
Definition demo_pipe_state : kstate fsstate :=
  mkK (k_end demo_free) (<[demo_pipe := demo_pipe_page]> (k_mem demo_free)) (k_freelist demo_free)
    (demo_pr demo_free :: replicate 63 demo_proc) (Some 0%nat) None 2 0 false 0 [] [] [] swap_demo_fs.
Definition demo_pipe_self : Self := {| self_pid := 1; self_cwd := 0 |}.

Lemma demo_pipe_ready :
  ready demo_free_own (k_end demo_free) (k_freelist demo_free) demo_root 0 (demo_pr demo_free) demo_pipe demo_pipe_page demo_pipe_state.
Proof.
  split; try reflexivity.
  - apply pipe_kinv; [reflexivity|apply (rs_inv _ _ _ _ _ (pi_rs _ _ _ _ _ demo_free_pinv))|reflexivity].
  - split; [|split; reflexivity]. apply lookup_insert_eq.
Qed.

Lemma demo_pipe_holds : pipe_page demo_pipe_page [7; 8; 9].
Proof.
  split; [vm_compute; discriminate|reflexivity|]. intros k Hk. cbn [length] in Hk.
  destruct k as [|[|[|k]]]; [vm_compute; reflexivity..|lia].
Qed.

(** Four bytes of a user buffer across a page boundary join the three. *)
Lemma pipewrite_fifo_witness :
  exists pg', pipe_page pg' [7; 8; 9; 0; 0; 0; 0] /\
    @pipewrite fsstate _ demo_pipe_self demo_pipe 4094 4 demo_pipe_state =
    Done 4 (woke (demo_pipe + pi_nread) (set_k_mem (<[demo_pipe := pg']> (k_mem demo_pipe_state)) demo_pipe_state)).
Proof.
  destruct (@pipewrite_fifo fsstate _ demo_pipe_self demo_free_own (k_end demo_free) (k_freelist demo_free) demo_root 0
    (demo_pr demo_free) demo_pipe demo_pipe_page [7; 8; 9] demo_pipe_state 4094 4 demo_pipe_ready demo_pipe_holds)
    as [_ Hw]; [lia|vm_compute; discriminate| |].
  - intros v Hv. assert (v = 4094 \/ v = 4095 \/ v = 4096 \/ v = 4097) as [-> | [-> | [-> | ->]]] by lia;
      (split; vm_compute; reflexivity).
  - destruct Hw as (pg' & _ & HP & _ & E); [vm_compute; discriminate|]. exists pg'. split; [exact HP|exact E].
Defined.

(** The two oldest bytes come out first, and the third stays. *)
Lemma piperead_fifo_witness :
  exists m' pg', pipe_page pg' [9] /\
    wrote demo_free_own (k_end demo_free) (k_freelist demo_free) demo_root (k_mem demo_pipe_state) m' 4095 [7; 8] /\
    @piperead fsstate _ demo_pipe_self demo_pipe 4095 2 demo_pipe_state =
    Done 2 (woke (demo_pipe + pi_nwrite) (set_k_mem (<[demo_pipe := pg']> m') demo_pipe_state)).
Proof.
  destruct (@piperead_fifo fsstate _ demo_pipe_self demo_free_own (k_end demo_free) (k_freelist demo_free) demo_root 0
    (demo_pr demo_free) demo_pipe demo_pipe_page [7; 8; 9] demo_pipe_state 4095 2 demo_pipe_ready demo_pipe_holds)
    as (m' & pg' & _ & HP & _ & W & E); [lia|vm_compute; discriminate| |].
  - intros v Hv. change (Z.of_nat (Nat.min 2 (length [7; 8; 9]))) with 2 in Hv.
    assert (v = 4095 \/ v = 4096) as [-> | ->] by lia; (split; [split|]; vm_compute; reflexivity).
  - exists m', pg'. split; [exact HP|]. split; [exact W|exact E].
Defined.
