(* ===== verification/SysFile.v ===== *)
(** * File system calls

    kernel/sysfile.c. *)

From S2P Require Import Prelude Riscv Kernel Str Kmem Swap Walk Replace Elf Vm Proc Trap Exec SysProc.
From S2P Require Import Bio Log Fs File.

(** ** kernel/fcntl.h *)
Definition O_RDONLY : Z := 0x000.
Definition O_WRONLY : Z := 0x001.
Definition O_RDWR : Z := 0x002.
Definition O_CREATE : Z := 0x200.
Definition O_TRUNC : Z := 0x400.

Section sysfile.
Context {F : Type} `{HasFs F} `{Self} `{DevOps F} `{Image}.

(** [argstr] into a buffer of [MAXPATH] bytes: the path, if it was fetched. *)
Definition argpath (n : Z) : K F (option (list Z)) :=
  let* (r, bs) := argstr n (Z.to_nat MAXPATH) in
  ret (if r <? 0 then None else Some bs).

Definition argfd (n : Z) : K F (option (Z * Z)) :=
  let* fd := argint n in
  if (fd <? 0) || (NOFILE <=? fd) then ret None
  else
    let* p := curproc in
    let* pr := getp p in
    let f := default 0 (p_ofile pr !! Z.to_nat fd) in
    ret (if f =? 0 then None else Some (fd, f)).

(** The first free descriptor of a table. *)
Fixpoint free_fd (l : list Z) (fd : Z) : Z :=
  match l with
  | [] => -1
  | f :: l => if f =? 0 then fd else free_fd l (fd + 1)
  end.

Definition fdalloc (f : Z) : K F Z :=
  let* p := curproc in
  let* pr := getp p in
  let fd := free_fd (p_ofile pr) 0 in
  (if fd <? 0 then ret tt
   else modp p (fun pr => set_p_ofile (<[Z.to_nat fd := f]> (p_ofile pr)) pr)) ;;
  ret fd.

Definition clear_fd (fd : Z) : K F unit :=
  let* p := curproc in
  modp p (fun pr => set_p_ofile (<[Z.to_nat fd := 0]> (p_ofile pr)) pr).

Definition sys_dup : K F Z :=
  let* r := argfd 0 in
  match r with
  | None => ret (-1)
  | Some (_, f) =>
      let* fd := fdalloc f in
      if fd <? 0 then ret (-1)
      else xfiledup f ;; ret fd
  end.

Definition sys_read : K F Z :=
  let* p := argaddr 1 in
  let* n := argint 2 in
  let* r := argfd 0 in
  match r with None => ret (-1) | Some (_, f) => fileread f p n end.

Definition sys_write : K F Z :=
  let* p := argaddr 1 in
  let* n := argint 2 in
  let* r := argfd 0 in
  match r with None => ret (-1) | Some (_, f) => filewrite f p n end.

Definition sys_close : K F Z :=
  let* r := argfd 0 in
  match r with
  | None => ret (-1)
  | Some (fd, f) =>
      clear_fd fd ;;
      xfileclose f ;;
      ret 0
  end.

Definition sys_fstat (pad : list Z) : K F Z :=
  let* st := argaddr 1 in
  let* r := argfd 0 in
  match r with None => ret (-1) | Some (_, f) => filestat pad f st end.

(** *** Links *)

(** The label [bad] of [sys_link]. *)
Definition link_bad (ip : Z) : M fsstate Z :=
  ilock ip ;;
  modi ip (fun i => set_i_nlink (s16 (i_nlink i - 1)) i) ;;
  iupdate ip ;;
  iunlockput ip ;;
  end_op ;;
  ret (-1).

(** [sys_link] once it has its arguments. *)
Definition link_path (old new : list Z) : M fsstate Z :=
  begin_op ;;
  let* ip := namei old in
  if ip =? 0 then end_op ;; ret (-1)
  else
    ilock ip ;;
    let* i := geti ip in
    if i_type i =? T_DIR then iunlockput ip ;; end_op ;; ret (-1)
    else
      modi ip (fun i => set_i_nlink (s16 (i_nlink i + 1)) i) ;;
      iupdate ip ;;
      iunlock ip ;;
      let* (dp, name) := nameiparent new in
      if dp =? 0 then link_bad ip
      else
        ilock dp ;;
        let* d := geti dp in
        let* i := geti ip in
        let* r := (if negb (i_dev d =? i_dev i) then ret (-1) else dirlink dp name (i_inum i)) in
        if r <? 0 then iunlockput dp ;; link_bad ip
        else
          iunlockput dp ;;
          iput ip ;;
          end_op ;;
          ret 0.

Definition sys_link : K F Z :=
  let* old := argpath 0 in
  match old with
  | None => ret (-1)
  | Some old =>
      let* new := argpath 1 in
      match new with None => ret (-1) | Some new => kfs (link_path old new) end
  end.

(** The loop of [isdirempty]. *)
Fixpoint dirempty_loop (fuel : nat) (dp off : Z) : M fsstate bool :=
  match fuel with
  | O => nofuel
  | S fuel =>
      let* d := geti dp in
      if off <? i_size d then
        let* de := readi dp off sizeof_dirent in
        if negb (Z.of_nat (length de) =? sizeof_dirent) then panic "isdirempty: readi"
        else if negb (de_inum de =? 0) then ret false
        else dirempty_loop fuel dp (off + sizeof_dirent)
      else ret true
  end.

Definition isdirempty (dp : Z) : M fsstate bool :=
  let* d := geti dp in
  dirempty_loop (Z.to_nat (i_size d / sizeof_dirent + 2)) dp (2 * sizeof_dirent).

Definition unlink_bad (dp : Z) : M fsstate Z := iunlockput dp ;; end_op ;; ret (-1).

(** [sys_unlink] once it has its argument. *)
Definition unlink_path (path : list Z) : M fsstate Z :=
  begin_op ;;
  let* (dp, name) := nameiparent path in
  if dp =? 0 then end_op ;; ret (-1)
  else
    ilock dp ;;
    if (namecmp name [46] =? 0) || (namecmp name [46; 46] =? 0) then unlink_bad dp
    else
      let* (ip, off) := dirlookup dp name in
      if ip =? 0 then unlink_bad dp
      else
        ilock ip ;;
        let* i := geti ip in
        if i_nlink i <? 1 then panic "unlink: nlink < 1"
        else
          let* empty := (if i_type i =? T_DIR then isdirempty ip else ret true) in
          if negb empty then iunlockput ip ;; unlink_bad dp
          else
            let* r := writei dp (replicate (Z.to_nat sizeof_dirent) 0) off in
            if negb (r =? sizeof_dirent) then panic "unlink: writei"
            else
              (if i_type i =? T_DIR then
                 modi dp (fun d => set_i_nlink (s16 (i_nlink d - 1)) d) ;;
                 iupdate dp
               else ret tt) ;;
              iunlockput dp ;;
              modi ip (fun i => set_i_nlink (s16 (i_nlink i - 1)) i) ;;
              iupdate ip ;;
              iunlockput ip ;;
              end_op ;;
              ret 0.

Definition sys_unlink : K F Z :=
  let* path := argpath 0 in
  match path with None => ret (-1) | Some path => kfs (unlink_path path) end.

(** *** Opening and creating *)

(** The inode [sys_open] opens, locked, or 0 when the transaction is over. *)
Definition open_inode (path : list Z) (omode : Z) : M fsstate Z :=
  begin_op ;;
  if negb (Z.land omode O_CREATE =? 0) then
    let* ip := create path T_FILE 0 0 in
    if ip =? 0 then end_op ;; ret 0 else ret ip
  else
    let* ip := namei path in
    if ip =? 0 then end_op ;; ret 0
    else
      ilock ip ;;
      let* i := geti ip in
      if (i_type i =? T_DIR) && negb (omode =? O_RDONLY) then iunlockput ip ;; end_op ;; ret 0
      else ret ip.

(** The open file for inode [ip]. *)
Definition open_file (i : inode) (ip omode : Z) (f : file) : file :=
  let dev := i_type i =? T_DEVICE in
  mkFile (if dev then FD_DEVICE else FD_INODE) (f_ref f)
    (Z.land omode O_WRONLY =? 0)
    (negb (Z.land omode O_WRONLY =? 0) || negb (Z.land omode O_RDWR =? 0))
    (f_pipe f) ip (if dev then f_off f else 0) (if dev then i_major i else f_major f).

Definition sys_open : K F Z :=
  let* omode := argint 1 in
  let* path := argpath 0 in
  match path with
  | None => ret (-1)
  | Some path =>
      let* ip := kfs (open_inode path omode) in
      if ip =? 0 then ret (-1)
      else
        let* i := kfs (geti ip) in
        if (i_type i =? T_DEVICE) && ((i_major i <? 0) || (NDEV <=? i_major i)) then
          kfs (iunlockput ip) ;; kfs end_op ;; ret (-1)
        else
          let* f := filealloc in
          let* fd := (if f =? 0 then ret (-1) else fdalloc f) in
          if fd <? 0 then
            (if f =? 0 then ret tt else xfileclose f) ;;
            kfs (iunlockput ip) ;; kfs end_op ;; ret (-1)
          else
            modf f (open_file i ip omode) ;;
            (if negb (Z.land omode O_TRUNC =? 0) && (i_type i =? T_FILE) then kfs (itrunc ip) else ret tt) ;;
            kfs (iunlock ip) ;;
            kfs end_op ;;
            ret fd
  end.

(** [sys_mkdir] and [sys_mknod] after [begin_op]. *)
Definition make_node (path : option (list Z)) (type major minor : Z) : K F Z :=
  match path with
  | None => kfs end_op ;; ret (-1)
  | Some path =>
      let* ip := kfs (create path type major minor) in
      if ip =? 0 then kfs end_op ;; ret (-1)
      else kfs (iunlockput ip) ;; kfs end_op ;; ret 0
  end.

Definition sys_mkdir : K F Z :=
  kfs begin_op ;;
  let* path := argpath 0 in
  make_node path T_DIR 0 0.

Definition sys_mknod : K F Z :=
  kfs begin_op ;;
  let* major := argint 1 in
  let* minor := argint 2 in
  let* path := argpath 0 in
  make_node path T_DEVICE major minor.

Definition sys_chdir : K F Z :=
  let* p := curproc in
  kfs begin_op ;;
  let* path := argpath 0 in
  let* ip := (match path with None => ret 0 | Some path => kfs (namei path) end) in
  if ip =? 0 then kfs end_op ;; ret (-1)
  else
    kfs (ilock ip) ;;
    let* i := kfs (geti ip) in
    if negb (i_type i =? T_DIR) then kfs (iunlockput ip) ;; kfs end_op ;; ret (-1)
    else
      kfs (iunlock ip) ;;
      let* pr := getp p in
      kfs (iput (p_cwd pr)) ;;
      kfs end_op ;;
      modp p (set_p_cwd ip) ;;
      ret 0.

(** *** exec *)

(** The argument loop of [sys_exec]: the pages that hold the strings so far,
    the strings, and whether the list was complete. *)
Fixpoint exec_argv (fuel : nat) (uargv i : Z) (pages : list Z) (argv : list (list Z))
    : K F (list Z * option (list (list Z))) :=
  match fuel with
  | O => ret (pages, None)
  | S fuel =>
      let* (r, uarg) := fetchaddr (u64 (uargv + 8 * i)) in
      if r <? 0 then ret (pages, None)
      else if uarg =? 0 then ret (pages, Some argv)
      else
        let* pg := kalloc in
        if pg =? 0 then ret (pages, None)
        else
          let* (r, bs) := fetchstr uarg (Z.to_nat PGSIZE) in
          store_bytes pg bs ;;
          if r <? 0 then ret (pages ++ [pg], None)
          else exec_argv fuel uargv (i + 1) (pages ++ [pg]) (argv ++ [take (Z.to_nat r) bs])
  end.

Definition sys_exec : K F Z :=
  let* uargv := argaddr 1 in
  let* path := argpath 0 in
  match path with
  | None => ret (-1)
  | Some path =>
      let* (pages, argv) := exec_argv (Z.to_nat MAXARG) uargv 0 [] [] in
      let* r := (match argv with Some argv => kexec (take (Z.to_nat (strlen path)) path) argv | None => ret (-1) end) in
      for_each pages kfree ;;
      ret r
  end.

(** *** pipe *)

(** When only the second descriptor is missing the first is cleared; when the
    numbers cannot be copied out both are. *)
Definition sys_pipe : K F Z :=
  let* p := curproc in
  let* fdarray := argaddr 0 in
  let* r := pipealloc in
  match r with
  | None => ret (-1)
  | Some (rf, wf) =>
      let* fd0 := fdalloc rf in
      let* fd1 := (if fd0 <? 0 then ret (-1) else fdalloc wf) in
      if fd1 <? 0 then
        (if 0 <=? fd0 then clear_fd fd0 else ret tt) ;;
        xfileclose rf ;; xfileclose wf ;; ret (-1)
      else
        let* pr := getp p in
        let* r := copyout (p_pagetable pr) fdarray (le_split 4 fd0) in
        let* r := (if r <? 0 then ret r
                   else copyout (p_pagetable pr) (u64 (fdarray + 4)) (le_split 4 fd1)) in
        if r <? 0 then
          clear_fd fd0 ;; clear_fd fd1 ;;
          xfileclose rf ;; xfileclose wf ;; ret (-1)
        else ret 0
  end.

(** The entries of the system-call table for these calls. *)
Definition sys_file (pad : list Z) (num : Z) : option (K F Z) :=
  if num =? 4 then Some sys_pipe
  else if num =? 5 then Some sys_read
  else if num =? 7 then Some sys_exec
  else if num =? 8 then Some (sys_fstat pad)
  else if num =? 9 then Some sys_chdir
  else if num =? 10 then Some sys_dup
  else if num =? 15 then Some sys_open
  else if num =? 16 then Some sys_write
  else if num =? 17 then Some sys_mknod
  else if num =? 18 then Some sys_unlink
  else if num =? 19 then Some sys_link
  else if num =? 20 then Some sys_mkdir
  else if num =? 21 then Some sys_close
  else None.

(** The dispatcher with the whole table. *)
Definition xv6_syscall (pad : list Z) : K F unit := syscall (sys_file pad).
End sysfile.
