(* ===== verification/Console.v ===== *)
(** * Console, UART and interrupt controller

    kernel/console.c, kernel/uart.c and kernel/plic.c. The devices are reached by
    reads and writes of their registers, which are parameters of the model
    ([Mmio]); everything the drivers keep in memory is the record [drv]. *)

From S2P Require Import Prelude Riscv Kernel Str Printf Kmem Swap Walk Replace Elf Vm Proc Trap File.

(** ** Definitions *)

(** Device registers: a read of [w] bytes at an address gives a value and may
    change the device, a write changes it. [mmio_polls] is how often the model
    polls a status register before it gives up; the code polls for ever. *)
Class Mmio (D : Type) := {
  mmio_rd : Z -> Z -> D -> Z * D;
  mmio_wr : Z -> Z -> Z -> D -> D;
  mmio_polls : nat;
  mmio_hart : Z
}.

Definition INPUT_BUF_SIZE : Z := 128.

(** [cons] of kernel/console.c. *)
Record cons := mkCons { cs_buf : list Z; cs_r : Z; cs_w : Z; cs_e : Z }.

(** The memory of the drivers: [cons], [tx_busy] of kernel/uart.c, [panicking]
    and [panicked] of kernel/printf.c, and the devices themselves. *)
Record drv (D : Type) := mkDrv {
  dr_cons : cons; dr_tx_busy : bool; dr_panicking : bool; dr_panicked : bool; dr_dev : D
}.
Arguments mkDrv {D}.
Arguments dr_cons {D}.
Arguments dr_tx_busy {D}.
Arguments dr_panicking {D}.
Arguments dr_panicked {D}.
Arguments dr_dev {D}.

Class HasDrv (F D : Type) := { getdrv : F -> drv D; setdrv : drv D -> F -> F }.

(** *** Registers of the UART *)
Definition RHR : Z := 0.
Definition THR : Z := 0.
Definition IER : Z := 1.
Definition IER_RX_ENABLE : Z := 1.
Definition IER_TX_ENABLE : Z := 2.
Definition FCR : Z := 2.
Definition FCR_FIFO_ENABLE : Z := 1.
Definition FCR_FIFO_CLEAR : Z := 6.
Definition ISR : Z := 2.
Definition LCR : Z := 3.
Definition LCR_EIGHT_BITS : Z := 3.
Definition LCR_BAUD_LATCH : Z := 128.
Definition LSR : Z := 5.
Definition LSR_RX_READY : Z := 1.
Definition LSR_TX_IDLE : Z := 32.

(** *** Registers of the interrupt controller *)
Definition PLIC_SENABLE (hart : Z) : Z := PLIC + 0x2080 + hart * 0x100.
Definition PLIC_SPRIORITY (hart : Z) : Z := PLIC + 0x201000 + hart * 0x2000.
Definition PLIC_SCLAIM (hart : Z) : Z := PLIC + 0x201004 + hart * 0x2000.

(** *** The input buffer *)

Definition ctrl (c : Z) : Z := c - 64.
Definition NEWLINE : Z := 10.

Definition cons_char (c : cons) (i : Z) : Z := byte_at (cs_buf c) (Z.to_nat (i mod INPUT_BUF_SIZE)).
Definition cons_store (c : cons) (ch : Z) : cons :=
  mkCons (<[Z.to_nat (cs_e c mod INPUT_BUF_SIZE) := u8 ch]> (cs_buf c)) (cs_r c) (cs_w c) (u32 (cs_e c + 1)).

(** The loop of ^U: erase back to the end of the last line. *)
Fixpoint kill_line (fuel : nat) (c : cons) : cons * list Z :=
  match fuel with
  | O => (c, [])
  | S fuel =>
      if negb (cs_e c =? cs_w c) && negb (cons_char c (u32 (cs_e c - 1)) =? NEWLINE) then
        let '(c', out) := kill_line fuel (mkCons (cs_buf c) (cs_r c) (cs_w c) (u32 (cs_e c - 1))) in
        (c', consputc BACKSPACE ++ out)
      else (c, [])
  end.

(** What [consoleintr] does to the buffer for a character other than ^P: the
    new buffer, what it echoes, and whether it wakes the reader. *)
Definition cons_input (c : cons) (ch : Z) : cons * list Z * bool :=
  if ch =? ctrl 85 then (kill_line (Z.to_nat INPUT_BUF_SIZE) c, false)
  else if (ch =? ctrl 72) || (ch =? 0x7f) then
    if negb (cs_e c =? cs_w c)
    then (mkCons (cs_buf c) (cs_r c) (cs_w c) (u32 (cs_e c - 1)), consputc BACKSPACE, false)
    else (c, [], false)
  else if negb (ch =? 0) && (u32 (cs_e c - cs_r c) <? INPUT_BUF_SIZE) then
    let ch := if ch =? 13 then NEWLINE else ch in
    let c' := cons_store c ch in
    if (ch =? NEWLINE) || (ch =? ctrl 68) || (u32 (cs_e c' - cs_r c') =? INPUT_BUF_SIZE)
    then (mkCons (cs_buf c') (cs_r c') (cs_e c') (cs_e c'), consputc ch, true)
    else (c', consputc ch, false)
  else (c, [], false).

Section console.
Context {F D : Type} `{FsOps F} `{Image} `{HasDrv F D} `{Mmio D}.

Definition getd : K F (drv D) := fun s => Done (getdrv (k_fs s)) s.
Definition modd (g : drv D -> drv D) : K F unit := fun s =>
  Done tt (set_k_fs (setdrv (g (getdrv (k_fs s))) (k_fs s)) s).
Definition set_dev (d : D) (x : drv D) : drv D :=
  mkDrv (dr_cons x) (dr_tx_busy x) (dr_panicking x) (dr_panicked x) d.
Definition set_cons (c : cons) (x : drv D) : drv D :=
  mkDrv c (dr_tx_busy x) (dr_panicking x) (dr_panicked x) (dr_dev x).
Definition set_tx_busy (b : bool) (x : drv D) : drv D :=
  mkDrv (dr_cons x) b (dr_panicking x) (dr_panicked x) (dr_dev x).

(** A register access of [w] bytes. *)
Definition rd (w a : Z) : K F Z :=
  let* x := getd in
  let '(v, d) := mmio_rd w a (dr_dev x) in
  modd (set_dev d) ;; ret v.
Definition wr (w a v : Z) : K F unit := modd (fun x => set_dev (mmio_wr w a v (dr_dev x)) x).

(** *** kernel/uart.c *)

Definition ReadReg (reg : Z) : K F Z := rd 1 (UART0 + reg).
Definition WriteReg (reg v : Z) : K F unit := wr 1 (UART0 + reg) (u8 v).

Definition uartinit : K F unit :=
  WriteReg IER 0 ;;
  WriteReg LCR LCR_BAUD_LATCH ;;
  WriteReg 0 3 ;;
  WriteReg 1 0 ;;
  WriteReg LCR LCR_EIGHT_BITS ;;
  WriteReg FCR (Z.lor FCR_FIFO_ENABLE FCR_FIFO_CLEAR) ;;
  WriteReg IER (Z.lor IER_TX_ENABLE IER_RX_ENABLE).

(** The wait of [uartwrite] for the transmitter; it sleeps at most once per
    run, as [pipewrite_loop] does. *)
Definition tx_wait : K F unit :=
  let* x := getd in
  if dr_tx_busy x then sleep ChTx LTx else ret tt.

Fixpoint uartwrite_loop (buf : list Z) : K F unit :=
  match buf with
  | [] => ret tt
  | c :: buf =>
      tx_wait ;;
      WriteReg THR c ;;
      modd (set_tx_busy true) ;;
      uartwrite_loop buf
  end.
Definition uartwrite (buf : list Z) : K F unit :=
  acquire LTx ;; uartwrite_loop buf ;; release LTx.

Fixpoint tx_poll (polls : nat) : K F unit :=
  match polls with
  | O => nofuel
  | S polls =>
      let* v := ReadReg LSR in
      if Z.land v LSR_TX_IDLE =? 0 then tx_poll polls else ret tt
  end.

(** Interrupts are off around the poll; another hart's panic stops it for
    ever. *)
Definition uartputc_sync (c : Z) : K F unit :=
  let* x := getd in
  if dr_panicked x then block
  else tx_poll mmio_polls ;; WriteReg THR c.

Definition uartgetc : K F Z :=
  let* v := ReadReg LSR in
  if negb (Z.land v LSR_RX_READY =? 0) then ReadReg RHR else ret (-1).

(** *** kernel/console.c *)

(** Send the bytes [consputc] sends. *)
Definition console_put (bs : list Z) : K F unit := for_each bs uartputc_sync.

Definition consoleintr (c : Z) : K F unit :=
  acquire LCons ;;
  (if c =? ctrl 80 then procdump
   else
     let* x := getd in
     let '(cs, echo, wake) := cons_input (dr_cons x) c in
     console_put echo ;;
     modd (set_cons cs) ;;
     (if wake then wakeup ChCons else ret tt)) ;;
  release LCons.

Fixpoint uart_input (polls : nat) : K F unit :=
  match polls with
  | O => nofuel
  | S polls =>
      let* c := uartgetc in
      if c =? -1 then ret tt else consoleintr c ;; uart_input polls
  end.

Definition uart_intr : K F unit :=
  let* _ := ReadReg ISR in
  acquire LTx ;;
  let* v := ReadReg LSR in
  (if negb (Z.land v LSR_TX_IDLE =? 0) then modd (set_tx_busy false) ;; wakeup ChTx else ret tt) ;;
  release LTx ;;
  uart_input mmio_polls.

Fixpoint consolewrite_loop (fuel : nat) (user_src : bool) (src i n : Z) : K F Z :=
  if i <? n then
    match fuel with
    | O => nofuel
    | S fuel =>
        let nn := Z.min 32 (n - i) in
        let* (r, buf) := either_copyin user_src (u64 (src + i)) (Z.to_nat nn) in
        if r =? -1 then ret i
        else uartwrite buf ;; consolewrite_loop fuel user_src src (i + nn) n
    end
  else ret i.
Definition consolewrite (user_src : bool) (src n : Z) : K F Z :=
  consolewrite_loop (Z.to_nat n) user_src src 0 n.

(** The wait of [consoleread] for input: [false] if the process was killed. *)
Definition cons_wait (p : nat) : K F bool :=
  let* x := getd in
  if cs_r (dr_cons x) =? cs_w (dr_cons x) then
    let* k := killed p in
    if negb (k =? 0) then ret false
    else sleep ChCons LCons ;; nofuel
  else ret true.

Definition set_r (r : Z) (x : drv D) : drv D :=
  set_cons (mkCons (cs_buf (dr_cons x)) r (cs_w (dr_cons x)) (cs_e (dr_cons x))) x.

Fixpoint consoleread_loop (fuel : nat) (p : nat) (user_dst : bool) (dst n target : Z) : K F Z :=
  if 0 <? n then
    match fuel with
    | O => nofuel
    | S fuel =>
        let* go := cons_wait p in
        if negb go then release LCons ;; ret (-1)
        else
          let* x := getd in
          let r := cs_r (dr_cons x) in
          let c := cons_char (dr_cons x) r in
          modd (set_r (u32 (r + 1))) ;;
          if c =? ctrl 68 then
            (if n <? target then modd (set_r r) else ret tt) ;;
            release LCons ;; ret (target - n)
          else
            let* e := either_copyout user_dst dst [c] in
            if e =? -1 then release LCons ;; ret (target - n)
            else if c =? NEWLINE then release LCons ;; ret (target - (n - 1))
            else consoleread_loop fuel p user_dst (u64 (dst + 1)) (n - 1) target
    end
  else release LCons ;; ret (target - n).

(** [target] is unsigned, but only compared with a positive [n]. *)
Definition consoleread (user_dst : bool) (dst n : Z) : K F Z :=
  let* p := curproc in
  acquire LCons ;;
  consoleread_loop (Z.to_nat n) p user_dst dst n n.

(** *** kernel/plic.c *)

Definition plicinit : K F unit :=
  wr 4 (PLIC + UART0_IRQ * 4) 1 ;;
  wr 4 (PLIC + VIRTIO0_IRQ * 4) 1.

Definition plicinithart : K F unit :=
  wr 4 (PLIC_SENABLE mmio_hart) (Z.lor (Z.shiftl 1 UART0_IRQ) (Z.shiftl 1 VIRTIO0_IRQ)) ;;
  wr 4 (PLIC_SPRIORITY mmio_hart) 0.

Definition plic_claim : K F Z :=
  let* v := rd 4 (PLIC_SCLAIM mmio_hart) in ret (s32 v).
Definition plic_complete (irq : Z) : K F unit := wr 4 (PLIC_SCLAIM mmio_hart) irq.
End console.

(** The device switch after [consoleinit]. *)
Definition CONSOLE : Z := 1.
#[export] Instance console_dev {F D} `{FsOps F} `{Image} `{HasDrv F D} `{Mmio D} : DevOps F := {|
  devread major := if major =? CONSOLE then Some consoleread else None;
  devwrite major := if major =? CONSOLE then Some consolewrite else None
|}.

(** ** The line discipline

    What the buffer holds: the committed characters, from [r] to [w], and the
    line being edited, from [w] to [e]. *)

Definition span (c : cons) (i n : Z) : list Z := (fun k => cons_char c (i + k)) <$> seqZ 0 n.
Definition committed (c : cons) : list Z := span c (cs_r c) (u32 (cs_w c - cs_r c)).
Definition editing (c : cons) : list Z := span c (cs_w c) (u32 (cs_e c - cs_w c)).

Record cons_ok (c : cons) : Prop := {
  co_buf : length (cs_buf c) = Z.to_nat INPUT_BUF_SIZE;
  co_r : 0 <= cs_r c < 2 ^ 32;
  co_w : 0 <= cs_w c < 2 ^ 32;
  co_e : 0 <= cs_e c < 2 ^ 32;
  co_fits : u32 (cs_w c - cs_r c) + u32 (cs_e c - cs_w c) <= INPUT_BUF_SIZE;
  co_line : NEWLINE ∉ editing c
}.

(** The promise of the console to its readers: a character edits the current
    line, a newline, a ^D or a full buffer commits it. The result is the new
    committed text, the new line, the echo, and whether the reader is woken. *)
Definition line_edit (com ed : list Z) (ch : Z) : list Z * list Z * list Z * bool :=
  if ch =? ctrl 85 then (com, [], mjoin (replicate (length ed) (consputc BACKSPACE)), false)
  else if (ch =? ctrl 72) || (ch =? 0x7f) then
    (com, take (length ed - 1) ed, match ed with [] => [] | _ => consputc BACKSPACE end, false)
  else if negb (ch =? 0) && (Z.of_nat (length com + length ed) <? INPUT_BUF_SIZE) then
    let ch := if ch =? 13 then NEWLINE else ch in
    if (ch =? NEWLINE) || (ch =? ctrl 68) || (Z.of_nat (length com + length ed) + 1 =? INPUT_BUF_SIZE)
    then (com ++ ed ++ [ch], [], [ch], true)
    else (com, ed ++ [ch], [ch], false)
  else (com, ed, [], false).

Lemma u32_add_sub a b : 0 <= b < 2 ^ 32 -> u32 (a + u32 (b - a)) = b.
Proof.
  intros Hb. unfold u32, wrap. rewrite Zplus_mod_idemp_r. replace (a + (b - a)) with b by lia.
  by apply Z.mod_small.
Qed.

(** The buffer index only depends on a position modulo the buffer's size. *)
Lemma cons_char_u32 c i : cons_char c (u32 i) = cons_char c i.
Proof.
  unfold cons_char, u32, wrap, INPUT_BUF_SIZE. do 2 f_equal.
  apply Z.mod_mod_divide. by exists (2 ^ 25).
Qed.

Lemma length_span c i n : 0 <= n -> Z.of_nat (length (span c i n)) = n.
Proof. intros Hn. unfold span. rewrite length_fmap, length_seqZ. lia. Qed.

Lemma span_ext c c' i i' n :
  (forall k, 0 <= k < n -> cons_char c (i + k) = cons_char c' (i' + k)) -> span c i n = span c' i' n.
Proof.
  intros H. unfold span. apply list_fmap_ext. intros j k Hk. apply H.
  apply lookup_seqZ in Hk. lia.
Qed.

Lemma span_app c i n m : 0 <= n -> 0 <= m -> span c i (n + m) = span c i n ++ span c (i + n) m.
Proof.
  intros Hn Hm. unfold span. rewrite seqZ_app, fmap_app by done. f_equal.
  replace (0 + n) with (n + 0) by lia.
  rewrite <- (fmap_add_seqZ n 0), <- list_fmap_compose. apply list_fmap_ext. intros j k _. cbn. f_equal. lia.
Qed.

Lemma span_one c i : span c i 1 = [cons_char c i].
Proof. change (span c i 1) with [cons_char c (i + 0)]. by rewrite Z.add_0_r. Qed.

Lemma span_u32 c i n : span c (u32 i) n = span c i n.
Proof.
  apply span_ext. intros k _. rewrite <- (cons_char_u32 c (u32 i + k)), <- (cons_char_u32 c (i + k)).
  f_equal. unfold u32, wrap. by rewrite Zplus_mod_idemp_l.
Qed.

(** *** Changing the end of the line *)

Section edits.
Variable c : cons.
Hypothesis C : cons_ok c.

Lemma e_pos : cs_e c = u32 (cs_w c + u32 (cs_e c - cs_w c)).
Proof using C. symmetry. apply u32_add_sub. apply C. Qed.

Lemma w_pos : cs_w c = u32 (cs_r c + u32 (cs_w c - cs_r c)).
Proof using C. symmetry. apply u32_add_sub. apply C. Qed.

Lemma sizes :
  Z.of_nat (length (committed c)) = u32 (cs_w c - cs_r c) /\
  Z.of_nat (length (editing c)) = u32 (cs_e c - cs_w c) /\
  u32 (cs_e c - cs_r c) = u32 (cs_w c - cs_r c) + u32 (cs_e c - cs_w c).
Proof using C.
  pose proof (u32_range (cs_w c - cs_r c)). pose proof (u32_range (cs_e c - cs_w c)).
  split_and!; [by apply length_span; lia|by apply length_span; lia|].
  destruct C as [_ _ _ _ Hf _]. unfold INPUT_BUF_SIZE in Hf.
  replace (cs_e c - cs_r c) with ((cs_w c - cs_r c) + (cs_e c - cs_w c)) by lia.
  unfold u32, wrap in *. rewrite Zplus_mod. apply Z.mod_small. lia.
Qed.

(** The end moves back by one character of the line. *)
Lemma drop_last :
  cs_e c <> cs_w c ->
  let c' := mkCons (cs_buf c) (cs_r c) (cs_w c) (u32 (cs_e c - 1)) in
  cons_ok c' /\ committed c' = committed c /\ editing c = editing c' ++ [cons_char c (u32 (cs_e c - 1))].
Proof using C.
  intros Hn c'. pose proof (u32_range (cs_e c - cs_w c)) as R.
  assert (u32 (cs_e c - cs_w c) <> 0) as Hz.
  { intros Hz. pose proof e_pos as E. rewrite Hz, Z.add_0_r, u32_small in E by apply C. done. }
  assert (u32 (u32 (cs_e c - 1) - cs_w c) = u32 (cs_e c - cs_w c) - 1) as Hs.
  { transitivity (u32 (u32 (cs_e c - cs_w c) - 1)); [|apply u32_small; lia].
    unfold u32, wrap. rewrite !Zminus_mod_idemp_l. f_equal. lia. }
  assert (editing c = editing c' ++ [cons_char c (u32 (cs_e c - 1))]) as He.
  { unfold editing at 1. replace (u32 (cs_e c - cs_w c)) with (u32 (cs_e c - cs_w c) - 1 + 1) by lia.
    rewrite span_app by lia. f_equal.
    - unfold editing. cbn [cs_w cs_e c']. by rewrite Hs.
    - rewrite span_one. f_equal. rewrite <- cons_char_u32. f_equal. rewrite e_pos at 2.
      unfold u32, wrap. rewrite Zminus_mod_idemp_l. f_equal. lia. }
  split_and!; [|done|done]. split; cbn [cs_buf cs_r cs_w cs_e c'].
  - apply C.
  - apply C.
  - apply C.
  - apply u32_range.
  - rewrite Hs. pose proof (co_fits c C). lia.
  - pose proof (co_line c C) as Hl. rewrite He, elem_of_app in Hl. tauto.
Qed.

Lemma at_end : cs_e c = cs_w c -> editing c = [].
Proof using Type. intros E. unfold editing. rewrite E, Z.sub_diag. done. Qed.
End edits.

(** The loop of ^U erases the whole line. *)
Lemma kill_line_spec fuel : forall c,
  cons_ok c -> (length (editing c) <= fuel)%nat ->
  let '(c', out) := kill_line fuel c in
  cons_ok c' /\ committed c' = committed c /\ editing c' = [] /\
  out = mjoin (replicate (length (editing c)) (consputc BACKSPACE)).
Proof.
  induction fuel as [|fuel IH]; intros c C Hl; cbn [kill_line].
  { apply Nat.le_0_r, nil_length_inv in Hl. by rewrite Hl. }
  destruct (Z.eqb_spec (cs_e c) (cs_w c)) as [E|E]; cbn [negb andb].
  { by rewrite at_end. }
  destruct (drop_last c C E) as (C' & Hc & He).
  destruct (Z.eqb_spec (cons_char c (u32 (cs_e c - 1))) NEWLINE) as [N|N]; cbn [negb].
  { destruct (co_line c C). rewrite He, N, elem_of_app, list_elem_of_singleton. by right. }
  specialize (IH _ C'). destruct (kill_line fuel _) as [c'' out].
  rewrite He, length_app in Hl |- *. cbn [length] in *. destruct IH as (C'' & Hc' & He' & ->); [lia|].
  split_and!; [done|congruence|done|]. by rewrite Nat.add_1_r.
Qed.

(** A character is added at the end. *)
Lemma store_end c ch :
  cons_ok c -> u32 (cs_e c - cs_r c) < INPUT_BUF_SIZE ->
  let c' := cons_store c ch in
  committed c' = committed c /\ editing c' = editing c ++ [u8 ch] /\
  length (cs_buf c') = Z.to_nat INPUT_BUF_SIZE /\
  u32 (cs_e c' - cs_w c) = u32 (cs_e c - cs_w c) + 1 /\ 0 <= cs_e c' < 2 ^ 32.
Proof.
  intros C Hl c'. destruct (sizes c C) as (_ & _ & Hs). rewrite Hs in Hl. unfold INPUT_BUF_SIZE in Hl.
  pose proof (u32_range (cs_w c - cs_r c)) as Rw. pose proof (u32_range (cs_e c - cs_w c)) as Re.
  assert (u32 (cs_e c' - cs_w c) = u32 (cs_e c - cs_w c) + 1) as Hs'.
  { cbn [cs_e c' cons_store]. transitivity (u32 (u32 (cs_e c - cs_w c) + 1)); [|apply u32_small; lia].
    unfold u32, wrap. rewrite Zminus_mod_idemp_l, Zplus_mod_idemp_l. f_equal. lia. }
  assert (forall i k, 0 < k < 128 -> u32 (i + k) = cs_e c -> cons_char c' i = cons_char c i) as Keep.
  { intros i k Hk Hi. unfold cons_char. cbn [cs_buf c' cons_store]. unfold INPUT_BUF_SIZE.
    rewrite byte_at_insert, decide_False; [done| |].
    - rewrite <- Hi. intros Hm. apply Z2Nat.inj in Hm; [|apply Z.mod_pos_bound; lia..].
      assert (u32 (i + k) mod 128 = (i + k) mod 128) as Hu.
      { unfold u32, wrap. apply Z.mod_mod_divide. by exists (2 ^ 25). }
      rewrite Hu in Hm. pose proof (Z.div_mod (i + k) 128 ltac:(lia)). pose proof (Z.div_mod i 128 ltac:(lia)). nia.
    - rewrite (co_buf c C). pose proof (Z.mod_pos_bound (cs_e c) 128 ltac:(lia)). unfold INPUT_BUF_SIZE. lia. }
  split_and!.
  - unfold committed. cbn [cs_r cs_w c' cons_store]. apply span_ext. intros k Hk.
    apply (Keep _ (u32 (cs_w c - cs_r c) + u32 (cs_e c - cs_w c) - k)); [lia|].
    transitivity (u32 (u32 (cs_r c + u32 (cs_w c - cs_r c)) + u32 (cs_e c - cs_w c))).
    + unfold u32, wrap. rewrite Zplus_mod_idemp_l. f_equal. lia.
    + rewrite <- (w_pos c C). symmetry. apply e_pos, C.
  - unfold editing. change (cs_w c') with (cs_w c). rewrite Hs'. rewrite span_app by lia. f_equal.
    + apply span_ext. intros k Hk. apply (Keep _ (u32 (cs_e c - cs_w c) - k)); [lia|].
      transitivity (u32 (cs_w c + u32 (cs_e c - cs_w c))); [f_equal; lia|symmetry; apply e_pos, C].
    + rewrite span_one. f_equal. rewrite <- cons_char_u32, <- (e_pos c C). unfold cons_char. cbn [cs_buf c' cons_store].
      rewrite byte_at_insert, decide_True; [done|done|].
      rewrite (co_buf c C). pose proof (Z.mod_pos_bound (cs_e c) 128 ltac:(lia)). unfold INPUT_BUF_SIZE in *. lia.
  - cbn [cs_buf c' cons_store]. rewrite length_insert. apply C.
  - done.
  - apply u32_range.
  - apply u32_range.
Qed.

(** The buffer follows the line discipline. *)
Lemma cons_input_spec c ch :
  cons_ok c -> 0 <= ch < 256 ->
  let '(c', echo, wake) := cons_input c ch in
  cons_ok c' /\ (committed c', editing c', echo, wake) = line_edit (committed c) (editing c) ch.
Proof.
  intros C Hch. destruct (sizes c C) as (Lc & Le & Lt). unfold cons_input, line_edit.
  rewrite Nat2Z.inj_add, Lc, Le, <- Lt.
  destruct (Z.eqb_spec ch (ctrl 85)) as [->|_].
  { pose proof (kill_line_spec (Z.to_nat INPUT_BUF_SIZE) c C) as K.
    destruct (kill_line _ c) as [c' out]. destruct K as (C' & -> & -> & ->); [|done].
    pose proof (co_fits c C). pose proof (u32_range (cs_w c - cs_r c)). unfold INPUT_BUF_SIZE in *. lia. }
  destruct ((ch =? ctrl 72) || (ch =? 127)) eqn:E1.
  { destruct (Z.eqb_spec (cs_e c) (cs_w c)) as [E|E]; cbn [negb].
    - by rewrite (at_end c E).
    - destruct (drop_last c C E) as (C' & Hc & He). split; [done|]. rewrite Hc, He.
      rewrite length_app, take_app_length' by (cbn; lia). by generalize (editing (mkCons (cs_buf c) (cs_r c) (cs_w c) (u32 (cs_e c - 1)))); intros []. }
  destruct (Z.eqb_spec ch 0) as [|Hz]; [done|]. cbn [negb andb].
  destruct (Z.ltb_spec (u32 (cs_e c - cs_r c)) INPUT_BUF_SIZE) as [Hl|]; [|done].
  set (ch' := if ch =? 13 then NEWLINE else ch).
  assert (0 < ch' < 256) as Hch' by (subst ch'; destruct (ch =? 13); unfold NEWLINE; lia).
  assert (consputc ch' = [ch']) as Hp.
  { unfold consputc, BACKSPACE. replace (ch' =? 256) with false by lia. by rewrite u8_small by lia. }
  destruct (store_end c ch' C Hl) as (Hc & He & Hb & Hs & Re). rewrite u8_small in He by lia.
  set (c' := cons_store c ch') in *.
  assert (u32 (cs_e c' - cs_r c') = u32 (cs_e c - cs_r c) + 1) as Hr.
  { change (cs_r c') with (cs_r c). cbn [cs_e c' cons_store]. pose proof (u32_range (cs_e c - cs_r c)).
    transitivity (u32 (u32 (cs_e c - cs_r c) + 1)); [|apply u32_small; unfold INPUT_BUF_SIZE in Hl; lia].
    unfold u32, wrap. rewrite Zminus_mod_idemp_l, Zplus_mod_idemp_l. f_equal. lia. }
  rewrite Hr, Hp. destruct C as [_ Cr Cw Ce Cf Cl].
  destruct ((ch' =? NEWLINE) || (ch' =? ctrl 68) || (_ =? INPUT_BUF_SIZE)) eqn:E2.
  - assert (editing (mkCons (cs_buf c') (cs_r c') (cs_e c') (cs_e c')) = []) as En by by apply at_end.
    split.
    + split; cbn [cs_buf cs_r cs_w cs_e]; [done|done|done|done| |rewrite En; by apply not_elem_of_nil].
      rewrite Hr, Z.sub_diag. unfold INPUT_BUF_SIZE in *. change (u32 0) with 0. lia.
    + rewrite En. do 3 f_equal. unfold committed at 1. cbn [cs_r cs_w].
      rewrite Hr, Lt, <- Z.add_assoc, <- Hs. pose proof (u32_range (cs_w c - cs_r c)). pose proof (u32_range (cs_e c' - cs_w c)).
      change (cs_r c') with (cs_r c). rewrite <- Hc, <- He.
      change (span (mkCons (cs_buf c') (cs_r c) (cs_e c') (cs_e c'))) with (span c').
      rewrite span_app by lia. f_equal. rewrite <- span_u32, u32_add_sub by done. done.
  - split; [|by rewrite Hc, He]. apply orb_false_iff in E2 as [[E2 E3]%orb_false_iff E4].
    split; [done|done|done|done| |].
    + change (cs_w c') with (cs_w c). rewrite Hs. change (cs_r c') with (cs_r c). unfold INPUT_BUF_SIZE in *. lia.
    + rewrite He, elem_of_app, list_elem_of_singleton. intros [?|Hx]; [done|]. lia.
Qed.
