(* ===== verification/ConsoleSpec.v ===== *)
(** * The console interrupt handler

    [consoleintr] against the line discipline of Console.v: what a typed
    character does to the input buffer, the echo it sends, and whom it wakes. *)

From S2P Require Import Prelude Riscv Kernel Mem Str Printf Kmem Swap Walk Replace Elf Vm Proc ProcSpec Trap File Console.

(** The driver's memory is one part of the state. *)
Class DrvLaws (F D : Type) `{HasDrv F D} := {
  get_set_drv : forall d f, getdrv (setdrv d f) = d;
  set_set_drv : forall d d' f, setdrv d (setdrv d' f) = setdrv d f;
  set_get_drv : forall f, setdrv (getdrv f) f = f
}.

(** A UART whose transmit register is empty whenever it is polled. *)
Class UartReady (D : Type) `{Mmio D} := {
  polls_some : (0 < mmio_polls)%nat;
  uart_idle : forall d, Z.land (mmio_rd 1 (UART0 + LSR) d).1 LSR_TX_IDLE <> 0
}.

Section spec.
Context {F D : Type} `{DrvLaws F D} `{UartReady D}.
Implicit Types s : kstate F.

Definition drv_of (s : kstate F) : drv D := getdrv (k_fs s).
Definition cons_of (s : kstate F) : cons := dr_cons (drv_of s).
Definition set_drv (d : drv D) (s : kstate F) : kstate F := set_k_fs (setdrv d (k_fs s)) s.

Lemma set_drv_twice d d' s : set_drv d (set_drv d' s) = set_drv d s.
Proof using Type*. unfold set_drv. ksimpl. by rewrite set_set_drv. Qed.
Lemma drv_of_set d s : drv_of (set_drv d s) = d.
Proof using Type*. unfold drv_of, set_drv. ksimpl. apply get_set_drv. Qed.
Lemma set_drv_same s : set_drv (drv_of s) s = s.
Proof using Type*. unfold set_drv, drv_of. rewrite set_get_drv. by destruct s. Qed.

(** The UART after it was polled and given a byte. *)
Definition uart_sent (d : D) (c : Z) : D :=
  mmio_wr 1 (UART0 + THR) (u8 c) (mmio_rd 1 (UART0 + LSR) d).2.

Lemma uartputc_sync_spec c s :
  dr_panicked (drv_of s) = false ->
  uartputc_sync c s = Done tt (set_drv (set_dev (uart_sent (dr_dev (drv_of s)) c) (drv_of s)) s).
Proof using Type*.
  intros Hp. unfold uartputc_sync, getd, bind at 1. fold (drv_of s). rewrite Hp.
  destruct mmio_polls as [|polls] eqn:E; [pose proof polls_some; lia|].
  cbn [tx_poll]. unfold ReadReg, rd, getd, modd, bind, ret. fold (drv_of s).
  pose proof (uart_idle (dr_dev (drv_of s))) as Hi. unfold uart_sent.
  destruct (mmio_rd 1 (UART0 + LSR) (dr_dev (drv_of s))) as [v d] eqn:Er. cbn [fst snd] in *.
  rewrite (proj2 (Z.eqb_neq _ _) Hi). unfold WriteReg, wr, modd. ksimpl.
  rewrite !get_set_drv, set_set_drv. done.
Qed.

Lemma console_put_spec bs : forall s,
  dr_panicked (drv_of s) = false ->
  console_put bs s = Done tt (set_drv (set_dev (foldl uart_sent (dr_dev (drv_of s)) bs) (drv_of s)) s).
Proof using Type*.
  unfold console_put. induction bs as [|b bs IH]; intros s Hp; cbn [for_each foldl].
  - unfold ret. f_equal. rewrite <- (set_drv_same s) at 1. by destruct (drv_of s).
  - erewrite bind_done by by apply uartputc_sync_spec.
    rewrite IH by by rewrite drv_of_set. by rewrite set_drv_twice, drv_of_set.
Qed.

Lemma consoleintr_run ch s :
  LCons ∉ k_locks s -> table_ok s -> unlocked s -> dr_panicked (drv_of s) = false -> ch <> ctrl 80 ->
  let '(c', echo, wake) := cons_input (cons_of s) ch in
  consoleintr ch s = Done tt
    (set_k_procs (if wake : bool then imap (woken (k_cur s) ChCons) (k_procs s) else k_procs s)
      (set_drv (set_cons c' (set_dev (foldl uart_sent (dr_dev (drv_of s)) echo) (drv_of s))) s)).
Proof using Type*.
  intros Hl Ht Hu Hp Hc. destruct (cons_input (cons_of s) ch) as [[c' echo] wake] eqn:E.
  unfold consoleintr. erewrite bind_done by by apply acquire_eq.
  rewrite (proj2 (Z.eqb_neq _ _) Hc).
  rewrite bind_assoc. unfold getd. erewrite bind_done by reflexivity. ksimpl. fold (drv_of s) (cons_of s). rewrite E.
  rewrite bind_assoc. erewrite bind_done by (apply console_put_spec; exact Hp).
  rewrite bind_assoc. unfold modd. erewrite bind_done by reflexivity. unfold set_drv. ksimpl. rewrite get_set_drv, set_set_drv.
  destruct wake.
  - erewrite bind_done by (apply wakeup_spec; [exact Ht|by intros i; apply not_elem_of_cons]).
    erewrite release_eq; [|by ksimpl|exact Hl]. by destruct s.
  - rewrite bind_ret. erewrite release_eq; [|by ksimpl|exact Hl]. by destruct s.
Qed.
End spec.

(** ** Properties *)


(** A UART that is always ready and keeps what it was sent. *)
#[export] Instance demo_uart : Mmio (list Z) := {|
  mmio_rd _ a d := (if a =? UART0 + LSR then LSR_TX_IDLE else 0, d);
  mmio_wr _ a v d := if a =? UART0 + THR then d ++ [v] else d;
  mmio_polls := 1;
  mmio_hart := 0
|}.
#[export] Instance demo_uart_ready : UartReady (list Z).
Proof. split; [cbn; lia|done]. Qed.
#[export] Instance demo_drv : HasDrv (drv (list Z)) (list Z) := {| getdrv f := f; setdrv d _ := d |}.
#[export] Instance demo_drv_laws : DrvLaws (drv (list Z)) (list Z).
Proof. split; done. Qed.

(** The characters l and s typed, the reader of entry 2 asleep. *)
Definition demo_cons : cons := mkCons ([108; 115] ++ replicate 126 0) 0 0 2.
Definition demo_console : kstate (drv (list Z)) :=
  mkK 0 ∅ 0 spec_table (Some 0%nat) None 4 0 false 0 [] [] [] (mkDrv demo_cons false false false []).

Lemma demo_cons_ok : cons_ok demo_cons.
Proof.
  split.
  - reflexivity.
  - cbn. lia.
  - cbn. lia.
  - cbn. lia.
  - vm_compute. discriminate.
  - change (editing demo_cons) with [108; 115]. rewrite !not_elem_of_cons. split_and!; try done. apply not_elem_of_nil.
Qed.

