(* ===== verification/Programs.v ===== *)
(** * The small user programs

    user/cat.c, wc.c, grep.c, ls.c, echo.c, kill.c, ln.c, mkdir.c, rm.c and init.c
    as programs of Usys.v. The vector [argv] is given with the name of the program. *)

From S2P Require Import Prelude Kernel Str Ulib Printf Grep Sh Usys ShRun Fs Console.

(** ** Definitions *)

Definition str (s : list Z) : parg := PStr (Some s).

(** The loop of [main] of cat.c, wc.c and grep.c over the files it is given:
    [fail] prints that a file cannot be opened. *)
Fixpoint for_files (fail : list Z -> prog unit) (body : Z -> list Z -> prog unit) (paths : list (list Z)) : prog False :=
  match paths with
  | [] => Exit 0
  | path :: paths =>
      let& fd := sys (SOpen path O_RDONLY) in
      if fd <? 0 then fail path ;! Exit 1
      else
        body fd path ;!
        sys (SClose fd) ;!
        for_files fail body paths
  end.

(** *** cat.c *)

Fixpoint cat (fuel : nat) (fd : Z) : prog unit :=
  match fuel with
  | O => OutOfFuel
  | S fuel =>
      let& (n, buf) := Call (SRead fd 512) Return in
      if 0 <? n then
        let& w := sys (SWrite 1 buf) in
        if negb (w =? n) then fprintf 2 (line "cat: write error") [] ;! Exit 1
        else cat fuel fd
      else if n <? 0 then fprintf 2 (line "cat: read error") [] ;! Exit 1
      else Return tt
  end.

Definition cat_main (fuel : nat) (argv : list (list Z)) : prog False :=
  if (length argv <=? 1)%nat then cat fuel 0 ;! Exit 0
  else for_files (fun p => fprintf 2 (line "cat: cannot open %s") [str p]) (fun fd _ => cat fuel fd) (drop 1 argv).

(** *** wc.c *)

Definition wc_blank (c : Z) : bool := is_in [32; 13; 9; 10; 11] c.

(** The counts [l], [w], [c] and the flag [inword]. *)
Definition wc_state : Type := Z * Z * Z * bool.

(** The body of the loop over the bytes of the buffer. *)
Definition wc_byte (s : wc_state) (b : Z) : wc_state :=
  let '(l, w, c, inword) := s in
  let c := s32 (c + 1) in
  let l := if b =? 10 then s32 (l + 1) else l in
  if wc_blank b then (l, w, c, false)
  else if negb inword then (l, s32 (w + 1), c, true)
  else (l, w, c, inword).

Fixpoint wc_loop (fuel : nat) (fd : Z) (s : wc_state) : prog wc_state :=
  match fuel with
  | O => OutOfFuel
  | S fuel =>
      let& (n, buf) := Call (SRead fd 512) Return in
      if 0 <? n then wc_loop fuel fd (foldl wc_byte s buf)
      else if n <? 0 then printf (line "wc: read error") [] ;! Exit 1
      else Return s
  end.

Definition wc (fuel : nat) (fd : Z) (name : list Z) : prog unit :=
  let& s := wc_loop fuel fd (0, 0, 0, false) in
  let '(l, w, c, _) := s in
  printf (line "%d %d %d %s") [PInt l; PInt w; PInt c; str name].

Definition wc_main (fuel : nat) (argv : list (list Z)) : prog False :=
  if (length argv <=? 1)%nat then wc fuel 0 [] ;! Exit 0
  else for_files (fun p => printf (line "wc: cannot open %s") [str p]) (wc fuel) (drop 1 argv).

(** *** grep.c *)

(** The loop over the lines in the buffer [p]; it returns the bytes after the
    last newline. *)
Fixpoint grep_buf (pattern : list Z) (fuel : nat) (p : list Z) : prog (list Z) :=
  match fuel with
  | O => Return p
  | S fuel =>
      match strchr p 10 with
      | None => Return p
      | Some q =>
          (if match_re pattern (take q p) then sys (SWrite 1 (take (q + 1) p)) ;! Return tt else Return tt) ;!
          grep_buf pattern fuel (drop (q + 1) p)
      end
  end.

Fixpoint grep_fd (pattern : list Z) (fuel : nat) (m : list Z) (fd : Z) : prog unit :=
  match fuel with
  | O => OutOfFuel
  | S fuel =>
      let& (n, buf) := Call (SRead fd (Z.of_nat (BUFSZ - length m - 1))) Return in
      if 0 <? n then
        let p := m ++ buf in
        let& m := grep_buf pattern (S (length p)) p in
        grep_fd pattern fuel m fd
      else Return tt
  end.

Definition grep_main (fuel : nat) (argv : list (list Z)) : prog False :=
  match argv with
  | _ :: pattern :: files =>
      if (length argv <=? 2)%nat then grep_fd pattern fuel [] 0 ;! Exit 0
      else for_files (fun p => printf (line "grep: cannot open %s") [str p]) (fun fd _ => grep_fd pattern fuel [] fd) files
  | _ => fprintf 2 (line "usage: grep pattern [file ...]") [] ;! Exit 1
  end.

(** *** echo.c *)

Fixpoint echo_args (args : list (list Z)) : prog False :=
  match args with
  | [] => Exit 0
  | a :: args =>
      sys (SWrite 1 a) ;!
      sys (SWrite 1 (if args is [] then [10] else [32])) ;!
      echo_args args
  end.
Definition echo_main (argv : list (list Z)) : prog False := echo_args (drop 1 argv).

(** *** mkdir.c, rm.c, ln.c, kill.c *)

(** The loop of mkdir.c and rm.c, which ends at the first failure. *)
Fixpoint until_fails (f : list Z -> call) (fmt : list Z) (args : list (list Z)) : prog unit :=
  match args with
  | [] => Return tt
  | a :: args =>
      let& r := sys (f a) in
      if r <? 0 then fprintf 2 fmt [str a] else until_fails f fmt args
  end.

Definition mkdir_main (argv : list (list Z)) : prog False :=
  if (length argv <? 2)%nat then fprintf 2 (line "Usage: mkdir files...") [] ;! Exit 1
  else until_fails SMkdir (line "mkdir: %s failed to create") (drop 1 argv) ;! Exit 0.

Definition rm_main (argv : list (list Z)) : prog False :=
  if (length argv <? 2)%nat then fprintf 2 (line "Usage: rm files...") [] ;! Exit 1
  else until_fails SUnlink (line "rm: %s failed to delete") (drop 1 argv) ;! Exit 0.

Definition ln_main (argv : list (list Z)) : prog False :=
  match argv with
  | [_; old; new] =>
      let& r := sys (SLink old new) in
      (if r <? 0 then fprintf 2 (line "link %s %s: failed") [str old; str new] else Return tt) ;!
      Exit 0
  | _ => fprintf 2 (line "Usage: ln old new") [] ;! Exit 1
  end.

Fixpoint kill_args (args : list (list Z)) : prog unit :=
  match args with
  | [] => Return tt
  | a :: args => sys (SKill (atoi a)) ;! kill_args args
  end.
Definition kill_main (argv : list (list Z)) : prog False :=
  if (length argv <? 2)%nat then fprintf 2 (line "usage: kill pid...") [] ;! Exit 1
  else kill_args (drop 1 argv) ;! Exit 0.

(** *** ls.c, and [stat] of ulib.c *)

(** [struct stat] is the list of its fields: [dev], [ino], [type], [nlink], [size]. *)
Definition st_ino (st : list Z) : Z := byte_at st 1.
Definition st_type (st : list Z) : Z := byte_at st 2.
Definition st_size (st : list Z) : Z := byte_at st 4.

Definition stat (path : list Z) : prog answer :=
  let& fd := sys (SOpen path O_RDONLY) in
  if fd <? 0 then Return (-1, [])
  else
    let& r := Call (SFstat fd) Return in
    sys (SClose fd) ;!
    Return r.

(** The index after the last slash at or before [p]. *)
Fixpoint name_start (path : list Z) (p : nat) : nat :=
  if byte_at path p =? 47 then S p
  else match p with O => O | S p => name_start path p end.

Definition fmtname (path : list Z) : list Z :=
  let p := drop (name_start path (length path)) path in
  if DIRSIZ <=? Z.of_nat (length p) then p else p ++ replicate (Z.to_nat DIRSIZ - length p) 32.

(** The line for a file. *)
Definition ls_line (path st : list Z) : prog unit :=
  printf (line "%s %d %d %d") [str (fmtname path); PInt (st_type st); PInt (s32 (st_ino st)); PInt (s32 (st_size st))].

(** An entry [de] of the directory [path]. *)
Definition ls_entry (path de : list Z) : prog unit :=
  let buf := path ++ [47] ++ cstr (de_name de) in
  let& (r, st) := stat buf in
  if r <? 0 then printf (line "ls: cannot stat %s") [str buf] else ls_line buf st.

Fixpoint ls_dir (fuel : nat) (fd : Z) (path : list Z) : prog unit :=
  match fuel with
  | O => OutOfFuel
  | S fuel =>
      let& (n, de) := Call (SRead fd sizeof_dirent) Return in
      if n =? sizeof_dirent then
        if de_inum de =? 0 then ls_dir fuel fd path
        else ls_entry path de ;! ls_dir fuel fd path
      else Return tt
  end.

Definition ls (fuel : nat) (path : list Z) : prog unit :=
  let& fd := sys (SOpen path O_RDONLY) in
  if fd <? 0 then fprintf 2 (line "ls: cannot open %s") [str path]
  else
    let& (r, st) := Call (SFstat fd) Return in
    if r <? 0 then
      fprintf 2 (line "ls: cannot stat %s") [str path] ;!
      sys (SClose fd) ;! Return tt
    else
      (if (st_type st =? T_DEVICE) || (st_type st =? T_FILE) then ls_line path st
       else if st_type st =? T_DIR then
         if 512 <? Z.of_nat (length path) + 1 + DIRSIZ + 1 then printf (line "ls: path too long") []
         else ls_dir fuel fd path
       else Return tt) ;!
      sys (SClose fd) ;! Return tt.

Fixpoint ls_args (fuel : nat) (args : list (list Z)) : prog False :=
  match args with
  | [] => Exit 0
  | a :: args => ls fuel a ;! ls_args fuel args
  end.
Definition ls_main (fuel : nat) (argv : list (list Z)) : prog False :=
  if (length argv <? 2)%nat then ls fuel (bytes_of ".") ;! Exit 0 else ls_args fuel (drop 1 argv).

(** *** init.c *)

(** The inner loop: it returns when the shell has exited. *)
Fixpoint init_wait (fuel : nat) (pid : Z) : prog unit :=
  match fuel with
  | O => OutOfFuel
  | S fuel =>
      let& wpid := sys SWait in
      if wpid =? pid then Return tt
      else if wpid <? 0 then printf (line "init: wait returned an error") [] ;! Exit 1
      else init_wait fuel pid
  end.

Fixpoint init_loop (fuel : nat) : prog False :=
  match fuel with
  | O => OutOfFuel
  | S fuel =>
      printf (line "init: starting sh") [] ;!
      let& pid := sys SFork in
      if pid <? 0 then printf (line "init: fork failed") [] ;! Exit 1
      else if pid =? 0 then
        sys (SExec (bytes_of "sh") [bytes_of "sh"]) ;!
        printf (line "init: exec sh failed") [] ;! Exit 1
      else
        init_wait fuel pid ;!
        init_loop fuel
  end.

Definition init_main (fuel : nat) : prog False :=
  let console := bytes_of "console" in
  let& fd := sys (SOpen console O_RDWR) in
  (if fd <? 0 then sys (SMknod console CONSOLE 0) ;! sys (SOpen console O_RDWR) ;! Return tt else Return tt) ;!
  sys (SDup 0) ;!
  sys (SDup 0) ;!
  init_loop fuel.
