(* ===== verification/ProgSpec.v ===== *)
(** * What the user programs do

    The programs of Programs.v run in a process with its three standard
    descriptors, as the shell starts them: what they write, where, and how they end. *)

From S2P Require Import Prelude Kernel Str SysFile Ulib Printf Grep Sh Usys ShRun Fs Console Programs.

#[local] Opaque vprintf fprintf.

(** ** Descriptors *)

(** The lowest free descriptor of Usys.v is the one the kernel's [fdalloc] takes. *)
Lemma lowest_free_fd (addr : fdesc -> Z) fds : (forall f, addr f <> 0) ->
  free_fd (from_option addr 0 <$> fds) 0 = from_option Z.of_nat (-1) (lowest fds).
Proof.
  intros Ha. enough (forall n, 0 <= n -> free_fd (from_option addr 0 <$> fds) n = from_option (fun k => n + Z.of_nat k) (-1) (lowest fds)) as E.
  { rewrite E by done. by destruct (lowest fds). }
  induction fds as [|[f|] fds IH]; intros n Hn; cbn; [done| |by rewrite Z.add_0_r].
  rewrite (proj2 (Z.eqb_neq _ _) (Ha f)), IH by lia. destruct (lowest fds); cbn; [lia|done].
Qed.

(** ** Output *)

(** The tree of a process that writes the pieces [cs] to [o] and goes on as [t]. *)
Fixpoint outs (o : fdesc) (cs : list (list Z)) (t : ptree) : ptree :=
  match cs with [] => t | c :: cs => TWrite (Some o) c (outs o cs t) end.

(** The bytes [bs] are written, in any pieces. *)
Definition writes (t : ptree) (o : fdesc) (bs : list Z) (t' : ptree) : Prop := exists cs, mjoin cs = bs /\ t = outs o cs t'.

Lemma outs_app o cs1 cs2 t : outs o (cs1 ++ cs2) t = outs o cs1 (outs o cs2 t).
Proof. induction cs1 as [|c cs1 IH]; [done|]. cbn. by rewrite IH. Qed.

Lemma writes_nil t o : writes t o [] t.
Proof. by exists []. Qed.
Lemma writes_trans t1 t2 t3 o bs1 bs2 : writes t1 o bs1 t2 -> writes t2 o bs2 t3 -> writes t1 o (bs1 ++ bs2) t3.
Proof. intros (cs1 & <- & ->) (cs2 & <- & ->). exists (cs1 ++ cs2). by rewrite join_app, outs_app. Qed.
Lemma writes_put o bs t : writes (put (Some o) bs t) o bs t.
Proof.
  induction bs as [|b bs IH]; [apply writes_nil|]. apply (writes_trans _ (put (Some o) bs t) _ _ [b]); [|done].
  by exists [[b]].
Qed.

(** The bytes before the first element that fails, and that element. *)
Fixpoint span {A} (f : A -> bool) (l : list A) : list A * option A :=
  match l with
  | [] => ([], None)
  | a :: l => if f a then (a :: (span f l).1, (span f l).2) else ([], Some a)
  end.

Section emits.
Context `{Os}.

(** A program that writes [bs] to [o] and returns [a], whatever follows. *)
Definition emits {A} (p : prog A) (o : fdesc) (u : uproc) (bs : list Z) (a : A) (u' : uproc) : Prop :=
  forall B (k : A -> prog B), writes (run (pbind p k) u) o bs (run (k a) u').

Lemma emits_ret {A} (a : A) o u : emits (Return a) o u [] a u.
Proof. intros B k. apply writes_nil. Qed.

Lemma emits_bind {A B} (p : prog A) (q : A -> prog B) o u bs1 a u1 bs2 b u2 :
  emits p o u bs1 a u1 -> emits (q a) o u1 bs2 b u2 -> emits (pbind p q) o u (bs1 ++ bs2) b u2.
Proof. intros Hp Hq C k. rewrite pbind_assoc. eapply writes_trans; [apply Hp|apply Hq]. Qed.

(** The first part writes nothing, or the second. *)
Lemma emits_quiet {A B} (p : prog A) (q : A -> prog B) o u a u1 bs b u2 :
  emits p o u [] a u1 -> emits (q a) o u1 bs b u2 -> emits (pbind p q) o u bs b u2.
Proof. apply (emits_bind p q o u []). Qed.
Lemma emits_last {A B} (p : prog A) (q : A -> prog B) o u a u1 bs b u2 :
  emits p o u bs a u1 -> emits (q a) o u1 [] b u2 -> emits (pbind p q) o u bs b u2.
Proof. intros Hp Hq. rewrite <- (app_nil_r bs). by eapply emits_bind. Qed.

Lemma emits_fprintf fd fmt args u o : fd_get (u_fds u) fd = Some o ->
  emits (fprintf fd fmt args) o u (vprintf udigits uputc fmt args) tt u.
Proof. intros Ho B k. rewrite run_fprintf, Ho. apply writes_put. Qed.

Lemma emits_write fd bs u o : fd_get (u_fds u) fd = Some o ->
  emits (sys (SWrite fd bs)) o u bs (os_write (u_id u) o bs) u.
Proof. intros Ho B k. exists [bs]. cbn. unfold do_write. rewrite Ho. by rewrite app_nil_r. Qed.

(** A process that has only read from [f]. *)
Definition read_on (f : fdesc) (u u' : uproc) : Prop :=
  u_id u' = u_id u /\ u_opens u' = u_opens u /\ u_fds u' = u_fds u /\ u_done u' = u_done u /\
  forall g, g <> f -> u_rd u' g = u_rd u g.

Lemma read_on_refl f u : read_on f u u.
Proof. by split_and!. Qed.
Lemma read_on_set f l u u' : read_on f (set_rd f l u) u' -> read_on f u u'.
Proof.
  intros (? & ? & ? & ? & Hg). split_and!; try done. intros g Hne. rewrite Hg by done. cbn. by rewrite decide_False.
Qed.

Lemma emits_read_end fd n f u o : fd_get (u_fds u) fd = Some f -> u_rd u f = [] ->
  emits (Call (SRead fd n) Return) o u [] (0, []) (set_rd f [] u).
Proof. intros Hf E B k. cbn [pbind run]. unfold do_read. rewrite Hf, E. apply writes_nil. Qed.

(** A read before the end returns some of the bytes. *)
Lemma emits_read fd n f u o : fd_get (u_fds u) fd = Some f -> u_rd u f <> [] -> 0 < n ->
  exists k, (0 < k <= length (u_rd u f))%nat /\ Z.of_nat k <= n /\ k = os_chunk (Z.to_nat n) (u_rd u f) /\
    emits (Call (SRead fd n) Return) o u [] (Z.of_nat k, take k (u_rd u f)) (set_rd f (drop k (u_rd u f)) u).
Proof.
  intros Hf E Hn. exists (os_chunk (Z.to_nat n) (u_rd u f)).
  pose proof (os_chunk_ok (Z.to_nat n) (u_rd u f) ltac:(lia) E) as [Hk1 Hk2]. split_and!; try done; try lia.
  intros B k. cbn [pbind run]. unfold do_read. rewrite Hf, (bool_decide_eq_false_2 _ E).
  replace (n <=? 0) with false by lia. apply writes_nil.
Qed.

Lemma emits_cut {A} (p : prog A) o u l k a u' : emits p o u (take k l ++ drop k l) a u' -> emits p o u l a u'.
Proof. by rewrite take_drop. Qed.

(** The loops that read a file to its end, whatever pieces the reads return. *)
Lemma cat_emits fuel : forall fd f u o, fd_get (u_fds u) fd = Some f -> fd_get (u_fds u) 1 = Some o ->
  (forall bs, os_write (u_id u) o bs = Z.of_nat (length bs)) -> (length (u_rd u f) < fuel)%nat ->
  exists u', emits (cat fuel fd) o u (u_rd u f) tt u' /\ read_on f u u'.
Proof.
  induction fuel as [|fuel IH]; intros fd f u o Hf Ho Hw Hl; [lia|]. cbn [cat].
  destruct (decide (u_rd u f = [])) as [E|E].
  { exists (set_rd f [] u). rewrite E. split; [|eapply read_on_set, read_on_refl].
    eapply emits_quiet; [by apply emits_read_end|]. apply emits_ret. }
  destruct (emits_read fd 512 f u o Hf E ltac:(lia)) as (k & Hk & _ & _ & Hread).
  destruct (IH fd f (set_rd f (drop k (u_rd u f)) u) o) as (u' & He & Hr); [done..| |].
  { rewrite set_rd_same, length_drop. lia. }
  exists u'. split; [|by eapply read_on_set]. apply (emits_cut _ _ _ _ k). eapply emits_quiet; [done|]. cbv beta iota.
  replace (0 <? Z.of_nat k) with true by lia.
  eapply emits_bind; [by apply emits_write|]. cbn [u_id set_rd]. rewrite Hw, length_take, Nat.min_l by lia.
  rewrite Z.eqb_refl. cbn [negb]. by rewrite set_rd_same in He.
Qed.

Lemma wc_emits fuel : forall fd f u o s, fd_get (u_fds u) fd = Some f -> (length (u_rd u f) < fuel)%nat ->
  exists u', emits (wc_loop fuel fd s) o u [] (foldl wc_byte s (u_rd u f)) u' /\ read_on f u u'.
Proof.
  induction fuel as [|fuel IH]; intros fd f u o s Hf Hl; [lia|]. cbn [wc_loop].
  destruct (decide (u_rd u f = [])) as [E|E].
  { exists (set_rd f [] u). rewrite E. split; [|eapply read_on_set, read_on_refl].
    eapply emits_quiet; [by apply emits_read_end|]. apply emits_ret. }
  destruct (emits_read fd 512 f u o Hf E ltac:(lia)) as (k & Hk & _ & _ & Hread).
  destruct (IH fd f (set_rd f (drop k (u_rd u f)) u) o (foldl wc_byte s (take k (u_rd u f)))) as (u' & He & Hr); [done|..].
  { rewrite set_rd_same, length_drop. lia. }
  exists u'. split; [|by eapply read_on_set]. eapply emits_quiet; [done|]. cbv beta iota.
  replace (0 <? Z.of_nat k) with true by lia. rewrite set_rd_same, <- foldl_app, take_drop in He. done.
Qed.

(** What a read of a descriptor does, as a function of the bytes left. *)
Definition os_read (n : nat) (l : list Z) : list Z * list Z :=
  let k := if bool_decide (l = []) || (n =? 0)%nat then O else os_chunk n l in (take k l, drop k l).

Lemma os_read_part n l : l = (os_read n l).1 ++ (os_read n l).2 /\ (length (os_read n l).1 <= n)%nat.
Proof.
  unfold os_read. cbn [fst snd]. split; [by rewrite take_drop|]. rewrite length_take. case_bool_decide; cbn; [lia|].
  destruct n as [|n]; [cbn; lia|]. pose proof (os_chunk_ok (S n) l ltac:(lia) ltac:(done)). cbn. lia.
Qed.
Lemma os_read_some n l : (0 < n)%nat -> l <> [] -> (os_read n l).1 <> [].
Proof.
  intros Hn Hl. unfold os_read. rewrite bool_decide_eq_false_2 by done. rewrite (proj2 (Nat.eqb_neq n 0)) by lia. cbn [orb fst].
  pose proof (os_chunk_ok n l Hn Hl). intros E. apply (f_equal length) in E. rewrite length_take in E. cbn in E. lia.
Qed.

Lemma emits_os_read fd n f u o : fd_get (u_fds u) fd = Some f ->
  emits (Call (SRead fd (Z.of_nat n)) Return) o u [] (Z.of_nat (length (os_read n (u_rd u f)).1), (os_read n (u_rd u f)).1)
    (set_rd f (os_read n (u_rd u f)).2 u).
Proof.
  intros Hf B k. cbn [pbind run]. unfold do_read, os_read. rewrite Hf, Nat2Z.id. cbn [fst snd].
  replace (Z.of_nat n <=? 0) with (n =? 0)%nat by (by destruct n). set (j := if _ || _ then _ else _).
  assert (j <= length (u_rd u f))%nat as Hj.
  { unfold j. case_bool_decide as E; cbn; [lia|]. destruct n as [|n]; [cbn; lia|].
    pose proof (os_chunk_ok (S n) (u_rd u f) ltac:(lia) E). cbn. lia. }
  rewrite length_take, Nat.min_l by done. apply writes_nil.
Qed.

Lemma grep_buf_emits pattern fuel : forall p u o, fd_get (u_fds u) 1 = Some o ->
  emits (grep_buf pattern fuel p) o u (grep_lines pattern fuel p).1 (grep_lines pattern fuel p).2 u.
Proof.
  induction fuel as [|fuel IH]; intros p u o Ho; cbn [grep_buf grep_lines]; [apply emits_ret|].
  destruct (strchr p 10) as [q|]; [|apply emits_ret]. specialize (IH (drop (q + 1) p) u o Ho).
  destruct (grep_lines pattern fuel (drop (q + 1) p)) as [rest p']. cbn [fst snd] in *.
  eapply emits_bind; [|done]. destruct (match_re _ _); [|apply emits_ret].
  eapply emits_last; [by apply emits_write|apply emits_ret].
Qed.

Lemma grep_emits pattern fuel : forall m fd f u o, fd_get (u_fds u) fd = Some f -> fd_get (u_fds u) 1 = Some o ->
  (length (u_rd u f) < fuel)%nat ->
  exists u', emits (grep_fd pattern fuel m fd) o u (grep pattern os_read fuel m (u_rd u f)) tt u' /\ read_on f u u'.
Proof.
  induction fuel as [|fuel IH]; intros m fd f u o Hf Ho Hl; [lia|]. cbn [grep_fd grep].
  pose proof (emits_os_read fd (BUFSZ - length m - 1) f u o Hf) as Hr.
  destruct (os_read_part (BUFSZ - length m - 1) (u_rd u f)) as [Hp _].
  destruct (os_read _ (u_rd u f)) as [chunk rest] eqn:E. cbn [fst snd] in *. destruct chunk as [|c chunk]; cbn [is_nil].
  { eexists. split; [|eapply read_on_set, read_on_refl]. eapply emits_quiet; [done|]. apply emits_ret. }
  set (p := m ++ c :: chunk). pose proof (grep_buf_emits pattern (S (length p)) p (set_rd f rest u) o Ho) as Hb.
  destruct (grep_lines pattern (S (length p)) p) as [out m'] eqn:Eg. cbn [fst snd] in Hb.
  destruct (IH m' fd f (set_rd f rest u) o) as (u' & He & Hro); [done..| |].
  { rewrite set_rd_same. rewrite Hp, length_app in Hl. cbn in Hl. lia. }
  rewrite set_rd_same in He. exists u'. split; [|by eapply read_on_set]. eapply emits_quiet; [done|]. cbv beta iota zeta.
  change (0 <? Z.of_nat (length (c :: chunk))) with true. cbv iota. eapply emits_bind; [done|]. done.
Qed.
End emits.

(** ** Programs that are given files *)

Section files.
Context `{Os} (fd : Z) (fmt : list Z) (body : Z -> list Z -> prog unit) (out file : list Z -> list Z) (i o e d : fdesc).

(** The table while a file is open. *)
Definition with_file (f : fdesc) : fdtable := <[3%nat := Some f]> (std i o e).

Hypothesis message : fd_get (std i o e) fd = Some d.

Lemma run_open_file {A} p (k : Z -> prog A) u : u_fds u = std i o e ->
  run (pbind (sys (SOpen p O_RDONLY)) k) u =
  if os_open (u_id u) (u_done u) p O_RDONLY then
    run (k 3) (add_open (with_file (FFile p O_RDONLY (u_id u) (u_opens u))) u)
  else run (k (-1)) u.
Proof.
  destruct u as [id kids pipes opens fds rd ws dn]. cbn [u_fds u_id u_opens u_done]. intros ->. cbn [pbind sys run].
  unfold do_open. cbn [u_id u_done u_opens u_fds]. by destruct (os_open id dn p O_RDONLY).
Qed.

Lemma run_fstat_file {A} (k : answer -> prog A) u f st : u_fds u = with_file f -> os_stat f = Some st ->
  run (pbind (Call (SFstat 3) Return) k) u = run (k (0, st)) u.
Proof.
  intros Hu Hst. cbn [pbind run]. unfold do_fstat. rewrite Hu. change (fd_get (with_file f) 3) with (Some f). cbv beta iota. by rewrite Hst.
Qed.

Lemma run_close_file {A} (k : prog A) u f : u_fds u = with_file f -> run (sys (SClose 3) ;! k) u = run k (set_fds (std i o e) u).
Proof. destruct u as [id kids pipes opens fds rd ws dn]. cbn [u_fds]. by intros ->. Qed.

(** The loop over the files, where [body] writes [out] for each of them. *)
Lemma for_files_run paths : forall u,
  (forall p v f, p ∈ paths -> u_id v = u_id u -> u_fds v = with_file f -> u_rd v f = file p ->
    exists v', emits (body 3 p) o v (out p) tt v' /\ read_on f v v') ->
  u_fds u = std i o e -> (forall p n, (u_opens u <= n)%nat -> u_rd u (FFile p O_RDONLY (u_id u) n) = file p) ->
  let s := span (fun p => os_open (u_id u) (u_done u) p O_RDONLY) paths in
  writes (run (for_files (fun p => fprintf fd fmt [str p]) body paths) u) o (mjoin (out <$> s.1))
    (match s.2 with None => TExit 0 | Some p => say d fmt [str p] (TExit 1) end).
Proof.
  induction paths as [|p paths IH]; intros u Hb Hu Hrd; [apply writes_nil|]. cbn [for_files span].
  rewrite run_open_file by done. destruct (os_open _ _ p _); cbn [fst snd].
  2:{ cbn [Z.ltb Z.compare]. rewrite run_fprintf, Hu, message. apply writes_nil. }
  cbn [Z.ltb Z.compare fmap list_fmap mjoin list_join]. set (f := FFile p O_RDONLY (u_id u) (u_opens u)).
  destruct (Hb p (add_open (with_file f) u) f) as (u' & He & (Hid & Hop & Hf & Hd & Hg)); [set_solver|done|done|by apply Hrd|].
  eapply writes_trans; [apply He|]. cbv beta. rewrite (run_close_file _ _ f) by done.
  set (u2 := set_fds _ u'). replace (u_id u) with (u_id u2) by done. replace (u_done u) with (u_done u2) by done.
  apply IH; [|done|].
  - intros q v g Hq Hv. apply Hb; [set_solver|]. rewrite Hv. exact Hid.
  - intros q n Hn. change (u_rd u2) with (u_rd u'). change (u_id u2) with (u_id u'). change (u_opens u2) with (u_opens u') in Hn.
    rewrite Hop in Hn. cbn in Hn. rewrite Hid. cbn [u_id add_open]. rewrite Hg; [apply Hrd; lia|]. unfold f. intros [=]. lia.
Qed.
End files.

(** ** Counting *)

(** The words of a text: its longest runs of other characters than blanks. *)
Fixpoint wc_words (text : list Z) : list (list Z) :=
  match text with
  | [] => []
  | b :: rest =>
      if wc_blank b then wc_words rest
      else match rest with
           | b' :: _ => if wc_blank b' then [b] :: wc_words rest
                        else match wc_words rest with w :: ws => (b :: w) :: ws | [] => [[b]] end
           | [] => [[b]]
           end
  end.
Definition newlines (text : list Z) : nat := length (filter (fun b => b = 10) text).

(** A word goes on in the text. *)
Definition goes_on (inword : bool) (text : list Z) : nat :=
  match text with b :: _ => if inword && negb (wc_blank b) then 1 else 0 | [] => 0 end%nat.

Lemma wc_words_nonempty b rest : wc_blank b = false -> wc_words (b :: rest) <> [].
Proof. intros Hb. cbn. rewrite Hb. repeat case_match; done. Qed.

Lemma wc_words_cons b rest : length (wc_words (b :: rest)) =
  if wc_blank b then length (wc_words rest) else (S (length (wc_words rest)) - goes_on true rest)%nat.
Proof.
  cbn [wc_words]. destruct (wc_blank b) eqn:Eb; [done|]. destruct rest as [|b' rest]; [done|]. cbn [goes_on].
  destruct (wc_blank b') eqn:Eb'; cbn [andb negb]; [cbn [length]; lia|].
  pose proof (wc_words_nonempty b' rest Eb') as Hne. destruct (wc_words (b' :: rest)); [done|]. cbn [length]. lia.
Qed.

Lemma goes_on_le inword text : (goes_on inword text <= length (wc_words text))%nat.
Proof.
  destruct text as [|b rest]; [done|]. unfold goes_on. destruct inword, (wc_blank b) eqn:Eb; cbn [andb negb]; try lia.
  pose proof (wc_words_nonempty b rest Eb). destruct (wc_words (b :: rest)); [done|]. cbn. lia.
Qed.

Lemma wc_counts text : forall l w c inword, 0 <= l -> 0 <= w -> 0 <= c ->
  Z.max l (Z.max w c) + Z.of_nat (length text) < 2 ^ 31 ->
  let s := foldl wc_byte (l, w, c, inword) text in
  s.1 = (l + Z.of_nat (newlines text), w + Z.of_nat (length (wc_words text) - goes_on inword text), c + Z.of_nat (length text)).
Proof.
  induction text as [|b text IH]; intros l w c inword Hl Hw Hc Hm; [cbn; repeat f_equal; lia|]. cbn [length] in Hm.
  cbn [foldl wc_byte]. rewrite !s32_small by lia.
  assert (newlines (b :: text) = (if (b =? 10)%Z then S (newlines text) else newlines text)) as ->.
  { unfold newlines. rewrite filter_cons. destruct (Z.eqb_spec b 10); [by rewrite decide_True|by rewrite decide_False]. }
  set (l' := if b =? 10 then l + 1 else l). assert (l <= l' <= l + 1) by (unfold l'; case_match; lia).
  rewrite wc_words_cons. cbn [goes_on length]. destruct (wc_blank b) eqn:Eb; cbn [negb andb].
  - rewrite andb_false_r, IH by lia. unfold l'. assert (goes_on false text = 0%nat) as -> by (by destruct text).
    destruct (b =? 10); f_equal; [f_equal|..]; lia || (f_equal; lia).
  - pose proof (goes_on_le true text). destruct inword; cbn [negb andb]; rewrite IH by lia; unfold l'; destruct (b =? 10);
      repeat match goal with |- (_, _) = (_, _) => f_equal end; lia.
Qed.

(** ** Listing a directory *)

Definition padded (name : list Z) : list Z := name ++ replicate (Z.to_nat DIRSIZ - length name) 32.

Lemma name_start_slash a b : 47 ∉ b -> forall j, (j <= length b)%nat -> name_start (a ++ 47 :: b) (length a + S j) = S (length a).
Proof.
  intros Hb. induction j as [|j IH]; intros Hj.
  - rewrite Nat.add_1_r. cbn [name_start]. assert (byte_at (a ++ 47 :: b) (S (length a)) =? 47 = false) as ->.
    { unfold byte_at. rewrite lookup_app_r by lia. replace (S (length a) - length a)%nat with 1%nat by lia.
      destruct b as [|c b]; [done|]. cbn. apply Z.eqb_neq. set_solver. }
    destruct (length a) eqn:El; cbn [name_start]; unfold byte_at; rewrite lookup_app_r by lia; by rewrite <- ?El, Nat.sub_diag.
  - replace (length a + S (S j))%nat with (S (length a + S j)) by lia. cbn [name_start].
    assert (byte_at (a ++ 47 :: b) (S (length a + S j)) =? 47 = false) as ->; [|apply IH; lia].
    unfold byte_at. rewrite lookup_app_r by lia. replace (S (length a + S j) - length a)%nat with (S (S j)) by lia.
    change ((47 :: b) !! S (S j)) with (b !! S j). destruct (b !! S j) as [c|] eqn:E; [|done]. apply Z.eqb_neq.
    apply list_elem_of_lookup_2 in E. cbn. by intros ->.
Qed.

(** [fmtname] shows the last part of a path, padded to the width of a name. *)
Lemma fmtname_last a b : 47 ∉ b -> fmtname (a ++ 47 :: b) = padded b.
Proof.
  intros Hb. unfold fmtname. assert (drop (name_start (a ++ 47 :: b) (length (a ++ 47 :: b))) (a ++ 47 :: b) = b) as ->.
  { rewrite length_app. cbn [length]. rewrite name_start_slash by done.
    rewrite drop_app_ge by lia. by replace (S (length a) - length a)%nat with 1%nat by lia. }
  unfold padded. case_match eqn:E; [|done]. replace (Z.to_nat DIRSIZ - length b)%nat with 0%nat by lia. by rewrite app_nil_r.
Qed.

Section ls.
Context `{Os} (info : list Z -> option (list Z)) (i o e : fdesc).

(** What [stat] answers about a path. *)
Definition stat_of (u : uproc) (q : list Z) : option (list Z) := if os_open (u_id u) (u_done u) q O_RDONLY then info q else None.
Definition ls_text (name st : list Z) : list Z :=
  vprintf udigits uputc (line "%s %d %d %d") [str name; PInt (st_type st); PInt (s32 (st_ino st)); PInt (s32 (st_size st))].

(** The line for a directory entry. *)
Definition entry_text (u : uproc) (path de : list Z) : list Z :=
  if de_inum de =? 0 then []
  else
    let name := cstr (de_name de) in
    let q := path ++ 47 :: name in
    match stat_of u q with
    | Some st => ls_text (padded name) st
    | None => vprintf udigits uputc (line "ls: cannot stat %s") [str q]
    end.

Definition same_dir (f : fdesc) (u u' : uproc) : Prop :=
  u_id u' = u_id u /\ u_fds u' = u_fds u /\ u_done u' = u_done u /\ u_rd u' f = u_rd u f.

Hypothesis info_ok : forall p id n, os_stat (FFile p O_RDONLY id n) = info p.

Lemma run_open_entry {A} q (k : Z -> prog A) u f : u_fds u = with_file i o e f ->
  run (pbind (sys (SOpen q O_RDONLY)) k) u =
  if os_open (u_id u) (u_done u) q O_RDONLY then
    run (k 4) (add_open (<[4%nat := Some (FFile q O_RDONLY (u_id u) (u_opens u))]> (with_file i o e f)) u)
  else run (k (-1)) u.
Proof.
  destruct u as [id kids pipes opens fds rd ws dn]. cbn [u_fds u_id u_opens u_done]. intros ->. cbn [pbind sys run].
  unfold do_open. cbn [u_id u_done u_opens u_fds]. by destruct (os_open id dn q O_RDONLY).
Qed.

Lemma run_stat_close {A} (k : answer -> prog A) u f g : u_fds u = <[4%nat := Some g]> (with_file i o e f) ->
  run (let& r := Call (SFstat 4) Return in sys (SClose 4) ;! k r) u =
  run (k (match os_stat g with Some st => (0, st) | None => (-1, []) end)) (set_fds (with_file i o e f) u).
Proof.
  destruct u as [id kids pipes opens fds rd ws dn]. cbn [u_fds]. intros ->. cbn [pbind sys run]. unfold do_fstat.
  cbn [u_fds]. change (fd_get (<[4%nat := Some g]> (with_file i o e f)) 4) with (Some g). cbv iota. by destruct (os_stat g).
Qed.

Lemma emits_stat q u f : u_fds u = with_file i o e f ->
  exists u', emits (stat q) o u [] (match stat_of u q with Some st => (0, st) | None => (-1, []) end) u' /\ same_dir f u u'.
Proof.
  intros Hu. unfold stat_of. destruct (os_open _ _ q _) eqn:E.
  - set (g := FFile q O_RDONLY (u_id u) (u_opens u)). set (u1 := add_open (<[4%nat := Some g]> (with_file i o e f)) u).
    exists (set_fds (with_file i o e f) u1). split; [intros B k|].
    + unfold stat. rewrite pbind_assoc, (run_open_entry _ _ _ f Hu), E. cbn [Z.ltb Z.compare]. fold g u1. rewrite pbind_assoc.
      rewrite <- (info_ok q (u_id u) (u_opens u)). fold g.
      rewrite <- (run_stat_close k u1 f g) by done. apply writes_nil.
    + by split_and!.
  - exists u. split; [intros B k|by split_and!]. unfold stat. rewrite pbind_assoc, (run_open_entry _ _ _ f Hu), E. apply writes_nil.
Qed.

Lemma emits_entry path de u f : u_fds u = with_file i o e f -> 47 ∉ cstr (de_name de) -> de_inum de <> 0 ->
  exists u', same_dir f u u' /\
    emits (ls_entry path de) o u (entry_text u path de) tt u'.
Proof.
  intros Hu Hs Hi. set (q := path ++ [47] ++ cstr (de_name de)). destruct (emits_stat q u f Hu) as (u' & He & Hsd).
  exists u'. split; [done|]. eapply emits_quiet; [done|]. unfold entry_text. rewrite (proj2 (Z.eqb_neq _ _) Hi). cbv zeta.
  change (path ++ 47 :: cstr (de_name de)) with q. assert (fd_get (u_fds u') 1 = Some o) as Ho.
  { destruct Hsd as (_ & -> & _). by rewrite Hu. }
  destruct (stat_of u q) as [st|]; cbv beta iota; cbn [Z.ltb Z.compare].
  - unfold ls_line, ls_text. rewrite <- (fmtname_last path _ Hs). by apply emits_fprintf.
  - by apply emits_fprintf.
Qed.

Hypothesis full : forall l : list Z, (16 <= length l)%nat -> os_chunk 16 l = 16%nat.

Lemma ls_dir_emits des : forall fuel path u f, u_fds u = with_file i o e f ->
  Forall (fun de => length de = 16%nat /\ 47 ∉ cstr (de_name de)) des -> u_rd u f = mjoin des -> (length des < fuel)%nat ->
  exists u', emits (ls_dir fuel 3 path) o u (mjoin (entry_text u path <$> des)) tt u' /\ u_fds u' = u_fds u.
Proof.
  induction des as [|de des IH]; intros [|fuel] path u f Hu Hok Hrd Hf; try (cbn in Hf; lia); cbn [ls_dir].
  { exists (set_rd f [] u). split; [|done]. eapply emits_quiet; [apply emits_read_end; [by rewrite Hu|done]|]. apply emits_ret. }
  apply Forall_cons in Hok as [[Hlen Hs] Hok]. cbn [fmap list_fmap mjoin list_join] in *. cbn in Hf.
  assert (u_rd u f <> []) as Hne by (rewrite Hrd; destruct de; done).
  destruct (emits_read 3 sizeof_dirent f u o ltac:(by rewrite Hu) Hne ltac:(done)) as (k & _ & _ & Ek & Hread).
  rewrite Hrd in Ek, Hread. change (Z.to_nat sizeof_dirent) with 16%nat in Ek. rewrite full in Ek by (rewrite length_app; lia).
  subst k. rewrite <- Hlen, take_app_length, drop_app_length in Hread. rewrite Hlen in Hread. set (u1 := set_rd f (mjoin des) u) in *.
  assert (u_rd u1 f = mjoin des) as Hr1 by apply set_rd_same. assert (u_fds u1 = with_file i o e f) as Hu1 by done.
  change (entry_text u) with (entry_text u1). assert (length des < fuel)%nat as Hf' by lia.
  destruct (Z.eqb_spec (de_inum de) 0) as [Hi|Hi].
  - destruct (IH fuel path u1 f Hu1 Hok Hr1 Hf') as (u' & He & Hfd). exists u'. split; [|done].
    eapply emits_quiet; [done|]. cbv beta iota. change (Z.of_nat 16 =? sizeof_dirent) with true. cbv iota.
    unfold entry_text at 1. by rewrite Hi.
  - destruct (emits_entry path de u1 f Hu1 Hs Hi) as (u2 & (Hid & Hfd2 & Hd2 & Hr2) & He2).
    destruct (IH fuel path u2 f) as (u' & He & Hfd); [by rewrite Hfd2|done|by rewrite Hr2|done|].
    assert (entry_text u2 path = entry_text u1 path) as Eu by (unfold entry_text, stat_of; by rewrite Hid, Hd2). rewrite Eu in He.
    exists u'. split; [|by rewrite Hfd, Hfd2]. eapply emits_quiet; [done|]. cbv beta iota. change (Z.of_nat 16 =? sizeof_dirent) with true.
    cbv iota. rewrite (proj2 (Z.eqb_neq _ _) Hi). eapply emits_bind; [exact He2|exact He].
Qed.
End ls.

(** ** The first program *)

Section init.
Context `{Os}.

(** The processes [init] should start: the shell on the terminal [t], and again
    each time it exits; in each round, [wait] returns some orphans first. *)
Definition sh_on (t : fdesc) (id : procid) : ptree :=
  if os_exec id (bytes_of "sh") then TExec (bytes_of "sh") [bytes_of "sh"] (std t t t)
  else say t (line "init: exec sh failed") [] (TExit 1).
Fixpoint init_rounds (t : fdesc) (id : procid) (kids : nat) (rounds : list (list Z)) : ptree :=
  say t (line "init: starting sh") []
    (TFork (sh_on t (id ++ [kids]))
       match rounds with
       | [] => TWait (std t t t) (say t (line "init: wait returned an error") [] (TExit 1))
       | orphans :: rounds => Nat.iter (S (length orphans)) (TWait (std t t t)) (init_rounds t id (S kids) rounds)
       end).

(** What [wait] returns in these rounds. *)
Fixpoint init_waits (id : procid) (kids : nat) (rounds : list (list Z)) : list Z :=
  match rounds with
  | [] => []
  | orphans :: rounds => orphans ++ os_pid (id ++ [kids]) :: init_waits id (S kids) rounds
  end.

(** A process that is no child of [id]. *)
Definition orphan (id : procid) (w : Z) : Prop := 0 <= w /\ forall k, w <> os_pid (id ++ [k]).

Lemma run_init_wait {A} (k : prog A) orphans : forall fuel pid u rest, Forall (fun w => 0 <= w /\ w <> pid) orphans ->
  u_waits u = orphans ++ pid :: rest -> (length orphans < fuel)%nat ->
  exists u', run (init_wait fuel pid ;! k) u = Nat.iter (S (length orphans)) (TWait (u_fds u)) (run k u') /\
    u_waits u' = rest /\ u_id u' = u_id u /\ u_kids u' = u_kids u /\ u_fds u' = u_fds u.
Proof.
  induction orphans as [|w orphans IH]; intros [|fuel] pid u rest Ho Hw Hf; try (cbn in Hf; lia); cbn [init_wait].
  - exists (next_wait u). rewrite pbind_assoc. cbn [pbind sys run fst]. rewrite Hw. cbn. by rewrite Z.eqb_refl, Hw.
  - apply Forall_cons in Ho as [[H0 Hne] Ho]. destruct (IH fuel pid (next_wait u) rest Ho) as (u' & R & Hr); [by cbn; rewrite Hw|cbn in Hf; lia|].
    exists u'. split; [|done]. rewrite pbind_assoc. cbn [pbind sys run fst]. rewrite Hw. cbn [head app default from_option id].
    rewrite (proj2 (Z.eqb_neq _ _) Hne). replace (w <? 0) with false by lia. rewrite R. done.
Qed.

Lemma run_init_error {A} (k : prog A) fuel pid u t : 0 < pid -> u_fds u = std t t t -> u_waits u = [] ->
  run (init_wait (S fuel) pid ;! k) u = TWait (std t t t) (say t (line "init: wait returned an error") [] (TExit 1)).
Proof.
  intros Hp Hu Hw. cbn [init_wait]. rewrite pbind_assoc. cbn [pbind sys run fst]. rewrite Hw, Hu. cbn [head default from_option id].
  replace (-1 =? pid) with false by lia. cbn [Z.ltb Z.compare]. f_equal. rewrite pbind_assoc. unfold printf. rewrite run_fprintf.
  change (u_fds (next_wait u)) with (u_fds u). by rewrite Hu.
Qed.

Lemma run_init_round fuel u t : u_fds u = std t t t -> os_fork (u_id u) (u_kids u) = true ->
  run (init_loop (S fuel)) u = say t (line "init: starting sh") []
    (TFork (sh_on t (u_id u ++ [u_kids u])) (run (init_wait fuel (os_pid (u_id u ++ [u_kids u])) ;! init_loop fuel) (after_fork u))).
Proof.
  intros Hu Hf. cbn [init_loop]. unfold printf at 1. rewrite run_fprintf, Hu. change (fd_get (std t t t) 1) with (Some t).
  unfold say at 1. f_equal. cbn [pbind sys run fst]. rewrite Hf. cbn [Z.ltb Z.compare Z.eqb]. f_equal.
  - unfold sh_on. cbn [pbind sys run]. change (u_id (child_of u)) with (u_id u ++ [u_kids u]).
    change (u_fds (child_of u)) with (u_fds u). rewrite Hu. destruct (os_exec _ _); [done|].
    unfold printf. rewrite run_fprintf. change (u_fds (child_of u)) with (u_fds u). by rewrite Hu.
  - change (u_id (child_of u)) with (u_id u ++ [u_kids u]). pose proof (os_pid_pos (u_id u ++ [u_kids u])).
    replace (_ <? 0) with false by lia. replace (_ =? 0) with false by lia. done.
Qed.

Lemma init_loop_run t rounds : forall fuel u, u_fds u = std t t t -> (forall k, os_fork (u_id u) k = true) ->
  Forall (Forall (orphan (u_id u))) rounds -> u_waits u = init_waits (u_id u) (u_kids u) rounds ->
  (length (u_waits u) + 1 < fuel)%nat -> run (init_loop fuel) u = init_rounds t (u_id u) (u_kids u) rounds.
Proof.
  induction rounds as [|orphans rounds IH]; intros [|fuel] u Hu Hfk Hok Hw Hf; try lia; cbn [init_rounds];
    rewrite (run_init_round _ _ t) by done; do 2 f_equal; cbn [init_waits] in Hw; rewrite Hw in Hf.
  - destruct fuel as [|fuel]; [cbn in Hf; lia|]. by apply run_init_error; [apply os_pid_pos|..].
  - apply Forall_cons in Hok as [Ho Hok]. rewrite length_app in Hf. cbn [length] in Hf.
    destruct (run_init_wait (init_loop fuel) orphans fuel (os_pid (u_id u ++ [u_kids u])) (after_fork u) (init_waits (u_id u) (S (u_kids u)) rounds))
      as (u' & -> & Hw' & Hid & Hk & Hfd); [|done|lia|].
    { apply (Forall_impl _ _ _ Ho). intros w [H0 Hne]. auto. }
    change (u_fds (after_fork u)) with (u_fds u) in *. change (u_id (after_fork u)) with (u_id u) in *.
    change (u_kids (after_fork u)) with (S (u_kids u)) in *. rewrite Hu. f_equal. f_equal. rewrite <- Hid, <- Hk.
    apply IH; rewrite ?Hid, ?Hk, ?Hw'; try done; [by rewrite Hfd|lia].
Qed.
End init.

(** ** Properties *)

Section properties.
Context `{Os} (i o e : fdesc).

(** The files as the process will read them. *)
Definition files_are (file : list Z -> list Z) (u : uproc) : Prop :=
  forall p n, (u_opens u <= n)%nat -> u_rd u (FFile p O_RDONLY (u_id u) n) = file p.
(** The files given that can be opened, and the first that cannot. *)
Definition openable (u : uproc) (paths : list (list Z)) : list (list Z) * option (list Z) :=
  span (fun p => os_open (u_id u) (u_done u) p O_RDONLY) paths.
Definition ending (d : fdesc) (msg : string) (bad : option (list Z)) : ptree :=
  match bad with None => TExit 0 | Some p => say d (line msg) [str p] (TExit 1) end.

(** A program with no arguments reads its standard input. *)
Lemma emits_exit (p : prog unit) u bs u' : emits p o u bs tt u' -> writes (run (A := False) (p ;! Exit 0) u) o bs (TExit 0).
Proof. intros Hp. exact (Hp False (fun _ => Exit 0)). Qed.

(** [cat] copies its standard input, or the files it is given, to its standard
    output, whatever pieces the reads return, up to the first file that cannot be
    opened. *)
Theorem cat_correct name paths file fuel u : u_fds u = std i o e -> files_are file u ->
  (forall bs, os_write (u_id u) o bs = Z.of_nat (length bs)) ->
  (length (u_rd u i) < fuel)%nat -> Forall (fun p => length (file p) < fuel)%nat paths ->
  match paths with
  | [] => writes (run (cat_main fuel [name]) u) o (u_rd u i) (TExit 0)
  | _ => writes (run (cat_main fuel (name :: paths)) u) o (mjoin (file <$> (openable u paths).1))
           (ending e "cat: cannot open %s" (openable u paths).2)
  end.
Proof.
  intros Hu Hfiles Hw Hi Hp. destruct paths as [|p paths].
  - destruct (cat_emits fuel 0 i u o) as (u' & He & _); [by rewrite Hu..|done|done|]. by apply emits_exit in He.
  - rewrite Forall_forall in Hp. apply (for_files_run 2 _ _ file file i o e e); try done.
    intros q v f Hq Hv Hf Hrd. rewrite <- Hrd. apply cat_emits; [by rewrite Hf..|by rewrite Hv|]. rewrite Hrd. by apply Hp.
Qed.

(** [echo] prints its arguments with spaces between them and a newline at the end. *)
Fixpoint echo_text (args : list (list Z)) : list Z :=
  match args with
  | [] => []
  | [a] => a ++ [10]
  | a :: args => a ++ [32] ++ echo_text args
  end.
Theorem echo_correct name args u : u_fds u = std i o e -> writes (run (echo_main (name :: args)) u) o (echo_text args) (TExit 0).
Proof.
  intros Hu. change (echo_main (name :: args)) with (echo_args args). induction args as [|a args IH]; [apply writes_nil|].
  cbn [echo_args]. assert (fd_get (u_fds u) 1 = Some o) as Ho by (by rewrite Hu).
  replace (echo_text (a :: args)) with (a ++ (if args is [] then [10] else [32]) ++ echo_text args) by (by destruct args).
  eapply writes_trans; [by apply (emits_write 1)|]. eapply writes_trans; [by apply (emits_write 1)|]. exact IH.
Qed.

(** What [wc] prints about a text. *)
Definition wc_text (name text : list Z) : list Z :=
  vprintf udigits uputc (line "%d %d %d %s")
    [PInt (Z.of_nat (newlines text)); PInt (Z.of_nat (length (wc_words text))); PInt (Z.of_nat (length text)); str name].

Lemma wc_file_emits fuel fd f u name : fd_get (u_fds u) fd = Some f -> fd_get (u_fds u) 1 = Some o ->
  (length (u_rd u f) < fuel)%nat -> Z.of_nat (length (u_rd u f)) < 2 ^ 31 ->
  exists u', emits (wc fuel fd name) o u (wc_text name (u_rd u f)) tt u' /\ read_on f u u'.
Proof.
  intros Hf Ho Hl Hm. destruct (wc_emits fuel fd f u o (0, 0, 0, false) Hf Hl) as (u' & He & Hr). exists u'. split; [|done].
  eapply emits_quiet; [done|]. pose proof (wc_counts (u_rd u f) 0 0 0 false ltac:(lia) ltac:(lia) ltac:(lia) ltac:(lia)) as E.
  cbv zeta in E. destruct (foldl wc_byte _ _) as [[[l w] c] b]. injection E as -> -> ->. unfold wc_text.
  assert (goes_on false (u_rd u f) = 0%nat) as -> by (by destruct (u_rd u f)). rewrite Nat.sub_0_r.
  apply emits_fprintf. destruct Hr as (_ & _ & -> & _). done.
Qed.

(** [wc] prints, for each file up to the first that cannot be opened, its numbers
    of newlines, of words and of bytes. *)
Theorem wc_correct name paths file fuel u : u_fds u = std i o e -> files_are file u ->
  (length (u_rd u i) < fuel)%nat -> Forall (fun p => length (file p) < fuel)%nat paths -> Z.of_nat fuel <= 2 ^ 31 ->
  match paths with
  | [] => writes (run (wc_main fuel [name]) u) o (wc_text [] (u_rd u i)) (TExit 0)
  | _ => writes (run (wc_main fuel (name :: paths)) u) o (mjoin ((fun p => wc_text p (file p)) <$> (openable u paths).1))
           (ending o "wc: cannot open %s" (openable u paths).2)
  end.
Proof.
  intros Hu Hfiles Hi Hp Hfuel. destruct paths as [|p paths].
  - destruct (wc_file_emits fuel 0 i u []) as (u' & He & _); [by rewrite Hu..|done|lia|]. by apply emits_exit in He.
  - rewrite Forall_forall in Hp. apply (for_files_run 1 _ _ (fun p => wc_text p (file p)) file i o e o); try done.
    intros q v f Hq Hv Hf Hrd. rewrite <- Hrd. pose proof (Hp q Hq). apply wc_file_emits; rewrite ?Hf, ?Hrd; try done. lia.
Qed.

(** Files that [grep] reads line by line. *)
Definition greppable (fuel : nat) (text : list Z) : Prop := 0 ∉ text /\ short text /\ (length text < fuel)%nat.

Lemma grep_file_emits pattern fuel fd f u : fd_get (u_fds u) fd = Some f -> fd_get (u_fds u) 1 = Some o ->
  greppable fuel (u_rd u f) ->
  exists u', emits (grep_fd pattern fuel [] fd) o u (printed pattern (lines [] (u_rd u f)).1) tt u' /\ read_on f u u'.
Proof.
  intros Hf Ho (H0 & Hs & Hl). rewrite <- (grep_spec pattern os_read os_read_part os_read_some fuel []); try done.
  - by apply grep_emits.
  - apply not_elem_of_nil.
Qed.


(** [ls] of a directory prints a line for each of its entries in use, with the
    padded name and what [stat] says about the file, or that it says nothing. *)
Theorem ls_correct info name path st des fuel u : u_fds u = std i o e ->
  (forall p id n, os_stat (FFile p O_RDONLY id n) = info p) -> (forall l : list Z, (16 <= length l)%nat -> os_chunk 16 l = 16%nat) ->
  os_open (u_id u) (u_done u) path O_RDONLY = true -> info path = Some st -> st_type st = T_DIR -> (length path <= 496)%nat ->
  u_rd u (FFile path O_RDONLY (u_id u) (u_opens u)) = mjoin des ->
  Forall (fun de => length de = 16%nat /\ 47 ∉ cstr (de_name de)) des -> (length des < fuel)%nat ->
  writes (run (ls_main fuel [name; path]) u) o (mjoin (entry_text info u path <$> des)) (TExit 0).
Proof.
  intros Hu Hinfo Hfull Hop Hst Hty Hlen Hrd Hok Hf. set (f := FFile path O_RDONLY (u_id u) (u_opens u)).
  set (u1 := add_open (with_file i o e f) u).
  destruct (ls_dir_emits info i o e Hinfo Hfull des fuel path u1 f) as (u' & He & Hfd); [done..|].
  change (entry_text info u) with (entry_text info u1). change (run (ls_main fuel [name; path]) u) with (run (A := False) (ls fuel path ;! Exit 0) u).
  apply (emits_exit _ _ _ (set_fds (std i o e) u')). intros B k. unfold ls. rewrite pbind_assoc, (run_open_file i o e), Hop by done. fold f u1.
  cbn [Z.ltb Z.compare]. rewrite pbind_assoc, (run_fstat_file i o e _ _ f st) by (done || by (unfold f; rewrite Hinfo)).
  cbv beta iota. cbn [Z.ltb Z.compare]. rewrite Hty. change ((T_DIR =? T_DEVICE) || (T_DIR =? T_FILE)) with false. change (T_DIR =? T_DIR) with true.
  replace (512 <? _) with false by (change DIRSIZ with 14; lia). cbv iota. rewrite pbind_assoc. rewrite <- (app_nil_r (mjoin _)).
  eapply writes_trans; [apply He|]. cbv beta. rewrite pbind_assoc, (run_close_file i o e _ u' f) by (by rewrite Hfd). apply writes_nil.
Qed.

(** The standard descriptors of [init]: the console, opened and duplicated twice. *)
Lemma init_console u fuel : u_fds u = replicate 16 None -> u_done u = [] ->
  let console := bytes_of "console" in
  let made := [SMknod console CONSOLE 0] in
  os_open (u_id u) [] console O_RDWR = true \/ os_open (u_id u) made console O_RDWR = true ->
  let t := FFile console O_RDWR (u_id u) (u_opens u) in
  exists u', run (init_main fuel) u =
      (if os_open (u_id u) [] console O_RDWR then run (init_loop fuel) u'
       else TCall (SMknod console CONSOLE 0) (run (init_loop fuel) u')) /\
    u_fds u' = std t t t /\ u_id u' = u_id u /\ u_kids u' = u_kids u /\ u_waits u' = u_waits u.
Proof.
  destruct u as [id kids pipes opens fds rd ws dn]. cbn [u_fds u_done u_id u_opens u_kids u_waits]. intros -> ->. cbv zeta.
  set (console := bytes_of "console"). intros Hop. set (t := FFile console O_RDWR id opens).
  unfold init_main. fold console. cbn [pbind sys run fst]. unfold do_open at 1 2. cbn [u_id u_done u_fds].
  destruct (os_open id [] console O_RDWR) eqn:E; [by eexists|]. destruct Hop as [|Hop]; [done|].
  change (fst (-1, [], _)) with (-1, @nil Z). cbn [fst snd Z.ltb Z.compare pbind sys run u_id u_done add_done app].
  unfold do_open. cbn [u_id u_done u_fds add_done app]. rewrite Hop. by eexists.
Qed.

(** C30: [init] keeps a shell running: started with no descriptors, [main] of init.c
    opens the console, which it first makes if it has to, and duplicates it, then
    starts the shell with exactly the console as its standard input, output and
    error; each time [wait] reports that the shell has exited it starts the next
    one, whatever orphans [wait] reports in between, for any number of rounds. It
    stops when [wait] fails. *)
Theorem init_restarts_sh rounds fuel u : u_fds u = replicate 16 None -> u_done u = [] ->
  let console := bytes_of "console" in
  let made := [SMknod console CONSOLE 0] in
  os_open (u_id u) [] console O_RDWR = true \/ os_open (u_id u) made console O_RDWR = true ->
  (forall k, os_fork (u_id u) k = true) -> Forall (Forall (orphan (u_id u))) rounds ->
  u_waits u = init_waits (u_id u) (u_kids u) rounds -> (length (u_waits u) + 1 < fuel)%nat ->
  let t := FFile console O_RDWR (u_id u) (u_opens u) in
  run (init_main fuel) u =
  (if os_open (u_id u) [] console O_RDWR then init_rounds t (u_id u) (u_kids u) rounds
   else TCall (SMknod console CONSOLE 0) (init_rounds t (u_id u) (u_kids u) rounds)).
Proof.
  intros Hu Hd console made Hop Hfk Hok Hw Hf t.
  destruct (init_console u fuel Hu Hd Hop) as (u' & -> & Hu' & Hid & Hk & Hws). fold console t in Hu'. rewrite <- Hid, <- Hk in *.
  by rewrite (init_loop_run t rounds) by (done || by rewrite Hws).
Qed.
End properties.

(** ** Examples *)

(** A process that reads two files, and [init] with an orphan. *)
Definition demo_reader : uproc :=
  mkU [0%nat] 0 0 0 (std demo_tty demo_tty demo_tty)
    (fun f => match f with FFile p _ [0%nat] _ => if decide (p = bytes_of "a") then line "xay" ++ line "b" else [] | _ => [] end) [] [].
Definition demo_file (p : list Z) : list Z := if decide (p = bytes_of "a") then line "xay" ++ line "b" else [].
Definition demo_init : uproc := mkU [] 0 0 0 (replicate 16 None) (fun _ => []) [7; 2] [].

Lemma greppable_small text : (length text < 100)%nat -> 0 ∉ text -> greppable 100 text.
Proof.
  intros Hl H0. split_and!; [done| |done]. intros a b c -> _. rewrite !length_app in Hl. unfold BUFSZ. lia.
Qed.


Lemma init_restarts_sh_witness :
  @run demo_os _ (init_main 10) demo_init = @init_rounds demo_os demo_tty [] 0 [[7]].
Proof.
  apply (@init_restarts_sh demo_os [[7]] 10 demo_init); try done; [by left| |cbn; lia].
  repeat apply Forall_cons_2; try apply Forall_nil_2. split; [lia|]. intros k. cbn. lia.
Defined.
