(* ===== verification/Boot.v ===== *)
(** * Booting

    kernel/start.c, the kernel page table of kernel/vm.c ([kvmmake], [kvminit],
    [kvminithart]) and the initialisation of kernel/virtio_disk.c. The
    addresses the linker gives ([etext], [main]) are arguments. *)

From S2P Require Import Prelude Riscv Kernel Kmem Swap Walk Replace Elf Vm Proc Trap File Console.

(** ** Definitions *)

(** *** kernel/start.c *)

Definition MSTATUS_MPP_MASK : Z := Z.shiftl 3 11.
Definition MSTATUS_MPP_S : Z := Z.shiftl 1 11.
Definition SIE_SEIE : Z := Z.shiftl 1 9.
Definition SIE_STIE : Z := Z.shiftl 1 5.
Definition MIE_STIE : Z := Z.shiftl 1 5.

(** The machine-mode registers of a hart. *)
Record mcsr := mkM {
  m_mstatus : Z; m_mepc : Z; m_satp : Z; m_medeleg : Z; m_mideleg : Z; m_sie : Z;
  m_pmpaddr0 : Z; m_pmpcfg0 : Z; m_mie : Z; m_menvcfg : Z; m_mcounteren : Z;
  m_stimecmp : Z; m_time : Z; m_mhartid : Z; m_tp : Z
}.

Definition timerinit (c : mcsr) : mcsr :=
  mkM (m_mstatus c) (m_mepc c) (m_satp c) (m_medeleg c) (m_mideleg c) (m_sie c) (m_pmpaddr0 c) (m_pmpcfg0 c)
    (Z.lor (m_mie c) MIE_STIE) (Z.lor (m_menvcfg c) (Z.shiftl 1 63)) (Z.lor (m_mcounteren c) 2)
    (u64 (m_time c + 1000000)) (m_time c) (m_mhartid c) (m_tp c).

(** [start] up to its [mret]. *)
Definition start (main : Z) (c : mcsr) : mcsr :=
  let x := m_mstatus c in
  let x := Z.land x (Z.lnot MSTATUS_MPP_MASK) in
  let x := Z.lor x MSTATUS_MPP_S in
  let c := mkM x main 0 0xffff 0xffff (Z.lor (Z.lor (m_sie c) SIE_SEIE) SIE_STIE) 0x3fffffffffffff 0xf
             (m_mie c) (m_menvcfg c) (m_mcounteren c) (m_stimecmp c) (m_time c) (m_mhartid c) (m_tp c) in
  let c := timerinit c in
  mkM (m_mstatus c) (m_mepc c) (m_satp c) (m_medeleg c) (m_mideleg c) (m_sie c) (m_pmpaddr0 c) (m_pmpcfg0 c)
    (m_mie c) (m_menvcfg c) (m_mcounteren c) (m_stimecmp c) (m_time c) (m_mhartid c) (m_mhartid c).

(** *** The kernel page table *)

(** The direct mappings of [kvmmake], in its order: virtual address, physical
    address, size and permissions. *)
Definition kvm_maps (etext tramp : Z) : list (Z * Z * Z * Z) := [
  (UART0, UART0, PGSIZE, Z.lor PTE_R PTE_W);
  (VIRTIO0, VIRTIO0, PGSIZE, Z.lor PTE_R PTE_W);
  (PLIC, PLIC, 0x4000000, Z.lor PTE_R PTE_W);
  (KERNBASE, KERNBASE, etext - KERNBASE, Z.lor PTE_R PTE_X);
  (etext, etext, PHYSTOP - etext, Z.lor PTE_R PTE_W);
  (TRAMPOLINE, tramp, PGSIZE, Z.lor PTE_R PTE_X)
].

Section kvm.
Context {F : Type} `{FsOps F} `{Image}.

Definition kvmmake (etext : Z) : K F Z :=
  let* kpgtbl := kalloc in
  memset_page kpgtbl 0 ;;
  for_each (kvm_maps etext trampoline) (fun '(va, pa, sz, perm) => kvmmap kpgtbl va pa sz perm) ;;
  proc_mapstacks kpgtbl ;;
  ret kpgtbl.
End kvm.

(** The stacks [proc_mapstacks] maps. *)
Definition kstack_maps : list (Z * Z) := (fun p => (KSTACK p, PGSIZE)) <$> seqZ 0 NPROC.
Definition kernel_areas (etext : Z) : list (Z * Z) :=
  ((fun '(va, _, sz, _) => (va, sz)) <$> kvm_maps etext 0) ++ kstack_maps.

(** [kvminithart]: the value of [satp]. *)
Definition kvminithart (kernel_pagetable : Z) (c : mcsr) : mcsr :=
  mkM (m_mstatus c) (m_mepc c) (MAKE_SATP kernel_pagetable) (m_medeleg c) (m_mideleg c) (m_sie c) (m_pmpaddr0 c)
    (m_pmpcfg0 c) (m_mie c) (m_menvcfg c) (m_mcounteren c) (m_stimecmp c) (m_time c) (m_mhartid c) (m_tp c).

(** *** The disk *)

Definition VIRTIO_MMIO_MAGIC_VALUE : Z := 0x000.
Definition VIRTIO_MMIO_VERSION : Z := 0x004.
Definition VIRTIO_MMIO_DEVICE_ID : Z := 0x008.
Definition VIRTIO_MMIO_VENDOR_ID : Z := 0x00c.
Definition VIRTIO_MMIO_DEVICE_FEATURES : Z := 0x010.
Definition VIRTIO_MMIO_DRIVER_FEATURES : Z := 0x020.
Definition VIRTIO_MMIO_QUEUE_SEL : Z := 0x030.
Definition VIRTIO_MMIO_QUEUE_NUM_MAX : Z := 0x034.
Definition VIRTIO_MMIO_QUEUE_NUM : Z := 0x038.
Definition VIRTIO_MMIO_QUEUE_READY : Z := 0x044.
Definition VIRTIO_MMIO_STATUS : Z := 0x070.
Definition VIRTIO_MMIO_QUEUE_DESC_LOW : Z := 0x080.
Definition VIRTIO_MMIO_QUEUE_DESC_HIGH : Z := 0x084.
Definition VIRTIO_MMIO_DRIVER_DESC_LOW : Z := 0x090.
Definition VIRTIO_MMIO_DRIVER_DESC_HIGH : Z := 0x094.
Definition VIRTIO_MMIO_DEVICE_DESC_LOW : Z := 0x0a0.
Definition VIRTIO_MMIO_DEVICE_DESC_HIGH : Z := 0x0a4.
Definition VIRTIO_CONFIG_S_ACKNOWLEDGE : Z := 1.
Definition VIRTIO_CONFIG_S_DRIVER : Z := 2.
Definition VIRTIO_CONFIG_S_DRIVER_OK : Z := 4.
Definition VIRTIO_CONFIG_S_FEATURES_OK : Z := 8.
Definition VIRTIO_QUEUE_NUM : Z := 8.

(** The feature bits the driver turns off, in the order of the code:
    VIRTIO_BLK_F_RO, VIRTIO_BLK_F_SCSI, VIRTIO_BLK_F_CONFIG_WCE,
    VIRTIO_BLK_F_MQ, VIRTIO_F_ANY_LAYOUT, VIRTIO_RING_F_EVENT_IDX and
    VIRTIO_RING_F_INDIRECT_DESC. *)
Definition virtio_off : list Z := [5; 7; 11; 12; 27; 29; 28].
Definition virtio_features (features : Z) : Z :=
  foldl (fun f bit => Z.land f (Z.lnot (Z.shiftl 1 bit))) features virtio_off.

Section disk_init.
Context {F D : Type} `{FsOps F} `{Image} `{HasDrv F D} `{Mmio D}.

Definition vrd (r : Z) : K F Z := rd 4 (VIRTIO0 + r).
Definition vwr (r v : Z) : K F unit := wr 4 (VIRTIO0 + r) (u32 v).

(** The register half of [virtio_disk_init], up to the queue memory. *)
Definition virtio_negotiate : K F Z :=
  let* magic := vrd VIRTIO_MMIO_MAGIC_VALUE in
  let* version := (if magic =? 0x74726976 then vrd VIRTIO_MMIO_VERSION else ret 0) in
  let* id := (if version =? 2 then vrd VIRTIO_MMIO_DEVICE_ID else ret 0) in
  let* vendor := (if id =? 2 then vrd VIRTIO_MMIO_VENDOR_ID else ret 0) in
  if negb (vendor =? 0x554d4551) then panic "could not find virtio disk"
  else
    let status := 0 in
    vwr VIRTIO_MMIO_STATUS status ;;
    let status := Z.lor status VIRTIO_CONFIG_S_ACKNOWLEDGE in
    vwr VIRTIO_MMIO_STATUS status ;;
    let status := Z.lor status VIRTIO_CONFIG_S_DRIVER in
    vwr VIRTIO_MMIO_STATUS status ;;
    let* features := vrd VIRTIO_MMIO_DEVICE_FEATURES in
    vwr VIRTIO_MMIO_DRIVER_FEATURES (virtio_features features) ;;
    let status := Z.lor status VIRTIO_CONFIG_S_FEATURES_OK in
    vwr VIRTIO_MMIO_STATUS status ;;
    let* status := vrd VIRTIO_MMIO_STATUS in
    if negb (has status VIRTIO_CONFIG_S_FEATURES_OK) then panic "virtio disk FEATURES_OK unset"
    else
      vwr VIRTIO_MMIO_QUEUE_SEL 0 ;;
      let* ready := vrd VIRTIO_MMIO_QUEUE_READY in
      if negb (ready =? 0) then panic "virtio disk should not be ready"
      else
        let* max := vrd VIRTIO_MMIO_QUEUE_NUM_MAX in
        if max =? 0 then panic "virtio disk has no queue 0"
        else if max <? VIRTIO_QUEUE_NUM then panic "virtio disk max queue too short"
        else ret status.

(** The whole of it; the result is the three queue pages. *)
Definition virtio_disk_init : K F (Z * Z * Z) :=
  let* status := virtio_negotiate in
  let* desc := kalloc in
  let* avail := kalloc in
  let* used := kalloc in
  if (desc =? 0) || (avail =? 0) || (used =? 0) then panic "virtio disk kalloc"
  else
    memset_page desc 0 ;;
    memset_page avail 0 ;;
    memset_page used 0 ;;
    vwr VIRTIO_MMIO_QUEUE_NUM VIRTIO_QUEUE_NUM ;;
    vwr VIRTIO_MMIO_QUEUE_DESC_LOW desc ;;
    vwr VIRTIO_MMIO_QUEUE_DESC_HIGH (Z.shiftr desc 32) ;;
    vwr VIRTIO_MMIO_DRIVER_DESC_LOW avail ;;
    vwr VIRTIO_MMIO_DRIVER_DESC_HIGH (Z.shiftr avail 32) ;;
    vwr VIRTIO_MMIO_DEVICE_DESC_LOW used ;;
    vwr VIRTIO_MMIO_DEVICE_DESC_HIGH (Z.shiftr used 32) ;;
    vwr VIRTIO_MMIO_QUEUE_READY 1 ;;
    vwr VIRTIO_MMIO_STATUS (Z.lor status VIRTIO_CONFIG_S_DRIVER_OK) ;;
    ret (desc, avail, used).
End disk_init.

(** ** The layout of kernel addresses *)

Lemma kernel_areas_lookup etext i a : kernel_areas etext !! i = Some a ->
  (i = 0%nat /\ a = (UART0, PGSIZE)) \/ (i = 1%nat /\ a = (VIRTIO0, PGSIZE)) \/ (i = 2%nat /\ a = (PLIC, 0x4000000)) \/
  (i = 3%nat /\ a = (KERNBASE, etext - KERNBASE)) \/ (i = 4%nat /\ a = (etext, PHYSTOP - etext)) \/
  (i = 5%nat /\ a = (TRAMPOLINE, PGSIZE)) \/
  (exists p, 0 <= p < NPROC /\ i = (6 + Z.to_nat p)%nat /\ a = (KSTACK p, PGSIZE)).
Proof.
  unfold kernel_areas. intros [H|[Hl H]]%lookup_app_Some.
  - do 6 (destruct i as [|i]; [injection H as <-; tauto|]). done.
  - do 6 right. unfold kstack_maps in H. apply list_lookup_fmap_Some in H as (p & -> & Hp).
    apply lookup_seqZ in Hp as [-> Hi]. change (length _) with 6%nat in *.
    exists (Z.of_nat (i - 6)). split; [lia|]. split; [lia|]. done.
Qed.

(** The numbers behind the names. *)
Ltac layout := unfold KSTACK, TRAMPOLINE, PHYSTOP, KERNBASE, UART0, VIRTIO0, PLIC in *;
  change MAXVA with 0x4000000000 in *; change PGSIZE with 4096 in *; change NPROC with 64 in *; cbn [fst snd] in *.

(** C32: The kernel's address space is laid out soundly for every page-aligned end
    of the kernel's code: each area that [kvmmake] maps is page-aligned, not
    empty and below [MAXVA], no two of them overlap, so no page is mapped
    twice, and the page below every kernel stack is left unmapped. *)
Theorem kernel_layout etext : etext mod PGSIZE = 0 -> KERNBASE < etext < PHYSTOP ->
  (forall i a, kernel_areas etext !! i = Some a ->
     a.1 mod PGSIZE = 0 /\ a.2 mod PGSIZE = 0 /\ 0 < a.1 /\ 0 < a.2 /\ a.1 + a.2 <= MAXVA) /\
  (forall i j a b, kernel_areas etext !! i = Some a -> kernel_areas etext !! j = Some b -> i <> j ->
     a.1 + a.2 <= b.1 \/ b.1 + b.2 <= a.1) /\
  (forall p i a, 0 <= p < NPROC -> kernel_areas etext !! i = Some a ->
     a.1 + a.2 <= KSTACK p - PGSIZE \/ KSTACK p <= a.1).
Proof.
  intros Ha He. split; [|split].
  - intros i a Hi. apply kernel_areas_lookup in Hi. layout.
    destruct Hi as [(_ & ->)|[(_ & ->)|[(_ & ->)|[(_ & ->)|[(_ & ->)|[(_ & ->)|(p & Hp & _ & ->)]]]]]]; layout; Z.div_mod_to_equations; lia.
  - intros i j a b Hi Hj Hn. apply kernel_areas_lookup in Hi, Hj. layout.
    destruct Hi as [(-> & ->)|[(-> & ->)|[(-> & ->)|[(-> & ->)|[(-> & ->)|[(-> & ->)|(p & Hp & -> & ->)]]]]]];
      destruct Hj as [(-> & ->)|[(-> & ->)|[(-> & ->)|[(-> & ->)|[(-> & ->)|[(-> & ->)|(p' & Hp' & -> & ->)]]]]]];
      layout; lia.
  - intros p i a Hp Hi. apply kernel_areas_lookup in Hi. layout.
    destruct Hi as [(_ & ->)|[(_ & ->)|[(_ & ->)|[(_ & ->)|[(_ & ->)|[(_ & ->)|(p' & Hp' & _ & ->)]]]]]]; layout; lia.
Qed.

Lemma kernel_layout_witness :
  UART0 mod PGSIZE = 0 /\ PGSIZE mod PGSIZE = 0 /\ 0 < UART0 /\ 0 < PGSIZE /\ UART0 + PGSIZE <= MAXVA.
Proof.
  destruct (kernel_layout 0x80008000) as [H _]; [reflexivity|split; reflexivity|].
  apply (H 0%nat (UART0, PGSIZE)). reflexivity.
Defined.

(** [start] leaves machine mode as the rest of the kernel expects: [mret] goes
    to [main] in supervisor mode (the previous-privilege field is 01 and no
    other bit of [mstatus] changes), paging is off, traps and interrupts are
    delegated, external and timer interrupts are enabled for supervisor mode,
    physical memory is open to it, and [tp] holds the hart's number. *)
Theorem start_supervisor main c :
  let c' := start main c in
  Z.testbit (m_mstatus c') 11 = true /\ Z.testbit (m_mstatus c') 12 = false /\
  (forall i, 0 <= i -> i <> 11 -> i <> 12 -> Z.testbit (m_mstatus c') i = Z.testbit (m_mstatus c) i) /\
  m_mepc c' = main /\ m_satp c' = 0 /\ m_medeleg c' = 0xffff /\ m_mideleg c' = 0xffff /\
  (forall i, 0 <= i -> Z.testbit (m_sie c') i = Z.testbit (m_sie c) i || (i =? 9) || (i =? 5)) /\
  (forall i, 0 <= i -> Z.testbit (m_mie c') i = Z.testbit (m_mie c) i || (i =? 5)) /\
  m_stimecmp c' = u64 (m_time c + 1000000) /\ m_tp c' = m_mhartid c.
Proof.
  assert (forall n i, 0 <= n -> 0 <= i -> Z.testbit (Z.shiftl 1 n) i = (i =? n)) as Hb.
  { intros n i Hn Hi. rewrite Z.shiftl_1_l, Z.pow2_bits_eqb by done. apply Z.eqb_sym. }
  assert (forall i, 0 <= i -> Z.testbit MSTATUS_MPP_MASK i = (i =? 11) || (i =? 12)) as Hm.
  { intros i Hi. change MSTATUS_MPP_MASK with (Z.lor (Z.shiftl 1 11) (Z.shiftl 1 12)).
    by rewrite Z.lor_spec, !Hb by lia. }
  assert (forall i, 0 <= i -> Z.testbit (m_mstatus (start main c)) i =
    Z.testbit (m_mstatus c) i && negb ((i =? 11) || (i =? 12)) || (i =? 11)) as Hs.
  { intros i Hi. cbn [start m_mstatus timerinit]. unfold MSTATUS_MPP_S.
    by rewrite Z.lor_spec, Z.land_spec, Z.lnot_spec, Hm, Hb by lia. }
  cbv zeta. rewrite !Hs by lia. split; [by rewrite orb_true_r|]. split; [by rewrite andb_false_r|]. split.
  { intros i Hi H1 H2. rewrite Hs by done. destruct (Z.eqb_spec i 11), (Z.eqb_spec i 12); try done.
    by rewrite andb_true_r, orb_false_r. }
  do 4 (split; [done|]). split.
  { intros i Hi. cbn [start m_sie timerinit]. unfold SIE_SEIE, SIE_STIE. by rewrite !Z.lor_spec, !Hb by lia. }
  split; [|done]. intros i Hi. cbn [start m_mie timerinit]. unfold MIE_STIE. by rewrite Z.lor_spec, Hb by lia.
Qed.
