(* ===== verification/BioSpec.v ===== *)
(** * The buffer cache as a map

    [bcache s D held]: buffers that someone holds or has pinned are the entries
    of [held]; every other buffer is unused, and if it caches a block it agrees
    with the disk [D]. The operations of bio.c act on [D] and [held] alone. *)

From S2P Require Import Prelude Riscv Kernel Bio.

(** A buffer in use: its index, reference count, holder and contents. *)
Record hbuf := mkH { h_idx : nat; h_ref : Z; h_lock : sleeplock; h_data : list Z }.

(** The buffer of block [n] in use. *)
Definition hbuf_buf (n : Z) (h : hbuf) : buf := mkBuf true ROOTDEV n (h_lock h) (h_ref h) (h_data h).

(** An unused buffer. *)
Definition unused (D : gmap Z (list Z)) (held : gmap Z hbuf) (x : buf) : Prop :=
  b_refcnt x = 0 /\ b_lock x = None /\
  (b_dev x = ROOTDEV -> held !! b_blockno x = None /\
     (b_valid x = true -> D !! b_blockno x = Some (b_data x))).

Record bcache (s : fsstate) (D : gmap Z (list Z)) (held : gmap Z hbuf) : Prop := {
  bc_disk : x_disk s = D;
  bc_len : length (x_bufs s) = Z.to_nat NBUF;
  bc_lru : x_lru s ≡ₚ seq 0 (Z.to_nat NBUF);
  bc_held : forall n h, held !! n = Some h -> x_bufs s !! h_idx h = Some (hbuf_buf n h) /\
    1 <= h_ref h < 2 ^ 31;
  bc_unused : forall i x, x_bufs s !! i = Some x ->
    (exists n h, held !! n = Some h /\ h_idx h = i) \/ unused D held x;
  bc_inj : forall i j x y, x_bufs s !! i = Some x -> x_bufs s !! j = Some y ->
    b_dev x = ROOTDEV -> b_dev y = ROOTDEV -> b_blockno x = b_blockno y -> i = j
}.

(** The cache is a matter of the disk and the buffers. *)
Lemma bcache_ext s s' D held :
  x_disk s' = x_disk s -> x_bufs s' = x_bufs s -> x_lru s' = x_lru s -> bcache s D held -> bcache s' D held.
Proof. intros E1 E2 E3 [? ? ? ? ? ?]. split; by rewrite ?E1, ?E2, ?E3. Qed.

(** ** Searching the list *)

Lemma find_buf_Some p l bufs b :
  find_buf p l bufs = Some b -> b ∈ l /\ exists x, bufs !! b = Some x /\ p x = true.
Proof.
  induction l as [|c l IH]; [done|]. simpl. destruct (bufs !! c) as [x|] eqn:E; simpl.
  - destruct (p x) eqn:Ep.
    + intros [= ->]. split; [left|]. by exists x.
    + intros Hf. destruct (IH Hf) as [? ?]. split; [by right|done].
  - intros Hf. destruct (IH Hf) as [? ?]. split; [by right|done].
Qed.

Lemma find_buf_None p l bufs b x :
  find_buf p l bufs = None -> b ∈ l -> bufs !! b = Some x -> p x = false.
Proof.
  induction l as [|c l IH]; [set_solver|]. simpl. intros Hf Hb Hx.
  destruct (bufs !! c) as [y|] eqn:E; simpl in Hf.
  - destruct (p y) eqn:Ep; [done|]. apply elem_of_cons in Hb as [->|Hb]; [congruence|by apply IH].
  - apply elem_of_cons in Hb as [->|Hb]; [congruence|by apply IH].
Qed.

Section rep.
Context (s : fsstate) (D : gmap Z (list Z)) (held : gmap Z hbuf).
Hypothesis C : bcache s D held.

Lemma bc_index i x : x_bufs s !! i = Some x -> i ∈ x_lru s.
Proof.
  intros Hx. rewrite (bc_lru _ _ _ C). apply elem_of_seq. apply lookup_lt_Some in Hx.
  rewrite (bc_len _ _ _ C) in Hx. lia.
Qed.

(** The buffer of a block is found. *)
Lemma find_held n h : held !! n = Some h ->
  find_buf (cached ROOTDEV n) (x_lru s) (x_bufs s) = Some (h_idx h).
Proof.
  intros Hh. destruct (bc_held _ _ _ C _ _ Hh) as [Hx _].
  destruct (find_buf (cached ROOTDEV n) (x_lru s) (x_bufs s)) as [b|] eqn:E.
  - apply find_buf_Some in E as (_ & x & Hx' & Hp). unfold cached in Hp.
    apply andb_true_iff in Hp as [E1%Z.eqb_eq E2%Z.eqb_eq]. f_equal.
    by apply (bc_inj _ _ _ C b (h_idx h) x (hbuf_buf n h)).
  - pose proof (find_buf_None _ _ _ _ _ E (bc_index _ _ Hx) Hx) as Hp.
    unfold cached, hbuf_buf in Hp. simpl in Hp. by rewrite Z.eqb_refl in Hp.
Qed.

(** An index that holds no block in use. *)
Lemma find_other i x n : x_bufs s !! i = Some x -> held !! n = None ->
  b_dev x = ROOTDEV -> b_blockno x = n -> unused D held x /\ forall n' h, held !! n' = Some h -> h_idx h <> i.
Proof.
  intros Hx Hn Hd Hb.
  assert (Hne : forall n' h, held !! n' = Some h -> h_idx h <> i).
  { intros n' h Hh <-. destruct (bc_held _ _ _ C _ _ Hh) as [Hx' _].
    rewrite Hx in Hx'. simplify_eq/=. }
  split; [|done]. destruct (bc_unused _ _ _ C _ _ Hx) as [(n' & h & Hh & E)|?]; [|done].
  by destruct (Hne _ _ Hh).
Qed.
End rep.

(** Replacing one buffer. *)
Definition setbuf (i : nat) (x : buf) (s : fsstate) : fsstate := set_x_bufs (<[i := x]> (x_bufs s)) s.

Lemma getb_eq s i x : x_bufs s !! i = Some x -> getb i s = Done x s.
Proof. intros E. unfold getb. by rewrite E. Qed.
Lemma modb_eq s i x f : x_bufs s !! i = Some x -> modb i f s = Done tt (setbuf i (f x) s).
Proof. intros E. unfold modb. by rewrite E. Qed.
Lemma setbuf_lookup s i x y : x_bufs s !! i = Some y -> x_bufs (setbuf i x s) !! i = Some x.
Proof. intros E. unfold setbuf. xsimpl. apply list_lookup_insert_eq. by eapply lookup_lt_Some. Qed.
Lemma setbuf_setbuf i x y s : setbuf i x (setbuf i y s) = setbuf i x s.
Proof. unfold setbuf. xsimpl. by rewrite list_insert_insert_eq. Qed.

(** An unused buffer becomes the buffer of block [n]. *)
Lemma bcache_take s D held i x n h :
  bcache s D held -> x_bufs s !! i = Some x -> unused D held x ->
  (forall n' h', held !! n' = Some h' -> h_idx h' <> i) ->
  (forall j y, x_bufs s !! j = Some y -> b_dev y = ROOTDEV -> b_blockno y = n -> j = i) ->
  held !! n = None -> h_idx h = i -> 1 <= h_ref h < 2 ^ 31 ->
  bcache (setbuf i (hbuf_buf n h) s) D (<[n := h]> held).
Proof.
  intros [Hd Hl Hr Hh Hu Hi] Hx Hux Hne Hun Hn Ei Href. unfold setbuf.
  assert (Hlt : (i < length (x_bufs s))%nat) by (by eapply lookup_lt_Some). split; xsimpl.
  - done.
  - by rewrite length_insert.
  - done.
  - intros n' h'. destruct (decide (n' = n)) as [->|].
    + rewrite lookup_insert_eq. intros [= <-]. rewrite Ei, list_lookup_insert_eq by done. done.
    + rewrite lookup_insert_ne by done. intros Hh'. rewrite list_lookup_insert_ne; [by apply Hh|].
      intros E. by apply (Hne _ _ Hh').
  - intros j y. destruct (decide (j = i)) as [->|].
    + intros _. left. exists n, h. by rewrite lookup_insert_eq.
    + rewrite list_lookup_insert_ne by done. intros Hy. destruct (Hu _ _ Hy) as [(n' & h' & Hh' & E)|(? & ? & Hc)].
      * left. exists n', h'. split; [|done]. rewrite lookup_insert_ne; [done|]. intros ->. congruence.
      * right. split; [done|]. split; [done|]. intros Hdev. destruct (Hc Hdev) as [Hnone Hv].
        split; [|done]. rewrite lookup_insert_ne; [done|]. intros E. by apply (Hun j y) in Hy.
  - intros j k y z. destruct (decide (j = i)) as [->|], (decide (k = i)) as [->|]; try done.
    + rewrite list_lookup_insert_eq by done. rewrite list_lookup_insert_ne by done.
      intros [= <-] Hz _ Hdz E. cbn in E. symmetry. by eapply Hun.
    + rewrite (list_lookup_insert_eq _ i) by done. rewrite list_lookup_insert_ne by done.
      intros Hy [= <-] Hdy _ E. cbn in E. by eapply Hun.
    + rewrite !list_lookup_insert_ne by done. apply Hi.
Qed.

(** A buffer in use changes. *)
Lemma bcache_upd s D held n h h' :
  bcache s D held -> held !! n = Some h -> h_idx h' = h_idx h -> 1 <= h_ref h' < 2 ^ 31 ->
  bcache (setbuf (h_idx h) (hbuf_buf n h') s) D (<[n := h']> held).
Proof.
  intros [Hd Hl Hr Hh Hu Hi] Hn Ei Href. unfold setbuf. destruct (Hh _ _ Hn) as [Hx _].
  assert (Hlt : (h_idx h < length (x_bufs s))%nat) by (by eapply lookup_lt_Some).
  assert (Hne : forall n' h'', held !! n' = Some h'' -> n' <> n -> h_idx h'' <> h_idx h).
  { intros n' h'' Hn' Hne E. destruct (Hh _ _ Hn') as [Hx' _]. rewrite E, Hx in Hx'. by simplify_eq/=. }
  split; xsimpl.
  - done.
  - by rewrite length_insert.
  - done.
  - intros n' h''. destruct (decide (n' = n)) as [->|].
    + rewrite lookup_insert_eq. intros [= <-]. rewrite Ei, list_lookup_insert_eq by done. done.
    + rewrite lookup_insert_ne by done. intros Hh'. rewrite list_lookup_insert_ne; [by apply Hh|].
      by apply not_eq_sym, (Hne n').
  - intros j y. destruct (decide (j = h_idx h)) as [->|].
    + intros _. left. exists n, h'. by rewrite lookup_insert_eq.
    + rewrite list_lookup_insert_ne by done. intros Hy. destruct (Hu _ _ Hy) as [(n' & h'' & Hh' & E)|(? & ? & Hc)].
      * left. exists n', h''. split; [|done]. rewrite lookup_insert_ne; [done|]. intros ->. congruence.
      * right. split; [done|]. split; [done|]. intros Hdev. destruct (Hc Hdev) as [Hnone Hv].
        split; [|done]. rewrite lookup_insert_ne; [done|]. intros E. rewrite E in Hn. congruence.
  - intros j k y z Hy Hz Hdy Hdz E. apply (Hi j k (if decide (j = h_idx h) then hbuf_buf n h else y)
      (if decide (k = h_idx h) then hbuf_buf n h else z)).
    + case_decide as Ej; [by rewrite Ej|]. by rewrite list_lookup_insert_ne in Hy.
    + case_decide as Ek; [by rewrite Ek|]. by rewrite list_lookup_insert_ne in Hz.
    + by case_decide.
    + by case_decide.
    + revert Hy Hz. case_decide as Ej; case_decide as Ek; try rewrite Ej; try rewrite Ek.
      * done.
      * rewrite list_lookup_insert_eq by done. by intros [= <-] _.
      * rewrite (list_lookup_insert_eq _ (h_idx h)) by done. by intros _ [= <-].
      * done.
Qed.

(** Some buffer is unused as long as not all are in use. *)
Lemma bcache_spare s D held :
  bcache s D held -> (size held < Z.to_nat NBUF)%nat ->
  exists i x, x_bufs s !! i = Some x /\ unused D held x.
Proof.
  intros C Hsz. destruct (decide (Forall (fun i => i ∈ (h_idx <$> (map_to_list held).*2))
    (seq 0 (Z.to_nat NBUF)))) as [Hall|Hno].
  - exfalso. rewrite Forall_forall in Hall.
    assert (Hsub : seq 0 (Z.to_nat NBUF) ⊆+ h_idx <$> (map_to_list held).*2)
      by (apply NoDup_submseteq; [apply NoDup_seq|done]).
    apply submseteq_length in Hsub. rewrite length_seq, !length_fmap, length_map_to_list in Hsub. lia.
  - apply not_Forall_Exists in Hno; [|apply _]. apply Exists_exists in Hno as (i & Hi & Hn).
    apply elem_of_seq in Hi. rewrite <- (bc_len _ _ _ C) in Hi.
    destruct (lookup_lt_is_Some_2 (x_bufs s) i ltac:(lia)) as [x Hx]. exists i, x. split; [done|].
    destruct (bc_unused _ _ _ C _ _ Hx) as [(n & h & Hh & <-)|?]; [|done]. destruct Hn.
    apply list_elem_of_fmap. exists h. split; [done|]. apply list_elem_of_fmap. exists (n, h).
    split; [done|]. by apply elem_of_map_to_list.
Qed.

(** ** The operations *)
Section ops.
Context `{Self}.
Implicit Types (s : fsstate) (D : gmap Z (list Z)) (held : gmap Z hbuf).

Lemma lock_buf_eq s i x :
  x_bufs s !! i = Some x -> b_lock x = None ->
  lock_buf i s = Done i (setbuf i (set_b_lock (Some self_pid) x) s).
Proof.
  intros Hx Hl. unfold lock_buf. kstep by (by apply getb_eq). rewrite Hl. unfold acquiresleep.
  kpure. by kstep by (by apply modb_eq).
Qed.

Lemma getb_held s D held n h :
  bcache s D held -> held !! n = Some h -> getb (h_idx h) s = Done (hbuf_buf n h) s.
Proof. intros C Hn. apply getb_eq. by apply (bc_held _ _ _ C). Qed.

Lemma disk_read_eq s n d : x_disk s !! n = Some d -> disk_read n s = Done d s.
Proof. intros E. unfold disk_read. by rewrite E. Qed.

(** A block nobody holds is read into a buffer. *)
Lemma bread_fresh s D held n d :
  bcache s D held -> held !! n = None -> D !! n = Some d -> (size held < Z.to_nat NBUF)%nat ->
  exists i bufs, bread ROOTDEV n s = Done i (set_x_bufs bufs s) /\
    bcache (set_x_bufs bufs s) D (<[n := mkH i 1 (Some self_pid) d]> held).
Proof.
  intros C Hn Hd Hsz.
  assert (Hrun : forall i x y, x_bufs s !! i = Some x -> b_lock y = None -> b_blockno y = n ->
    b_dev y = ROOTDEV -> b_refcnt y = 1 -> (b_valid y = true -> b_data y = d) ->
    (let* b := (modb i (fun _ => y) ;; lock_buf i) in
     let* z := getb b in
     (if b_valid z then ret tt
      else let* d := disk_read (b_blockno z) in modb b (fun z => set_b_valid true (set_b_data d z))) ;;
     ret b) s = Done i (setbuf i (hbuf_buf n (mkH i 1 (Some self_pid) d)) s)).
  { intros i x y Hx Hl Hb Hdev Hr Hv. kstep by (by apply modb_eq).
    kstep by (apply lock_buf_eq; [by eapply setbuf_lookup|done]). rewrite setbuf_setbuf.
    kstep by (apply getb_eq; by eapply setbuf_lookup). destruct y as [v dev b lk r dat]; xsimpl in *.
    cbn in Hl, Hb, Hdev, Hr, Hv. subst. destruct v; xsimpl.
    - rewrite bind_ret. by rewrite Hv.
    - kstep by (apply disk_read_eq; by rewrite <- (bc_disk _ _ _ C) in Hd).
      kstep by (apply modb_eq; by eapply setbuf_lookup). by rewrite setbuf_setbuf. }
  unfold bread, bget. kpure.
  destruct (find_buf (cached ROOTDEV n) (x_lru s) (x_bufs s)) as [i|] eqn:E1.
  - apply find_buf_Some in E1 as (_ & x & Hx & Hp).
    apply andb_true_iff in Hp as [E1%Z.eqb_eq E2%Z.eqb_eq].
    destruct (find_other _ _ _ C i x n Hx Hn E1 E2) as [Hux Hne]. pose proof Hux as (Hr & Hlk & Hc).
    destruct (Hc E1) as [_ Hv].
    exists i, (<[i := hbuf_buf n (mkH i 1 (Some self_pid) d)]> (x_bufs s)). split.
    + etrans; [|apply (Hrun i x (set_b_refcnt (u32 (b_refcnt x + 1)) x)); try done].
      * unfold bind, modb. rewrite Hx. done.
      * rewrite Hr. done.
      * intros Hval. rewrite E2, Hd in Hv. specialize (Hv Hval). by simplify_eq.
    + eapply bcache_take; try done. intros j y Hy Hdy Ey. apply (bc_inj _ _ _ C j i y x); try done.
      congruence.
  - destruct (bcache_spare _ _ _ C Hsz) as (i0 & x0 & Hx0 & (Hr0 & _)).
    destruct (find_buf (fun x => b_refcnt x =? 0) (rev (x_lru s)) (x_bufs s)) as [i|] eqn:E2.
    2:{ assert (Hin : i0 ∈ rev (x_lru s)).
        { apply list_elem_of_In. rewrite <- in_rev. apply list_elem_of_In. by eapply bc_index. }
        pose proof (find_buf_None _ _ _ i0 x0 E2 Hin Hx0) as Hp. cbn in Hp. by rewrite Hr0 in Hp. }
    apply find_buf_Some in E2 as (_ & x & Hx & Hr%Z.eqb_eq).
    assert (Hne : forall n' h, held !! n' = Some h -> h_idx h <> i).
    { intros n' h Hh <-. destruct (bc_held _ _ _ C _ _ Hh) as [Hx' Href]. rewrite Hx in Hx'.
      simplify_eq/=. lia. }
    destruct (bc_unused _ _ _ C _ _ Hx) as [(n' & h & Hh & Ei)|Hux]; [by destruct (Hne _ _ Hh)|].
    exists i, (<[i := hbuf_buf n (mkH i 1 (Some self_pid) d)]> (x_bufs s)). split.
    + etrans; [|apply (Hrun i x (mkBuf false ROOTDEV n (b_lock x) 1 (b_data x))); try done].
      * unfold bind, modb. rewrite Hx. done.
      * apply Hux.
    + eapply bcache_take; try done. intros j y Hy Hdy Ey.
      pose proof (find_buf_None _ _ _ j y E1 (bc_index _ _ _ C _ _ Hy) Hy) as Hp.
      unfold cached in Hp. rewrite Hdy, Ey, !Z.eqb_refl in Hp. done.
Qed.

(** A block that is pinned is read from its buffer. *)
Lemma bread_held s D held n h :
  bcache s D held -> held !! n = Some h -> h_lock h = None -> h_ref h + 1 < 2 ^ 31 ->
  exists bufs, bread ROOTDEV n s = Done (h_idx h) (set_x_bufs bufs s) /\
    bcache (set_x_bufs bufs s) D
      (<[n := mkH (h_idx h) (h_ref h + 1) (Some self_pid) (h_data h)]> held).
Proof.
  intros C Hn Hl Hr. destruct (bc_held _ _ _ C _ _ Hn) as [Hx Href].
  exists (<[h_idx h := hbuf_buf n (mkH (h_idx h) (h_ref h + 1) (Some self_pid) (h_data h))]> (x_bufs s)).
  split.
  - unfold bread, bget. kpure. rewrite (find_held _ _ _ C n h Hn).
    kstep by (by apply modb_eq). kstep by (apply lock_buf_eq; [by eapply setbuf_lookup|exact Hl]).
    rewrite setbuf_setbuf. kstep by (apply getb_eq; by eapply setbuf_lookup).
    unfold hbuf_buf. xsimpl. rewrite bind_ret. cbn [h_ref h_lock h_data]. rewrite u32_small by lia. done.
  - by eapply bcache_upd; [|done|..|cbn; lia].
Qed.

Lemma bwrite_eq s D held n h d0 :
  bcache s D held -> held !! n = Some h -> h_lock h = Some self_pid -> D !! n = Some d0 ->
  bwrite (h_idx h) s =
    Done tt (set_x_hist (x_hist s ++ [(n, h_data h)]) (set_x_disk (<[n := h_data h]> D) s)) /\
  bcache (set_x_hist (x_hist s ++ [(n, h_data h)]) (set_x_disk (<[n := h_data h]> D) s))
    (<[n := h_data h]> D) held.
Proof.
  intros C Hn Hl Hd. destruct (bc_held _ _ _ C _ _ Hn) as [Hx Href]. split.
  - unfold bwrite. kstep by (by apply getb_eq). unfold hbuf_buf, holdingsleep. xsimpl. rewrite Hl.
    rewrite bool_decide_eq_true_2 by done. cbn [negb]. unfold disk_write.
    rewrite (bc_disk _ _ _ C), Hd. done.
  - destruct C as [E1 E2 E3 E4 E5 E6]. split; try done. intros i x Hx'.
    destruct (E5 _ _ Hx') as [?|(? & ? & Hc)]; [by left|right]. split; [done|]. split; [done|].
    intros Hdev. destruct (Hc Hdev) as [Hnone Hv]. split; [done|].
    rewrite lookup_insert_ne; [done|]. intros E. rewrite E in Hn. congruence.
Qed.

(** Changing what a buffer in use holds. *)
Lemma modb_held s D held n h h' f :
  bcache s D held -> held !! n = Some h -> h_idx h' = h_idx h -> 1 <= h_ref h' < 2 ^ 31 ->
  f (hbuf_buf n h) = hbuf_buf n h' ->
  exists bufs, modb (h_idx h) f s = Done tt (set_x_bufs bufs s) /\
    bcache (set_x_bufs bufs s) D (<[n := h']> held).
Proof.
  intros C Hn Hi Hr Hf. destruct (bc_held _ _ _ C _ _ Hn) as [Hx Href].
  exists (<[h_idx h := hbuf_buf n h']> (x_bufs s)). split.
  - rewrite (modb_eq _ _ _ _ Hx), Hf. done.
  - by eapply bcache_upd.
Qed.

Lemma brelse_held s D held n h :
  bcache s D held -> held !! n = Some h -> h_lock h = Some self_pid -> 2 <= h_ref h ->
  exists bufs, brelse (h_idx h) s = Done tt (set_x_bufs bufs s) /\
    bcache (set_x_bufs bufs s) D (<[n := mkH (h_idx h) (h_ref h - 1) None (h_data h)]> held).
Proof.
  intros C Hn Hl Hr. destruct (bc_held _ _ _ C _ _ Hn) as [Hx Href].
  exists (<[h_idx h := hbuf_buf n (mkH (h_idx h) (h_ref h - 1) None (h_data h))]> (x_bufs s)). split.
  - unfold brelse. kstep by (by apply getb_eq). unfold hbuf_buf at 1, holdingsleep. xsimpl. rewrite Hl.
    rewrite bool_decide_eq_true_2 by done. cbn [negb]. kstep by (by apply modb_eq).
    kstep by (apply getb_eq; by eapply setbuf_lookup). unfold hbuf_buf. xsimpl.
    cbn [h_ref h_data h_lock]. rewrite u32_small by lia. rewrite (proj2 (Z.eqb_neq _ _)) by lia. done.
  - by eapply bcache_upd; [|done|..|cbn; lia].
Qed.

(** Moving an element of a list to its front. *)
Lemma move_front (b : nat) (l : list nat) :
  NoDup l -> b ∈ l -> b :: filter (fun b' => b' <> b) l ≡ₚ l.
Proof.
  induction l as [|c l IH]; [set_solver|]. intros Hnd Hin. apply NoDup_cons in Hnd as [Hc Hnd].
  destruct (decide (c = b)) as [->|Hne].
  - rewrite filter_cons_False by naive_solver. f_equiv. clear -Hc.
    induction l as [|d l IH]; [done|]. rewrite filter_cons_True by set_solver. f_equiv. apply IH. set_solver.
  - rewrite filter_cons_True by done. rewrite Permutation_swap. f_equiv. apply IH; set_solver.
Qed.

(** A buffer in use becomes unused, caching the block as it is on disk. *)
Lemma bcache_drop s D held n h lru :
  bcache s D held -> held !! n = Some h -> D !! n = Some (h_data h) ->
  lru ≡ₚ x_lru s ->
  bcache (set_x_lru lru (set_x_bufs (<[h_idx h := mkBuf true ROOTDEV n None 0 (h_data h)]> (x_bufs s)) s))
    D (delete n held).
Proof.
  intros C Hn Hd Hlru. destruct (bc_held _ _ _ C _ _ Hn) as [Hx Href].
  pose proof (lookup_lt_Some _ _ _ Hx) as Hlt.
  set (x' := mkBuf true ROOTDEV n None 0 (h_data h)).
  pose proof C as [E1 E2 E3 E4 E5 E6].
  assert (Hne : forall n' h', held !! n' = Some h' -> n' <> n -> h_idx h' <> h_idx h).
  { intros n' h' Hn' Hnn E. destruct (E4 _ _ Hn') as [Hx' _]. rewrite E, Hx in Hx'. by simplify_eq/=. }
  split; xsimpl.
  - done.
  - by rewrite length_insert.
  - by rewrite Hlru.
  - intros n' h' Hd'. apply lookup_delete_Some in Hd' as [Hnn Hn'].
    rewrite list_lookup_insert_ne by (by apply not_eq_sym, (Hne n')). by apply E4.
  - intros j y. destruct (decide (j = h_idx h)) as [->|Hj].
    + rewrite list_lookup_insert_eq by done. intros [= <-]. right. split; [done|]. split; [done|].
      intros _. unfold x'; xsimpl. rewrite lookup_delete_eq. done.
    + rewrite list_lookup_insert_ne by done. intros Hy. destruct (E5 _ _ Hy) as [(n' & h' & Hh' & E)|(? & ? & Hc)].
      * left. exists n', h'. split; [|done]. rewrite lookup_delete_ne; [done|]. intros ->. congruence.
      * right. split; [done|]. split; [done|]. intros Hdev. destruct (Hc Hdev) as [Hnone Hv].
         split; [|done]. apply lookup_delete_None. by right.
  - intros j k y z Hy Hz Hdy Hdz E.
    apply (E6 j k (if decide (j = h_idx h) then hbuf_buf n h else y)
      (if decide (k = h_idx h) then hbuf_buf n h else z)).
    + case_decide as Ej; [by rewrite Ej|]. by rewrite list_lookup_insert_ne in Hy.
    + case_decide as Ek; [by rewrite Ek|]. by rewrite list_lookup_insert_ne in Hz.
    + by case_decide.
    + by case_decide.
    + revert Hy Hz. case_decide as Ej; case_decide as Ek; try rewrite Ej; try rewrite Ek.
      * done.
      * rewrite list_lookup_insert_eq by done. by intros [= <-] _.
      * rewrite (list_lookup_insert_eq _ (h_idx h)) by done. by intros _ [= <-].
      * done.
Qed.
(** Releasing the last reference: the buffer must agree with the disk. *)
Lemma brelse_last s D held n h :
  bcache s D held -> held !! n = Some h -> h_lock h = Some self_pid -> h_ref h = 1 ->
  D !! n = Some (h_data h) ->
  exists bufs lru, brelse (h_idx h) s = Done tt (set_x_lru lru (set_x_bufs bufs s)) /\
    bcache (set_x_lru lru (set_x_bufs bufs s)) D (delete n held).
Proof.
  intros C Hn Hl Hr Hd. destruct (bc_held _ _ _ C _ _ Hn) as [Hx Href].
  pose proof (lookup_lt_Some _ _ _ Hx) as Hlt.
  set (x' := mkBuf true ROOTDEV n None 0 (h_data h)).
  exists (<[h_idx h := x']> (x_bufs s)), (h_idx h :: filter (fun b' => b' <> h_idx h) (x_lru s)). split.
  - unfold brelse. kstep by (by apply getb_eq). unfold hbuf_buf at 1, holdingsleep. xsimpl. rewrite Hl.
    rewrite bool_decide_eq_true_2 by done. cbn [negb]. kstep by (by apply modb_eq).
    kstep by (apply getb_eq; by eapply setbuf_lookup). unfold hbuf_buf. xsimpl. rewrite Hr. done.
  - apply bcache_drop; try done. apply move_front.
    + rewrite (bc_lru _ _ _ C). apply NoDup_seq.
    + by eapply bc_index.
Qed.
End ops.
