(* ===== verification/LogSpec.v ===== *)
(** * The log

    What log.c does to the disk. [txn s D T]: the disk is [D], and the blocks a
    transaction has changed and logged so far are the entries of [T], pinned in
    the cache. A commit turns [D] into [T ∪ D]; a crash at any point of it
    followed by recovery gives [D] or [T ∪ D]. *)

From S2P Require Import Prelude Riscv Kernel Mem Bio Log BioSpec.

(** ** The header block *)

Lemma blk_int_same d off v :
  0 <= off -> off + 4 <= Z.of_nat (length d) -> blk_int (blk_set d off v) off = s32 v.
Proof.
  intros H0 H1. unfold blk_int, blk_set.
  assert (E : length (le_split 4 v) = 4%nat) by apply length_le_split.
  rewrite <- E at 1. rewrite take_drop_splice_same by lia. rewrite le_combine_split. apply s32_mod.
Qed.

Lemma blk_int_other d off v o :
  0 <= off -> 0 <= o -> off + 4 <= Z.of_nat (length d) -> o + 4 <= off \/ off + 4 <= o ->
  blk_int (blk_set d off v) o = blk_int d o.
Proof.
  intros. unfold blk_int, blk_set.
  rewrite take_drop_splice_other; rewrite ?length_le_split; try done; lia.
Qed.

Lemma length_blk_set d off v :
  0 <= off -> off + 4 <= Z.of_nat (length d) -> length (blk_set d off v) = length d.
Proof. intros. apply length_splice. rewrite length_le_split. lia. Qed.

(** The entries written by [write_head]'s loop. *)
Lemma head_loop (f : nat -> Z) k j d :
  4 + 4 * Z.of_nat (k + j) <= Z.of_nat (length d) ->
  let d' := foldl (fun d i => blk_set d (4 + 4 * Z.of_nat i) (f i)) d (seq k j) in
  length d' = length d /\ blk_int d' 0 = blk_int d 0 /\
  forall i, (i < k + j)%nat -> blk_int d' (4 + 4 * Z.of_nat i) =
    if decide (i < k)%nat then blk_int d (4 + 4 * Z.of_nat i) else s32 (f i).
Proof.
  revert k d. induction j as [|j IH]; intros k d Hl; cbn [seq foldl].
  - split; [done|]. split; [done|]. intros i Hi. rewrite decide_True by lia. done.
  - destruct (IH (S k) (blk_set d (4 + 4 * Z.of_nat k) (f k))) as (E1 & E2 & E3).
    { rewrite length_blk_set by lia. lia. }
    rewrite length_blk_set in E1 by lia. rewrite blk_int_other in E2 by lia.
    split; [done|]. split; [done|]. intros i Hi. rewrite E3 by lia.
    destruct (decide (i < S k)%nat), (decide (i < k)%nat); try lia.
    + by rewrite blk_int_other by lia.
    + replace i with k by lia. by rewrite blk_int_same by lia.
Qed.

Lemma head_bytes_spec l d :
  length d = Z.to_nat BSIZE -> 0 <= lh_n l <= LOGBLOCKS ->
  length (head_bytes l d) = Z.to_nat BSIZE /\ blk_int (head_bytes l d) 0 = lh_n l /\
  forall i, 0 <= i < lh_n l -> blk_int (head_bytes l d) (4 + 4 * i) = s32 (lh_get l i).
Proof.
  unfold BSIZE, LOGBLOCKS, MAXOPBLOCKS. intros Hd Hn.
  destruct (head_loop (fun i => lh_get l (Z.of_nat i)) 0 (Z.to_nat (lh_n l)) (blk_set d 0 (lh_n l)))
    as (E1 & E2 & E3).
  { rewrite length_blk_set by lia. lia. }
  rewrite length_blk_set in E1 by lia. rewrite blk_int_same in E2 by lia. rewrite s32_small in E2 by lia.
  unfold head_bytes, BSIZE. split; [lia|]. split; [done|]. intros i Hi.
  replace i with (Z.of_nat (Z.to_nat i)) by lia. rewrite E3 by lia. by rewrite decide_False by lia.
Qed.

(** ** The rounds of the loops *)

(** [s'] follows [s] by the disk writes [ws] and changes nothing but the disk
    and the cache. *)
Definition wrote (s s' : fsstate) (ws : list (Z * list Z)) : Prop :=
  x_hist s' = x_hist s ++ ws /\ x_log s' = x_log s /\ x_sb s' = x_sb s /\ x_itable s' = x_itable s.

Lemma wrote_trans s1 s2 s3 ws ws' : wrote s1 s2 ws -> wrote s2 s3 ws' -> wrote s1 s3 (ws ++ ws').
Proof.
  intros (E1 & E2 & E3 & E4) (F1 & F2 & F3 & F4). unfold wrote.
  rewrite F1, F2, F3, F4, E1, E2, E3, E4. by rewrite (assoc_L (++)).
Qed.

(** Equality of maps by cases on two keys. *)
Ltac map_cases a b :=
  apply map_eq; intros ?;
  match goal with |- _ !! ?k = _ => destruct (decide (k = a)) as [->|]; [|destruct (decide (k = b)) as [->|]] end;
  by simplify_map_eq.

Section rounds.
Context `{Self}.
Implicit Types (s : fsstate) (D : gmap Z (list Z)) (held : gmap Z hbuf).

Lemma write_log_one_spec s D held lg tail lb b h d0 :
  bcache s D held -> (size held < Z.to_nat NBUF)%nat -> lg_dev lg = ROOTDEV ->
  lb = lg_start lg + Z.of_nat tail + 1 -> b = u32 (lh_get lg (Z.of_nat tail)) ->
  held !! lb = None -> D !! lb = Some d0 -> held !! b = Some h -> h_lock h = None -> h_ref h = 1 ->
  exists s', write_log_one lg tail s = Done tt s' /\ bcache s' (<[lb := h_data h]> D) held /\ wrote s s' [(lb, h_data h)].
Proof.
  intros C Hsz Hdev Elb Eb Hlb HD Hb Hlk Href. unfold write_log_one. rewrite Hdev, <- Elb, <- Eb.
  assert (Hne : b <> lb) by congruence.
  destruct (bread_fresh _ _ _ lb d0 C Hlb HD Hsz) as (i & bufs1 & R1 & C1). kstep by exact R1.
  destruct (bread_held _ _ _ b h C1) as (bufs2 & R2 & C2); [by rewrite lookup_insert_ne|done|lia|].
  kstep by exact R2.
  set (hb := mkH (h_idx h) (h_ref h + 1) (Some self_pid) (h_data h)) in C2.
  kstep by (apply (getb_held _ _ _ b hb C2); by rewrite lookup_insert_eq).
  destruct (modb_held _ _ _ lb (mkH i 1 (Some self_pid) d0) (mkH i 1 (Some self_pid) (h_data h))
    (set_b_data (b_data (hbuf_buf b hb))) C2) as (bufs3 & R3 & C3); try done.
  { by rewrite lookup_insert_ne, lookup_insert_eq by done. }
  kstep by exact R3.
  destruct (bwrite_eq _ _ _ lb (mkH i 1 (Some self_pid) (h_data h)) d0 C3) as (R4 & C4);
    [by rewrite lookup_insert_eq|done..|].
  kstep by exact R4.
  destruct (brelse_held _ _ _ b hb C4)
    as (bufs5 & R5 & C5); [by rewrite lookup_insert_ne, lookup_insert_eq by done|done|cbn; lia|].
  kstep by exact R5.
  destruct (brelse_last _ _ _ lb (mkH i 1 (Some self_pid) (h_data h)) C5)
    as (bufs6 & lru & R6 & C6); [by rewrite lookup_insert_ne, lookup_insert_eq by done|done..|by rewrite lookup_insert_eq|].
  eexists. split; [exact R6|]. split; [|done].
  match goal with H : bcache ?s ?D ?h' |- bcache ?s ?D ?h0 => replace h0 with h'; [exact H|] end.
  destruct h as [ix r l dt]; cbn in *. subst l r. map_cases b lb.
Qed.

Lemma write_head_spec s D held d0 :
  bcache s D held -> (size held < Z.to_nat NBUF)%nat -> lg_dev (x_log s) = ROOTDEV ->
  held !! lg_start (x_log s) = None -> D !! lg_start (x_log s) = Some d0 ->
  exists s', write_head s = Done tt s' /\
    bcache s' (<[lg_start (x_log s) := head_bytes (x_log s) d0]> D) held /\
    wrote s s' [(lg_start (x_log s), head_bytes (x_log s) d0)].
Proof.
  intros C Hsz Hdev Hn HD. unfold write_head, getlog. kpure. rewrite Hdev.
  set (lg := x_log s) in *. set (b := lg_start lg) in *.
  destruct (bread_fresh _ _ _ b d0 C Hn HD Hsz) as (i & bufs1 & R1 & C1). kstep by exact R1.
  destruct (modb_held _ _ _ b (mkH i 1 (Some self_pid) d0) (mkH i 1 (Some self_pid) (head_bytes lg d0))
    (fun x => set_b_data (head_bytes lg (b_data x)) x) C1) as (bufs2 & R2 & C2); try done.
  { by rewrite lookup_insert_eq. }
  kstep by exact R2.
  destruct (bwrite_eq _ _ _ b (mkH i 1 (Some self_pid) (head_bytes lg d0)) d0 C2) as (R3 & C3);
    [by rewrite lookup_insert_eq|done..|].
  kstep by exact R3.
  destruct (brelse_last _ _ _ b (mkH i 1 (Some self_pid) (head_bytes lg d0)) C3)
    as (bufs4 & lru & R4 & C4); [by rewrite lookup_insert_eq|done..|by rewrite lookup_insert_eq|].
  eexists. split; [exact R4|]. split; [|done].
  match goal with H : bcache ?s ?D ?h' |- bcache ?s ?D ?h0 => replace h0 with h'; [exact H|] end.
  map_cases b b.
Qed.

(** Installing a block the transaction has pinned also unpins it. *)
Lemma install_one_spec s D held lg tail lb b h ld d1 :
  bcache s D held -> (size held < Z.to_nat NBUF)%nat -> lg_dev lg = ROOTDEV ->
  lb = lg_start lg + Z.of_nat tail + 1 -> b = u32 (lh_get lg (Z.of_nat tail)) ->
  held !! lb = None -> D !! lb = Some ld -> held !! b = Some h -> h_lock h = None -> h_ref h = 1 ->
  D !! b = Some d1 ->
  exists s', install_one false lg tail s = Done tt s' /\ bcache s' (<[b := ld]> D) (delete b held) /\
    wrote s s' [(b, ld)].
Proof.
  intros C Hsz Hdev Elb Eb Hlb HD Hb Hlk Href HDb. unfold install_one. kpure.
  rewrite Hdev, <- Elb, <- Eb. assert (Hne : b <> lb) by congruence.
  destruct (bread_fresh _ _ _ lb ld C Hlb HD Hsz) as (i & bufs1 & R1 & C1). kstep by exact R1.
  destruct (bread_held _ _ _ b h C1) as (bufs2 & R2 & C2); [by rewrite lookup_insert_ne|done|lia|].
  kstep by exact R2.
  set (hl := mkH i 1 (Some self_pid) ld) in *.
  set (hb := mkH (h_idx h) (h_ref h + 1) (Some self_pid) (h_data h)) in C2.
  kstep by (apply (getb_held _ _ _ lb hl C2); by rewrite lookup_insert_ne, lookup_insert_eq by done).
  destruct (modb_held _ _ _ b hb (mkH (h_idx h) (h_ref h + 1) (Some self_pid) ld)
    (set_b_data (b_data (hbuf_buf lb hl))) C2) as (bufs3 & R3 & C3);
    [by rewrite lookup_insert_eq|done|cbn; lia|done|].
  kstep by exact R3.
  destruct (bwrite_eq _ _ _ b (mkH (h_idx h) (h_ref h + 1) (Some self_pid) ld) d1 C3) as (R4 & C4);
    [by rewrite lookup_insert_eq|done..|].
  kstep by exact R4. unfold bunpin.
  destruct (modb_held _ _ _ b (mkH (h_idx h) (h_ref h + 1) (Some self_pid) ld)
    (mkH (h_idx h) 1 (Some self_pid) ld) (fun x => set_b_refcnt (u32 (b_refcnt x - 1)) x) C4)
    as (bufs5 & R5 & C5); [by rewrite lookup_insert_eq|done|cbn; lia| |].
  { unfold hbuf_buf, set_b_refcnt. cbn. rewrite Href. done. }
  kstep by exact R5.
  destruct (brelse_last _ _ _ lb hl C5) as (bufs6 & lru & R6 & C6);
    [by rewrite !lookup_insert_ne, lookup_insert_eq by done|done..|by rewrite lookup_insert_ne|].
  kstep by exact R6.
  destruct (brelse_last _ _ _ b (mkH (h_idx h) 1 (Some self_pid) ld) C6) as (bufs7 & lru' & R7 & C7);
    [by rewrite lookup_delete_ne, lookup_insert_eq by done|done..|by rewrite lookup_insert_eq|].
  eexists. split; [exact R7|]. split; [|done].
  match goal with H : bcache ?s ?D ?h' |- bcache ?s ?D ?h0 => replace h0 with h'; [exact H|] end.
  map_cases b lb.
Qed.

(** Recovery installs blocks nobody holds. *)
Lemma recover_one_spec s D held lg tail lb b ld d1 :
  bcache s D held -> (S (size held) < Z.to_nat NBUF)%nat -> lg_dev lg = ROOTDEV ->
  lb = lg_start lg + Z.of_nat tail + 1 -> b = u32 (lh_get lg (Z.of_nat tail)) -> b <> lb ->
  held !! lb = None -> D !! lb = Some ld -> held !! b = None -> D !! b = Some d1 ->
  exists s', install_one true lg tail s = Done tt s' /\ bcache s' (<[b := ld]> D) held /\
    wrote s s' [(b, ld)].
Proof.
  intros C Hsz Hdev Elb Eb Hne Hlb HD Hb HDb. unfold install_one, fsprint. kpure.
  rewrite Hdev, <- Elb, <- Eb. set (s0 := set_x_out _ s).
  assert (C0 : bcache s0 D held) by (eapply bcache_ext; [| | |exact C]; done).
  destruct (bread_fresh _ _ _ lb ld C0 Hlb HD) as (i & bufs1 & R1 & C1); [lia|]. kstep by exact R1.
  destruct (bread_fresh _ _ _ b d1 C1) as (j & bufs2 & R2 & C2);
    [by rewrite lookup_insert_ne|done|by rewrite map_size_insert_None|].
  kstep by exact R2.
  set (hl := mkH i 1 (Some self_pid) ld) in *. set (hb := mkH j 1 (Some self_pid) ld).
  kstep by (apply (getb_held _ _ _ lb hl C2); by rewrite lookup_insert_ne, lookup_insert_eq by done).
  destruct (modb_held _ _ _ b (mkH j 1 (Some self_pid) d1) hb
    (set_b_data (b_data (hbuf_buf lb hl))) C2) as (bufs3 & R3 & C3);
    [by rewrite lookup_insert_eq|done|cbn; lia|done|].
  kstep by exact R3.
  destruct (bwrite_eq _ _ _ b hb d1 C3) as (R4 & C4); [by rewrite lookup_insert_eq|done..|].
  kstep by exact R4. rewrite bind_ret.
  destruct (brelse_last _ _ _ lb hl C4) as (bufs6 & lru & R6 & C6);
    [by rewrite !lookup_insert_ne, lookup_insert_eq by done|done..|by rewrite lookup_insert_ne|].
  kstep by exact R6.
  destruct (brelse_last _ _ _ b hb C6) as (bufs7 & lru' & R7 & C7);
    [by rewrite lookup_delete_ne, lookup_insert_eq by done|done..|by rewrite lookup_insert_eq|].
  eexists. split; [exact R7|]. split; [|done].
  match goal with H : bcache ?s ?D ?h' |- bcache ?s ?D ?h0 => replace h0 with h'; [exact H|] end.
  map_cases b lb.
Qed.
End rounds.

(** ** Sequences of disk writes *)

Definition apply_ws (D : gmap Z (list Z)) (ws : list (Z * list Z)) : gmap Z (list Z) :=
  foldl (fun D w => <[w.1 := w.2]> D) D ws.

Lemma apply_ws_app D ws ws' : apply_ws D (ws ++ ws') = apply_ws (apply_ws D ws) ws'.
Proof. apply foldl_app. Qed.

Lemma apply_ws_other D ws x : (forall w, w ∈ ws -> w.1 <> x) -> apply_ws D ws !! x = D !! x.
Proof.
  revert D. induction ws as [|w ws IH]; intros D Hx; [done|]. cbn. rewrite IH by set_solver.
  apply lookup_insert_ne, Hx. left.
Qed.

Lemma apply_ws_is_Some D ws x : is_Some (D !! x) -> is_Some (apply_ws D ws !! x).
Proof.
  revert D. induction ws as [|w ws IH]; intros D Hx; [done|]. apply IH.
  destruct (decide (w.1 = x)) as [->|]; [rewrite lookup_insert_eq|rewrite lookup_insert_ne by done]; done.
Qed.

(** The writes [(g i, f i)] for [i] in a range. *)
Definition wseq (g : nat -> Z) (f : nat -> list Z) (k j : nat) : list (Z * list Z) :=
  (fun i => (g i, f i)) <$> seq k j.

Lemma wseq_elem g f k j w : w ∈ wseq g f k j -> exists i, (k <= i < k + j)%nat /\ w = (g i, f i).
Proof. intros (i & -> & Hi%elem_of_seq)%list_elem_of_fmap. by exists i. Qed.

Lemma apply_wseq_other D g f k j x :
  (forall i, (k <= i < k + j)%nat -> g i <> x) -> apply_ws D (wseq g f k j) !! x = D !! x.
Proof. intros Hx. apply apply_ws_other. intros w (i & Hi & ->)%wseq_elem. by apply Hx. Qed.

Lemma apply_wseq_same D g f k j i :
  (forall i', (k <= i' < k + j)%nat -> g i' = g i -> f i' = f i) -> (k <= i < k + j)%nat ->
  apply_ws D (wseq g f k j) !! g i = Some (f i).
Proof.
  revert D k i. induction j as [|j IH]; intros D k i Hf Hi; [lia|].
  assert (E : apply_ws D (wseq g f k (S j)) = apply_ws (<[g k := f k]> D) (wseq g f (S k) j)) by done.
  rewrite E. destruct (decide (Exists (fun i' => g i' = g i) (seq (S k) j))) as [Hex|Hno].
  - apply Exists_exists in Hex as (i' & Hi'%elem_of_seq & Eg).
    rewrite <- Eg, <- (Hf i') by (done || lia). apply IH; [|lia].
    intros i2 H2 E2. rewrite (Hf i2), (Hf i'); (done || lia || congruence).
  - rewrite apply_wseq_other.
    2:{ intros i2 H2 E2. apply Hno, Exists_exists. exists i2. split; [by apply elem_of_seq|done]. }
    destruct (decide (i = k)) as [->|]; [by rewrite lookup_insert_eq|].
    destruct Hno. apply Exists_exists. exists i. split; [apply elem_of_seq; lia|done].
Qed.

(** ** The loops *)
Section loops.
Context `{Self} (lg : logst).
Hypothesis Hdev : lg_dev lg = ROOTDEV.
Implicit Types (s : fsstate) (D : gmap Z (list Z)) (held : gmap Z hbuf) (f : nat -> list Z).

Definition log_block (i : nat) : Z := lg_start lg + Z.of_nat i + 1.
Definition home (i : nat) : Z := u32 (lh_get lg (Z.of_nat i)).

(** The buffer of a block a transaction has logged. *)
Definition pinned held (b : Z) (d : list Z) : Prop :=
  exists h, held !! b = Some h /\ h_lock h = None /\ h_ref h = 1 /\ h_data h = d.

Lemma write_log_loop f j k s D held :
  bcache s D held -> (size held < Z.to_nat NBUF)%nat ->
  (forall i, (k <= i < k + j)%nat -> pinned held (home i) (f i) /\ held !! log_block i = None /\
     is_Some (D !! log_block i)) ->
  exists s', for_each (seq k j) (write_log_one lg) s = Done tt s' /\
    bcache s' (apply_ws D (wseq log_block f k j)) held /\ wrote s s' (wseq log_block f k j).
Proof.
  revert k s D. induction j as [|j IH]; intros k s D C Hsz Hi.
  - exists s. split; [done|]. split; [done|]. unfold wrote. by rewrite app_nil_r.
  - cbn [seq for_each]. destruct (Hi k) as ((h & Hh & Hl & Hr & Ed) & Hn & [d0 HD]); [lia|].
    destruct (write_log_one_spec s D held lg k (log_block k) (home k) h d0) as (s1 & R1 & C1 & W1); try done.
    kstep by exact R1. destruct (IH (S k) s1 _ C1 Hsz) as (s2 & R2 & C2 & W2).
    { intros i Hi'. destruct (Hi i) as (Hp & Hn' & HD'); [lia|]. split; [done|]. split; [done|].
      rewrite lookup_insert_ne by (unfold log_block; lia). done. }
    exists s2. split; [exact R2|]. rewrite Ed in C2, W1.
    split; [exact C2|]. exact (wrote_trans _ _ _ _ _ W1 W2).
Qed.

(** Deleting the blocks of a range. *)
Definition unpin held (k j : nat) : gmap Z hbuf := foldl (fun held i => delete (home i) held) held (seq k j).

Lemma unpin_subseteq held k j : unpin held k j ⊆ held.
Proof.
  unfold unpin. generalize (seq k j). intros l. revert held. induction l as [|i l IH]; intros held; [done|].
  cbn. etrans; [apply IH|]. apply delete_subseteq.
Qed.

Lemma unpin_elem held k j i : (k <= i < k + j)%nat -> unpin held k j !! home i = None.
Proof.
  clear Hdev. unfold unpin. intros Hi%elem_of_seq. revert Hi. generalize (seq k j). intros l. revert held.
  induction l as [|i' l IH]; intros held Hi; [set_solver|]. cbn.
  destruct (decide (i ∈ l)) as [Hl|Hl]; [by apply IH|].
  assert (i' = i) as -> by set_solver.
  apply (lookup_weaken_None _ (delete (home i) held)); [by rewrite lookup_delete_eq|].
  clear. generalize (delete (home i) held). induction l as [|j l IH]; intros m; [done|].
  cbn. etrans; [apply IH|]. apply delete_subseteq.
Qed.

Lemma install_loop f j k s D held :
  bcache s D held -> (size held < Z.to_nat NBUF)%nat ->
  (forall i i', (k <= i < k + j)%nat -> (k <= i' < k + j)%nat -> home i = home i' -> i = i') ->
  (forall i, (k <= i < k + j)%nat -> (exists d, pinned held (home i) d) /\ held !! log_block i = None /\
     D !! log_block i = Some (f i) /\ is_Some (D !! home i)) ->
  (forall i i', (k <= i < k + j)%nat -> (k <= i' < k + j)%nat -> home i <> log_block i') ->
  exists s', for_each (seq k j) (install_one false lg) s = Done tt s' /\
    bcache s' (apply_ws D (wseq home f k j)) (unpin held k j) /\ wrote s s' (wseq home f k j).
Proof.
  revert k s D held. induction j as [|j IH]; intros k s D held C Hsz Hinj Hi Hout.
  - exists s. split; [done|]. split; [done|]. unfold wrote. by rewrite app_nil_r.
  - cbn [seq for_each]. destruct (Hi k) as ((d & h & Hh & Hl & Hr & Ed) & Hn & HD & [d1 HDb]); [lia|].
    destruct (install_one_spec s D held lg k (log_block k) (home k) h (f k) d1)
      as (s1 & R1 & C1 & W1); try done.
    kstep by exact R1. destruct (IH (S k) s1 _ _ C1) as (s2 & R2 & C2 & W2).
    { rewrite map_size_delete, Hh. cbn. lia. }
    { intros i i' ? ?. apply Hinj; lia. }
    { intros i Hi'. destruct (Hi i) as ((d' & Hp) & Hn' & HD' & HDb'); [lia|].
      assert (home i <> home k) by (intros E; apply Hinj in E; lia). split.
      - exists d'. destruct Hp as (h' & Hh' & ?). exists h'. by rewrite lookup_delete_ne.
      - split; [apply lookup_delete_None; by right|].
        rewrite !lookup_insert_ne by (done || (apply Hout; lia)). done. }
    { intros i i' ? ?. apply Hout; lia. }
    exists s2. split; [exact R2|]. split; [exact C2|]. exact (wrote_trans _ _ _ _ _ W1 W2).
Qed.

Lemma recover_loop f j k s D :
  bcache s D ∅ ->
  (forall i, (k <= i < k + j)%nat -> D !! log_block i = Some (f i) /\ is_Some (D !! home i)) ->
  (forall i i', (k <= i < k + j)%nat -> (k <= i' < k + j)%nat -> home i <> log_block i') ->
  exists s', for_each (seq k j) (install_one true lg) s = Done tt s' /\
    bcache s' (apply_ws D (wseq home f k j)) ∅ /\ wrote s s' (wseq home f k j).
Proof.
  revert k s D. induction j as [|j IH]; intros k s D C Hi Hout.
  - exists s. split; [done|]. split; [done|]. unfold wrote. by rewrite app_nil_r.
  - cbn [seq for_each]. destruct (Hi k) as (HD & [d1 HDb]); [lia|].
    destruct (recover_one_spec s D ∅ lg k (log_block k) (home k) (f k) d1)
      as (s1 & R1 & C1 & W1); try done.
    { rewrite map_size_empty. unfold NBUF, MAXOPBLOCKS. lia. }
    { apply Hout; lia. }
    kstep by exact R1. destruct (IH (S k) s1 _ C1) as (s2 & R2 & C2 & W2).
    { intros i Hi'. destruct (Hi i) as (HD' & HDb'); [lia|].
      rewrite (lookup_insert_ne _ (home k) (log_block i)) by (apply Hout; lia). split; [done|].
      destruct (decide (home i = home k)) as [->|]; [by rewrite lookup_insert_eq|].
      by rewrite lookup_insert_ne. }
    { intros i i' ? ?. apply Hout; lia. }
    exists s2. split; [exact R2|]. split; [exact C2|]. exact (wrote_trans _ _ _ _ _ W1 W2).
Qed.
End loops.
