(* ===== verification/CrashSpec.v ===== *)
(** * Commit and recovery

    What a whole commit writes, what recovery makes of any disk, and their
    combination. *)

From S2P Require Import Prelude Riscv Kernel Mem Bio Log BioSpec LogSpec.

(** The blocks of the log on disk: the header and the data blocks after it. *)
Definition in_log (start x : Z) : Prop := start <= x <= start + LOGBLOCKS.
#[export] Instance in_log_dec start x : Decision (in_log start x).
Proof. unfold in_log. apply _. Defined.

(** ** Reading the header *)

(** The in-memory header after entries [k..k+j) have been copied. *)
Definition fill_head (hd : list Z) (l : logst) (k j : nat) : logst :=
  foldl (fun l i => set_lh_block (<[i := blk_int hd (4 + 4 * Z.of_nat i)]> (lh_block l)) l) l (seq k j).

Lemma fill_head_same hd l k j :
  let l' := fill_head hd l k j in
  lg_start l' = lg_start l /\ lg_dev l' = lg_dev l /\ lh_n l' = lh_n l /\
  lg_outstanding l' = lg_outstanding l /\ lg_committing l' = lg_committing l /\
  length (lh_block l') = length (lh_block l).
Proof.
  revert k l. induction j as [|j IH]; intros k l; [done|]. cbn zeta in *.
  destruct (IH (S k) (set_lh_block (<[k := blk_int hd (4 + 4 * Z.of_nat k)]> (lh_block l)) l))
    as (? & ? & ? & ? & ? & E). xsimpl in *. rewrite length_insert in E. done.
Qed.

Lemma fill_head_get hd l k j i : (k + j <= length (lh_block l))%nat ->
  lh_block (fill_head hd l k j) !! i =
    if decide (k <= i < k + j)%nat then Some (blk_int hd (4 + 4 * Z.of_nat i)) else lh_block l !! i.
Proof.
  revert k l. induction j as [|j IH]; intros k l Hl; [by rewrite decide_False by lia|].
  change (fill_head hd l k (S j)) with
    (fill_head hd (set_lh_block (<[k := blk_int hd (4 + 4 * Z.of_nat k)]> (lh_block l)) l) (S k) j).
  rewrite IH by (xsimpl; rewrite length_insert; lia). xsimpl.
  destruct (decide (i = k)) as [->|].
  - rewrite decide_False, decide_True by lia. apply list_lookup_insert_eq. lia.
  - rewrite list_lookup_insert_ne by done. do 2 case_decide; (done || lia).
Qed.

Section recovery.
Context `{Self}.
Implicit Types (s : fsstate) (D : gmap Z (list Z)) (held : gmap Z hbuf).

Lemma head_copy hd k j s : (k + j <= Z.to_nat LOGBLOCKS)%nat ->
  for_each (seq k j) (fun i =>
    if Z.of_nat i <? LOGBLOCKS then
      modlog (fun l => set_lh_block (<[i := blk_int hd (4 + 4 * Z.of_nat i)]> (lh_block l)) l)
    else badptr) s = Done tt (set_x_log (fill_head hd (x_log s) k j) s).
Proof.
  revert k s. induction j as [|j IH]; intros k s Hk; cbn [seq for_each].
  - by destruct s.
  - rewrite (proj2 (Z.ltb_lt _ _)) by lia. unfold modlog at 1. kpure. rewrite IH by lia. done.
Qed.

(** [s'] has the cache and the disk of [s] but another log header. *)
Lemma read_head_spec s D hd n :
  bcache s D ∅ -> lg_dev (x_log s) = ROOTDEV -> length (lh_block (x_log s)) = Z.to_nat LOGBLOCKS ->
  D !! lg_start (x_log s) = Some hd -> blk_int hd 0 = n -> n <= LOGBLOCKS ->
  exists s', read_head s = Done tt s' /\ bcache s' D ∅ /\ x_hist s' = x_hist s /\
    x_log s' = fill_head hd (set_lh_n n (x_log s)) 0 (Z.to_nat n) /\
    x_sb s' = x_sb s /\ x_itable s' = x_itable s.
Proof.
  intros C Hdev Hl HD En Hn. unfold read_head, getlog. kpure. rewrite Hdev.
  set (b := lg_start (x_log s)) in *.
  destruct (bread_fresh _ _ _ b hd C) as (i & bufs1 & R1 & C1);
    [done|done|unfold NBUF, MAXOPBLOCKS; rewrite map_size_empty; lia|].
  kstep by exact R1. set (h := mkH i 1 (Some self_pid) hd) in *.
  kstep by (apply (getb_held _ _ _ b h C1); by rewrite lookup_insert_eq).
  cbn zeta. xsimpl. change (b_data (hbuf_buf b h)) with hd. rewrite En. unfold modlog at 1. kpure. xsimpl.
  kstep by (apply head_copy; unfold LOGBLOCKS, MAXOPBLOCKS in *; lia). xsimpl.
  match goal with |- exists s', brelse _ ?st = _ /\ _ => set (s2 := st) end.
  assert (C2 : bcache s2 D (<[b := h]> ∅)) by (eapply bcache_ext; [| | |exact C1]; done).
  destruct (brelse_last _ _ _ b h C2) as (bufs3 & lru & R3 & C3);
    [by rewrite lookup_insert_eq|done..|].
  eexists. split; [exact R3|]. split; [|done].
  replace (∅ : gmap Z hbuf) with (delete b (<[b := h]> (∅ : gmap Z hbuf))); [exact C3|].
  by rewrite delete_insert_id.
Qed.
End recovery.

(** ** Transactions *)

(** The disk is [D]; the blocks logged since the last commit are those of [T],
    each pinned once in its buffer, nothing else is in use, and the header on
    disk says the log is empty. *)
Record txn (s : fsstate) (D T : gmap Z (list Z)) (held : gmap Z hbuf) : Prop := {
  tx_cache : bcache s D held;
  tx_dev : lg_dev (x_log s) = ROOTDEV;
  tx_n : 0 <= lh_n (x_log s) <= LOGBLOCKS;
  tx_arr : length (lh_block (x_log s)) = Z.to_nat LOGBLOCKS;
  tx_int : forall i, 0 <= i < lh_n (x_log s) -> s32 (lh_get (x_log s) i) = lh_get (x_log s) i;
  tx_inj : forall i j, (i < Z.to_nat (lh_n (x_log s)))%nat -> (j < Z.to_nat (lh_n (x_log s)))%nat ->
    home (x_log s) i = home (x_log s) j -> i = j;
  tx_dom : forall b, is_Some (T !! b) <->
    exists i, (i < Z.to_nat (lh_n (x_log s)))%nat /\ home (x_log s) i = b;
  tx_held : forall b, (fun h => (h_ref h, h_lock h, h_data h)) <$> held !! b =
    (fun d => (1, None, d)) <$> T !! b;
  tx_home : forall b, is_Some (T !! b) -> is_Some (D !! b) /\ ~ in_log (lg_start (x_log s)) b;
  tx_log : forall i, 0 <= i < LOGBLOCKS -> is_Some (D !! (lg_start (x_log s) + i + 1));
  tx_head : exists hd, D !! lg_start (x_log s) = Some hd /\ length hd = Z.to_nat BSIZE /\ blk_int hd 0 = 0
}.

(** No block is logged. *)
Lemma txn_empty s D hd :
  bcache s D ∅ -> lg_dev (x_log s) = ROOTDEV -> lh_n (x_log s) = 0 ->
  length (lh_block (x_log s)) = Z.to_nat LOGBLOCKS ->
  (forall i, 0 <= i < LOGBLOCKS -> is_Some (D !! (lg_start (x_log s) + i + 1))) ->
  D !! lg_start (x_log s) = Some hd -> length hd = Z.to_nat BSIZE -> blk_int hd 0 = 0 ->
  txn s D ∅ ∅.
Proof.
  intros C Hd Hn Ha Hl Hh Hlen H0. split; rewrite ?Hn; try done.
  - unfold LOGBLOCKS, MAXOPBLOCKS. lia.
  - intros i Hi. lia.
  - intros b. split; [by intros [? ?]|]. intros (i & Hi & _). change (Z.to_nat 0) with 0%nat in Hi. lia.
  - by intros b [? ?].
  - by exists hd.
Qed.

(** Only part of the log's state matters to the invariant. *)
Lemma txn_ext s s' D T held :
  x_disk s' = x_disk s -> x_bufs s' = x_bufs s -> x_lru s' = x_lru s ->
  lg_dev (x_log s') = lg_dev (x_log s) -> lg_start (x_log s') = lg_start (x_log s) ->
  lh_n (x_log s') = lh_n (x_log s) -> lh_block (x_log s') = lh_block (x_log s) ->
  txn s D T held -> txn s' D T held.
Proof.
  intros E1 E2 E3 E4 E5 E6 E7 [X1 X2 X3 X4 X5 X6 X7 X8 X9 X10 X11].
  assert (Eg : forall i, lh_get (x_log s') i = lh_get (x_log s) i) by (intros; unfold lh_get; by rewrite E7).
  assert (Eh : forall i, home (x_log s') i = home (x_log s) i) by (intros; unfold home; by rewrite Eg).
  split; rewrite ?E4, ?E5, ?E6, ?E7; try done.
  - by eapply bcache_ext.
  - intros i. rewrite Eg. apply X5.
  - intros i j. rewrite !Eh. apply X6.
  - intros b. rewrite X7. by setoid_rewrite Eh.
Qed.

Section txn.
Context (s : fsstate) (D T : gmap Z (list Z)) (held : gmap Z hbuf).
Hypothesis X : txn s D T held.
Local Notation lg := (x_log s).
Local Notation n := (Z.to_nat (lh_n (x_log s))).

(** The logged contents of the block of entry [i]. *)
Definition logged_data (i : nat) : list Z := default [] (T !! home lg i).

Lemma tx_data i : (i < n)%nat -> T !! home lg i = Some (logged_data i).
Proof.
  intros Hi. destruct (proj2 (tx_dom _ _ _ _ X (home lg i))) as [d Hd]; [by exists i|].
  unfold logged_data. by rewrite Hd.
Qed.

Lemma tx_pinned b d : T !! b = Some d -> pinned held b d.
Proof.
  intros Hd. pose proof (tx_held _ _ _ _ X b) as E. rewrite Hd in E.
  destruct (held !! b) as [h|] eqn:Eh; [|done]. cbn in E. exists h. by simplify_eq.
Qed.

Lemma tx_free b : in_log (lg_start lg) b -> held !! b = None.
Proof.
  intros Hb. pose proof (tx_held _ _ _ _ X b) as E. destruct (T !! b) as [d|] eqn:Ed.
  - destruct (tx_home _ _ _ _ X b) as [_ Hn]; [by eexists|done].
  - by destruct (held !! b).
Qed.

Lemma tx_block i : (i < n)%nat -> in_log (lg_start lg) (log_block lg i).
Proof. intros Hi. pose proof (tx_n _ _ _ _ X). unfold in_log, log_block. lia. Qed.

Lemma tx_start : in_log (lg_start lg) (lg_start lg).
Proof. unfold in_log, LOGBLOCKS, MAXOPBLOCKS. lia. Qed.

Lemma tx_out i : (i < n)%nat -> ~ in_log (lg_start lg) (home lg i).
Proof. intros Hi. apply (tx_home _ _ _ _ X). rewrite tx_data by done. by eexists. Qed.

Lemma tx_out_block i j : (i < n)%nat -> (j < n)%nat -> home lg i <> log_block lg j.
Proof. intros Hi Hj E. apply (tx_out i Hi). rewrite E. by apply tx_block. Qed.

(** As many buffers are in use as entries in the header. *)
Lemma tx_size : size held = n.
Proof.
  assert (E1 : dom held = dom T).
  { apply set_eq. intros b. rewrite !elem_of_dom. pose proof (tx_held _ _ _ _ X b) as E.
    destruct (held !! b), (T !! b); naive_solver. }
  rewrite <- size_dom, E1.
  assert (E2 : dom T = list_to_set (home lg <$> seq 0 n)).
  { apply set_eq. intros b. rewrite elem_of_dom, elem_of_list_to_set, list_elem_of_fmap.
    rewrite (tx_dom _ _ _ _ X). split.
    - intros (i & Hi & <-). exists i. split; [done|]. apply elem_of_seq. lia.
    - intros (i & -> & Hi%elem_of_seq). exists i. split; [lia|done]. }
  rewrite E2, size_list_to_set.
  - by rewrite length_fmap, length_seq.
  - apply NoDup_fmap_2_strong; [|apply NoDup_seq]. intros i j Hi%elem_of_seq Hj%elem_of_seq.
    apply (tx_inj _ _ _ _ X); lia.
Qed.

(** Installing every entry leaves nothing pinned. *)
Lemma tx_unpin : unpin lg held 0 n = ∅.
Proof.
  apply map_empty. intros b. destruct (unpin lg held 0 n !! b) as [h|] eqn:E; [|done].
  pose proof (lookup_weaken _ _ _ _ E (unpin_subseteq lg held 0 n)) as Eh.
  pose proof (tx_held _ _ _ _ X b) as Et. rewrite Eh in Et. destruct (T !! b) as [d|] eqn:Ed; [|done].
  destruct (proj1 (tx_dom _ _ _ _ X b)) as (i & Hi & <-); [by eexists|].
  rewrite unpin_elem in E; [done|lia].
Qed.

(** Writing the logged blocks home. *)
Lemma tx_install D' x : D' !! x = D !! x \/ D' !! x = (T ∪ D) !! x ->
  apply_ws D' (wseq (home lg) logged_data 0 n) !! x = (T ∪ D) !! x.
Proof.
  intros Hx. destruct (T !! x) as [d|] eqn:Ed.
  - destruct (proj1 (tx_dom _ _ _ _ X x)) as (i & Hi & <-); [by eexists|].
    rewrite apply_wseq_same; [|by intros i' _ E; unfold logged_data; rewrite E|lia].
    erewrite lookup_union_Some_l by done. unfold logged_data. by rewrite Ed.
  - rewrite apply_wseq_other.
    + rewrite lookup_union_r in * by done. naive_solver.
    + intros i Hi <-. rewrite tx_data in Ed by lia. done.
Qed.
End txn.

(** ** Commit *)

(** The header blocks a commit writes over [hd]. *)
Definition commit_head (l : logst) (hd : list Z) : list Z := head_bytes l hd.
Definition clear_head (l : logst) (hd : list Z) : list Z := head_bytes (set_lh_n 0 l) (commit_head l hd).

(** What a commit writes, in order: the log, its header, the blocks, an empty header. *)
Definition commit_ws (s : fsstate) (T : gmap Z (list Z)) (hd : list Z) : list (Z * list Z) :=
  let l := x_log s in
  let n := Z.to_nat (lh_n l) in
  wseq (log_block l) (logged_data s T) 0 n ++ (lg_start l, commit_head l hd) ::
  wseq (home l) (logged_data s T) 0 n ++ [(lg_start l, clear_head l hd)].

Section commit.
Context `{Self}.
Implicit Types (s : fsstate) (D T : gmap Z (list Z)) (held : gmap Z hbuf).

(** The log blocks keep what was written to them until they are installed. *)
Lemma logged_kept s D T held d i :
  txn s D T held -> (i < Z.to_nat (lh_n (x_log s)))%nat ->
  <[lg_start (x_log s) := d]> (apply_ws D (wseq (log_block (x_log s)) (logged_data s T) 0
    (Z.to_nat (lh_n (x_log s))))) !! log_block (x_log s) i = Some (logged_data s T i).
Proof.
  intros X Hi. rewrite lookup_insert_ne by (unfold log_block; lia).
  apply (apply_wseq_same _ (log_block (x_log s))); [|lia].
  intros i' Hi' E. f_equal. unfold log_block in E. lia.
Qed.

Lemma commit_spec s D T held hd :
  txn s D T held -> 0 < lh_n (x_log s) < NBUF ->
  D !! lg_start (x_log s) = Some hd ->
  exists s', commit s = Done tt s' /\ bcache s' (apply_ws D (commit_ws s T hd)) ∅ /\
    x_hist s' = x_hist s ++ commit_ws s T hd /\ x_log s' = set_lh_n 0 (x_log s) /\
    x_sb s' = x_sb s /\ x_itable s' = x_itable s.
Proof.
  intros X Hn Hhd. unfold commit, getlog. kpure. rewrite (proj2 (Z.ltb_lt _ _)) by lia.
  set (lg := x_log s) in *. set (n := Z.to_nat (lh_n lg)) in *. set (f := logged_data s T).
  assert (En : n = Z.to_nat (lh_n (x_log s))) by done.
  pose proof (tx_size _ _ _ _ X) as Hsz. fold lg n in Hsz.
  assert (Hnb : (size held < Z.to_nat NBUF)%nat) by lia.
  unfold write_log, getlog. kpure. fold lg n.
  destruct (write_log_loop lg (tx_dev _ _ _ _ X) f n 0 s D held (tx_cache _ _ _ _ X) Hnb)
    as (s1 & R1 & C1 & W1).
  { intros i Hi. split; [by apply (tx_pinned _ _ _ _ X), (tx_data _ _ _ _ X); lia|].
    split; [by apply (tx_free _ _ _ _ X), (tx_block _ _ _ _ X); lia|].
    apply (tx_log _ _ _ _ X). pose proof (tx_n _ _ _ _ X). lia. }
  kstep by exact R1. pose proof W1 as (_ & L1 & _ & _).
  destruct (write_head_spec s1 _ held hd C1 Hnb) as (s2 & R2 & C2 & W2).
  { rewrite L1. apply (tx_dev _ _ _ _ X). }
  { rewrite L1. apply (tx_free _ _ _ _ X), tx_start. }
  { rewrite L1, apply_wseq_other; [done|]. intros i Hi. fold lg. unfold log_block. lia. }
  kstep by exact R2. pose proof W2 as (_ & L2 & _ & _). rewrite L1 in L2, C2, W2.
  unfold install_trans, getlog. kpure. rewrite L2. fold lg n.
  destruct (install_loop lg (tx_dev _ _ _ _ X) f n 0 s2 _ held C2 Hnb) as (s3 & R3 & C3 & W3).
  { intros i i' Hi Hi'. apply (tx_inj _ _ _ _ X); lia. }
  { intros i Hi. split; [eexists; by apply (tx_pinned _ _ _ _ X), (tx_data _ _ _ _ X); lia|].
    split; [by apply (tx_free _ _ _ _ X), (tx_block _ _ _ _ X); lia|].
    split; [by apply (logged_kept _ _ _ _ _ _ X); lia|].
    rewrite lookup_insert_ne by (intros E; apply (tx_out _ _ _ _ X i); [lia|fold lg; rewrite <- E; apply tx_start]).
    apply apply_ws_is_Some, (tx_home _ _ _ _ X). rewrite (tx_data _ _ _ _ X) by lia. done. }
  { intros i i' Hi Hi'. apply (tx_out_block _ _ _ _ X); lia. }
  kstep by exact R3. pose proof W3 as (_ & L3 & _ & _). rewrite L2 in L3.
  unfold modlog. kpure. set (s4 := set_x_log _ s3).
  pose proof (tx_unpin _ _ _ _ X) as Hup. fold lg n in Hup. rewrite Hup in C3.
  assert (C4 : bcache s4 _ ∅) by (eapply bcache_ext; [| | |exact C3]; done).
  assert (L4 : x_log s4 = set_lh_n 0 lg) by (unfold s4; cbn; by rewrite L3).
  destruct (write_head_spec s4 _ ∅ (commit_head lg hd) C4) as (s5 & R5 & C5 & W5).
  { rewrite map_size_empty. lia. }
  { rewrite L4. apply (tx_dev _ _ _ _ X). }
  { done. }
  { rewrite L4. xsimpl. rewrite apply_wseq_other; [by rewrite lookup_insert_eq|].
    intros i Hi E. apply (tx_out _ _ _ _ X i); [lia|]. fold lg. rewrite E. apply tx_start. }
  rewrite L4 in C5, W5. exists s5. split; [exact R5|].
  destruct W1 as (H1 & _ & B1 & I1), W2 as (H2 & _ & B2 & I2), W3 as (H3 & _ & B3 & I3),
    W5 as (H5 & L5 & B5 & I5).
  split; [|split; [|split; [|split]]].
  - unfold commit_ws. fold lg n f. rewrite apply_ws_app. cbn [apply_ws foldl].
    fold (apply_ws (<[lg_start lg := commit_head lg hd]> (apply_ws D (wseq (log_block lg) f 0 n)))).
    unfold apply_ws at 1. rewrite foldl_app. exact C5.
  - rewrite H5. change (x_hist s4) with (x_hist s3). rewrite H3, H2, H1. unfold commit_ws.
    fold lg n f. by rewrite <- !(assoc_L (++)).
  - rewrite L5. exact L4.
  - by rewrite B5; change (x_sb s4) with (x_sb s3); rewrite B3, B2, B1.
  - by rewrite I5; change (x_itable s4) with (x_itable s3); rewrite I3, I2, I1.
Qed.
End commit.

(** ** Recovery *)

(** The home block that entry [i] of a header block names. *)
Definition head_home (hd : list Z) (i : nat) : Z := u32 (blk_int hd (4 + 4 * Z.of_nat i)).

(** A disk from which recovery can start: the header counts at most [LOGBLOCKS]
    entries, each naming a block outside the log, and the log block of entry [i]
    holds [f i]. *)
Record recoverable (start : Z) (D : gmap Z (list Z)) (hd : list Z) (n : nat) (f : nat -> list Z) : Prop := {
  rv_head : D !! start = Some hd;
  rv_len : length hd = Z.to_nat BSIZE;
  rv_n : blk_int hd 0 = Z.of_nat n;
  rv_max : Z.of_nat n <= LOGBLOCKS;
  rv_log : forall i, 0 <= i < LOGBLOCKS -> is_Some (D !! (start + i + 1));
  rv_entry : forall i, (i < n)%nat -> D !! (start + Z.of_nat i + 1) = Some (f i) /\
    is_Some (D !! head_home hd i) /\ ~ in_log start (head_home hd i)
}.

Section recover.
Context `{Self}.
Implicit Types (s : fsstate) (D T : gmap Z (list Z)) (held : gmap Z hbuf).

Lemma recover_spec s D hd n f :
  bcache s D ∅ -> lg_dev (x_log s) = ROOTDEV -> length (lh_block (x_log s)) = Z.to_nat LOGBLOCKS ->
  recoverable (lg_start (x_log s)) D hd n f ->
  exists s' D', recover_from_log s = Done tt s' /\ txn s' D' ∅ ∅ /\
    lg_start (x_log s') = lg_start (x_log s) /\ lg_outstanding (x_log s') = lg_outstanding (x_log s) /\
    lg_committing (x_log s') = lg_committing (x_log s) /\
    forall x, ~ in_log (lg_start (x_log s)) x -> D' !! x = apply_ws D (wseq (head_home hd) f 0 n) !! x.
Proof.
  intros C Hdev Hl R. unfold recover_from_log. set (st := lg_start (x_log s)) in *.
  destruct (read_head_spec s D hd (Z.of_nat n) C Hdev Hl (rv_head _ _ _ _ _ R) (rv_n _ _ _ _ _ R)
    (rv_max _ _ _ _ _ R)) as (s1 & R1 & C1 & H1 & L1 & _).
  rewrite Nat2Z.id in L1. kstep by exact R1.
  destruct (fill_head_same hd (set_lh_n (Z.of_nat n) (x_log s)) 0 n) as (E1 & E2 & E3 & E4 & E5 & E6).
  rewrite <- L1 in E1, E2, E3, E4, E5, E6. xsimpl in *.
  assert (Hhome : forall i, (i < n)%nat -> home (x_log s1) i = head_home hd i).
  { intros i Hi. unfold home, lh_get, head_home. rewrite Nat2Z.id, L1, fill_head_get.
    - by rewrite decide_True by lia.
    - xsimpl. rewrite Hl. pose proof (rv_max _ _ _ _ _ R). lia. }
  assert (Hws : wseq (home (x_log s1)) f 0 n = wseq (head_home hd) f 0 n).
  { apply list_fmap_ext. intros k i Hi%lookup_seq. cbn. rewrite Hhome; [done|lia]. }
  unfold install_trans, getlog. kpure. rewrite E3, Nat2Z.id.
  destruct (recover_loop (x_log s1) ltac:(congruence) f n 0 s1 D C1) as (s2 & R2 & C2 & W2).
  { intros i Hi. rewrite Hhome by lia. unfold log_block. rewrite E1.
    destruct (rv_entry _ _ _ _ _ R i) as (? & ? & _); [lia|]. done. }
  { intros i i' Hi Hi' E. destruct (rv_entry _ _ _ _ _ R i) as (_ & _ & Ho); [lia|]. apply Ho.
    rewrite <- Hhome by lia. rewrite E. unfold in_log, log_block. rewrite E1. fold st.
    pose proof (rv_max _ _ _ _ _ R). lia. }
  kstep by exact R2. pose proof W2 as (_ & L2 & _). rewrite Hws in C2.
  set (D2 := apply_ws D (wseq (head_home hd) f 0 n)) in *.
  assert (Hst : D2 !! st = Some hd).
  { unfold D2. rewrite apply_wseq_other; [apply (rv_head _ _ _ _ _ R)|]. intros i Hi E.
    destruct (rv_entry _ _ _ _ _ R i) as (_ & _ & Ho); [lia|]. apply Ho. rewrite E. apply tx_start. }
  unfold modlog. kpure. set (s3 := set_x_log _ s2).
  assert (C3 : bcache s3 D2 ∅) by (eapply bcache_ext; [| | |exact C2]; done).
  assert (L3 : x_log s3 = set_lh_n 0 (x_log s1)) by (unfold s3; cbn; by rewrite L2).
  destruct (write_head_spec s3 D2 ∅ hd C3) as (s4 & R4 & C4 & W4); rewrite ?L3; xsimpl; try (done || congruence).
  { rewrite map_size_empty. unfold NBUF, MAXOPBLOCKS. lia. }
  { by rewrite E1. }
  destruct W4 as (_ & L4 & _). rewrite L3 in L4, C4. xsimpl in *. rewrite E1 in C4. fold st in C4.
  destruct (head_bytes_spec (set_lh_n 0 (x_log s1)) hd (rv_len _ _ _ _ _ R)) as (B1 & B2 & _).
  { xsimpl. unfold LOGBLOCKS, MAXOPBLOCKS. lia. }
  exists s4, (<[st := head_bytes (set_lh_n 0 (x_log s1)) hd]> D2). split; [exact R4|].
  split; [|rewrite L4; xsimpl; split; [done|split; [done|split; [done|]]]].
  - eapply txn_empty; rewrite ?L4; xsimpl; try done; try congruence.
    + intros i Hi. rewrite E1. fold st. rewrite lookup_insert_ne by lia.
      apply apply_ws_is_Some, (rv_log _ _ _ _ _ R). done.
    + rewrite E1. fold st. apply lookup_insert_eq.
  - intros x Hx. rewrite lookup_insert_ne; [done|]. intros <-. apply Hx, tx_start.
Qed.
End recover.

(** ** Crashes during a commit *)

Lemma take_wseq g f k j m : (m <= j)%nat -> take m (wseq g f k j) = wseq g f k m.
Proof. intros Hm. unfold wseq. rewrite <- fmap_take, take_seq. by rewrite Nat.min_l by lia. Qed.

Section crash.
Context (s : fsstate) (D T : gmap Z (list Z)) (held : gmap Z hbuf) (hd : list Z).
Hypothesis X : txn s D T held.
Hypothesis Hhd : D !! lg_start (x_log s) = Some hd.
Hypothesis Hlen : length hd = Z.to_nat BSIZE.
Local Notation lg := (x_log s).
Local Notation n := (Z.to_nat (lh_n (x_log s))).
Local Notation f := (logged_data s T).

(** Log blocks being written: the disk outside the log and the header are as before. *)
Lemma log_writes_out k x : (k <= n)%nat ->
  (~ in_log (lg_start lg) x \/ x = lg_start lg) ->
  apply_ws D (wseq (log_block lg) f 0 k) !! x = D !! x.
Proof.
  intros Hk Hx. apply apply_wseq_other. intros i Hi <-. destruct Hx as [Hx|Hx].
  - apply Hx, (tx_block _ _ _ _ X). lia.
  - unfold log_block in Hx. lia.
Qed.

(** An empty log is recovered by doing nothing. *)
Lemma recoverable_empty D' hd' :
  (forall x, is_Some (D !! x) -> is_Some (D' !! x)) ->
  D' !! lg_start lg = Some hd' -> length hd' = Z.to_nat BSIZE -> blk_int hd' 0 = 0 ->
  recoverable (lg_start lg) D' hd' 0 f.
Proof.
  intros Hs Hd Hl Hn. split; try done.
  - intros i Hi. by apply Hs, (tx_log _ _ _ _ X).
  - intros; lia.
Qed.

Lemma crash_before k : blk_int hd 0 = 0 -> (k <= n)%nat ->
  recoverable (lg_start lg) (apply_ws D (take k (commit_ws s T hd))) hd 0 f /\
  forall x, ~ in_log (lg_start lg) x -> apply_ws D (take k (commit_ws s T hd)) !! x = D !! x.
Proof.
  intros H0 Hk. unfold commit_ws. rewrite take_app_le by (unfold wseq; rewrite length_fmap, length_seq; lia).
  rewrite take_wseq by lia. split.
  - apply recoverable_empty; try done.
    + intros x. apply apply_ws_is_Some.
    + rewrite log_writes_out; [done|lia|by right].
  - intros x Hx. apply log_writes_out; [lia|by left].
Qed.

(** The header a commit writes names the home blocks. *)
Lemma commit_head_home i : (i < n)%nat -> head_home (commit_head lg hd) i = home lg i.
Proof.
  intros Hi. pose proof (tx_n _ _ _ _ X) as Hn.
  destruct (head_bytes_spec lg hd Hlen Hn) as (_ & _ & E). unfold head_home, commit_head, home.
  rewrite E by lia. rewrite (tx_int _ _ _ _ X) by lia. done.
Qed.

(** The disk after the log and its header, and [j] home blocks, were written. *)
Lemma crash_installing j : (j <= n)%nat ->
  let D' := apply_ws D (wseq (log_block lg) f 0 n ++ (lg_start lg, commit_head lg hd) :: wseq (home lg) f 0 j) in
  recoverable (lg_start lg) D' (commit_head lg hd) n f /\
  forall x, ~ in_log (lg_start lg) x ->
    apply_ws D' (wseq (head_home (commit_head lg hd)) f 0 n) !! x = (T ∪ D) !! x.
Proof.
  intros Hj D'. pose proof (tx_n _ _ _ _ X) as Hn.
  assert (ED : D' = apply_ws (<[lg_start lg := commit_head lg hd]> (apply_ws D (wseq (log_block lg) f 0 n)))
    (wseq (home lg) f 0 j)) by (unfold D'; by rewrite apply_ws_app).
  assert (Hin : forall x, in_log (lg_start lg) x -> forall i, (0 <= i < 0 + j)%nat -> home lg i <> x).
  { intros x Hx i Hi <-. apply (tx_out _ _ _ _ X i); [lia|done]. }
  destruct (head_bytes_spec lg hd Hlen Hn) as (B1 & B2 & _). split.
  - split.
    + rewrite ED, apply_wseq_other by apply Hin, tx_start. by rewrite lookup_insert_eq.
    + done.
    + unfold commit_head. rewrite B2. lia.
    + lia.
    + intros i Hi. by apply apply_ws_is_Some, (tx_log _ _ _ _ X).
    + intros i Hi. rewrite commit_head_home by done. split; [|split].
      * rewrite ED, apply_wseq_other by (apply Hin, (tx_block _ _ _ _ X); lia).
        by apply (logged_kept _ _ _ _ _ _ X).
      * apply apply_ws_is_Some, (tx_home _ _ _ _ X). rewrite (tx_data _ _ _ _ X) by lia. done.
      * by apply (tx_out _ _ _ _ X).
  - intros x Hx.
    assert (Hws : wseq (head_home (commit_head lg hd)) f 0 n = wseq (home lg) f 0 n).
    { apply list_fmap_ext. intros m i Hi%lookup_seq. cbn. rewrite commit_head_home; [done|lia]. }
    rewrite Hws. apply (tx_install _ _ _ _ X). rewrite ED.
    assert (E0 : <[lg_start lg := commit_head lg hd]> (apply_ws D (wseq (log_block lg) f 0 n)) !! x = D !! x).
    { rewrite lookup_insert_ne by (intros <-; apply Hx, tx_start). apply log_writes_out; [lia|by left]. }
    destruct (decide (Exists (fun i => home lg i = x) (seq 0 j))) as [Hex|Hno].
    + right. apply Exists_exists in Hex as (i & Hi%elem_of_seq & <-).
      rewrite apply_wseq_same; [|by intros i' _ E; unfold logged_data; rewrite E|lia].
      symmetry. apply lookup_union_Some_l. apply (tx_data _ _ _ _ X). lia.
    + left. rewrite apply_wseq_other; [done|]. intros i Hi E. apply Hno, Exists_exists.
      exists i. split; [by apply elem_of_seq|done].
Qed.

(** After the last write. *)
Lemma crash_after :
  recoverable (lg_start lg) (apply_ws D (commit_ws s T hd)) (clear_head lg hd) 0 f /\
  forall x, ~ in_log (lg_start lg) x -> apply_ws D (commit_ws s T hd) !! x = (T ∪ D) !! x.
Proof.
  pose proof (tx_n _ _ _ _ X) as Hn.
  destruct (head_bytes_spec lg hd Hlen Hn) as (B1 & _).
  destruct (head_bytes_spec (set_lh_n 0 lg) (commit_head lg hd) B1) as (B2 & B3 & _).
  { xsimpl. unfold LOGBLOCKS, MAXOPBLOCKS. lia. }
  assert (E : apply_ws D (commit_ws s T hd) = <[lg_start lg := clear_head lg hd]> (apply_ws
    (<[lg_start lg := commit_head lg hd]> (apply_ws D (wseq (log_block lg) f 0 n))) (wseq (home lg) f 0 n))).
  { unfold commit_ws. rewrite apply_ws_app. cbn [apply_ws foldl]. by rewrite foldl_app. }
  split.
  - apply recoverable_empty; try done.
    + intros x. apply apply_ws_is_Some.
    + by rewrite E, lookup_insert_eq.
  - intros x Hx. rewrite E, lookup_insert_ne by (intros <-; apply Hx, tx_start).
    apply (tx_install _ _ _ _ X). left. rewrite lookup_insert_ne by (intros <-; apply Hx, tx_start).
    apply log_writes_out; [lia|by left].
Qed.

(** The disk at any point of a commit can be recovered, to the old contents until
    the header is written and to the new ones from then on. *)
Lemma crash_recoverable k : blk_int hd 0 = 0 ->
  exists hd' m, recoverable (lg_start lg) (apply_ws D (take k (commit_ws s T hd))) hd' m f /\
  forall x, ~ in_log (lg_start lg) x ->
    apply_ws (apply_ws D (take k (commit_ws s T hd))) (wseq (head_home hd') f 0 m) !! x =
      (if decide (k <= n)%nat then D else T ∪ D) !! x.
Proof.
  intros H0. assert (Hl1 : length (wseq (log_block lg) f 0 n) = n) by (unfold wseq; by rewrite length_fmap, length_seq).
  assert (Hl2 : length (wseq (home lg) f 0 n) = n) by (unfold wseq; by rewrite length_fmap, length_seq).
  case_decide as Hk.
  - exists hd, 0%nat. destruct (crash_before k H0 Hk) as [? Hx]. by split.
  - destruct (decide (k <= 2 * n + 1)%nat) as [Hk2|Hk2].
    + exists (commit_head lg hd), n.
      assert (E : take k (commit_ws s T hd) = wseq (log_block lg) f 0 n ++
        (lg_start lg, commit_head lg hd) :: wseq (home lg) f 0 (k - n - 1)).
      { unfold commit_ws. rewrite take_app_ge by lia. rewrite Hl1.
        destruct (k - n)%nat as [|m] eqn:Em; [lia|]. cbn [take]. do 2 f_equal.
        rewrite take_app_le by lia. rewrite take_wseq by lia. f_equal. lia. }
      rewrite E. apply crash_installing. lia.
    + exists (clear_head lg hd), 0%nat. rewrite take_ge.
      * destruct crash_after as [? Hx]. by split.
      * unfold commit_ws. rewrite length_app, length_cons, length_app, Hl1, Hl2. cbn. lia.
Qed.
End crash.
