(* ===== verification/TxnSpec.v ===== *)
(** * Logging a block

    [log_write] keeps the invariant of transactions: a block is recorded once,
    whatever number of times it is written. *)

From S2P Require Import Prelude Riscv Kernel Mem Bio Log BioSpec LogSpec CrashSpec.

(** ** The search of [log_write] *)
Lemma log_index_spec blocks n b : (n <= length blocks)%nat ->
  (exists i, log_index blocks n b = i /\ (i < n)%nat /\ exists e, blocks !! i = Some e /\ u32 e = b) \/
  (log_index blocks n b = n /\ forall j e, (j < n)%nat -> blocks !! j = Some e -> u32 e <> b).
Proof.
  revert blocks. induction n as [|n IH]; intros blocks Hl.
  - right. split; [by destruct blocks|]. intros; lia.
  - destruct blocks as [|e blocks]; cbn in *; [lia|]. destruct (Z.eqb_spec (u32 e) b) as [E|E].
    + left. exists 0%nat. split; [done|]. split; [lia|]. by exists e.
    + destruct (IH blocks) as [(i & -> & Hi & Hx)|[-> Hno]]; [lia| |].
      * left. exists (S i). split; [done|]. split; [lia|done].
      * right. split; [done|]. intros [|j] e' Hj He; [by simplify_eq/=|]. apply (Hno j e'); [lia|done].
Qed.

Lemma s32_u32 x : s32 (u32 x) = s32 x.
Proof. apply s32_mod. Qed.
Lemma u32_s32 x : 0 <= x < 2 ^ 32 -> u32 (s32 x) = x.
Proof.
  intros Hx. unfold u32, wrap, s32. rewrite Zminus_mod_idemp_l.
  replace (x + 2 ^ 31 - 2 ^ 31) with x by lia. by apply Z.mod_small.
Qed.
Lemma s32_s32 x : s32 (s32 x) = s32 x.
Proof. apply s32_small, s32_range. Qed.

Section logw.
Context `{Self}.
Implicit Types (s : fsstate) (D T : gmap Z (list Z)) (held : gmap Z hbuf).

(** Logging a block that is in the log already changes nothing. *)
Lemma log_write_again s0 s D T held held' n h :
  txn s0 D T held -> x_log s0 = x_log s -> bcache s D held' -> held' !! n = Some h -> is_Some (T !! n) ->
  1 <= lg_outstanding (x_log s) -> lh_n (x_log s) < LOGBLOCKS ->
  log_write (h_idx h) s = Done tt s.
Proof.
  intros X EL C Hn Ht Ho Hl. unfold log_write, getlog. kpure.
  rewrite (proj2 (Z.leb_gt _ _)) by lia. rewrite (proj2 (Z.ltb_ge _ _)) by lia.
  kstep by (apply (getb_held _ _ _ n h C); done). cbn zeta. unfold hbuf_buf; xsimpl.
  pose proof (tx_n _ _ _ _ X) as Hr. pose proof (tx_arr _ _ _ _ X) as Ha.
  destruct (proj1 (tx_dom _ _ _ _ X n) Ht) as (j & Hj & Ej). pose proof (tx_int _ _ _ _ X) as Hint.
  rewrite EL in *.
  destruct (log_index_spec (lh_block (x_log s)) (Z.to_nat (lh_n (x_log s))) n) as
    [(i & -> & Hi & e & He & Eu)|[_ Hno]]; [lia| |].
  - unfold modlog. kpure. rewrite (proj2 (Z.eqb_neq _ _)) by lia. unfold ret. f_equal.
    assert (Es : s32 n = e).
    { rewrite <- Eu, s32_u32. pose proof (Hint (Z.of_nat i)) as E.
      unfold lh_get in E. rewrite Nat2Z.id, He in E. apply E. lia. }
    rewrite Es, list_insert_id by done. destruct s as [? ? ? ? [] ? ? ?]. done.
  - destruct (lookup_lt_is_Some_2 (lh_block (x_log s)) j) as [e He]; [lia|].
    destruct (Hno j e Hj He). rewrite <- Ej. unfold home, lh_get. by rewrite Nat2Z.id, He.
Qed.

(** The header with one more entry. *)
Definition add_entry (l : logst) (n : Z) : logst :=
  set_lh_n (lh_n l + 1) (set_lh_block (<[Z.to_nat (lh_n l) := s32 n]> (lh_block l)) l).

Lemma add_entry_n l n : lh_n (add_entry l n) = lh_n l + 1.
Proof. done. Qed.
Lemma add_entry_start l n : lg_start (add_entry l n) = lg_start l.
Proof. done. Qed.

(** Logging another block appends it and pins its buffer. *)
Lemma log_write_new s0 s D T held held' n h :
  txn s0 D T held -> x_log s0 = x_log s -> bcache s D held' -> held' !! n = Some h -> T !! n = None ->
  1 <= lg_outstanding (x_log s) -> lh_n (x_log s) < LOGBLOCKS -> h_ref h + 1 < 2 ^ 31 ->
  exists bufs, log_write (h_idx h) s = Done tt (set_x_log (add_entry (x_log s) n) (set_x_bufs bufs s)) /\
    bcache (set_x_log (add_entry (x_log s) n) (set_x_bufs bufs s)) D
      (<[n := mkH (h_idx h) (h_ref h + 1) (h_lock h) (h_data h)]> held').
Proof.
  intros X EL C Hn Ht Ho Hl Hr2. unfold log_write, getlog. kpure.
  rewrite (proj2 (Z.leb_gt _ _)) by lia. rewrite (proj2 (Z.ltb_ge _ _)) by lia.
  kstep by (apply (getb_held _ _ _ n h C); done). cbn zeta. unfold hbuf_buf; xsimpl.
  pose proof (tx_n _ _ _ _ X) as Hr. pose proof (tx_arr _ _ _ _ X) as Ha.
  pose proof (tx_dom _ _ _ _ X n) as Hdom. rewrite EL in *.
  destruct (log_index_spec (lh_block (x_log s)) (Z.to_nat (lh_n (x_log s))) n) as
    [(i & -> & Hi & e & He & Eu)|[-> Hno]]; [lia| |].
  - assert (is_Some (T !! n)) as [? ?]; [|congruence]. apply Hdom. exists i. split; [done|].
    unfold home, lh_get. by rewrite Nat2Z.id, He.
  - unfold modlog at 1. kpure. rewrite (proj2 (Z.eqb_eq _ _)) by lia.
    set (s1 := set_x_log _ s). assert (C1 : bcache s1 D held') by (eapply bcache_ext; [| | |exact C]; done).
    destruct (bc_held _ _ _ C _ _ Hn) as [_ Href].
    destruct (modb_held _ _ _ n h (mkH (h_idx h) (h_ref h + 1) (h_lock h) (h_data h))
      (fun x => set_b_refcnt (u32 (b_refcnt x + 1)) x) C1) as (bufs & R1 & C2); [done|done|cbn; lia| |].
    { unfold hbuf_buf, set_b_refcnt. cbn. by rewrite u32_small by lia. }
    unfold bpin. kstep by exact R1. exists bufs. split; [done|]. eapply bcache_ext; [| | |exact C2]; done.
Qed.

(** The invariant with one more entry. *)
Lemma txn_add s s' D T held held' n h d :
  txn s D T held -> x_log s' = add_entry (x_log s) n -> bcache s' D held' ->
  held' = <[n := h]> held -> h_ref h = 1 -> h_lock h = None -> h_data h = d ->
  T !! n = None -> lh_n (x_log s) < LOGBLOCKS -> 0 <= n < 2 ^ 32 ->
  is_Some (D !! n) -> ~ in_log (lg_start (x_log s)) n ->
  txn s' D (<[n := d]> T) held'.
Proof.
  intros X L C -> Hr Hlk Hd Ht Hl Hn HD Hout.
  pose proof (tx_n _ _ _ _ X) as Hrg. pose proof (tx_arr _ _ _ _ X) as Ha.
  set (k := Z.to_nat (lh_n (x_log s))) in *.
  assert (Ek : Z.to_nat (lh_n (x_log s) + 1) = S k) by (unfold k; lia).
  assert (Hget : forall i, 0 <= i -> lh_get (add_entry (x_log s) n) i =
    if decide (i = lh_n (x_log s)) then s32 n else lh_get (x_log s) i).
  { intros i Hi. unfold lh_get, add_entry; xsimpl. case_decide as E.
    - subst i. rewrite list_lookup_insert_eq by lia. done.
    - rewrite list_lookup_insert_ne by lia. done. }
  assert (Hhome : forall i, home (add_entry (x_log s) n) i = if decide (i = k) then n else home (x_log s) i).
  { intros i. unfold home. rewrite Hget by lia. do 2 case_decide; try lia; try done. by apply u32_s32. }
  assert (Hnew : forall i, (i < k)%nat -> home (x_log s) i <> n).
  { intros i Hi E. assert (is_Some (T !! n)) as [? ?]; [|congruence]. apply (tx_dom _ _ _ _ X). by exists i. }
  split; rewrite ?L, ?add_entry_n, ?add_entry_start.
  - done.
  - apply (tx_dev _ _ _ _ X).
  - lia.
  - unfold add_entry; xsimpl. by rewrite length_insert.
  - intros i Hi. rewrite Hget by lia. case_decide; [apply s32_s32|]. apply (tx_int _ _ _ _ X). lia.
  - intros i j. rewrite Ek, !Hhome. intros Hi Hj.
    do 2 case_decide; subst; try done.
    + intros E. destruct (Hnew j); [lia|done].
    + intros E. destruct (Hnew i); [lia|done].
    + apply (tx_inj _ _ _ _ X); lia.
  - intros b. split.
    + intros Hb. destruct (decide (b = n)) as [->|].
      * exists k. rewrite Hhome, decide_True by done. split; [lia|done].
      * rewrite lookup_insert_ne in Hb by done. apply (tx_dom _ _ _ _ X) in Hb as (i & Hi & <-).
        exists i. rewrite Hhome, decide_False by lia. split; [lia|done].
    + intros (i & Hi & <-). rewrite Hhome. case_decide.
      * by rewrite lookup_insert_eq.
      * rewrite lookup_insert_ne by (apply not_eq_sym, Hnew; lia). apply (tx_dom _ _ _ _ X).
        exists i. split; [lia|done].
  - intros b. destruct (decide (b = n)) as [->|].
    + rewrite !lookup_insert_eq. cbn. by rewrite Hr, Hlk, Hd.
    + rewrite !lookup_insert_ne by done. apply (tx_held _ _ _ _ X).
  - intros b Hb. destruct (decide (b = n)) as [->|]; [done|]. rewrite lookup_insert_ne in Hb by done.
    by apply (tx_home _ _ _ _ X).
  - apply (tx_log _ _ _ _ X).
  - apply (tx_head _ _ _ _ X).
Qed.
(** The invariant when a logged block is written again. *)
Lemma txn_again s s' D T held n h d :
  txn s D T held -> x_log s' = x_log s -> bcache s' D (<[n := h]> held) ->
  h_ref h = 1 -> h_lock h = None -> h_data h = d -> is_Some (T !! n) ->
  txn s' D (<[n := d]> T) (<[n := h]> held).
Proof.
  intros X L C Hr Hlk Hd Ht. pose proof (tx_home _ _ _ _ X _ Ht) as HD.
  split; rewrite ?L; try (by apply X).
  - exact C.
  - intros b. rewrite <- (tx_dom _ _ _ _ X b). destruct (decide (b = n)) as [->|].
    + rewrite lookup_insert_eq. by split.
    + by rewrite lookup_insert_ne.
  - intros b. destruct (decide (b = n)) as [->|]; [rewrite !lookup_insert_eq; cbn; by rewrite Hr, Hlk, Hd|].
    rewrite !lookup_insert_ne by done. apply (tx_held _ _ _ _ X).
  - intros b Hb. destruct (decide (b = n)) as [->|]; [done|]. rewrite lookup_insert_ne in Hb by done.
    by apply (tx_home _ _ _ _ X).
Qed.
End logw.

(** ** A block being used inside a transaction *)
Section busy.
Context `{Self}.
Implicit Types (s : fsstate) (D T : gmap Z (list Z)) (held : gmap Z hbuf).

(** From the state [s0] between uses of blocks, buffer [i] of block [n] has been
    locked and holds [d]. *)
Record busy (s0 s : fsstate) D T held (n : Z) (i : nat) (d : list Z) : Prop := {
  bz_txn : txn s0 D T held;
  bz_cache : bcache s D (<[n := mkH i (if T !! n is Some _ then 2 else 1) (Some self_pid) d]> held);
  bz_idx : forall h, held !! n = Some h -> h_idx h = i;
  bz_frame : wrote s0 s []
}.

Lemma tx_held_none s D T held n : txn s D T held -> T !! n = None -> held !! n = None.
Proof.
  intros X Hn. pose proof (tx_held _ _ _ _ X n) as E. rewrite Hn in E. by destruct (held !! n).
Qed.

(** A block is read as the transaction last wrote it. *)
Lemma busy_bread s D T held n d :
  txn s D T held -> lh_n (x_log s) < NBUF -> (T ∪ D) !! n = Some d ->
  exists i s', bread ROOTDEV n s = Done i s' /\ busy s s' D T held n i d.
Proof.
  intros X Hn Hd. pose proof (tx_size _ _ _ _ X) as Hsz. pose proof (tx_n _ _ _ _ X) as Hr.
  destruct (T !! n) as [d'|] eqn:Et.
  - erewrite lookup_union_Some_l in Hd by done. simplify_eq.
    destruct (tx_pinned _ _ _ _ X _ _ Et) as (h & Hh & Hl & Hrf & <-).
    destruct (bread_held _ _ _ n h (tx_cache _ _ _ _ X) Hh Hl) as (bufs & R & C); [lia|].
    exists (h_idx h), (set_x_bufs bufs s). split; [done|]. split; [done| | |].
    + rewrite Et. rewrite Hrf in C. exact C.
    + intros h' Hh'. congruence.
    + unfold wrote. by rewrite app_nil_r.
  - rewrite lookup_union_r in Hd by done. pose proof (tx_held_none _ _ _ _ _ X Et) as Hh.
    destruct (bread_fresh _ _ _ n d (tx_cache _ _ _ _ X) Hh Hd) as (i & bufs & R & C); [lia|].
    exists i, (set_x_bufs bufs s). split; [done|]. split; [done| | |].
    + rewrite Et. exact C.
    + intros h' Hh'. congruence.
    + unfold wrote. by rewrite app_nil_r.
Qed.

Lemma busy_getb s0 s D T held n i d :
  busy s0 s D T held n i d ->
  getb i s = Done (mkBuf true ROOTDEV n (Some self_pid) (if T !! n is Some _ then 2 else 1) d) s.
Proof.
  intros [_ C _ _]. exact (getb_held _ _ _ n _ C (lookup_insert_eq _ _ _)).
Qed.

Lemma busy_modb s0 s D T held n i d g :
  busy s0 s D T held n i d ->
  exists s', modb i (fun x => set_b_data (g (b_data x)) x) s = Done tt s' /\ busy s0 s' D T held n i (g d).
Proof.
  intros [X C Hi W]. destruct (modb_held _ _ _ n _ (mkH i (if T !! n is Some _ then 2 else 1) (Some self_pid) (g d))
    (fun x => set_b_data (g (b_data x)) x) C (lookup_insert_eq _ _ _)) as (bufs & R & C');
    [done|cbn; destruct (T !! n); lia|done|].
  eexists. split; [exact R|]. split; try done. by rewrite insert_insert_eq in C'.
Qed.

(** Releasing a block that was not changed. *)
Lemma busy_brelse s0 s D T held n i d :
  busy s0 s D T held n i d -> (T ∪ D) !! n = Some d ->
  exists s', brelse i s = Done tt s' /\ txn s' D T held /\ wrote s0 s' [].
Proof.
  intros [X C Hi W] Hd.
  assert (Hfin : forall s', bcache s' D held -> wrote s0 s' [] -> txn s' D T held).
  { intros s' C' (_ & L & _). destruct X. split; rewrite ?L; done. }
  destruct (T !! n) as [d'|] eqn:Et.
  - erewrite lookup_union_Some_l in Hd by done. simplify_eq.
    destruct (tx_pinned _ _ _ _ X _ _ Et) as (h & Hh & Hl & Hrf & Ed).
    destruct (brelse_held _ _ _ n _ C (lookup_insert_eq _ _ _)) as (bufs & R & C'); [done|done|].
    eexists. split; [exact R|]. assert (W' : wrote s0 (set_x_bufs bufs s) []) by exact W.
    split; [|exact W']. apply Hfin; [|exact W']. cbn in C'. rewrite insert_insert_eq, insert_id in C'; [done|].
    rewrite Hh. specialize (Hi _ Hh). destruct h; cbn in *. by subst.
  - rewrite lookup_union_r in Hd by done.
    destruct (brelse_last _ _ _ n _ C (lookup_insert_eq _ _ _)) as (bufs & lru & R & C'); [done..|].
    eexists. split; [exact R|]. assert (W' : wrote s0 (set_x_lru lru (set_x_bufs bufs s)) []) by exact W.
    split; [|exact W']. apply Hfin; [|exact W']. rewrite delete_insert_id in C'; [done|].
    by apply (tx_held_none _ _ _ _ _ X).
Qed.

(** What logging keeps of the state. *)
Definition logged (s s' : fsstate) (n : Z) (T : gmap Z (list Z)) : Prop :=
  x_hist s' = x_hist s /\ x_sb s' = x_sb s /\ x_itable s' = x_itable s /\
  x_log s' = if T !! n is Some _ then x_log s else add_entry (x_log s) n.

(** A block that was changed is logged and released. *)
Lemma busy_log s0 s D T held n i d :
  busy s0 s D T held n i d -> 1 <= lg_outstanding (x_log s0) -> lh_n (x_log s0) < LOGBLOCKS ->
  0 <= n < 2 ^ 32 -> is_Some (D !! n) -> ~ in_log (lg_start (x_log s0)) n ->
  exists s' held', (log_write i ;; brelse i) s = Done tt s' /\ txn s' D (<[n := d]> T) held' /\
    logged s0 s' n T.
Proof.
  intros [X C Hi W] Ho Hl Hn HD Hout. pose proof W as (W1 & W2 & W3 & W4). rewrite app_nil_r in W1.
  unfold logged. destruct (T !! n) as [d'|] eqn:Et.
  - destruct (tx_pinned _ _ _ _ X _ _ Et) as (h & Hh & Hlk & Hrf & Ed). specialize (Hi _ Hh).
    kstep by (eapply (log_write_again s0 s D T held _ n (mkH i 2 (Some self_pid) d));
      [done|by rewrite W2|exact C|by rewrite lookup_insert_eq|by rewrite Et|by rewrite W2|by rewrite W2]).
    destruct (brelse_held _ _ _ n _ C (lookup_insert_eq _ _ _)) as (bufs & R & C'); [done|done|].
    eexists _, _. split; [exact R|]. split; [|done]. cbn in C'. rewrite insert_insert_eq in C'.
    by eapply (txn_again s0 _ D T held).
  - destruct (log_write_new s0 s D T held _ n _ X (eq_sym W2) C (lookup_insert_eq _ _ _)) as (bufs & R & C');
      [done|by rewrite W2|by rewrite W2|cbn; lia|].
    kstep by exact R. cbn in C'. rewrite insert_insert_eq in C'.
    destruct (brelse_held _ _ _ n _ C' (lookup_insert_eq _ _ _)) as (bufs' & R' & C2); [done|done|].
    eexists _, _. split; [exact R'|]. cbn in C2. rewrite insert_insert_eq in C2. xsimpl.
    rewrite W2. rewrite W2 in C2. split; [|done].
    by eapply (txn_add s0 _ D T held).
Qed.
End busy.
