(* ===== verification/LogTheorems.v ===== *)
(** * Theorems on the log

    A transaction is atomic with respect to crashes; what it may not do. *)

From S2P Require Import Prelude Riscv Kernel Mem Bio Log Fs BioSpec LogSpec CrashSpec TxnSpec Check.

(** ** Booting *)

Definition zero_buf : buf := mkBuf false 0 0 None 0 (replicate (Z.to_nat BSIZE) 0).
Definition zero_log : logst := mkLog 0 0 false 0 0 (replicate (Z.to_nat LOGBLOCKS) 0).
Definition zero_inode : inode := mkInode 0 0 0 None false 0 0 0 0 0 (replicate 13 0).

(** The file system's data when the kernel starts with the disk [D]. *)
Definition boot (D : gmap Z (list Z)) : fsstate :=
  mkFs D [] (replicate (Z.to_nat NBUF) zero_buf) [] zero_log (mkSb 0 0 0 0 0 0 0 0)
    (replicate (Z.to_nat NINODE) zero_inode) [].

Section boot.
Context `{Self}.

Lemma binit_loop k s bs j :
  x_bufs s = bs -> (forall i, (k <= i < k + j)%nat -> bs !! i = Some zero_buf) ->
  for_each (seq k j) (fun b => modb b (set_b_lock None) ;; modify (fun s => set_x_lru (b :: x_lru s) s)) s =
  Done tt (set_x_lru (rev (seq k j) ++ x_lru s) s).
Proof.
  revert k s. induction j as [|j IH]; intros k s E Hb; cbn [seq for_each rev app].
  - by destruct s.
  - kpure. kstep by (apply modb_eq; rewrite E; apply Hb; lia). kpure.
    assert (E1 : setbuf k (set_b_lock None zero_buf) s = s).
    { unfold setbuf. rewrite E, list_insert_id by (apply Hb; lia). rewrite <- E. by destruct s. }
    rewrite E1, IH; [|done|intros i Hi; apply Hb; lia]. xsimpl. by rewrite <- (assoc_L (++)).
Qed.

Lemma binit_boot D : exists s, binit (boot D) = Done tt s /\ bcache s D ∅ /\ x_log s = zero_log.
Proof.
  unfold binit. erewrite binit_loop; [|done|].
  2:{ intros i Hi. unfold boot; xsimpl. apply lookup_replicate. split; [done|lia]. }
  eexists. split; [done|]. split; [|done]. split; unfold boot; xsimpl.
  - done.
  - apply length_replicate.
  - rewrite app_nil_r. symmetry. apply Permutation_rev.
  - done.
  - intros i x [-> _]%lookup_replicate. right. split; [done|]. split; [done|]. by intros.
  - by intros i j x y [-> _]%lookup_replicate.
Qed.

(** Recovery at boot. *)
Lemma boot_recovers D sb hd n f :
  recoverable (sb_logstart sb) D hd n f ->
  exists s D', (binit ;; initlog ROOTDEV sb) (boot D) = Done tt s /\ txn s D' ∅ ∅ /\
    lg_start (x_log s) = sb_logstart sb /\ lg_outstanding (x_log s) = 0 /\ lg_committing (x_log s) = false /\
    forall x, ~ in_log (sb_logstart sb) x -> D' !! x = apply_ws D (wseq (head_home hd) f 0 n) !! x.
Proof.
  intros R. destruct (binit_boot D) as (s0 & R0 & C0 & L0). kstep by exact R0.
  unfold initlog, modlog. kpure. set (s1 := set_x_log _ s0).
  assert (C1 : bcache s1 D ∅) by (eapply bcache_ext; [| | |exact C0]; done).
  destruct (recover_spec s1 D hd n f C1) as (s2 & D' & R2 & X & E1 & E2 & E3 & E4);
    [done|by unfold s1; xsimpl; rewrite L0|done|].
  unfold s1 in E2, E3; xsimpl in *. rewrite L0 in E2, E3. exists s2, D'.
  split; [exact R2|]. split; [exact X|]. split; [exact E1|]. split; [exact E2|]. split; [exact E3|exact E4].
Qed.

Lemma end_op_txn s D T held :
  txn s D T held -> lh_n (x_log s) < NBUF -> lg_outstanding (x_log s) = 1 -> lg_committing (x_log s) = false ->
  exists s' ws, end_op s = Done tt s' /\ x_hist s' = x_hist s ++ ws /\ txn s' (apply_ws D ws) ∅ ∅ /\
    lg_start (x_log s') = lg_start (x_log s) /\
    lg_outstanding (x_log s') = 0 /\ lg_committing (x_log s') = false /\
    exists hd, D !! lg_start (x_log s) = Some hd /\ length hd = Z.to_nat BSIZE /\ blk_int hd 0 = 0 /\
      ws = if 0 <? lh_n (x_log s) then commit_ws s T hd else [].
Proof.
  intros X Hn Ho Hc. destruct (tx_head _ _ _ _ X) as (hd & Hhd & Hlen & H0).
  pose proof (tx_n _ _ _ _ X) as Hr.
  unfold end_op, modlog, getlog. kpure. xsimpl. rewrite Hc, Ho. change (1 - 1 =? 0) with true. cbn match. kpure.
  match goal with |- context [bind commit _ ?st] => set (s1 := st) end. destruct (Z.ltb_spec 0 (lh_n (x_log s))) as [Hp|Hp].
  - assert (X1 : txn s1 D T held) by (by eapply (txn_ext s)).
    destruct (commit_spec s1 D T held hd X1) as (s2 & R2 & C2 & H2 & L2 & _ & _); [done|done|].
    kstep by exact R2. destruct (crash_after s D T held hd X Hlen) as [Rv _].
    eexists _, (commit_ws s T hd). split; [reflexivity|]. split; [exact H2|]. xsimpl. rewrite L2.
    split; [|split; [done|split; [done|split; [done|by exists hd]]]].
    apply (txn_empty _ _ (clear_head (x_log s) hd)); xsimpl; rewrite ?L2; unfold s1; xsimpl; try done.
    + eapply bcache_ext; [| | |exact C2]; done.
    + apply (tx_dev _ _ _ _ X).
    + apply (tx_arr _ _ _ _ X).
    + apply (rv_log _ _ _ _ _ Rv).
    + apply (rv_head _ _ _ _ _ Rv).
    + apply (rv_len _ _ _ _ _ Rv).
  - assert (E0 : lh_n (x_log s) = 0) by lia.
    assert (T = ∅) as ->.
    { apply map_empty. intros b. apply eq_None_not_Some. intros (i & Hi & _)%(tx_dom _ _ _ _ X). lia. }
    assert (held = ∅) as -> by (apply map_size_empty_iff; rewrite (tx_size _ _ _ _ X); lia).
    assert (Rc : commit s1 = Done tt s1).
    { unfold commit, getlog. kpure. unfold s1. xsimpl. by rewrite E0. }
    kstep by exact Rc. eexists _, []. split; [reflexivity|]. xsimpl. rewrite app_nil_r.
    split; [done|]. split; [by eapply (txn_ext s)|]. split; [done|]. split; [done|]. split; [done|].
    by exists hd.
Qed.
End boot.

(** ** A full log *)

(** When as many blocks are in use as there are buffers, every buffer is in use. *)
Lemma bcache_full s D held i x :
  bcache s D held -> size held = Z.to_nat NBUF -> x_bufs s !! i = Some x ->
  exists n h, held !! n = Some h /\ h_idx h = i.
Proof.
  intros C Hsz Hx. set (l := h_idx <$> (map_to_list held).*2).
  assert (Hidx : forall n h, held !! n = Some h -> (h_idx h < Z.to_nat NBUF)%nat).
  { intros n h Hh. destruct (bc_held _ _ _ C _ _ Hh) as [Hb _]. apply lookup_lt_Some in Hb.
    by rewrite (bc_len _ _ _ C) in Hb. }
  assert (Hnd : NoDup l).
  { unfold l. rewrite <- list_fmap_compose. apply NoDup_fmap_2_strong; [|apply NoDup_map_to_list].
    intros [n h] [n' h'] Hh%elem_of_map_to_list Hh'%elem_of_map_to_list E. cbn in E.
    destruct (bc_held _ _ _ C _ _ Hh) as [Hb _], (bc_held _ _ _ C _ _ Hh') as [Hb' _].
    rewrite E, Hb' in Hb. injection Hb as -> _ _ _. congruence. }
  assert (Hp : l ≡ₚ seq 0 (Z.to_nat NBUF)).
  { apply submseteq_length_Permutation.
    - apply NoDup_submseteq; [done|]. intros j (h & -> & Hj)%list_elem_of_fmap.
      apply list_elem_of_fmap in Hj as ([n h'] & -> & Hh%elem_of_map_to_list).
      apply elem_of_seq. specialize (Hidx _ _ Hh). cbn. lia.
    - rewrite length_seq. unfold l. rewrite !length_fmap. rewrite length_map_to_list. lia. }
  apply lookup_lt_Some in Hx. rewrite (bc_len _ _ _ C) in Hx.
  assert (Hin : i ∈ l) by (rewrite Hp; apply elem_of_seq; lia).
  apply list_elem_of_fmap in Hin as (h & -> & Hj).
  apply list_elem_of_fmap in Hj as ([n h'] & -> & Hh%elem_of_map_to_list). by exists n, h'.
Qed.

Section full.
Context `{Self}.

(** Then a block that is in none of them cannot be read. *)
Lemma bread_no_buffers s D held n :
  bcache s D held -> size held = Z.to_nat NBUF -> held !! n = None ->
  bread ROOTDEV n s = Panic "bget: no buffers".
Proof.
  intros C Hsz Hn. unfold bread. apply bind_panic. unfold bget. kpure.
  destruct (find_buf (cached ROOTDEV n) (x_lru s) (x_bufs s)) as [i|] eqn:E1.
  - apply find_buf_Some in E1 as (_ & x & Hx & Hp).
    apply andb_true_iff in Hp as [E1%Z.eqb_eq E2%Z.eqb_eq].
    destruct (bcache_full _ _ _ _ _ C Hsz Hx) as (n' & h & Hh & <-).
    destruct (find_other _ _ _ C _ _ _ Hx Hn E1 E2) as [_ Hno]. by destruct (Hno _ _ Hh).
  - destruct (find_buf (fun x => b_refcnt x =? 0) (rev (x_lru s)) (x_bufs s)) as [i|] eqn:E2; [|done].
    apply find_buf_Some in E2 as (_ & x & Hx & Hr%Z.eqb_eq).
    destruct (bcache_full _ _ _ _ _ C Hsz Hx) as (n' & h & Hh & <-).
    destruct (bc_held _ _ _ C _ _ Hh) as [Hx' Href]. rewrite Hx in Hx'. simplify_eq/=. lia.
Qed.
End full.

(** ** Writing a block in a transaction *)

Definition zero_block : list Z := replicate (Z.to_nat BSIZE) 0.

Section bzero.
Context `{Self}.

Lemma bzero_txn s D T held n :
  txn s D T held -> 1 <= lg_outstanding (x_log s) -> lh_n (x_log s) < LOGBLOCKS ->
  0 <= n < 2 ^ 32 -> is_Some (D !! n) -> ~ in_log (lg_start (x_log s)) n ->
  exists s' held', bzero ROOTDEV n s = Done tt s' /\ txn s' D (<[n := zero_block]> T) held' /\
    logged s s' n T.
Proof.
  intros X Ho Hl Hn [d Hd] Hout. unfold bzero.
  assert (Hc : is_Some ((T ∪ D) !! n)) by (rewrite lookup_union, Hd; by destruct (T !! n)).
  destruct Hc as [d' Hd']. destruct (busy_bread _ _ _ _ _ _ X Hl Hd') as (i & s1 & R1 & B1).
  kstep by exact R1.
  destruct (busy_modb _ _ _ _ _ _ _ _ (fun _ => zero_block) B1) as (s2 & R2 & B2). kstep by exact R2.
  apply (busy_log _ _ _ _ _ _ _ _ B2); try done.
Qed.

(** Several blocks. *)
Lemma bzero_list l s D T held :
  txn s D T held -> 1 <= lg_outstanding (x_log s) -> lh_n (x_log s) + Z.of_nat (length l) <= LOGBLOCKS ->
  (forall n, n ∈ l -> 0 <= n < 2 ^ 32 /\ is_Some (D !! n) /\ ~ in_log (lg_start (x_log s)) n) ->
  NoDup l -> (forall n, n ∈ l -> T !! n = None) ->
  exists s' held', for_each l (bzero ROOTDEV) s = Done tt s' /\
    txn s' D (list_to_map ((fun n => (n, zero_block)) <$> reverse l) ∪ T) held' /\
    lh_n (x_log s') = lh_n (x_log s) + Z.of_nat (length l) /\
    lg_outstanding (x_log s') = lg_outstanding (x_log s) /\
    lg_committing (x_log s') = lg_committing (x_log s) /\ lg_start (x_log s') = lg_start (x_log s) /\
    x_hist s' = x_hist s.
Proof.
  revert s T held. induction l as [|n l IH]; intros s T held X Ho Hl Hn Hnd Hnew.
  - exists s, held. cbn. rewrite (left_id_L ∅ (∪)). split; [done|]. split; [done|]. split; [lia|done].
  - cbn [length] in Hl. apply NoDup_cons in Hnd as [Hnl Hnd]. cbn [for_each].
    destruct (Hn n) as (Hr & Hs & Hout); [by left|].
    destruct (bzero_txn _ _ _ _ n X Ho ltac:(lia) Hr Hs Hout) as (s1 & held1 & R1 & X1 & E1 & E2 & E3 & E4).
    rewrite (Hnew n) in E4 by (by left). kstep by exact R1.
    destruct (IH s1 _ _ X1) as (s2 & held2 & R2 & X2 & F1 & F2 & F3 & F4 & F5); rewrite ?E4, ?add_entry_n, ?add_entry_start; try done.
    + lia.
    + intros m Hm. apply Hn. by right.
    + intros m Hm. rewrite lookup_insert_ne by (intros ->; done). apply Hnew. by right.
    + exists s2, held2. split; [exact R2|]. rewrite E4 in F1, F2, F3, F4. rewrite add_entry_n in F1.
      rewrite F1, F2, F3, F4, F5, E1. split; [|cbn; split; [lia|done]].
      assert (Em : list_to_map ((fun n => (n, zero_block)) <$> reverse (n :: l)) ∪ T =
        list_to_map ((fun n => (n, zero_block)) <$> reverse l) ∪ <[n := zero_block]> T); [|by rewrite Em].
      rewrite reverse_cons, fmap_app, list_to_map_app, <- (assoc_L (∪)). cbn.
      by rewrite <- insert_union_l, (left_id_L ∅ (∪)).
Qed.
End bzero.

(** ** A disk with an empty log *)
Definition demo_self : Self := {| self_pid := 1; self_cwd := 0 |}.
Definition demo_disk : gmap Z (list Z) :=
  list_to_map ((fun i => (Z.of_nat i, zero_block)) <$> seq 0 80).
Definition demo_sb : superblock := mkSb 0x10203040 80 40 16 31 2 33 36.

Section demo.
Existing Instance demo_self.

(** Boot from it, start operations and write some blocks. *)
Definition demo_run (ops : nat) (l : list Z) : M fsstate unit :=
  binit ;; initlog ROOTDEV demo_sb ;; for_each (seq 0 ops) (fun _ => begin_op) ;; for_each l (bzero ROOTDEV).
Definition demo_state (ops : nat) (l : list Z) : fsstate :=
  match demo_run ops l (boot demo_disk) with Done _ s => s | _ => boot demo_disk end.

Lemma demo_disk_block n : 0 <= n < 80 -> demo_disk !! n = Some zero_block.
Proof.
  intros Hn. unfold demo_disk. apply elem_of_list_to_map_1.
  - rewrite <- list_fmap_compose. apply NoDup_fmap_2; [|apply NoDup_seq]. intros ? ? E. cbn in E. lia.
  - apply list_elem_of_fmap. exists (Z.to_nat n). split; [f_equal; lia|]. apply elem_of_seq. lia.
Qed.

Lemma zero_block_head : length zero_block = Z.to_nat BSIZE /\ blk_int zero_block 0 = 0.
Proof. by vm_compute. Qed.

Lemma demo_recoverable : recoverable (sb_logstart demo_sb) demo_disk zero_block 0 (fun _ => []).
Proof.
  destruct zero_block_head. split; [by apply demo_disk_block|done|done|done|..].
  - intros i Hi. unfold LOGBLOCKS, MAXOPBLOCKS in Hi. rewrite demo_disk_block; [done|cbn; lia].
  - intros; lia.
Qed.

Lemma begin_ops s D T held k o j :
  txn s D T held -> lh_n (x_log s) = 0 -> lg_committing (x_log s) = false ->
  lg_outstanding (x_log s) = Z.of_nat o -> (o + j <= 3)%nat ->
  exists s', for_each (seq k j) (fun _ => begin_op) s = Done tt s' /\ txn s' D T held /\
    x_log s' = set_lg_outstanding (Z.of_nat (o + j)) (x_log s).
Proof.
  revert k s o. induction j as [|j IH]; intros k s o X Hn Hc Ho Hle.
  - exists s. split; [done|]. split; [done|]. rewrite Nat.add_0_r, <- Ho. by destruct (x_log s).
  - cbn [seq for_each]. unfold begin_op at 1, getlog. kpure. rewrite Hc, Hn, Ho.
    rewrite (proj2 (Z.ltb_ge _ _)) by (unfold LOGBLOCKS, MAXOPBLOCKS; lia). unfold modlog. kpure.
    match goal with |- context [for_each _ _ ?st] => set (s1 := st) end.
    assert (X1 : txn s1 D T held) by (by eapply (txn_ext s)).
    destruct (IH (S k) s1 (S o) X1) as (s2 & R2 & X2 & L2); [done|done|unfold s1; xsimpl; lia|lia|].
    exists s2. split; [exact R2|]. split; [exact X2|]. rewrite L2. unfold s1. xsimpl.
    by replace (S o + j)%nat with (o + S j)%nat by lia.
Qed.

Lemma demo_state_txn ops l :
  (1 <= ops <= 3)%nat -> (length l <= 30)%nat -> NoDup l -> (forall n, n ∈ l -> 32 < n < 80) ->
  exists D held, txn (demo_state ops l) D (list_to_map ((fun n => (n, zero_block)) <$> reverse l)) held /\
    lh_n (x_log (demo_state ops l)) = Z.of_nat (length l) /\
    lg_outstanding (x_log (demo_state ops l)) = Z.of_nat ops /\
    lg_committing (x_log (demo_state ops l)) = false /\ lg_start (x_log (demo_state ops l)) = 2 /\
    forall x, ~ in_log 2 x -> D !! x = demo_disk !! x.
Proof.
  intros Ho Hl Hnd Hb.
  destruct (boot_recovers _ _ _ _ _ demo_recoverable) as (s0 & D & R0 & X0 & L1 & L2 & L3 & HD).
  assert (Hn0 : lh_n (x_log s0) = 0).
  { pose proof (tx_size _ _ _ _ X0) as E. rewrite map_size_empty in E. pose proof (tx_n _ _ _ _ X0). lia. }
  destruct (begin_ops s0 D ∅ ∅ 0 0 ops X0 Hn0 L3 L2) as (s1 & R1 & X1 & E1); [lia|].
  assert (Hb' : forall n, n ∈ l -> 0 <= n < 2 ^ 32 /\ is_Some (D !! n) /\ ~ in_log (lg_start (x_log s1)) n).
  { intros n Hn. specialize (Hb _ Hn).
    assert (Hno : ~ in_log 2 n) by (unfold in_log, LOGBLOCKS, MAXOPBLOCKS; lia).
    rewrite E1; xsimpl; rewrite L1. split; [lia|]. split; [|exact Hno]. rewrite HD by exact Hno. cbn.
    rewrite demo_disk_block by lia. by eexists. }
  destruct (bzero_list l s1 D ∅ ∅ X1) as (s2 & held & R2 & X2 & F1 & F2 & F3 & F4 & _);
    [rewrite E1; xsimpl; lia|rewrite E1; xsimpl; unfold LOGBLOCKS, MAXOPBLOCKS; lia|exact Hb'|exact Hnd
    |intros; apply lookup_empty|].
  rewrite E1 in F1, F2, F3, F4. xsimpl in *. rewrite (right_id_L ∅ (∪)) in X2.
  assert (E : demo_state ops l = s2).
  { unfold demo_state, demo_run. rewrite <- bind_assoc. erewrite bind_done by exact R0.
    erewrite bind_done by exact R1. by rewrite R2. }
  rewrite E. exists D, held. split; [done|]. split; [lia|]. split; [done|].
  rewrite F3, F4. split; [exact L3|]. split; [exact L1|exact HD].
Qed.
End demo.

(** ** The theorems *)

(** C9: a transaction is atomic. The last [end_op] of a transaction commits: it
    returns, and the disk then has every logged block and is otherwise unchanged
    outside the log. If the machine stops after any number [k] of the block writes
    the commit makes, booting from the disk as it is then recovers: [initlog]
    returns with an empty log, and outside the log the disk is either as before
    the transaction, when the header had not been written, or as after it. *)
Theorem end_op_crash_safe `{Self} (s : fsstate) (D T : gmap Z (list Z)) (held : gmap Z hbuf) :
  txn s D T held -> lh_n (x_log s) < NBUF ->
  lg_outstanding (x_log s) = 1 -> lg_committing (x_log s) = false ->
  exists s' ws, end_op s = Done tt s' /\ x_hist s' = x_hist s ++ ws /\ txn s' (apply_ws D ws) ∅ ∅ /\
    lg_outstanding (x_log s') = 0 /\ lg_committing (x_log s') = false /\
    (forall x, ~ in_log (lg_start (x_log s)) x -> apply_ws D ws !! x = (T ∪ D) !! x) /\
    forall (H' : Self) sb k, sb_logstart sb = lg_start (x_log s) ->
      exists r D', (binit ;; @initlog H' ROOTDEV sb) (boot (apply_ws D (take k ws))) = Done tt r /\
        txn r D' ∅ ∅ /\
        forall x, ~ in_log (lg_start (x_log s)) x ->
          D' !! x = (if decide (k <= Z.to_nat (lh_n (x_log s)))%nat then D else T ∪ D) !! x.
Proof.
  intros X Hn Ho Hc.
  destruct (end_op_txn s D T held X Hn Ho Hc) as (s' & ws & R & Hh & X' & _ & Ho' & Hc' & hd & Hhd & Hlen & H0 & Ews).
  exists s', ws. do 5 (split; [done|]).
  destruct (Z.ltb_spec 0 (lh_n (x_log s))) as [Hp|Hp]; subst ws.
  - split; [apply (crash_after s D T held hd X Hlen)|].
    intros H' sb k Hsb. destruct (crash_recoverable s D T held hd X Hhd Hlen k H0) as (hd' & m & Rv & Hx).
    rewrite <- Hsb in Rv. destruct (boot_recovers _ sb _ _ _ Rv) as (r & D' & R' & Xr & _ & _ & _ & HD').
    exists r, D'. split; [exact R'|]. split; [exact Xr|]. intros x Hxl. rewrite HD' by (by rewrite Hsb).
    by apply Hx.
  - assert (T = ∅) as ->.
    { apply map_empty. intros b. apply eq_None_not_Some. intros (i & Hi & _)%(tx_dom _ _ _ _ X). lia. }
    rewrite (left_id_L ∅ (∪)). split; [done|]. intros H' sb k Hsb. rewrite take_nil. cbn [apply_ws foldl].
    assert (Rv := recoverable_empty s D ∅ held hd X Hlen D hd (fun _ h => h) Hhd Hlen H0). rewrite <- Hsb in Rv.
    destruct (boot_recovers _ sb _ _ _ Rv) as (r & D' & R' & Xr & _ & _ & _ & HD').
    exists r, D'. split; [exact R'|]. split; [exact Xr|]. intros x Hxl. rewrite HD' by (by rewrite Hsb).
    by case_decide.
Qed.

Lemma end_op_crash_safe_witness :
  exists D held s' ws, txn (demo_state 1 [40; 41]) D {[41 := zero_block; 40 := zero_block]} held /\
    @end_op demo_self (demo_state 1 [40; 41]) = Done tt s' /\ txn s' (apply_ws D ws) ∅ ∅ /\
    exists r D', (@binit ;; @initlog demo_self ROOTDEV demo_sb) (boot (apply_ws D (take 4 ws))) = Done tt r /\
      txn r D' ∅ ∅ /\ D' !! 40 = Some zero_block.
Proof.
  destruct (demo_state_txn 1 [40; 41]) as (D & held & X & Hn & Ho & Hc & Hs & _).
  { lia. } { cbn; lia. } { repeat constructor; set_solver. }
  { intros n Hn. assert (n = 40 \/ n = 41) by set_solver. lia. }
  change (list_to_map ((fun n => (n, zero_block)) <$> reverse [40; 41])) with
    ({[41 := zero_block; 40 := zero_block]} : gmap Z (list Z)) in X.
  destruct (@end_op_crash_safe demo_self _ D _ held X) as (s' & ws & R & _ & X' & _ & _ & _ & Hcr).
  { rewrite Hn. done. } { exact Ho. } { exact Hc. }
  exists D, held, s', ws. split; [exact X|]. split; [exact R|]. split; [exact X'|].
  destruct (Hcr demo_self demo_sb 4%nat) as (r & D' & Rr & Xr & HD').
  { rewrite Hs. done. }
  exists r, D'. split; [exact Rr|]. split; [exact Xr|].
  rewrite HD' by (rewrite Hs; unfold in_log, LOGBLOCKS, MAXOPBLOCKS; lia).
  rewrite Hn, decide_False by (cbn; lia). apply lookup_union_Some_l. by vm_compute.
Defined.

(** writing a block inside a transaction does not touch the disk: [bzero]
    returns, the block's new contents join the transaction, whether or not the
    block was in it before, and it takes an entry of the log only the first time. *)
Theorem bzero_in_transaction `{Self} (s : fsstate) (D T : gmap Z (list Z)) (held : gmap Z hbuf) (n : Z) :
  txn s D T held -> 1 <= lg_outstanding (x_log s) -> lh_n (x_log s) < LOGBLOCKS ->
  0 <= n < 2 ^ 32 -> is_Some (D !! n) -> ~ in_log (lg_start (x_log s)) n ->
  exists s' held', bzero ROOTDEV n s = Done tt s' /\ txn s' D (<[n := zero_block]> T) held' /\
    x_hist s' = x_hist s /\
    lh_n (x_log s') = (if T !! n is Some _ then lh_n (x_log s) else lh_n (x_log s) + 1).
Proof.
  intros X Ho Hl Hn HD Hout.
  destruct (bzero_txn s D T held n X Ho Hl Hn HD Hout) as (s' & held' & R & X' & E1 & _ & _ & E2).
  exists s', held'. split; [exact R|]. split; [exact X'|]. split; [exact E1|].
  rewrite E2. by destruct (T !! n).
Qed.

Lemma bzero_in_transaction_witness :
  exists D held s' held', txn (demo_state 1 [40]) D {[40 := zero_block]} held /\
    @bzero demo_self ROOTDEV 40 (demo_state 1 [40]) = Done tt s' /\
    txn s' D {[40 := zero_block]} held' /\ lh_n (x_log s') = 1.
Proof.
  destruct (demo_state_txn 1 [40]) as (D & held & X & Hn & Ho & Hc & Hs & _).
  { lia. } { cbn; lia. } { repeat constructor; set_solver. }
  { intros n Hn. assert (n = 40) by set_solver. lia. }
  change (list_to_map ((fun n => (n, zero_block)) <$> reverse [40])) with
    ({[40 := zero_block]} : gmap Z (list Z)) in X.
  destruct (@bzero_in_transaction demo_self _ D _ held 40 X) as (s' & held' & R & X' & _ & E).
  { rewrite Ho. done. } { rewrite Hn. done. } { lia. }
  { apply (tx_home _ _ _ _ X). by rewrite lookup_singleton_eq. }
  { rewrite Hs. unfold in_log, LOGBLOCKS, MAXOPBLOCKS. lia. }
  exists D, held, s', held'. split; [exact X|]. split; [exact R|].
  rewrite insert_singleton_eq in X'. split; [exact X'|]. rewrite E, lookup_singleton_eq. exact Hn.
Defined.

(** C10: a transaction that fills the log cannot be committed. [LOGBLOCKS] blocks
    may be logged, but each of them keeps a buffer pinned and there are only
    [NBUF = LOGBLOCKS] buffers: the commit then finds no buffer for the first log
    block and panics. *)
Theorem commit_full_panics `{Self} (s : fsstate) (D T : gmap Z (list Z)) (held : gmap Z hbuf) :
  txn s D T held -> lh_n (x_log s) = LOGBLOCKS -> commit s = Panic "bget: no buffers".
Proof.
  intros X Hn. unfold commit, getlog. kpure. rewrite Hn. cbn match. apply bind_panic.
  unfold write_log, getlog. kpure. rewrite Hn. change (seq 0 (Z.to_nat LOGBLOCKS)) with (0%nat :: seq 1 29).
  cbn [for_each]. apply bind_panic. unfold write_log_one. rewrite (tx_dev _ _ _ _ X). apply bind_panic.
  eapply bread_no_buffers; [apply (tx_cache _ _ _ _ X)|by rewrite (tx_size _ _ _ _ X), Hn|].
  apply (tx_free _ _ _ _ X). unfold in_log, LOGBLOCKS, MAXOPBLOCKS. lia.
Qed.

Lemma commit_full_panics_witness :
  @commit demo_self (demo_state 3 (seqZ 40 30)) = Panic "bget: no buffers".
Proof.
  destruct (demo_state_txn 3 (seqZ 40 30)) as (D & held & X & Hn & Ho & Hc & Hs).
  { lia. } { rewrite length_seqZ. lia. } { apply NoDup_seqZ. }
  { intros n Hn%elem_of_seqZ. lia. }
  apply (@commit_full_panics demo_self _ D _ held X). rewrite Hn. by vm_compute.
Defined.
