(* ===== verification/BlockSpec.v ===== *)
(** * Blocks inside a transaction

    What the file system sees between [begin_op] and [end_op]: the blocks of the
    disk with the changes of the transaction ([view]), read and written one at a
    time. On top of it, the allocation bitmap: [balloc], [bfree]. *)

From S2P Require Import Prelude Riscv Kernel Mem Str Bio Log Fs BioSpec LogSpec CrashSpec TxnSpec LogTheorems.

(** Arithmetic with the sizes of the log and of the buffer cache. *)
Ltac loglia := unfold in_log, NBUF, LOGBLOCKS, MAXOPBLOCKS in *; lia.

(** ** Views *)

(** The state is inside a transaction in which the blocks read as [V]; the
    blocks [L] have been written, and the log starts at [start]. *)
Definition view (s : fsstate) (V : gmap Z (list Z)) (start : Z) (L : gset Z) : Prop :=
  exists D T held, txn s D T held /\ V = T ∪ D /\ L = dom T /\
    lg_start (x_log s) = start /\ 1 <= lg_outstanding (x_log s).

(** A block that may be written: it exists and is not part of the log. *)
Definition writable (V : gmap Z (list Z)) (start n : Z) : Prop :=
  0 <= n < 2 ^ 32 /\ ~ in_log start n /\ is_Some (V !! n).

(** What block operations do not touch. *)
Definition keeps (s s' : fsstate) : Prop :=
  x_sb s' = x_sb s /\ x_itable s' = x_itable s /\ x_hist s' = x_hist s.

Lemma keeps_refl s : keeps s s.
Proof. done. Qed.
Lemma keeps_trans s1 s2 s3 : keeps s1 s2 -> keeps s2 s3 -> keeps s1 s3.
Proof. unfold keeps. intros (-> & -> & ->) (-> & -> & ->). done. Qed.

Section view.
Context `{Self}.
Implicit Types (s : fsstate) (V D T : gmap Z (list Z)) (L : gset Z).

Lemma dom_size s D T held : txn s D T held -> Z.of_nat (size (dom T)) = lh_n (x_log s).
Proof.
  intros X. pose proof (tx_size _ _ _ _ X) as E. pose proof (tx_n _ _ _ _ X).
  assert (dom T = dom held) as ->; [|rewrite size_dom; lia].
  apply set_eq. intros b. rewrite !elem_of_dom. pose proof (tx_held _ _ _ _ X b) as Hb.
  destruct (held !! b), (T !! b); try done. all: split; intros [? ?]; by eexists.
Qed.

Lemma view_ext s s' V start L :
  x_disk s' = x_disk s -> x_bufs s' = x_bufs s -> x_lru s' = x_lru s -> x_log s' = x_log s ->
  view s V start L -> view s' V start L.
Proof.
  intros E1 E2 E3 E4 (D & T & held & X & HV & HL & Hs & Ho). exists D, T, held.
  split; [|by rewrite E4]. eapply (txn_ext s); rewrite ?E4; done.
Qed.

(** A block is read and released unchanged. *)
Lemma view_read s V start L n d :
  view s V start L -> Z.of_nat (size L) < NBUF -> V !! n = Some d ->
  exists i s1 s2 x, bread ROOTDEV n s = Done i s1 /\ getb i s1 = Done x s1 /\ b_data x = d /\
    keeps s s1 /\ brelse i s1 = Done tt s2 /\ view s2 V start L /\ keeps s s2.
Proof.
  intros (D & T & held & X & -> & -> & Hs & Ho) Hl Hd. rewrite (dom_size _ _ _ _ X) in Hl.
  destruct (busy_bread _ _ _ _ _ _ X Hl Hd) as (i & s1 & R1 & B).
  destruct (busy_brelse _ _ _ _ _ _ _ _ B Hd) as (s2 & R2 & X2 & W).
  pose proof (bz_frame _ _ _ _ _ _ _ _ B) as W1.
  eexists i, s1, s2, _. split; [exact R1|]. split; [by eapply busy_getb|]. split; [done|].
  destruct W as (W2 & W3 & W4 & W5), W1 as (Y2 & Y3 & Y4 & Y5). rewrite app_nil_r in *.
  split; [done|]. split; [exact R2|]. split; [|done]. exists D, T, held. by rewrite W3.
Qed.

(** A block is read, changed by [g], logged and released. *)
Lemma view_write s V start L n d g :
  view s V start L -> Z.of_nat (size L) < LOGBLOCKS -> writable V start n -> V !! n = Some d ->
  exists i s1 s2 s3 x, bread ROOTDEV n s = Done i s1 /\ getb i s1 = Done x s1 /\ b_data x = d /\
    keeps s s1 /\ modb i (fun x => set_b_data (g (b_data x)) x) s1 = Done tt s2 /\
    (log_write i ;; brelse i) s2 = Done tt s3 /\
    view s3 (<[n := g d]> V) start ({[n]} ∪ L) /\ keeps s s3.
Proof.
  intros (D & T & held & X & -> & -> & Hs & Ho) Hl (Hn & Hout & _) Hd. rewrite (dom_size _ _ _ _ X) in Hl.
  destruct (busy_bread _ _ _ _ _ _ X Hl Hd) as (i & s1 & R1 & B).
  pose proof (bz_frame _ _ _ _ _ _ _ _ B) as W1.
  destruct (busy_modb _ _ _ _ _ _ _ _ g B) as (s2 & R2 & B2).
  assert (HD : is_Some (D !! n)).
  { destruct (T !! n) as [d'|] eqn:Et; [by apply (tx_home _ _ _ _ X); rewrite Et|].
    rewrite lookup_union_r in Hd by done. by eexists. }
  destruct (busy_log _ _ _ _ _ _ _ _ B2 Ho Hl Hn HD) as (s3 & held' & R3 & X3 & E1 & E2 & E3 & E4); [by rewrite Hs|].
  eexists i, s1, s2, s3, _. split; [exact R1|]. split; [by eapply busy_getb|]. split; [done|].
  destruct W1 as (Y2 & Y3 & Y4 & Y5). rewrite app_nil_r in Y2.
  split; [done|]. split; [exact R2|]. split; [exact R3|]. split; [|done].
  exists D, (<[n := g d]> T), held'. split; [done|]. split; [by rewrite insert_union_l|].
  split; [by rewrite dom_insert_L|]. rewrite E4. by destruct (T !! n).
Qed.

(** Logging and releasing, then going on. *)
Lemma log_then {A} i (k : M fsstate A) s s' :
  (log_write i ;; brelse i) s = Done tt s' -> (log_write i ;; brelse i ;; k) s = k s'.
Proof. intros R. rewrite <- bind_assoc. by erewrite bind_done. Qed.
End view.

Lemma size_add (n : Z) (L : gset Z) : Z.of_nat (size ({[n]} ∪ L)) <= Z.of_nat (size L) + 1.
Proof.
  rewrite size_union_alt, size_singleton. pose proof (subseteq_size (L ∖ {[n]}) L ltac:(set_solver)). lia.
Qed.

(** A writable block stays one when blocks are written. *)
Lemma writable_insert V start n m d : writable V start n -> writable (<[m := d]> V) start n.
Proof. intros (? & ? & ?). split_and!; try done; try lia. rewrite lookup_insert. by case_decide. Qed.
Create HintDb blocks.
#[export] Hint Resolve keeps_refl keeps_trans writable_insert : blocks.

(** ** Views for examples

    A transaction on the disk of LogTheorems.v in which the blocks of [m] have
    been written, with any superblock and inode table in memory. *)
Lemma demo_view_writes (m : gmap Z (list Z)) :
  (size m <= 20)%nat -> (forall n d, m !! n = Some d -> 32 < n < 80) ->
  exists s V, view s V 2 (dom m) /\ forall x, ~ in_log 2 x -> V !! x = (m ∪ demo_disk) !! x.
Proof.
  induction m as [|n d m Hn IH] using map_ind; intros Hs Hr.
  - destruct (demo_state_txn 1 []) as (D & held & X & _ & Ho & _ & Hst & HD);
      [lia|cbn; lia|constructor|by intros n ?%elem_of_nil|].
    exists (demo_state 1 []), D. split.
    + exists D, ∅, held. split; [exact X|]. split; [by rewrite (left_id_L ∅ (∪))|].
      split; [by rewrite dom_empty_L|]. split; [exact Hst|]. rewrite Ho. done.
    + intros x Hx. rewrite (left_id_L ∅ (∪)). by apply HD.
  - rewrite map_size_insert_None in Hs by done.
    destruct IH as (s & V & Hv & HV); [lia|intros k e He; apply (Hr k e); by rewrite lookup_insert_ne by congruence|].
    assert (32 < n < 80) as Hn' by (apply (Hr n d), lookup_insert_eq).
    assert (~ in_log 2 n) as Hl by (loglia).
    assert (V !! n = Some zero_block) as Hz.
    { rewrite HV by done. rewrite lookup_union_r by done. apply demo_disk_block. lia. }
    destruct (@view_write demo_self s V 2 (dom m) n zero_block (fun _ => d) Hv) as
      (i & s1 & s2 & s3 & x & _ & _ & _ & _ & _ & _ & V3 & _).
    { rewrite size_dom. loglia. }
    { split_and!; [lia|lia|done|by eexists]. }
    { done. }
    exists s3, (<[n := d]> V). rewrite dom_insert_L. split; [done|]. intros y Hy.
    rewrite <- insert_union_l. destruct (decide (y = n)) as [->|]; [by rewrite !lookup_insert_eq|].
    rewrite !lookup_insert_ne by done. by apply HV.
Qed.

Lemma demo_view (m : gmap Z (list Z)) sb it :
  (size m <= 20)%nat -> (forall n d, m !! n = Some d -> 32 < n < 80) ->
  exists s V, view s V 2 (dom m) /\ (forall x, ~ in_log 2 x -> V !! x = (m ∪ demo_disk) !! x) /\
    x_sb s = sb /\ x_itable s = it.
Proof.
  intros Hs Hr. destruct (demo_view_writes m Hs Hr) as (s & V & Hv & HV).
  exists (set_x_itable it (set_x_sb sb s)), V. split; [by eapply view_ext; [..|exact Hv]|]. split; [done|]. by destruct s.
Qed.
