(* ===== verification/HeldSpec.v ===== *)
(** * Blocks used while another one is held

    [bmap] of kernel/fs.c calls [balloc] between the [bread] and the [brelse] of
    the indirect block.  A transaction with one block locked offers the same
    reads and writes of the others: the class [blockview] states them for both. *)

From S2P Require Import Prelude Riscv Kernel Mem Bio Log BioSpec LogSpec CrashSpec TxnSpec LogTheorems BlockSpec.

(** What a transaction promises the code that uses blocks: [W s V L] says that
    the blocks read as [V] and those of [L] are logged, [free] which blocks may
    be used, [room] how many may be logged. *)
Class blockview `{Self} (W : fsstate -> gmap Z (list Z) -> gset Z -> Prop) (start : Z) (free : Z -> Prop) (room : Z) := {
  bv_read s V L n d :
    W s V L -> Z.of_nat (size L) < room -> V !! n = Some d -> free n ->
    exists i s1 s2 x, bread ROOTDEV n s = Done i s1 /\ getb i s1 = Done x s1 /\ b_data x = d /\
      keeps s s1 /\ brelse i s1 = Done tt s2 /\ W s2 V L /\ keeps s s2;
  bv_write s V L n d g :
    W s V L -> Z.of_nat (size L) < room -> writable V start n -> V !! n = Some d -> free n ->
    exists i s1 s2 s3 x, bread ROOTDEV n s = Done i s1 /\ getb i s1 = Done x s1 /\ b_data x = d /\
      keeps s s1 /\ modb i (fun x => set_b_data (g (b_data x)) x) s1 = Done tt s2 /\
      (log_write i ;; brelse i) s2 = Done tt s3 /\
      W s3 (<[n := g d]> V) ({[n]} ∪ L) /\ keeps s s3;
  bv_ext s s' V L :
    x_disk s' = x_disk s -> x_bufs s' = x_bufs s -> x_lru s' = x_lru s -> x_log s' = x_log s ->
    W s V L -> W s' V L
}.

Section held.
Context `{Self}.
Implicit Types (s : fsstate) (V D T : gmap Z (list Z)) (L : gset Z) (held : gmap Z hbuf).

#[export] Instance view_blocks start : blockview (fun s V L => view s V start L) start (fun _ => True) LOGBLOCKS.
Proof.
  split.
  - intros s V L n d Hv Hl Hd _. apply (view_read s V start L n d Hv); [loglia|done].
  - intros s V L n d g Hv Hl Hw Hd _. by apply (view_write s V start L n d g).
  - intros s s' V L E1 E2 E3 E4 Hv. by apply (view_ext s).
Qed.

(** The buffer the process has locked. *)
Definition locked_buf T (a : Z) (i : nat) (d : list Z) : hbuf :=
  mkH i (if T !! a is Some _ then 2 else 1) (Some self_pid) d.

(** Block [a] is locked in buffer [i] and not changed yet. *)
Definition held_view (a : Z) (i : nat) (start : Z) (s : fsstate) V L : Prop :=
  exists D T held s0 d, busy s0 s D T held a i d /\ V = T ∪ D /\ V !! a = Some d /\ L = dom T /\
    lg_start (x_log s) = start /\ 1 <= lg_outstanding (x_log s).

Lemma held_bread s V start L a d :
  view s V start L -> Z.of_nat (size L) < NBUF -> V !! a = Some d ->
  exists i s', bread ROOTDEV a s = Done i s' /\ held_view a i start s' V L /\ keeps s s'.
Proof.
  intros (D & T & held & X & -> & -> & Hs & Ho) Hl Hd. rewrite (dom_size _ _ _ _ X) in Hl.
  destruct (busy_bread _ _ _ _ _ _ X Hl Hd) as (i & s1 & R1 & B).
  pose proof (bz_frame _ _ _ _ _ _ _ _ B) as (W1 & W2 & W3 & W4). rewrite app_nil_r in W1.
  exists i, s1. split; [done|]. split; [|done]. exists D, T, held, s, d. by rewrite W2.
Qed.

Lemma held_getb s V start L a i d :
  held_view a i start s V L -> V !! a = Some d -> exists x, getb i s = Done x s /\ b_data x = d.
Proof.
  intros (D & T & held & s0 & d' & B & -> & Hd' & _) Hd. simplify_eq. eexists. split; [by eapply busy_getb|done].
Qed.

Lemma held_brelse s V start L a i :
  held_view a i start s V L -> exists s', brelse i s = Done tt s' /\ view s' V start L /\ keeps s s'.
Proof.
  intros (D & T & held & s0 & d & B & -> & Hd & -> & Hs & Ho).
  destruct (busy_brelse _ _ _ _ _ _ _ _ B Hd) as (s2 & R2 & X2 & W).
  pose proof (bz_frame _ _ _ _ _ _ _ _ B) as W1.
  destruct W as (W2 & W3 & W4 & W5), W1 as (Y2 & Y3 & Y4 & Y5). rewrite app_nil_r in *.
  exists s2. split; [done|]. split; [|unfold keeps; by rewrite W2, W4, W5, Y2, Y4, Y5].
  exists D, T, held. rewrite W3, <- Y3. done.
Qed.

(** The held block is changed, logged and released. *)
Lemma held_log s V start L a i d g :
  held_view a i start s V L -> Z.of_nat (size L) < LOGBLOCKS -> writable V start a -> V !! a = Some d ->
  exists s2 s3, modb i (fun x => set_b_data (g (b_data x)) x) s = Done tt s2 /\
    (log_write i ;; brelse i) s2 = Done tt s3 /\ view s3 (<[a := g d]> V) start ({[a]} ∪ L) /\ keeps s s3.
Proof.
  intros (D & T & held & s0 & d' & B & -> & Hd' & -> & Hs & Ho) Hl (Hn & Hout & _) Hd. assert (d' = d) as -> by congruence.
  pose proof (bz_txn _ _ _ _ _ _ _ _ B) as X. rewrite (dom_size _ _ _ _ X) in Hl.
  pose proof (bz_frame _ _ _ _ _ _ _ _ B) as (Y2 & Y3 & Y4 & Y5). rewrite app_nil_r in Y2. rewrite Y3 in *.
  destruct (busy_modb _ _ _ _ _ _ _ _ g B) as (s2 & R2 & B2).
  assert (HD : is_Some (D !! a)).
  { destruct (T !! a) as [e|] eqn:Et; [by apply (tx_home _ _ _ _ X); rewrite Et|].
    rewrite lookup_union_r in Hd by done. by eexists. }
  destruct (busy_log _ _ _ _ _ _ _ _ B2 Ho Hl Hn HD) as (s3 & held' & R3 & X3 & E1 & E2 & E3 & E4); [by rewrite Hs|].
  exists s2, s3. split; [exact R2|]. split; [exact R3|]. split; [|unfold keeps; by rewrite E1, E2, E3, Y2, Y4, Y5].
  exists D, (<[a := g d]> T), held'. split; [done|]. split; [by rewrite insert_union_l|].
  split; [by rewrite dom_insert_L|]. rewrite E4. by destruct (T !! a).
Qed.

(** *** Another block used meanwhile *)

Lemma wrote_keeps s0 s s' : wrote s0 s [] -> wrote s0 s' [] -> keeps s s'.
Proof. intros (A1 & _ & A3 & A4) (B1 & _ & B3 & B4). unfold keeps. by rewrite A1, A3, A4, B1, B3, B4. Qed.

Lemma size_insert_le (m : gmap Z hbuf) a h : (size (<[a := h]> m) <= size m + 1)%nat.
Proof. rewrite map_size_insert. destruct (m !! a); cbn; lia. Qed.

(** The state in which the held block would be free. *)
Lemma released s D T held a i d :
  bcache s D (<[a := locked_buf T a i d]> held) -> (forall h, held !! a = Some h -> h = mkH i 1 None d) ->
  (T !! a = None <-> held !! a = None) -> (T ∪ D) !! a = Some d -> exists s0, bcache s0 D held /\ wrote s0 s [].
Proof.
  intros C Hh Ht Hd. unfold locked_buf in C. destruct (T !! a) as [e|] eqn:Et.
  - destruct (brelse_held _ _ _ a _ C (lookup_insert_eq _ _ _)) as (bufs & _ & C'); [done|done|].
    exists (set_x_bufs bufs s). split; [|unfold wrote; by rewrite app_nil_r]. cbn in C'. rewrite insert_insert_eq, insert_id in C'; [exact C'|].
    destruct (held !! a) as [h|] eqn:Eh; [by rewrite (Hh h)|]. by pose proof (proj2 Ht eq_refl).
  - rewrite lookup_union_r in Hd by done.
    destruct (brelse_last _ _ _ a _ C (lookup_insert_eq _ _ _)) as (bufs & lru & _ & C'); [done..|].
    exists (set_x_lru lru (set_x_bufs bufs s)). split; [|unfold wrote; by rewrite app_nil_r]. rewrite delete_insert_id in C'; [exact C'|by apply Ht].
Qed.

Lemma held_pin s0 s D T held a i d :
  busy s0 s D T held a i d -> (T ∪ D) !! a = Some d ->
  (forall h, held !! a = Some h -> h = mkH i 1 None d) /\ (T !! a = None <-> held !! a = None).
Proof.
  intros B Hd. pose proof (bz_txn _ _ _ _ _ _ _ _ B) as X. pose proof (tx_held _ _ _ _ X a) as E. split.
  - intros h Hh. pose proof (bz_idx _ _ _ _ _ _ _ _ B h Hh) as Hi. rewrite Hh in E.
    destruct (T !! a) as [e|] eqn:Et; [|done]. erewrite lookup_union_Some_l in Hd by done. destruct h. cbn in *. by simplify_eq.
  - destruct (T !! a), (held !! a); done.
Qed.

(** A second block is locked. *)
Lemma nested_bread s0 s D T held a i d n e :
  busy s0 s D T held a i d -> lh_n (x_log s0) + 1 < NBUF -> n <> a -> (T ∪ D) !! n = Some e ->
  exists j s', bread ROOTDEV n s = Done j s' /\ wrote s0 s' [] /\
    bcache s' D (<[n := locked_buf T n j e]> (<[a := locked_buf T a i d]> held)) /\
    forall h, held !! n = Some h -> h = mkH j 1 None e.
Proof.
  intros B Hl Hn He. pose proof (bz_txn _ _ _ _ _ _ _ _ B) as X. pose proof (bz_cache _ _ _ _ _ _ _ _ B) as C.
  fold (locked_buf T a i d) in C. pose proof (tx_size _ _ _ _ X) as Hsz. pose proof (tx_n _ _ _ _ X).
  pose proof (size_insert_le held a (locked_buf T a i d)) as Hs. unfold locked_buf at 1.
  destruct (T !! n) as [e'|] eqn:Et.
  - erewrite lookup_union_Some_l in He by done. simplify_eq.
    destruct (tx_pinned _ _ _ _ X _ _ Et) as (h & Hh & Hlk & Hrf & <-).
    destruct (bread_held _ _ _ n h C) as (bufs & R & C'); [by rewrite lookup_insert_ne|done|lia|].
    eexists _, _. split; [exact R|]. split; [exact (bz_frame _ _ _ _ _ _ _ _ B)|]. rewrite Hrf in C'. split; [exact C'|].
    intros h' Hh'. assert (h' = h) as -> by congruence. destruct h. cbn in *. by subst.
  - rewrite lookup_union_r in He by done. pose proof (tx_held_none _ _ _ _ _ X Et) as Hh.
    destruct (bread_fresh _ _ _ n e C) as (j & bufs & R & C'); [by rewrite lookup_insert_ne|done|lia|].
    eexists _, _. split; [exact R|]. split; [exact (bz_frame _ _ _ _ _ _ _ _ B)|]. split; [exact C'|]. congruence.
Qed.

Lemma nested_getb s D H0 n h : bcache s D (<[n := h]> H0) -> getb (h_idx h) s = Done (hbuf_buf n h) s.
Proof. intros C. exact (getb_held _ _ _ n _ C (lookup_insert_eq _ _ _)). Qed.

(** It is released unchanged. *)
Lemma nested_brelse s D T held H0 n j e :
  bcache s D (<[n := locked_buf T n j e]> H0) -> H0 !! n = held !! n -> (T !! n = None -> held !! n = None) ->
  (is_Some (T !! n) -> held !! n = Some (mkH j 1 None e)) -> (T ∪ D) !! n = Some e ->
  exists s', brelse j s = Done tt s' /\ bcache s' D H0 /\ wrote s s' [].
Proof.
  intros C E0 Hno Hpin He. unfold locked_buf in C. destruct (T !! n) as [e'|] eqn:Et.
  - destruct (brelse_held _ _ _ n _ C (lookup_insert_eq _ _ _)) as (bufs & R & C'); [done|done|].
    eexists. split; [exact R|]. split; [|unfold wrote; by rewrite app_nil_r]. cbn in C'.
    rewrite insert_insert_eq, insert_id in C'; [exact C'|]. rewrite E0. by apply Hpin.
  - rewrite lookup_union_r in He by done.
    destruct (brelse_last _ _ _ n _ C (lookup_insert_eq _ _ _)) as (bufs & lru & R & C'); [done..|].
    eexists. split; [exact R|]. split; [|unfold wrote; by rewrite app_nil_r].
    rewrite delete_insert_id in C'; [exact C'|]. rewrite E0. by apply Hno.
Qed.

(** It is logged and released: its buffer stays pinned. *)
Lemma nested_log s0 s D T held H0 n j e :
  txn s0 D T held -> x_log s0 = x_log s -> bcache s D (<[n := locked_buf T n j e]> H0) ->
  1 <= lg_outstanding (x_log s0) -> lh_n (x_log s0) < LOGBLOCKS ->
  exists s', (log_write j ;; brelse j) s = Done tt s' /\ bcache s' D (<[n := mkH j 1 None e]> H0) /\ logged s s' n T.
Proof.
  intros X EL C Ho Hl. unfold logged, locked_buf in *. rewrite EL in *. destruct (T !! n) as [e'|] eqn:Et.
  - kstep by (eapply (log_write_again s0 s D T held _ n (mkH j 2 (Some self_pid) e));
      [done|done|exact C|by rewrite lookup_insert_eq|by rewrite Et|done|done]).
    destruct (brelse_held _ _ _ n _ C (lookup_insert_eq _ _ _)) as (bufs & R & C'); [done|done|].
    eexists. split; [exact R|]. cbn in C'. by rewrite insert_insert_eq in C'.
  - destruct (log_write_new s0 s D T held _ n _ X EL C (lookup_insert_eq _ _ _)) as (bufs & R & C');
      [done|done|done|cbn; lia|].
    kstep by exact R. cbn in C'. rewrite insert_insert_eq in C'.
    destruct (brelse_held _ _ _ n _ C' (lookup_insert_eq _ _ _)) as (bufs' & R' & C2); [done|done|].
    eexists. split; [exact R'|]. cbn in C2. by rewrite insert_insert_eq in C2.
Qed.

Lemma nested_pin s0 D T held n j e :
  txn s0 D T held -> (forall h, held !! n = Some h -> h = mkH j 1 None e) ->
  (T !! n = None -> held !! n = None) /\ (is_Some (T !! n) -> held !! n = Some (mkH j 1 None e)).
Proof.
  intros X Hh. pose proof (tx_held _ _ _ _ X n) as E. destruct (T !! n) as [e'|] eqn:Et, (held !! n) as [h|] eqn:Eh; try done.
  all: split; [done|]; intros [? ?]; by rewrite ?(Hh h).
Qed.

Lemma held_view_read a i start s V L n d :
  held_view a i start s V L -> Z.of_nat (size L) + 1 < NBUF -> V !! n = Some d -> n <> a ->
  exists j s1 s2 x, bread ROOTDEV n s = Done j s1 /\ getb j s1 = Done x s1 /\ b_data x = d /\
    keeps s s1 /\ brelse j s1 = Done tt s2 /\ held_view a i start s2 V L /\ keeps s s2.
Proof.
  intros (D & T & held & s0 & da & B & -> & Ha & -> & Hs & Ho) Hl Hd Hn.
  pose proof (bz_txn _ _ _ _ _ _ _ _ B) as X. rewrite (dom_size _ _ _ _ X) in Hl.
  destruct (nested_bread _ _ _ _ _ _ _ _ n d B ltac:(lia) Hn Hd) as (j & s1 & R1 & W1 & C1 & Hh).
  destruct (nested_pin _ _ _ _ n j d X Hh) as [P1 P2].
  destruct (nested_brelse _ _ _ held _ n j d C1) as (s2 & R2 & C2 & W2); [by rewrite lookup_insert_ne|done..|].
  pose proof (bz_frame _ _ _ _ _ _ _ _ B) as W0. pose proof (wrote_trans _ _ _ _ _ W1 W2) as W12.
  eexists j, s1, s2, _. split; [exact R1|]. split; [exact (nested_getb _ _ _ _ _ C1)|]. split; [done|].
  split; [by eapply wrote_keeps|]. split; [exact R2|]. split; [|by eapply wrote_keeps].
  exists D, T, held, s0, da. pose proof W0 as (_ & Y & _). pose proof W12 as (_ & U & _). rewrite U, <- Y.
  split; [|done]. destruct B. by split.
Qed.

(** The invariant after another block was logged. *)
Lemma nested_txn s0 s' D T held n j e :
  txn s0 D T held -> x_log s' = (if T !! n is Some _ then x_log s0 else add_entry (x_log s0) n) ->
  bcache s' D (<[n := mkH j 1 None e]> held) -> lh_n (x_log s0) < LOGBLOCKS -> writable (T ∪ D) (lg_start (x_log s0)) n ->
  txn s' D (<[n := e]> T) (<[n := mkH j 1 None e]> held).
Proof.
  intros X Hlog C Hl (Hn & Hout & [d Hd]). destruct (T !! n) as [e'|] eqn:Et.
  - by eapply (txn_again s0).
  - eapply (txn_add s0); try done. rewrite lookup_union_r in Hd by done. by eexists.
Qed.

(** The first block is still held as it was. *)
Lemma nested_held s0 s s' D T held a i d n j e :
  busy s0 s D T held a i d -> (T ∪ D) !! a = Some d -> n <> a -> logged s s' n T ->
  bcache s' D (<[n := mkH j 1 None e]> (<[a := locked_buf T a i d]> held)) ->
  lh_n (x_log s0) < LOGBLOCKS -> writable (T ∪ D) (lg_start (x_log s0)) n ->
  exists s0', busy s0' s' D (<[n := e]> T) (<[n := mkH j 1 None e]> held) a i d.
Proof.
  intros B Hd Hn Lg C Hl Hw. pose proof (bz_frame _ _ _ _ _ _ _ _ B) as (_ & EL & _).
  destruct (held_pin _ _ _ _ _ _ _ _ B Hd) as [Hp Hno]. rewrite insert_insert_ne in C by done.
  assert (locked_buf T a i d = locked_buf (<[n := e]> T) a i d) as E by (unfold locked_buf; by rewrite lookup_insert_ne).
  rewrite E in C. destruct (released _ _ _ _ _ _ _ C) as (s0' & C0 & W0).
  { intros h. rewrite lookup_insert_ne by done. apply Hp. }
  { by rewrite !lookup_insert_ne. }
  { rewrite <- insert_union_l. by rewrite lookup_insert_ne. }
  exists s0'. split; [|exact C| |exact W0].
  - eapply (nested_txn s0); try done; [by apply (bz_txn _ _ _ _ _ _ _ _ B)|].
    destruct W0 as (_ & <- & _), Lg as (_ & _ & _ & ->). by rewrite EL.
  - intros h. rewrite lookup_insert_ne by done. apply (bz_idx _ _ _ _ _ _ _ _ B).
Qed.

Lemma held_view_write a i start s V L n d g :
  held_view a i start s V L -> Z.of_nat (size L) + 1 < LOGBLOCKS -> writable V start n -> V !! n = Some d -> n <> a ->
  exists j s1 s2 s3 x, bread ROOTDEV n s = Done j s1 /\ getb j s1 = Done x s1 /\ b_data x = d /\
    keeps s s1 /\ modb j (fun x => set_b_data (g (b_data x)) x) s1 = Done tt s2 /\
    (log_write j ;; brelse j) s2 = Done tt s3 /\
    held_view a i start s3 (<[n := g d]> V) ({[n]} ∪ L) /\ keeps s s3.
Proof.
  intros (D & T & held & s0 & da & B & -> & Ha & -> & Hs & Ho) Hl Hw Hd Hn.
  pose proof (bz_txn _ _ _ _ _ _ _ _ B) as X. rewrite (dom_size _ _ _ _ X) in Hl.
  pose proof (bz_frame _ _ _ _ _ _ _ _ B) as W0. pose proof W0 as (_ & EL & _). rewrite EL in Hs, Ho.
  destruct (nested_bread _ _ _ _ _ _ _ _ n d B ltac:(loglia) Hn Hd) as (j & s1 & R1 & W1 & C1 & _).
  destruct (modb_held _ _ _ n _ (locked_buf T n j (g d)) (fun x => set_b_data (g (b_data x)) x) C1 (lookup_insert_eq _ _ _))
    as (bufs & R2 & C2); [done|unfold locked_buf; cbn; destruct (T !! n); lia|done|].
  rewrite insert_insert_eq in C2. set (s2 := set_x_bufs bufs s1) in *. assert (wrote s0 s2 []) as W2 by exact W1.
  destruct (nested_log s0 s2 D T held (<[a := locked_buf T a i da]> held) n j (g d) X) as (s3 & R3 & C3 & Lg); [symmetry; apply W2|exact C2|done|lia|].
  pose proof (wrote_keeps _ _ _ W0 W2) as K2.
  assert (logged s s3 n T) as Lg'.
  { destruct Lg as (G1 & G2 & G3 & G4), K2 as (K1 & K2 & K3), W2 as (_ & W2 & _). unfold logged.
    by rewrite G1, G2, G3, G4, K1, K2, K3, W2, EL. }
  destruct (nested_held s0 s s3 D T held a i da n j (g d) B Ha Hn Lg' C3) as (s0' & B'); [lia|by rewrite Hs|].
  eexists j, s1, s2, s3, _. split; [exact R1|]. split; [exact (nested_getb _ _ _ _ _ C1)|]. split; [done|].
  split; [by eapply wrote_keeps|]. split; [exact R2|]. split; [exact R3|]. destruct Lg' as (G1 & G2 & G3 & G4).
  split; [|done]. exists D, (<[n := g d]> T), (<[n := mkH j 1 None (g d)]> held), s0', da. split; [done|].
  split; [by rewrite insert_union_l|]. split; [by rewrite lookup_insert_ne|]. split; [by rewrite dom_insert_L|].
  rewrite G4, EL. by destruct (T !! n).
Qed.

#[export] Instance held_blocks a i start : blockview (held_view a i start) start (fun n => n <> a) (LOGBLOCKS - 1).
Proof.
  split.
  - intros s V L n d Hv Hl. apply (held_view_read a i start s V L n d Hv). loglia.
  - intros s V L n d g Hv Hl. apply (held_view_write a i start s V L n d g Hv). lia.
  - intros s s' V L E1 E2 E3 E4 (D & T & held & s0 & d & [B1 B2 B3 B4] & HV & Hd & HL & Hs & Ho).
    exists D, T, held, (set_x_hist (x_hist s') (set_x_sb (x_sb s') (set_x_itable (x_itable s') s0))), d. rewrite E4.
    split; [|done]. destruct B4 as (_ & W & _). split; [|by eapply bcache_ext|done|].
    + by eapply (txn_ext s0).
    + unfold wrote. rewrite app_nil_r. xsimpl. by rewrite E4, W.
Qed.
End held.
