(* ===== verification/BallocSpec.v ===== *)
(** * Block allocation

    [balloc], [bfree] and [bzero] of kernel/fs.c as operations on the set of
    free blocks: the clear bits of the bitmap. *)

From S2P Require Import Prelude Riscv Kernel Mem Str Bio Log Fs BioSpec LogSpec CrashSpec TxnSpec LogTheorems BlockSpec HeldSpec.

(** ** Bits of a bitmap block *)

Definition bit (d : list Z) (k : Z) : bool := Z.testbit (byte_at d (Z.to_nat (k / 8))) (k mod 8).

Lemma bit_test d k :
  0 <= k -> (Z.land (byte_at d (Z.to_nat (k / 8))) (Z.shiftl 1 (k mod 8)) =? 0) = negb (bit d k).
Proof.
  intros Hk. unfold bit. pose proof (Z.mod_pos_bound k 8 ltac:(lia)) as Hm.
  set (b := byte_at d _). set (j := k mod 8) in *. destruct (Z.testbit b j) eqn:E; cbn [negb].
  - apply Z.eqb_neq. intros H0. assert (Z.testbit (Z.land b (Z.shiftl 1 j)) j = true) as Ht.
    { rewrite Z.land_spec, E, Z.shiftl_spec, Z.sub_diag by lia. done. }
    by rewrite H0, Z.bits_0 in Ht.
  - apply Z.eqb_eq. apply Z.bits_inj'. intros n Hn. rewrite Z.land_spec, Z.bits_0.
    destruct (decide (n = j)) as [->|Hne]; [by rewrite E|].
    rewrite Z.shiftl_spec by lia. destruct (Z.lt_ge_cases n j).
    + rewrite (Z.testbit_neg_r 1) by lia. apply andb_false_r.
    + change 1 with (2 ^ 0). rewrite Z.pow2_bits_false by lia. apply andb_false_r.
Qed.

(** Two positions in different bytes, or at different bits of one byte. *)
Lemma bit_index j k : 0 <= j -> 0 <= k -> Z.to_nat (j / 8) = Z.to_nat (k / 8) -> j mod 8 = k mod 8 -> j = k.
Proof. intros Hj Hk E1 E2. pose proof (Z.div_mod j 8 ltac:(lia)). pose proof (Z.div_mod k 8 ltac:(lia)).
  apply Z2Nat.inj in E1; [lia| |]; apply Z.div_pos; lia. Qed.

Lemma bit_insert d k v j :
  0 <= k < 8 * Z.of_nat (length d) -> 0 <= j ->
  bit (<[Z.to_nat (k / 8) := u8 v]> d) j =
    if decide (Z.to_nat (j / 8) = Z.to_nat (k / 8)) then Z.testbit v (j mod 8) else bit d j.
Proof.
  intros Hk Hj. unfold bit. rewrite byte_at_insert.
  2: { assert (k / 8 < Z.of_nat (length d)) by (apply Z.div_lt_upper_bound; lia).
       pose proof (Z.div_pos k 8). lia. }
  destruct (decide (Z.to_nat (j / 8) = Z.to_nat (k / 8))) as [E|E].
  - rewrite decide_True by done. unfold u8, wrap.
    apply Z.mod_pow2_bits_low. apply Z.mod_pos_bound; lia.
  - by rewrite decide_False by congruence.
Qed.

Lemma bitmap_set_bit d k j :
  0 <= k < 8 * Z.of_nat (length d) -> 0 <= j -> bit (bitmap_set d k) j = bit d j || bool_decide (j = k).
Proof.
  intros Hk Hj. unfold bitmap_set. rewrite bit_insert by done.
  pose proof (Z.mod_pos_bound j 8 ltac:(lia)). pose proof (Z.mod_pos_bound k 8 ltac:(lia)).
  destruct (decide _) as [E|E].
  - rewrite Z.lor_spec. unfold bit. rewrite E. f_equal. rewrite Z.shiftl_spec by lia. case_bool_decide as Ej.
    + subst. by rewrite Z.sub_diag.
    + assert (j mod 8 <> k mod 8) by (intros Em; destruct Ej; apply bit_index; [lia|lia|done|done]).
      destruct (Z.lt_ge_cases (j mod 8) (k mod 8)); [by rewrite Z.testbit_neg_r by lia|].
      change 1 with (2 ^ 0). by rewrite Z.pow2_bits_false by lia.
  - rewrite bool_decide_eq_false_2 by (intros ->; done). by rewrite orb_false_r.
Qed.

Lemma bitmap_clear_bit d k j :
  0 <= k < 8 * Z.of_nat (length d) -> 0 <= j -> bit (bitmap_clear d k) j = bit d j && bool_decide (j <> k).
Proof.
  intros Hk Hj. unfold bitmap_clear. rewrite bit_insert by done.
  pose proof (Z.mod_pos_bound j 8 ltac:(lia)). pose proof (Z.mod_pos_bound k 8 ltac:(lia)).
  destruct (decide _) as [E|E].
  - rewrite Z.land_spec. unfold bit. rewrite E. f_equal. rewrite Z.lnot_spec, Z.shiftl_spec by lia. case_bool_decide as Ej.
    + assert (j mod 8 <> k mod 8) by (intros Em; destruct Ej; apply bit_index; [lia|lia|done|done]).
      destruct (Z.lt_ge_cases (j mod 8) (k mod 8)); [by rewrite Z.testbit_neg_r by lia|].
      change 1 with (2 ^ 0). by rewrite Z.pow2_bits_false by lia.
    + assert (j = k) as -> by (destruct (decide (j = k)); [done|by destruct Ej]). by rewrite Z.sub_diag.
  - rewrite bool_decide_eq_true_2 by (intros ->; done). by rewrite andb_true_r.
Qed.

Lemma length_bitmap_set d k : length (bitmap_set d k) = length d.
Proof. apply length_insert. Qed.
Lemma length_bitmap_clear d k : length (bitmap_clear d k) = length d.
Proof. apply length_insert. Qed.

(** The inner loop finds the first clear bit of a block below the size. *)
Lemma clear_bit_spec fuel d b size : forall bi,
  0 <= bi -> (Z.to_nat (BPB - bi) <= fuel)%nat ->
  match clear_bit fuel d b bi size with
  | Some k => bi <= k < BPB /\ b + k < size /\ bit d k = false /\ forall j, bi <= j < k -> bit d j = true
  | None => forall j, bi <= j < BPB -> b + j < size -> bit d j = true
  end.
Proof.
  induction fuel as [|fuel IH]; intros bi Hb Hf; cbn [clear_bit].
  { intros j Hj. lia. }
  destruct ((bi <? BPB) && (b + bi <? size)) eqn:E.
  2: { intros j Hj Hs. lia. }
  rewrite bit_test by lia. destruct (bit d bi) eqn:Eb; cbn [negb].
  - specialize (IH (bi + 1) ltac:(lia) ltac:(lia)).
    destruct (clear_bit fuel d b (bi + 1) size) as [k|].
    + destruct IH as (Hk & Hs & Hc & Hj). split_and!; try done; try lia.
      intros j Hj'. destruct (decide (j = bi)) as [->|]; [done|]. apply Hj. lia.
    + intros j Hj Hs. destruct (decide (j = bi)) as [->|]; [done|]. apply IH; lia.
  - split_and!; try done; try lia.
Qed.

(** ** The bitmap of the file system *)

Definition used (V : gmap Z (list Z)) (sb : superblock) (b : Z) : bool :=
  bit (default [] (V !! BBLOCK b sb)) (b mod BPB).

(** Where the bitmap and the free blocks are: the bitmap's blocks are there and
    can be written, and so can every free block, which is none of the bitmap. *)
Record layout (V : gmap Z (list Z)) (start : Z) (sb : superblock) : Prop := {
  ly_size : 0 <= sb_size sb;
  ly_map : forall b, 0 <= b < sb_size sb -> writable V start (BBLOCK b sb) /\
    exists d, V !! BBLOCK b sb = Some d /\ length d = Z.to_nat BSIZE;
  ly_free : forall b, 0 <= b < sb_size sb -> used V sb b = false ->
    writable V start b /\ forall b', 0 <= b' < sb_size sb -> BBLOCK b' sb <> b
}.

Lemma BBLOCK_split q bi sb : 0 <= bi < BPB -> BBLOCK (BPB * q + bi) sb = BBLOCK (BPB * q) sb /\ (BPB * q + bi) mod BPB = bi.
Proof.
  intros Hb. unfold BBLOCK. rewrite !(Z.mul_comm BPB q).
  rewrite Z.div_add_l, Z.div_mul by (unfold BPB, BSIZE; lia). split; [rewrite Z.div_small by done; lia|].
  rewrite Z.add_comm, Z.mod_add by (unfold BPB, BSIZE; lia). by apply Z.mod_small.
Qed.

Lemma BBLOCK_inj b b' sb : BBLOCK b sb = BBLOCK b' sb -> b mod BPB = b' mod BPB -> b = b'.
Proof.
  unfold BBLOCK. intros E1 E2. pose proof (Z.div_mod b BPB ltac:(unfold BPB, BSIZE; lia)).
  pose proof (Z.div_mod b' BPB ltac:(unfold BPB, BSIZE; lia)). nia.
Qed.

Lemma bpb_range k : 0 <= k mod BPB < 8 * 1024.
Proof. unfold BPB, BSIZE. apply Z.mod_pos_bound. lia. Qed.

(** Writing one bitmap block changes the bits it holds. *)
Lemma used_insert V sb b d b' :
  used (<[BBLOCK b sb := d]> V) sb b' = if decide (BBLOCK b' sb = BBLOCK b sb) then bit d (b' mod BPB) else used V sb b'.
Proof.
  unfold used. case_decide as E; [by rewrite E, lookup_insert_eq|by rewrite lookup_insert_ne].
Qed.

Lemma used_set V sb b d b' :
  V !! BBLOCK b sb = Some d -> length d = Z.to_nat BSIZE ->
  used (<[BBLOCK b sb := bitmap_set d (b mod BPB)]> V) sb b' = used V sb b' || bool_decide (b' = b).
Proof.
  intros Hd Hl. rewrite used_insert. pose proof (bpb_range b). pose proof (bpb_range b'). case_decide as E.
  - rewrite bitmap_set_bit by (rewrite ?Hl; change (Z.of_nat (Z.to_nat BSIZE)) with 1024; lia). unfold used. rewrite E, Hd. cbn. f_equal.
    apply bool_decide_ext. split; [by intros; eapply BBLOCK_inj|by intros ->].
  - rewrite bool_decide_eq_false_2 by (intros ->; done). by rewrite orb_false_r.
Qed.

Lemma used_clear V sb b d b' :
  V !! BBLOCK b sb = Some d -> length d = Z.to_nat BSIZE ->
  used (<[BBLOCK b sb := bitmap_clear d (b mod BPB)]> V) sb b' = used V sb b' && bool_decide (b' <> b).
Proof.
  intros Hd Hl. rewrite used_insert. pose proof (bpb_range b). pose proof (bpb_range b'). case_decide as E.
  - rewrite bitmap_clear_bit by (rewrite ?Hl; change (Z.of_nat (Z.to_nat BSIZE)) with 1024; lia). unfold used. rewrite E, Hd. cbn. f_equal.
    apply bool_decide_ext. split; intros Hn E'; apply Hn; [congruence|by eapply BBLOCK_inj].
  - rewrite bool_decide_eq_true_2 by (intros ->; done). by rewrite andb_true_r.
Qed.

(** Writing a block that is none of the bitmap's changes no bit. *)
Lemma used_other V sb n d b : BBLOCK b sb <> n -> used (<[n := d]> V) sb b = used V sb b.
Proof. intros Hn. unfold used. by rewrite lookup_insert_ne. Qed.

Section balloc.
Context `{Self}.

(** The disk after block [b] was allocated. *)
Definition allocated (V : gmap Z (list Z)) (sb : superblock) (b : Z) : gmap Z (list Z) :=
  <[b := zero_block]> (<[BBLOCK b sb := bitmap_set (default [] (V !! BBLOCK b sb)) (b mod BPB)]> V).

(** *** Any view of the blocks that leaves the bitmap and the unused blocks alone *)
Section over.
Context (W : fsstate -> gmap Z (list Z) -> gset Z -> Prop) (start : Z) (free : Z -> Prop) (room : Z).
Context `{!blockview W start free room}.

Definition unheld (V : gmap Z (list Z)) (sb : superblock) : Prop :=
  forall b, 0 <= b < sb_size sb -> free (BBLOCK b sb) /\ (used V sb b = false -> free b).

Lemma bzero_view s V L n :
  W s V L -> Z.of_nat (size L) < room -> writable V start n -> free n ->
  exists s', bzero ROOTDEV n s = Done tt s' /\ W s' (<[n := zero_block]> V) ({[n]} ∪ L) /\ keeps s s'.
Proof.
  intros Hv Hl Hw Hfr. destruct Hw as (Hr & Ho & [d Hd]) eqn:Ew.
  destruct (bv_write s V L n d (fun _ => zero_block) Hv Hl Hw Hd Hfr) as
    (i & s1 & s2 & s3 & x & R1 & _ & _ & _ & R2 & R3 & V3 & K3).
  exists s3. split; [|done]. unfold bzero. kstep by exact R1. kstep by exact R2. exact R3.
Qed.

Lemma balloc_loop_spec fuel : forall q s V L sb,
  W s V L -> Z.of_nat (size L) + 1 < room -> layout V start sb -> unheld V sb -> 0 <= q ->
  (forall b, 0 <= b < BPB * q -> b < sb_size sb -> used V sb b = true) ->
  (Z.to_nat (sb_size sb / BPB + 2 - q) <= fuel)%nat -> BPB * q < sb_size sb + BPB ->
  (exists b s', balloc_loop fuel ROOTDEV (BPB * q) sb s = Done b s' /\ keeps s s' /\
     0 <= b < sb_size sb /\ used V sb b = false /\ (forall b', 0 <= b' < b -> used V sb b' = true) /\
     W s' (allocated V sb b) ({[b]} ∪ ({[BBLOCK b sb]} ∪ L))) \/
  (exists s', balloc_loop fuel ROOTDEV (BPB * q) sb s = Done 0 s' /\ keeps s s' /\ W s' V L /\
     forall b, 0 <= b < sb_size sb -> used V sb b = true).
Proof.
  induction fuel as [|fuel IH]; intros q s V L sb Hv Hl Ly Hfr Hq Hu Hf Hb.
  { exfalso. pose proof (Z.div_mod (sb_size sb) BPB ltac:(unfold BPB, BSIZE; lia)).
    pose proof (bpb_range (sb_size sb)). unfold BPB, BSIZE in *. nia. }
  assert (Z.of_nat (size L) < room) as Hl' by lia.
  cbn [balloc_loop]. destruct (Z.ltb_spec (BPB * q) (sb_size sb)) as [Hlt|Hge].
  2: { right. eexists. split; [reflexivity|]. split; [done|]. split; [by eapply (bv_ext s); [..|exact Hv]|].
       intros b Hb'. apply Hu; lia. }
  assert (0 <= BPB * q < sb_size sb) as Hq' by (unfold BPB, BSIZE in *; nia).
  destruct (ly_map _ _ _ Ly (BPB * q) Hq') as (Hw & d & Hd & Hlen).
  pose proof (clear_bit_spec (Z.to_nat BPB) d (BPB * q) (sb_size sb) 0 ltac:(lia) ltac:(lia)) as Hc.
  destruct (clear_bit (Z.to_nat BPB) d (BPB * q) 0 (sb_size sb)) as [k|] eqn:Ec.
  - destruct Hc as (Hk & Hs & Hbit & Hbelow). left.
    destruct (BBLOCK_split q k sb Hk) as [EB EM].
    assert (used V sb (BPB * q + k) = false) as Hfree by (unfold used; rewrite EB, EM, Hd; done).
    destruct (ly_free _ _ _ Ly (BPB * q + k)) as [Hwb Hne]; [unfold BPB, BSIZE in *; nia|done|].
    destruct (bv_write s V L (BBLOCK (BPB * q) sb) d (fun _ => bitmap_set d k) Hv Hl' Hw Hd) as
      (i & s1 & s2 & s3 & x & R1 & G1 & Ex & K1 & R2 & R3 & V3 & K3); [by apply (Hfr (BPB * q))|].
    destruct (bzero_view s3 _ _ (BPB * q + k) V3) as (s4 & R4 & V4 & K4).
    { pose proof (size_add (BBLOCK (BPB * q) sb) L). lia. }
    { by apply writable_insert. }
    { apply (Hfr (BPB * q + k)); [unfold BPB, BSIZE in *; nia|done]. }
    exists (BPB * q + k), s4. split.
    { kstep by exact R1. kstep by exact G1. rewrite Ex, Ec. kstep by exact R2. rewrite (log_then _ _ _ _ R3).
      by kstep by exact R4. }
    split; [eauto with blocks|]. split; [unfold BPB, BSIZE in *; nia|]. split; [done|]. split.
    { intros b' Hb'. destruct (Z.lt_ge_cases b' (BPB * q)) as [Hlo|Hhi]; [apply Hu; lia|].
      destruct (BBLOCK_split q (b' - BPB * q) sb) as [EB' EM']; [lia|].
      replace (BPB * q + (b' - BPB * q)) with b' in EB', EM' by lia.
      unfold used. rewrite EB', EM', Hd. apply Hbelow. lia. }
    unfold allocated. rewrite EB, EM, Hd. exact V4.
  - destruct (bv_read s V L _ d Hv Hl' Hd) as
      (i & s1 & s2 & x & R1 & G1 & Ex & K1 & R2 & V2 & K2); [by apply (Hfr (BPB * q))|].
    match goal with |- context [bind (bread ROOTDEV _) ?f s] =>
      assert (bind (bread ROOTDEV (BBLOCK (BPB * q) sb)) f s = balloc_loop fuel ROOTDEV (BPB * (q + 1)) sb s2) as ->
    end.
    { kstep by exact R1. kstep by exact G1. rewrite Ex, Ec. kstep by exact R2.
      by replace (BPB * q + BPB) with (BPB * (q + 1)) by lia. }
    destruct (IH (q + 1) s2 V L sb V2 Hl Ly Hfr) as [(b & s' & R & K & Hr)|(s' & R & K & Hr)].
    + lia.
    + intros b Hb1 Hb2. destruct (Z.lt_ge_cases b (BPB * q)); [by apply Hu; lia|].
      destruct (BBLOCK_split q (b - BPB * q) sb) as [EB EM]; [lia|].
      replace (BPB * q + (b - BPB * q)) with b in EB, EM by lia.
      unfold used. rewrite EB, EM, Hd. apply Hc; lia.
    + lia.
    + lia.
    + left. exists b, s'. split; [done|]. split; [eauto with blocks|done].
    + right. exists s'. split; [done|]. split; [eauto with blocks|done].
Qed.

Lemma balloc_over s V L :
  W s V L -> Z.of_nat (size L) + 1 < room -> layout V start (x_sb s) -> unheld V (x_sb s) ->
  (exists b s', balloc ROOTDEV s = Done b s' /\ keeps s s' /\
     0 <= b < sb_size (x_sb s) /\ used V (x_sb s) b = false /\ (forall b', 0 <= b' < b -> used V (x_sb s) b' = true) /\
     W s' (allocated V (x_sb s) b) ({[b]} ∪ ({[BBLOCK b (x_sb s)]} ∪ L))) \/
  (exists s', balloc ROOTDEV s = Done 0 s' /\ keeps s s' /\ W s' V L /\
     forall b, 0 <= b < sb_size (x_sb s) -> used V (x_sb s) b = true).
Proof.
  intros Hv Hl Ly Hfr. unfold balloc, getsb. kpure. pose proof (ly_size _ _ _ Ly).
  pose proof (balloc_loop_spec (Z.to_nat (sb_size (x_sb s) / BPB + 2)) 0 s V L (x_sb s) Hv Hl Ly Hfr) as B.
  rewrite Z.mul_0_r in B. apply B; [lia|intros; lia|lia|unfold BPB, BSIZE; lia].
Qed.
End over.

(** Allocation keeps the layout and marks one more block. *)
Lemma allocated_used V start sb b b' :
  layout V start sb -> 0 <= b < sb_size sb -> used V sb b = false -> 0 <= b' < sb_size sb ->
  used (allocated V sb b) sb b' = used V sb b' || bool_decide (b' = b).
Proof.
  intros Ly Hb Hu Hb'. destruct (ly_free _ _ _ Ly b Hb Hu) as [_ Hne].
  destruct (ly_map _ _ _ Ly b Hb) as (_ & d & Hd & Hl). unfold allocated.
  rewrite used_other by (by apply Hne). rewrite Hd. by apply used_set.
Qed.

Lemma allocated_layout V start sb b :
  layout V start sb -> 0 <= b < sb_size sb -> used V sb b = false -> layout (allocated V sb b) start sb.
Proof.
  intros Ly Hb Hu. destruct (ly_free _ _ _ Ly b Hb Hu) as [_ Hne]. split.
  - apply Ly.
  - intros b' Hb'. destruct (ly_map _ _ _ Ly b' Hb') as (Hw & d & Hd & Hl).
    unfold allocated. split; [eauto with blocks|].
    rewrite lookup_insert_ne by (intros E; by apply (Hne b' Hb')).
    destruct (decide (BBLOCK b' sb = BBLOCK b sb)) as [E|E].
    + rewrite E, lookup_insert_eq. eexists. split; [done|]. rewrite length_bitmap_set, <- E, Hd. done.
    + rewrite lookup_insert_ne by congruence. by exists d.
  - intros b' Hb' Hu'. rewrite (allocated_used V start) in Hu' by done.
    apply orb_false_iff in Hu' as [Hu' _]. destruct (ly_free _ _ _ Ly b' Hb' Hu') as [Hw Hn].
    split; [unfold allocated; eauto with blocks|done].
Qed.

Lemma balloc_spec s V start L :
  view s V start L -> Z.of_nat (size L) + 1 < LOGBLOCKS -> layout V start (x_sb s) ->
  (exists b s', balloc ROOTDEV s = Done b s' /\ keeps s s' /\
     0 <= b < sb_size (x_sb s) /\ used V (x_sb s) b = false /\ (forall b', 0 <= b' < b -> used V (x_sb s) b' = true) /\
     view s' (allocated V (x_sb s) b) start ({[b]} ∪ ({[BBLOCK b (x_sb s)]} ∪ L))) \/
  (exists s', balloc ROOTDEV s = Done 0 s' /\ keeps s s' /\ view s' V start L /\
     forall b, 0 <= b < sb_size (x_sb s) -> used V (x_sb s) b = true).
Proof.
  intros Hv Hl Ly. apply (balloc_over (fun s V L => view s V start L) start (fun _ => True) LOGBLOCKS s V L); done.
Qed.

Lemma bfree_spec s V start L b d :
  view s V start L -> Z.of_nat (size L) < LOGBLOCKS -> writable V start (BBLOCK b (x_sb s)) ->
  V !! BBLOCK b (x_sb s) = Some d -> 0 <= b -> bit d (b mod BPB) = true ->
  exists s', bfree ROOTDEV b s = Done tt s' /\ keeps s s' /\
    view s' (<[BBLOCK b (x_sb s) := bitmap_clear d (b mod BPB)]> V) start ({[BBLOCK b (x_sb s)]} ∪ L).
Proof.
  intros Hv Hl Hw Hd Hb Hbit.
  destruct (view_write s V start L _ d (fun _ => bitmap_clear d (b mod BPB)) Hv Hl Hw Hd) as
    (i & s1 & s2 & s3 & x & R1 & G1 & Ex & K1 & R2 & R3 & V3 & K3).
  exists s3. split; [|done]. unfold bfree, getsb. kpure. kstep by exact R1. kstep by exact G1. rewrite Ex.
  rewrite bit_test by apply bpb_range. rewrite Hbit. cbn [negb]. kstep by exact R2. exact R3.
Qed.

Lemma bfree_free s V start L b d :
  view s V start L -> Z.of_nat (size L) < NBUF ->
  V !! BBLOCK b (x_sb s) = Some d -> bit d (b mod BPB) = false ->
  bfree ROOTDEV b s = Panic "freeing free block".
Proof.
  intros Hv Hl Hd Hbit. destruct (view_read s V start L _ d Hv Hl Hd) as
    (i & s1 & s2 & x & R1 & G1 & Ex & K1 & R2 & V2 & K2).
  unfold bfree, getsb. kpure. kstep by exact R1. kstep by exact G1. rewrite Ex.
  rewrite bit_test by apply bpb_range. by rewrite Hbit.
Qed.
End balloc.

(** ** Properties *)

(** C12: Block allocation: inside a transaction with room for two more blocks,
    [balloc] returns the lowest block whose bit is clear, with its bit now set and
    its contents zero, and changes no other block and no other bit; or, only when
    every bit is set, it returns 0 and changes nothing. *)
Theorem balloc_correct `{Self} s V start L :
  view s V start L -> Z.of_nat (size L) + 1 < LOGBLOCKS -> layout V start (x_sb s) ->
  (exists b s' V', balloc ROOTDEV s = Done b s' /\ keeps s s' /\
     0 <= b < sb_size (x_sb s) /\ used V (x_sb s) b = false /\ (forall b', 0 <= b' < b -> used V (x_sb s) b' = true) /\
     view s' V' start ({[b]} ∪ ({[BBLOCK b (x_sb s)]} ∪ L)) /\ layout V' start (x_sb s) /\
     V' !! b = Some zero_block /\ (forall n, n <> b -> n <> BBLOCK b (x_sb s) -> V' !! n = V !! n) /\
     forall b', 0 <= b' < sb_size (x_sb s) -> used V' (x_sb s) b' = used V (x_sb s) b' || bool_decide (b' = b)) \/
  (exists s', balloc ROOTDEV s = Done 0 s' /\ keeps s s' /\ view s' V start L /\
     forall b, 0 <= b < sb_size (x_sb s) -> used V (x_sb s) b = true).
Proof.
  intros Hv Hl Ly. destruct (balloc_spec s V start L Hv Hl Ly) as [(b & s' & R & K & Hb & Hu & Hlow & Hv')|?]; [left|by right].
  exists b, s', (allocated V (x_sb s) b). split_and!; try done; try lia.
  - by apply allocated_layout.
  - apply lookup_insert_eq.
  - intros n Hn1 Hn2. unfold allocated. by rewrite !lookup_insert_ne.
  - intros b' Hb'. by eapply allocated_used.
Qed.

(** Freeing a block clears its bit and nothing else, so the next [balloc] can
    return it; freeing a block that is not allocated panics. *)
Theorem bfree_correct `{Self} s V start L b :
  view s V start L -> Z.of_nat (size L) < LOGBLOCKS -> layout V start (x_sb s) -> 0 <= b < sb_size (x_sb s) ->
  if used V (x_sb s) b then
    exists s' V', bfree ROOTDEV b s = Done tt s' /\ keeps s s' /\ view s' V' start ({[BBLOCK b (x_sb s)]} ∪ L) /\
      (forall n, n <> BBLOCK b (x_sb s) -> V' !! n = V !! n) /\
      forall b', used V' (x_sb s) b' = used V (x_sb s) b' && bool_decide (b' <> b)
  else bfree ROOTDEV b s = Panic "freeing free block".
Proof.
  intros Hv Hl Ly Hb. destruct (ly_map _ _ _ Ly b Hb) as (Hw & d & Hd & Hlen).
  assert (used V (x_sb s) b = bit d (b mod BPB)) as Eu by (unfold used; by rewrite Hd).
  destruct (used V (x_sb s) b).
  - destruct (bfree_spec s V start L b d Hv Hl Hw Hd) as (s' & R & K & Hv'); [lia|done|].
    exists s', (<[BBLOCK b (x_sb s) := bitmap_clear d (b mod BPB)]> V). split_and!; try done.
    + intros n Hn. by rewrite lookup_insert_ne.
    + intros b'. by apply used_clear.
  - apply (bfree_free s V start L b d); [done|loglia|done|done].
Qed.

(** A bitmap in block 36 with the first 46 of 80 blocks in use. *)
Definition demo_bitmap : list Z := [255; 255; 255; 255; 255; 63] ++ replicate 1018 0.

Lemma demo_layout V : (forall x, ~ in_log 2 x -> V !! x = ({[36 := demo_bitmap]} ∪ demo_disk) !! x) -> layout V 2 demo_sb.
Proof.
  intros HV.
  assert (V !! 36 = Some demo_bitmap) as Hm.
  { rewrite HV by (loglia). apply lookup_union_Some_l, lookup_singleton_eq. }
  assert (forall b, 0 <= b < 80 -> BBLOCK b demo_sb = 36) as HB.
  { intros b Hb. unfold BBLOCK. rewrite Z.div_small by (unfold BPB, BSIZE; lia). done. }
  split; cbn [sb_size demo_sb].
  - lia.
  - intros b Hb. rewrite HB by done. split; [|by exists demo_bitmap].
    split; [lia|]. split; [loglia|by eexists].
  - intros b Hb Hu. unfold used in Hu. rewrite HB, Hm in Hu by done. cbn [default] in Hu.
    assert (46 <= b) as Hlow.
    { destruct (Z.lt_ge_cases b 46) as [Hlt|]; [|done]. exfalso.
      assert (forall k, (k < 46)%nat -> bit demo_bitmap (Z.of_nat k mod BPB) = true) as Hall.
      { intros k Hk. do 46 (destruct k as [|k]; [reflexivity|]). lia. }
      rewrite <- (Z2Nat.id b), Hall in Hu by lia. done. }
    split.
    + split; [lia|]. split; [loglia|]. rewrite HV by (loglia).
      rewrite lookup_union_r by (apply lookup_singleton_ne; lia). rewrite demo_disk_block by lia. by eexists.
    + intros b' Hb'. rewrite HB by done. lia.
Qed.

Lemma demo_bitmap_view it : exists s V,
  view s V 2 {[36]} /\ layout V 2 (x_sb s) /\ x_sb s = demo_sb /\ x_itable s = it /\
  V !! 36 = Some demo_bitmap.
Proof.
  destruct (demo_view {[36 := demo_bitmap]} demo_sb it) as (s & V & Hv & HV & Hsb & Hit).
  { rewrite map_size_singleton. lia. }
  { intros n d [<- _]%lookup_singleton_Some. lia. }
  rewrite dom_singleton_L in Hv. exists s, V. rewrite Hsb. split_and!; try done.
  - by apply demo_layout.
  - rewrite HV by (loglia). apply lookup_union_Some_l, lookup_singleton_eq.
Qed.

Lemma balloc_correct_witness : exists s V b s' V',
  view s V 2 {[36]} /\ @balloc demo_self ROOTDEV s = Done b s' /\ V' !! b = Some zero_block /\ used V' (x_sb s) b = true.
Proof.
  destruct (demo_bitmap_view []) as (s & V & Hv & Ly & Hsb & _ & Hm).
  destruct (@balloc_correct demo_self s V 2 {[36]} Hv) as [(b & s' & V' & R & _ & Hb & _ & _ & _ & _ & Hz & _ & Hu)|(s' & _ & _ & _ & Hall)].
  - rewrite size_singleton. loglia.
  - exact Ly.
  - exists s, V, b, s', V'. split_and!; try done. rewrite Hu by done. rewrite bool_decide_eq_true_2 by done. apply orb_true_r.
  - exfalso. specialize (Hall 50). rewrite Hsb in Hall. unfold used in Hall. cbn [sb_size demo_sb] in Hall.
    change (BBLOCK 50 demo_sb) with 36 in Hall. rewrite Hm in Hall. specialize (Hall ltac:(lia)). done.
Defined.

Lemma bfree_correct_witness : exists s V,
  view s V 2 {[36]} /\ @bfree demo_self ROOTDEV 50 s = Panic "freeing free block".
Proof.
  destruct (demo_bitmap_view []) as (s & V & Hv & Ly & Hsb & _ & Hm). exists s, V. split; [done|].
  pose proof (@bfree_correct demo_self s V 2 {[36]} 50 Hv) as B.
  assert (used V (x_sb s) 50 = false) as Hu.
  { unfold used. rewrite Hsb. change (BBLOCK 50 demo_sb) with 36. by rewrite Hm. }
  rewrite Hu in B. apply B; [|exact Ly|rewrite Hsb; cbn; lia].
  rewrite size_singleton. loglia.
Defined.
