(* ===== verification/InodeSpec.v ===== *)
(** * Inodes on disk

    The encoding of [struct dinode] in the inode blocks, and [iupdate] and
    [ilock], which write and read it. *)

From S2P Require Import Prelude Riscv Kernel Mem Str Bio Log Fs BioSpec LogSpec CrashSpec TxnSpec LogTheorems BlockSpec BallocSpec.

(** ** Fields *)

Lemma take_drop_splice_in l off bs k n :
  (off + length bs <= length l)%nat -> (k + n <= length bs)%nat ->
  take n (drop (off + k) (splice l off bs)) = take n (drop k bs).
Proof.
  intros Hl Hk. rewrite <- (take_drop_splice_same l off bs Hl) at 2.
  rewrite skipn_firstn_comm, take_take, drop_drop. f_equal; lia.
Qed.

Lemma ufield_splice_in d o bs k n :
  0 <= o -> 0 <= k -> (Z.to_nat o + length bs <= length d)%nat -> (Z.to_nat k + n <= length bs)%nat ->
  ufield (splice d (Z.to_nat o) bs) (o + k) n = ufield bs k n.
Proof.
  intros Ho Hk Hl Hn. unfold ufield. rewrite Z2Nat.inj_add by lia. by rewrite take_drop_splice_in.
Qed.

Lemma ufield_splice_out d o bs k n :
  0 <= o -> 0 <= k -> (Z.to_nat o + length bs <= length d)%nat ->
  k + Z.of_nat n <= o \/ o + Z.of_nat (length bs) <= k ->
  ufield (splice d (Z.to_nat o) bs) k n = ufield d k n.
Proof. intros Ho Hk Hl Hn. unfold ufield. rewrite take_drop_splice_other; [done|lia|lia]. Qed.

Lemma ufield_app a b k n : Z.of_nat (length a) <= k -> ufield (a ++ b) k n = ufield b (k - Z.of_nat (length a)) n.
Proof. intros Hk. unfold ufield. rewrite drop_app_ge by lia. do 3 f_equal. lia. Qed.

Lemma ufield_here n v r : ufield (le_split n v ++ r) 0 n = v mod 256 ^ Z.of_nat n.
Proof.
  unfold ufield. rewrite drop_0, take_app_length' by (by rewrite length_le_split). apply le_combine_split.
Qed.

Lemma ufield_set_same d o v : 0 <= o -> o + 4 <= Z.of_nat (length d) -> ufield (ufield_set d o 4 v) o 4 = v mod 2 ^ 32.
Proof.
  intros Ho Hl. unfold ufield_set. replace (ufield _ o 4) with (ufield (splice d (Z.to_nat o) (le_split 4 v)) (o + 0) 4) by (f_equal; lia).
  rewrite ufield_splice_in; [|lia|lia|rewrite length_le_split; lia|by rewrite length_le_split].
  unfold ufield. rewrite drop_0, take_ge by (by rewrite length_le_split). apply le_combine_split.
Qed.

Lemma length_flat_words l : length (flat_map (le_split 4) l) = (4 * length l)%nat.
Proof. induction l as [|x l IH]; [done|]. cbn [flat_map]. rewrite length_app, length_le_split, IH. cbn. lia. Qed.

Lemma ufield_words l : forall i v, l !! i = Some v -> ufield (flat_map (le_split 4) l) (4 * Z.of_nat i) 4 = v mod 2 ^ 32.
Proof.
  induction l as [|x l IH]; intros [|i] v Hv; [done|done| |].
  - injection Hv as ->. cbn [flat_map]. apply ufield_here.
  - cbn [flat_map]. rewrite ufield_app by (rewrite length_le_split; lia). rewrite length_le_split.
    rewrite <- (IH i v Hv). f_equal. lia.
Qed.

Lemma s16_mod x : s16 (x mod 256 ^ Z.of_nat 2) = s16 x.
Proof. unfold s16. change (256 ^ Z.of_nat 2) with (2 ^ 16). by rewrite Zplus_mod_idemp_l. Qed.

Lemma s16_small x : - 2 ^ 15 <= x < 2 ^ 15 -> s16 x = x.
Proof. intros Hx. unfold s16. rewrite Z.mod_small by lia. lia. Qed.

(** ** The encoding *)

Definition short (x : Z) : Prop := - 2 ^ 15 <= x < 2 ^ 15.
Record dinode_wf (x : dinode) : Prop := {
  dw_type : short (di_type x); dw_major : short (di_major x); dw_minor : short (di_minor x);
  dw_nlink : short (di_nlink x); dw_size : 0 <= di_size x < 2 ^ 32;
  dw_addrs : length (di_addrs x) = 13%nat;
  dw_addr : forall a, a ∈ di_addrs x -> 0 <= a < 2 ^ 32
}.

Lemma length_dinode_bytes x : length (di_addrs x) = 13%nat -> length (dinode_bytes x) = 64%nat.
Proof. intros Hl. unfold dinode_bytes. rewrite !length_app, !length_le_split, length_flat_words, Hl. done. Qed.

(** The field of [n] bytes after the fields [pre]. *)
Lemma ufield_after pre n v r : ufield (pre ++ le_split n v ++ r) (Z.of_nat (length pre)) n = v mod 256 ^ Z.of_nat n.
Proof. rewrite ufield_app by lia. rewrite Z.sub_diag. apply ufield_here. Qed.

Lemma dinode_field x o k n d pre v post :
  dinode_wf x -> 0 <= o -> (Z.to_nat o + 64 <= length d)%nat ->
  dinode_bytes x = pre ++ le_split n v ++ post -> k = Z.of_nat (length pre) ->
  ufield (splice d (Z.to_nat o) (dinode_bytes x)) (o + k) n = v mod 256 ^ Z.of_nat n.
Proof.
  intros W Ho Hl E ->. pose proof (length_dinode_bytes x (dw_addrs _ W)) as Hb.
  rewrite ufield_splice_in; [|lia|lia|lia|].
  - rewrite E. apply ufield_after.
  - rewrite Nat2Z.id, E, !length_app, length_le_split. lia.
Qed.

(** What is stored is read back. *)
Lemma dinode_roundtrip d o x :
  dinode_wf x -> 0 <= o -> (Z.to_nat o + 64 <= length d)%nat ->
  dinode_at (splice d (Z.to_nat o) (dinode_bytes x)) o = x.
Proof.
  intros W Ho Hl. pose proof W as [W1 W2 W3 W4 W5 W6 W7].
  destruct x as [ty ma mi nl sz ad] eqn:Ex. cbn [di_type di_major di_minor di_nlink di_size di_addrs] in *.
  rewrite <- Ex in W |- *. unfold dinode_at.
  replace (ufield (splice d (Z.to_nat o) (dinode_bytes x)) o 2) with
    (ufield (splice d (Z.to_nat o) (dinode_bytes x)) (o + 0) 2) by (f_equal; lia).
  assert (forall i, ufield (splice d (Z.to_nat o) (dinode_bytes x)) (o + 12 + 4 * Z.of_nat i) 4 =
    ufield (splice d (Z.to_nat o) (dinode_bytes x)) (o + (12 + 4 * Z.of_nat i)) 4) as EA by (intros; f_equal; lia).
  rewrite (dinode_field x o 0 2 d [] ty (le_split 2 ma ++ le_split 2 mi ++ le_split 2 nl ++ le_split 4 sz ++ flat_map (le_split 4) ad) W Ho Hl)
    by (by rewrite Ex || done).
  rewrite (dinode_field x o 2 2 d (le_split 2 ty) ma (le_split 2 mi ++ le_split 2 nl ++ le_split 4 sz ++ flat_map (le_split 4) ad) W Ho Hl)
    by (by rewrite Ex || by rewrite length_le_split).
  rewrite (dinode_field x o 4 2 d (le_split 2 ty ++ le_split 2 ma) mi (le_split 2 nl ++ le_split 4 sz ++ flat_map (le_split 4) ad) W Ho Hl)
    by (by rewrite Ex, <- ?app_assoc || by rewrite length_app, !length_le_split).
  rewrite (dinode_field x o 6 2 d (le_split 2 ty ++ le_split 2 ma ++ le_split 2 mi) nl (le_split 4 sz ++ flat_map (le_split 4) ad) W Ho Hl)
    by (by rewrite Ex, <- ?app_assoc || by rewrite !length_app, !length_le_split).
  rewrite (dinode_field x o 8 4 d (le_split 2 ty ++ le_split 2 ma ++ le_split 2 mi ++ le_split 2 nl) sz (flat_map (le_split 4) ad) W Ho Hl)
    by (by rewrite Ex, <- ?app_assoc || by rewrite !length_app, !length_le_split).
  rewrite !s16_mod, !s16_small by done. rewrite Ex in EA |- *. f_equal.
  - apply Z.mod_small. exact W5.
  - apply list_eq. intros i. rewrite list_lookup_fmap. destruct (ad !! i) as [a|] eqn:Ea.
    + assert (i < 13)%nat by (rewrite <- W6; by eapply lookup_lt_Some).
      rewrite lookup_seq_lt by lia. cbn [fmap option_fmap option_map Nat.add]. rewrite EA. f_equal.
      rewrite ufield_splice_in; [|lia|lia|by rewrite length_dinode_bytes|rewrite length_dinode_bytes by done; lia].
      unfold dinode_bytes. cbn [di_type di_major di_minor di_nlink di_size di_addrs].
      rewrite !(assoc_L (++)). rewrite ufield_app by (rewrite !length_app, !length_le_split; cbn; lia).
      rewrite !length_app, !length_le_split.
      replace (12 + 4 * Z.of_nat i - Z.of_nat (2 + 2 + 2 + 2 + 4)) with (4 * Z.of_nat i) by lia.
      rewrite (ufield_words _ _ _ Ea). apply Z.mod_small, W7. by eapply list_elem_of_lookup_2.
    + rewrite lookup_seq_ge; [done|]. rewrite <- W6. by apply lookup_ge_None.
Qed.

(** Storing one inode leaves the others of the block as they are. *)
Lemma dinode_other d o x o' :
  length (di_addrs x) = 13%nat -> 0 <= o -> 0 <= o' -> (Z.to_nat o + 64 <= length d)%nat -> o' + 64 <= o \/ o + 64 <= o' ->
  dinode_at (splice d (Z.to_nat o) (dinode_bytes x)) o' = dinode_at d o'.
Proof.
  intros Ha Ho Ho' Hl Hd. pose proof (length_dinode_bytes x Ha) as Hb. unfold dinode_at.
  rewrite !ufield_splice_out by lia. f_equal. apply list_fmap_ext. intros j i Hi.
  apply lookup_seq in Hi as [-> Hi]. apply ufield_splice_out; lia.
Qed.

(** ** The inode table *)

Definition itab (s : fsstate) (ip : Z) : option inode := x_itable s !! Z.to_nat (ip - 1).
Definition inode_disk (i : inode) : dinode :=
  mkDinode (i_type i) (i_major i) (i_minor i) (i_nlink i) (i_size i) (i_addrs i).

(** The inode the disk holds. *)
Definition dinode_in (V : gmap Z (list Z)) (sb : superblock) (inum : Z) : dinode :=
  dinode_at (default [] (V !! IBLOCK inum sb)) (dinode_off inum).

(** A table entry filled from the disk and locked by the running process. *)
Definition load_inode (pid : Z) (x : dinode) (i : inode) : inode :=
  mkInode (i_dev i) (i_inum i) (i_ref i) (Some pid) true
    (di_type x) (di_major x) (di_minor x) (di_nlink x) (di_size x) (di_addrs x).

Lemma dinode_off_range inum : 0 <= dinode_off inum /\ dinode_off inum + 64 <= 1024.
Proof.
  unfold dinode_off, IPB, sizeof_dinode, BSIZE. change (1024 / 64) with 16.
  pose proof (Z.mod_pos_bound inum 16 ltac:(lia)). lia.
Qed.

(** Inodes of one block lie apart. *)
Lemma dinode_off_apart inum inum' sb :
  IBLOCK inum sb = IBLOCK inum' sb -> inum <> inum' ->
  dinode_off inum' + 64 <= dinode_off inum \/ dinode_off inum + 64 <= dinode_off inum'.
Proof.
  unfold IBLOCK, dinode_off, IPB, sizeof_dinode, BSIZE. change (1024 / 64) with 16. intros E Hn.
  pose proof (Z.div_mod inum 16 ltac:(lia)). pose proof (Z.div_mod inum' 16 ltac:(lia)).
  assert (inum mod 16 <> inum' mod 16) by nia. lia.
Qed.

Section inode.
Context `{Self}.

Lemma geti_eq s ip i : 1 <= ip -> itab s ip = Some i -> geti ip s = Done i s.
Proof. intros Hp Hi. unfold geti. replace (ip <? 1) with false by lia. unfold itab in Hi. by rewrite Hi. Qed.

Lemma modi_eq s ip i f :
  1 <= ip -> itab s ip = Some i ->
  modi ip f s = Done tt (set_x_itable (<[Z.to_nat (ip - 1) := f i]> (x_itable s)) s).
Proof. intros Hp Hi. unfold modi. replace (ip <? 1) with false by lia. unfold itab in Hi. by rewrite Hi. Qed.

Lemma itab_keeps s s' ip : keeps s s' -> itab s' ip = itab s ip.
Proof. unfold itab. by intros (_ & -> & _). Qed.

Lemma itab_insert s ip i f : itab s ip = Some i ->
  itab (set_x_itable (<[Z.to_nat (ip - 1) := f]> (x_itable s)) s) ip = Some f.
Proof. intros Hi. unfold itab in *. xsimpl. apply list_lookup_insert_eq. by eapply lookup_lt_Some. Qed.

(** The block of an inode, as [iupdate] leaves it. *)
Definition stored (V : gmap Z (list Z)) (sb : superblock) (i : inode) : gmap Z (list Z) :=
  <[IBLOCK (i_inum i) sb := splice (default [] (V !! IBLOCK (i_inum i) sb)) (Z.to_nat (dinode_off (i_inum i)))
      (dinode_bytes (inode_disk i))]> V.

Lemma iupdate_spec s V start L ip i d :
  view s V start L -> Z.of_nat (size L) < LOGBLOCKS -> 1 <= ip -> itab s ip = Some i -> i_dev i = ROOTDEV ->
  writable V start (IBLOCK (i_inum i) (x_sb s)) -> V !! IBLOCK (i_inum i) (x_sb s) = Some d ->
  exists s', iupdate ip s = Done tt s' /\ keeps s s' /\
    view s' (stored V (x_sb s) i) start ({[IBLOCK (i_inum i) (x_sb s)]} ∪ L).
Proof.
  intros Hv Hl Hp Hi Hdev Hw Hd.
  destruct (view_write s V start L _ d (fun d => splice d (Z.to_nat (dinode_off (i_inum i)))
      (dinode_bytes (inode_disk i))) Hv Hl Hw Hd) as
    (b & s1 & s2 & s3 & x & R1 & G1 & Ex & K1 & R2 & R3 & V3 & K3).
  exists s3. unfold stored. rewrite Hd. split; [|done]. unfold iupdate, getsb. kpure.
  kstep by (by apply geti_eq). rewrite Hdev. kstep by exact R1. kstep by exact R2. exact R3.
Qed.

Lemma dinode_in_stored V sb i d inum :
  V !! IBLOCK (i_inum i) sb = Some d -> length d = Z.to_nat BSIZE -> dinode_wf (inode_disk i) ->
  dinode_in (stored V sb i) sb inum = if decide (inum = i_inum i) then inode_disk i else dinode_in V sb inum.
Proof.
  intros Hd Hl W. pose proof (dinode_off_range (i_inum i)) as Hr. pose proof (dinode_off_range inum).
  unfold dinode_in, stored. rewrite Hd. cbn [from_option id]. case_decide as E.
  - subst. rewrite lookup_insert_eq. cbn [from_option id]. apply dinode_roundtrip; [done|lia|]. rewrite Hl. unfold BSIZE. lia.
  - destruct (decide (IBLOCK inum sb = IBLOCK (i_inum i) sb)) as [Eb|Eb]; [|by rewrite lookup_insert_ne by congruence].
    rewrite Eb, lookup_insert_eq, Hd. cbn [from_option id]. apply dinode_other; [apply W|lia|lia|rewrite Hl; unfold BSIZE; lia|].
    eapply dinode_off_apart; [by symmetry|congruence].
Qed.

(** Releasing a buffer does not look at the inode table. *)
Lemma brelse_itable b t s s' :
  brelse b s = Done tt s' -> brelse b (set_x_itable t s) = Done tt (set_x_itable t s').
Proof.
  unfold brelse, getb, modb, modify, badptr, panic, bind, ret. destruct s as [dk hi bu lr lg sb it ou]. xsimpl.
  destruct (bu !! b) as [x|] eqn:Eb; [|done]. destruct (negb (holdingsleep (b_lock x))); [done|]. xsimpl. rewrite Eb.
  xsimpl. destruct (<[b := _]> bu !! b) as [y|]; [|done]. destruct (b_refcnt y =? 0); intros E; by simplify_eq.
Qed.

Lemma ilock_spec s V start L ip j d :
  view s V start L -> Z.of_nat (size L) < NBUF -> 1 <= ip -> itab s ip = Some j ->
  i_dev j = ROOTDEV -> 1 <= i_ref j -> i_lock j = None -> i_valid j = false ->
  V !! IBLOCK (i_inum j) (x_sb s) = Some d -> di_type (dinode_in V (x_sb s) (i_inum j)) <> 0 ->
  exists s', ilock ip s = Done tt s' /\ view s' V start L /\ x_sb s' = x_sb s /\ x_hist s' = x_hist s /\
    x_itable s' = <[Z.to_nat (ip - 1) := load_inode self_pid (dinode_in V (x_sb s) (i_inum j)) j]> (x_itable s).
Proof.
  intros Hv Hl Hp Hj Hdev Hr Hlk Hval Hd Ht. set (j1 := set_i_lock (Some self_pid) j).
  set (s0 := set_x_itable (<[Z.to_nat (ip - 1) := j1]> (x_itable s)) s).
  assert (view s0 V start L) as Hv0 by (by eapply view_ext; [..|exact Hv]).
  destruct (view_read s0 V start L _ d Hv0 Hl Hd) as (b & s1 & s2 & x & R1 & G1 & Ex & (K1 & K2 & K3) & R2 & V2 & (K4 & K5 & K6)).
  assert (dinode_at d (dinode_off (i_inum j)) = dinode_in V (x_sb s) (i_inum j)) as Ed
    by (unfold dinode_in; by rewrite Hd).
  assert (itab s1 ip = Some j1) as H1 by (unfold itab; rewrite K2; by eapply itab_insert).
  set (j2 := load_inode self_pid (dinode_in V (x_sb s) (i_inum j)) j).
  set (s3 := set_x_itable (<[Z.to_nat (ip - 1) := j2]> (x_itable s1)) s1).
  assert (brelse b s3 = Done tt (set_x_itable (x_itable s3) s2)) as R3.
  { by apply brelse_itable. }
  exists (set_x_itable (x_itable s3) s2). split.
  - unfold ilock. replace (ip =? 0) with false by lia. kstep by (by apply geti_eq).
    replace (i_ref j <? 1) with false by lia. unfold acquiresleep. rewrite Hlk. kpure.
    kstep by (by apply (modi_eq s ip j)). rewrite Hval. unfold getsb. kpure. rewrite Hdev. kstep by exact R1.
    kstep by exact G1. rewrite Ex, Ed. cbn zeta. kstep by (apply (modi_eq s1 ip j1); done).
    change (set_x_itable _ s1) with s3. kstep by exact R3. by rewrite (proj2 (Z.eqb_neq _ _) Ht).
  - split; [by eapply view_ext; [..|exact V2]|]. xsimpl. split_and!; [done|done|].
    subst s3. xsimpl. rewrite K2. subst s0. xsimpl. by rewrite list_insert_insert_eq.
Qed.
End inode.

(** ** Properties *)

(** C13: Inodes survive the disk: [iupdate] stores the in-memory inode in its
    block, changing no other inode and no other block, and any later [ilock] of a
    table entry for that inode that is not loaded yet reads back exactly the
    fields that were stored. *)
Theorem inode_roundtrip `{Self} s V start L ip i d :
  view s V start L -> Z.of_nat (size L) < LOGBLOCKS -> 1 <= ip -> itab s ip = Some i -> i_dev i = ROOTDEV ->
  writable V start (IBLOCK (i_inum i) (x_sb s)) -> V !! IBLOCK (i_inum i) (x_sb s) = Some d ->
  length d = Z.to_nat BSIZE -> dinode_wf (inode_disk i) -> i_type i <> 0 ->
  exists s' V', iupdate ip s = Done tt s' /\ keeps s s' /\ view s' V' start ({[IBLOCK (i_inum i) (x_sb s)]} ∪ L) /\
    (forall n, n <> IBLOCK (i_inum i) (x_sb s) -> V' !! n = V !! n) /\
    (forall inum, inum <> i_inum i -> dinode_in V' (x_sb s) inum = dinode_in V (x_sb s) inum) /\
    forall s2 L2 ip' j, view s2 V' start L2 -> Z.of_nat (size L2) < NBUF -> x_sb s2 = x_sb s ->
      1 <= ip' -> itab s2 ip' = Some j -> i_dev j = ROOTDEV -> i_inum j = i_inum i -> 1 <= i_ref j ->
      i_lock j = None -> i_valid j = false ->
      exists s3, ilock ip' s2 = Done tt s3 /\ view s3 V' start L2 /\
        itab s3 ip' = Some (load_inode self_pid (inode_disk i) j).
Proof.
  intros Hv Hl Hp Hi Hdev Hw Hd Hlen W Ht.
  destruct (iupdate_spec s V start L ip i d Hv Hl Hp Hi Hdev Hw Hd) as (s' & R & K & Hv').
  exists s', (stored V (x_sb s) i). split_and!; try done.
  - intros n Hn. unfold stored. by rewrite lookup_insert_ne.
  - intros inum Hn. rewrite (dinode_in_stored _ _ _ d) by done. by rewrite decide_False.
  - intros s2 L2 ip' j Hv2 Hl2 Hsb Hp' Hj Hdj Hnj Hrj Hlj Hvj.
    assert (dinode_in (stored V (x_sb s) i) (x_sb s2) (i_inum j) = inode_disk i) as Hin.
    { rewrite Hsb, Hnj, (dinode_in_stored _ _ _ d) by done. by rewrite decide_True. }
    destruct (ilock_spec s2 _ start L2 ip' j (splice d (Z.to_nat (dinode_off (i_inum i))) (dinode_bytes (inode_disk i))) Hv2) as
      (s3 & R3 & V3 & _ & _ & E3); try done.
    + rewrite Hnj, Hsb. unfold stored. rewrite lookup_insert_eq, Hd. done.
    + by rewrite Hin.
    + exists s3. split_and!; try done. unfold itab. rewrite E3, Hin. apply list_lookup_insert_eq.
      by eapply lookup_lt_Some.
Qed.

Definition demo_inode (valid : bool) : inode :=
  mkInode ROOTDEV 5 1 None valid T_FILE 0 0 1 3000 ([50; 51; 52] ++ replicate 10 0).

Lemma demo_inode_wf valid : dinode_wf (inode_disk (demo_inode valid)).
Proof.
  split; cbn; try (unfold short; lia); try done. intros a Ha.
  repeat (apply elem_of_cons in Ha as [->|Ha]; [lia|]). by apply elem_of_nil in Ha.
Qed.

Lemma inode_roundtrip_witness : exists s s' V',
  itab s 1 = Some (demo_inode true) /\ @iupdate demo_self 1 s = Done tt s' /\
  exists s3, @ilock demo_self 2 s' = Done tt s3 /\ view s3 V' 2 {[33]} /\
    itab s3 2 = Some (load_inode 1 (inode_disk (demo_inode true)) (demo_inode false)).
Proof.
  destruct (demo_view ∅ demo_sb [demo_inode true; demo_inode false]) as (s & V & Hv & HV & Hsb & Hit).
  { rewrite map_size_empty. lia. } { intros n d Hn. by rewrite lookup_empty in Hn. }
  rewrite dom_empty_L in Hv.
  assert (IBLOCK 5 (x_sb s) = 33) as HB by (rewrite Hsb; reflexivity).
  assert (V !! 33 = Some zero_block) as Hz.
  { rewrite HV by loglia. rewrite (left_id_L ∅ (∪)). apply demo_disk_block. lia. }
  destruct (@inode_roundtrip demo_self s V 2 ∅ 1 (demo_inode true) zero_block Hv) as
    (s' & V' & R & K & Hv' & _ & _ & Hl).
  - rewrite size_empty. loglia.
  - lia.
  - unfold itab. by rewrite Hit.
  - done.
  - change (i_inum (demo_inode true)) with 5. rewrite HB. split; [lia|]. split; [loglia|by eexists].
  - change (i_inum (demo_inode true)) with 5. by rewrite HB.
  - by apply zero_block_head.
  - apply demo_inode_wf.
  - done.
  - exists s, s', V'. split; [unfold itab; by rewrite Hit|]. split; [exact R|].
    change (i_inum (demo_inode true)) with 5 in Hv'. rewrite HB, (right_id_L ∅ (∪)) in Hv'.
    apply (Hl s' {[33]} 2 (demo_inode false)); try done.
    + apply K.
    + unfold itab. destruct K as (_ & -> & _). by rewrite Hit.
Defined.
