(* ===== verification/ContentSpec.v ===== *)
(** * The contents of a file

    [bmap], [readi] and [writei] of kernel/fs.c against the contents of a file
    as one sequence of bytes, through its direct and its indirect blocks. *)

From S2P Require Import Prelude Riscv Kernel Mem Str Bio Log Fs BioSpec LogSpec CrashSpec TxnSpec LogTheorems BlockSpec BallocSpec InodeSpec.

(** ** Sequences of equal blocks *)

Section blocks.
Context (B : nat).
Implicit Types bs : list (list Z).

Lemma join_cons (b : list Z) bs : mjoin (b :: bs) = b ++ mjoin bs.
Proof. done. Qed.

Lemma drop_join bs q :
  Forall (fun b => length b = B) bs -> drop (q * B) (mjoin bs) = mjoin (drop q bs).
Proof.
  revert bs. induction q as [|q IH]; intros bs Hb; [by rewrite !drop_0|].
  destruct bs as [|b bs]; [cbn [mjoin list_join drop]; by rewrite drop_nil|]. apply Forall_cons in Hb as [Hl Hb].
  rewrite join_cons. cbn [drop]. rewrite drop_app_ge by lia. rewrite <- IH by done. f_equal. lia.
Qed.

(** A piece of the sequence that lies in one block. *)
Lemma take_drop_join bs q b r m :
  Forall (fun b => length b = B) bs -> bs !! q = Some b -> (r + m <= B)%nat ->
  take m (drop (q * B + r) (mjoin bs)) = take m (drop r b).
Proof.
  intros Hb Hq Hr. rewrite <- drop_drop, drop_join by done.
  rewrite (drop_S _ b) by done. rewrite join_cons.
  assert (length b = B) as Hl by (by eapply Forall_lookup_1 in Hb).
  rewrite drop_app_le by lia. rewrite take_app_le; [done|]. rewrite length_drop. lia.
Qed.

Lemma length_join bs : Forall (fun b => length b = B) bs -> length (mjoin bs) = (length bs * B)%nat.
Proof. induction 1 as [|b bs Hb _ IH]; [done|]. rewrite join_cons, length_app, IH. cbn. lia. Qed.

(** Replacing part of a block. *)
Lemma join_splice bs q b r ch :
  Forall (fun b => length b = B) bs -> bs !! q = Some b -> (r + length ch <= B)%nat ->
  mjoin (<[q := splice b r ch]> bs) = splice (mjoin bs) (q * B + r) ch.
Proof.
  intros Hb. revert q. induction Hb as [|b0 bs Hl Hb IH]; intros [|q] Hq Hr; try done.
  - injection Hq as ->. change (<[O := splice b r ch]> (b :: bs)) with (splice b r ch :: bs).
    rewrite !join_cons. unfold splice. cbn [Nat.mul Nat.add].
    rewrite take_app_le by lia. rewrite drop_app_le by lia. by rewrite <- !app_assoc.
  - change (<[S q := splice b r ch]> (b0 :: bs)) with (b0 :: <[q := splice b r ch]> bs).
    rewrite !join_cons, IH by done. unfold splice.
    rewrite take_app_ge by lia. rewrite drop_app_ge by lia. rewrite <- app_assoc. do 2 f_equal; [f_equal; lia|].
    f_equal. f_equal. lia.
Qed.
End blocks.

Lemma splice_splice l o a b :
  (o + length a + length b <= length l)%nat -> splice (splice l o a) (o + length a) b = splice l o (a ++ b).
Proof.
  intros Hl. unfold splice at 1 3. unfold splice.
  rewrite take_app_ge by (rewrite length_take; lia). rewrite length_take, Nat.min_l by lia.
  replace (o + length a - o)%nat with (length a) by lia. rewrite take_app_length, <- !app_assoc. do 3 f_equal.
  rewrite drop_app_ge by (rewrite length_take; lia). rewrite length_take, Nat.min_l by lia.
  rewrite drop_app_ge by lia. rewrite drop_drop, length_app. f_equal. lia.
Qed.

Lemma take_splice l o a n : (o + length a <= n)%nat -> (n <= length l)%nat -> take n (splice l o a) = splice (take n l) o a.
Proof.
  intros Hn Hl. unfold splice. rewrite take_app_ge by (rewrite length_take; lia).
  rewrite length_take, Nat.min_l by lia. rewrite take_app_ge by lia. rewrite take_take, Nat.min_l by lia.
  do 2 f_equal. rewrite take_drop_commute. f_equal. f_equal. lia.
Qed.

(** ** Files *)

(** The block number of block [bn] of a file, 0 if there is none. *)
Definition file_addr (V : gmap Z (list Z)) (i : inode) (bn : Z) : Z :=
  if bn <? NDIRECT then default 0 (i_addrs i !! Z.to_nat bn)
  else ufield (default [] (V !! default 0 (i_addrs i !! Z.to_nat NDIRECT))) (4 * (bn - NDIRECT)) 4.
Definition file_block (V : gmap Z (list Z)) (i : inode) (bn : Z) : list Z := default [] (V !! file_addr V i bn).
Definition nblocks (i : inode) : Z := (i_size i + BSIZE - 1) / BSIZE.
Definition file_blocks (V : gmap Z (list Z)) (i : inode) : list (list Z) := file_block V i <$> seqZ 0 (nblocks i).

(** The file as a sequence of bytes. *)
Definition contents (V : gmap Z (list Z)) (i : inode) : list Z := take (Z.to_nat (i_size i)) (mjoin (file_blocks V i)).

(** Every block of the file is allocated: the indirect block when it is needed,
    and the data blocks, which are different from each other and from it. *)
Record file_ok (V : gmap Z (list Z)) (start : Z) (i : inode) : Prop := {
  fo_dev : i_dev i = ROOTDEV;
  fo_size : 0 <= i_size i <= MAXFILE * BSIZE;
  fo_addr : forall bn, 0 <= bn < nblocks i -> file_addr V i bn <> 0;
  fo_block : forall bn, 0 <= bn < nblocks i -> writable V start (file_addr V i bn) /\
    length (file_block V i bn) = Z.to_nat BSIZE;
  fo_inj : forall bn bn', 0 <= bn < nblocks i -> 0 <= bn' < nblocks i ->
    file_addr V i bn = file_addr V i bn' -> bn = bn';
  fo_ind : NDIRECT < nblocks i -> exists a d, i_addrs i !! Z.to_nat NDIRECT = Some a /\ a <> 0 /\ V !! a = Some d /\
    forall bn, 0 <= bn < nblocks i -> file_addr V i bn <> a
}.

Lemma file_blocks_len V start i : file_ok V start i -> Forall (fun b => length b = Z.to_nat BSIZE) (file_blocks V i).
Proof.
  intros Fo. unfold file_blocks. apply Forall_fmap, Forall_forall. intros bn Hbn. apply elem_of_seqZ in Hbn.
  cbn. apply Fo. lia.
Qed.

Lemma file_blocks_lookup V i bn : 0 <= bn < nblocks i -> file_blocks V i !! Z.to_nat bn = Some (file_block V i bn).
Proof.
  intros Hbn. unfold file_blocks. rewrite list_lookup_fmap, lookup_seqZ_lt by lia. cbn. do 2 f_equal. lia.
Qed.

Lemma nblocks_bounds i : 0 <= i_size i -> nblocks i * BSIZE < i_size i + BSIZE /\ i_size i <= nblocks i * BSIZE.
Proof.
  intros Hs. unfold nblocks, BSIZE. pose proof (Z.div_mod (i_size i + 1024 - 1) 1024 ltac:(lia)).
  pose proof (Z.mod_pos_bound (i_size i + 1024 - 1) 1024 ltac:(lia)). lia.
Qed.

(** A position in the file is in one of its blocks. *)
Lemma block_of_pos i off : 0 <= off < i_size i -> 0 <= off / BSIZE < nblocks i.
Proof.
  intros Ho. pose proof (nblocks_bounds i ltac:(lia)) as Hn. unfold BSIZE in *.
  pose proof (Z.div_mod off 1024 ltac:(lia)). pose proof (Z.mod_pos_bound off 1024 ltac:(lia)).
  pose proof (Z.div_pos off 1024 ltac:(lia) ltac:(lia)). split; [lia|]. nia.
Qed.

Lemma length_contents V start i : file_ok V start i -> Z.of_nat (length (contents V i)) = i_size i.
Proof.
  intros Fo. pose proof (fo_size _ _ _ Fo). pose proof (nblocks_bounds i ltac:(lia)) as Hn. unfold contents.
  rewrite length_take, (length_join (Z.to_nat BSIZE)) by (by eapply file_blocks_len).
  unfold file_blocks. rewrite length_fmap, length_seqZ. unfold BSIZE in *. nia.
Qed.

(** The bytes of the file that lie in one block. *)
Lemma contents_piece V start i off m :
  file_ok V start i -> 0 <= off -> 0 <= m -> off + m <= i_size i -> off < i_size i -> off mod BSIZE + m <= BSIZE ->
  take (Z.to_nat m) (drop (Z.to_nat off) (contents V i)) =
  take (Z.to_nat m) (drop (Z.to_nat (off mod BSIZE)) (file_block V i (off / BSIZE))).
Proof.
  intros Fo Ho Hm Hs Hlt Hb. unfold contents. rewrite skipn_firstn_comm, take_take, Nat.min_l by lia.
  pose proof (Z.div_mod off BSIZE ltac:(unfold BSIZE; lia)) as Hd.
  pose proof (Z.mod_pos_bound off BSIZE ltac:(unfold BSIZE; lia)).
  pose proof (block_of_pos i off ltac:(lia)) as Hq.
  replace (Z.to_nat off) with (Z.to_nat (off / BSIZE) * Z.to_nat BSIZE + Z.to_nat (off mod BSIZE))%nat
    by (unfold BSIZE in *; lia).
  apply take_drop_join; [by eapply file_blocks_len|by apply file_blocks_lookup|unfold BSIZE in *; lia].
Qed.

(** ** Changing one block of the file *)

Section change.
Variables (V : gmap Z (list Z)) (start : Z) (i : inode) (bn : Z) (d : list Z).
Hypothesis Fo : file_ok V start i.
Hypothesis Hbn : 0 <= bn < nblocks i.
Hypothesis Hd : length d = Z.to_nat BSIZE.

Let V' := <[file_addr V i bn := d]> V.

Lemma change_addr bn' : 0 <= bn' < nblocks i -> file_addr V' i bn' = file_addr V i bn'.
Proof using Fo Hbn.
  clear Hd.
  intros Hb'. unfold file_addr at 1 2. destruct (Z.ltb_spec bn' NDIRECT); [done|].
  destruct (fo_ind _ _ _ Fo) as (a & e & Ha & _ & He & Hne); [unfold NDIRECT in *; lia|].
  rewrite Ha. cbn [from_option id]. unfold V'. by rewrite lookup_insert_ne by (by apply Hne).
Qed.

Lemma change_block bn' :
  0 <= bn' < nblocks i -> file_block V' i bn' = if decide (bn' = bn) then d else file_block V i bn'.
Proof using Fo Hbn.
  clear Hd.
  intros Hb'. unfold file_block at 1. rewrite change_addr by done. unfold V'. case_decide as E.
  - subst. by rewrite lookup_insert_eq.
  - rewrite lookup_insert_ne; [done|]. intros Ea. apply E. symmetry. by apply (fo_inj _ _ _ Fo).
Qed.

Lemma change_ok : file_ok V' start i.
Proof using Fo Hbn Hd.
  split.
  - apply Fo.
  - apply Fo.
  - intros bn' Hb'. rewrite change_addr by done. by apply (fo_addr _ _ _ Fo).
  - intros bn' Hb'. rewrite change_addr, change_block by done. destruct (fo_block _ _ _ Fo bn' Hb') as [Hw Hl].
    split; [by apply writable_insert|]. by case_decide.
  - intros b1 b2 H1 H2. rewrite !change_addr by done. by apply (fo_inj _ _ _ Fo).
  - intros Hn. destruct (fo_ind _ _ _ Fo Hn) as (a & e & Ha & Hz & He & Hne). exists a, e. split_and!; try done.
    + unfold V'. by rewrite lookup_insert_ne by (by apply Hne).
    + intros bn' Hb'. rewrite change_addr by done. by apply Hne.
Qed.

Lemma change_blocks : file_blocks V' i = <[Z.to_nat bn := d]> (file_blocks V i).
Proof using Fo Hbn.
  clear Hd.
  apply list_eq. intros k. destruct (decide (k = Z.to_nat bn)) as [->|Hk].
  - rewrite list_lookup_insert_eq.
    + rewrite file_blocks_lookup, change_block by done. by rewrite decide_True.
    + unfold file_blocks. rewrite length_fmap, length_seqZ. lia.
  - rewrite list_lookup_insert_ne by done. unfold file_blocks. rewrite !list_lookup_fmap.
    destruct (seqZ 0 (nblocks i) !! k) as [b|] eqn:E; [|done]. cbn. f_equal. apply lookup_seqZ in E.
    rewrite change_block by lia. rewrite decide_False by lia. done.
Qed.
End change.

(** Overwriting part of a block overwrites that part of the contents. *)
Lemma change_contents V start i off ch :
  file_ok V start i -> 0 <= off -> off < i_size i -> off + Z.of_nat (length ch) <= i_size i ->
  off mod BSIZE + Z.of_nat (length ch) <= BSIZE ->
  contents (<[file_addr V i (off / BSIZE) :=
      splice (file_block V i (off / BSIZE)) (Z.to_nat (off mod BSIZE)) ch]> V) i =
  splice (contents V i) (Z.to_nat off) ch.
Proof.
  intros Fo Ho Hlt Hs Hb. pose proof (block_of_pos i off ltac:(lia)) as Hq.
  pose proof (Z.div_mod off BSIZE ltac:(unfold BSIZE; lia)) as Hdm.
  pose proof (Z.mod_pos_bound off BSIZE ltac:(unfold BSIZE; lia)) as Hm.
  unfold contents. rewrite (change_blocks _ start) by done.
  rewrite (join_splice (Z.to_nat BSIZE)); [|by eapply file_blocks_len|by apply file_blocks_lookup|unfold BSIZE in *; lia].
  replace (Z.to_nat (off / BSIZE) * Z.to_nat BSIZE + Z.to_nat (off mod BSIZE))%nat with (Z.to_nat off)
    by (unfold BSIZE in *; lia).
  apply take_splice; [lia|]. rewrite (length_join (Z.to_nat BSIZE)) by (by eapply file_blocks_len).
  unfold file_blocks. rewrite length_fmap, length_seqZ. pose proof (nblocks_bounds i ltac:(lia)).
  unfold BSIZE in *. nia.
Qed.

(** ** Reading *)

Section read.
Context `{Self}.

(** [bmap] on a block the file has. *)
Lemma bmap_mapped s V start L ip i bn :
  view s V start L -> Z.of_nat (size L) < NBUF -> 1 <= ip -> itab s ip = Some i -> file_ok V start i ->
  0 <= bn < nblocks i ->
  exists s', bmap ip bn s = Done (file_addr V i bn) s' /\ view s' V start L /\ keeps s s'.
Proof.
  intros Hv Hl Hp Hi Fo Hbn. unfold bmap. kstep by (by apply geti_eq).
  pose proof (fo_addr _ _ _ Fo bn Hbn) as Hz. destruct (Z.ltb_spec bn NDIRECT) as [Hd|Hd].
  - exists s. split_and!; [|done|done]. unfold file_addr in *. replace (bn <? NDIRECT) with true in * by lia.
    by rewrite (proj2 (Z.eqb_neq _ _) Hz).
  - destruct (fo_ind _ _ _ Fo) as (a & e & Ha & Ha0 & He & _); [unfold NDIRECT in *; lia|].
    pose proof (nblocks_bounds i ltac:(apply Fo)) as Hn. pose proof (fo_size _ _ _ Fo) as Hs.
    replace (bn - NDIRECT <? NINDIRECT) with true
      by (symmetry; apply Z.ltb_lt; unfold MAXFILE, NINDIRECT, NDIRECT, BSIZE in *; change (1024 / 4) with 256 in *; lia).
    rewrite Ha. cbn [from_option id]. rewrite (proj2 (Z.eqb_neq _ _) Ha0). kpure.
    rewrite (proj2 (Z.eqb_neq _ _) Ha0). rewrite (fo_dev _ _ _ Fo).
    destruct (view_read s V start L a e Hv Hl He) as (b & s1 & s2 & x & R1 & G1 & Ex & K1 & R2 & V2 & K2).
    kstep by exact R1. kstep by exact G1. rewrite Ex.
    assert (file_addr V i bn = ufield e (4 * (bn - NDIRECT)) 4) as Ef.
    { unfold file_addr. replace (bn <? NDIRECT) with false by lia. rewrite Ha. cbn [from_option id]. by rewrite He. }
    rewrite <- Ef, (proj2 (Z.eqb_neq _ _) Hz). kpure. kstep by exact R2. by exists s2.
Qed.

Lemma file_block_read V start i bn :
  file_ok V start i -> 0 <= bn < nblocks i -> V !! file_addr V i bn = Some (file_block V i bn).
Proof.
  intros Fo Hbn. destruct (fo_block _ _ _ Fo bn Hbn) as [(_ & _ & [d Hd]) _]. unfold file_block. by rewrite Hd.
Qed.

Lemma readi_loop_spec fuel : forall s V start L ip i off n,
  view s V start L -> Z.of_nat (size L) < NBUF -> 1 <= ip -> itab s ip = Some i -> file_ok V start i ->
  0 <= off -> 0 <= n -> off + n <= i_size i -> (n = 0 \/ off mod BSIZE + n <= BSIZE * Z.of_nat fuel) ->
  exists s', readi_loop fuel ip off n s =
      Done (take (Z.to_nat n) (drop (Z.to_nat off) (contents V i))) s' /\ view s' V start L /\ keeps s s'.
Proof.
  induction fuel as [|fuel IH]; intros s V start L ip i off n Hv Hl Hp Hi Fo Ho Hn Hs Hf.
  { assert (n = 0) as -> by (pose proof (Z.mod_pos_bound off BSIZE ltac:(unfold BSIZE; lia)); lia). by exists s. }
  cbn [readi_loop]. destruct (Z.leb_spec n 0) as [Hz|Hz].
  { assert (n = 0) as -> by lia. by exists s. }
  assert (0 <= off < i_size i) as Hoff by lia.
  pose proof (block_of_pos i off Hoff) as Hq.
  destruct (bmap_mapped s V start L ip i (off / BSIZE) Hv Hl Hp Hi Fo Hq) as (s1 & R1 & V1 & K1).
  kstep by exact R1. rewrite (proj2 (Z.eqb_neq _ _) (fo_addr _ _ _ Fo _ Hq)).
  assert (itab s1 ip = Some i) as H1 by (by rewrite (itab_keeps s)). kstep by (by apply geti_eq).
  rewrite (fo_dev _ _ _ Fo).
  destruct (view_read s1 V start L _ _ V1 Hl (file_block_read V start i _ Fo Hq)) as
    (b & s2 & s3 & x & R2 & G2 & Ex & K2 & R3 & V3 & K3).
  kstep by exact R2. kstep by exact G2. cbn zeta. rewrite Ex. kstep by exact R3.
  set (m := Z.min n (BSIZE - off mod BSIZE)).
  pose proof (Z.mod_pos_bound off BSIZE ltac:(unfold BSIZE; lia)) as Hm.
  pose proof (Z.div_mod off BSIZE ltac:(unfold BSIZE; lia)) as Hdm.
  pose proof (fo_size _ _ _ Fo) as Hsz.
  assert (u32 (off + m) = off + m) as Hu.
  { apply u32_small. unfold MAXFILE, NINDIRECT, NDIRECT, BSIZE in *. change (1024 / 4) with 256 in *. lia. }
  rewrite Hu. destruct (IH s3 V start L ip i (off + m) (n - m)) as (s4 & R4 & V4 & K4); try done; try lia.
  { rewrite (itab_keeps s1) by done. done. }
  { destruct (decide (n <= BSIZE - off mod BSIZE)) as [Hle|Hgt]; [left; lia|right].
    assert (m = BSIZE - off mod BSIZE) as -> by lia.
    replace (off + (BSIZE - off mod BSIZE)) with ((off / BSIZE + 1) * BSIZE) by lia.
    rewrite Z.mod_mul by (unfold BSIZE; lia). lia. }
  exists s4. split; [|split; [done|by eauto with blocks]]. kstep by exact R4. unfold ret. f_equal.
  rewrite <- (contents_piece V start) by (done || lia).
  replace (Z.to_nat n) with (Z.to_nat m + Z.to_nat (n - m))%nat by lia.
  rewrite <- take_take_drop, drop_drop. do 2 f_equal. f_equal. lia.
Qed.

Lemma readi_spec s V start L ip i off n :
  view s V start L -> Z.of_nat (size L) < NBUF -> 1 <= ip -> itab s ip = Some i -> file_ok V start i ->
  0 <= off -> 0 <= n -> off + n < 2 ^ 32 ->
  exists s', readi ip off n s = Done (take (Z.to_nat n) (drop (Z.to_nat off) (contents V i))) s' /\
    view s' V start L /\ keeps s s'.
Proof.
  intros Hv Hl Hp Hi Fo Ho Hn Hov. pose proof (length_contents V start i Fo) as Hlen.
  unfold readi. kstep by (by apply geti_eq). rewrite u32_small by lia. replace (off + n <? off) with false by lia.
  rewrite orb_false_r. destruct (Z.ltb_spec (i_size i) off) as [Hb|Hb].
  { exists s. split; [|done]. rewrite drop_ge by lia. by rewrite take_nil. }
  set (n' := if i_size i <? off + n then i_size i - off else n).
  assert (0 <= n' /\ off + n' <= i_size i /\ n' <= n /\ (n' = n \/ off + n' = i_size i)) as (H1 & H2 & H3 & H4)
    by (subst n'; destruct (Z.ltb_spec (i_size i) (off + n)); lia).
  destruct (readi_loop_spec (Z.to_nat (n' / BSIZE + 2)) s V start L ip i off n') as (s' & R & Hv' & K); try done.
  { right. pose proof (Z.mod_pos_bound off BSIZE ltac:(unfold BSIZE; lia)).
    pose proof (Z.div_mod n' BSIZE ltac:(unfold BSIZE; lia)). pose proof (Z.mod_pos_bound n' BSIZE ltac:(unfold BSIZE; lia)).
    pose proof (Z.div_pos n' BSIZE ltac:(lia) ltac:(unfold BSIZE; lia)). rewrite Z2Nat.id by lia. unfold BSIZE in *. lia. }
  exists s'. split; [|done]. rewrite R. f_equal. destruct H4 as [->|H4]; [done|].
  rewrite !take_ge; [done| |]; rewrite length_drop; lia.
Qed.
End read.

(** ** Writing in place *)

Section write.
Context `{Self}.

Lemma size_union_singleton n (L : gset Z) k : Z.of_nat (size L) + 1 <= k -> Z.of_nat (size ({[n]} ∪ L)) <= k.
Proof. pose proof (size_add n L). lia. Qed.

(** What the loop leaves: the new contents, other blocks as they were, and at
    most [k] more blocks in the log. *)
Definition written (V V' : gmap Z (list Z)) (start : Z) (i : inode) (off : Z) (data : list Z) (L L' : gset Z) (k : Z) : Prop :=
  file_ok V' start i /\ contents V' i = splice (contents V i) (Z.to_nat off) data /\
  (forall bn, 0 <= bn < nblocks i -> file_addr V' i bn = file_addr V i bn) /\
  (forall n, (forall bn, 0 <= bn < nblocks i -> n <> file_addr V i bn) -> V' !! n = V !! n) /\
  (forall n, is_Some (V !! n) -> is_Some (V' !! n)) /\
  L ⊆ L' /\ Z.of_nat (size L') <= Z.of_nat (size L) + k.

Lemma writei_loop_spec fuel : forall s V start L ip i off data tot,
  view s V start L -> Z.of_nat (size L) + Z.of_nat fuel <= LOGBLOCKS ->
  1 <= ip -> itab s ip = Some i -> file_ok V start i ->
  0 <= off -> off + Z.of_nat (length data) <= i_size i ->
  (data = [] \/ off mod BSIZE + Z.of_nat (length data) <= BSIZE * Z.of_nat fuel) ->
  exists s' V' L', writei_loop fuel ip off data tot s =
      Done (tot + Z.of_nat (length data), off + Z.of_nat (length data)) s' /\
    view s' V' start L' /\ keeps s s' /\ written V V' start i off data L L' (Z.of_nat fuel).
Proof.
  induction fuel as [|fuel IH]; intros s V start L ip i off data tot Hv Hl Hp Hi Fo Ho Hs Hf.
  all: pose proof (Z.mod_pos_bound off BSIZE ltac:(unfold BSIZE; lia)) as Hm.
  all: destruct (decide (data = [])) as [->|Hne].
  1, 3: exists s, V, L; cbn; rewrite !Z.add_0_r; split; [done|]; split; [done|]; split; [done|];
    split_and!; try done; try lia; unfold splice; cbn; by rewrite Nat.add_0_r, take_drop.
  { destruct Hf as [?|Hf]; [done|]. destruct data; [done|]. cbn in Hf. lia. }
  destruct Hf as [?|Hf]; [done|].
  assert (0 < Z.of_nat (length data)) as Hd by (destruct data; [done|cbn; lia]).
  assert (0 <= off < i_size i) as Hoff by lia. pose proof (block_of_pos i off Hoff) as Hq.
  pose proof (Z.div_mod off BSIZE ltac:(unfold BSIZE; lia)) as Hdm. pose proof (fo_size _ _ _ Fo) as Hsz.
  set (m := Z.min (Z.of_nat (length data)) (BSIZE - off mod BSIZE)).
  set (ch := take (Z.to_nat m) data). assert (Z.of_nat (length ch) = m) as Hch by (subst ch; rewrite length_take; lia).
  assert (u32 (off + m) = off + m) as Hu.
  { apply u32_small. unfold MAXFILE, NINDIRECT, NDIRECT, BSIZE in *. change (1024 / 4) with 256 in *. lia. }
  destruct (bmap_mapped s V start L ip i (off / BSIZE) Hv ltac:(loglia) Hp Hi Fo Hq) as (s1 & R1 & V1 & K1).
  assert (itab s1 ip = Some i) as H1 by (by rewrite (itab_keeps s)).
  destruct (fo_block _ _ _ Fo _ Hq) as [Hw Hlen].
  destruct (view_write s1 V start L _ _ (fun d => splice d (Z.to_nat (off mod BSIZE)) ch) V1 ltac:(lia) Hw
    (file_block_read V start i _ Fo Hq)) as (b & s2 & s3 & s4 & x & R2 & G2 & Ex & K2 & R3 & R4 & V4 & K4).
  set (d' := splice (file_block V i (off / BSIZE)) (Z.to_nat (off mod BSIZE)) ch) in *.
  set (V' := <[file_addr V i (off / BSIZE) := d']> V) in *.
  assert (length d' = Z.to_nat BSIZE) as Hd' by (subst d'; rewrite length_splice; lia).
  assert (file_ok V' start i) as Fo' by (by apply change_ok).
  pose proof (size_add (file_addr V i (off / BSIZE)) L) as Hsize.
  destruct (IH s4 V' start ({[file_addr V i (off / BSIZE)]} ∪ L) ip i (off + m) (drop (Z.to_nat m) data) (tot + m)) as
    (s5 & V5 & L5 & R5 & Hv5 & K5 & Fo5 & C5 & A5 & O5 & S5 & Sub5 & Z5); try done; try lia.
  { rewrite (itab_keeps s1) by done. done. }
  { rewrite length_drop. lia. }
  { destruct (decide (Z.of_nat (length data) <= BSIZE - off mod BSIZE)) as [Hle|Hgt].
    - left. apply drop_ge. lia.
    - right. rewrite length_drop. assert (m = BSIZE - off mod BSIZE) as -> by lia.
      replace (off + (BSIZE - off mod BSIZE)) with ((off / BSIZE + 1) * BSIZE) by lia.
      rewrite Z.mod_mul by (unfold BSIZE; lia). lia. }
  exists s5, V5, L5. split.
  { destruct data as [|z data']; [done|]. cbn [writei_loop]. fold (length (z :: data')). kstep by exact R1.
    rewrite (proj2 (Z.eqb_neq _ _) (fo_addr _ _ _ Fo _ Hq)). kstep by (by apply geti_eq). rewrite (fo_dev _ _ _ Fo).
    kstep by exact R2. fold m. kstep by exact R3. rewrite (log_then _ _ _ _ R4), Hu, R5. rewrite length_drop. f_equal. f_equal; lia. }
  split; [done|]. split; [by eauto with blocks|].
  split_and!.
  - done.
  - rewrite C5. unfold V', d'. rewrite (change_contents V start) by (done || lia).
    replace (Z.to_nat (off + m)) with (Z.to_nat off + length ch)%nat by lia.
    rewrite splice_splice; [subst ch; by rewrite take_drop|]. pose proof (length_contents V start i Fo). rewrite length_drop. lia.
  - intros bn Hbn. rewrite A5 by done. by eapply change_addr.
  - intros n Hn. rewrite O5. { unfold V'. apply lookup_insert_ne. apply not_eq_sym. by apply Hn. }
    intros bn Hbn. unfold V'. rewrite (change_addr _ start) by done. by apply Hn.
  - intros n Hn. apply S5. unfold V'. rewrite lookup_insert. by case_decide.
  - set_solver.
  - lia.
Qed.

(** A block that belongs to the file in no way. *)
Definition outside (V : gmap Z (list Z)) (i : inode) (n : Z) : Prop :=
  (forall bn, 0 <= bn < nblocks i -> file_addr V i bn <> n) /\ i_addrs i !! Z.to_nat NDIRECT <> Some n.

Lemma outside_same V start i n d :
  file_ok V start i -> outside V i n -> is_Some (V !! n) ->
  file_ok (<[n := d]> V) start i /\ contents (<[n := d]> V) i = contents V i /\
  forall bn, 0 <= bn < nblocks i -> file_addr (<[n := d]> V) i bn = file_addr V i bn.
Proof.
  intros Fo [Hn Hi] Hs.
  assert (forall bn, 0 <= bn < nblocks i -> file_addr (<[n := d]> V) i bn = file_addr V i bn) as Ha.
  { intros bn Hbn. unfold file_addr at 1 2. destruct (Z.ltb_spec bn NDIRECT); [done|].
    destruct (fo_ind _ _ _ Fo) as (a & e & Ha & _); [unfold NDIRECT in *; lia|].
    rewrite Ha in Hi |- *. cbn [from_option id]. by rewrite lookup_insert_ne by congruence. }
  assert (forall bn, 0 <= bn < nblocks i -> file_block (<[n := d]> V) i bn = file_block V i bn) as Hb.
  { intros bn Hbn. unfold file_block. rewrite Ha by done. by rewrite lookup_insert_ne by (apply not_eq_sym; by apply Hn). }
  split_and!; [|unfold contents, file_blocks; do 2 f_equal|done].
  - split; try apply Fo.
    + intros bn Hbn. rewrite Ha by done. by apply (fo_addr _ _ _ Fo).
    + intros bn Hbn. rewrite Ha, Hb by done. destruct (fo_block _ _ _ Fo bn Hbn). split; [by apply writable_insert|done].
    + intros b1 b2 H1 H2. rewrite !Ha by done. by apply (fo_inj _ _ _ Fo).
    + intros Hk. destruct (fo_ind _ _ _ Fo Hk) as (a & e & Ea & Hz & He & Hne). exists a, e. split_and!; try done.
      * rewrite lookup_insert_ne by congruence. done.
      * intros bn Hbn. rewrite Ha by done. by apply Hne.
  - apply list_fmap_ext. intros k bn Hk. apply lookup_seqZ in Hk. apply Hb. lia.
Qed.

Lemma writei_spec s V start L ip i off data d :
  view s V start L -> Z.of_nat (size L) + Z.of_nat (length data) / BSIZE + 2 < LOGBLOCKS ->
  1 <= ip -> itab s ip = Some i -> file_ok V start i ->
  0 <= off -> off + Z.of_nat (length data) <= i_size i ->
  writable V start (IBLOCK (i_inum i) (x_sb s)) -> V !! IBLOCK (i_inum i) (x_sb s) = Some d ->
  outside V i (IBLOCK (i_inum i) (x_sb s)) ->
  exists s' V' V1 L' L1, writei ip data off s = Done (Z.of_nat (length data)) s' /\
    view s' V' start L' /\ keeps s s' /\ written V V1 start i off data L L1 (Z.of_nat (length data) / BSIZE + 2) /\
    V' = stored V1 (x_sb s) i /\ L' = {[IBLOCK (i_inum i) (x_sb s)]} ∪ L1 /\
    file_ok V' start i /\ contents V' i = contents V1 i.
Proof.
  intros Hv Hl Hp Hi Fo Ho Hs Hw Hd [Hout Hind]. pose proof (fo_size _ _ _ Fo) as Hsz.
  set (n := Z.of_nat (length data)) in *. set (blk := IBLOCK (i_inum i) (x_sb s)) in *.
  pose proof (Z.div_pos n BSIZE ltac:(lia) ltac:(unfold BSIZE; lia)).
  destruct (writei_loop_spec (Z.to_nat (n / BSIZE + 2)) s V start L ip i off data 0) as
    (s1 & V1 & L1 & R1 & Hv1 & K1 & W1); try done; try lia.
  { right. fold n. pose proof (Z.mod_pos_bound off BSIZE ltac:(unfold BSIZE; lia)).
    pose proof (Z.div_mod n BSIZE ltac:(unfold BSIZE; lia)). pose proof (Z.mod_pos_bound n BSIZE ltac:(unfold BSIZE; lia)).
    rewrite Z2Nat.id by lia. unfold BSIZE in *. lia. }
  fold n in R1. rewrite Z2Nat.id in W1 by lia. pose proof W1 as (Fo1 & C1 & A1 & O1 & S1 & _ & Z1).
  assert (itab s1 ip = Some i) as Hi1 by (by rewrite (itab_keeps s)). pose proof K1 as (Ksb & _ & _).
  assert (V1 !! blk = Some d) as Hd1.
  { rewrite O1; [done|]. intros bn Hbn. apply not_eq_sym. by apply Hout. }
  assert (writable V1 start blk) as Hw1 by (destruct Hw as (? & ? & ?); split_and!; [lia|lia|done|by eexists]).
  assert (outside V1 i blk) as Hout1 by (split; [intros bn Hbn; rewrite A1 by done; by apply Hout|done]).
  destruct (iupdate_spec s1 V1 start L1 ip i d Hv1) as (s2 & R2 & K2 & Hv2);
    [lia|done|done|apply Fo|by rewrite Ksb|by rewrite Ksb|].
  rewrite Ksb in Hv2. fold blk in Hv2. unfold stored in *. fold blk in Hv2.
  match type of Hv2 with view _ (<[_ := ?e]> _) _ _ => destruct (outside_same V1 start i blk e Fo1 Hout1) as (Fo2 & C2 & _); [by eexists|] end.
  eexists s2, _, V1, _, L1. split; [|split; [exact Hv2|split; [by eauto with blocks|split; [exact W1|done]]]].
  unfold writei. fold n. kstep by (by apply geti_eq).
  assert (MAXFILE * BSIZE < 2 ^ 32) by (vm_compute; done). rewrite u32_small by lia.
  replace ((i_size i <? off) || (off + n <? off)) with false by lia.
  replace (MAXFILE * BSIZE <? off + n) with false by lia. kstep by exact R1. cbn match.
  kstep by (by apply (modi_eq s1 ip i)). cbv beta. replace (i_size i <? off + n) with false by lia.
  assert (set_x_itable (<[Z.to_nat (ip - 1) := i]> (x_itable s1)) s1 = s1) as ->.
  { rewrite list_insert_id by done. by destruct s1. }
  kstep by exact R2. by replace (0 + n) with n by lia.
Qed.
End write.

(** ** Properties *)

(** Reading a file: for every offset and length whose sum does not overflow,
    [readi] returns exactly the bytes of the file there, through direct and
    indirect blocks alike, cut at the end of the file; it changes no block. *)
Theorem readi_correct `{Self} s V start L ip i off n :
  view s V start L -> Z.of_nat (size L) < NBUF -> 1 <= ip -> itab s ip = Some i -> file_ok V start i ->
  0 <= off -> 0 <= n -> off + n < 2 ^ 32 ->
  exists s', readi ip off n s = Done (take (Z.to_nat n) (drop (Z.to_nat off) (contents V i))) s' /\
    view s' V start L /\ keeps s s'.
Proof. intros. by apply readi_spec. Qed.

(** Writing within a file: [writei] of data that ends within the file returns
    the length of the data and replaces exactly those bytes of the contents; a
    [readi] of the same range then returns the data. Blocks that are not the
    file's, and the inode's own fields on disk, are kept. *)
Theorem writei_in_place `{Self} s V start L ip i off data d :
  view s V start L -> Z.of_nat (size L) + Z.of_nat (length data) / BSIZE + 3 < LOGBLOCKS ->
  1 <= ip -> itab s ip = Some i -> file_ok V start i ->
  0 <= off -> off + Z.of_nat (length data) <= i_size i ->
  writable V start (IBLOCK (i_inum i) (x_sb s)) -> V !! IBLOCK (i_inum i) (x_sb s) = Some d ->
  outside V i (IBLOCK (i_inum i) (x_sb s)) ->
  exists s' V' L', writei ip data off s = Done (Z.of_nat (length data)) s' /\
    view s' V' start L' /\ keeps s s' /\ file_ok V' start i /\
    contents V' i = splice (contents V i) (Z.to_nat off) data /\
    (forall n, outside V i n -> n <> IBLOCK (i_inum i) (x_sb s) -> V' !! n = V !! n) /\
    exists s'', readi ip off (Z.of_nat (length data)) s' = Done data s''.
Proof.
  intros Hv Hl Hp Hi Fo Ho Hs Hw Hd Hout. pose proof (fo_size _ _ _ Fo).
  destruct (writei_spec s V start L ip i off data d) as
    (s' & V' & V1 & L' & L1 & R & Hv' & K & W & -> & -> & Fo' & C'); try done; try lia.
  pose proof W as (_ & C1 & _ & O1 & _ & _ & Z1).
  exists s', (stored V1 (x_sb s) i), ({[IBLOCK (i_inum i) (x_sb s)]} ∪ L1).
  split_and!; try done.
  - congruence.
  - intros n [Hn _] Hne. unfold stored. rewrite lookup_insert_ne by done. apply O1. intros bn Hbn. apply not_eq_sym. by apply Hn.
  - destruct (readi_spec s' (stored V1 (x_sb s) i) start ({[IBLOCK (i_inum i) (x_sb s)]} ∪ L1) ip i off (Z.of_nat (length data))) as (s'' & R' & _);
      try done; try lia.
    + pose proof (size_add (IBLOCK (i_inum i) (x_sb s)) L1). loglia.
    + by rewrite (itab_keeps s).
    + assert (MAXFILE * BSIZE < 2 ^ 32) by (vm_compute; done). lia.
    + exists s''. rewrite R', C', C1, Nat2Z.id. f_equal. apply take_drop_splice_same.
      pose proof (length_contents V start i Fo). lia.
Qed.

(** A file of 3000 bytes in blocks 50, 51 and 52 of the example disk. *)
Lemma demo_file_ok V : (forall x, ~ in_log 2 x -> V !! x = demo_disk !! x) -> file_ok V 2 (demo_inode true).
Proof.
  intros HV. assert (nblocks (demo_inode true) = 3) as Hn by reflexivity.
  assert (forall bn, 0 <= bn < 3 -> file_addr V (demo_inode true) bn = 50 + bn) as Ha.
  { intros bn Hbn. unfold file_addr. replace (bn <? NDIRECT) with true by (unfold NDIRECT; lia).
    assert (bn = 0 \/ bn = 1 \/ bn = 2) as [->|[->| ->]] by lia; reflexivity. }
  assert (forall bn, 0 <= bn < 3 -> V !! (50 + bn) = Some zero_block) as Hz.
  { intros bn Hbn. rewrite HV by loglia. apply demo_disk_block. lia. }
  split; rewrite ?Hn.
  - reflexivity.
  - split; [cbn; lia|vm_compute; done].
  - intros bn Hbn. rewrite Ha by done. lia.
  - intros bn Hbn. unfold file_block. rewrite Ha, Hz by done. split; [|reflexivity].
    split; [lia|]. split; [loglia|]. rewrite Hz by done. by eexists.
  - intros b1 b2 H1 H2. rewrite !Ha by done. lia.
  - unfold NDIRECT. lia.
Qed.

Lemma demo_file_view : exists s V, view s V 2 ∅ /\ x_sb s = demo_sb /\ itab s 1 = Some (demo_inode true) /\
  file_ok V 2 (demo_inode true) /\ V !! 33 = Some zero_block.
Proof.
  destruct (demo_view ∅ demo_sb [demo_inode true]) as (s & V & Hv & HV & Hsb & Hit).
  { rewrite map_size_empty. lia. } { intros n d Hn. by rewrite lookup_empty in Hn. }
  rewrite dom_empty_L in Hv. rewrite (left_id_L ∅ (∪)) in HV. exists s, V. split_and!; try done.
  - unfold itab. by rewrite Hit.
  - by apply demo_file_ok.
  - rewrite HV by loglia. apply demo_disk_block. lia.
Qed.

Lemma readi_correct_witness : exists s V s',
  @readi demo_self 1 1000 500 s = Done (take 500 (drop 1000 (contents V (demo_inode true)))) s' /\
  length (contents V (demo_inode true)) = 3000%nat.
Proof.
  destruct demo_file_view as (s & V & Hv & _ & Hi & Fo & _).
  destruct (@readi_correct demo_self s V 2 ∅ 1 (demo_inode true) 1000 500 Hv) as (s' & R & _); try done.
  exists s, V, s'. split; [exact R|]. pose proof (length_contents V 2 _ Fo) as Hl. cbn [i_size demo_inode] in Hl. lia.
Defined.

Lemma writei_in_place_witness : exists s s' s'',
  @writei demo_self 1 [1; 2; 3] 1023 s = Done 3 s' /\ @readi demo_self 1 1023 3 s' = Done [1; 2; 3] s''.
Proof.
  destruct demo_file_view as (s & V & Hv & Hsb & Hi & Fo & Hz).
  assert (IBLOCK 5 (x_sb s) = 33) as HB by (rewrite Hsb; reflexivity).
  destruct (@writei_in_place demo_self s V 2 ∅ 1 (demo_inode true) 1023 [1; 2; 3] zero_block Hv) as
    (s' & V' & L' & R & _ & _ & _ & _ & _ & s'' & R'); cbn [i_inum demo_inode]; rewrite ?HB; try done.
  - split; [lia|]. split; [loglia|by eexists].
  - split; [|done]. intros bn Hbn. change (nblocks (demo_inode true)) with 3 in Hbn.
    unfold file_addr. replace (bn <? NDIRECT) with true by (unfold NDIRECT; lia).
    assert (bn = 0 \/ bn = 1 \/ bn = 2) as [->|[->| ->]] by lia; done.
  - by exists s, s', s''.
Defined.
