(* ===== verification/AppendSpec.v ===== *)
(** * Files that grow

    [bmap] and [writei] of kernel/fs.c when they allocate: a file as the list of
    its blocks, and what a write that goes past its end does to it. *)

From S2P Require Import Prelude Riscv Kernel Mem Str Bio Log Fs BioSpec LogSpec CrashSpec TxnSpec LogTheorems BlockSpec BallocSpec InodeSpec ContentSpec.

(** ** The blocks of a file *)

Definition bdata (V : gmap Z (list Z)) (b : Z) : list Z := default [] (V !! b).
Definition ind_addr (i : inode) : Z := default 0 (i_addrs i !! 12%nat).

Section blocks.
Variables (start : Z) (sb : superblock).

(** A block in use that is not part of the bitmap. *)
Record good_block (V : gmap Z (list Z)) (b : Z) : Prop := {
  gk_zero : b <> 0;
  gk_range : 0 <= b < sb_size sb;
  gk_used : used V sb b = true;
  gk_write : writable V start b;
  gk_len : length (bdata V b) = Z.to_nat BSIZE;
  gk_map : forall b', 0 <= b' < sb_size sb -> BBLOCK b' sb <> b
}.

(** [bl] are the blocks of the file: the addresses in the inode and in the
    indirect block, followed by zeros. *)
Record has_blocks (V : gmap Z (list Z)) (i : inode) (bl : list Z) : Prop := {
  hb_dev : i_dev i = ROOTDEV;
  hb_addrs : length (i_addrs i) = 13%nat;
  hb_max : (length bl <= 268)%nat;
  hb_direct : forall k, (k < 12)%nat -> i_addrs i !! k = Some (default 0 (bl !! k));
  hb_ind : ind_addr i = 0 /\ (length bl <= 12)%nat \/
    good_block V (ind_addr i) /\ ind_addr i ∉ bl /\
    forall j, (j < 256)%nat -> ufield (bdata V (ind_addr i)) (4 * Z.of_nat j) 4 = default 0 (bl !! (12 + j)%nat);
  hb_block : forall b, b ∈ bl -> good_block V b;
  hb_nodup : NoDup bl
}.

(** The bytes of its blocks. *)
Definition raw (V : gmap Z (list Z)) (bl : list Z) : list Z := mjoin (bdata V <$> bl).

(** Changing a block that is not part of the bitmap. *)
Lemma used_insert_good V a d b : good_block V a -> 0 <= b < sb_size sb -> used (<[a := d]> V) sb b = used V sb b.
Proof. intros G Hb. apply used_other. by apply (gk_map _ _ G). Qed.

Lemma good_insert V a d b : good_block V a -> good_block V b -> length d = Z.to_nat BSIZE -> good_block (<[a := d]> V) b.
Proof.
  intros Ga Gb Hd. destruct Gb as [G1 G2 G3 G4 G5 G6]. split; try done.
  - by rewrite used_insert_good.
  - by apply writable_insert.
  - unfold bdata in *. destruct (decide (b = a)) as [->|Hne]; [by rewrite lookup_insert_eq|by rewrite lookup_insert_ne].
Qed.

Lemma layout_insert V a d : good_block V a -> layout V start sb -> layout (<[a := d]> V) start sb.
Proof.
  intros Ga Ly. split; [apply Ly| |].
  - intros b Hb. destruct (ly_map _ _ _ Ly b Hb) as (Hw & e & He & Hl). split; [by apply writable_insert|]. exists e.
    rewrite lookup_insert_ne; [done|]. intros E. by apply (gk_map _ _ Ga b Hb).
  - intros b Hb Hu. rewrite used_insert_good in Hu by done. destruct (ly_free _ _ _ Ly b Hb Hu) as [Hw Hn].
    split; [by apply writable_insert|done].
Qed.

(** Writing one of the file's data blocks. *)
Lemma blocks_write V i bl b d : has_blocks V i bl -> b ∈ bl -> length d = Z.to_nat BSIZE -> has_blocks (<[b := d]> V) i bl.
Proof.
  intros B Hb Hd. pose proof (hb_block _ _ _ B b Hb) as Gb. destruct B as [B1 B2 B3 B4 B5 B6 B7]. split; try done.
  - destruct B5 as [B5|(B5 & B5' & B5'')]; [by left|right]. split; [by apply good_insert|]. split; [done|]. intros j Hj.
    unfold bdata. rewrite lookup_insert_ne by (intros ->; done). by apply B5''.
  - intros c Hc. apply good_insert; [done|by apply B6|done].
Qed.

(** *** Allocating a block *)

Section fresh.
Variables (V : gmap Z (list Z)) (b : Z).
Hypothesis Ly : layout V start sb.
Hypothesis Hb : 0 <= b < sb_size sb.
Hypothesis Hu : used V sb b = false.
Hypothesis Hz : b <> 0.
Notation V1 := (allocated V sb b).

Lemma fresh_other x : x <> b -> (forall b', 0 <= b' < sb_size sb -> BBLOCK b' sb <> x) -> V1 !! x = V !! x.
Proof. intros Hx Hm. unfold allocated. by rewrite !lookup_insert_ne by (done || by apply Hm). Qed.

Lemma fresh_good x : good_block V x -> good_block V1 x /\ x <> b /\ V1 !! x = V !! x.
Proof.
  intros [G1 G2 G3 G4 G5 G6]. assert (x <> b) as Hx by congruence. assert (V1 !! x = V !! x) as E by (by apply fresh_other).
  split; [|done]. split; try done.
  - by rewrite (allocated_used V start), G3.
  - unfold allocated. by do 2 apply writable_insert.
  - unfold bdata. by rewrite E.
Qed.

Lemma fresh_new : good_block V1 b /\ bdata V1 b = zero_block.
Proof.
  destruct (ly_free _ _ _ Ly b Hb Hu) as [Hw Hn]. assert (bdata V1 b = zero_block) as E by (unfold bdata, allocated; by rewrite lookup_insert_eq).
  split; [|done]. split; try done.
  - rewrite (allocated_used V start) by done. rewrite bool_decide_true by done. apply orb_true_r.
  - unfold allocated. by do 2 apply writable_insert.
  - by rewrite E.
Qed.

Lemma fresh_blocks i bl : has_blocks V i bl -> has_blocks V1 i bl /\ b ∉ bl /\ b <> ind_addr i /\ raw V1 bl = raw V bl.
Proof.
  intros B. assert (forall x, x ∈ bl -> good_block V1 x /\ x <> b /\ V1 !! x = V !! x) as Hg.
  { intros x Hx. apply fresh_good. by apply (hb_block _ _ _ B). }
  split; [|split; [|split]].
  - destruct B as [B1 B2 B3 B4 B5 B6 B7]. split; try done; [|intros x Hx; by apply Hg].
    destruct B5 as [B5|(B5 & B5' & B5'')]; [by left|right]. destruct (fresh_good _ B5) as (G & _ & E). split; [done|]. split; [done|].
    intros j Hj. unfold bdata. rewrite E. by apply B5''.
  - intros Hin. by destruct (Hg b Hin) as (_ & Hne & _).
  - intros E. destruct (hb_ind _ _ _ B) as [[H1 _]|[H1 _]].
    + congruence.
    + destruct (fresh_good _ H1) as (_ & Hne & _). congruence.
  - unfold raw. f_equal. apply list_fmap_ext. intros k x Hx. unfold bdata. destruct (Hg x) as (_ & _ & ->); [by eapply list_elem_of_lookup_2|done].
Qed.
End fresh.

(** *** How a file grows *)

(** The blocks that belong to the file. *)
Definition owned (i : inode) (bl : list Z) (n : Z) : Prop := n ∈ bl \/ (n = ind_addr i /\ n <> 0).
Definition bitmap_block (n : Z) : Prop := exists b, 0 <= b < sb_size sb /\ BBLOCK b sb = n.
Definition spare (V : gmap Z (list Z)) (n : Z) : Prop := 0 <= n < sb_size sb /\ used V sb n = false.

(** The file has got blocks that were free; the bitmap, those blocks and the
    file's own apart, the disk is as it was. *)
Record grown (V : gmap Z (list Z)) (i : inode) (bl : list Z) (V' : gmap Z (list Z)) (i' : inode) (bl' : list Z) : Prop := {
  gr_layout : layout V' start sb;
  gr_blocks : has_blocks V' i' bl';
  gr_inode : i' = set_i_addrs (i_addrs i') i;
  gr_owned : forall n, owned i' bl' n -> owned i bl n \/ spare V n;
  gr_used : forall n, 0 <= n < sb_size sb -> used V sb n = true -> used V' sb n = true;
  gr_some : forall n, is_Some (V !! n) -> is_Some (V' !! n);
  gr_frame : forall n, ~ bitmap_block n -> ~ owned i bl n -> ~ spare V n -> V' !! n = V !! n
}.

Lemma grown_refl V i bl : layout V start sb -> has_blocks V i bl -> grown V i bl V i bl.
Proof. intros Ly B. split; try done; [by destruct i|by left]. Qed.

Lemma grown_trans V i bl V1 i1 bl1 V2 i2 bl2 : grown V i bl V1 i1 bl1 -> grown V1 i1 bl1 V2 i2 bl2 -> grown V i bl V2 i2 bl2.
Proof.
  intros G1 G2. assert (forall n, spare V1 n -> spare V n) as Hsp.
  { intros n [Hn Hu]. split; [done|]. destruct (used V sb n) eqn:E; [|done].
    by rewrite (gr_used _ _ _ _ _ _ G1 n Hn E) in Hu. }
  split; try apply G2.
  - rewrite (gr_inode _ _ _ _ _ _ G2) at 1. by rewrite (gr_inode _ _ _ _ _ _ G1).
  - intros n Hn. destruct (gr_owned _ _ _ _ _ _ G2 n Hn) as [Ho|Hs]; [by apply (gr_owned _ _ _ _ _ _ G1)|right; by apply Hsp].
  - intros n Hn Hu. apply (gr_used _ _ _ _ _ _ G2 n Hn). by apply (gr_used _ _ _ _ _ _ G1).
  - intros n Hn. by apply (gr_some _ _ _ _ _ _ G2), (gr_some _ _ _ _ _ _ G1).
  - intros n Hb Ho Hs. rewrite (gr_frame _ _ _ _ _ _ G2); [by apply (gr_frame _ _ _ _ _ _ G1)|done| |].
    + intros Ho1. destruct (gr_owned _ _ _ _ _ _ G1 n Ho1); done.
    + intros Hs1. apply Hs. by apply Hsp.
Qed.

(** Writing a block of the file. *)
Lemma owned_good V i bl n : has_blocks V i bl -> owned i bl n -> good_block V n.
Proof.
  intros B [Hn|[-> Hn]]; [by apply (hb_block _ _ _ B)|]. destruct (hb_ind _ _ _ B) as [[? _]|[? _]]; done.
Qed.

Lemma grown_write V0 V i bl i' bl' n d :
  grown V0 i bl V i bl -> owned i bl n -> has_blocks (<[n := d]> V) i' bl' -> i' = set_i_addrs (i_addrs i') i ->
  (forall n, owned i' bl' n -> owned i bl n \/ spare V0 n) -> grown V0 i bl (<[n := d]> V) i' bl'.
Proof.
  intros G0 Ho B' Hi Hown. pose proof (owned_good _ _ _ _ (gr_blocks _ _ _ _ _ _ G0) Ho) as G. split; try done.
  - apply layout_insert; [done|apply G0].
  - intros x Hx Hu. rewrite used_insert_good by done. by apply (gr_used _ _ _ _ _ _ G0).
  - intros x Hx. rewrite lookup_insert. case_decide; [done|]. by apply (gr_some _ _ _ _ _ _ G0).
  - intros x Hbm Hx Hs. rewrite lookup_insert_ne by (by intros ->). by apply (gr_frame _ _ _ _ _ _ G0).
Qed.

(** Allocating a block and giving it to the file. *)
Lemma grown_alloc V i bl b i' bl' :
  layout V start sb -> spare V b -> has_blocks (allocated V sb b) i' bl' -> i' = set_i_addrs (i_addrs i') i ->
  (forall n, owned i' bl' n -> owned i bl n \/ n = b) -> grown V i bl (allocated V sb b) i' bl'.
Proof.
  intros Ly [Hb Hu] B' Hi Hown. split; try done.
  - by apply allocated_layout.
  - intros n Hn. destruct (Hown n Hn) as [?| ->]; [by left|by right].
  - intros n Hn E. by rewrite (allocated_used V start), E by done.
  - intros n Hn. unfold allocated. rewrite !lookup_insert. repeat case_decide; done.
  - intros n Hbm _ Hs. unfold allocated. rewrite !lookup_insert_ne; [done| |].
    + intros E. apply Hbm. by exists b.
    + intros ->. by apply Hs.
Qed.

(** *** Giving a new block to the file *)

Lemma lookup_snoc (bl : list Z) b k : default 0 ((bl ++ [b]) !! k) = if decide (k = length bl) then b else default 0 (bl !! k).
Proof.
  case_decide as E; [subst; by rewrite list_lookup_middle|].
  destruct (decide (k < length bl)%nat); [by rewrite lookup_app_l|].
  rewrite !lookup_ge_None_2; [done|lia|rewrite length_app; cbn; lia].
Qed.

Lemma raw_snoc V bl b : raw V (bl ++ [b]) = raw V bl ++ bdata V b.
Proof. unfold raw. rewrite fmap_app, join_app. cbn. by rewrite app_nil_r. Qed.

Lemma nodup_snoc (bl : list Z) b : NoDup bl -> b ∉ bl -> NoDup (bl ++ [b]).
Proof. intros Hn Hb. apply NoDup_app. split_and!; [done| |apply NoDup_singleton]. intros x Hx ->%list_elem_of_singleton. done. Qed.

Section attach.
Variables (V : gmap Z (list Z)) (i : inode) (bl : list Z) (b : Z).
Hypothesis Ly : layout V start sb.
Hypothesis B : has_blocks V i bl.
Hypothesis Hs : spare V b.
Hypothesis Hz : b <> 0.
Notation V1 := (allocated V sb b).

Lemma attach_fresh : has_blocks V1 i bl /\ b ∉ bl /\ b <> ind_addr i /\ raw V1 bl = raw V bl /\ good_block V1 b /\ bdata V1 b = zero_block.
Proof using Ly B Hs Hz.
  destruct Hs as [Hb Hu]. destruct (fresh_blocks V b Ly Hb Hu Hz i bl B) as (B1 & H1 & H2 & H3).
  destruct (fresh_new V b Ly Hb Hu Hz). done.
Qed.

(** In the inode. *)
Lemma attach_direct : (length bl < 12)%nat ->
  let i' := set_i_addrs (<[length bl := b]> (i_addrs i)) i in
  grown V i bl V1 i' (bl ++ [b]) /\ raw V1 (bl ++ [b]) = raw V bl ++ zero_block.
Proof using Ly B Hs Hz.
  intros Hl i'. destruct attach_fresh as (B1 & Hn & Hi & Hr & G & Hd).
  assert (ind_addr i' = ind_addr i) as Ei by (unfold ind_addr; cbn; by rewrite list_lookup_insert_ne by lia).
  split; [|by rewrite raw_snoc, Hr, Hd]. apply grown_alloc; try done.
  - destruct B1 as [B1 B2 B3 B4 B5 B6 B7]. split; try done.
    + cbn. by rewrite length_insert.
    + rewrite length_app. cbn. lia.
    + intros k Hk. rewrite lookup_snoc. cbn. case_decide as E; [subst; apply list_lookup_insert_eq; lia|].
      rewrite list_lookup_insert_ne by done. by apply B4.
    + rewrite Ei. destruct B5 as [[B5 B5']|(B5 & B5' & B5'')]; [left|right].
      * split; [done|]. rewrite length_app. cbn. lia.
      * split; [done|]. split; [by rewrite not_elem_of_app, list_elem_of_singleton; split; [|apply not_eq_sym]|].
        intros j Hj. rewrite lookup_snoc, decide_False by lia. by apply B5''.
    + intros x [Hx| ->%list_elem_of_singleton]%elem_of_app; [by apply B6|done].
    + by apply nodup_snoc.
  - intros n [[Hx|Hx%list_elem_of_singleton]%elem_of_app|Hx]; [by left; left|by right|]. rewrite Ei in Hx. by left; right.
Qed.

(** As the indirect block. *)
Lemma attach_ind : ind_addr i = 0 ->
  let i' := set_i_addrs (<[12%nat := b]> (i_addrs i)) i in
  grown V i bl V1 i' bl /\ raw V1 bl = raw V bl /\ ind_addr i' = b.
Proof using Ly B Hs Hz.
  intros Ha i'. destruct attach_fresh as (B1 & Hn & Hi & Hr & G & Hd).
  assert (ind_addr i' = b) as Ei.
  { unfold ind_addr. cbn. rewrite list_lookup_insert_eq; [done|]. rewrite (hb_addrs _ _ _ B). lia. }
  split; [|done]. apply grown_alloc; try done.
  - destruct B1 as [B1 B2 B3 B4 B5 B6 B7]. split; try done.
    + cbn. by rewrite length_insert.
    + intros k Hk. cbn. rewrite list_lookup_insert_ne by lia. by apply B4.
    + rewrite Ei, Hd. destruct B5 as [[B5 B5']|[[B5 _] _]]; [|by rewrite Ha in B5]. right. split; [done|]. split; [done|].
      intros j Hj. rewrite (lookup_ge_None_2 bl) by lia. unfold ufield, zero_block. rewrite drop_replicate, take_replicate.
      apply le_combine_zeros.
  - intros n [Hx|[Hx _]]; [by left; left|]. right. congruence.
Qed.

(** In the indirect block. *)
Lemma attach_entry j : ind_addr i <> 0 -> length bl = (12 + j)%nat -> (j < 256)%nat ->
  let V2 := <[ind_addr i := ufield_set (bdata V (ind_addr i)) (4 * Z.of_nat j) 4 b]> V1 in
  grown V i bl V2 i (bl ++ [b]) /\ raw V2 (bl ++ [b]) = raw V bl ++ zero_block.
Proof using Ly B Hs Hz.
  intros Ha Hj Hlt V2. destruct attach_fresh as (B1 & Hn & Hi & Hr & G & Hd).
  assert (owned i bl (ind_addr i)) as Ho by (by right).
  destruct (hb_ind _ _ _ B1) as [[? _]|(Ga & Hna & He)]; [done|]. pose proof (gk_len _ _ Ga) as Hla.
  assert (bdata V1 (ind_addr i) = bdata V (ind_addr i)) as Ea.
  { unfold bdata. destruct (fresh_good V b Ly (proj1 Hs) (proj2 Hs) (ind_addr i)) as (_ & _ & ->); [|done].
    by apply (owned_good _ _ _ _ B). }
  set (d := ufield_set (bdata V (ind_addr i)) (4 * Z.of_nat j) 4 b) in *.
  assert (length d = Z.to_nat BSIZE) as Hld.
  { unfold d, ufield_set. rewrite <- Ea. rewrite length_splice; [done|]. rewrite length_le_split, Hla. unfold BSIZE. lia. }
  assert (forall x, x <> ind_addr i -> bdata V2 x = bdata V1 x) as Hx2 by (intros x Hx; unfold bdata, V2; by rewrite lookup_insert_ne).
  split.
  - apply grown_write; [|done| |by destruct i|].
    + apply grown_alloc; try done; [by destruct i|by left].
    + destruct B1 as [C1 C2 C3 C4 C5 C6 C7]. split; try done.
      * rewrite length_app. cbn. lia.
      * intros k Hk. rewrite lookup_snoc, decide_False by lia. by apply C4.
      * right. split; [by apply good_insert|]. split; [by rewrite not_elem_of_app, list_elem_of_singleton; split; [|apply not_eq_sym]|].
        intros k Hk. rewrite lookup_snoc. unfold bdata at 1. rewrite lookup_insert_eq. cbn [from_option id]. unfold d. case_decide as E.
        -- replace k with j by lia. rewrite ufield_set_same by (rewrite <- ?Ea, ?Hla; unfold BSIZE; lia).
           apply Z.mod_small. apply (gk_write _ _ G).
        -- rewrite <- He by done. rewrite Ea. unfold ufield_set. apply ufield_splice_out; rewrite ?length_le_split, <- ?Ea, ?Hla; unfold BSIZE; lia.
      * intros x [Hx| ->%list_elem_of_singleton]%elem_of_app; apply good_insert; try done. by apply C6.
      * by apply nodup_snoc.
    + intros n [[Hx|Hx%list_elem_of_singleton]%elem_of_app|Hx]; [by left; left| |by left; right]. right. by subst.
  - rewrite raw_snoc, Hx2, Hd by done. f_equal. rewrite <- Hr. unfold raw. f_equal. apply list_fmap_ext.
    intros k x Hx. apply Hx2. intros ->. apply Hna. by eapply list_elem_of_lookup_2.
Qed.
End attach.

(** *** Writing data *)

Lemma raw_len V i bl : has_blocks V i bl -> Forall (fun d => length d = Z.to_nat BSIZE) (bdata V <$> bl).
Proof. intros B. apply Forall_fmap, Forall_forall. intros b Hb. apply (gk_len V). by apply (hb_block _ _ _ B). Qed.

Lemma length_raw V i bl : has_blocks V i bl -> length (raw V bl) = (length bl * Z.to_nat BSIZE)%nat.
Proof. intros B. unfold raw. rewrite (length_join (Z.to_nat BSIZE)) by (by eapply raw_len). by rewrite length_fmap. Qed.

Lemma put_data V i bl q b r ch :
  layout V start sb -> has_blocks V i bl -> bl !! q = Some b -> (r + length ch <= Z.to_nat BSIZE)%nat ->
  let V' := <[b := splice (bdata V b) r ch]> V in
  grown V i bl V' i bl /\ raw V' bl = splice (raw V bl) (q * Z.to_nat BSIZE + r) ch.
Proof.
  intros Ly B Hq Hr V'. assert (b ∈ bl) as Hb by (by eapply list_elem_of_lookup_2).
  pose proof (gk_len _ _ (hb_block _ _ _ B b Hb)) as Hl. split.
  - apply grown_write; [by apply grown_refl|by left| |by destruct i|by left].
    apply blocks_write; [done|done|]. rewrite length_splice; lia.
  - unfold raw. rewrite <- (join_splice (Z.to_nat BSIZE) _ _ (bdata V b)); [|by eapply raw_len|by rewrite list_lookup_fmap, Hq|done].
    f_equal. apply list_eq. intros k. destruct (decide (k = q)) as [->|Hk].
    + rewrite list_lookup_insert_eq by (rewrite length_fmap; by eapply lookup_lt_Some). rewrite list_lookup_fmap, Hq. cbn. f_equal.
      unfold bdata at 1, V'. by rewrite lookup_insert_eq.
    + rewrite list_lookup_insert_ne by done. rewrite !list_lookup_fmap. destruct (bl !! k) as [x|] eqn:Ex; [|done]. cbn. f_equal.
      unfold bdata, V'. rewrite lookup_insert_ne; [done|]. intros ->. apply Hk. eapply NoDup_lookup; [apply B|done|done].
Qed.

(** *** The file the blocks make *)

Lemma blocks_addr V i bl k b : has_blocks V i bl -> bl !! k = Some b -> file_addr V i (Z.of_nat k) = b.
Proof.
  intros B Hk. pose proof (lookup_lt_Some _ _ _ Hk) as Hlt. pose proof (hb_max _ _ _ B). unfold file_addr. unfold NDIRECT.
  destruct (Z.ltb_spec (Z.of_nat k) 12).
  - rewrite Nat2Z.id, (hb_direct _ _ _ B) by lia. by rewrite Hk.
  - destruct (hb_ind _ _ _ B) as [[_ ?]|(_ & _ & He)]; [lia|]. specialize (He (k - 12)%nat ltac:(lia)).
    replace (12 + (k - 12))%nat with k in He by lia. rewrite Hk in He. cbn [from_option id] in He. rewrite <- He.
    change (Z.to_nat 12) with 12%nat. unfold bdata, ind_addr. f_equal. lia.
Qed.

Lemma blocks_nth V i bl bn : has_blocks V i bl -> 0 <= bn < Z.of_nat (length bl) ->
  exists b, bl !! Z.to_nat bn = Some b /\ file_addr V i bn = b /\ b ∈ bl.
Proof.
  intros B Hbn. destruct (lookup_lt_is_Some_2 bl (Z.to_nat bn)) as [b Hb]; [lia|]. exists b. split; [done|].
  split; [|by eapply list_elem_of_lookup_2]. rewrite <- (blocks_addr _ _ _ _ _ B Hb). f_equal. lia.
Qed.

Lemma blocks_file V i bl : has_blocks V i bl -> Z.of_nat (length bl) = nblocks i -> 0 <= i_size i ->
  file_ok V start i /\ contents V i = take (Z.to_nat (i_size i)) (raw V bl).
Proof.
  intros B Hn Hsz. pose proof (nblocks_bounds i Hsz) as Hb. pose proof (hb_max _ _ _ B) as Hm. split.
  - split; rewrite <- ?Hn.
    + apply B.
    + split; [done|]. unfold MAXFILE, NINDIRECT, NDIRECT, BSIZE in *. change (1024 / 4) with 256. lia.
    + intros bn Hbn. destruct (blocks_nth _ _ _ _ B Hbn) as (b & _ & -> & Hin). by apply (gk_zero V), (hb_block _ _ _ B).
    + intros bn Hbn. unfold file_block. destruct (blocks_nth _ _ _ _ B Hbn) as (b & _ & -> & Hin).
      destruct (hb_block _ _ _ B b Hin). done.
    + intros b1 b2 H1 H2. destruct (blocks_nth _ _ _ _ B H1) as (x & Hx & -> & _), (blocks_nth _ _ _ _ B H2) as (y & Hy & -> & _).
      intros ->. pose proof (NoDup_lookup _ _ _ _ (hb_nodup _ _ _ B) Hx Hy). lia.
    + unfold NDIRECT. intros Hlt. destruct (hb_ind _ _ _ B) as [[_ ?]|(Ga & Hna & _)]; [lia|].
      destruct (lookup_lt_is_Some_2 (i_addrs i) 12%nat) as [a Ha]; [rewrite (hb_addrs _ _ _ B); lia|].
      assert (ind_addr i = a) as Ei by (unfold ind_addr; by rewrite Ha). rewrite Ei in Ga, Hna.
      destruct (gk_write _ _ Ga) as (_ & _ & [d Hd]). exists a, d. split; [done|]. split; [apply Ga|]. split; [done|].
      intros bn Hbn. destruct (blocks_nth _ _ _ _ B Hbn) as (b & _ & -> & Hin). by intros ->.
  - unfold contents, file_blocks, raw. rewrite <- Hn. do 2 f_equal. apply list_eq. intros k. rewrite !list_lookup_fmap.
    destruct (bl !! k) as [b|] eqn:Eb.
    + pose proof (lookup_lt_Some _ _ _ Eb). rewrite lookup_seqZ_lt, Z.add_0_l by lia. cbn. f_equal.
      unfold file_block. by rewrite (blocks_addr _ _ _ _ _ B Eb).
    + apply lookup_ge_None in Eb. by rewrite lookup_seqZ_ge by lia.
Qed.

(** Changing a block that is not the file's. *)
Lemma blocks_outside V i bl n d : has_blocks V i bl -> good_block V n -> ~ owned i bl n -> length d = Z.to_nat BSIZE ->
  has_blocks (<[n := d]> V) i bl /\ raw (<[n := d]> V) bl = raw V bl.
Proof.
  intros B Gn Hn Hd. pose proof B as [B1 B2 B3 B4 B5 B6 B7]. split; [split; try done|].
  - destruct B5 as [B5|(B5 & B5' & B5'')]; [by left|right]. split; [by apply good_insert|]. split; [done|]. intros j Hj.
    unfold bdata. rewrite lookup_insert_ne; [by apply B5''|]. intros ->. apply Hn. right. split; [done|apply B5].
  - intros c Hc. apply good_insert; [done|by apply B6|done].
  - unfold raw. f_equal. apply list_fmap_ext. intros k x Hx. unfold bdata. rewrite lookup_insert_ne; [done|].
    intros ->. apply Hn. left. by eapply list_elem_of_lookup_2.
Qed.

Lemma blocks_size V i bl z : has_blocks V i bl -> has_blocks V (set_i_size z i) bl.
Proof. intros [B1 B2 B3 B4 B5 B6 B7]. by split. Qed.
End blocks.
