(* ===== verification/GrowSpec.v ===== *)
(** * Writing past the end of a file

    [bmap] when it allocates, and [writei] for every offset up to the end of the
    file: what is written, how the file grows, and what a full disk leaves. *)

From S2P Require Import Prelude Riscv Kernel Mem Str Bio Log Fs BioSpec LogSpec CrashSpec TxnSpec LogTheorems BlockSpec HeldSpec BallocSpec InodeSpec ContentSpec AppendSpec.

(** The table entry [ip] has become [i]; nothing else outside the disk changed. *)
Definition installed (s s' : fsstate) (ip : Z) (i : inode) : Prop :=
  x_sb s' = x_sb s /\ x_hist s' = x_hist s /\ x_itable s' = <[Z.to_nat (ip - 1) := i]> (x_itable s).

Lemma installed_keeps s s' ip i : keeps s s' -> itab s ip = Some i -> installed s s' ip i.
Proof. intros (E1 & E2 & E3) Hi. split_and!; [done|done|]. rewrite E2. by rewrite list_insert_id. Qed.
Lemma installed_then s s1 s' ip i : installed s s1 ip i -> keeps s1 s' -> installed s s' ip i.
Proof. unfold installed. intros (E1 & E2 & E3) (-> & -> & ->). done. Qed.
Lemma installed_trans s s1 s' ip i i' : installed s s1 ip i -> installed s1 s' ip i' -> installed s s' ip i'.
Proof. unfold installed. intros (E1 & E2 & E3) (-> & -> & ->). rewrite E1, E2, E3. split_and!; [done|done|]. by rewrite list_insert_insert_eq. Qed.
Lemma installed_itab s s' ip i j : itab s ip = Some j -> installed s s' ip i -> itab s' ip = Some i.
Proof. unfold itab. intros Hj (_ & _ & ->). apply list_lookup_insert_eq. by eapply lookup_lt_Some. Qed.

Section grow.
Context `{Self} (start : Z) (sb : superblock).
Implicit Types (s : fsstate) (V : gmap Z (list Z)) (L U : gset Z) (i : inode) (bl : list Z).

Lemma modi_view s V L ip i f : view s V start L -> 1 <= ip -> itab s ip = Some i ->
  exists s', modi ip f s = Done tt s' /\ view s' V start L /\ installed s s' ip (f i).
Proof.
  intros Hv Hp Hi. rewrite (modi_eq s ip i) by done. eexists. split; [done|]. split; [by eapply view_ext; [..|exact Hv]|done].
Qed.

(** The running state of a file being written: [U] holds the blocks that are in
    the log or will be. *)
Record growing s V L U (ip : Z) i bl : Prop := {
  gw_view : view s V start L;
  gw_sb : x_sb s = sb;
  gw_itab : itab s ip = Some i;
  gw_layout : layout V start sb;
  gw_size : 0 < sb_size sb;
  gw_boot : used V sb 0 = true;
  gw_blocks : has_blocks start sb V i bl;
  gw_log : L ⊆ U;
  gw_maps : forall b, 0 <= b < sb_size sb -> BBLOCK b sb ∈ U;
  gw_ind : ind_addr i <> 0 -> ind_addr i ∈ U
}.

Lemma spare_pos V b : used V sb 0 = true -> spare sb V b -> b <> 0.
Proof. intros H0 [_ Hu] ->. congruence. Qed.

Definition disk_full V : Prop := forall b, 0 <= b < sb_size sb -> used V sb b = true.

(** The indirect block may still have to be allocated. *)
Definition need i : Z := if ind_addr i =? 0 then 1 else 0.

Lemma growing_size s V L U ip i bl : growing s V L U ip i bl -> Z.of_nat (size L) <= Z.of_nat (size U).
Proof. intros G. pose proof (subseteq_size L U (gw_log _ _ _ _ _ _ _ G)). lia. Qed.

(** The state goes on as the file grows. *)
Lemma growing_step s V L U ip i bl s' V' L' U' i' bl' :
  growing s V L U ip i bl -> view s' V' start L' -> installed s s' ip i' -> grown start sb V i bl V' i' bl' ->
  L' ⊆ U' -> U ⊆ U' -> (ind_addr i' <> 0 -> ind_addr i' ∈ U') -> growing s' V' L' U' ip i' bl'.
Proof.
  intros G Hv Hin Gr HL HU Hind. split; try done.
  - destruct Hin as (-> & _). apply G.
  - eapply installed_itab; [apply G|done].
  - apply Gr.
  - apply G.
  - apply (gr_used _ _ _ _ _ _ _ _ Gr); [|apply G]. pose proof (gw_size _ _ _ _ _ _ _ G). lia.
  - apply Gr.
  - intros b Hb. apply HU. by apply (gw_maps _ _ _ _ _ _ _ G).
Qed.

(** What looking up block [k] of the file may do: find it, add it, or find the
    disk full. *)
Definition found V bl (k : nat) V' bl' (b : Z) : Prop :=
  b <> 0 /\ bl' !! k = Some b /\ length bl' = Nat.max (length bl) (k + 1) /\
  raw V' bl' = raw V bl ++ replicate ((length bl' - length bl) * Z.to_nat BSIZE) 0.
Definition refused V bl (k : nat) V' bl' (b : Z) : Prop :=
  b = 0 /\ bl' = bl /\ raw V' bl = raw V bl /\ k = length bl /\ disk_full V'.

Lemma found_new V bl V' b : b <> 0 -> raw V' (bl ++ [b]) = raw V bl ++ zero_block -> found V bl (length bl) V' (bl ++ [b]) b.
Proof.
  intros Hb Hr. split; [done|]. split; [by apply list_lookup_middle|]. rewrite length_app. cbn [length].
  split; [lia|]. rewrite Hr. do 2 f_equal. lia.
Qed.

(** The part of [bmap] that uses the indirect block [a]. *)
Definition bmap_entry (dev a bn : Z) : M fsstate Z :=
  let* bp := bread dev a in
  let* x := getb bp in
  let addr := ufield (b_data x) (4 * bn) 4 in
  let* addr :=
    (if addr =? 0 then
       let* addr := balloc dev in
       (if addr =? 0 then ret tt
        else
          modb bp (fun x => set_b_data (ufield_set (b_data x) (4 * bn) 4 addr) x) ;;
          log_write bp) ;;
       ret addr
     else ret addr) in
  brelse bp ;;
  ret addr.

Lemma bmap_indirect_eq ip bn s i : 12 <= bn < 268 -> geti ip s = Done i s ->
  bmap ip bn s =
  (let* addr :=
     (if ind_addr i =? 0 then
        let* addr := balloc (i_dev i) in
        (if addr =? 0 then ret tt
         else modi ip (fun i => set_i_addrs (<[Z.to_nat NDIRECT := addr]> (i_addrs i)) i)) ;;
        ret addr
      else ret (ind_addr i)) in
   if addr =? 0 then ret 0 else bmap_entry (i_dev i) addr (bn - NDIRECT)) s.
Proof.
  intros Hb Hg. unfold bmap. kstep by exact Hg. replace (bn <? NDIRECT) with false by (unfold NDIRECT; lia).
  replace (bn - NDIRECT <? NINDIRECT) with true; [done|].
  unfold NINDIRECT, NDIRECT, BSIZE. change (1024 / 4) with 256. lia.
Qed.

Section entry.
Variables (s : fsstate) (V : gmap Z (list Z)) (L U : gset Z) (ip : Z) (i : inode) (bl : list Z) (k : nat).
Hypothesis G : growing s V L U ip i bl.
Hypothesis Ha : ind_addr i <> 0.
Hypothesis Hcap : Z.of_nat (size U) + 2 < LOGBLOCKS.
Notation a := (ind_addr i).
Notation j := (Z.of_nat (k - 12)).

(** The indirect block is locked: its entry is that of [bl]. *)
Lemma entry_read : (12 <= k < 268)%nat ->
  exists p s1 x, bread ROOTDEV a s = Done p s1 /\ held_view a p start s1 V L /\ keeps s s1 /\
    getb p s1 = Done x s1 /\ b_data x = bdata V a /\ ufield (bdata V a) (4 * j) 4 = default 0 (bl !! k) /\
    good_block start sb V a /\ V !! a = Some (bdata V a).
Proof using G Ha Hcap.
  intros Hk. pose proof (growing_size _ _ _ _ _ _ _ G) as Hsz.
  destruct (hb_ind _ _ _ _ _ (gw_blocks _ _ _ _ _ _ _ G)) as [[? _]|(Ga & _ & He)]; [done|].
  assert (V !! a = Some (bdata V a)) as Hd.
  { destruct (gk_write _ _ _ _ Ga) as (_ & _ & [d Hd]). unfold bdata. by rewrite Hd. }
  destruct (held_bread s V start L a (bdata V a) (gw_view _ _ _ _ _ _ _ G)) as (p & s1 & R1 & H1 & K1); [loglia|done|].
  destruct (held_getb s1 V start L a p _ H1 Hd) as (x & G1 & Ex). exists p, s1, x. split_and!; try done.
  rewrite He by lia. do 2 f_equal. lia.
Qed.

Lemma bmap_entry_there b : (12 <= k < 268)%nat -> bl !! k = Some b -> b <> 0 ->
  exists s', bmap_entry ROOTDEV a j s = Done b s' /\ view s' V start L /\ keeps s s'.
Proof using G Ha Hcap.
  intros Hk Hb Hb0. destruct (entry_read Hk) as (p & s1 & x & R1 & H1 & K1 & G1 & Ex & He & Ga & Hd).
  destruct (held_brelse s1 V start L a p H1) as (s2 & R2 & V2 & K2). exists s2.
  split; [|split; [done|by eauto with blocks]]. rewrite Hb in He. cbn [from_option id] in He.
  unfold bmap_entry. kstep by exact R1. kstep by exact G1. rewrite Ex, He. rewrite (proj2 (Z.eqb_neq _ _) Hb0).
  kpure. by kstep by exact R2.
Qed.

Lemma bmap_entry_new : (12 <= k < 268)%nat -> length bl = k ->
  (exists s' b, bmap_entry ROOTDEV a j s = Done b s' /\ keeps s s' /\ spare sb V b /\
     view s' (<[a := ufield_set (bdata V a) (4 * j) 4 b]> (allocated V sb b)) start ({[a]} ∪ ({[b]} ∪ ({[BBLOCK b sb]} ∪ L)))) \/
  (exists s', bmap_entry ROOTDEV a j s = Done 0 s' /\ keeps s s' /\ view s' V start L /\ disk_full V).
Proof using G Ha Hcap.
  intros Hk Hlen. destruct (entry_read Hk) as (p & s1 & x & R1 & H1 & K1 & G1 & Ex & He & Ga & Hd).
  pose proof (growing_size _ _ _ _ _ _ _ G) as Hsz. pose proof (gw_layout _ _ _ _ _ _ _ G) as Ly.
  rewrite lookup_ge_None_2 in He by lia. cbn [from_option id] in He.
  assert (x_sb s1 = sb) as Esb by (rewrite (proj1 K1); apply G). unfold bmap_entry.
  destruct (balloc_over (held_view a p start) start (fun n => n <> a) (LOGBLOCKS - 1) s1 V L H1) as
    [(b & s2 & R2 & K2 & Hb & Hu & _ & H2)|(s2 & R2 & K2 & H2 & Hfull)]; rewrite ?Esb in *.
  - lia.
  - done.
  - intros b Hb. split; [by apply (gk_map _ _ _ _ Ga)|]. intros Hu ->. pose proof (gk_used _ _ _ _ Ga). congruence.
  - left. assert (spare sb V b) as Hs by done. pose proof (spare_pos V b (gw_boot _ _ _ _ _ _ _ G) Hs) as Hb0.
    destruct (fresh_good start sb V b Ly Hb Hu a Ga) as (Ga1 & _ & Ea).
    destruct (held_log s2 _ start _ a p (bdata V a) (fun d => ufield_set d (4 * j) 4 b) H2) as (s3 & s5 & R3 & R4 & V4 & K4).
    { pose proof (subseteq_size ({[b]} ∪ ({[BBLOCK b sb]} ∪ L)) ({[b]} ∪ U)) as Hle.
      pose proof (size_add b U). pose proof (gw_maps _ _ _ _ _ _ _ G b Hb). pose proof (gw_log _ _ _ _ _ _ _ G).
      specialize (Hle ltac:(set_solver)). lia. }
    { apply Ga1. }
    { by rewrite Ea. }
    apply bind_inv in R4 as ([] & s4 & R4 & R5). exists s5, b. split; [|split; [by eauto with blocks|done]].
    kstep by exact R1. kstep by exact G1. rewrite Ex, He. cbn [Z.eqb]. rewrite bind_assoc. kstep by exact R2.
    rewrite (proj2 (Z.eqb_neq _ _) Hb0). rewrite !bind_assoc. kstep by exact R3. kstep by exact R4. kpure. by kstep by exact R5.
  - right. destruct (held_brelse s2 V start L a p H2) as (s3 & R3 & V3 & K3).
    exists s3. split; [|split; [by eauto with blocks|done]].
    kstep by exact R1. kstep by exact G1. rewrite Ex, He. cbn [Z.eqb]. rewrite bind_assoc. kstep by exact R2.
    cbn [Z.eqb]. kpure. by kstep by exact R3.
Qed.
End entry.

(** *** [bmap] *)

Definition mapped s V U (ip : Z) i bl (k : nat) s' (b : Z) : Prop := exists V' L' U' i' bl',
  growing s' V' L' U' ip i' bl' /\ installed s s' ip i' /\ grown start sb V i bl V' i' bl' /\
  Z.of_nat (size U') + need i' <= Z.of_nat (size U) + need i + 1 /\ U ⊆ U' /\
  (found V bl k V' bl' b /\ b ∈ U' \/ refused V bl k V' bl' b).

(** The file grows by the block just allocated. *)
Lemma mapped_new s V L U ip i bl s' V' L' i' b :
  growing s V L U ip i bl -> view s' V' start L' -> installed s s' ip i' ->
  grown start sb V i bl V' i' (bl ++ [b]) /\ raw V' (bl ++ [b]) = raw V bl ++ zero_block -> b <> 0 ->
  L' ⊆ {[b]} ∪ U -> ind_addr i' = ind_addr i -> mapped s V U ip i bl (length bl) s' b.
Proof.
  intros G Hv Hin [Gr Hr] Hb HL Hi. exists V', L', ({[b]} ∪ U), i', (bl ++ [b]). split_and!; try done.
  - eapply growing_step; try done; [set_solver|]. rewrite Hi. intros Hn. pose proof (gw_ind _ _ _ _ _ _ _ G Hn). set_solver.
  - unfold need. rewrite Hi. pose proof (size_add b U). lia.
  - set_solver.
  - left. split; [by apply found_new|set_solver].
Qed.

Lemma mapped_full s V L U ip i bl s' L' :
  growing s V L U ip i bl -> view s' V start L' -> keeps s s' -> L' ⊆ U -> disk_full V -> mapped s V U ip i bl (length bl) s' 0.
Proof.
  intros G Hv K HL Hf. pose proof (gw_itab _ _ _ _ _ _ _ G) as Hi. pose proof (installed_keeps _ _ _ _ K Hi) as Hin.
  assert (grown start sb V i bl V i bl) as Gr by (apply grown_refl; apply G).
  exists V, L', U, i, bl. split_and!; try done; [|lia|by right].
  eapply growing_step; try done. apply G.
Qed.

Lemma mapped_there s V L U ip i bl k s' b :
  growing s V L U ip i bl -> view s' V start L -> keeps s s' -> bl !! k = Some b -> mapped s V U ip i bl k s' b.
Proof.
  intros G Hv K Hb. pose proof (gw_itab _ _ _ _ _ _ _ G) as Hi. pose proof (installed_keeps _ _ _ _ K Hi) as Hin.
  assert (grown start sb V i bl V i bl) as Gr by (apply grown_refl; apply G).
  pose proof (gw_log _ _ _ _ _ _ _ G). pose proof (lookup_lt_Some _ _ _ Hb). pose proof (size_add b U).
  exists V, L, ({[b]} ∪ U), i, bl. split_and!; try done; [|lia|set_solver|].
  - eapply growing_step; try done; [set_solver|set_solver|]. intros Hn. pose proof (gw_ind _ _ _ _ _ _ _ G Hn). set_solver.
  - left. split; [|set_solver]. split; [|split; [done|split; [lia|by rewrite Nat.sub_diag, app_nil_r]]].
    apply (gk_zero start sb V), (hb_block _ _ _ _ _ (gw_blocks _ _ _ _ _ _ _ G)). by eapply list_elem_of_lookup_2.
Qed.

(** Steps before [bmap] that only change the file as a whole. *)
Lemma mapped_after s V L U ip i bl s1 V1 L1 U1 i1 k s' b :
  growing s V L U ip i bl -> growing s1 V1 L1 U1 ip i1 bl -> installed s s1 ip i1 -> grown start sb V i bl V1 i1 bl ->
  raw V1 bl = raw V bl -> Z.of_nat (size U1) + need i1 <= Z.of_nat (size U) + need i -> U ⊆ U1 ->
  mapped s1 V1 U1 ip i1 bl k s' b -> mapped s V U ip i bl k s' b.
Proof.
  intros G G1 Hin Gr Hr Hs HU (V' & L' & U' & i' & bl' & G' & Hin' & Gr' & Hs' & HU' & Hf).
  exists V', L', U', i', bl'. split_and!; try done.
  - by eapply installed_trans.
  - by eapply grown_trans.
  - lia.
  - by etrans.
  - unfold found, refused in *. by rewrite <- Hr.
Qed.

Lemma balloc_grow s V L U ip i bl :
  growing s V L U ip i bl -> Z.of_nat (size U) + 1 < LOGBLOCKS ->
  (exists b s', balloc ROOTDEV s = Done b s' /\ keeps s s' /\ spare sb V b /\ b <> 0 /\ BBLOCK b sb ∈ U /\
     view s' (allocated V sb b) start ({[b]} ∪ ({[BBLOCK b sb]} ∪ L))) \/
  (exists s', balloc ROOTDEV s = Done 0 s' /\ keeps s s' /\ view s' V start L /\ disk_full V).
Proof.
  intros G Hc. pose proof (growing_size _ _ _ _ _ _ _ G). pose proof (gw_sb _ _ _ _ _ _ _ G) as Esb.
  destruct (balloc_spec s V start L (gw_view _ _ _ _ _ _ _ G)) as [(b & s' & R & K & Hb & Hu & _ & Hv)|(s' & R & K & Hv & Hf)];
    rewrite ?Esb in *; [lia|apply G| |].
  - left. exists b, s'. assert (spare sb V b) as Hs by done. split_and!; try done; [|by apply (gw_maps _ _ _ _ _ _ _ G)].
    eapply spare_pos; [apply G|done].
  - right. by exists s'.
Qed.

Lemma growing_geti s V L U ip i bl : growing s V L U ip i bl -> 1 <= ip -> geti ip s = Done i s.
Proof. intros G Hp. apply geti_eq; [done|apply G]. Qed.

Lemma bmap_direct s V L U ip i bl k :
  growing s V L U ip i bl -> 1 <= ip -> (k <= length bl)%nat -> (k < 12)%nat -> Z.of_nat (size U) + 1 < LOGBLOCKS ->
  exists s' b, bmap ip (Z.of_nat k) s = Done b s' /\ mapped s V U ip i bl k s' b.
Proof.
  intros G Hp Hk Hlt Hc. pose proof (gw_blocks _ _ _ _ _ _ _ G) as B. pose proof (gw_log _ _ _ _ _ _ _ G) as HL.
  unfold bmap. setoid_rewrite (bind_done _ _ _ _ _ (growing_geti _ _ _ _ _ _ _ G Hp)).
  replace (Z.of_nat k <? NDIRECT) with true by (unfold NDIRECT; lia). rewrite Nat2Z.id, (hb_direct _ _ _ _ _ B) by done.
  cbn [from_option id]. destruct (bl !! k) as [b|] eqn:Eb.
  - assert (b <> 0) as Hb0 by (apply (gk_zero start sb V), (hb_block _ _ _ _ _ B); by eapply list_elem_of_lookup_2).
    exists s, b. cbn [from_option id]. rewrite (proj2 (Z.eqb_neq _ _) Hb0). split; [done|].
    eapply mapped_there; [done|apply G|done|done].
  - assert (k = length bl) as -> by (apply lookup_ge_None in Eb; lia). cbn [from_option id Z.eqb].
    rewrite (hb_dev _ _ _ _ _ B).
    destruct (balloc_grow s V L U ip i bl G Hc) as [(b & s1 & R1 & K1 & Hs & Hb0 & HB & V1)|(s1 & R1 & K1 & V1 & Hf)].
    + destruct (modi_view s1 _ _ ip i (fun i => set_i_addrs (<[length bl := b]> (i_addrs i)) i) V1 Hp) as (s2 & R2 & V2 & I2).
      { rewrite (itab_keeps s) by done. apply G. }
      exists s2, b. split; [kstep by exact R1; rewrite (proj2 (Z.eqb_neq _ _) Hb0); by kstep by exact R2|].
      pose proof (attach_direct start sb V i bl b (gw_layout _ _ _ _ _ _ _ G) B Hs Hb0 Hlt) as At.
      eapply mapped_new; [done|exact V2| |exact At|done|set_solver|].
      * eapply installed_trans; [by eapply installed_keeps; [|apply G]|done].
      * unfold ind_addr. cbn. by rewrite list_lookup_insert_ne by lia.
    + exists s1, 0. split; [by kstep by exact R1|]. by eapply mapped_full.
Qed.

(** With the indirect block there. *)
Lemma bmap_entry_grow s V L U ip i bl k :
  growing s V L U ip i bl -> ind_addr i <> 0 -> (k <= length bl)%nat -> (12 <= k < 268)%nat ->
  Z.of_nat (size U) + 2 < LOGBLOCKS ->
  exists s' b, bmap_entry ROOTDEV (ind_addr i) (Z.of_nat k - NDIRECT) s = Done b s' /\ mapped s V U ip i bl k s' b.
Proof.
  intros G Ha Hk Hr Hc. pose proof (gw_blocks _ _ _ _ _ _ _ G) as B. pose proof (gw_log _ _ _ _ _ _ _ G) as HL.
  pose proof (gw_ind _ _ _ _ _ _ _ G Ha) as HaU. replace (Z.of_nat k - NDIRECT) with (Z.of_nat (k - 12)) by (unfold NDIRECT; lia).
  destruct (bl !! k) as [b|] eqn:Eb.
  - assert (b <> 0) as Hb0 by (apply (gk_zero start sb V), (hb_block _ _ _ _ _ B); by eapply list_elem_of_lookup_2).
    destruct (bmap_entry_there s V L U ip i bl k G Ha Hc b Hr Eb Hb0) as (s' & R & Hv & K). exists s', b. split; [done|].
    by eapply mapped_there.
  - assert (length bl = k) as Hlen by (apply lookup_ge_None in Eb; lia).
    destruct (bmap_entry_new s V L U ip i bl k G Ha Hc Hr Hlen) as [(s' & b & R & K & Hs & Hv)|(s' & R & K & Hv & Hf)].
    + exists s', b. split; [done|]. pose proof (spare_pos V b (gw_boot _ _ _ _ _ _ _ G) Hs) as Hb0.
      pose proof (attach_entry start sb V i bl b (gw_layout _ _ _ _ _ _ _ G) B Hs Hb0 (k - 12) Ha ltac:(lia) ltac:(lia)) as At.
      rewrite <- Hlen at 1. eapply mapped_new; [done|exact Hv|by eapply installed_keeps; [|apply G]|exact At|done| |done].
      pose proof (gw_maps _ _ _ _ _ _ _ G b (proj1 Hs)). set_solver.
    + exists s', 0. split; [done|]. rewrite <- Hlen. by eapply mapped_full.
Qed.

Lemma bmap_grow s V L U ip i bl k :
  growing s V L U ip i bl -> 1 <= ip -> (k <= length bl)%nat -> (k < 268)%nat ->
  Z.of_nat (size U) + need i + 2 < LOGBLOCKS ->
  exists s' b, bmap ip (Z.of_nat k) s = Done b s' /\ mapped s V U ip i bl k s' b.
Proof.
  intros G Hp Hk Hr Hc. pose proof (gw_blocks _ _ _ _ _ _ _ G) as B. pose proof (gw_log _ _ _ _ _ _ _ G) as HL.
  assert (0 <= need i) by (unfold need; case_match; lia).
  destruct (decide (k < 12)%nat) as [Hlt|Hge]; [apply (bmap_direct s V L); try done; lia|].
  setoid_rewrite (bmap_indirect_eq ip (Z.of_nat k) s i ltac:(lia) (growing_geti _ _ _ _ _ _ _ G Hp)).
  rewrite (hb_dev _ _ _ _ _ B). destruct (Z.eqb_spec (ind_addr i) 0) as [Ha|Ha].
  2: { setoid_rewrite bind_ret. rewrite (proj2 (Z.eqb_neq _ _) Ha). apply (bmap_entry_grow s V L); try done; lia. }
  assert (need i = 1) as Hni by (unfold need; by rewrite Ha).
  destruct (balloc_grow s V L U ip i bl G ltac:(lia)) as [(b & s1 & R1 & K1 & Hs & Hb0 & HB & V1)|(s1 & R1 & K1 & V1 & Hf)].
  - destruct (modi_view s1 _ _ ip i (fun i => set_i_addrs (<[Z.to_nat NDIRECT := b]> (i_addrs i)) i) V1 Hp) as (s2 & R2 & V2 & I2).
    { rewrite (itab_keeps s) by done. apply G. }
    destruct (attach_ind start sb V i bl b (gw_layout _ _ _ _ _ _ _ G) B Hs Hb0 Ha) as (Gr & Hraw & Ei).
    set (i1 := set_i_addrs (<[12%nat := b]> (i_addrs i)) i) in *. change (set_i_addrs _ i) with i1 in I2.
    assert (installed s s2 ip i1) as I1 by (eapply installed_trans; [by eapply installed_keeps; [|apply G]|done]).
    assert (growing s2 (allocated V sb b) ({[b]} ∪ ({[BBLOCK b sb]} ∪ L)) ({[b]} ∪ U) ip i1 bl) as G1.
    { eapply growing_step; try done; [set_solver|set_solver|]. rewrite Ei. set_solver. }
    assert (need i1 = 0) as Hn1 by (unfold need; by rewrite Ei, (proj2 (Z.eqb_neq _ _) Hb0)). pose proof (size_add b U).
    destruct (bmap_entry_grow s2 _ _ _ ip i1 bl k G1) as (s' & b' & R & Mp); [by rewrite Ei|done|lia|lia|].
    exists s', b'. split.
    + rewrite bind_assoc. kstep by exact R1. rewrite (proj2 (Z.eqb_neq _ _) Hb0), bind_assoc. kstep by exact R2. kpure.
      rewrite (proj2 (Z.eqb_neq _ _) Hb0). by rewrite Ei in R.
    + eapply mapped_after; [exact G|exact G1|done|done|done|lia|set_solver|done].
  - exists s1, 0. split; [rewrite bind_assoc; by kstep by exact R1|].
    destruct (hb_ind _ _ _ _ _ B) as [[_ Hl]|[[Hz _] _]]; [|done]. replace k with (length bl) by lia. by eapply mapped_full.
Qed.

(** *** [writei] *)

(** There are just the blocks that were there and those a file of [e] bytes needs. *)
Definition covers bl bl' (e : Z) : Prop :=
  e <= BSIZE * Z.of_nat (length bl') /\
  (length bl' = length bl \/ (length bl < length bl')%nat /\ BSIZE * (Z.of_nat (length bl') - 1) < e).

(** The bytes of the file with blocks of zeros added, as far as [bl'] goes. *)
Definition padded V bl bl' : list Z := raw V bl ++ replicate ((length bl' - length bl) * Z.to_nat BSIZE) 0.

(** What the loop of [writei] has done when it wrote [r] bytes. *)
Record wrote_upto s V U (ip : Z) i bl (off : Z) (data : list Z) (cost : Z) s' V' L' i' bl' (r : Z) : Prop := {
  wu_range : 0 <= r <= Z.of_nat (length data);
  wu_growing : exists U', growing s' V' L' U' ip i' bl' /\ U ⊆ U' /\
    Z.of_nat (size U') + need i' <= Z.of_nat (size U) + need i + cost;
  wu_inst : installed s s' ip i';
  wu_grown : grown start sb V i bl V' i' bl';
  wu_covers : covers bl bl' (off + r);
  wu_raw : raw V' bl' = splice (padded V bl bl') (Z.to_nat off) (take (Z.to_nat r) data);
  wu_full : r < Z.of_nat (length data) -> disk_full V'
}.

Lemma splice_nil l o : splice l o [] = l.
Proof. unfold splice. cbn. by rewrite Nat.add_0_r, take_drop. Qed.

Lemma splice_app l o a z : (o + length a <= length l)%nat -> splice l o a ++ z = splice (l ++ z) o a.
Proof.
  intros Hl. unfold splice. rewrite <- !(assoc_L (++)). rewrite take_app_le by lia. do 2 f_equal. by rewrite drop_app_le by lia.
Qed.

Lemma wrote_none s V L U ip i bl off data s' V' L' U' i' cost :
  growing s V L U ip i bl -> growing s' V' L' U' ip i' bl -> U ⊆ U' -> installed s s' ip i' ->
  grown start sb V i bl V' i' bl -> raw V' bl = raw V bl -> off <= BSIZE * Z.of_nat (length bl) ->
  Z.of_nat (size U') + need i' <= Z.of_nat (size U) + need i + cost -> (data = [] \/ disk_full V') ->
  wrote_upto s V U ip i bl off data cost s' V' L' i' bl 0.
Proof.
  intros G G' HU Hin Gr Hr Ho Hs Hf. split; try done.
  - lia.
  - by exists U'.
  - rewrite Z.add_0_r. split; [done|by left].
  - change (Z.to_nat 0) with 0%nat. rewrite take_0, splice_nil. unfold padded. by rewrite Nat.sub_diag, app_nil_r.
  - destruct Hf as [->|Hf]; [cbn; lia|done].
Qed.

(** One block written, then the rest. *)
Lemma wrote_more s V L U ip i bl off data m s1 V1 L1 U1 i1 bl1 c1 c2 s' V' L' i' bl' r :
  growing s V L U ip i bl -> growing s1 V1 L1 U1 ip i1 bl1 -> U ⊆ U1 -> installed s s1 ip i1 ->
  grown start sb V i bl V1 i1 bl1 -> 0 <= off -> 0 < m <= Z.of_nat (length data) ->
  Z.of_nat (size U1) + need i1 <= Z.of_nat (size U) + need i + c1 ->
  covers bl bl1 (off + m) -> raw V1 bl1 = splice (padded V bl bl1) (Z.to_nat off) (take (Z.to_nat m) data) ->
  wrote_upto s1 V1 U1 ip i1 bl1 (off + m) (drop (Z.to_nat m) data) c2 s' V' L' i' bl' r ->
  wrote_upto s V U ip i bl off data (c1 + c2) s' V' L' i' bl' (m + r).
Proof.
  intros G G1 HU I1 Gr1 Ho Hm Hs1 [C1 C1'] Hr1 W.
  destruct (wu_growing _ _ _ _ _ _ _ _ _ _ _ _ _ _ _ W) as (U' & G' & HU' & Hs').
  destruct (wu_covers _ _ _ _ _ _ _ _ _ _ _ _ _ _ _ W) as [C2 C2'].
  pose proof (wu_range _ _ _ _ _ _ _ _ _ _ _ _ _ _ _ W) as Hr. rewrite length_drop in Hr.
  pose proof (length_raw _ _ _ _ _ (gw_blocks _ _ _ _ _ _ _ G)) as Hl0.
  assert (length bl <= length bl1 <= length bl')%nat as Hll by lia.
  split.
  - lia.
  - exists U'. split; [done|]. split; [by etrans|lia].
  - eapply installed_trans; [done|apply W].
  - eapply grown_trans; [done|apply W].
  - split; [lia|]. unfold BSIZE in *. lia.
  - rewrite (wu_raw _ _ _ _ _ _ _ _ _ _ _ _ _ _ _ W). unfold padded at 1. rewrite Hr1.
    assert (length (take (Z.to_nat m) data) = Z.to_nat m) as Hlm by (rewrite length_take; lia).
    rewrite splice_app.
    2: { unfold padded. rewrite length_app, length_replicate, Hl0, Hlm. unfold BSIZE in *. nia. }
    assert (padded V bl bl1 ++ replicate ((length bl' - length bl1) * Z.to_nat BSIZE) 0 = padded V bl bl') as ->.
    { unfold padded. rewrite <- (assoc_L (++)), <- replicate_add. do 2 f_equal. nia. }
    replace (Z.to_nat (off + m)) with (Z.to_nat off + length (take (Z.to_nat m) data))%nat by lia.
    rewrite splice_splice.
    + f_equal. replace (Z.to_nat (m + r)) with (Z.to_nat m + Z.to_nat r)%nat by lia. by rewrite take_take_drop.
    + unfold padded. rewrite Hlm, length_take, length_drop, length_app, length_replicate, Hl0. unfold BSIZE in *. nia.
  - intros Hlt. apply (wu_full _ _ _ _ _ _ _ _ _ _ _ _ _ _ _ W). rewrite length_drop. lia.
Qed.

(** A block is looked up and written. *)
Lemma put_block s V L U ip i bl off ch s1 V1 L1 U1 i1 bl1 b :
  growing s V L U ip i bl -> growing s1 V1 L1 U1 ip i1 bl1 -> installed s s1 ip i1 -> grown start sb V i bl V1 i1 bl1 ->
  found V bl (Z.to_nat (off / BSIZE)) V1 bl1 b -> b ∈ U1 -> Z.of_nat (size U1) < LOGBLOCKS ->
  0 <= off <= BSIZE * Z.of_nat (length bl) -> 0 < Z.of_nat (length ch) <= BSIZE - off mod BSIZE ->
  exists p s2 s3 s4 V4 L4, bread ROOTDEV b s1 = Done p s2 /\
    modb p (fun x => set_b_data (splice (b_data x) (Z.to_nat (off mod BSIZE)) ch) x) s2 = Done tt s3 /\
    (log_write p ;; brelse p) s3 = Done tt s4 /\
    growing s4 V4 L4 U1 ip i1 bl1 /\ installed s s4 ip i1 /\ grown start sb V i bl V4 i1 bl1 /\
    covers bl bl1 (off + Z.of_nat (length ch)) /\ raw V4 bl1 = splice (padded V bl bl1) (Z.to_nat off) ch.
Proof.
  intros G G1 I1 Gr1 (Hb0 & Hq & Hlen & Hraw) HbU Hc Ho Hch. set (q := Z.to_nat (off / BSIZE)) in *.
  pose proof (Z.div_mod off BSIZE ltac:(unfold BSIZE; lia)) as Hdm. pose proof (Z.mod_pos_bound off BSIZE ltac:(unfold BSIZE; lia)) as Hm.
  pose proof (Z.div_pos off BSIZE ltac:(lia) ltac:(unfold BSIZE; lia)) as Hqp.
  assert (b ∈ bl1) as Hin by (by eapply list_elem_of_lookup_2).
  pose proof (gw_blocks _ _ _ _ _ _ _ G1) as B1. pose proof (hb_block _ _ _ _ _ B1 b Hin) as Gb.
  pose proof (growing_size _ _ _ _ _ _ _ G1). pose proof (gw_log _ _ _ _ _ _ _ G1) as HL1.
  assert (V1 !! b = Some (bdata V1 b)) as Hd by (destruct (gk_write _ _ _ _ Gb) as (_ & _ & [d Hd]); unfold bdata; by rewrite Hd).
  destruct (view_write s1 V1 start L1 b _ (fun d => splice d (Z.to_nat (off mod BSIZE)) ch) (gw_view _ _ _ _ _ _ _ G1) ltac:(lia)
    (gk_write _ _ _ _ Gb) Hd) as (p & s2 & s3 & s4 & x & R2 & _ & _ & _ & R3 & R4 & V4 & K4).
  destruct (put_data start sb V1 i1 bl1 q b (Z.to_nat (off mod BSIZE)) ch (gw_layout _ _ _ _ _ _ _ G1) B1 Hq) as [Gr4 Hr4]; [unfold BSIZE in *; lia|].
  assert (installed s1 s4 ip i1) as I4 by (eapply installed_keeps; [done|apply G1]).
  eexists p, s2, s3, s4, _, _. split; [exact R2|]. split; [exact R3|]. split; [exact R4|].
  split; [eapply growing_step; [exact G1|exact V4|done|done|set_solver|done|apply G1]|].
  split; [by eapply installed_trans|]. split; [by eapply grown_trans|]. split.
  - unfold covers, BSIZE in *. lia.
  - rewrite Hr4, Hraw. unfold padded. f_equal. unfold q, BSIZE in *. lia.
Qed.

(** The two ways a round goes. *)
Lemma writei_loop_stop fuel ip off data tot s s1 :
  data <> [] -> bmap ip (off / BSIZE) s = Done 0 s1 -> writei_loop (S fuel) ip off data tot s = Done (tot, off) s1.
Proof. intros Hd R. destruct data; [done|]. cbn [writei_loop]. by kstep by exact R. Qed.

Lemma writei_loop_round fuel ip off data tot s s1 s2 s3 s4 b p i :
  let m := Z.min (Z.of_nat (length data)) (BSIZE - off mod BSIZE) in
  data <> [] -> bmap ip (off / BSIZE) s = Done b s1 -> b <> 0 -> geti ip s1 = Done i s1 -> i_dev i = ROOTDEV ->
  bread ROOTDEV b s1 = Done p s2 ->
  modb p (fun x => set_b_data (splice (b_data x) (Z.to_nat (off mod BSIZE)) (take (Z.to_nat m) data)) x) s2 = Done tt s3 ->
  (log_write p ;; brelse p) s3 = Done tt s4 ->
  writei_loop (S fuel) ip off data tot s = writei_loop fuel ip (u32 (off + m)) (drop (Z.to_nat m) data) (tot + m) s4.
Proof.
  intros m Hd R1 Hb Hg Hdev R2 R3 R4. destruct data as [|z data']; [done|]. cbn [writei_loop]. kstep by exact R1.
  rewrite (proj2 (Z.eqb_neq _ _) Hb). kstep by exact Hg. rewrite Hdev. kstep by exact R2. fold m. kstep by exact R3.
  by rewrite (log_then _ _ _ _ R4).
Qed.

Lemma writei_loop_grow fuel : forall s V L U ip i bl off data tot,
  growing s V L U ip i bl -> 1 <= ip -> 0 <= off <= BSIZE * Z.of_nat (length bl) ->
  off + Z.of_nat (length data) <= 268 * BSIZE ->
  Z.of_nat (size U) + need i + Z.of_nat fuel + 2 <= LOGBLOCKS ->
  (data = [] \/ off mod BSIZE + Z.of_nat (length data) <= BSIZE * Z.of_nat fuel) ->
  exists s' V' L' i' bl' r, writei_loop fuel ip off data tot s = Done (tot + r, off + r) s' /\
    wrote_upto s V U ip i bl off data (Z.of_nat fuel) s' V' L' i' bl' r.
Proof.
  induction fuel as [|fuel IH]; intros s V L U ip i bl off data tot G Hp Ho Hmax Hc Hf.
  all: pose proof (Z.mod_pos_bound off BSIZE ltac:(unfold BSIZE; lia)) as Hm.
  all: destruct (decide (data = [])) as [->|Hne].
  1, 3: exists s, V, L, i, bl, 0; rewrite !Z.add_0_r; split; [done|];
    eapply wrote_none; try done; [by eapply installed_keeps; [|apply G]|apply grown_refl; apply G|lia|lia|by left].
  { destruct Hf as [?|Hf]; [done|]. destruct data; [done|]. cbn in Hf. lia. }
  destruct Hf as [?|Hf]; [done|]. assert (0 < Z.of_nat (length data)) as Hd by (destruct data; [done|cbn; lia]).
  pose proof (Z.div_mod off BSIZE ltac:(unfold BSIZE; lia)) as Hdm.
  pose proof (Z.div_pos off BSIZE ltac:(lia) ltac:(unfold BSIZE; lia)) as Hqp.
  assert (0 <= need i) by (unfold need; case_match; lia).
  destruct (bmap_grow s V L U ip i bl (Z.to_nat (off / BSIZE)) G Hp) as (s1 & b & R1 & V1 & L1 & U1 & i1 & bl1 & G1 & I1 & Gr1 & Hs1 & HU1 & Hfd);
    [unfold BSIZE in *; lia|unfold BSIZE in *; lia|lia|]. rewrite Z2Nat.id in R1 by lia.
  destruct Hfd as [[Hfd HbU]|(-> & -> & Hr & _ & Hfull)].
  2: { exists s1, V1, L1, i1, bl, 0. rewrite !Z.add_0_r. split; [by apply writei_loop_stop|]. eapply wrote_none; try done; [lia|lia|by right]. }
  set (m := Z.min (Z.of_nat (length data)) (BSIZE - off mod BSIZE)).
  assert (Z.of_nat (length (take (Z.to_nat m) data)) = m) as Hch by (rewrite length_take; lia).
  assert (0 <= need i1) by (unfold need; case_match; lia).
  destruct (put_block s V L U ip i bl off (take (Z.to_nat m) data) s1 V1 L1 U1 i1 bl1 b) as
    (p & s2 & s3 & s4 & V4 & L4 & R2 & R3 & R4 & G4 & I4 & Gr4 & C4 & Hr4); try done; try lia. rewrite Hch in C4.
  destruct (IH s4 V4 L4 U1 ip i1 bl1 (off + m) (drop (Z.to_nat m) data) (tot + m)) as (s5 & V5 & L5 & i5 & bl5 & r & R5 & W5); try done.
  { destruct C4 as [? _]. lia. }
  { rewrite length_drop. lia. }
  { lia. }
  { destruct (decide (Z.of_nat (length data) <= BSIZE - off mod BSIZE)) as [Hle|Hgt]; [left; apply drop_ge; lia|right].
    rewrite length_drop. assert (m = BSIZE - off mod BSIZE) as -> by lia.
    replace (off + (BSIZE - off mod BSIZE)) with ((off / BSIZE + 1) * BSIZE) by lia.
    rewrite Z.mod_mul by (unfold BSIZE; lia). lia. }
  exists s5, V5, L5, i5, bl5, (m + r). split.
  - rewrite (writei_loop_round fuel ip off data tot s s1 s2 s3 s4 b p i1); try done.
    + fold m. rewrite u32_small by (unfold BSIZE in *; lia). rewrite R5. f_equal. f_equal; lia.
    + apply Hfd.
    + by eapply growing_geti.
    + apply (gw_blocks _ _ _ _ _ _ _ G1).
  - replace (Z.of_nat (S fuel)) with (1 + Z.of_nat fuel) by lia. eapply wrote_more; [exact G|exact G4|done|done|done|lia|lia|lia|done|done|done].
Qed.

(** *** Files in use *)

(** A file in the inode table inside a transaction: its blocks are allocated,
    exactly as many as its size needs, and so is the block of its inode. *)
Record open_file s V L (ip : Z) i bl : Prop := {
  of_view : view s V start L;
  of_sb : x_sb s = sb;
  of_ip : 1 <= ip;
  of_itab : itab s ip = Some i;
  of_layout : layout V start sb;
  of_size : 0 < sb_size sb;
  of_boot : used V sb 0 = true;
  of_blocks : has_blocks start sb V i bl;
  of_count : Z.of_nat (length bl) = nblocks i;
  of_wf : dinode_wf (inode_disk i);
  of_home : good_block start sb V (IBLOCK (i_inum i) sb);
  of_apart : ~ owned i bl (IBLOCK (i_inum i) sb)
}.

(** The blocks a write may add to the log. *)
Definition quota (M L : gset Z) i : gset Z :=
  {[IBLOCK (i_inum i) sb]} ∪ ((if ind_addr i =? 0 then ∅ else {[ind_addr i]}) ∪ (M ∪ L)).

Lemma quota_size M L i : Z.of_nat (size (quota M L i)) + need i <= Z.of_nat (size L) + Z.of_nat (size M) + 2.
Proof.
  unfold quota, need. assert (size (M ∪ L) <= size M + size L)%nat as Hu.
  { rewrite size_union_alt. pose proof (subseteq_size (L ∖ M) L ltac:(set_solver)). lia. }
  destruct (ind_addr i =? 0).
  - rewrite (left_id_L ∅ (∪)). pose proof (size_add (IBLOCK (i_inum i) sb) (M ∪ L)). lia.
  - pose proof (size_add (ind_addr i) (M ∪ L)). pose proof (size_add (IBLOCK (i_inum i) sb) ({[ind_addr i]} ∪ (M ∪ L))). lia.
Qed.

Lemma open_growing s V L ip i bl M :
  open_file s V L ip i bl -> (forall b, 0 <= b < sb_size sb -> BBLOCK b sb ∈ M) -> growing s V L (quota M L i) ip i bl.
Proof.
  intros O HM. split; try apply O; unfold quota.
  - set_solver.
  - intros b Hb. pose proof (HM b Hb). set_solver.
  - intros Hn. rewrite (proj2 (Z.eqb_neq _ _) Hn). set_solver.
Qed.

(** The addresses fit their fields. *)
Lemma blocks_wf V i bl i0 z : has_blocks start sb V i bl -> dinode_wf (inode_disk i0) -> i = set_i_addrs (i_addrs i) i0 ->
  0 <= z < 2 ^ 32 -> dinode_wf (inode_disk (set_i_size z i)).
Proof.
  intros B [W1 W2 W3 W4 W5 W6 W7] -> Hz. split; try done; [apply B|]. cbn. intros a Ha.
  apply list_elem_of_lookup in Ha as [k Hk]. pose proof (lookup_lt_Some _ _ _ Hk) as Hlt. pose proof (hb_addrs _ _ _ _ _ B) as Hl.
  cbn in Hl. destruct (decide (k = 12%nat)) as [->|Hne].
  - destruct (hb_ind _ _ _ _ _ B) as [[E _]|[G _]]; unfold ind_addr in *; cbn in *; rewrite Hk in *; cbn in *; [lia|].
    by apply (gk_write _ _ _ _ G).
  - pose proof (hb_direct _ _ _ _ _ B k ltac:(lia)) as E. cbn in E. rewrite Hk in E. injection E as ->.
    destruct (bl !! k) as [b|] eqn:Eb; [|cbn; lia]. cbn.
    apply (gk_write start sb V), (hb_block _ _ _ _ _ B). by eapply list_elem_of_lookup_2.
Qed.

(** A block that is used and not the file's is as it was after the file grew. *)
Lemma grown_other V i bl V' i' bl' n : grown start sb V i bl V' i' bl' -> good_block start sb V n -> ~ owned i bl n ->
  good_block start sb V' n /\ ~ owned i' bl' n /\ V' !! n = V !! n.
Proof.
  intros Gr Gn Hn. assert (~ spare sb V n) as Hs by (intros [_ Hu]; pose proof (gk_used _ _ _ _ Gn); congruence).
  assert (V' !! n = V !! n) as E.
  { apply (gr_frame _ _ _ _ _ _ _ _ Gr); [|done|done]. intros (b & Hb & Eb). by apply (gk_map _ _ _ _ Gn b Hb). }
  split; [|split; [|done]].
  - destruct Gn as [G1 G2 G3 (G4 & G4' & G4'') G5 G6]. split; try done.
    + by apply (gr_used _ _ _ _ _ _ _ _ Gr).
    + split_and!; [lia|lia|done|by rewrite E].
    + unfold bdata. by rewrite E.
  - intros Ho. destruct (gr_owned _ _ _ _ _ _ _ _ Gr n Ho); done.
Qed.

(** The bytes of the file after [r] bytes were written at [off]. *)
Lemma contents_written (l z : list Z) (size off r : nat) data :
  (off <= size)%nat -> (size <= length l)%nat -> (r <= length data)%nat -> (Nat.max size (off + r) <= length l + length z)%nat ->
  take (Nat.max size (off + r)) (splice (l ++ z) off (take r data)) =
  take off (take size l) ++ take r data ++ drop (off + r) (take size l).
Proof.
  intros H1 H2 H3 H4. assert (length (take r data) = r) as Hr by (rewrite length_take; lia).
  rewrite take_splice by (rewrite ?Hr, ?length_app; lia). unfold splice. rewrite Hr. rewrite take_take, Nat.min_l by lia.
  rewrite (take_take l off size), Nat.min_l by lia. rewrite take_app_le by lia. do 2 f_equal.
  destruct (decide (off + r <= size)%nat) as [Hle|Hgt].
  - rewrite Nat.max_l by lia. by rewrite take_app_le by lia.
  - rewrite !drop_ge; [done| |]; rewrite length_take; lia.
Qed.

(** What a write of which [r] bytes fitted leaves. *)
Record appended s V L ip i bl (off : Z) (data : list Z) (cost : Z) s' V' L' i' bl' (r : Z) : Prop := {
  ap_range : 0 <= r <= Z.of_nat (length data);
  ap_full : r < Z.of_nat (length data) -> disk_full V';
  ap_open : open_file s' V' L' ip i' bl';
  ap_inst : installed s s' ip i';
  ap_log : Z.of_nat (size L') <= Z.of_nat (size L) + cost;
  ap_inode : i' = set_i_size (Z.max (i_size i) (off + r)) (set_i_addrs (i_addrs i') i);
  ap_bytes : contents V' i' = take (Z.to_nat off) (contents V i) ++ take (Z.to_nat r) data ++ drop (Z.to_nat (off + r)) (contents V i);
  ap_frame : forall n, ~ bitmap_block sb n -> ~ owned i bl n -> ~ spare sb V n -> n <> IBLOCK (i_inum i) sb -> V' !! n = V !! n;
  ap_stored : dinode_in V' sb (i_inum i) = inode_disk i'
}.

(** The disk when the inode is stored. *)
Lemma stored_file V i bl z :
  layout V start sb -> has_blocks start sb V i bl -> dinode_wf (inode_disk (set_i_size z i)) ->
  good_block start sb V (IBLOCK (i_inum i) sb) -> ~ owned i bl (IBLOCK (i_inum i) sb) ->
  let i' := set_i_size z i in let V' := stored V sb i' in
  layout V' start sb /\ has_blocks start sb V' i' bl /\ raw V' bl = raw V bl /\
  good_block start sb V' (IBLOCK (i_inum i) sb) /\ (forall b, 0 <= b < sb_size sb -> used V' sb b = used V sb b) /\
  dinode_in V' sb (i_inum i) = inode_disk i' /\ forall n, n <> IBLOCK (i_inum i) sb -> V' !! n = V !! n.
Proof.
  intros Ly B Wf Gb Hna i' V'. set (blk := IBLOCK (i_inum i) sb) in *.
  assert (V !! blk = Some (bdata V blk)) as Hd by (destruct (gk_write _ _ _ _ Gb) as (_ & _ & [d Hd]); unfold bdata; by rewrite Hd).
  pose proof (gk_len _ _ _ _ Gb) as Hl. pose proof (dinode_off_range (i_inum i)) as Hr.
  set (e := splice (default [] (V !! blk)) (Z.to_nat (dinode_off (i_inum i))) (dinode_bytes (inode_disk i'))).
  assert (V' = <[blk := e]> V) as -> by done.
  assert (length e = Z.to_nat BSIZE) as He.
  { unfold e. rewrite Hd. cbn [from_option id].
    assert (length (dinode_bytes (inode_disk i')) = 64%nat) as H64 by (apply length_dinode_bytes, Wf).
    rewrite length_splice; [done|]. rewrite H64, Hl. unfold BSIZE. lia. }
  destruct (blocks_outside start sb V i bl blk e B Gb Hna He) as [B' Hraw].
  split; [by apply layout_insert|]. split; [by apply blocks_size|]. split; [done|]. split; [by apply good_insert|].
  split; [intros b Hb; by eapply used_insert_good|]. split; [|intros n Hn; by rewrite lookup_insert_ne].
  pose proof (dinode_in_stored V sb i' _ (i_inum i) Hd Hl Wf) as E. by rewrite decide_True in E.
Qed.

Lemma covers_count bl bl' i e : covers bl bl' e -> Z.of_nat (length bl) = nblocks i -> 0 <= i_size i -> 0 <= e ->
  Z.of_nat (length bl') = nblocks (set_i_size (Z.max (i_size i) e) i).
Proof.
  intros [C1 C2] Hc Hs He. pose proof (nblocks_bounds i Hs) as Hn.
  pose proof (nblocks_bounds (set_i_size (Z.max (i_size i) e) i) ltac:(cbn; lia)) as Hn'. cbn [i_size set_i_size] in Hn'.
  unfold BSIZE in *. lia.
Qed.

(** The bytes written are those of the file. *)
Lemma written_bytes s V L ip i bl off data cost s1 V1 L1 U i1 bl1 r :
  open_file s V L ip i bl -> wrote_upto s V U ip i bl off data cost s1 V1 L1 i1 bl1 r -> 0 <= off <= i_size i ->
  take (Z.to_nat (Z.max (i_size i) (off + r))) (raw V1 bl1) =
  take (Z.to_nat off) (contents V i) ++ take (Z.to_nat r) data ++ drop (Z.to_nat (off + r)) (contents V i).
Proof.
  intros O W Ho. pose proof W as [Hr _ _ _ [C1 C2] Hraw _].
  pose proof (blocks_file _ _ _ _ _ (of_blocks _ _ _ _ _ _ O) (of_count _ _ _ _ _ _ O) ltac:(lia)) as [Fo Hcon].
  pose proof (nblocks_bounds i ltac:(lia)) as Hnb. rewrite <- (of_count _ _ _ _ _ _ O) in Hnb.
  pose proof (length_raw _ _ _ _ _ (of_blocks _ _ _ _ _ _ O)) as Hl.
  rewrite Hraw, Hcon. unfold padded. rewrite !Z2Nat.inj_max, !Z2Nat.inj_add by lia.
  apply contents_written; rewrite ?length_replicate, ?Hl; unfold BSIZE in *; nia.
Qed.

(** The inode is stored. *)
Lemma finish_write s V L ip i bl off data cost s1 V1 L1 i1 bl1 r M :
  open_file s V L ip i bl -> wrote_upto s V (quota M L i) ip i bl off data cost s1 V1 L1 i1 bl1 r ->
  0 <= off <= i_size i -> off + Z.of_nat (length data) <= MAXFILE * BSIZE ->
  Z.of_nat (size L) + Z.of_nat (size M) + 2 + cost < LOGBLOCKS ->
  exists s2 s3 V3 L3 i3, modi ip (fun i => if i_size i <? off + r then set_i_size (off + r) i else i) s1 = Done tt s2 /\
    iupdate ip s2 = Done tt s3 /\ appended s V L ip i bl off data (Z.of_nat (size M) + 2 + cost) s3 V3 L3 i3 bl1 r.
Proof.
  intros O W Ho Hmax Hc. pose proof W as [Hr (U1 & G1 & HU & HsU) I1 Gr [C1 C1'] Hraw Hfull].
  set (i3 := set_i_size (Z.max (i_size i) (off + r)) i1). set (blk := IBLOCK (i_inum i) sb) in *.
  assert (i1 = set_i_addrs (i_addrs i1) i) as Ei by apply Gr. assert (i_size i1 = i_size i) as Esz by (by rewrite Ei).
  assert (i_inum i3 = i_inum i) as Einum by (cbn; by rewrite Ei). assert (i_inum i1 = i_inum i) as Ei' by exact Einum.
  assert (MAXFILE * BSIZE < 2 ^ 32) as Hmf by (vm_compute; done).
  pose proof (blocks_file _ _ _ _ _ (of_blocks _ _ _ _ _ _ O) (of_count _ _ _ _ _ _ O) ltac:(lia)) as [Fo Hcon].
  pose proof (fo_size _ _ _ Fo) as Hsz. pose proof (nblocks_bounds i ltac:(lia)) as Hnb. rewrite <- (of_count _ _ _ _ _ _ O) in Hnb.
  pose proof (gw_blocks _ _ _ _ _ _ _ G1) as B1. pose proof (blocks_wf V1 i1 bl1 i (Z.max (i_size i) (off + r)) B1 (of_wf _ _ _ _ _ _ O) Ei ltac:(lia)) as Wf.
  destruct (grown_other _ _ _ _ _ _ blk Gr (of_home _ _ _ _ _ _ O) (of_apart _ _ _ _ _ _ O)) as (Gb & Hna & _).
  assert (V1 !! blk = Some (bdata V1 blk)) as Hd by (destruct (gk_write _ _ _ _ Gb) as (_ & _ & [d Hd]); unfold bdata; by rewrite Hd).
  pose proof (quota_size M L i) as Hq. assert (0 <= need i1) by (unfold need; case_match; lia). pose proof (growing_size _ _ _ _ _ _ _ G1) as HsL.
  destruct (modi_view s1 V1 L1 ip i1 (fun i => if i_size i <? off + r then set_i_size (off + r) i else i)
    (gw_view _ _ _ _ _ _ _ G1) (of_ip _ _ _ _ _ _ O) (gw_itab _ _ _ _ _ _ _ G1)) as (s2 & R2 & V2 & I2).
  replace (if i_size i1 <? off + r then set_i_size (off + r) i1 else i1) with i3 in I2.
  2: { unfold i3. rewrite Esz. destruct (Z.ltb_spec (i_size i) (off + r)); [by rewrite Z.max_r by lia|].
       rewrite Z.max_l, <- Esz by lia. by destruct i1. }
  assert (itab s2 ip = Some i3) as Hi2 by (eapply installed_itab; [apply G1|done]).
  assert (x_sb s2 = sb) as Esb by (rewrite (proj1 I2); apply G1).
  destruct (iupdate_spec s2 V1 start L1 ip i3 (bdata V1 blk) V2) as (s3 & R3 & K3 & V3);
    [lia|apply O|done|apply (hb_dev _ _ _ _ _ B1)|rewrite Esb, Einum; apply Gb|by rewrite Esb, Einum|].
  rewrite Esb in V3. assert (installed s s3 ip i3) as I3 by (eapply installed_then; [by eapply installed_trans|done]).
  exists s2, s3, (stored V1 sb i3), ({[IBLOCK (i_inum i3) sb]} ∪ L1), i3. split; [exact R2|]. split; [exact R3|].
  destruct (stored_file V1 i1 bl1 (Z.max (i_size i) (off + r)) (gw_layout _ _ _ _ _ _ _ G1) B1 Wf) as (Ly3 & B3 & Hr3 & Gb3 & Hu3 & Hst & Hfr);
    rewrite ?Ei' in *; try done.
  assert (Z.of_nat (length bl1) = nblocks i3) as Hcount
    by exact (covers_count bl bl1 i _ (conj C1 C1') (of_count _ _ _ _ _ _ O) ltac:(lia) ltac:(lia)).
  destruct (blocks_file _ _ _ _ _ B3 Hcount) as [_ Hcon3]; [unfold i3; cbn [i_size set_i_size]; lia|].
  rewrite Einum in *. split; try done.
  - intros Hlt b Hb. rewrite Hu3 by done. by apply Hfull.
  - split; try done; try apply O; rewrite ?Einum; try done.
    + rewrite (proj1 I3). apply O.
    + eapply installed_itab; [apply O|done].
    + rewrite Hu3; [apply G1|]. pose proof (of_size _ _ _ _ _ _ O). lia.
  - assert (blk ∈ U1) by (apply HU; unfold quota; set_solver). pose proof (gw_log _ _ _ _ _ _ _ G1).
    pose proof (subseteq_size ({[blk]} ∪ L1) U1 ltac:(set_solver)). fold blk. lia.
  - unfold i3. by rewrite Ei.
  - unfold i3. rewrite Hcon3, Hr3. by eapply written_bytes.
  - intros n H1 H2 H3 H4. rewrite Hfr by done. by apply (gr_frame _ _ _ _ _ _ _ _ Gr).
Qed.

Lemma writei_grow s V L ip i bl off data (M : gset Z) :
  open_file s V L ip i bl -> (forall b, 0 <= b < sb_size sb -> BBLOCK b sb ∈ M) ->
  Z.of_nat (size L) + Z.of_nat (size M) + Z.of_nat (length data) / BSIZE + 6 <= LOGBLOCKS ->
  0 <= off <= i_size i -> off + Z.of_nat (length data) <= MAXFILE * BSIZE ->
  exists s' V' L' i' bl' r, writei ip data off s = Done r s' /\
    appended s V L ip i bl off data (Z.of_nat (size M) + Z.of_nat (length data) / BSIZE + 4) s' V' L' i' bl' r.
Proof.
  intros O HM Hc Ho Hmax. set (n := Z.of_nat (length data)) in *. pose proof (open_growing _ _ _ _ _ _ M O HM) as G.
  pose proof (Z.div_pos n BSIZE ltac:(lia) ltac:(unfold BSIZE; lia)) as Hdp. pose proof (quota_size M L i) as Hq.
  pose proof (nblocks_bounds i ltac:(lia)) as Hnb. rewrite <- (of_count _ _ _ _ _ _ O) in Hnb.
  assert (MAXFILE * BSIZE = 268 * BSIZE) as Emf by reflexivity. assert (268 * BSIZE < 2 ^ 32) as Hmf by (vm_compute; done).
  destruct (writei_loop_grow (Z.to_nat (n / BSIZE + 2)) s V L (quota M L i) ip i bl off data 0 G (of_ip _ _ _ _ _ _ O)) as
    (s1 & V1 & L1 & i1 & bl1 & r & R1 & W1); [lia|lia|lia| |].
  { right. fold n. pose proof (Z.mod_pos_bound off BSIZE ltac:(unfold BSIZE; lia)).
    pose proof (Z.div_mod n BSIZE ltac:(unfold BSIZE; lia)). pose proof (Z.mod_pos_bound n BSIZE ltac:(unfold BSIZE; lia)).
    rewrite Z2Nat.id by lia. unfold BSIZE in *. lia. }
  rewrite Z2Nat.id in W1 by lia.
  destruct (finish_write _ _ _ _ _ _ _ _ _ _ _ _ _ _ _ M O W1 Ho Hmax ltac:(lia)) as (s2 & s3 & V3 & L3 & i3 & R2 & R3 & Ap).
  exists s3, V3, L3, i3, bl1, r. split.
  - unfold writei. fold n. kstep by (apply geti_eq; apply O). rewrite u32_small by lia.
    replace ((i_size i <? off) || (off + n <? off)) with false by lia. replace (MAXFILE * BSIZE <? off + n) with false by lia.
    kstep by exact R1. cbn match. kstep by exact R2. by kstep by exact R3.
  - replace (Z.of_nat (size M) + n / BSIZE + 4) with (Z.of_nat (size M) + 2 + (n / BSIZE + 2)) by lia. exact Ap.
Qed.

(** An offset past the end or an end past the largest file changes nothing. *)
Lemma writei_refuse s V L ip i bl off data :
  open_file s V L ip i bl -> 0 <= off < 2 ^ 32 -> Z.of_nat (length data) < 2 ^ 32 ->
  i_size i < off \/ MAXFILE * BSIZE < off + Z.of_nat (length data) -> writei ip data off s = Done (-1) s.
Proof.
  intros O Ho Hn Hbad. unfold writei. kstep by (apply geti_eq; apply O). set (n := Z.of_nat (length data)) in *.
  destruct (Z.ltb_spec (i_size i) off) as [Hlt|Hge]; [done|]. cbn [orb].
  destruct (Z.lt_ge_cases (off + n) (2 ^ 32)) as [Hs|Hs].
  - rewrite u32_small by lia. replace (off + n <? off) with false by lia. replace (MAXFILE * BSIZE <? off + n) with true by lia. done.
  - replace (u32 (off + n)) with (off + n - 2 ^ 32); [by replace (off + n - 2 ^ 32 <? off) with true by lia|].
    unfold u32, wrap. symmetry. rewrite <- (Z.mod_add (off + n) (-1)) by lia. apply Z.mod_small. lia.
Qed.
End grow.

(** ** Properties *)

(** C11: Writing a file: for an open file whose blocks are allocated and an offset up to
    its end, [writei] writes as many bytes as there is room for on the disk, all of
    them unless the disk is full, through direct and indirect blocks that it
    allocates as it needs them. The file then has exactly the old bytes before and
    after the range and the new ones in it, its size and its blocks follow, its inode
    is stored, the invariant of open files holds again, no block of another file
    is changed, and at most as many blocks join the log as the data, the bitmap, the
    indirect block and the inode need: for the chunks of [filewrite] with one bitmap
    block this is within the reservation of [begin_op]. A [readi] of the range
    returns what was written. Any other offset is refused with -1. *)
Theorem writei_correct `{Self} start sb s V L ip i bl off data (M : gset Z) :
  open_file start sb s V L ip i bl -> (forall b, 0 <= b < sb_size sb -> BBLOCK b sb ∈ M) ->
  Z.of_nat (size L) + Z.of_nat (size M) + Z.of_nat (length data) / BSIZE + 6 <= LOGBLOCKS ->
  0 <= off < 2 ^ 32 -> Z.of_nat (length data) < 2 ^ 32 ->
  if (off <=? i_size i) && (off + Z.of_nat (length data) <=? MAXFILE * BSIZE) then
    exists s' V' L' i' bl' r, writei ip data off s = Done r s' /\
      appended start sb s V L ip i bl off data (Z.of_nat (size M) + Z.of_nat (length data) / BSIZE + 4) s' V' L' i' bl' r /\
      exists s'', readi ip off r s' = Done (take (Z.to_nat r) data) s''
  else writei ip data off s = Done (-1) s.
Proof.
  intros O HM Hc Ho Hn. destruct ((off <=? i_size i) && (off + Z.of_nat (length data) <=? MAXFILE * BSIZE)) eqn:E.
  2: { eapply writei_refuse; [done..|]. lia. }
  assert (off <= i_size i /\ off + Z.of_nat (length data) <= MAXFILE * BSIZE) as [H1 H2] by lia.
  destruct (writei_grow start sb s V L ip i bl off data M O HM Hc ltac:(lia) H2) as (s' & V' & L' & i' & bl' & r & R & Ap).
  exists s', V', L', i', bl', r. split; [done|]. split; [done|]. pose proof Ap as [Hr _ O' _ HL Hi Hby _ _].
  pose proof (nblocks_bounds i ltac:(lia)) as Hnb.
  assert (0 <= i_size i') as Hsz by (rewrite Hi; cbn [i_size set_i_size]; lia).
  destruct (blocks_file _ _ _ _ _ (of_blocks _ _ _ _ _ _ _ _ O') (of_count _ _ _ _ _ _ _ _ O') Hsz) as [Fo' _].
  destruct (blocks_file _ _ _ _ _ (of_blocks _ _ _ _ _ _ _ _ O) (of_count _ _ _ _ _ _ _ _ O) ltac:(lia)) as [Fo _].
  pose proof (length_contents V start i Fo) as Hlc. assert (MAXFILE * BSIZE < 2 ^ 32) by (vm_compute; done).
  destruct (readi_spec s' V' start L' ip i' off r (of_view _ _ _ _ _ _ _ _ O') ltac:(loglia) (of_ip _ _ _ _ _ _ _ _ O')
    (of_itab _ _ _ _ _ _ _ _ O') Fo') as (s'' & R' & _); [lia..|].
  exists s''. rewrite R', Hby. f_equal. rewrite drop_app_ge by (rewrite length_take; lia).
  rewrite length_take, Nat.min_l by lia. rewrite Nat.sub_diag, drop_0. rewrite take_app_le by (rewrite length_take; lia).
  by rewrite take_take, Nat.min_id.
Qed.

(** A file of 1100 bytes in blocks 40 and 41 of the example disk. *)
Definition grow_inode : inode := mkInode ROOTDEV 5 1 (Some 1) true T_FILE 0 0 1 1100 ([40; 41] ++ replicate 11 0).

Lemma demo_good V n : (forall x, ~ in_log 2 x -> V !! x = ({[36 := demo_bitmap]} ∪ demo_disk) !! x) ->
  n = 33 \/ n = 40 \/ n = 41 -> good_block 2 demo_sb V n.
Proof.
  intros HV Hn.
  assert (forall b, 0 <= b < 80 -> BBLOCK b demo_sb = 36) as HB.
  { intros b Hb. unfold BBLOCK. rewrite Z.div_small by (unfold BPB, BSIZE; lia). done. }
  assert (V !! n = Some zero_block) as Hz.
  { rewrite HV by loglia. rewrite lookup_union_r by (apply lookup_singleton_ne; lia). apply demo_disk_block. lia. }
  split; cbn [sb_size demo_sb].
  - lia.
  - lia.
  - unfold used. rewrite HB by lia. rewrite HV by loglia. rewrite (lookup_union_Some_l _ _ _ demo_bitmap) by apply lookup_singleton_eq.
    by destruct Hn as [->|[->| ->]].
  - split; [lia|]. split; [loglia|by eexists].
  - unfold bdata. by rewrite Hz.
  - intros b Hb. rewrite HB by done. lia.
Qed.

Lemma grow_open : exists s V, open_file 2 demo_sb s V {[36]} 1 grow_inode [40; 41].
Proof.
  destruct (demo_view {[36 := demo_bitmap]} demo_sb [grow_inode]) as (s & V & Hv & HV & Hsb & Hit).
  { rewrite map_size_singleton. lia. }
  { intros n d [<- _]%lookup_singleton_Some. lia. }
  rewrite dom_singleton_L in Hv. exists s, V. split; try done.
  - unfold itab. by rewrite Hit.
  - by apply demo_layout.
  - unfold used. change (BBLOCK 0 demo_sb) with 36. rewrite HV by loglia.
    by rewrite (lookup_union_Some_l _ _ _ demo_bitmap) by apply lookup_singleton_eq.
  - split; try done.
    + cbn. lia.
    + intros k Hk. do 12 (destruct k as [|k]; [reflexivity|]). lia.
    + left. split; [done|cbn; lia].
    + intros b Hb. apply demo_good; [done|]. set_solver.
    + apply NoDup_cons. split; [set_solver|]. apply NoDup_singleton.
  - split; cbn; try (unfold short; lia); try done. intros a Ha.
    repeat (apply elem_of_cons in Ha as [->|Ha]; [lia|]). by apply elem_of_nil in Ha.
  - change (IBLOCK (i_inum grow_inode) demo_sb) with 33. apply demo_good; [done|by left].
  - change (IBLOCK (i_inum grow_inode) demo_sb) with 33. intros [Hin|[Hin _]]; [set_solver|done].
Qed.

Lemma writei_correct_witness : exists s s' s'' r,
  @writei demo_self 1 (replicate 1500 7) 1100 s = Done r s' /\ 0 <= r <= 1500 /\
  @readi demo_self 1 1100 r s' = Done (take (Z.to_nat r) (replicate 1500 7)) s''.
Proof.
  destruct grow_open as (s & V & O).
  destruct (@writei_correct demo_self 2 demo_sb s V {[36]} 1 grow_inode [40; 41] 1100 (replicate 1500 7) {[36]} O) as
    (s' & V' & L' & i' & bl' & r & R & Ap & s'' & R').
  - intros b Hb. cbn [sb_size demo_sb] in Hb. unfold BBLOCK. rewrite Z.div_small by (unfold BPB, BSIZE; lia). set_solver.
  - rewrite !size_singleton, length_replicate. vm_compute. done.
  - lia.
  - rewrite length_replicate. lia.
  - exists s, s', s'', r. split; [done|]. split; [|done]. pose proof (ap_range _ _ _ _ _ _ _ _ _ _ _ _ _ _ _ _ _ Ap) as Hr.
    rewrite length_replicate in Hr. lia.
Defined.
