(* ===== verification/DirSpec.v ===== *)
(** * Directories

    [dirlookup] and [dirlink] of kernel/fs.c against a directory as a list of
    entries of 16 bytes. *)

From S2P Require Import Prelude Riscv Kernel Mem Str Bio Log Fs BioSpec LogSpec CrashSpec TxnSpec LogTheorems BlockSpec BallocSpec InodeSpec ContentSpec.

(** ** Definitions *)

Definition DE : nat := Z.to_nat sizeof_dirent.

(** The entries of a directory, by its contents. *)
Definition dents (c : list Z) : list (list Z) := (fun k => take DE (drop (DE * k) c)) <$> seq 0 (length c / DE).

(** An entry in use with the given name, and an empty one. *)
Definition named (name de : list Z) : Prop := de_inum de <> 0 /\ namecmp name (de_name de) = 0.
#[export] Instance named_dec name de : Decision (named name de).
Proof. unfold named. apply _. Defined.
Definition vacant (de : list Z) : Prop := de_inum de = 0.
#[export] Instance vacant_dec de : Decision (vacant de).
Proof. unfold vacant. apply _. Defined.

(** What [dirlookup] does once it has searched. *)
Definition found `{Self} (r : option (nat * list Z)) (k : nat) : M fsstate (Z * Z) :=
  match r with
  | Some (j, de) => let* ip := iget ROOTDEV (de_inum de) in ret (ip, sizeof_dirent * Z.of_nat (k + j))
  | None => ret (0, 0)
  end.

(** ** Entries *)

Lemma dents_lookup c k : (k < length c / DE)%nat -> dents c !! k = Some (take DE (drop (DE * k) c)).
Proof. intros Hk. unfold dents. rewrite list_lookup_fmap, lookup_seq_lt by done. done. Qed.
Lemma length_dents c : length (dents c) = (length c / DE)%nat.
Proof. unfold dents. by rewrite length_fmap, length_seq. Qed.

(** Writing one entry. *)
Lemma dents_splice c k bs : (k < length c / DE)%nat -> length bs = DE -> dents (splice c (DE * k) bs) = <[k := bs]> (dents c).
Proof.
  intros Hk Hb. change DE with 16%nat in *. pose proof (Nat.div_mod (length c) 16 ltac:(lia)) as Hd.
  assert (16 * k + length bs <= length c)%nat as Hl by (pose proof (Nat.mod_upper_bound (length c) 16); lia).
  apply list_eq. intros j. destruct (decide (j < length c / 16)%nat) as [Hj|Hj].
  - rewrite dents_lookup by (change DE with 16%nat; rewrite length_splice by done; done). change DE with 16%nat.
    destruct (decide (j = k)) as [->|Hn].
    + rewrite list_lookup_insert_eq by (rewrite length_dents; done). f_equal. rewrite <- Hb at 1. by apply take_drop_splice_same.
    + rewrite list_lookup_insert_ne, dents_lookup by done. change DE with 16%nat. f_equal. apply take_drop_splice_other; lia.
  - rewrite !lookup_ge_None_2; [done|rewrite length_insert, length_dents; change DE with 16%nat; lia|].
    rewrite length_dents. change DE with 16%nat. rewrite length_splice by done. lia.
Qed.

Lemma bytes_ok_strncpy n : forall t, bytes_ok t -> bytes_ok (strncpy t n).
Proof.
  induction n as [|n IH]; intros t Ht; [constructor|]. cbn [strncpy]. unfold bytes_ok in *.
  case_match; [apply Forall_replicate; lia|]. destruct t as [|b t]; [done|]. apply Forall_cons in Ht as [Hb Ht].
  constructor; [done|]. by apply IH.
Qed.

Lemma dirent_length inum name : length (dirent_bytes inum name) = DE.
Proof. unfold dirent_bytes. rewrite length_app, length_le_split, length_strncpy. reflexivity. Qed.

(** The entry that [dirlink] writes is in use and has the name. *)
Lemma dirent_named inum name : bytes_ok name -> 0 < inum < 2 ^ 16 -> de_inum (dirent_bytes inum name) = inum /\ named name (dirent_bytes inum name).
Proof.
  intros Hn Hi. assert (de_inum (dirent_bytes inum name) = inum) as E.
  { unfold de_inum, dirent_bytes. rewrite ufield_here. apply Z.mod_small. change (256 ^ Z.of_nat 2) with (2 ^ 16). lia. }
  split; [done|]. split; [lia|]. unfold namecmp, de_name, dirent_bytes.
  rewrite drop_app_length', take_ge by (rewrite ?length_le_split, ?length_strncpy; done).
  apply strncmp_zero; [done|by apply bytes_ok_strncpy|]. by rewrite strncpy_cstr, take_take, Nat.min_id.
Qed.

(** ** Searching *)

Section dir.
Context `{Self}.
Variables (V : gmap Z (list Z)) (start dp : Z) (i : inode).
Hypothesis Hdp : 1 <= dp.
Hypothesis Hdir : i_type i = T_DIR.
Hypothesis Hsize : i_size i mod sizeof_dirent = 0.
Hypothesis Fo : file_ok V start i.
Notation c := (contents V i).
Notation n := (length c / DE)%nat.

Lemma dir_size : i_size i = 16 * Z.of_nat n.
Proof.
  pose proof (length_contents V start i Fo) as Hl. change sizeof_dirent with 16 in Hsize. change DE with 16%nat.
  rewrite Nat2Z.inj_div, Hl. change (Z.of_nat 16) with 16. Z.div_mod_to_equations. lia.
Qed.

Lemma dir_bound : 16 * Z.of_nat n + 16 < 2 ^ 32.
Proof. pose proof (fo_size _ _ _ Fo). rewrite <- dir_size. assert (MAXFILE * BSIZE + 16 < 2 ^ 32) by (vm_compute; done). lia. Qed.

(** Reading entry [k]. *)
Lemma read_ent s L k : view s V start L -> Z.of_nat (size L) < NBUF -> itab s dp = Some i -> (k < n)%nat ->
  exists de s', dents c !! k = Some de /\ length de = DE /\ readi dp (16 * Z.of_nat k) sizeof_dirent s = Done de s' /\
    view s' V start L /\ keeps s s'.
Proof.
  intros Hv Hl Hi Hk. pose proof dir_bound. pose proof dir_size as Hs. pose proof (length_contents V start i Fo) as Hlc.
  destruct (readi_spec s V start L dp i (16 * Z.of_nat k) sizeof_dirent) as (s' & R & Hv' & K); try done; try (change sizeof_dirent with 16; lia).
  eexists _, s'. split; [by apply dents_lookup|]. split; [|split; [|done]].
  - change DE with 16%nat in *. rewrite length_take, length_drop. lia.
  - rewrite R. do 3 f_equal. change DE with 16%nat. lia.
Qed.

Lemma dirlookup_loop_spec name L m : forall fuel k s, view s V start L -> Z.of_nat (size L) < NBUF -> itab s dp = Some i ->
  (k + m = n)%nat -> (m < fuel)%nat ->
  exists s', view s' V start L /\ keeps s s' /\
    dirlookup_loop fuel dp (16 * Z.of_nat k) name s = found (list_find (named name) (drop k (dents c))) k s'.
Proof.
  induction m as [|m IH]; intros fuel k s Hv Hl Hi Hk Hf; (destruct fuel as [|fuel]; [lia|]); cbn [dirlookup_loop];
    kstep by (by apply geti_eq); pose proof dir_size as Hs; pose proof dir_bound.
  - exists s. split; [done|]. split; [done|]. rewrite (proj2 (Z.ltb_ge _ _)) by lia. rewrite drop_ge by (rewrite length_dents; lia). done.
  - rewrite (proj2 (Z.ltb_lt _ _)) by lia. destruct (read_ent s L k) as (de & s1 & Hde & Hlen & R & Hv1 & K1); try done; [lia|].
    kstep by exact R. rewrite Hlen. change (Z.of_nat DE =? sizeof_dirent) with true. cbn [negb].
    assert (itab s1 dp = Some i) as Hi1 by (by rewrite (itab_keeps s)).
    destruct (IH fuel (S k) s1) as (s' & Hv' & K' & E); try done; [lia|lia|].
    assert (u32 (16 * Z.of_nat k + sizeof_dirent) = 16 * Z.of_nat (S k)) as Eo
      by (rewrite u32_small; change sizeof_dirent with 16; lia).
    rewrite (drop_S _ de) by done. cbn [list_find].
    assert (forall r, found (prod_map S id <$> r) k = found r (S k)) as Ef.
    { intros [[j x]|]; [|done]. unfold found, prod_map. cbn. by replace (k + S j)%nat with (S (k + j)) by lia. }
    destruct (Z.eqb_spec (de_inum de) 0) as [Ez|Ez].
    { rewrite decide_False by (intros [? _]; done). exists s'. rewrite Ef, Eo, E. split; [done|]. split; [by eapply keeps_trans|done]. }
    destruct (Z.eqb_spec (namecmp name (de_name de)) 0) as [En|En].
    + rewrite decide_True by done. exists s1. split; [done|]. split; [done|].
      cbn [found]. rewrite Nat.add_0_r, (fo_dev _ _ _ Fo). done.
    + rewrite decide_False by (intros [_ ?]; done). exists s'. rewrite Ef, Eo, E. split; [done|]. split; [by eapply keeps_trans|done].
Qed.

Lemma dirlookup_spec name s L : view s V start L -> Z.of_nat (size L) < NBUF -> itab s dp = Some i ->
  exists s', view s' V start L /\ keeps s s' /\
    dirlookup dp name s = found (list_find (named name) (dents c)) 0 s'.
Proof.
  intros Hv Hl Hi. unfold dirlookup. kstep by (by apply geti_eq). rewrite Hdir. cbn [Z.eqb negb].
  change (negb (T_DIR =? T_DIR)) with false. cbn iota.
  destruct (dirlookup_loop_spec name L n (Z.to_nat (i_size i / sizeof_dirent + 2)) 0 s) as (s' & Hv' & K & E); try done.
  { change sizeof_dirent with 16. rewrite dir_size. rewrite (Z.mul_comm 16), Z.div_mul by done. lia. }
  exists s'. split; [done|]. split; [done|]. by rewrite drop_0 in E.
Qed.

(** The empty entry that [dirlink] uses, or the end of the directory. *)
Definition slot_of (r : option (nat * list Z)) (k : nat) : Z :=
  match r with Some (j, _) => sizeof_dirent * Z.of_nat (k + j) | None => i_size i end.

Lemma dirlink_slot_spec L m : forall fuel k s, view s V start L -> Z.of_nat (size L) < NBUF -> itab s dp = Some i ->
  (k + m = n)%nat -> (m < fuel)%nat ->
  exists s', view s' V start L /\ keeps s s' /\
    dirlink_slot fuel dp (16 * Z.of_nat k) s = Done (slot_of (list_find vacant (drop k (dents c))) k) s'.
Proof.
  induction m as [|m IH]; intros fuel k s Hv Hl Hi Hk Hf; (destruct fuel as [|fuel]; [lia|]); cbn [dirlink_slot];
    kstep by (by apply geti_eq); pose proof dir_size as Hs.
  - exists s. split; [done|]. split; [done|]. rewrite (proj2 (Z.ltb_ge _ _)) by lia. rewrite drop_ge by (rewrite length_dents; lia).
    unfold ret, slot_of. cbn. f_equal. lia.
  - rewrite (proj2 (Z.ltb_lt _ _)) by lia. destruct (read_ent s L k) as (de & s1 & Hde & Hlen & R & Hv1 & K1); try done; [lia|].
    kstep by exact R. rewrite Hlen. change (Z.of_nat DE =? sizeof_dirent) with true. cbn [negb].
    assert (itab s1 dp = Some i) as Hi1 by (by rewrite (itab_keeps s)). rewrite (drop_S _ de) by done. cbn [list_find].
    destruct (Z.eqb_spec (de_inum de) 0) as [Ez|Ez].
    { rewrite decide_True by done. exists s1. split; [done|]. split; [done|]. cbn [slot_of]. by rewrite Nat.add_0_r. }
    rewrite decide_False by done. destruct (IH fuel (S k) s1) as (s' & Hv' & K' & E); try done; [lia|lia|].
    exists s'. split; [done|]. split; [by eapply keeps_trans|].
    replace (16 * Z.of_nat k + sizeof_dirent) with (16 * Z.of_nat (S k)) by (change sizeof_dirent with 16; lia). rewrite E. f_equal.
    destruct (list_find vacant (drop (S k) (dents c))) as [[j x]|]; [|done]. cbn. do 2 f_equal. lia.
Qed.
End dir.

(** Linking a new name into the first empty entry. *)
Lemma dirlink_spec `{Self} s V start L dp i d name inum k e :
  view s V start L -> Z.of_nat (size L) + 2 < LOGBLOCKS -> 1 <= dp -> itab s dp = Some i -> file_ok V start i ->
  i_type i = T_DIR -> i_size i mod sizeof_dirent = 0 ->
  writable V start (IBLOCK (i_inum i) (x_sb s)) -> V !! IBLOCK (i_inum i) (x_sb s) = Some d ->
  outside V i (IBLOCK (i_inum i) (x_sb s)) ->
  list_find (named name) (dents (contents V i)) = None -> list_find vacant (dents (contents V i)) = Some (k, e) ->
  exists s' V' L', dirlink dp name inum s = Done 0 s' /\ view s' V' start L' /\ keeps s s' /\ file_ok V' start i /\
    Z.of_nat (size L') <= Z.of_nat (size L) + 3 /\
    dents (contents V' i) = <[k := dirent_bytes inum name]> (dents (contents V i)).
Proof.
  intros Hv Hl Hp Hi Fo Hd Hm Hw Hb Ho Hn He.
  destruct (dirlookup_spec V start dp i Hp Hd Hm Fo name s L Hv) as (s1 & Hv1 & K1 & E1); [loglia|done|].
  assert (itab s1 dp = Some i) as Hi1 by (by rewrite (itab_keeps s)). rewrite Hn in E1.
  destruct (dirlink_slot_spec V start dp i Hp Hm Fo L (length (contents V i) / DE) (Z.to_nat (i_size i / sizeof_dirent + 2)) 0 s1 Hv1)
    as (s2 & Hv2 & K2 & E2); [loglia|done|done| |].
  { rewrite (dir_size V start i Hm Fo) at 1. change sizeof_dirent with 16. rewrite (Z.mul_comm 16), Z.div_mul by done. lia. }
  pose proof (keeps_trans _ _ _ K1 K2) as K. pose proof K as (Ksb & _ & _).
  assert (itab s2 dp = Some i) as Hi2 by (by rewrite (itab_keeps s)).
  pose proof (list_find_Some vacant (dents (contents V i)) k e) as [Hf _]. destruct (Hf He) as (Hk%lookup_lt_Some & _ & _).
  rewrite length_dents in Hk. pose proof (dir_size V start i Hm Fo) as Hs. rewrite drop_0, He in E2. cbn [slot_of] in E2.
  assert (Z.of_nat (length (dirent_bytes inum name)) = 16) as Hlen by (by rewrite dirent_length).
  destruct (writei_spec s2 V start L dp i (sizeof_dirent * Z.of_nat k) (dirent_bytes inum name) d Hv2)
    as (s3 & V' & V1 & L' & L1 & R & Hv3 & K3 & W & _ & -> & Fo' & C'); rewrite ?Ksb, ?Hlen; try done; try (change sizeof_dirent with 16; lia).
  { change (16 / BSIZE) with 0. lia. }
  destruct W as (_ & C1 & _ & _ & _ & _ & Z1).
  exists s3, V', ({[IBLOCK (i_inum i) (x_sb s2)]} ∪ L1). split; [|split; [done|split; [by eapply keeps_trans|split; [done|split]]]].
  - unfold dirlink. kstep by exact E1. cbn [Z.eqb negb]. kstep by (by apply geti_eq).
    kstep by exact E2. kstep by exact R. by rewrite Hlen.
  - rewrite Hlen in Z1. change (16 / BSIZE) with 0 in Z1. pose proof (size_add (IBLOCK (i_inum i) (x_sb s2)) L1). lia.
  - rewrite C', C1, <- dents_splice by (try done; by rewrite dirent_length). f_equal. f_equal. change DE with 16%nat. change sizeof_dirent with 16. lia.
Qed.

(** ** Theorems *)

(** C37: [dirlookup] returns the first entry of the directory that is in use and has
    the name, as a reference to its inode together with the entry's offset, or
    no inode exactly when there is none; it reads the directory and changes
    nothing else. *)
Theorem dirlookup_correct `{Self} s V start L dp i name :
  view s V start L -> Z.of_nat (size L) < NBUF -> 1 <= dp -> itab s dp = Some i -> file_ok V start i ->
  i_type i = T_DIR -> i_size i mod sizeof_dirent = 0 ->
  exists s', view s' V start L /\ keeps s s' /\
    dirlookup dp name s =
    match list_find (named name) (dents (contents V i)) with
    | Some (k, de) => (let* ip := iget ROOTDEV (de_inum de) in ret (ip, sizeof_dirent * Z.of_nat k)) s'
    | None => Done (0, 0) s'
    end.
Proof.
  intros Hv Hl Hp Hi Fo Hd Hm. destruct (dirlookup_spec V start dp i Hp Hd Hm Fo name s L Hv Hl Hi) as (s' & Hv' & K & E).
  exists s'. split; [done|]. split; [done|]. rewrite E. by destruct (list_find _ _) as [[k de]|].
Qed.

(** C38: A name that [dirlink] adds is found: when the directory has no entry of
    that name and has an empty one, [dirlink] fills the first empty entry and no
    other, and [dirlookup] of the name then gives that entry and its inode. *)
Theorem dirlink_dirlookup `{Self} s V start L dp i d name inum k e :
  view s V start L -> Z.of_nat (size L) + 3 < LOGBLOCKS -> 1 <= dp -> itab s dp = Some i -> file_ok V start i ->
  i_type i = T_DIR -> i_size i mod sizeof_dirent = 0 ->
  writable V start (IBLOCK (i_inum i) (x_sb s)) -> V !! IBLOCK (i_inum i) (x_sb s) = Some d ->
  outside V i (IBLOCK (i_inum i) (x_sb s)) -> bytes_ok name -> 0 < inum < 2 ^ 16 ->
  list_find (named name) (dents (contents V i)) = None -> list_find vacant (dents (contents V i)) = Some (k, e) ->
  exists s' V' L', dirlink dp name inum s = Done 0 s' /\ view s' V' start L' /\ keeps s s' /\
    dents (contents V' i) = <[k := dirent_bytes inum name]> (dents (contents V i)) /\
    exists s'', view s'' V' start L' /\
      dirlookup dp name s' = (let* ip := iget ROOTDEV inum in ret (ip, sizeof_dirent * Z.of_nat k)) s''.
Proof.
  intros Hv Hl Hp Hi Fo Hd Hm Hw Hb Ho Hok Hin Hn He.
  destruct (dirlink_spec s V start L dp i d name inum k e) as (s' & V' & L' & E & Hv' & K & Fo' & Hs' & D'); try done; [lia|].
  exists s', V', L'. split; [done|]. split; [done|]. split; [done|]. split; [done|].
  destruct (dirlookup_spec V' start dp i Hp Hd Hm Fo' name s' L' Hv') as (s'' & Hv'' & _ & E''); [loglia|by rewrite (itab_keeps s)|].
  exists s''. split; [done|]. rewrite E'', D'. destruct (dirent_named inum name Hok Hin) as [Ei Hnm].
  destruct (proj1 (list_find_Some _ _ _ _) He) as (Hk%lookup_lt_Some & _ & _).
  assert (list_find (named name) (<[k := dirent_bytes inum name]> (dents (contents V i))) = Some (k, dirent_bytes inum name)) as ->.
  { apply list_find_Some. split; [by apply list_lookup_insert_eq|]. split; [done|].
    intros j y Hy Hj. rewrite list_lookup_insert_ne in Hy by lia.
    eapply (Forall_lookup_1 _ _ _ _ (proj1 (list_find_None _ _) Hn)); exact Hy. }
  unfold found. by rewrite Ei.
Qed.

(** ** Examples *)

(** A directory of one block with the entries [.] and [..]. *)
Definition demo_dir_block : list Z := dirent_bytes 5 [46] ++ dirent_bytes 1 [46; 46] ++ replicate 992 0.
Definition demo_dir : inode := mkInode ROOTDEV 5 1 None true T_DIR 0 0 1 1024 (50 :: replicate 12 0).

Lemma demo_dir_view : exists s V, view s V 2 {[50]} /\ x_sb s = demo_sb /\ itab s 1 = Some demo_dir /\
  file_ok V 2 demo_dir /\ contents V demo_dir = demo_dir_block /\ V !! 33 = Some zero_block /\ (forall bn, 0 <= bn < 1 -> file_addr V demo_dir bn = 50).
Proof.
  destruct (demo_view {[50 := demo_dir_block]} demo_sb [demo_dir]) as (s & V & Hv & HV & Hsb & Hit).
  { rewrite map_size_singleton. lia. } { intros n d Hn. apply lookup_singleton_Some in Hn. lia. }
  rewrite dom_singleton_L in Hv. exists s, V.
  assert (V !! 50 = Some demo_dir_block) as H50 by (rewrite HV by loglia; apply lookup_union_Some_l, lookup_singleton_eq).
  assert (nblocks demo_dir = 1) as Hn by reflexivity.
  assert (forall bn, 0 <= bn < 1 -> file_addr V demo_dir bn = 50) as Ha by (intros bn Hb; assert (bn = 0) as -> by lia; reflexivity).
  assert (file_block V demo_dir 0 = demo_dir_block) as Hb by (unfold file_block; rewrite Ha by lia; by rewrite H50).
  split_and!; try done.
  - unfold itab. by rewrite Hit.
  - split; rewrite ?Hn.
    + reflexivity.
    + split; [cbn; lia|vm_compute; done].
    + intros bn Hbn. rewrite Ha by done. lia.
    + intros bn Hbn. assert (bn = 0) as -> by lia. rewrite Hb, Ha by lia. split; [|reflexivity].
      split; [lia|]. split; [loglia|by eexists].
    + intros. lia.
    + unfold NDIRECT. lia.
  - unfold contents, file_blocks. rewrite Hn. change (seqZ 0 1) with [0]. cbn [fmap list_fmap]. rewrite Hb. reflexivity.
  - rewrite HV by loglia. rewrite lookup_union_r by (by rewrite lookup_singleton_ne). apply demo_disk_block. lia.
Qed.

(** The name [a] is not there; [..] is the second entry. *)
Lemma dirlookup_correct_witness : exists s s', @dirlookup demo_self 1 [97] s = Done (0, 0) s'.
Proof.
  destruct demo_dir_view as (s & V & Hv & _ & Hi & Fo & Hc & _).
  destruct (@dirlookup_correct demo_self s V 2 {[50]} 1 demo_dir [97] Hv) as (s' & _ & _ & E); try done.
  exists s, s'. rewrite Hc in E. vm_compute list_find in E. exact E.
Defined.

Lemma dirlink_dirlookup_witness : exists s s' s'',
  @dirlink demo_self 1 [97] 7 s = Done 0 s' /\
  @dirlookup demo_self 1 [97] s' = (let* ip := @iget ROOTDEV 7 in ret (ip, 32)) s''.
Proof.
  destruct demo_dir_view as (s & V & Hv & Hsb & Hi & Fo & Hc & Hz & Ha).
  assert (IBLOCK 5 (x_sb s) = 33) as HB by (rewrite Hsb; reflexivity).
  destruct (@dirlink_dirlookup demo_self s V 2 {[50]} 1 demo_dir zero_block [97] 7 2 (replicate 16 0) Hv)
    as (s' & V' & L' & E & _ & _ & _ & s'' & _ & E''); cbn [i_inum demo_dir]; rewrite ?HB, ?Hc; try done.
  - split; [lia|]. split; [loglia|by eexists].
  - split; [|done]. intros bn Hbn. change (nblocks demo_dir) with 1 in Hbn. rewrite Ha by done. lia.
  - constructor; [lia|constructor].
  - exists s, s', s''. split; [exact E|exact E''].
Defined.
