(* ===== verification/Mkfs.v ===== *)
(** * The initial disk image

    mkfs/mkfs.c, the host program that builds the file system the kernel boots
    from: the super block, the inodes of the root directory and of each file,
    their blocks and the bitmap. *)

From S2P Require Import Prelude Riscv Kernel Mem Str Bio Log Fs BioSpec LogSpec CrashSpec TxnSpec LogTheorems BlockSpec BallocSpec InodeSpec ContentSpec DirSpec.

(** ** Definitions *)

Definition NINODES : Z := 200.
Definition FSSIZE : Z := 2000.
Definition nbitmap : Z := FSSIZE / BPB + 1.
Definition ninodeblocks : Z := NINODES / IPB + 1.
Definition nlog : Z := LOGBLOCKS + 1.
Definition nmeta : Z := 2 + nlog + ninodeblocks + nbitmap.

(** The bytes of a number in the order of the target, seen by a host with the
    same order. *)
Definition xshort (x : Z) : Z := le_combine [u8 x; u8 (Z.shiftr x 8)].
Definition xint (x : Z) : Z := le_combine [u8 x; u8 (Z.shiftr x 8); u8 (Z.shiftr x 16); u8 (Z.shiftr x 24)].

Definition sb : superblock :=
  mkSb FSMAGIC (xint FSSIZE) (xint (FSSIZE - nmeta)) (xint NINODES) (xint nlog) (xint 2) (xint (2 + nlog))
    (xint (2 + nlog + ninodeblocks)).
Definition superblock_bytes (b : superblock) : list Z :=
  le_split 4 (sb_magic b) ++ le_split 4 (sb_size b) ++ le_split 4 (sb_nblocks b) ++ le_split 4 (sb_ninodes b) ++
  le_split 4 (sb_nlog b) ++ le_split 4 (sb_logstart b) ++ le_split 4 (sb_inodestart b) ++ le_split 4 (sb_bmapstart b).
Definition zeroes : list Z := replicate (Z.to_nat BSIZE) 0.

(** The sectors of the image file, [freeinode] and [freeblock]. *)
Record image := mkImage { g_disk : gmap Z (list Z); g_freeinode : Z; g_freeblock : Z }.
Definition set_disk (d : gmap Z (list Z)) (s : image) : image := mkImage d (g_freeinode s) (g_freeblock s).
Definition set_freeinode (n : Z) (s : image) : image := mkImage (g_disk s) n (g_freeblock s).
Definition set_freeblock (n : Z) (s : image) : image := mkImage (g_disk s) (g_freeinode s) n.

(** The sector at the offset [sec * BSIZE], an unsigned int. *)
Definition sector (sec : Z) : Z := u32 (sec * BSIZE) / BSIZE.
Definition wsect (sec : Z) (buf : list Z) : M image unit :=
  modify (fun s => set_disk (<[sector sec := buf]> (g_disk s)) s).
Definition rsect (sec : Z) : M image (list Z) := fun s =>
  match g_disk s !! sector sec with Some d => Done d s | None => Panic "read" end.

Definition winode (inum : Z) (ip : dinode) : M image unit :=
  let bn := IBLOCK inum sb in
  let* buf := rsect bn in
  wsect bn (splice buf (Z.to_nat (dinode_off inum)) (dinode_bytes ip)).

Definition rinode (inum : Z) : M image dinode :=
  let* buf := rsect (IBLOCK inum sb) in
  ret (dinode_at buf (dinode_off inum)).

Definition ialloc (type : Z) : M image Z :=
  let* s := get in
  let inum := g_freeinode s in
  modify (set_freeinode (u32 (inum + 1))) ;;
  winode inum (mkDinode (xshort type) 0 0 (xshort 1) (xint 0) (replicate 13 0)) ;;
  ret inum.

Definition assert {S} (b : bool) : M S unit := if b then ret tt else panic "assert".

(** The bits of the blocks below [used]. *)
Fixpoint mark (n : nat) (buf : list Z) : list Z :=
  match n with O => buf | S n => bitmap_set (mark n buf) (Z.of_nat n) end.
Definition balloc (used : Z) : M image unit :=
  assert (used <? BPB) ;;
  wsect (sb_bmapstart sb) (mark (Z.to_nat used) zeroes).

(** [freeblock++] *)
Definition newblock : M image Z :=
  let* s := get in
  modify (set_freeblock (u32 (g_freeblock s + 1))) ;;
  ret (g_freeblock s).

Definition addr (din : dinode) (i : Z) : Z := default 0 (di_addrs din !! Z.to_nat i).
Definition set_addr (din : dinode) (i v : Z) : dinode :=
  mkDinode (di_type din) (di_major din) (di_minor din) (di_nlink din) (di_size din) (<[Z.to_nat i := v]> (di_addrs din)).
Definition set_isize (din : dinode) (n : Z) : dinode :=
  mkDinode (di_type din) (di_major din) (di_minor din) (di_nlink din) n (di_addrs din).

(** [din.addrs[i]], allocated if it is 0. *)
Definition need_addr (din : dinode) (i : Z) : M image dinode :=
  if xint (addr din i) =? 0 then let* b := newblock in ret (set_addr din i (xint b)) else ret din.

(** The block of the file with index [fbn]. *)
Definition block_for (din : dinode) (fbn : Z) : M image (dinode * Z) :=
  if fbn <? NDIRECT then
    let* din := need_addr din fbn in
    ret (din, xint (addr din fbn))
  else
    let* din := need_addr din NDIRECT in
    let* indirect := rsect (xint (addr din NDIRECT)) in
    let* indirect :=
      (if ufield indirect (4 * (fbn - NDIRECT)) 4 =? 0 then
         let* b := newblock in
         let indirect := ufield_set indirect (4 * (fbn - NDIRECT)) 4 (xint b) in
         wsect (xint (addr din NDIRECT)) indirect ;;
         ret indirect
       else ret indirect) in
    ret (din, xint (ufield indirect (4 * (fbn - NDIRECT)) 4)).

Fixpoint iappend_loop (fuel : nat) (din : dinode) (off : Z) (p : list Z) : M image (dinode * Z) :=
  match fuel with
  | O => nofuel
  | S fuel =>
      let n := Z.of_nat (length p) in
      if 0 <? n then
        let fbn := off / BSIZE in
        assert (fbn <? MAXFILE) ;;
        let* (din, x) := block_for din fbn in
        let n1 := Z.min n ((fbn + 1) * BSIZE - off) in
        let* buf := rsect x in
        wsect x (splice buf (Z.to_nat (off - fbn * BSIZE)) (take (Z.to_nat n1) p)) ;;
        iappend_loop fuel din (u32 (off + n1)) (drop (Z.to_nat n1) p)
      else ret (din, off)
  end.

Definition iappend (inum : Z) (p : list Z) : M image unit :=
  let* din := rinode inum in
  let* (din, off) := iappend_loop (S (length p)) din (xint (di_size din)) p in
  winode inum (set_isize din (xint off)).

(** A zeroed [struct dirent] with [inum] and [name] stored. *)
Definition dirent_with (inum : Z) (name : list Z) : list Z :=
  splice (splice (replicate (Z.to_nat sizeof_dirent) 0) 0 (le_split 2 (xshort inum))) 2 name.

(** The name in the file system of the file [arg]. *)
(* user/ *)
Definition short_name (arg : list Z) : list Z :=
  if strncmp arg [117; 115; 101; 114; 47] 5 =? 0 then drop 5 arg else arg.

(** An argument of the program: its name and, if it can be opened, the results of
    the calls of [read] on it. *)
Definition add_file (rootino : Z) (f : list Z * option (list (list Z))) : M image unit :=
  let shortname := short_name (fst f) in
  assert (negb (bool_decide (47 ∈ shortname))) ;;
  match snd f with
  | None => panic "open"
  | Some chunks =>
      let shortname := if byte_at shortname 0 =? 95 then drop 1 shortname else shortname in
      assert (strlen shortname <=? DIRSIZ) ;;
      let* inum := ialloc T_FILE in
      iappend rootino (dirent_with inum (strncpy shortname (Z.to_nat DIRSIZ))) ;;
      for_each chunks (iappend inum)
  end.

(** [main], with the image file created. *)
Definition mkfs (files : list (list Z * option (list (list Z)))) : M image unit :=
  modify (set_freeblock nmeta) ;;
  for_each (seq 0 (Z.to_nat FSSIZE)) (fun i => wsect (Z.of_nat i) zeroes) ;;
  wsect 1 (splice zeroes 0 (superblock_bytes sb)) ;;
  let* rootino := ialloc T_DIR in
  assert (rootino =? ROOTINO) ;;
  iappend rootino (dirent_with rootino [46; 0]) ;;
  iappend rootino (dirent_with rootino [46; 46; 0]) ;;
  for_each files (add_file rootino) ;;
  let* din := rinode rootino in
  let off := xint (di_size din) in
  let off := u32 ((off / BSIZE + 1) * BSIZE) in
  winode rootino (set_isize din (xint off)) ;;
  let* s := get in
  balloc (g_freeblock s).

(** Before the program has done anything. *)
Definition empty_image : image := mkImage ∅ 1 0.
