(* ===== verification/MkfsSpec.v ===== *)
(** * What mkfs builds

    The image of Mkfs.v in the terms the kernel reads it with: the contents of
    each file, the entries of the root directory, the bitmap and the super
    block. *)

From S2P Require Import Prelude Riscv Kernel Mem Str Bio Log Fs BioSpec LogSpec CrashSpec TxnSpec LogTheorems BlockSpec BallocSpec InodeSpec ContentSpec DirSpec Mkfs.

(** ** Numbers and sectors *)

Lemma xint_small x : 0 <= x < 2 ^ 32 -> xint x = x.
Proof.
  intros Hx. unfold xint, u8. rewrite !Z.shiftr_div_pow2 by lia. transitivity (le_combine (le_split 4 x)).
  - cbn [le_split]. by rewrite !Z.div_div by lia.
  - rewrite le_combine_split. by apply Z.mod_small.
Qed.
Lemma xshort_small x : 0 <= x < 2 ^ 16 -> xshort x = x.
Proof.
  intros Hx. unfold xshort, u8. rewrite !Z.shiftr_div_pow2 by lia. transitivity (le_combine (le_split 2 x)); [done|].
  rewrite le_combine_split. by apply Z.mod_small.
Qed.
Lemma sector_small b : 0 <= b < FSSIZE -> sector b = b.
Proof. intros Hb. unfold sector, FSSIZE, BSIZE in *. rewrite u32_small by lia. by apply Z.div_mul. Qed.

Lemma sb_value : sb = mkSb FSMAGIC 2000 1953 200 31 2 33 46.
Proof. reflexivity. Qed.
Lemma nmeta_value : nmeta = 47.
Proof. reflexivity. Qed.

Definition blk (D : gmap Z (list Z)) (b : Z) : list Z := default [] (D !! b).

Lemma rsect_run s b : 0 <= b < FSSIZE -> is_Some (g_disk s !! b) -> rsect b s = Done (blk (g_disk s) b) s.
Proof. intros Hb [d Hd]. unfold rsect, blk. rewrite sector_small, Hd by done. done. Qed.

Lemma wsect_run {B} s b d (K : M image B) : 0 <= b < FSSIZE -> (wsect b d ;; K) s = K (set_disk (<[b := d]> (g_disk s)) s).
Proof. intros Hb. unfold wsect. kpure. by rewrite sector_small. Qed.

(** ** Files on the image *)

(** A file: its type, the blocks of its data in order, its indirect block or 0,
    and its data. *)
Record gfile := mkG { f_type : Z; f_blocks : list Z; f_ind : Z; f_data : list Z }.

(** The addresses in its inode. *)
Definition addrs_of (f : gfile) : list Z := ((fun i => default 0 (f_blocks f !! i)) <$> seq 0 12) ++ [f_ind f].

(** The blocks that belong to it. *)
Definition slot (f : gfile) (j : nat) : option Z :=
  match j with O => if decide (f_ind f = 0) then None else Some (f_ind f) | S j => f_blocks f !! j end.

Record on_blocks (D : gmap Z (list Z)) (f : gfile) : Prop := {
  ob_ind : f_ind f = 0 /\ (length (f_blocks f) <= 12)%nat \/
    f_ind f <> 0 /\ forall j, (j < 256)%nat -> ufield (blk D (f_ind f)) (4 * Z.of_nat j) 4 = default 0 (f_blocks f !! (12 + j)%nat);
  ob_data : exists z, mjoin (blk D <$> f_blocks f) = f_data f ++ replicate z 0
}.

(** Only the file's own blocks matter. *)
Lemma on_blocks_frame D D' f : (forall j b, slot f j = Some b -> D' !! b = D !! b) -> on_blocks D f -> on_blocks D' f.
Proof.
  intros Hs [H1 [z H2]]. split.
  - destruct H1 as [H1|[H1 H1']]; [by left|right]. split; [done|]. intros j Hj. rewrite <- (H1' j Hj). unfold blk.
    rewrite (Hs 0%nat); [done|]. cbn. by rewrite decide_False.
  - exists z. rewrite <- H2. f_equal. apply list_fmap_ext. intros j b Hb. unfold blk. by rewrite (Hs (S j)).
Qed.

(** The blocks of the image: [fs] are the files, the inode of the first of which
    is the root's. *)
Record goodb (s : image) (fs : list gfile) : Prop := {
  gb_fb : nmeta <= g_freeblock s <= FSSIZE;
  gb_disk : forall b, 33 <= b < FSSIZE -> exists d, g_disk s !! b = Some d /\ length d = Z.to_nat BSIZE;
  gb_zero : forall b, g_freeblock s <= b < FSSIZE -> g_disk s !! b = Some zeroes;
  gb_range : forall k f j b, fs !! k = Some f -> slot f j = Some b -> nmeta <= b < g_freeblock s;
  gb_inj : forall k k' f f' j j' b, fs !! k = Some f -> fs !! k' = Some f' -> slot f j = Some b -> slot f' j' = Some b ->
    k = k' /\ j = j';
  gb_files : forall k f, fs !! k = Some f -> on_blocks (g_disk s) f
}.

(** Changing the blocks of one file. *)
Lemma goodb_update s s' fs k f f' : goodb s fs -> fs !! k = Some f ->
  g_freeblock s <= g_freeblock s' <= FSSIZE ->
  (forall b, g_disk s' !! b = g_disk s !! b \/ exists j d, slot f' j = Some b /\ g_disk s' !! b = Some d /\ length d = Z.to_nat BSIZE) ->
  (forall j b, slot f' j = Some b -> slot f j = Some b \/ g_freeblock s <= b < g_freeblock s') ->
  (forall j j' b, slot f' j = Some b -> slot f' j' = Some b -> j = j') ->
  on_blocks (g_disk s') f' -> goodb s' (<[k := f']> fs).
Proof.
  intros G Hk Hfb HD Hs Hi Ho. pose proof (gb_fb _ _ G) as Hfb0. pose proof (lookup_lt_Some _ _ _ Hk) as Hlt.
  assert (forall j b, slot f' j = Some b -> nmeta <= b < g_freeblock s') as Hr'.
  { intros j b Hb. destruct (Hs j b Hb) as [Hb'|Hb']; [pose proof (gb_range _ _ G _ _ _ _ Hk Hb'); lia|lia]. }
  assert (forall k2 f2 j j2 b, k2 <> k -> fs !! k2 = Some f2 -> slot f' j = Some b -> slot f2 j2 = Some b -> False) as Hx.
  { intros k2 f2 j j2 b Hne Hk2 Hb Hb2. pose proof (gb_range _ _ G _ _ _ _ Hk2 Hb2).
    destruct (Hs j b Hb) as [Hb'|Hb']; [|lia]. destruct (gb_inj _ _ G _ _ _ _ _ _ _ Hk Hk2 Hb' Hb2). congruence. }
  split.
  - lia.
  - intros b Hb. destruct (HD b) as [->|(j & d & _ & Hd)]; [by apply (gb_disk _ _ G)|by exists d].
  - intros b Hb. destruct (HD b) as [->|(j & d & Hj & _)]; [apply (gb_zero _ _ G); lia|]. pose proof (Hr' _ _ Hj). lia.
  - intros k2 f2 j b [(<- & <- & _)|[Hne H2]]%list_lookup_insert_Some Hb; [by apply (Hr' j)|].
    pose proof (gb_range _ _ G _ _ _ _ H2 Hb). lia.
  - intros k2 k3 f2 f3 j j3 b [(<- & <- & _)|[Hne H2]]%list_lookup_insert_Some [(<- & <- & _)|[Hne' H3]]%list_lookup_insert_Some Hb Hb'.
    + split; [done|by apply (Hi j j3 b)].
    + exfalso. by apply (Hx k3 f3 j j3 b).
    + exfalso. by apply (Hx k2 f2 j3 j b).
    + by apply (gb_inj _ _ G k2 k3 f2 f3 j j3 b).
  - intros k2 f2 [(<- & <- & _)|[Hne H2]]%list_lookup_insert_Some; [done|].
    apply (on_blocks_frame (g_disk s)); [|by apply (gb_files _ _ G k2)]. intros j b Hb.
    destruct (HD b) as [->|(j' & d & Hj' & _)]; [done|]. exfalso. by apply (Hx k2 f2 j' j b).
Qed.

(** *** A new block *)

Definition grow (f : gfile) (b : Z) : gfile := mkG (f_type f) (f_blocks f ++ [b]) (f_ind f) (f_data f).
Definition with_ind (f : gfile) (b : Z) : gfile := mkG (f_type f) (f_blocks f) b (f_data f).

Lemma newblock_run s : 0 <= g_freeblock s < FSSIZE -> newblock s = Done (g_freeblock s) (set_freeblock (g_freeblock s + 1) s).
Proof. intros Hb. unfold newblock. kpure. rewrite u32_small by (unfold FSSIZE in *; lia). done. Qed.

Lemma slot_grow f b j c : slot (grow f b) j = Some c -> slot f j = Some c \/ j = S (length (f_blocks f)) /\ c = b.
Proof.
  destruct j as [|j]; [by left|]. cbn [slot grow f_blocks]. intros [H|[H1 H2]]%lookup_app_Some; [by left|right].
  apply list_lookup_singleton_Some in H2 as [H2 ->]. split; [lia|done].
Qed.
Lemma slot_with_ind f b j c : f_ind f = 0 -> slot (with_ind f b) j = Some c -> slot f j = Some c \/ j = O /\ c = b.
Proof.
  intros Hi. destruct j as [|j]; [|by left]. cbn. destruct (decide (b = 0)); [done|]. intros [= ->]. by right.
Qed.

(** Old slots are below the new block, so the slots stay different. *)
Lemma new_slot_inj s fs k f f' j0 : goodb s fs -> fs !! k = Some f ->
  (forall j c, slot f' j = Some c -> slot f j = Some c \/ j = j0 /\ c = g_freeblock s) ->
  forall j j' b, slot f' j = Some b -> slot f' j' = Some b -> j = j'.
Proof.
  intros G Hk Hs j j' b Hb Hb'. destruct (Hs _ _ Hb) as [H1|[-> ->]], (Hs _ _ Hb') as [H2|[-> E]]; try done.
  - by destruct (gb_inj _ _ G _ _ _ _ _ _ _ Hk Hk H1 H2).
  - subst b. pose proof (gb_range _ _ G _ _ _ _ Hk H1). lia.
  - pose proof (gb_range _ _ G _ _ _ _ Hk H2). lia.
Qed.

Lemma length_zeroes : length zeroes = Z.to_nat BSIZE.
Proof. apply length_replicate. Qed.

Lemma join_snoc D l b : mjoin (blk D <$> (l ++ [b])) = mjoin (blk D <$> l) ++ blk D b.
Proof. rewrite fmap_app. cbn [fmap list_fmap]. rewrite join_app. cbn. by rewrite app_nil_r. Qed.

Section new.
Variables (s : image) (fs : list gfile) (k : nat) (f : gfile).
Hypothesis G : goodb s fs.
Hypothesis Hk : fs !! k = Some f.
Hypothesis Hfb : g_freeblock s < FSSIZE.
Notation fb := (g_freeblock s).

Lemma fresh_zero : blk (g_disk s) fb = zeroes.
Proof. unfold blk. rewrite (gb_zero _ _ G) by lia. done. Qed.

Lemma grow_data : exists z, mjoin (blk (g_disk s) <$> f_blocks (grow f fb)) = f_data f ++ replicate z 0.
Proof.
  destruct (ob_data _ _ (gb_files _ _ G _ _ Hk)) as [z Hz]. cbn [grow f_blocks]. rewrite join_snoc, Hz, fresh_zero.
  exists (z + Z.to_nat BSIZE)%nat. unfold zeroes. by rewrite <- app_assoc, replicate_add.
Qed.

Lemma grow_direct : (length (f_blocks f) < 12)%nat -> goodb (set_freeblock (fb + 1) s) (<[k := grow f fb]> fs).
Proof.
  intros Hl. assert (forall j c, slot (grow f fb) j = Some c -> slot f j = Some c \/ j = S (length (f_blocks f)) /\ c = fb) as Hs
    by (intros j c; apply slot_grow).
  eapply (goodb_update s); [done|done| | | | |]; cbn [g_freeblock g_disk set_freeblock].
  - lia.
  - intros b. by left.
  - intros j c Hc. destruct (Hs j c Hc) as [H|[_ ->]]; [by left|right; lia].
  - by eapply new_slot_inj.
  - split; [|apply grow_data]. cbn [grow f_blocks f_ind]. rewrite length_app. cbn [length].
    destruct (ob_ind _ _ (gb_files _ _ G _ _ Hk)) as [[H1 H2]|[H1 H2]]; [left; split; [done|lia]|right].
    split; [done|]. intros j Hj. rewrite H2 by done. rewrite !lookup_ge_None_2; [done|rewrite length_app; cbn [length]; lia|lia].
Qed.

Lemma ufield_zeroes o n : ufield zeroes o n = 0.
Proof.
  unfold ufield, zeroes. rewrite drop_replicate, take_replicate. generalize (n `min` (Z.to_nat BSIZE - Z.to_nat o))%nat.
  intros m. induction m as [|m IH]; [done|]. cbn [replicate le_combine]. rewrite IH. done.
Qed.

Lemma new_indirect : f_ind f = 0 -> goodb (set_freeblock (fb + 1) s) (<[k := with_ind f fb]> fs).
Proof.
  intros Hi. pose proof (gb_fb _ _ G) as Hr. change nmeta with 47 in Hr.
  assert (forall j c, slot (with_ind f fb) j = Some c -> slot f j = Some c \/ j = O /\ c = fb) as Hs
    by (intros j c; by apply slot_with_ind).
  destruct (gb_files _ _ G _ _ Hk) as [H1 H2].
  eapply (goodb_update s); [done|done| | | | |]; cbn [g_freeblock g_disk set_freeblock].
  - lia.
  - intros b. by left.
  - intros j c Hc. destruct (Hs j c Hc) as [H|[_ ->]]; [by left|right; lia].
  - by eapply new_slot_inj.
  - split; [|exact H2]. right. cbn [with_ind f_ind f_blocks]. split; [lia|]. intros j Hj.
    destruct H1 as [[_ H1]|[H1 _]]; [|done]. rewrite fresh_zero, ufield_zeroes, lookup_ge_None_2 by lia. done.
Qed.

(** The entry of the new block in the indirect block. *)
Lemma grow_indirect j : length (f_blocks f) = (12 + j)%nat -> (j < 256)%nat -> f_ind f <> 0 ->
  let d := ufield_set (blk (g_disk s) (f_ind f)) (4 * Z.of_nat j) 4 fb in
  goodb (set_disk (<[f_ind f := d]> (g_disk s)) (set_freeblock (fb + 1) s)) (<[k := grow f fb]> fs).
Proof.
  intros Hl Hj Hi d. pose proof (gb_fb _ _ G) as Hr. change nmeta with 47 in Hr.
  assert (slot f 0 = Some (f_ind f)) as Hs0 by (cbn; by rewrite decide_False).
  pose proof (gb_range _ _ G _ _ _ _ Hk Hs0) as Hri. change nmeta with 47 in Hri.
  destruct (gb_disk _ _ G (f_ind f)) as (d0 & Hd0 & Hld0); [lia|].
  assert (blk (g_disk s) (f_ind f) = d0) as Hb0 by (unfold blk; by rewrite Hd0).
  assert (length d = Z.to_nat BSIZE) as Hld.
  { unfold d, ufield_set. rewrite Hb0, length_splice; [done|]. rewrite length_le_split, Hld0. unfold BSIZE. lia. }
  assert (forall j c, slot (grow f fb) j = Some c -> slot f j = Some c \/ j = S (length (f_blocks f)) /\ c = fb) as Hs
    by (intros i c; apply slot_grow).
  eapply (goodb_update s); [done|done| | | | |]; cbn [g_freeblock g_disk set_freeblock set_disk].
  - lia.
  - intros b. destruct (decide (b = f_ind f)) as [->|Hne]; [right; exists O, d|left; by rewrite lookup_insert_ne by done].
    split; [done|]. by rewrite lookup_insert_eq.
  - intros i c Hc. destruct (Hs i c Hc) as [H|[_ ->]]; [by left|right; lia].
  - by eapply new_slot_inj.
  - split.
    + right. cbn [grow f_ind f_blocks]. split; [done|]. intros i Hi256. unfold blk at 1. rewrite lookup_insert_eq. cbn [from_option id].
      unfold d. destruct (decide (i = j)) as [->|Hne].
      * rewrite ufield_set_same by (rewrite ?Hb0, ?Hld0; unfold BSIZE; lia).
        rewrite <- Hl, list_lookup_middle by done. cbn [from_option id]. apply Z.mod_small. unfold FSSIZE in *. lia.
      * unfold ufield_set. rewrite ufield_splice_out; [|lia|lia|rewrite length_le_split, Hb0, Hld0; unfold BSIZE; lia|rewrite length_le_split; lia].
        destruct (ob_ind _ _ (gb_files _ _ G _ _ Hk)) as [[H1 _]|[_ H2]]; [done|]. rewrite H2 by done. f_equal.
        destruct (decide (i < j)%nat); [rewrite lookup_app_l by lia; done|].
        rewrite !lookup_ge_None_2; [done|rewrite length_app; cbn [length]; lia|lia].
    + destruct grow_data as [z Hz]. exists z. etransitivity; [|exact Hz]. f_equal. apply list_fmap_ext. intros i b Hb.
      unfold blk. rewrite lookup_insert_ne; [done|]. intros <-. destruct (Hs (S i) (f_ind f) Hb) as [H|[_ E]]; [|lia].
      by destruct (gb_inj _ _ G _ _ _ _ _ _ _ Hk Hk Hs0 H).
Qed.
End new.

(** *** The block for the next byte *)

Definition shape (f : gfile) : Prop := f_ind f <> 0 <-> (12 < length (f_blocks f))%nat.
Definition low (s s' : image) : Prop :=
  g_freeinode s' = g_freeinode s /\ forall b, b < nmeta -> g_disk s' !! b = g_disk s !! b.

Lemma low_refl s : low s s.
Proof. done. Qed.
Lemma low_trans s1 s2 s3 : low s1 s2 -> low s2 s3 -> low s1 s3.
Proof. intros [H1 H2] [H3 H4]. split; [congruence|]. intros b Hb. by rewrite H4, H2. Qed.

Lemma addrs_direct f i : (i < 12)%nat -> addrs_of f !! i = Some (default 0 (f_blocks f !! i)).
Proof.
  intros Hi. unfold addrs_of. rewrite lookup_app_l by (by rewrite length_fmap, length_seq).
  rewrite list_lookup_fmap, lookup_seq_lt by done. done.
Qed.
Lemma addrs_ind f : addrs_of f !! 12%nat = Some (f_ind f).
Proof. done. Qed.
Lemma length_addrs f : length (addrs_of f) = 13%nat.
Proof. done. Qed.

Lemma addrs_grow f b : (length (f_blocks f) < 12)%nat -> <[length (f_blocks f) := b]> (addrs_of f) = addrs_of (grow f b).
Proof.
  intros Hl. apply list_eq. intros i. destruct (decide (i = length (f_blocks f))) as [->|Hne].
  - rewrite list_lookup_insert_eq by (rewrite length_addrs; lia). rewrite addrs_direct by done. cbn [grow f_blocks].
    by rewrite list_lookup_middle.
  - rewrite list_lookup_insert_ne by done. destruct (decide (i < 12)%nat).
    + rewrite !addrs_direct by done. cbn [grow f_blocks]. do 2 f_equal. destruct (decide (i < length (f_blocks f))%nat).
      * by rewrite lookup_app_l by done.
      * rewrite !lookup_ge_None_2; [done|rewrite length_app; cbn [length]; lia|lia].
    + destruct (decide (i = 12%nat)) as [->|]; [done|]. rewrite !lookup_ge_None_2 by (rewrite length_addrs; lia). done.
Qed.

Lemma addrs_with_ind f b : <[12%nat := b]> (addrs_of f) = addrs_of (with_ind f b).
Proof. done. Qed.

Lemma addrs_grow_ind f b : (12 <= length (f_blocks f))%nat -> addrs_of (grow f b) = addrs_of f.
Proof.
  intros Hl. apply list_eq. intros i. destruct (decide (i < 12)%nat).
  - rewrite !addrs_direct by done. cbn [grow f_blocks]. by rewrite lookup_app_l by lia.
  - destruct (decide (i = 12%nat)) as [->|]; [done|]. rewrite !lookup_ge_None_2 by (rewrite length_addrs; lia). done.
Qed.

Section block_for.
Variables (ty ma mi nl sz : Z).
Notation din f := (mkDinode ty ma mi nl sz (addrs_of f)).

Definition got (s : image) (fs : list gfile) (k : nat) (f : gfile) (q : nat) (cost : Z) (s' : image) (f' : gfile) (x : Z) : Prop :=
  goodb s' (<[k := f']> fs) /\ low s s' /\ f_type f' = f_type f /\ f_data f' = f_data f /\ f_blocks f' !! q = Some x /\
  length (f_blocks f') = Nat.max (length (f_blocks f)) (S q) /\ g_freeblock s' = g_freeblock s + cost /\ shape f'.

Lemma block_direct s fs k f q : goodb s fs -> fs !! k = Some f -> shape f -> (q <= length (f_blocks f))%nat -> (q < 12)%nat ->
  (q = length (f_blocks f) -> g_freeblock s < FSSIZE) ->
  exists s' f' x, block_for (din f) (Z.of_nat q) s = Done (din f', x) s' /\
    got s fs k f q (if decide (q < length (f_blocks f))%nat then 0 else 1) s' f' x.
Proof.
  intros G Hk Hsh Hq Hq12 Hsp. pose proof (gb_fb _ _ G) as Hfb. change nmeta with 47 in Hfb.
  unfold block_for. rewrite (proj2 (Z.ltb_lt _ _)) by (unfold NDIRECT; lia). unfold need_addr, addr. cbn [di_addrs].
  rewrite Nat2Z.id, addrs_direct by done. cbn [from_option id]. destruct (decide (q < length (f_blocks f))%nat) as [Hlt|Hge].
  - destruct (lookup_lt_is_Some_2 _ _ Hlt) as [b Hb]. rewrite Hb. cbn [from_option id].
    pose proof (gb_range _ _ G k f (S q) b Hk Hb) as Hr. change nmeta with 47 in Hr.
    rewrite xint_small by (unfold FSSIZE in *; lia). rewrite (proj2 (Z.eqb_neq _ _)) by lia. kpure. cbn [di_addrs].
    rewrite addrs_direct, Hb by done. cbn [from_option id].
    exists s, f, b. split; [by rewrite xint_small by (unfold FSSIZE in *; lia)|].
    unfold got. rewrite list_insert_id by done. split_and!; try done; lia.
  - assert (q = length (f_blocks f)) as -> by lia. rewrite lookup_ge_None_2 by done. cbn [from_option id].
    specialize (Hsp eq_refl). rewrite xint_small, Z.eqb_refl by lia. kstep by (apply newblock_run; lia). kpure.
    unfold set_addr. cbn [di_addrs di_type di_major di_minor di_nlink di_size]. rewrite ?Nat2Z.id.
    rewrite (xint_small (g_freeblock s)) by (unfold FSSIZE in *; lia). rewrite addrs_grow, addrs_direct by done. cbn [grow f_blocks].
    rewrite list_lookup_middle by done. cbn [from_option id]. rewrite xint_small by (unfold FSSIZE in *; lia).
    eexists _, (grow f (g_freeblock s)), (g_freeblock s). split; [done|]. unfold got. split; [by apply grow_direct|].
    cbn [grow f_blocks f_type f_data]. rewrite list_lookup_middle, length_app by done. cbn [length].
    split_and!; try done; [lia|]. unfold shape in *. cbn [grow f_ind f_blocks]. rewrite length_app. cbn [length]. lia.
Qed.

Lemma need_ind s fs k f : goodb s fs -> fs !! k = Some f -> shape f -> (12 <= length (f_blocks f))%nat ->
  (length (f_blocks f) = 12%nat -> g_freeblock s < FSSIZE) ->
  exists s1 f1, need_addr (din f) NDIRECT s = Done (din f1) s1 /\ goodb s1 (<[k := f1]> fs) /\ low s s1 /\
    f_blocks f1 = f_blocks f /\ f_type f1 = f_type f /\ f_data f1 = f_data f /\ f_ind f1 <> 0 /\
    g_freeblock s1 = g_freeblock s + (if decide (length (f_blocks f) = 12%nat) then 1 else 0).
Proof.
  intros G Hk Hsh Hl Hsp. pose proof (gb_fb _ _ G) as Hfb. change nmeta with 47 in Hfb.
  unfold need_addr, addr. cbn [di_addrs]. change (Z.to_nat NDIRECT) with 12%nat. rewrite addrs_ind. cbn [from_option id].
  destruct (decide (length (f_blocks f) = 12%nat)) as [E|E].
  - assert (f_ind f = 0) as Hi by (destruct (decide (f_ind f = 0)) as [|Hn]; [done|apply Hsh in Hn; lia]).
    specialize (Hsp E). rewrite Hi, xint_small, Z.eqb_refl by lia. kstep by (apply newblock_run; lia).
    rewrite xint_small by (unfold FSSIZE in *; lia).
    exists (set_freeblock (g_freeblock s + 1) s), (with_ind f (g_freeblock s)). split; [done|].
    split; [by apply new_indirect|]. split_and!; try done. cbn. lia.
  - assert (f_ind f <> 0) as Hi by (apply Hsh; lia).
    pose proof (gb_range _ _ G k f 0 (f_ind f) Hk ltac:(cbn; by rewrite decide_False)) as Hr. change nmeta with 47 in Hr.
    rewrite xint_small, (proj2 (Z.eqb_neq _ _)) by (unfold FSSIZE in *; lia).
    exists s, f. rewrite list_insert_id by done. split_and!; try done; lia.
Qed.

(** The entry of the indirect block. *)
Lemma ind_entry s fs k f j : goodb s fs -> fs !! k = Some f -> f_ind f <> 0 -> (12 + j <= length (f_blocks f))%nat -> (j < 256)%nat ->
  (length (f_blocks f) = (12 + j)%nat -> g_freeblock s < FSSIZE) ->
  exists s' f' x,
    (let* indirect := rsect (f_ind f) in
     let* indirect :=
       (if ufield indirect (4 * Z.of_nat j) 4 =? 0 then
          let* b := newblock in
          let indirect := ufield_set indirect (4 * Z.of_nat j) 4 (xint b) in
          wsect (f_ind f) indirect ;;
          ret indirect
        else ret indirect) in
     ret (din f, xint (ufield indirect (4 * Z.of_nat j) 4))) s = Done (din f', x) s' /\
    got s fs k f (12 + j) (if decide (12 + j < length (f_blocks f))%nat then 0 else 1) s' f' x.
Proof.
  intros G Hk Hi Hl Hj Hsp. pose proof (gb_fb _ _ G) as Hfb. change nmeta with 47 in Hfb.
  pose proof (gb_range _ _ G k f 0 (f_ind f) Hk ltac:(cbn; by rewrite decide_False)) as Hr. change nmeta with 47 in Hr.
  destruct (gb_disk _ _ G (f_ind f)) as (d0 & Hd0 & Hld0); [lia|].
  kstep by (apply rsect_run; [lia|by eexists]).
  destruct (ob_ind _ _ (gb_files _ _ G _ _ Hk)) as [[H1 _]|[_ H2]]; [done|]. rewrite (H2 j Hj).
  destruct (decide (12 + j < length (f_blocks f))%nat) as [Hlt|Hge].
  - destruct (lookup_lt_is_Some_2 _ _ Hlt) as [b Hb]. rewrite Hb. cbn [from_option id].
    pose proof (gb_range _ _ G k f (S (12 + j)) b Hk Hb) as Hrb. change nmeta with 47 in Hrb.
    rewrite (proj2 (Z.eqb_neq _ _)) by lia. kpure. rewrite (H2 j Hj), Hb. cbn [from_option id].
    rewrite xint_small by (unfold FSSIZE in *; lia). exists s, f, b. split; [done|].
    unfold got. rewrite list_insert_id by done. split_and!; try done; [lia|lia|]. unfold shape. split; [lia|done].
  - assert (length (f_blocks f) = (12 + j)%nat) as El by lia. specialize (Hsp El).
    rewrite lookup_ge_None_2 by lia. cbn [from_option id]. rewrite Z.eqb_refl. kstep by (apply newblock_run; lia).
    rewrite bind_assoc, wsect_run, xint_small by (unfold FSSIZE in *; lia). kpure.
    assert (length (blk (g_disk s) (f_ind f)) = Z.to_nat BSIZE) as Hlb by (unfold blk; by rewrite Hd0).
    rewrite ufield_set_same by (rewrite ?Hlb; unfold BSIZE; lia).
    rewrite Z.mod_small, xint_small by (unfold FSSIZE in *; lia).
    eexists _, (grow f (g_freeblock s)), (g_freeblock s). rewrite addrs_grow_ind by lia. split; [done|].
    unfold got. split; [exact (grow_indirect s fs k f G Hk Hsp j El Hj Hi)|]. cbn [grow f_blocks f_type f_data]. rewrite <- El, list_lookup_middle, length_app by done.
    cbn [length]. split.
    { split; [done|]. intros b Hb. cbn. by rewrite lookup_insert_ne by (change nmeta with 47 in Hb; lia). }
    split_and!; try done; [lia|]. unfold shape. cbn [grow f_ind f_blocks]. rewrite length_app. cbn [length]. split; [lia|done].
Qed.

(** The blocks that a file which has [q] data blocks takes for one more. *)
Definition cost (q : nat) : Z := if decide (q = 12%nat) then 2 else 1.

Lemma block_for_run s fs k f q : goodb s fs -> fs !! k = Some f -> shape f -> (q <= length (f_blocks f))%nat -> (q < 268)%nat ->
  (q = length (f_blocks f) -> g_freeblock s + cost q <= FSSIZE) ->
  exists s' f' x, block_for (din f) (Z.of_nat q) s = Done (din f', x) s' /\
    got s fs k f q (if decide (q < length (f_blocks f))%nat then 0 else cost q) s' f' x.
Proof.
  intros G Hk Hsh Hq Hm Hsp. destruct (decide (q < 12)%nat) as [H12|H12].
  { assert (cost q = 1) as Ec by (unfold cost; rewrite decide_False by lia; done). rewrite Ec in *.
    apply block_direct; try done. intros E. specialize (Hsp E). lia. }
  destruct (need_ind s fs k f G Hk Hsh) as (s1 & f1 & E1 & G1 & L1 & B1 & T1 & D1 & I1 & F1); [lia| |].
  { intros E. assert (q = length (f_blocks f)) as Eq by lia. specialize (Hsp Eq). unfold cost in Hsp. rewrite decide_True in Hsp by lia. lia. }
  pose proof (lookup_lt_Some _ _ _ Hk) as Hlt.
  assert (<[k := f1]> fs !! k = Some f1) as Hk1 by (by apply list_lookup_insert_eq).
  destruct (ind_entry s1 _ k f1 (q - 12) G1 Hk1 I1) as (s' & f' & x & E2 & G2 & L2 & T2 & D2 & B2 & N2 & F2 & S2); [rewrite B1; lia|lia| |].
  { intros E. rewrite F1. rewrite B1 in E. assert (q = length (f_blocks f)) as Eq by lia. specialize (Hsp Eq). unfold cost in Hsp.
    destruct (decide (q = 12%nat)), (decide (length (f_blocks f) = 12%nat)); lia. }
  replace (12 + (q - 12))%nat with q in * by lia. exists s', f', x. split.
  - unfold block_for. rewrite (proj2 (Z.ltb_ge _ _)) by (unfold NDIRECT; lia). rewrite (bind_done _ _ _ _ _ E1). unfold addr. cbn [di_addrs].
    change (Z.to_nat NDIRECT) with 12%nat. rewrite addrs_ind. cbn [from_option id].
    pose proof (gb_range _ _ G1 k f1 0 (f_ind f1) Hk1 ltac:(cbn; by rewrite decide_False)) as Hr. change nmeta with 47 in Hr.
    pose proof (gb_fb _ _ G1). rewrite xint_small by (unfold FSSIZE in *; lia).
    replace (Z.of_nat q - NDIRECT) with (Z.of_nat (q - 12)) by (unfold NDIRECT; lia). exact E2.
  - rewrite list_insert_insert_eq in G2. unfold got. split; [done|]. split; [by eapply low_trans|]. split; [congruence|]. split; [congruence|].
    split; [done|]. rewrite N2, F2, F1, B1. split; [done|]. split; [|done]. unfold cost.
    destruct (decide (q < length (f_blocks f))%nat), (decide (length (f_blocks f) = 12%nat)), (decide (q = 12%nat)); lia.
Qed.
End block_for.

(** *** Appending *)

Definition add_data (f : gfile) (ch : list Z) : gfile := mkG (f_type f) (f_blocks f) (f_ind f) (f_data f ++ ch).

Lemma splice_zeros a z ch : (length ch <= z)%nat -> splice (a ++ replicate z 0) (length a) ch = (a ++ ch) ++ replicate (z - length ch) 0.
Proof.
  intros Hz. unfold splice. rewrite take_app_length. rewrite drop_app_ge by lia. rewrite drop_replicate, <- app_assoc.
  do 3 f_equal. lia.
Qed.

Lemma write_block s fs k f q x ch : goodb s fs -> fs !! k = Some f -> f_blocks f !! q = Some x ->
  q = (length (f_data f) / 1024)%nat -> (length (f_data f) mod 1024 + length ch <= 1024)%nat ->
  goodb (set_disk (<[x := splice (blk (g_disk s) x) (length (f_data f) mod 1024) ch]> (g_disk s)) s) (<[k := add_data f ch]> fs).
Proof.
  intros G Hk Hx Hq Hr. assert (slot f (S q) = Some x) as Hsx by done.
  pose proof (gb_range _ _ G _ _ _ _ Hk Hsx) as Hrx. change nmeta with 47 in Hrx. pose proof (gb_fb _ _ G) as Hfb.
  assert (forall j b, f_blocks f !! j = Some b -> length (blk (g_disk s) b) = 1024%nat) as Hlen.
  { intros j b Hb. pose proof (gb_range _ _ G _ _ (S j) _ Hk Hb) as Hrb. change nmeta with 47 in Hrb.
    destruct (gb_disk _ _ G b) as (d & Hd & Hld); [lia|]. unfold blk. by rewrite Hd. }
  set (d := splice (blk (g_disk s) x) (length (f_data f) mod 1024) ch).
  assert (length d = 1024%nat) as Hld by (unfold d; rewrite length_splice; [by apply (Hlen q)|rewrite (Hlen q) by done; done]).
  eapply (goodb_update s); [done|done|cbn [g_freeblock set_disk]; lia| | | |]; cbn [g_freeblock g_disk set_disk].
  - intros b. destruct (decide (b = x)) as [->|Hne]; [right|left; by rewrite lookup_insert_ne by done].
    exists (S q), d. split; [done|]. by rewrite lookup_insert_eq.
  - intros j b Hb. left. by destruct j.
  - intros j j' b Hb Hb'. change (slot f j = Some b) in Hb. change (slot f j' = Some b) in Hb'.
    by destruct (gb_inj _ _ G _ _ _ _ _ _ _ Hk Hk Hb Hb').
  - destruct (gb_files _ _ G _ _ Hk) as [H1 [z H2]]. split; cbn [add_data f_ind f_blocks f_data].
    + destruct H1 as [H1|[H1 H1']]; [by left|right]. split; [done|]. intros j Hj. rewrite <- H1' by done. unfold blk.
      rewrite lookup_insert_ne; [done|]. intros E. rewrite E in Hsx.
      destruct (gb_inj _ _ G _ _ _ _ 0%nat _ (f_ind f) Hk Hk ltac:(cbn; by rewrite decide_False) Hsx). done.
    + assert (blk (<[x := d]> (g_disk s)) <$> f_blocks f = <[q := d]> (blk (g_disk s) <$> f_blocks f)) as ->.
      { apply list_eq. intros i. rewrite list_lookup_fmap. destruct (decide (i = q)) as [->|Hne].
        - rewrite Hx, list_lookup_insert_eq by (rewrite length_fmap; by eapply lookup_lt_Some). cbn. unfold blk. by rewrite lookup_insert_eq.
        - rewrite list_lookup_insert_ne, list_lookup_fmap by done. destruct (f_blocks f !! i) as [b|] eqn:Eb; [|done]. cbn. unfold blk.
          rewrite lookup_insert_ne; [done|]. intros <-. destruct (gb_inj _ _ G _ _ _ _ (S i) _ x Hk Hk Eb Hsx). lia. }
      assert (Forall (fun b => length b = 1024%nat) (blk (g_disk s) <$> f_blocks f)) as HF.
      { apply Forall_fmap, Forall_lookup. intros i b Hb. by apply (Hlen i). }
      unfold d. rewrite (join_splice 1024) by (try done; by rewrite list_lookup_fmap, Hx).
      replace (q * 1024 + length (f_data f) mod 1024)%nat with (length (f_data f)) by (rewrite Hq; pose proof (Nat.div_mod (length (f_data f)) 1024 ltac:(lia)); lia).
      pose proof (length_join 1024 _ HF) as HL. rewrite length_fmap in HL. apply lookup_lt_Some in Hx as Hql. rewrite H2 in HL |- *.
      rewrite length_app, length_replicate in HL. pose proof (Nat.div_mod (length (f_data f)) 1024 ltac:(lia)) as Hdm.
      rewrite splice_zeros by nia. by eexists.
Qed.

(** The number of blocks of a file of [n] bytes. *)
Definition nb (n : nat) : nat := (n + 1023) / 1024.
Definition need (n : nat) : Z := Z.of_nat (nb n) + if decide (12 < nb n)%nat then 1 else 0.
Definition exact (f : gfile) : Prop := length (f_blocks f) = nb (length (f_data f)) /\ shape f.

Lemma need_mono n m : (n <= m)%nat -> need n <= need m.
Proof.
  intros Hn. unfold need. assert (nb n <= nb m)%nat by (unfold nb; apply Nat.Div0.div_le_mono; lia).
  destruct (decide (12 < nb n)%nat), (decide (12 < nb m)%nat); lia.
Qed.

(** One round of the loop. *)
Lemma round n m : (0 < m)%nat -> let q := (n / 1024)%nat in (n mod 1024 + m <= 1024)%nat ->
  (q <= nb n <= S q)%nat /\ nb (n + m) = S q /\ need (n + m) = need n + (if decide (q < nb n)%nat then 0 else cost q).
Proof.
  intros Hm q Hr. assert (nb (n + m) = S q) as E.
  { unfold nb, q. pose proof (Nat.div_mod n 1024 ltac:(lia)).
    symmetry. apply (Nat.div_unique _ 1024 _ (n mod 1024 + m - 1)); lia. }
  assert (nb n = q \/ nb n = S q) as En.
  { pose proof (Nat.div_mod n 1024 ltac:(lia)) as H. pose proof (Nat.mod_upper_bound n 1024 ltac:(lia)).
    destruct (decide (n mod 1024 = 0)%nat) as [Ez|Ez]; [left|right]; symmetry; unfold nb.
    - apply (Nat.div_unique _ 1024 _ 1023); lia.
    - apply (Nat.div_unique _ 1024 _ (n mod 1024 - 1)); lia. }
  split; [lia|]. split; [done|]. unfold need, cost. rewrite E.
  destruct En as [->| ->]; repeat case_decide; lia.
Qed.

Section append.
Variables (ty ma mi nl sz : Z).
Notation din f := (mkDinode ty ma mi nl sz (addrs_of f)).

Lemma iappend_loop_run : forall fuel p s fs k f, (length p < fuel)%nat -> goodb s fs -> fs !! k = Some f -> exact f ->
  (length (f_data f) + length p <= 268 * 1024)%nat ->
  g_freeblock s + need (length (f_data f) + length p) - need (length (f_data f)) <= FSSIZE ->
  exists s' f', iappend_loop fuel (din f) (Z.of_nat (length (f_data f))) p s = Done (din f', Z.of_nat (length (f_data f'))) s' /\
    goodb s' (<[k := f']> fs) /\ low s s' /\ f_type f' = f_type f /\ f_data f' = f_data f ++ p /\ exact f' /\
    g_freeblock s' = g_freeblock s + need (length (f_data f) + length p) - need (length (f_data f)).
Proof.
  induction fuel as [|fuel IH]; intros p s fs k f Hfu G Hk [He Hsh] Hm Hsp; [lia|]. cbn [iappend_loop].
  destruct (decide (length p = 0)%nat) as [E0|E0].
  { apply nil_length_inv in E0 as ->. cbn [length]. exists s, f. rewrite app_nil_r, list_insert_id, Nat.add_0_r by done.
    split_and!; try done. lia. }
  rewrite (proj2 (Z.ltb_lt _ _)) by lia. set (n := length (f_data f)) in *. set (q := (n / 1024)%nat).
  assert (Z.of_nat n / BSIZE = Z.of_nat q) as Hq by (unfold BSIZE, q; by rewrite Nat2Z.inj_div).
  pose proof (Nat.div_mod n 1024 ltac:(lia)) as Hdm. fold q in Hdm. pose proof (Nat.mod_upper_bound n 1024 ltac:(lia)) as Hmod.
  set (m := Nat.min (length p) (1024 - n mod 1024)).
  destruct (round n m ltac:(lia) ltac:(lia)) as (R1 & R2 & R3). fold q in R1, R2, R3.
  pose proof (need_mono (n + m) (n + length p) ltac:(lia)) as Hmono.
  rewrite Hq. unfold assert. rewrite (proj2 (Z.ltb_lt _ _)) by (change MAXFILE with 268; lia). kpure.
  destruct (block_for_run ty ma mi nl sz s fs k f q G Hk Hsh) as (s1 & f1 & x & E1 & G1 & L1 & T1 & D1 & B1 & N1 & F1 & S1); [lia|lia| |].
  { intros E. rewrite decide_False in R3 by lia. lia. }
  rewrite (bind_done _ _ _ _ _ E1). pose proof (lookup_lt_Some _ _ _ Hk) as Hlt.
  assert (<[k := f1]> fs !! k = Some f1) as Hk1 by (by apply list_lookup_insert_eq).
  pose proof (gb_range _ _ G1 _ _ (S q) _ Hk1 B1) as Hrx. change nmeta with 47 in Hrx. pose proof (gb_fb _ _ G1) as Hfb.
  destruct (gb_disk _ _ G1 x) as (d & Hd & Hld); [lia|]. kstep by (apply rsect_run; [lia|by eexists]).
  rewrite wsect_run by lia.
  replace (Z.to_nat (Z.min (Z.of_nat (length p)) ((Z.of_nat q + 1) * BSIZE - Z.of_nat n))) with m by (unfold BSIZE; lia).
  replace (Z.to_nat (Z.of_nat n - Z.of_nat q * BSIZE)) with (n mod 1024)%nat by (unfold BSIZE; lia).
  replace (u32 (Z.of_nat n + Z.min (Z.of_nat (length p)) ((Z.of_nat q + 1) * BSIZE - Z.of_nat n))) with (Z.of_nat (n + m))
    by (rewrite u32_small; unfold BSIZE; lia).
  pose proof (write_block s1 _ k f1 q x (take m p) G1 Hk1 B1) as G2. rewrite D1, list_insert_insert_eq in G2. fold n in G2.
  specialize (G2 eq_refl). rewrite length_take, Nat.min_l in G2 by lia. specialize (G2 ltac:(lia)).
  assert (length (f_data (add_data f1 (take m p))) = n + m)%nat as Hn1 by (cbn [add_data f_data]; rewrite D1, length_app, length_take; lia).
  edestruct (IH (drop m p) _ _ k (add_data f1 (take m p)) ltac:(rewrite length_drop; lia) G2) as (s' & f' & E' & G' & L' & T' & D' & X' & F').
  - by apply list_lookup_insert_eq.
  - split; [|done]. rewrite Hn1. cbn [add_data f_blocks]. rewrite N1. rewrite R2. lia.
  - rewrite Hn1, length_drop. lia.
  - rewrite Hn1, length_drop. replace (n + m + (length p - m))%nat with (n + length p)%nat by lia.
    cbn [g_freeblock set_disk]. rewrite F1. destruct (decide (q < length (f_blocks f))%nat), (decide (q < nb n)%nat); lia.
  - rewrite Hn1 in *. exists s', f'. split; [exact E'|]. rewrite list_insert_insert_eq in G'. split; [done|]. split.
    { eapply low_trans; [exact L1|]. eapply low_trans; [|exact L']. split; [done|]. intros b Hb. change nmeta with 47 in Hb.
      cbn. by rewrite lookup_insert_ne by lia. }
    split; [by rewrite T', <- T1|]. split; [rewrite D'; cbn [add_data f_data]; by rewrite D1, <- app_assoc, take_drop|]. split; [done|].
    rewrite F', length_drop. replace (n + m + (length p - m))%nat with (n + length p)%nat by lia.
    cbn [g_freeblock set_disk]. rewrite F1. destruct (decide (q < length (f_blocks f))%nat), (decide (q < nb n)%nat); lia.
Qed.
End append.

(** *** Inodes *)

Definition din_of (f : gfile) : dinode := mkDinode (f_type f) 0 0 1 (Z.of_nat (length (f_data f))) (addrs_of f).

(** The super block and the empty log. *)
Definition meta (D : gmap Z (list Z)) : Prop :=
  D !! 1 = Some (splice zeroes 0 (superblock_bytes sb)) /\ forall b, 2 <= b < 33 -> D !! b = Some zeroes.

Record good (s : image) (fs : list gfile) : Prop := {
  go_blocks : goodb s fs;
  go_file : forall k f, fs !! k = Some f -> exact f /\ short (f_type f) /\ (length (f_data f) <= 268 * 1024)%nat;
  go_inode : forall k f, fs !! k = Some f -> dinode_in (g_disk s) sb (Z.of_nat (S k)) = din_of f;
  go_unused : forall i, Z.of_nat (S (length fs)) <= i < 208 -> di_type (dinode_in (g_disk s) sb i) = 0;
  go_next : g_freeinode s = Z.of_nat (S (length fs)) /\ (length fs < 207)%nat;
  go_meta : meta (g_disk s)
}.

Lemma IBLOCK_range i : 0 <= i < 208 -> 33 <= IBLOCK i sb < 46.
Proof. intros Hi. unfold IBLOCK. rewrite sb_value. cbn [sb_inodestart]. change IPB with 16. Z.div_mod_to_equations. lia. Qed.

Lemma goodb_low s s' fs : goodb s fs -> g_freeblock s' = g_freeblock s -> (forall b, nmeta <= b -> g_disk s' !! b = g_disk s !! b) ->
  (forall b, 33 <= b < nmeta -> exists d, g_disk s' !! b = Some d /\ length d = Z.to_nat BSIZE) -> goodb s' fs.
Proof.
  intros G Hf Hh Hl. split; rewrite ?Hf; try apply G.
  - intros b Hb. destruct (decide (nmeta <= b)); [rewrite Hh by done; by apply G|apply Hl; lia].
  - intros b Hb. rewrite Hh; [by apply G|]. pose proof (gb_fb _ _ G). lia.
  - intros k f Hk. apply (on_blocks_frame (g_disk s)); [|by apply (gb_files _ _ G k)]. intros j b Hb. apply Hh.
    pose proof (gb_range _ _ G _ _ _ _ Hk Hb). lia.
Qed.

Lemma din_of_wf s fs k f : goodb s fs -> fs !! k = Some f -> short (f_type f) -> (length (f_data f) <= 268 * 1024)%nat -> dinode_wf (din_of f).
Proof.
  intros G Hk Ht Hl. pose proof (gb_fb _ _ G) as Hfb. split; cbn [din_of di_type di_major di_minor di_nlink di_size di_addrs]; try done.
  - lia.
  - intros a [i Ha]%list_elem_of_lookup. destruct (decide (i < 12)%nat) as [Hi|Hi].
    + rewrite addrs_direct in Ha by done. injection Ha as <-. destruct (f_blocks f !! i) as [b|] eqn:Eb; [|cbn; lia].
      pose proof (gb_range _ _ G _ _ (S i) _ Hk Eb) as Hr. change nmeta with 47 in Hr. cbn. unfold FSSIZE in *. lia.
    + assert (i = 12%nat) as -> by (apply lookup_lt_Some in Ha; rewrite length_addrs in Ha; lia). injection Ha as <-.
      destruct (decide (f_ind f = 0)) as [->|Hn]; [lia|].
      pose proof (gb_range _ _ G _ _ 0%nat (f_ind f) Hk ltac:(cbn; by rewrite decide_False)) as Hr. change nmeta with 47 in Hr.
      unfold FSSIZE in *. lia.
Qed.

Lemma rinode_run s fs inum : goodb s fs -> 0 <= inum < 208 -> rinode inum s = Done (dinode_in (g_disk s) sb inum) s.
Proof.
  intros G Hi. pose proof (IBLOCK_range inum Hi). destruct (gb_disk _ _ G (IBLOCK inum sb)) as (d & Hd & _); [unfold FSSIZE; lia|].
  unfold rinode. kstep by (apply rsect_run; [unfold FSSIZE; lia|by eexists]). done.
Qed.

Lemma winode_run s fs inum x : goodb s fs -> 0 <= inum < 208 -> dinode_wf x ->
  exists s', winode inum x s = Done tt s' /\ goodb s' fs /\ g_freeblock s' = g_freeblock s /\ g_freeinode s' = g_freeinode s /\
    dinode_in (g_disk s') sb inum = x /\
    (forall i, 0 <= i < 208 -> i <> inum -> dinode_in (g_disk s') sb i = dinode_in (g_disk s) sb i) /\
    (forall b, ~ 33 <= b < 46 -> g_disk s' !! b = g_disk s !! b).
Proof.
  intros G Hi W. pose proof (IBLOCK_range inum Hi) as Hr. destruct (gb_disk _ _ G (IBLOCK inum sb)) as (d & Hd & Hl); [unfold FSSIZE; lia|].
  unfold winode. kstep by (apply rsect_run; [unfold FSSIZE; lia|by eexists]). unfold blk. rewrite Hd. cbn [from_option id].
  eexists. split; [unfold wsect, modify; by rewrite sector_small by (unfold FSSIZE; lia)|]. cbn [g_disk g_freeblock g_freeinode set_disk].
  assert (forall i, 0 <= i < 208 -> 0 <= dinode_off i /\ dinode_off i + 64 <= 1024) as Hoff.
  { intros i Hi'. unfold dinode_off. change IPB with 16. change sizeof_dinode with 64. Z.div_mod_to_equations. lia. }
  pose proof (Hoff inum Hi) as Ho. assert (Z.to_nat BSIZE = 1024%nat) as HB by done. rewrite HB in Hl.
  assert (length (splice d (Z.to_nat (dinode_off inum)) (dinode_bytes x)) = 1024%nat) as Hl'.
  { rewrite length_splice; [done|]. rewrite length_dinode_bytes by apply W. lia. }
  split_and!; try done.
  - apply (goodb_low s); [done|done| |].
    + intros b Hb. change nmeta with 47 in Hb. cbn. by rewrite lookup_insert_ne by lia.
    + intros b Hb. cbn. destruct (decide (b = IBLOCK inum sb)) as [->|Hne]; [rewrite lookup_insert_eq; by eexists|].
      rewrite lookup_insert_ne by done. apply G. change nmeta with 47 in Hb. unfold FSSIZE. lia.
  - unfold dinode_in. rewrite lookup_insert_eq. cbn [from_option id]. apply dinode_roundtrip; [done|lia|lia].
  - intros i Hi' Hne. unfold dinode_in. destruct (decide (IBLOCK i sb = IBLOCK inum sb)) as [E|E]; [|by rewrite lookup_insert_ne by done].
    rewrite E, lookup_insert_eq, Hd. cbn [from_option id]. apply dinode_other; [apply W|lia|apply Hoff; lia|lia|].
    unfold IBLOCK, dinode_off in *. change IPB with 16 in *. change sizeof_dinode with 64 in *. clear - E Hne. Z.div_mod_to_equations. lia.
  - intros b Hb. by rewrite lookup_insert_ne by lia.
Qed.

Lemma meta_low D D' : (forall b, b < 33 -> D' !! b = D !! b) -> meta D -> meta D'.
Proof. intros H [H1 H2]. split; [by rewrite H|]. intros b Hb. rewrite H by lia. by apply H2. Qed.

(** [iappend] adds to the data of one file. *)
Lemma iappend_run s fs k f p : good s fs -> fs !! k = Some f -> (length (f_data f) + length p <= 268 * 1024)%nat ->
  g_freeblock s + need (length (f_data f) + length p) - need (length (f_data f)) <= FSSIZE ->
  exists s' f', iappend (Z.of_nat (S k)) p s = Done tt s' /\ good s' (<[k := f']> fs) /\
    f_type f' = f_type f /\ f_data f' = f_data f ++ p /\
    g_freeblock s' = g_freeblock s + need (length (f_data f) + length p) - need (length (f_data f)).
Proof.
  intros G Hk Hm Hsp. pose proof (lookup_lt_Some _ _ _ Hk) as Hlt. destruct (go_next _ _ G) as [Hn Hn'].
  destruct (go_file _ _ G _ _ Hk) as (He & Hty & Hln). unfold iappend.
  rewrite (bind_done _ _ _ _ _ (rinode_run s fs (Z.of_nat (S k)) (go_blocks _ _ G) ltac:(lia))).
  rewrite (go_inode _ _ G _ _ Hk). unfold din_of. cbn [di_size]. rewrite xint_small by lia.
  destruct (iappend_loop_run (f_type f) 0 0 1 (Z.of_nat (length (f_data f))) (S (length p)) p s fs k f ltac:(lia) (go_blocks _ _ G) Hk He Hm Hsp)
    as (s1 & f' & E1 & G1 & L1 & T1 & D1 & X1 & F1).
  rewrite (bind_done _ _ _ _ _ E1). assert (length (f_data f') = length (f_data f) + length p)%nat as Hl' by (by rewrite D1, length_app).
  rewrite xint_small by lia. unfold set_isize. cbn [di_type di_major di_minor di_nlink di_addrs].
  assert (mkDinode (f_type f) 0 0 1 (Z.of_nat (length (f_data f'))) (addrs_of f') = din_of f') as -> by (unfold din_of; by rewrite T1).
  assert (<[k := f']> fs !! k = Some f') as Hk' by (by apply list_lookup_insert_eq).
  assert (dinode_wf (din_of f')) as W by (eapply din_of_wf; [exact G1|exact Hk'|by rewrite T1|lia]).
  destruct (winode_run s1 _ (Z.of_nat (S k)) (din_of f') G1 ltac:(lia) W) as (s' & E' & G' & F' & N' & I' & O' & M').
  assert (forall i, 0 <= i < 208 -> dinode_in (g_disk s1) sb i = dinode_in (g_disk s) sb i) as Hin.
  { intros i Hi. unfold dinode_in. destruct L1 as [_ L1]. rewrite L1; [done|]. pose proof (IBLOCK_range i Hi). change nmeta with 47. lia. }
  exists s', f'. split; [done|]. split; [|split; [done|split; [done|by rewrite F', F1]]]. split.
  - done.
  - intros k2 f2 [(<- & <- & _)|[Hne H2]]%list_lookup_insert_Some; [split; [done|]; split; [by rewrite T1|lia]|by apply (go_file _ _ G k2)].
  - intros k2 f2 [(<- & <- & _)|[Hne H2]]%list_lookup_insert_Some; [done|]. pose proof (lookup_lt_Some _ _ _ H2).
    rewrite O', Hin by lia. by apply (go_inode _ _ G).
  - rewrite length_insert. intros i Hi. rewrite O', Hin by lia. apply (go_unused _ _ G). lia.
  - rewrite length_insert, N'. destruct L1 as [-> _]. done.
  - apply (meta_low (g_disk s)); [|apply G]. intros b Hb. rewrite M' by lia. apply L1. change nmeta with 47. lia.
Qed.

(** [ialloc] adds an empty file. *)
Lemma goodb_new s fs ty : goodb s fs -> goodb s (fs ++ [mkG ty [] 0 []]).
Proof.
  intros G. assert (forall k f j b, (fs ++ [mkG ty [] 0 []]) !! k = Some f -> slot f j = Some b -> fs !! k = Some f) as Hs.
  { intros k f j b [H|[_ H]]%lookup_app_Some Hb; [done|]. apply list_lookup_singleton_Some in H as [_ <-]. by destruct j. }
  split; try apply G.
  - intros k f j b Hk Hb. apply (gb_range _ _ G k f j); [by eapply Hs|done].
  - intros k k' f f' j j' b Hk Hk' Hb Hb'. apply (gb_inj _ _ G k k' f f' j j' b); try done; by eapply Hs.
  - intros k f [H|[_ H]]%lookup_app_Some; [by apply (gb_files _ _ G k)|]. apply list_lookup_singleton_Some in H as [_ <-].
    split; [left; split; [done|cbn; lia]|by exists O].
Qed.

Lemma ialloc_run s fs ty : good s fs -> (length fs < 206)%nat -> 0 <= ty < 2 ^ 15 ->
  exists s', ialloc ty s = Done (Z.of_nat (S (length fs))) s' /\ good s' (fs ++ [mkG ty [] 0 []]) /\ g_freeblock s' = g_freeblock s.
Proof.
  intros G Hl Hty. destruct (go_next _ _ G) as [Hn Hn']. unfold ialloc. kpure. rewrite Hn, u32_small by lia.
  rewrite (xshort_small ty) by lia. change (xshort 1) with 1. change (xint 0) with 0.
  set (f := mkG ty [] 0 []). change (replicate 13 0) with (addrs_of f). change (mkDinode ty 0 0 1 0 (addrs_of f)) with (din_of f).
  set (s0 := set_freeinode _ s). assert (goodb s0 (fs ++ [f])) as G0.
  { apply goodb_new. apply (goodb_low s); [apply G|done|done|]. intros b Hb. apply (go_blocks _ _ G). change nmeta with 47 in Hb. unfold FSSIZE. lia. }
  assert ((fs ++ [f]) !! length fs = Some f) as Hk by (by rewrite list_lookup_middle).
  assert (dinode_wf (din_of f)) as W by (eapply din_of_wf; [exact G0|exact Hk|unfold short, f; cbn [f_type]; lia|unfold f; cbn [f_data length]; lia]).
  destruct (winode_run s0 _ (Z.of_nat (S (length fs))) (din_of f) G0 ltac:(lia) W) as (s' & E' & G' & F' & N' & I' & O' & M').
  exists s'. split; [rewrite (bind_done _ _ _ _ _ E'); done|]. split; [|done]. split.
  - done.
  - intros k g [H|[_ H]]%lookup_app_Some; [by apply (go_file _ _ G k)|]. apply list_lookup_singleton_Some in H as [_ <-].
    unfold f. cbn [f_type f_data length].
    split; [split; [reflexivity|unfold shape; cbn; lia]|]. split; [unfold short; lia|lia].
  - intros k g [H|[H1 H]]%lookup_app_Some.
    + pose proof (lookup_lt_Some _ _ _ H). rewrite O' by lia. by apply (go_inode _ _ G).
    + apply list_lookup_singleton_Some in H as [H <-]. replace k with (length fs) by lia. done.
  - rewrite length_app. cbn [length]. intros i Hi. rewrite O' by lia. apply (go_unused _ _ G). lia.
  - rewrite length_app, N'. cbn [length]. split; [cbn; lia|lia].
  - apply (meta_low (g_disk s)); [|apply G]. intros b Hb. by rewrite M' by lia.
Qed.
