(* ===== verification/MkfsTheorems.v ===== *)
(** * The image as the kernel reads it

    The loop of mkfs over its arguments, and the file system it leaves: what the
    kernel's [readi], [dirlookup] and [balloc] find on it. *)

From S2P Require Import Prelude Riscv Kernel Mem Str Bio Log Fs BioSpec LogSpec CrashSpec TxnSpec LogTheorems BlockSpec BallocSpec InodeSpec ContentSpec DirSpec Mkfs MkfsSpec.

(** ** Arguments *)

Notation arg := (list Z * option (list (list Z)))%type.

(** The name and the contents of the file an argument stands for. *)
Definition file_name (a : arg) : list Z :=
  let shortname := short_name (fst a) in if byte_at shortname 0 =? 95 then drop 1 shortname else shortname.
Definition file_data (a : arg) : list Z := mjoin (default [] (snd a)).

(** An argument that the program accepts. *)
Definition accepted (a : arg) : Prop :=
  47 ∉ short_name (fst a) /\ strlen (file_name a) <= DIRSIZ /\ is_Some (snd a) /\ (length (file_data a) <= 268 * 1024)%nat.

(** The entries of the root directory. *)
Definition entries (l : list arg) : list (list Z) :=
  dirent_bytes 1 [46] :: dirent_bytes 1 [46; 46] :: imap (fun k a => dirent_bytes (Z.of_nat (k + 2)) (file_name a)) l.

(** The first block that is not used. *)
Definition space (l : list arg) : Z :=
  nmeta + need (16 * (2 + length l)) + foldr Z.add 0 ((fun a => need (length (file_data a))) <$> l).

(** The image when the files of [l] are on it. *)
Definition holds (s : image) (l : list arg) : Prop :=
  exists root fs, good s (root :: fs) /\ f_type root = T_DIR /\ f_data root = mjoin (entries l) /\
    Forall2 (fun a f => f_type f = T_FILE /\ f_data f = file_data a) l fs /\ g_freeblock s = space l.

Lemma dirent_with_bytes inum name : 0 <= inum < 2 ^ 16 ->
  dirent_with inum (strncpy name (Z.to_nat DIRSIZ)) = dirent_bytes inum name.
Proof.
  intros Hi. unfold dirent_with, dirent_bytes. rewrite xshort_small by done.
  pose proof (length_le_split 2 inum) as Hl. pose proof (length_strncpy (Z.to_nat DIRSIZ) name) as Hs. change (Z.to_nat DIRSIZ) with 14%nat in *.
  change 2%nat with (0 + 2)%nat at 1. rewrite <- Hl at 1. rewrite splice_splice; [|rewrite Hl, Hs; done].
  apply splice_all. rewrite length_app, Hl, Hs. done.
Qed.

Lemma entries_len l : Forall (fun b => length b = 16%nat) (entries l).
Proof.
  unfold entries. constructor; [apply dirent_length|]. constructor; [apply dirent_length|].
  apply Forall_lookup. intros i x Hx. apply list_lookup_imap_Some in Hx as (a & _ & ->). apply dirent_length.
Qed.

Lemma length_entries l : length (mjoin (entries l)) = (16 * (2 + length l))%nat.
Proof.
  rewrite (length_join 16) by apply entries_len. unfold entries. cbn [length]. rewrite length_imap. lia.
Qed.

Lemma entries_snoc l a : entries (l ++ [a]) = entries l ++ [dirent_bytes (Z.of_nat (length l + 2)) (file_name a)].
Proof. unfold entries. rewrite imap_app. cbn. by rewrite Nat.add_0_r. Qed.

Lemma need_pos n : 0 <= need n.
Proof. unfold need. destruct (decide _); lia. Qed.

Lemma sum_app l l' : foldr Z.add 0 ((fun a : arg => need (length (file_data a))) <$> (l ++ l')) =
  foldr Z.add 0 ((fun a => need (length (file_data a))) <$> l) + foldr Z.add 0 ((fun a => need (length (file_data a))) <$> l').
Proof. induction l as [|a l IH]; [done|]. cbn [app fmap list_fmap foldr]. unfold fmap in *. rewrite IH. lia. Qed.

Lemma space_prefix l l' : space l <= space (l ++ l').
Proof.
  unfold space. rewrite sum_app, length_app. pose proof (need_mono (16 * (2 + length l)) (16 * (2 + (length l + length l'))) ltac:(lia)).
  assert (0 <= foldr Z.add 0 ((fun a : arg => need (length (file_data a))) <$> l')); [|lia].
  induction l' as [|a l' IH]; [done|]. cbn [fmap list_fmap foldr]. pose proof (need_pos (length (file_data a))). unfold fmap in *. apply Z.add_nonneg_nonneg; [done|].
  apply IH. apply need_mono. lia.
Qed.

Lemma space_snoc l a : space (l ++ [a]) =
  space l - need (16 * (2 + length l)) + need (16 * (2 + length l) + 16) + need (length (file_data a)).
Proof.
  unfold space. rewrite sum_app, length_app. cbn [length]. replace (16 * (2 + (length l + 1)))%nat with (16 * (2 + length l) + 16)%nat by lia.
  replace (foldr Z.add 0 ((fun a => need (length (file_data a))) <$> [a])) with (need (length (file_data a))) by (cbn; lia). lia.
Qed.

(** Reading a file in pieces and appending each. *)
Lemma append_chunks chunks : forall s fs k f, good s fs -> fs !! k = Some f ->
  (length (f_data f) + length (mjoin chunks) <= 268 * 1024)%nat ->
  g_freeblock s + need (length (f_data f) + length (mjoin chunks)) - need (length (f_data f)) <= FSSIZE ->
  exists s' f', for_each chunks (iappend (Z.of_nat (S k))) s = Done tt s' /\ good s' (<[k := f']> fs) /\
    f_type f' = f_type f /\ f_data f' = f_data f ++ mjoin chunks /\
    g_freeblock s' = g_freeblock s + need (length (f_data f) + length (mjoin chunks)) - need (length (f_data f)).
Proof.
  induction chunks as [|c chunks IH]; intros s fs k f G Hk Hm Hsp.
  { exists s, f. rewrite list_insert_id by done. cbn [mjoin list_join length]. rewrite app_nil_r, Nat.add_0_r. split_and!; try done. lia. }
  rewrite join_cons, length_app in *. cbn [for_each].
  pose proof (need_mono (length (f_data f) + length c) (length (f_data f) + (length c + length (mjoin chunks))) ltac:(lia)).
  destruct (iappend_run s fs k f c G Hk ltac:(lia) ltac:(lia)) as (s1 & f1 & E1 & G1 & T1 & D1 & F1).
  rewrite (bind_done _ _ _ _ _ E1). pose proof (lookup_lt_Some _ _ _ Hk).
  assert (length (f_data f1) = length (f_data f) + length c)%nat as Hl1 by (by rewrite D1, length_app).
  destruct (IH s1 (<[k := f1]> fs) k f1 G1) as (s' & f' & E' & G' & T' & D' & F').
  - by apply list_lookup_insert_eq.
  - lia.
  - rewrite Hl1, F1. rewrite <- Nat.add_assoc. lia.
  - exists s', f'. split; [done|]. rewrite list_insert_insert_eq in G'. split; [done|]. split; [congruence|].
    split; [by rewrite D', D1, <- app_assoc|]. rewrite F', F1, Hl1, <- Nat.add_assoc. lia.
Qed.

(** One argument. *)
Lemma add_file_run s l a : holds s l -> accepted a -> (length l < 198)%nat -> space (l ++ [a]) <= FSSIZE ->
  exists s', add_file ROOTINO a s = Done tt s' /\ holds s' (l ++ [a]).
Proof.
  intros (root & fs & G & Tr & Dr & HF & Fb) (Hsl & Hlen & [chunks Hch] & Hsz) Hl Hsp.
  pose proof (Forall2_length _ _ _ HF) as Hlf. unfold add_file, assert. rewrite bool_decide_false by done. cbn [negb]. kpure.
  rewrite Hch. fold (file_name a). change (if byte_at (short_name a.1) 0 =? 95 then drop 1 (short_name a.1) else short_name a.1) with (file_name a).
  rewrite (proj2 (Z.leb_le _ _)) by done. kpure.
  destruct (ialloc_run s (root :: fs) T_FILE G) as (s1 & E1 & G1 & F1); [cbn [length]; lia|unfold T_FILE; lia|].
  rewrite (bind_done _ _ _ _ _ E1). cbn [length]. replace (Z.of_nat (S (S (length fs)))) with (Z.of_nat (length l + 2)) by lia.
  rewrite dirent_with_bytes by lia. set (de := dirent_bytes _ _).
  assert (length de = 16%nat) as Hde by apply dirent_length.
  assert (length (f_data root) = 16 * (2 + length l))%nat as Hlr by (rewrite Dr; apply length_entries).
  assert (file_data a = mjoin chunks) as Hfd by (unfold file_data; by rewrite Hch).
  rewrite space_snoc in Hsp. pose proof (need_pos (length (file_data a))).
  destruct (iappend_run s1 _ 0 root de G1 eq_refl) as (s2 & root' & E2 & G2 & T2 & D2 & F2); [lia|rewrite Hlr, Hde; lia|].
  change (Z.of_nat 1) with ROOTINO in E2. rewrite (bind_done _ _ _ _ _ E2). change (<[0%nat := root']> ((root :: fs) ++ ?x)) with (root' :: (fs ++ x)) in G2.
  set (f0 := mkG T_FILE [] 0 []) in *.
  destruct (append_chunks chunks s2 (root' :: fs ++ [f0]) (S (length fs)) f0 G2) as (s3 & f & E3 & G3 & T3 & D3 & F3).
  { change ((fs ++ [f0]) !! length fs = Some f0). by rewrite list_lookup_middle. }
  { unfold f0. cbn [f_data length]. rewrite <- Hfd. lia. }
  { unfold f0. cbn [f_data length Nat.add]. rewrite <- Hfd, F2, F1, Fb, Hlr, Hde. change (need 0) with 0. lia. }
  exists s3. replace (Z.of_nat (S (S (length fs)))) with (Z.of_nat (length l + 2)) in E3 by lia. split; [done|].
  change (<[S (length fs) := f]> (root' :: fs ++ [f0])) with (root' :: <[length fs := f]> (fs ++ [f0])) in G3.
  rewrite insert_app_r_alt, Nat.sub_diag in G3 by lia. cbn [insert list_insert] in G3.
  exists root', (fs ++ [f]). split; [exact G3|]. split; [congruence|]. split; [|split].
  - rewrite D2, Dr, entries_snoc, join_app. cbn. by rewrite app_nil_r.
  - apply Forall2_app; [done|]. constructor; [|constructor]. split; [done|]. rewrite D3, Hfd. done.
  - rewrite F3, F2, F1, Fb, Hlr, Hde. unfold f0. cbn [f_data length]. rewrite Nat.add_0_l. rewrite <- Hfd. change (need 0) with 0.
    rewrite space_snoc. lia.
Qed.

(** ** The whole program *)

Lemma wipe n : forall i s, (i + n <= 2000)%nat ->
  exists s', for_each (seq i n) (fun i => wsect (Z.of_nat i) zeroes) s = Done tt s' /\
    g_freeinode s' = g_freeinode s /\ g_freeblock s' = g_freeblock s /\
    forall b, g_disk s' !! b = if decide (Z.of_nat i <= b < Z.of_nat (i + n)) then Some zeroes else g_disk s !! b.
Proof.
  induction n as [|n IH]; intros i s Hi; cbn [seq for_each].
  { exists s. split; [done|]. split; [done|]. split; [done|]. intros b. by rewrite decide_False by lia. }
  rewrite wsect_run by (unfold FSSIZE; lia).
  destruct (IH (S i) (set_disk (<[Z.of_nat i := zeroes]> (g_disk s)) s) ltac:(lia)) as (s' & E & F1 & F2 & HD).
  exists s'. split; [done|]. split; [done|]. split; [done|]. intros b. rewrite HD. cbn [g_disk set_disk].
  destruct (decide (b = Z.of_nat i)) as [->|Hne]; [rewrite decide_False, decide_True, lookup_insert_eq by lia; done|].
  rewrite lookup_insert_ne by done. repeat case_decide; first [done | lia].
Qed.

(** After the super block is written. *)
Lemma started_image D : (forall b, 0 <= b < FSSIZE -> D !! b = Some zeroes) ->
  good (mkImage (<[1 := splice zeroes 0 (superblock_bytes sb)]> D) 1 nmeta) [].
Proof.
  intros HD. assert (length (splice zeroes 0 (superblock_bytes sb)) = Z.to_nat BSIZE) as Hl by (vm_compute; done).
  split; cbn [g_disk g_freeinode g_freeblock length].
  - split; cbn [g_disk g_freeinode g_freeblock]; try done.
    + intros b Hb. destruct (decide (b = 1)) as [->|Hne]; [rewrite lookup_insert_eq; by eexists|].
      rewrite lookup_insert_ne, HD by lia. eexists. split; [done|apply length_zeroes].
    + intros b Hb. change nmeta with 47 in Hb. rewrite lookup_insert_ne by lia. apply HD. lia.
  - done.
  - done.
  - intros i Hi. unfold dinode_in. pose proof (IBLOCK_range i ltac:(lia)). rewrite lookup_insert_ne, HD by (unfold FSSIZE; lia).
    cbn [from_option id]. unfold dinode_at. cbn [di_type]. rewrite ufield_zeroes. done.
  - split; [done|lia].
  - split; [apply lookup_insert_eq|]. intros b Hb. rewrite lookup_insert_ne by lia. apply HD. unfold FSSIZE. lia.
Qed.

Lemma root_made s : good s [] -> g_freeblock s = nmeta -> exists s0 s1 s2,
  ialloc T_DIR s = Done ROOTINO s0 /\ iappend ROOTINO (dirent_with ROOTINO [46; 0]) s0 = Done tt s1 /\
  iappend ROOTINO (dirent_with ROOTINO [46; 46; 0]) s1 = Done tt s2 /\ holds s2 [].
Proof.
  intros G Hf. destruct (ialloc_run s [] T_DIR G) as (s0 & E0 & G0 & F0); [cbn [length]; lia|unfold T_DIR; lia|].
  change (dirent_with ROOTINO [46; 0]) with (dirent_bytes 1 [46]). change (dirent_with ROOTINO [46; 46; 0]) with (dirent_bytes 1 [46; 46]).
  cbn [app] in G0. set (f0 := mkG T_DIR [] 0 []) in *. set (d1 := dirent_bytes 1 [46]). set (d2 := dirent_bytes 1 [46; 46]).
  assert (length d1 = 16%nat /\ length d2 = 16%nat) as [Hd1 Hd2] by done.
  assert (length (f_data f0) = 0%nat) as Hl0 by done.
  destruct (iappend_run s0 [f0] 0 f0 d1 G0 eq_refl) as (s1 & f1 & E1 & G1 & T1 & D1 & F1); [lia|rewrite Hl0, Hd1, F0, Hf; by vm_compute|].
  cbn [insert list_insert] in G1. assert (length (f_data f1) = 16%nat) as Hl1 by (by rewrite D1, length_app, Hd1).
  assert (g_freeblock s1 = 48) as Hf1 by (rewrite F1, Hl0, Hd1, F0, Hf; reflexivity).
  destruct (iappend_run s1 [f1] 0 f1 d2 G1 eq_refl) as (s2 & f2 & E2 & G2 & T2 & D2 & F2); [lia|rewrite Hl1, Hd2, Hf1; by vm_compute|].
  exists s0, s1, s2. split; [done|]. split; [done|]. split; [done|]. exists f2, []. split; [done|]. split; [by rewrite T2, T1|].
  split; [by rewrite D2, D1|]. split; [constructor|]. rewrite F2, Hl1, Hd2, Hf1. reflexivity.
Qed.

Lemma files_run l2 : forall s l1, holds s l1 -> Forall accepted l2 -> (length l1 + length l2 <= 198)%nat -> space (l1 ++ l2) <= FSSIZE ->
  exists s', for_each l2 (add_file ROOTINO) s = Done tt s' /\ holds s' (l1 ++ l2).
Proof.
  induction l2 as [|a l2 IH]; intros s l1 Hs Ha Hl Hsp; [exists s; by rewrite app_nil_r|].
  apply Forall_cons in Ha as [Ha Hal]. cbn [length] in Hl. cbn [for_each].
  replace (l1 ++ a :: l2) with ((l1 ++ [a]) ++ l2) in * by (by rewrite <- app_assoc).
  pose proof (space_prefix (l1 ++ [a]) l2).
  destruct (add_file_run s l1 a Hs Ha ltac:(lia) ltac:(lia)) as (s1 & E1 & H1). rewrite (bind_done _ _ _ _ _ E1).
  apply IH; [done|done|rewrite length_app; cbn [length]; lia|done].
Qed.

Lemma mark_bits n : Z.of_nat n <= 8192 -> length (mark n zeroes) = 1024%nat /\
  forall b, 0 <= b < 8192 -> bit (mark n zeroes) b = bool_decide (b < Z.of_nat n).
Proof.
  induction n as [|n IH]; intros Hn; cbn [mark].
  { split; [done|]. intros b Hb. rewrite bool_decide_false by lia. unfold bit, zeroes, byte_at. rewrite lookup_replicate_2; [apply Z.testbit_0_l|].
    change (Z.to_nat BSIZE) with 1024%nat. Z.div_mod_to_equations. lia. }
  destruct (IH ltac:(lia)) as [Hl Hb]. split; [by rewrite length_bitmap_set|]. intros b Hb'.
  rewrite bitmap_set_bit by (rewrite ?Hl; lia). rewrite Hb by done. repeat case_bool_decide; lia || done.
Qed.

(** The image when the program ends. *)
Record made (s : image) (l : list arg) (root : gfile) (fs : list gfile) : Prop := {
  md_blocks : goodb s (root :: fs);
  md_file : forall k f, (root :: fs) !! k = Some f -> exact f;
  md_root : dinode_in (g_disk s) sb ROOTINO =
    mkDinode T_DIR 0 0 1 ((Z.of_nat (16 * (2 + length l)) / BSIZE + 1) * BSIZE) (addrs_of root);
  md_root_data : f_data root = mjoin (entries l);
  md_files : Forall2 (fun a f => f_data f = file_data a) l fs;
  md_inode : forall k f, fs !! k = Some f -> dinode_in (g_disk s) sb (Z.of_nat (k + 2)) =
    mkDinode T_FILE 0 0 1 (Z.of_nat (length (f_data f))) (addrs_of f);
  md_unused : forall i, Z.of_nat (length l + 2) <= i < 208 -> di_type (dinode_in (g_disk s) sb i) = 0;
  md_next : g_freeblock s = space l;
  md_map : g_disk s !! 46 = Some (mark (Z.to_nat (space l)) zeroes)
}.

Lemma finish s l : holds s l -> (length l <= 198)%nat -> exists s' root fs,
  (let* din := rinode ROOTINO in
   let off := xint (di_size din) in
   let off := u32 ((off / BSIZE + 1) * BSIZE) in
   winode ROOTINO (set_isize din (xint off)) ;;
   let* s := get in
   balloc (g_freeblock s)) s = Done tt s' /\ made s' l root fs /\ meta (g_disk s').
Proof.
  intros (root & fs & G & Tr & Dr & HF & Fb) Hl. pose proof (Forall2_length _ _ _ HF) as Hlf.
  pose proof (go_blocks _ _ G) as GB. pose proof (gb_fb _ _ GB) as Hfb. change nmeta with 47 in Hfb.
  rewrite (bind_done _ _ _ _ _ (rinode_run s _ ROOTINO GB ltac:(unfold ROOTINO; lia))).
  change (dinode_in (g_disk s) sb ROOTINO) with (dinode_in (g_disk s) sb (Z.of_nat 1)). rewrite (go_inode _ _ G 0 root eq_refl). unfold din_of. cbn [di_size]. rewrite Dr, length_entries.
  set (n := Z.of_nat (16 * (2 + length l))). assert (0 <= n <= 3200) as Hn by (unfold n; lia). rewrite (xint_small n) by lia.
  assert (0 <= (n / BSIZE + 1) * BSIZE <= 4096) as Hsz by (clearbody n; unfold BSIZE; Z.div_mod_to_equations; lia).
  rewrite u32_small, xint_small by lia. unfold set_isize. cbn [di_type di_major di_minor di_nlink di_addrs]. rewrite Tr.
  destruct (go_file _ _ G 0 root eq_refl) as (He & Hty & Hlr).
  pose proof (din_of_wf s _ 0 root GB eq_refl Hty Hlr) as W.
  set (x := mkDinode T_DIR 0 0 1 ((n / BSIZE + 1) * BSIZE) (addrs_of root)).
  assert (dinode_wf x) as Wx.
  { split; unfold x; cbn [di_type di_size di_major di_minor di_nlink di_addrs]; [unfold short, T_DIR; lia|done|done|done|lia|apply W|apply W]. }
  destruct (winode_run s _ ROOTINO x GB ltac:(unfold ROOTINO; lia) Wx) as (s1 & E1 & G1 & F1 & N1 & I1 & O1 & M1).
  rewrite (bind_done _ _ _ _ _ E1). kpure. unfold balloc, assert. rewrite F1, Fb in *.
  rewrite (proj2 (Z.ltb_lt _ _)) by (change BPB with 8192; unfold FSSIZE in *; lia). kpure.
  destruct (mark_bits (Z.to_nat (space l))) as [Hml _]; [unfold FSSIZE in *; lia|].
  eexists _, root, fs. split; [unfold wsect, modify; change (sector (sb_bmapstart sb)) with 46; done|].
  assert (forall i, 0 <= i < 208 -> dinode_in (<[46 := mark (Z.to_nat (space l)) zeroes]> (g_disk s1)) sb i = dinode_in (g_disk s1) sb i) as Hin.
  { intros i Hi. unfold dinode_in. pose proof (IBLOCK_range i Hi). by rewrite lookup_insert_ne by lia. }
  split; [|apply (meta_low (g_disk s)); [|apply G]; intros b Hb; cbn; rewrite lookup_insert_ne by lia; apply M1; lia].
  split; cbn [g_disk g_freeblock set_disk].
  - apply (goodb_low s1); [done|done| |]; cbn [g_disk set_disk]; intros b Hb; change nmeta with 47 in Hb.
    + by rewrite lookup_insert_ne by lia.
    + destruct (decide (b = 46)) as [->|]; [rewrite lookup_insert_eq; by eexists|]. rewrite lookup_insert_ne by done.
      apply G1. unfold FSSIZE. lia.
  - intros k f Hk. by apply (go_file _ _ G k).
  - rewrite Hin by (unfold ROOTINO; lia). exact I1.
  - done.
  - eapply Forall2_impl; [exact HF|]. by intros a f [_ H].
  - intros k f Hk. pose proof (lookup_lt_Some _ _ _ Hk). rewrite Hin, O1 by (unfold ROOTINO; lia).
    replace (k + 2)%nat with (S (S k)) by lia. rewrite (go_inode _ _ G (S k) f Hk). unfold din_of.
    destruct (Forall2_lookup_r _ _ _ _ _ HF Hk) as (a & _ & -> & _). done.
  - intros i Hi. rewrite Hin, O1 by (unfold ROOTINO; lia). apply (go_unused _ _ G). cbn [length]. lia.
  - done.
  - apply lookup_insert_eq.
Qed.

Lemma mkfs_run l : Forall accepted l -> (length l <= 198)%nat -> space l <= FSSIZE ->
  exists s root fs, mkfs l empty_image = Done tt s /\ made s l root fs /\ meta (g_disk s).
Proof.
  intros Ha Hl Hsp. unfold mkfs. kpure.
  destruct (wipe (Z.to_nat FSSIZE) 0 (set_freeblock nmeta empty_image)) as (s0 & E0 & N0 & F0 & D0); [change (Z.to_nat FSSIZE) with 2000%nat; lia|].
  rewrite (bind_done _ _ _ _ _ E0), wsect_run by (unfold FSSIZE; lia). cbn [g_freeinode g_freeblock set_freeblock empty_image] in N0, F0.
  set (s1 := set_disk _ s0). assert (good s1 []) as G1.
  { assert (s1 = mkImage (<[1 := splice zeroes 0 (superblock_bytes sb)]> (g_disk s0)) 1 nmeta) as -> by (unfold s1, set_disk; by rewrite N0, F0).
    apply started_image. intros b Hb. rewrite D0, decide_True; [done|]. change (Z.to_nat FSSIZE) with 2000%nat. unfold FSSIZE in Hb. lia. }
  destruct (root_made s1 G1 F0) as (s2 & s3 & s4 & E2 & E3 & E4 & H4).
  rewrite (bind_done _ _ _ _ _ E2). change (ROOTINO =? ROOTINO) with true. unfold assert at 1. kpure.
  rewrite (bind_done _ _ _ _ _ E3), (bind_done _ _ _ _ _ E4).
  destruct (files_run l s4 [] H4 Ha ltac:(cbn [length]; lia) Hsp) as (s5 & E5 & H5). rewrite (bind_done _ _ _ _ _ E5).
  by apply finish.
Qed.

(** ** What the kernel reads *)

(** The inode the kernel's [ilock] reads from the disk. *)
Definition inode_at (D : gmap Z (list Z)) (inum : Z) : inode :=
  let d := dinode_in D sb inum in
  mkInode ROOTDEV inum 1 None true (di_type d) (di_major d) (di_minor d) (di_nlink d) (di_size d) (di_addrs d).

Section contents.
Variables (s : image) (fs : list gfile) (k : nat) (f : gfile) (i : inode).
Hypothesis G : goodb s fs.
Hypothesis Hk : fs !! k = Some f.
Hypothesis He : exact f.
Hypothesis Hdev : i_dev i = ROOTDEV.
Hypothesis Hadr : i_addrs i = addrs_of f.
Hypothesis Hsz : 0 <= i_size i <= 268 * 1024.
Hypothesis Hnb : nblocks i = Z.of_nat (length (f_blocks f)).
Notation D := (g_disk s).

Lemma made_addr bn b : f_blocks f !! bn = Some b -> file_addr D i (Z.of_nat bn) = b.
Proof.
  intros Hb. pose proof (lookup_lt_Some _ _ _ Hb) as Hl. unfold file_addr. rewrite Hadr. destruct (Z.ltb_spec (Z.of_nat bn) NDIRECT) as [Hlt|Hge]; unfold NDIRECT in *.
  - rewrite Nat2Z.id, addrs_direct by lia. by rewrite Hb.
  - change (Z.to_nat 12) with 12%nat. rewrite addrs_ind. cbn [from_option id].
    assert (f_ind f <> 0) as Hi by (destruct He as [_ Hs]; apply Hs; lia).
    destruct (ob_ind _ _ (gb_files _ _ G _ _ Hk)) as [[? _]|[_ H]]; [done|].
    assert (bn - 12 < 256)%nat as Hj.
    { pose proof (nblocks_bounds i ltac:(lia)) as [Hn _]. unfold BSIZE in Hn. rewrite Hnb in Hn. lia. }
    replace (Z.of_nat bn - 12) with (Z.of_nat (bn - 12)) by lia. change (default [] (D !! f_ind f)) with (blk D (f_ind f)).
    rewrite (H _ Hj). replace (12 + (bn - 12))%nat with bn by lia. by rewrite Hb.
Qed.

Lemma made_slot bn : 0 <= bn < nblocks i -> exists b d, f_blocks f !! Z.to_nat bn = Some b /\ file_addr D i bn = b /\
  47 <= b < FSSIZE /\ D !! b = Some d /\ length d = Z.to_nat BSIZE.
Proof.
  intros Hbn. destruct (lookup_lt_is_Some_2 (f_blocks f) (Z.to_nat bn) ltac:(lia)) as [b Hb].
  pose proof (gb_range _ _ G _ _ (S (Z.to_nat bn)) _ Hk Hb) as Hr. change nmeta with 47 in Hr. pose proof (gb_fb _ _ G).
  destruct (gb_disk _ _ G b) as (d & Hd & Hl); [lia|]. exists b, d. split; [done|]. split; [|split; [lia|done]].
  rewrite <- (made_addr _ _ Hb). f_equal. lia.
Qed.

Lemma made_file_ok : file_ok D 2 i.
Proof.
  split; [done|change (MAXFILE * BSIZE) with (268 * 1024); done|..].
  - intros bn Hbn. destruct (made_slot bn Hbn) as (b & d & _ & -> & Hr & _). lia.
  - intros bn Hbn. destruct (made_slot bn Hbn) as (b & d & _ & E & Hr & Hd & Hl). unfold file_block. rewrite E, Hd. cbn [from_option id].
    split; [|done]. split; [unfold FSSIZE in *; lia|]. split; [unfold in_log, LOGBLOCKS; loglia|by eexists].
  - intros bn bn' Hbn Hbn' E. destruct (made_slot bn Hbn) as (b & d & Hb & E1 & _), (made_slot bn' Hbn') as (b' & d' & Hb' & E2 & _).
    rewrite E1, E2 in E. subst b'. destruct (gb_inj _ _ G _ _ _ _ (S (Z.to_nat bn)) (S (Z.to_nat bn')) b Hk Hk Hb Hb'). lia.
  - intros Hn. assert (f_ind f <> 0) as Hi by (destruct He as [_ Hs]; apply Hs; unfold NDIRECT in Hn; lia).
    assert (slot f 0 = Some (f_ind f)) as Hs0 by (cbn; by rewrite decide_False).
    pose proof (gb_range _ _ G _ _ _ _ Hk Hs0) as Hr. change nmeta with 47 in Hr. pose proof (gb_fb _ _ G).
    destruct (gb_disk _ _ G (f_ind f)) as (d & Hd & Hl); [lia|]. exists (f_ind f), d. rewrite Hadr. split_and!; try done.
    intros bn Hbn E. destruct (made_slot bn Hbn) as (b & d' & Hb & E1 & _). rewrite E1 in E. subst b.
    by destruct (gb_inj _ _ G _ _ _ _ (S (Z.to_nat bn)) 0%nat _ Hk Hk Hb Hs0).
Qed.

Lemma made_contents : exists z, contents D i = take (Z.to_nat (i_size i)) (f_data f ++ replicate z 0) /\
  (length (f_data f) + z = 1024 * length (f_blocks f))%nat.
Proof.
  destruct (ob_data _ _ (gb_files _ _ G _ _ Hk)) as [z Hz].
  assert (file_blocks D i = blk D <$> f_blocks f) as E.
  { apply list_eq. intros j. unfold file_blocks. rewrite !list_lookup_fmap. destruct (f_blocks f !! j) as [b|] eqn:Eb.
    - pose proof (lookup_lt_Some _ _ _ Eb). rewrite lookup_seqZ_lt, Z.add_0_l by lia. cbn. unfold file_block, blk. by rewrite (made_addr _ _ Eb).
    - apply lookup_ge_None in Eb. rewrite lookup_seqZ_ge by lia. done. }
  exists z. unfold contents. rewrite E, Hz. split; [done|].
  assert (Forall (fun b => length b = 1024%nat) (blk D <$> f_blocks f)) as HF.
  { apply Forall_fmap, Forall_lookup. intros j b Hb. cbn. destruct (made_slot (Z.of_nat j)) as (b' & d & Hb' & _ & _ & Hd & Hl).
    - pose proof (lookup_lt_Some _ _ _ Hb). lia.
    - rewrite Nat2Z.id, Hb in Hb'. injection Hb' as <-. unfold blk. by rewrite Hd. }
  pose proof (length_join 1024 _ HF) as HL. rewrite Hz, length_app, length_replicate, length_fmap in HL. lia.
Qed.
End contents.

Section image.
Variables (s : image) (l : list arg) (root : gfile) (fs : list gfile).
Hypothesis Md : made s l root fs.
Hypothesis Hl : (length l <= 198)%nat.
Notation D := (g_disk s).

Lemma nblocks_size i n : i_size i = Z.of_nat n -> nblocks i = Z.of_nat (nb n).
Proof. intros E. unfold nblocks, nb. rewrite E, Nat2Z.inj_div. f_equal. unfold BSIZE. lia. Qed.

(** A file of the image. *)
Lemma image_file k a : l !! k = Some a -> (length (file_data a) <= 268 * 1024)%nat ->
  let i := inode_at D (Z.of_nat (k + 2)) in
  file_ok D 2 i /\ i_type i = T_FILE /\ i_nlink i = 1 /\ contents D i = file_data a.
Proof.
  intros Hk Hsz i. destruct (Forall2_lookup_l _ _ _ _ _ (md_files _ _ _ _ Md) Hk) as (f & Hf & Ef).
  unfold i, inode_at. rewrite (md_inode _ _ _ _ Md k f Hf). cbn [di_type di_major di_minor di_nlink di_size di_addrs]. set (j := mkInode _ _ _ _ _ _ _ _ _ _ _).
  assert (exact f) as He by (by apply (md_file _ _ _ _ Md (S k))). pose proof (md_blocks _ _ _ _ Md) as G.
  assert (nblocks j = Z.of_nat (length (f_blocks f))) as Hn by (rewrite (nblocks_size j (length (f_data f))) by done; by rewrite (proj1 He)).
  assert (0 <= i_size j <= 268 * 1024) as Hs by (unfold j; cbn [i_size]; rewrite Ef; lia).
  split; [by apply (made_file_ok s (root :: fs) (S k) f j)|]. split; [done|]. split; [done|].
  destruct (made_contents s (root :: fs) (S k) f j G Hf He eq_refl Hs Hn) as (z & -> & _). unfold j. cbn [i_size].
  rewrite Nat2Z.id, take_app_length. exact Ef.
Qed.

(** The root directory. *)
Lemma image_root : ((16 * (2 + length l)) mod 1024 <> 0)%nat -> let i := inode_at D ROOTINO in
  file_ok D 2 i /\ i_type i = T_DIR /\ i_size i mod sizeof_dirent = 0 /\
  exists z, contents D i = mjoin (entries l) ++ replicate (16 * z) 0.
Proof.
  intros Hmod i. unfold i, inode_at. rewrite (md_root _ _ _ _ Md). cbn [di_type di_major di_minor di_nlink di_size di_addrs].
  set (n := (16 * (2 + length l))%nat) in *. set (j := mkInode _ _ _ _ _ _ _ _ _ _ _). pose proof (md_blocks _ _ _ _ Md) as G.
  assert (exact root) as He by (by apply (md_file _ _ _ _ Md 0)). assert (length (f_data root) = n) as Hn by (rewrite (md_root_data _ _ _ _ Md); apply length_entries).
  pose proof (Nat.div_mod n 1024 ltac:(lia)) as Hdm. pose proof (Nat.mod_upper_bound n 1024 ltac:(lia)) as Hub.
  assert (nb n = S (n / 1024)) as Hnb by (unfold nb; symmetry; apply (Nat.div_unique _ 1024 _ (n mod 1024 - 1)); lia).
  assert (i_size j = 1024 * Z.of_nat (nb n)) as Hsz by (unfold j; cbn [i_size]; rewrite Hnb, Nat2Z.inj_succ, Nat2Z.inj_div; unfold BSIZE; change (Z.of_nat 1024) with 1024; lia).
  assert (n <= 3200)%nat as Hn3 by (unfold n; lia).
  assert (nb n <= 4)%nat as Hnb4 by (rewrite Hnb; lia).
  assert (nblocks j = Z.of_nat (length (f_blocks root))) as Hbl.
  { destruct He as [-> _]. rewrite Hn. unfold nblocks. rewrite Hsz. unfold BSIZE. Z.div_mod_to_equations. lia. }
  assert (0 <= i_size j <= 268 * 1024) as Hs by lia.
  split; [by apply (made_file_ok s (root :: fs) 0 root j)|]. split; [done|]. split; [rewrite Hsz; change sizeof_dirent with 16; Z.div_mod_to_equations; lia|].
  destruct (made_contents s (root :: fs) 0 root j G eq_refl He eq_refl Hs Hbl) as (z & -> & Hz). rewrite (md_root_data _ _ _ _ Md) in Hz |- *.
  destruct He as [He _]. rewrite He, (md_root_data _ _ _ _ Md), length_entries in Hz. fold n in Hz.
  rewrite take_ge by (rewrite length_app, length_replicate, length_entries; fold n; lia).
  exists (z / 16)%nat. do 2 f_equal. assert (z mod 16 = 0)%nat.
  { assert (z = 16 * (64 * nb n - (2 + length l)))%nat as -> by (unfold n in *; lia). rewrite Nat.mul_comm. apply Nat.Div0.mod_mul. }
  pose proof (Nat.div_mod z 16 ltac:(lia)). lia.
Qed.

Lemma image_used b : 0 <= b < FSSIZE -> used D sb b = bool_decide (b < space l).
Proof.
  intros Hb. unfold used, BBLOCK. rewrite sb_value. cbn [sb_bmapstart]. change BPB with 8192. unfold FSSIZE in Hb.
  rewrite Z.div_small, Z.mod_small by lia. rewrite Z.add_0_l, (md_map _ _ _ _ Md). cbn [from_option id].
  pose proof (gb_fb _ _ (md_blocks _ _ _ _ Md)) as Hfb. rewrite (md_next _ _ _ _ Md) in Hfb. change nmeta with 47 in Hfb. unfold FSSIZE in Hfb.
  destruct (mark_bits (Z.to_nat (space l)) ltac:(lia)) as [_ ->]; [|lia]. by rewrite Z2Nat.id by lia.
Qed.

Lemma image_layout : layout D 2 sb.
Proof.
  pose proof (gb_fb _ _ (md_blocks _ _ _ _ Md)) as Hfb. rewrite (md_next _ _ _ _ Md) in Hfb. change nmeta with 47 in Hfb.
  assert (forall b, 0 <= b < FSSIZE -> BBLOCK b sb = 46) as HB.
  { intros b Hb. unfold BBLOCK. rewrite sb_value. cbn [sb_bmapstart]. change BPB with 8192. unfold FSSIZE in Hb. by rewrite Z.div_small by lia. }
  change (sb_size sb) with FSSIZE. split; change (sb_size sb) with FSSIZE.
  - unfold FSSIZE. lia.
  - intros b Hb. rewrite HB by done. destruct (mark_bits (Z.to_nat (space l))) as [Hm _]; [unfold FSSIZE in *; lia|]. split.
    + split; [lia|]. split; [loglia|]. rewrite (md_map _ _ _ _ Md). by eexists.
    + eexists. split; [apply (md_map _ _ _ _ Md)|done].
  - intros b Hb Hu. rewrite image_used in Hu by done. apply bool_decide_eq_false in Hu.
    destruct (gb_disk _ _ (md_blocks _ _ _ _ Md) b ltac:(lia)) as (d & Hd & _). split.
    + split; [unfold FSSIZE in *; lia|]. split; [loglia|by eexists].
    + intros b' Hb'. rewrite HB by done. lia.
Qed.
End image.

(** The entries of a sequence of entries. *)
Lemma dents_join bs : Forall (fun b => length b = 16%nat) bs -> dents (mjoin bs) = bs.
Proof.
  intros HF. assert (length (mjoin bs) / DE = length bs)%nat as Hd by (rewrite (length_join 16) by done; change DE with 16%nat; by apply Nat.div_mul).
  apply list_eq. intros k. destruct (bs !! k) as [b|] eqn:Eb.
  - pose proof (lookup_lt_Some _ _ _ Eb). rewrite dents_lookup by (rewrite Hd; done). f_equal. change DE with 16%nat.
    replace (16 * k)%nat with (k * 16 + 0)%nat by lia. rewrite (take_drop_join 16 bs k b 0 16) by (done || lia). rewrite drop_0.
    apply take_ge. rewrite Forall_lookup in HF. by rewrite (HF _ _ Eb).
  - apply lookup_ge_None in Eb. apply lookup_ge_None. rewrite length_dents, Hd. done.
Qed.

Lemma dents_entries l z : dents (mjoin (entries l) ++ replicate (16 * z) 0) = entries l ++ replicate z (replicate 16 0).
Proof.
  replace (replicate (16 * z) 0) with (mjoin (replicate z (replicate 16 0))).
  - rewrite <- join_app. apply dents_join. apply Forall_app. split; [apply entries_len|]. apply Forall_replicate. done.
  - induction z as [|z IH]; [done|]. change (replicate (S z) (replicate 16 0)) with (replicate 16 0 :: replicate z (replicate 16 0)). rewrite join_cons, IH, <- replicate_add. f_equal. lia.
Qed.

Lemma parse_sb_bytes : parse_sb (splice zeroes 0 (superblock_bytes sb)) = sb.
Proof. vm_compute. done. Qed.

(** ** Theorems *)

(** The file system that mkfs makes is one the kernel can use. Given files
    that fit, mkfs ends, and on its image the kernel finds the super block, an
    empty log, a bitmap in which exactly the blocks up to the last one used are
    marked, the root directory with the entries of the files, in order, followed
    by empty ones, and in each file exactly the bytes that were read from the
    host. *)
Theorem mkfs_correct l : Forall accepted l -> (length l <= 198)%nat -> space l <= FSSIZE ->
  ((16 * (2 + length l)) mod 1024 <> 0)%nat ->
  exists s, mkfs l empty_image = Done tt s /\
    parse_sb (blk (g_disk s) 1) = sb /\ (forall b, 2 <= b < 33 -> g_disk s !! b = Some zeroes) /\
    layout (g_disk s) 2 sb /\ (forall b, 0 <= b < FSSIZE -> used (g_disk s) sb b = bool_decide (b < space l)) /\
    (let i := inode_at (g_disk s) ROOTINO in
     file_ok (g_disk s) 2 i /\ i_type i = T_DIR /\
     exists z, dents (contents (g_disk s) i) = entries l ++ replicate z (replicate 16 0)) /\
    (forall k a, l !! k = Some a -> let i := inode_at (g_disk s) (Z.of_nat (k + 2)) in
     file_ok (g_disk s) 2 i /\ i_type i = T_FILE /\ i_nlink i = 1 /\ contents (g_disk s) i = file_data a).
Proof.
  intros Ha Hl Hsp Hmod. destruct (mkfs_run l Ha Hl Hsp) as (s & root & fs & E & Md & M1 & M2). exists s. split; [done|].
  split; [unfold blk; rewrite M1; apply parse_sb_bytes|]. split; [done|].
  split; [by eapply image_layout|]. split; [by eapply image_used|]. split.
  - destruct (image_root s l root fs Md Hl Hmod) as (H1 & H2 & H3 & z & Hc). cbn zeta. rewrite Hc. split; [done|]. split; [done|].
    exists z. apply dents_entries.
  - intros k a Hk. eapply image_file; [done|done|done|]. eapply Forall_lookup_1 in Ha; [|done]. apply Ha.
Qed.
