(* ===== verification/MkfsBoot.v ===== *)
(** * Booting from the image

    The kernel's first steps on a disk that mkfs made: [binit], [iinit] and
    [fsinit], then [namei] and [readi] of a file that was given to mkfs. *)

From S2P Require Import Prelude Riscv Kernel Mem Str Bio Log Fs BioSpec LogSpec CrashSpec TxnSpec LogTheorems BlockSpec BallocSpec InodeSpec ContentSpec DirSpec Mkfs MkfsSpec MkfsTheorems.

(** ** What the cache and the log leave alone *)

(** An operation that changes neither the inode table nor the super block. *)
Definition leaves {A} (c : M fsstate A) : Prop :=
  forall s r s', c s = Done r s' -> x_itable s' = x_itable s /\ x_sb s' = x_sb s.

Lemma leaves_bind {A B} (c : M fsstate A) (k : A -> M fsstate B) : leaves c -> (forall r, leaves (k r)) -> leaves (bind c k).
Proof.
  intros Hc Hk s r s' E. unfold bind in E. destruct (c s) as [a s1| | | |] eqn:E1; try done.
  destruct (Hc _ _ _ E1) as [<- <-]. by apply (Hk a _ r).
Qed.
Lemma leaves_ret {A} (a : A) : leaves (ret a).
Proof. intros s r s' [= <- <-]. done. Qed.
Lemma leaves_get : leaves get.
Proof. intros s r s' [= <- <-]. done. Qed.
Lemma leaves_panic {A} m : leaves (panic m : M fsstate A).
Proof. by intros s r s' E. Qed.
Lemma leaves_badptr {A} : leaves (badptr : M fsstate A).
Proof. by intros s r s' E. Qed.
Lemma leaves_block {A} : leaves (block : M fsstate A).
Proof. by intros s r s' E. Qed.
Lemma leaves_modify f : (forall s, x_itable (f s) = x_itable s /\ x_sb (f s) = x_sb s) -> leaves (modify f).
Proof. intros Hf s r s' [= <- <-]. apply Hf. Qed.
Lemma leaves_for_each {A} (l : list A) body : (forall a, leaves (body a)) -> leaves (for_each l body).
Proof. intros Hb. induction l as [|a l IH]; cbn [for_each]; [apply leaves_ret|by apply leaves_bind]. Qed.
Lemma leaves_getb b : leaves (getb b).
Proof. intros s r s' E. unfold getb in E. destruct (x_bufs s !! b); by inversion E. Qed.
Lemma leaves_modb b f : leaves (modb b f).
Proof. intros s r s' E. unfold modb in E. destruct (x_bufs s !! b); by inversion E. Qed.
Lemma leaves_disk_read b : leaves (disk_read b).
Proof. intros s r s' E. unfold disk_read in E. destruct (x_disk s !! b); by inversion E. Qed.
Lemma leaves_disk_write b d : leaves (disk_write b d).
Proof. intros s r s' E. unfold disk_write in E. destruct (x_disk s !! b); by inversion E. Qed.

Create HintDb leaves.
#[export] Hint Resolve leaves_ret leaves_get leaves_panic leaves_badptr leaves_block leaves_getb leaves_modb leaves_disk_read leaves_disk_write : leaves.

Ltac leaves_tac := repeat first
  [ by auto with leaves
  | apply leaves_bind; [|intros ?]
  | apply leaves_modify; by intros [] 
  | apply leaves_for_each; intros ?
  | match goal with |- leaves (if ?b then _ else _) => destruct b end
  | match goal with |- leaves (match ?x with _ => _ end) => destruct x end ].

Section leaves.
Context `{Self}.
Lemma leaves_binit : leaves binit.
Proof. unfold binit. leaves_tac. Qed.
Lemma leaves_bread d n : leaves (bread d n).
Proof. unfold bread, bget, lock_buf, acquiresleep. leaves_tac. Qed.
Lemma leaves_brelse b : leaves (brelse b).
Proof. unfold brelse. leaves_tac. Qed.
Lemma leaves_bwrite b : leaves (bwrite b).
Proof. unfold bwrite. leaves_tac. Qed.
Hint Resolve leaves_bread leaves_brelse leaves_bwrite : leaves.
Lemma leaves_recover : leaves recover_from_log.
Proof.
  unfold recover_from_log, read_head, install_trans, install_one, write_head, getlog, modlog, bunpin, fsprint. leaves_tac.
Qed.
Lemma leaves_begin_op : leaves begin_op.
Proof. unfold begin_op, getlog, modlog. leaves_tac. Qed.
End leaves.

(** ** Booting *)

Section boot.
Context `{Self}.
Variable D : gmap Z (list Z).
Hypothesis Hsb : D !! 1 = Some (splice zeroes 0 (superblock_bytes sb)).
Hypothesis Hlog : forall b, 2 <= b < 33 -> D !! b = Some zeroes.
Hypothesis Hinodes : forall b, 33 <= b < 46 -> is_Some (D !! b).
Hypothesis Horphan : forall i, 1 <= i < 200 -> di_type (dinode_in D sb i) = 0 \/ di_nlink (dinode_in D sb i) <> 0.
Notation table := (replicate (Z.to_nat NINODE) zero_inode).

Lemma iinit_run s : x_itable s = table -> iinit s = Done tt s.
Proof.
  intros Ht. unfold iinit. assert (forall l, Forall (fun i => (i < Z.to_nat NINODE)%nat) l ->
    for_each l (fun i => modi (Z.of_nat i + 1) (set_i_lock None)) s = Done tt s) as Hf.
  { induction 1 as [|i l Hi _ IH]; [done|]. cbn [for_each].
    assert (table !! i = Some zero_inode) as Hz by (by apply lookup_replicate_2).
    assert (modi (Z.of_nat i + 1) (set_i_lock None) s = Done tt s) as Em; [|by rewrite (bind_done _ _ _ _ _ Em)].
    unfold modi. rewrite (proj2 (Z.ltb_ge _ _)) by lia. replace (Z.to_nat (Z.of_nat i + 1 - 1)) with i by lia.
    rewrite Ht, Hz. f_equal. change (set_i_lock None zero_inode) with zero_inode. rewrite list_insert_id by done. rewrite <- Ht. by destruct s. }
  apply Hf. apply Forall_lookup. intros i x [-> Hi]%lookup_seq. done.
Qed.

Lemma readsb_run s : bcache s D ∅ -> exists s', readsb ROOTDEV s = Done tt s' /\ bcache s' D ∅ /\
  x_log s' = x_log s /\ x_itable s' = x_itable s /\ x_sb s' = sb.
Proof.
  intros C. destruct (bread_fresh s D ∅ 1 _ C (lookup_empty _) Hsb) as (i & bufs & R & C1); [rewrite map_size_empty; unfold NBUF, MAXOPBLOCKS; lia|].
  set (h := mkH i 1 (Some self_pid) _) in C1. set (s1 := set_x_bufs bufs s) in *.
  assert (bcache (set_x_sb sb s1) D (<[1 := h]> ∅)) as C2 by (by eapply bcache_ext; [..|exact C1]).
  destruct (brelse_last _ _ _ 1 h C2) as (bufs' & lru & R' & C3); [apply lookup_insert_eq|done|done|exact Hsb|].
  rewrite delete_insert_eq, delete_empty in C3.
  eexists. split; [|split; [exact C3|by destruct s]].
  unfold readsb. kstep by exact R. destruct (bc_held _ _ _ C1 1 h (lookup_insert_eq _ _ _)) as [Hx _].
  kstep by (apply getb_eq; exact Hx). kpure.
  change (b_data (hbuf_buf 1 h)) with (splice zeroes 0 (superblock_bytes sb)). rewrite parse_sb_bytes. exact R'.
Qed.

(** The log is empty, so recovery changes nothing outside it. *)
Lemma initlog_run s : bcache s D ∅ -> x_log s = zero_log -> exists s' D', initlog ROOTDEV sb s = Done tt s' /\ txn s' D' ∅ ∅ /\
  lg_start (x_log s') = 2 /\ lg_outstanding (x_log s') = 0 /\ lg_committing (x_log s') = false /\
  x_itable s' = x_itable s /\ x_sb s' = x_sb s /\ forall x, ~ in_log 2 x -> D' !! x = D !! x.
Proof.
  intros C Hl. unfold initlog, modlog. kpure. set (s1 := set_x_log _ s).
  assert (bcache s1 D ∅) as C1 by (by eapply bcache_ext; [..|exact C]).
  assert (recoverable 2 D zeroes 0 (fun _ => [])) as Rv.
  { split; try done; [by apply Hlog| |lia].
    intros i Hi. unfold LOGBLOCKS, MAXOPBLOCKS in Hi. eexists. apply Hlog. lia. }
  assert (lg_start (x_log s1) = 2) as E1 by (unfold s1; xsimpl; reflexivity).
  destruct (recover_spec s1 D zeroes 0 (fun _ => []) C1) as (s2 & D' & R2 & X & F1 & F2 & F3 & F4);
    [done|by unfold s1; xsimpl; rewrite Hl|by rewrite E1|].
  rewrite E1 in F1, F4. unfold s1 in F2, F3. xsimpl in *. rewrite Hl in F2, F3.
  destruct (leaves_recover _ _ _ R2) as [L1 L2]. exists s2, D'. by split_and!.
Qed.

Lemma ireclaim_run s D' : txn s D' ∅ ∅ -> x_sb s = sb -> (forall x, ~ in_log 2 x -> D' !! x = D !! x) ->
  exists s', ireclaim ROOTDEV s = Done tt s' /\ txn s' D' ∅ ∅ /\ x_log s' = x_log s /\ x_itable s' = x_itable s /\ x_sb s' = x_sb s.
Proof.
  intros X Hs HD. unfold ireclaim, getsb. kpure. rewrite Hs. change (sb_ninodes sb - 1) with 199.
  assert (Forall (fun i => 1 <= i < 200) (seqZ 1 199)) as Hall by (apply Forall_forall; intros i Hi%elem_of_seqZ; lia).
  revert s X Hs. induction Hall as [|i l Hi _ IH]; intros s X Hs; [by exists s|]. cbn [for_each].
  assert (exists s1, ireclaim_one ROOTDEV i s = Done tt s1 /\ txn s1 D' ∅ ∅ /\ wrote s s1 []) as (s1 & R1 & X1 & (_ & W2 & W3 & W4)).
  { pose proof (IBLOCK_range i ltac:(lia)) as Hr. destruct (Hinodes _ Hr) as [d Hd].
    assert ((∅ ∪ D') !! IBLOCK i sb = Some d) as Hd' by (rewrite (left_id_L ∅ (∪)), HD by loglia; done).
    assert (lh_n (x_log s) = 0) as Hn by (pose proof (tx_size _ _ _ _ X) as E; rewrite map_size_empty in E; pose proof (tx_n _ _ _ _ X); lia).
    destruct (busy_bread _ _ _ _ _ _ X ltac:(rewrite Hn; unfold NBUF, MAXOPBLOCKS; lia) Hd') as (b & s1 & R1 & Bz).
    destruct (busy_brelse _ _ _ _ _ _ _ _ Bz Hd') as (s2 & R2 & X2 & W2). exists s2. split; [|done].
    unfold ireclaim_one, getsb. kpure. rewrite Hs. kstep by exact R1. kstep by (by eapply busy_getb). cbn [b_data hbuf_buf h_data].
    assert (dinode_at d (dinode_off i) = dinode_in D sb i) as Ed by (unfold dinode_in; by rewrite Hd).
    cbn zeta. rewrite Ed.
    assert (negb (di_type (dinode_in D sb i) =? 0) && (di_nlink (dinode_in D sb i) =? 0) = false) as ->.
    { destruct (Horphan i Hi) as [->|Hn1]; [done|]. rewrite (proj2 (Z.eqb_neq _ _) Hn1). apply andb_false_r. }
    kpure. kstep by exact R2. done. }
  rewrite (bind_done _ _ _ _ _ R1). destruct (IH s1 X1 ltac:(congruence)) as (s' & R' & X' & E1 & E2 & E3).
  exists s'. split; [done|]. split; [done|]. split_and!; congruence.
Qed.

(** [binit], [iinit] and [fsinit], then [begin_op]. *)
Lemma boot_run : exists s V, (binit ;; iinit ;; fsinit ROOTDEV ;; begin_op) (boot D) = Done tt s /\
  view s V 2 ∅ /\ x_sb s = sb /\ x_itable s = table /\ forall x, ~ in_log 2 x -> V !! x = D !! x.
Proof.
  destruct (binit_boot D) as (s0 & R0 & C0 & L0). destruct (leaves_binit _ _ _ R0) as [T0 _].
  rewrite (bind_done _ _ _ _ _ R0), (bind_done _ _ _ _ _ (iinit_run s0 T0)).
  destruct (readsb_run s0 C0) as (s1 & R1 & C1 & L1 & T1 & S1). unfold fsinit. rewrite bind_assoc, (bind_done _ _ _ _ _ R1).
  unfold getsb. kpure. rewrite S1. change (negb (sb_magic sb =? FSMAGIC)) with false. cbn iota.
  destruct (initlog_run s1 C1) as (s2 & D' & R2 & X2 & L2 & O2 & K2 & T2 & S2 & HD); [by rewrite L1|].
  rewrite bind_assoc, (bind_done _ _ _ _ _ R2).
  destruct (ireclaim_run s2 D' X2 ltac:(congruence) HD) as (s3 & R3 & X3 & L3 & T3 & S3). rewrite (bind_done _ _ _ _ _ R3).
  assert (lh_n (x_log s3) = 0) as Hn by (pose proof (tx_size _ _ _ _ X3) as E; rewrite map_size_empty in E; pose proof (tx_n _ _ _ _ X3); lia).
  unfold begin_op, getlog, modlog. kpure. rewrite L3 in Hn |- *. rewrite K2, Hn, O2. change (LOGBLOCKS <? _) with false. cbn iota.
  eexists _, D'. split; [done|]. split.
  - exists D', ∅, ∅. split; [by eapply (txn_ext s3); [..|exact X3]|]. rewrite (left_id_L ∅ (∪)), dom_empty_L.
    split; [done|]. split; [done|]. xsimpl. rewrite L3. split; [done|]. rewrite O2. lia.
  - split; [xsimpl; congruence|]. split; [xsimpl; by rewrite T3, T2, T1, T0|done].
Qed.
End boot.

(** ** Names *)

(** A name as it can be a path element. *)
Definition plain (name : list Z) : Prop := name <> [] /\ Forall (fun b => 0 < b < 256 /\ b <> 47) name /\ (length name <= 14)%nat.

Lemma cstr_plain name : Forall (fun b => 0 < b < 256) name -> cstr name = name.
Proof. induction 1 as [|b l Hb _ IH]; [done|]. cbn. destruct (Z.eqb_spec b 0); [lia|]. by rewrite IH. Qed.

Lemma bytes_ok_plain name : Forall (fun b => 0 < b < 256) name -> bytes_ok name.
Proof. intros Hn. eapply Forall_impl; [exact Hn|]. cbn. lia. Qed.

(** Comparing a name with the name of an entry. *)
Lemma named_entry name nm inum : Forall (fun b => 0 < b < 256) name -> Forall (fun b => 0 < b < 256) nm ->
  (length name <= 14)%nat -> (length nm <= 14)%nat -> 0 < inum < 2 ^ 16 -> named name (dirent_bytes inum nm) <-> name = nm.
Proof.
  intros Hn Hm Ln Lm Hi. split.
  - intros [_ E]. unfold namecmp, de_name, dirent_bytes in E.
    rewrite drop_app_length', take_ge in E by (rewrite ?length_le_split, ?length_strncpy; done).
    apply strncmp_zero in E; [|by apply bytes_ok_plain|by apply bytes_ok_strncpy, bytes_ok_plain].
    rewrite strncpy_cstr, take_take, Nat.min_id, !cstr_plain in E by done. change (Z.to_nat DIRSIZ) with 14%nat in E.
    by rewrite !take_ge in E by lia.
  - intros ->. apply dirent_named; [by apply bytes_ok_plain|done].
Qed.

Lemma skipelem_plain name : plain name -> skipelem (47 :: name) = Some (name, []).
Proof.
  intros (Hne & Hf & Hl). unfold skipelem. assert (skip_slashes (47 :: name) = name) as ->.
  { cbn. destruct name as [|b r]; [done|]. apply Forall_cons in Hf as [Hb _]. cbn. by rewrite (proj2 (Z.eqb_neq _ _)) by lia. }
  assert (byte_at name 0 =? 0 = false) as ->.
  { destruct name as [|b r]; [done|]. apply Forall_cons in Hf as [Hb _]. cbn. apply Z.eqb_neq. lia. }
  assert (path_elem name = name) as ->.
  { clear Hne Hl. induction Hf as [|b r Hb _ IH]; [done|]. cbn. rewrite !(proj2 (Z.eqb_neq _ _)) by lia. cbn. by rewrite IH. }
  rewrite drop_ge by done. by rewrite take_ge by (change (Z.to_nat DIRSIZ) with 14%nat; lia).
Qed.

(** An argument whose name is a C string. *)
Definition cname (a : arg) : Prop := accepted a /\ Forall (fun b => 0 < b < 256) (fst a) /\ file_name a <> [].

Lemma cname_plain a : cname a -> plain (file_name a).
Proof.
  intros ((H1 & H2 & _) & H3 & H4). split; [done|].
  assert (Forall (fun b => 0 < b < 256 /\ b <> 47) (short_name (fst a))) as Hs.
  { apply Forall_forall. intros b Hb. split; [|by intros ->]. rewrite Forall_forall in H3. apply H3.
    unfold short_name in Hb. destruct (_ =? 0); [|done].
    rewrite <- (take_drop 5 (fst a)). apply elem_of_app. by right. }
  assert (Forall (fun b => 0 < b < 256 /\ b <> 47) (file_name a)) as Hf.
  { unfold file_name. destruct (_ =? 95); [by apply Forall_drop|done]. }
  split; [done|]. rewrite strlen_cstr, cstr_plain in H2 by (eapply Forall_impl; [exact Hf|]; by intros b [? _]).
  unfold DIRSIZ in H2. lia.
Qed.

Lemma plain_bytes name : plain name -> Forall (fun b => 0 < b < 256) name.
Proof. intros (_ & Hf & _). eapply Forall_impl; [exact Hf|]. by intros b [? _]. Qed.

(** The entry of a file in the root directory. *)
Lemma find_entry l k a rest : Forall cname l -> (length l <= 198)%nat -> l !! k = Some a ->
  file_name a <> [46] -> file_name a <> [46; 46] -> (forall j a', (j < k)%nat -> l !! j = Some a' -> file_name a' <> file_name a) ->
  list_find (named (file_name a)) (entries l ++ rest) = Some ((k + 2)%nat, dirent_bytes (Z.of_nat (k + 2)) (file_name a)).
Proof.
  intros Hl Hlen Hk N1 N2 Hfirst. pose proof (lookup_lt_Some _ _ _ Hk) as Hlt. rewrite Forall_lookup in Hl.
  pose proof (cname_plain a (Hl _ _ Hk)) as Hp. pose proof (plain_bytes _ Hp) as Hb. destruct Hp as (_ & _ & Hn14).
  apply list_find_Some.
  assert (forall j a', l !! j = Some a' -> entries l !! (j + 2)%nat = Some (dirent_bytes (Z.of_nat (j + 2)) (file_name a'))) as He.
  { intros j a' Hj. replace (j + 2)%nat with (S (S j)) at 1 by lia. change (imap (fun k a => dirent_bytes (Z.of_nat (k + 2)) (file_name a)) l !! j = Some (dirent_bytes (Z.of_nat (j + 2)) (file_name a'))).
    rewrite list_lookup_imap, Hj. done. }
  split; [by apply lookup_app_l_Some, He|]. split; [apply named_entry; done || lia|].
  intros j y Hy Hj. assert (entries l !! j = Some y) as Hy'.
  { rewrite lookup_app_l in Hy; [done|]. unfold entries. cbn [length]. rewrite length_imap. lia. }
  destruct j as [|[|j]].
  - injection Hy' as <-. rewrite named_entry; [done|done|repeat constructor; lia|done|cbn; lia|lia].
  - injection Hy' as <-. rewrite named_entry; [done|done|repeat constructor; lia|done|cbn; lia|lia].
  - destruct (lookup_lt_is_Some_2 l j ltac:(lia)) as [a' Ha']. pose proof (He _ _ Ha') as Hy2. replace (j + 2)%nat with (S (S j)) in Hy2 by lia.
    rewrite Hy' in Hy2. injection Hy2 as ->. pose proof (cname_plain a' (Hl _ _ Ha')) as Hp'. pose proof (plain_bytes _ Hp') as Hb'. destruct Hp' as (_ & _ & Hn14').
    rewrite named_entry by (done || lia). intros E. apply (Hfirst j a'); [lia|done|done].
Qed.

(** ** Finding and reading a file *)

(** The image on the disk as the kernel sees it. *)
Lemma made_ext s l root fs V : made s l root fs -> (length l <= 198)%nat -> (forall x, ~ in_log 2 x -> V !! x = g_disk s !! x) ->
  made (set_disk V s) l root fs.
Proof.
  intros Md Hl HV. assert (forall b, 33 <= b -> V !! b = g_disk s !! b) as HV' by (intros b Hb; apply HV; loglia).
  assert (forall i, 0 <= i < 208 -> dinode_in V sb i = dinode_in (g_disk s) sb i) as Hin.
  { intros i Hi. unfold dinode_in. pose proof (IBLOCK_range i Hi). by rewrite HV' by lia. }
  pose proof (md_blocks _ _ _ _ Md) as G. pose proof (Forall2_length _ _ _ (md_files _ _ _ _ Md)) as Hlen.
  split; cbn [g_disk g_freeblock set_disk]; [|apply (md_file _ _ _ _ Md)| |apply (md_root_data _ _ _ _ Md)|apply (md_files _ _ _ _ Md)| | |apply (md_next _ _ _ _ Md)|].
  - apply (goodb_low s); [done|done| |]; cbn [g_disk set_disk]; intros b Hb; change nmeta with 47 in Hb; rewrite HV' by lia; [done|].
    apply G. unfold FSSIZE. lia.
  - rewrite Hin by (unfold ROOTINO; lia). apply (md_root _ _ _ _ Md).
  - intros k f Hk. pose proof (lookup_lt_Some _ _ _ Hk). rewrite Hin by lia. by apply (md_inode _ _ _ _ Md).
  - intros i Hi. rewrite Hin by lia. by apply (md_unused _ _ _ _ Md).
  - rewrite HV' by lia. apply (md_map _ _ _ _ Md).
Qed.

Section lookup.
Context `{Self}.
Notation table := (replicate (Z.to_nat NINODE) zero_inode).

(** A table entry that [iget] has just taken, and one that [iput] gave up. *)
Definition taken (inum : Z) : inode := mkInode ROOTDEV inum 1 None false 0 0 0 0 0 (replicate 13 0).

Lemma scan_free x l i dev inum empty : i_ref x = 0 ->
  iget_scan (x :: l) i dev inum empty = iget_scan l (i + 1) dev inum (if empty =? 0 then i else empty).
Proof. intros Hr. cbn [iget_scan]. rewrite Hr. by rewrite andb_true_r. Qed.

Lemma scan_other x l i dev inum empty : 0 < i_ref x -> i_inum x <> inum ->
  iget_scan (x :: l) i dev inum empty = iget_scan l (i + 1) dev inum empty.
Proof.
  intros Hr Hi. cbn [iget_scan]. rewrite (proj2 (Z.eqb_neq _ _) Hi), andb_false_r, (proj2 (Z.eqb_neq (i_ref x) 0)) by lia.
  by rewrite andb_false_r.
Qed.

Lemma scan_zero n : forall i dev inum empty, empty <> 0 -> iget_scan (replicate n zero_inode) i dev inum empty = (empty, false).
Proof.
  induction n as [|n IH]; intros i dev inum empty He; [done|]. cbn [replicate]. rewrite scan_free by done.
  rewrite (proj2 (Z.eqb_neq empty 0)) by done. by apply IH.
Qed.

Lemma iget_first s inum : x_itable s = table -> iget ROOTDEV inum s = Done 1 (set_x_itable (<[0%nat := taken inum]> table) s).
Proof.
  intros Ht. unfold iget. kpure. rewrite Ht. assert (table = zero_inode :: replicate 49 zero_inode) as Et by reflexivity.
  rewrite Et, scan_free, Z.eqb_refl, scan_zero by done. change (1 =? 0) with false. cbv iota.
  rewrite (bind_done _ _ _ _ _ (modi_eq s 1 zero_inode _ ltac:(lia) ltac:(unfold itab; rewrite Ht, Et; reflexivity))). by rewrite Ht, Et.
Qed.

Lemma iget_second s x inum : x_itable s = <[0%nat := x]> table -> 0 < i_ref x -> i_inum x <> inum ->
  iget ROOTDEV inum s = Done 2 (set_x_itable (<[1%nat := taken inum]> (<[0%nat := x]> table)) s).
Proof.
  intros Ht Hr Hi. unfold iget. kpure. rewrite Ht. assert (<[0%nat := x]> table = x :: zero_inode :: replicate 48 zero_inode) as Et by reflexivity.
  rewrite Et, scan_other, scan_free, Z.eqb_refl, scan_zero by done. change (1 + 1) with 2. change (2 =? 0) with false. cbv iota.
  rewrite (bind_done _ _ _ _ _ (modi_eq s 2 zero_inode _ ltac:(lia) ltac:(unfold itab; rewrite Ht, Et; reflexivity))). by rewrite Ht, Et.
Qed.

Lemma file_ok_ext V start i i' : i_dev i' = i_dev i -> i_size i' = i_size i -> i_addrs i' = i_addrs i ->
  file_ok V start i -> file_ok V start i' /\ contents V i' = contents V i.
Proof. destruct i, i'. cbn. intros -> -> -> Fo. split; [|done]. destruct Fo. split; assumption. Qed.

(** Unlocking and releasing a directory whose only reference is ours. *)
Lemma iunlockput_run s x : itab s 1 = Some x -> i_lock x = Some self_pid -> i_ref x = 1 -> i_nlink x <> 0 ->
  iunlockput 1 s = Done tt (set_x_itable (<[0%nat := set_i_ref 0 (set_i_lock None x)]> (x_itable s)) s).
Proof.
  intros Hx Hl Hr Hn. unfold iunlockput, iunlock. change (1 =? 0) with false. cbv iota.
  kstep by (by apply geti_eq). unfold holdingsleep. rewrite Hl, bool_decide_true, Hr by done. change (negb true || (1 <? 1)) with false. cbv iota.
  kstep by (by apply (modi_eq s 1 x)). set (s1 := set_x_itable _ s).
  assert (itab s1 1 = Some (set_i_lock None x)) as H1 by (by eapply itab_insert).
  unfold iput. kstep by (by apply geti_eq). assert (i_nlink (set_i_lock None x) =? 0 = false) as -> by (apply Z.eqb_neq; by destruct x).
  rewrite andb_false_r. kpure. rewrite (modi_eq s1 1 _ _ ltac:(lia) H1). f_equal. unfold s1. xsimpl.
  assert (i_ref (set_i_lock None x) - 1 = 0) as -> by (destruct x; cbn in *; lia).
  change (Z.to_nat (1 - 1)) with 0%nat. rewrite list_insert_insert_eq. by destruct s.
Qed.

Lemma empty_small : Z.of_nat (size (∅ : gset Z)) < NBUF.
Proof. rewrite size_empty. unfold NBUF, MAXOPBLOCKS. lia. Qed.

(** [ilock] of a table entry that [iget] has just taken. *)
Lemma ilock_taken V s1 ip inum d : view s1 V 2 ∅ -> x_sb s1 = sb -> 1 <= ip -> itab s1 ip = Some (taken inum) ->
  V !! IBLOCK inum sb = Some d -> di_type (dinode_in V sb inum) <> 0 ->
  exists s', ilock ip s1 = Done tt s' /\ view s' V 2 ∅ /\ x_sb s' = sb /\
    x_itable s' = <[Z.to_nat (ip - 1) := load_inode self_pid (dinode_in V sb inum) (taken inum)]> (x_itable s1).
Proof.
  intros Hv1 Hs1 Hp Ht Hd Hty.
  destruct (ilock_spec s1 V 2 ∅ ip (taken inum) d Hv1 empty_small Hp Ht) as (s' & E & Hv' & Hs' & _ & HT);
    rewrite ?Hs1; try done. rewrite Hs1 in HT, Hs'. by exists s'.
Qed.

Section image.
Variables (s : fsstate) (V : gmap Z (list Z)) (m : image) (l : list arg) (root : gfile) (fs : list gfile).
Hypothesis Hv : view s V 2 ∅.
Hypothesis Hsb : x_sb s = sb.
Hypothesis Hit : x_itable s = table.
Hypothesis HV : g_disk m = V.
Hypothesis Md : made m l root fs.
Hypothesis Hl : (length l <= 198)%nat.

(** Locking the root. *)
Lemma root_locked : ((16 * (2 + length l)) mod 1024 <> 0)%nat -> exists s' r, (let* ip := iget ROOTDEV ROOTINO in ilock ip ;; ret ip) s = Done 1 s' /\
  view s' V 2 ∅ /\ x_sb s' = sb /\ x_itable s' = <[0%nat := r]> table /\ i_type r = T_DIR /\ i_lock r = Some self_pid /\ i_ref r = 1 /\
  i_nlink r <> 0 /\ i_inum r = ROOTINO /\ file_ok V 2 r /\ i_size r mod sizeof_dirent = 0 /\
  exists z, dents (contents V r) = entries l ++ replicate z (replicate 16 0).
Proof.
  intros Hmod. rewrite (bind_done _ _ _ _ _ (iget_first s ROOTINO Hit)). set (s1 := set_x_itable _ s).
  assert (view s1 V 2 ∅) as Hv1 by (by eapply view_ext; [..|exact Hv]).
  pose proof (md_root _ _ _ _ Md) as Hr. rewrite HV in Hr.
  destruct (gb_disk _ _ (md_blocks _ _ _ _ Md) 33) as (d & Hd & _); [unfold FSSIZE; lia|]. rewrite HV in Hd.
  destruct (ilock_taken V s1 1 ROOTINO d Hv1) as (s' & E & Hv' & Hs' & HT); [unfold s1; by destruct s|done|reflexivity|exact Hd|by rewrite Hr|].
  rewrite (bind_done _ _ _ _ _ E). change (Z.to_nat (1 - 1)) with 0%nat in HT. unfold s1 in HT. xsimpl in *. rewrite list_insert_insert_eq in HT.
  set (r := load_inode _ _ _) in HT. exists s', r.
  destruct (image_root m l root fs Md Hl Hmod) as (I1 & I2 & I3 & z & I4). rewrite HV in I1, I2, I3, I4.
  destruct (file_ok_ext V 2 (inode_at V ROOTINO) r) as [F1 F2]; [done|done|done|exact I1|].
  split_and!; try done.
  - unfold r. cbn [load_inode i_type]. by rewrite Hr.
  - exists z. rewrite F2, I4. apply dents_entries.
Qed.

(** [namei] of a file in the root. *)
Lemma namei_run k a : ((16 * (2 + length l)) mod 1024 <> 0)%nat -> Forall cname l -> l !! k = Some a ->
  file_name a <> [46] -> file_name a <> [46; 46] -> (forall j a', (j < k)%nat -> l !! j = Some a' -> file_name a' <> file_name a) ->
  exists s' x, namei (47 :: file_name a) s = Done 2 s' /\ view s' V 2 ∅ /\ x_sb s' = sb /\
    x_itable s' = <[1%nat := taken (Z.of_nat (k + 2))]> (<[0%nat := x]> table).
Proof.
  intros Hmod Hc Hk N1 N2 Hfirst. pose proof (lookup_lt_Some _ _ _ Hk) as Hlt.
  assert (plain (file_name a)) as Hp by (apply cname_plain; by eapply Forall_lookup_1).
  destruct (root_locked Hmod) as (s1 & r & E1 & Hv1 & Hs1 & HT1 & R1 & R2 & R3 & R4 & R5 & Fo & Rm & z & Hd).
  rewrite (bind_done _ _ _ _ _ (iget_first s ROOTINO Hit)) in E1.
  unfold namei, namex. change (byte_at (47 :: file_name a) 0 =? 47) with true. cbv iota. rewrite bind_assoc.
  rewrite (bind_done _ _ _ _ _ (iget_first s ROOTINO Hit)). cbn [length namex_loop]. rewrite skipelem_plain by done.
  destruct (ilock 1 (set_x_itable (<[0%nat := taken ROOTINO]> table) s)) as [[] s1'| | | |] eqn:El; unfold bind in E1 at 1; rewrite El in E1; try done.
  injection E1 as ->. rewrite bind_assoc, (bind_done _ _ _ _ _ El).
  assert (itab s1 1 = Some r) as Hr by (unfold itab; rewrite HT1; reflexivity).
  rewrite bind_assoc, (bind_done _ _ _ _ _ (geti_eq s1 1 r ltac:(lia) Hr)), R1. change (negb (T_DIR =? T_DIR)) with false. cbv iota.
  cbn [andb].
  destruct (dirlookup_spec V 2 1 r ltac:(lia) R1 Rm Fo (file_name a) s1 ∅ Hv1 empty_small Hr) as (s2 & Hv2 & (K1 & K2 & _) & E2).
  rewrite Hd, (find_entry l k a _ Hc Hl Hk N1 N2 Hfirst) in E2. cbn [found] in E2.
  rewrite (proj1 (dirent_named (Z.of_nat (k + 2)) (file_name a) (bytes_ok_plain _ (plain_bytes _ Hp)) ltac:(lia))) in E2.
  rewrite (bind_done _ _ _ _ _ (iget_second s2 r (Z.of_nat (k + 2)) ltac:(by rewrite K2) ltac:(lia) ltac:(rewrite R5; unfold ROOTINO; lia))) in E2.
  rewrite bind_assoc, (bind_done _ _ _ _ _ E2). change (2 =? 0) with false. cbv iota.
  set (s3 := set_x_itable _ s2) in *. rewrite bind_assoc.
  rewrite (bind_done _ _ _ _ _ (iunlockput_run s3 r ltac:(reflexivity) R2 R3 R4)). cbn [length namex_loop].
  change (skipelem []) with (@None (list Z * list Z)). kpure. eexists _, _. split; [done|]. split; [|split].
  - eapply view_ext; [..|exact Hv2]; by unfold s3.
  - unfold s3. xsimpl. congruence.
  - unfold s3. xsimpl. rewrite list_insert_insert_ne, list_insert_insert_eq by done. done.
Qed.
End image.
End lookup.

(** No inode of the image is an orphan. *)
Lemma made_no_orphan m l root fs i : made m l root fs -> 1 <= i < 200 ->
  di_type (dinode_in (g_disk m) sb i) = 0 \/ di_nlink (dinode_in (g_disk m) sb i) <> 0.
Proof.
  intros Md Hi. pose proof (Forall2_length _ _ _ (md_files _ _ _ _ Md)) as Hlen. destruct (decide (i = 1)) as [->|Hne].
  { right. change 1 with ROOTINO. rewrite (md_root _ _ _ _ Md). cbn. lia. }
  destruct (decide (i < Z.of_nat (length l + 2))) as [Hlt|Hge]; [right|left; apply (md_unused _ _ _ _ Md); lia].
  destruct (lookup_lt_is_Some_2 fs (Z.to_nat (i - 2)) ltac:(lia)) as [f Hf].
  replace i with (Z.of_nat (Z.to_nat (i - 2) + 2)) by lia. rewrite (md_inode _ _ _ _ Md _ f Hf). cbn. lia.
Qed.

(** ** Theorem *)

(** C15: The kernel boots from what mkfs makes and reads back every file. On the
    image that mkfs makes from a list of files, [binit], [iinit] and [fsinit]
    succeed; then, inside an operation, [namei] of a slash and the name of a file
    finds its inode, [ilock] loads it, and [readi] of the file's length returns
    exactly the bytes that were given to mkfs. *)
Theorem mkfs_boot `{Self} l k a : Forall cname l -> (length l <= 198)%nat -> space l <= FSSIZE ->
  ((16 * (2 + length l)) mod 1024 <> 0)%nat -> l !! k = Some a -> file_name a <> [46] -> file_name a <> [46; 46] ->
  (forall j a', (j < k)%nat -> l !! j = Some a' -> file_name a' <> file_name a) ->
  exists m, mkfs l empty_image = Done tt m /\ exists s,
    (binit ;; iinit ;; fsinit ROOTDEV ;; begin_op ;;
     let* ip := namei (47 :: file_name a) in
     ilock ip ;;
     readi ip 0 (Z.of_nat (length (file_data a)))) (boot (g_disk m)) = Done (file_data a) s.
Proof.
  intros Hc Hl Hsp Hmod Hk N1 N2 Hfirst.
  assert (Forall accepted l) as Ha by (eapply Forall_impl; [exact Hc|]; by intros ? [? _]).
  destruct (mkfs_run l Ha Hl Hsp) as (m & root & fs & E & Md & M1 & M2). exists m. split; [done|].
  destruct (boot_run (g_disk m) M1 M2) as (s & V & Eb & Hv & Hsb & Hit & HV).
  { intros b Hb. destruct (gb_disk _ _ (md_blocks _ _ _ _ Md) b) as (d & Hd & _); [unfold FSSIZE; lia|by eexists]. }
  { intros i Hi. by eapply made_no_orphan. }
  pose proof (made_ext m l root fs V Md Hl HV) as MV. set (mv := set_disk V m) in *.
  destruct (namei_run s V mv l root fs Hv Hsb Hit eq_refl MV Hl k a Hmod Hc Hk N1 N2 Hfirst) as (s1 & x & E1 & Hv1 & Hs1 & HT1).
  assert (length (file_data a) <= 268 * 1024)%nat as Hlen by (eapply Forall_lookup_1 in Ha; [|exact Hk]; apply Ha).
  destruct (image_file mv l root fs MV Hl k a Hk Hlen) as (F1 & F2 & F3 & F4). change (g_disk mv) with V in *.
  destruct (Forall2_lookup_l _ _ _ _ _ (md_files _ _ _ _ MV) Hk) as (f & Hf & _). pose proof (md_inode _ _ _ _ MV k f Hf) as Hdin.
  change (g_disk mv) with V in Hdin.
  pose proof (lookup_lt_Some _ _ _ Hk). pose proof (IBLOCK_range (Z.of_nat (k + 2)) ltac:(lia)).
  destruct (gb_disk _ _ (md_blocks _ _ _ _ MV) (IBLOCK (Z.of_nat (k + 2)) sb)) as (d & Hd & _); [unfold FSSIZE; lia|].
  destruct (ilock_taken V s1 2 (Z.of_nat (k + 2)) d Hv1 Hs1) as (s2 & E2 & Hv2 & Hs2 & HT2); [lia|unfold itab; rewrite HT1; reflexivity|done|by rewrite Hdin|].
  set (j := load_inode _ _ _) in HT2. destruct (file_ok_ext V 2 (inode_at V (Z.of_nat (k + 2))) j) as [G1 G2]; [done|done|done|exact F1|].
  assert (itab s2 2 = Some j) as Hj by (unfold itab; rewrite HT2, HT1; reflexivity).
  destruct (readi_spec s2 V 2 ∅ 2 j 0 (Z.of_nat (length (file_data a))) Hv2 empty_small ltac:(lia) Hj G1) as (s3 & E3 & _); [lia|lia|lia|].
  exists s3.
  apply bind_inv in Eb as ([] & t1 & B1 & Eb). apply bind_inv in Eb as ([] & t2 & B2 & Eb). apply bind_inv in Eb as ([] & t3 & B3 & B4).
  rewrite (bind_done _ _ _ _ _ B1), (bind_done _ _ _ _ _ B2), (bind_done _ _ _ _ _ B3), (bind_done _ _ _ _ _ B4).
  rewrite (bind_done _ _ _ _ _ E1), (bind_done _ _ _ _ _ E2), E3, G2, F4. by rewrite drop_0, take_ge by lia.
Qed.

(** ** Examples *)

(** user/_cat, read in two pieces, and README. *)
Definition demo_files : list arg :=
  [([117; 115; 101; 114; 47; 95; 99; 97; 116], Some [[127; 69; 76; 70]; [1; 2]]); ([82; 69; 65; 68; 77; 69], Some [[72; 105; 10]])].

Lemma demo_cnames : Forall cname demo_files.
Proof.
  unfold demo_files. repeat apply Forall_cons_2; [..|apply Forall_nil_2].
  all: split; [split; [by apply (bool_decide_unpack _); vm_compute|]; split; [by vm_compute|]; split; [by eexists|]|split; [repeat constructor; lia|by vm_compute]].
  all: match goal with |- (?n <= _)%nat => let m := eval vm_compute in n in change n with m; lia end.
Qed.

Lemma mkfs_correct_witness : exists s, mkfs demo_files empty_image = Done tt s /\
  contents (g_disk s) (inode_at (g_disk s) 2) = [127; 69; 76; 70; 1; 2].
Proof.
  destruct (mkfs_correct demo_files) as (s & E & _ & _ & _ & _ & _ & HF).
  - eapply Forall_impl; [exact demo_cnames|]. by intros a [? _].
  - cbn. lia.
  - by vm_compute.
  - by vm_compute.
  - exists s. split; [exact E|]. by destruct (HF 0%nat _ eq_refl) as (_ & _ & _ & Hc).
Defined.

Lemma mkfs_boot_witness : exists m s, mkfs demo_files empty_image = Done tt m /\
  (binit ;; iinit ;; @fsinit demo_self ROOTDEV ;; begin_op ;;
   let* ip := @namei demo_self [47; 82; 69; 65; 68; 77; 69] in
   @ilock demo_self ip ;;
   @readi demo_self ip 0 3) (boot (g_disk m)) = Done [72; 105; 10] s.
Proof.
  destruct (@mkfs_boot demo_self demo_files 1 ([82; 69; 65; 68; 77; 69], Some [[72; 105; 10]])) as (m & E & s & Es).
  - exact demo_cnames.
  - cbn. lia.
  - by vm_compute.
  - by vm_compute.
  - done.
  - done.
  - done.
  - intros [|j] a' Hj Ha; [|lia]. injection Ha as <-. by vm_compute.
  - exists m, s. split; [exact E|exact Es].
Defined.
